(* ===== verification/_CoqProject ===== *)
-Q . S2P
Prelude.v
Codec.v
Json.v
World.v
Float64.v
Auth.v
AuthGuard.v
Ledger.v
TigerBeetle.v
CommerceDb.v
Mojaloop.v
Loyalty.v
Payments.v
LoyaltyTheorems.v
PaymentProofs.v
PaymentTheorems.v
Refunds.v
Wallets.v
Entitlements.v
Billing.v
Advertising.v
Trading.v
Carbon.v
System.v
AuditLog.v
InfraDb.v
Dispatch.v
DispatchTheorems.v
Incidents.v
IncidentTheorems.v
Temporal.v
Toggles.v
Stations.v
StationTheorems.v
Depot.v
DepotTheorems.v
Keycloak.v
KeycloakHttp.v
Onboarding.v
OnboardingTheorems.v
OnboardingLive.v
Users.v
Passenger.v
PassengerTheorems.v
Gtfs.v
Drt.v
DrtTheorems.v
Gdpr.v
Permify.v
Compliance.v
AuditClient.v
Routes.v
Dashboards.v
Fleet.v
Ops.v
Events.v
Deployment.v
