(* ===== verification/Prelude.v ===== *)
(** * H2Fleet: a verification development for the Go services

    H2Fleet runs a hydrogen and electric bus fleet.  Its Go side is a set of
    HTTP services over PostgreSQL, a TigerBeetle double-entry ledger, a Kafka
    event backbone, Temporal workflows and a Mojaloop payment switch.  This
    development models all of them: services/go/commerce-api, which moves
    money, infra-api, which runs the ground operation, citizen-api for
    passengers, fleet-api for the vehicles, admin-api with its identity plane
    and operations pages, audit-log with the client every service carries,
    toggle-service with the gates of every route, and the guards all share,
    packages/go-auth.

    ** Parts of the program and where they are modelled

    - [Prelude] (this file): machine integers with their wrap-around, errors
      and results, JSON values, sums over tables, the proof automation.
    - [Codec]: base64url, hex, big-endian integers and SHA-256 on bytes, and
      the functions of package strings that the sources call.  [Json]: what
      the sources use of encoding/json on raw bytes.
    - [World]: the effects of a handler.  A handler is a function of type
      [World -> A * World]; the world holds the committed tables, the ledger,
      the published events, the clock, the UUIDs drawn, the HTTP peer and a
      schedule of faults.  Each external call takes the next outcome: done,
      lost, or done with the reply lost.  A transaction is the function of its
      pending writes; commit applies it, every early return drops it.
    - [Float64]: binary64 arithmetic, math.Round, the %.2f verb.
    - [Auth], [AuthGuard]: packages/go-auth/jwt.go, the claims and roles, then
      the key cache, token verification and the three guards.
    - [Ledger]: internal/ledger/ledger.go, with the type class [Ledger] for
      its interface, [LedgerSpec] for what callers rely on, and the in-memory
      implementation; [TigerBeetle]: the TigerBeetle implementation over the
      client library, whose documented laws are the class [TBClientLaws].
      Handlers are verified against [LedgerSpec] only, so each of their
      theorems holds for both ledgers.
    - [CommerceDb]: the tables EnsureSchema creates, with their constraints as
      errors of the inserting statements.
    - [Mojaloop]: internal/mojaloop (client.go, ilp.go, errors.go).
    - [Payments], [PaymentProofs], [PaymentTheorems], [Refunds]:
      handlers/payments.go, that is pricing, wallet allocation, CreatePayment,
      RefundPayment and the reads.
    - [Loyalty], [LoyaltyTheorems]: handlers/loyalty.go.  [Wallets]:
      handlers/wallets.go.  [Entitlements]: handlers/entitlements.go.
      [Billing]: handlers/billing.go.  [Advertising]: handlers/advertising.go.
      [Trading]: handlers/trading.go.  [Carbon]: consumers/carbon.go.
    - [AuditLog]: services/go/audit-log, the hash-chained store with its
      verifier, the anomaly detector and the handlers.
    - [AuditClient]: services/go/audit-log/pkg/auditclient, the middleware
      and the client, against the ingest endpoint of [AuditLog], which is one
      instance of the class [AuditPeer] they are written for.
    - [Events]: internal/events of three services and citizen-api's
      internal/pubsub, proved to refine the effect [publish] of [World].
    - [System]: all writing handlers over the commerce tables as one
      transition system with the environment's steps.

    - [InfraDb]: what the infra-api handlers share: SQL's three-valued logic,
      ORDER BY with LIMIT, the database server as a parameter ([PgServer]), Temporal signals, and
      two proof frameworks, preservation of a preorder by every call ([keeps])
      and fault-free runs ([quiet_step]).
    - [Dispatch], [DispatchTheorems]: handlers/dispatch.go, drivers.go,
      charters.go of infra-api and the requeue activity.
    - [Incidents], [IncidentTheorems]: handlers/incidents.go, webhooks.go,
      evidence.go and the incident activities.
    - [Temporal]: internal/workflow/workflows.go, the dispatch and
      incident-response workflows as functions of their event history, and
      their composition with the handlers that signal them.
    - [Stations], [StationTheorems]: handlers/stations.go and queue.go.
      [Depot], [DepotTheorems]: handlers/depot.go and
      consumers/maintenance.go.
    - [Compliance]: handlers/compliance.go, over the rows of the components
      above.
    - [Keycloak], [KeycloakHttp]: admin-api's internal/keycloak, the interface
      of the admin client as the class [AdminClient] with the laws the callers
      rely on ([DirectoryLaws]), its in-memory implementation, and the HTTP
      client against a documented Keycloak, proved to refine one abstract
      account directory.  [Onboarding], [OnboardingTheorems], [OnboardingLive]:
      internal/onboarding; [Users]: internal/users.  Both are verified against
      the laws, so their theorems hold for either client.
    - [Passenger], [PassengerTheorems]: citizen-api's handlers/passenger.go,
      the network, the arrivals board and the journey planner; [Gtfs]:
      handlers/gtfs.go; [Drt], [DrtTheorems]: handlers/drt.go and
      consumers/drt.go over the fleet, telemetry and the dispatch jobs of
      [Dispatch]; [Gdpr]: handlers/me.go over the tables of [Drt] and
      [CommerceDb], proved to keep the invariants of [System] and
      [LoyaltyTheorems].
    - [Fleet]: fleet-api's handlers, handlers/chargers.go of infra-api and
      handlers/carbon.go of citizen-api.
    - [Dashboards]: admin-api's internal/kpi and internal/modules, and
      handlers/dashboard.go of commerce-api.
    - [Ops]: admin-api's internal/ops, citizen-api's handlers/opendata.go and
      the mobile configuration of handlers/passenger.go.
    - [Deployment]: what is read from the environment (admin-api's and
      audit-log's internal/config, packages/go-db), the targets of the health
      sweep, and audit-log's internal/mirror.
    - [Permify]: packages/go-auth/permify.go on bytes.
    - [Routes]: cmd/server/main.go of the seven services and admin-api's
      internal/server: the route tables as data, and the composition of the
      middlewares in front of a handler.
    - [Toggles]: services/go/toggle-service, packages/toggle-client and
      internal/gate, with Redis as the class [Redis] of its documented laws,
      and the machine that interleaves their requests.

    Each handler is one definition with the name it has in Go, composed of
    definitions for its phases; the state of a component is a record of finite
    maps from primary key to row.  Where a handler is not one transaction (a
    refund, an invoice payment, a trade, a campaign update, a work order's
    transition, a toggle's read and update, the write of a dispatch job or a
    charter vehicle) the part after its first read or write is a definition of
    its own, and the theorems about races run it on a state another request has
    changed.

    ** What the theorems show

    - The service as a whole: an invariant over payments, wallets, invoices,
      catalogue and ledger holds in every reachable state, by induction on the
      step relation [commerce_step].
    - Money: one debit per idempotency key, one refund of the remainder, one
      credit per top-up key, one posting per invoice, trade and carbon credit,
      over any history of attempts under any faults; settled payments and
      executed trades are announced only when the ledger has posted them; without
      faults a payment is what the ledger answers, settled or failed, over any
      ledger.
    - Fares: the daily cap, the best entitlement in any row order, corporate
      accruals that complete the fare, invoices equal to their lines.
    - Ledger: the in-memory ledger refines an abstract double-entry ledger and
      its int64 arithmetic does not wrap; TigerBeetle meets the interface.
    - Protocol: retries of the Mojaloop client end within the budget and carry
      one transfer id; the ILP packet decodes to its fields.
    - Access: guarded handlers run only for verified tokens with a required
      role; payments are shown to their owner and staff only.
    - Books of the other components: loyalty points, catalogue, distinct
      wallets and clearing accounts, ad slots, ad budgets (up to a single cost
      that wraps the check), station surplus.
    - Audit: the last hash of an accepted trail commits to its whole history
      (unless two rows of the tables themselves were hashed from different
      texts to one digest), honest appends keep the trail accepted, alerts are
      rate limited; an audited handler does what it did without the audit on
      the request it is handed, whose captured body is cut at 64 KiB, with one
      row per success and none per refusal; the mirror holds copies only and
      counts what it loses.
    - Routes: for every route, handler, request and fault, a handler runs only
      when every middleware in front of it admits the request; every write but
      two needs credentials; in the four services with modules a disabled one
      serves nothing; an update passed on by admin-api changes what its caller may change.
    - Dispatch: no active jobs share a driver or a vehicle, however the writes
      interleave with the checks, by the unique indexes; the operations refine an abstract job board; jobs are accepted by their own active
      driver; a cancelled charter holds nothing; hours of service; the window
      test is interval intersection; the workflow comes to rest between events
      and a job's journey; the response to a leak follows what is signalled.
    - Incidents: typed tables, severity that only rises, final resolution,
      emergency until the last critical incident resolves, signed partner
      requests, what the evidence linkage really decides.
    - Stations and depot: the life of a queue entry and of a work order (what
      holds of it under any interleaving, and what as long as no transition is
      overtaken), one
      draw-down per completion, queues that never stall without faults,
      predictions that become exactly one open order.
    - Toggles: a gate serves only a module that was enabled a bounded time ago,
      over every interleaving; updates read back; seeding keeps choices.
    - Onboarding and users: sign-up takes over no account, only platform
      administrators grant persona roles, an administrator remains, five
      requests a day, each HTTP call is one change of the directory or none,
      reconciliation is one pass and repairs.
    - Passengers: the planner offers every direct ride and every transfer
      exactly once, its loops end when headways are positive, the feed's files
      parse back and its departures are the board's followed by those after
      the end of service.
    - Rides: their life over every interleaving of statements, the exact check
      of a vehicle, nearest free vehicle, one ride per vehicle as long as
      events are handled one at a time and nobody assigns by hand.
    - Data-subject rights: whole exports, erasure of seven tables or none that
      unlinks the rider and keeps every book.
    - Permify: the encoder decodes to what it means, the parser agrees with the
      wire format and ends, the middleware fails closed.
    - Compliance and dashboards: each section is exact or named as missing
      (a count by group that was cut off lacks groups), in whatever order
      concurrent sources end; listings show the right rows,
      the newest per bus, the riskiest predictions; the alert feed never
      passes for calm.
    - Where the code falls short of its comments there is a theorem that runs
      the code on the offending input (racing refunds, shared key space, the
      wallet range, budget overflow, a cancelled trade that executes, a failed
      carbon credit that is skipped, an untouched audit trail reported as
      broken, a filter that always fails, a second shift refused, a requeued
      job nobody picks up, an SOS refused for a missing position, a stale cache
      fill that outlives an update, a promotion beside the bus being served, a
      lost promotion that stalls a queue, a closed work order reopened, a route
      without headway that hangs the planner, a second leg read in the wrong
      zone, two events that book one vehicle, a rider who cannot be erased
      twice, a resolution time windowed by opening, a body cut by its own
      audit, a mutation that hides from it, revenue that was never charged, a
      range computed for another fuel, a failed payment billed to the employer,
      a suspended driver who accepts).

    ** Bounds, fuel and conventions

    Amounts are [Z] and wrap where Go computes in int64 or uint64; theorems
    that need it assume that a decoded request field is in its Go range.  The
    clock is in milliseconds (nanoseconds in [AuditLog], [Passenger] and
    [Gtfs]).  Strings are byte strings of ASCII text; ids are opaque strings, taken to be well-formed UUIDs where the column is a
    uuid and the column's input is not a parameter.  These recursions are not
    structural: the retry loop of the Mojaloop client, whose fuel [do_fuel]
    exceeds the number of attempts the retry budget admits
    ([do_terminates_within_budget]); the workflows' settling between two
    events, whose fuel is the number of buffered signals
    ([dispatch_workflow_settles]); the paged reconciliation, whose fuel
    [reconcile_fuel] exceeds the number of pages ([reconcile_is_one_pass]); the
    departure loop, whose fuel [day_fuel] is the minutes of a day and which a
    headway of zero never ends ([passenger_queries_answered],
    [zero_headway_never_answered]); the protobuf parser, whose fuel is the
    length of the bytes ([response_parser_ends]); and the JSON scanner, for which more fuel than the length of the text changes
    nothing ([valid_stable]).
    The fault schedule is a list, and an exhausted schedule is fault free, so
    a theorem for every schedule covers every finite pattern of failures.

    ** What is not modelled

    The zip of the GTFS feed, the DDL of EnsureSchema, the health endpoints
    (a ping each), the metrics middlewares, logging, process start-up and
    shutdown, time.ParseDuration for one setting, and the HTTP router, of
    which the tables use the documented pattern syntax.  PostgreSQL isolation
    is modelled at the granularity the locks of the code give: a locked
    transaction is one step; a queue join or completion is one step too,
    although two joins at the same instant can both find the queue empty.  Code outside the repository
    (golang-jwt, the TigerBeetle client, pgx's numeric codec, the time zone
    database, UUID generation, jsonb's canonical text, PostGIS distances,
    Redis, Keycloak, Permify, the Temporal engine) is a parameter or an event
    history.  What is left of the sources is calls into libraries and constant
    texts, which have no behaviour of their own to state. *)

From stdpp Require Export prelude strings gmap pretty list numbers.
From Stdlib Require Export ZArith Lia.
From Stdlib Require SpecFloat.

#[export] Set Default Proof Using "Type".
#[export] Set Warnings "-clear-no-such-hyp".

Declare Scope go_scope.
Delimit Scope go_scope with go.
#[global] Open Scope Z_scope.

(** ** Machine integers

    Go's [int64], [uint64] and PostgreSQL's [integer] as [Z] with the
    wrap-around (or range check) written out. *)

Definition two63 : Z := 9223372036854775808.
Definition two64 : Z := 18446744073709551616.

(** Conversion or arithmetic result truncated to [int64]. *)
Definition wrap_i64 (z : Z) : Z := (z + two63) mod two64 - two63.

(** Conversion to [uint64]. *)
Definition wrap_u64 (z : Z) : Z := z mod two64.

Definition i64 (z : Z) : Prop := - two63 <= z < two63.
Definition u64 (z : Z) : Prop := 0 <= z < two64.

(** The range of a PostgreSQL [integer] column and of [bigint]. *)
Definition in_int4 (z : Z) : bool := (-2147483648 <=? z) && (z <=? 2147483647).
Definition in_int8 (z : Z) : bool := (- two63 <=? z) && (z <? two63).

Lemma wrap_i64_id z : i64 z -> wrap_i64 z = z.
Proof.
  unfold i64, wrap_i64, two63, two64. intros H.
  rewrite Z.mod_small; lia.
Qed.

Lemma wrap_i64_range z : i64 (wrap_i64 z).
Proof.
  unfold i64, wrap_i64, two63, two64.
  pose proof (Z.mod_pos_bound (z + 9223372036854775808) 18446744073709551616); lia.
Qed.

Lemma wrap_u64_id z : u64 z -> wrap_u64 z = z.
Proof. unfold u64, wrap_u64. intros. apply Z.mod_small; lia. Qed.

Lemma wrap_i64_u64 z : 0 <= z < two63 -> wrap_i64 (wrap_u64 z) = z.
Proof.
  intros H. rewrite wrap_u64_id by (unfold u64, two63, two64 in *; lia).
  apply wrap_i64_id. unfold i64, two63 in *; lia.
Qed.

Lemma in_int8_i64 z : in_int8 z = true <-> i64 z.
Proof. unfold in_int8, i64. rewrite andb_true_iff, Z.leb_le, Z.ltb_lt. lia. Qed.

(** ** Errors as values

    The Go code returns an [error] beside the value and tests it with
    [errors.Is]/[errors.As]; the model keeps the cases the code tells apart. *)

Inductive error : Type :=
| ErrNoRows                          (* pgx.ErrNoRows *)
| PgError (code : string)            (* *pgconn.PgError with its SQLSTATE *)
| ErrIO (what : string)              (* transport failure of an external call *)
| ErrInsufficientFunds               (* ledger.ErrInsufficientFunds (wrapped) *)
| ErrMsg (msg : string).             (* any other errors.New / fmt.Errorf *)

#[global] Instance error_eq_dec : EqDecision error.
Proof. solve_decision. Defined.

(** SQLSTATE codes the handlers or the schema produce. *)
Definition unique_violation : string := "23505".
Definition foreign_key_violation : string := "23503".
Definition check_violation : string := "23514".
Definition numeric_value_out_of_range : string := "22003".

Inductive result (A : Type) : Type :=
| Ok (a : A)
| Err (e : error).
Arguments Ok {A} _.
Arguments Err {A} _.

Definition result_map {A B} (f : A -> B) (r : result A) : result B :=
  match r with Ok a => Ok (f a) | Err e => Err e end.

Definition is_ok {A} (r : result A) : bool :=
  match r with Ok _ => true | Err _ => false end.

(** ** JSON values: response bodies, event payloads, JWT claims. *)

#[warnings="-register-all"]
Inductive json : Type :=
| JNull
| JBool (b : bool)
| JInt (z : Z)
| JFloat (f : SpecFloat.spec_float)
| JStr (s : string)
| JTime (t : Z)                      (* an RFC 3339 timestamp, by its instant *)
| JList (l : list json)
| JObj (fields : list (string * json)).

(** A Go [map[string]any] literal under assignment [m[k] = v]. *)
Fixpoint jset (k : string) (v : json) (o : list (string * json)) : list (string * json) :=
  match o with
  | [] => [(k, v)]
  | (k', v') :: o' => if decide (k = k') then (k, v) :: o' else (k', v') :: jset k v o'
  end.

Fixpoint jget (k : string) (o : list (string * json)) : option json :=
  match o with
  | [] => None
  | (k', v') :: o' => if decide (k = k') then Some v' else jget k o'
  end.

Lemma jget_jset_eq k v o : jget k (jset k v o) = Some v.
Proof. induction o as [|[k' v'] o IH]; simpl; repeat (case_decide; simpl); congruence. Qed.

Lemma jget_jset_ne k k' v o : k <> k' -> jget k (jset k' v o) = jget k o.
Proof.
  intros Hne. induction o as [|[k'' v''] o IH]; simpl; repeat (case_decide; simpl); congruence.
Qed.

(** Decoding a struct field: absent or null leaves the zero value, another
    type is a decoding error. *)
Definition dec_str (o : list (string * json)) (k : string) : option string :=
  match jget k o with
  | None | Some JNull => Some ""
  | Some (JStr s) => Some s
  | _ => None
  end.

Definition dec_obj (o : list (string * json)) (k : string) : option (list (string * json)) :=
  match jget k o with
  | None | Some JNull => Some []
  | Some (JObj f) => Some f
  | _ => None
  end.

Definition doc_obj (doc : json) : option (list (string * json)) :=
  match doc with JObj f => Some f | JNull => Some [] | _ => None end.

(** A name between double quotes, as the error messages write it. *)
Definition quoted (s : string) : string :=
  let dq := String (Ascii.ascii_of_nat 34) "" in dq +:+ s +:+ dq.

(** A nullable string column rendered with [omitempty] or as [null]. *)
Definition jopt_str (o : option string) : json :=
  match o with Some s => JStr s | None => JNull end.

(** ** Sums over finite maps: SQL [sum] aggregates and balance totals. *)

Section MapSum.
Context {K : Type} `{Countable K} {V : Type}.

Definition msum (f : K -> V -> Z) (m : gmap K V) : Z :=
  map_fold (fun k v acc => f k v + acc) 0 m.

Lemma msum_empty f : msum f ∅ = 0.
Proof. apply map_fold_empty. Qed.

Lemma msum_insert_new f (m : gmap K V) k v :
  m !! k = None -> msum f (<[k:=v]> m) = f k v + msum f m.
Proof.
  intros Hk. unfold msum.
  rewrite map_fold_insert_L; [done | intros; lia | done].
Qed.

Lemma msum_delete f (m : gmap K V) k v :
  m !! k = Some v -> msum f m = f k v + msum f (delete k m).
Proof.
  intros Hk. rewrite <- (insert_delete_id m k v Hk) at 1.
  apply msum_insert_new, lookup_delete_eq.
Qed.

Lemma msum_insert_old f (m : gmap K V) k v v' :
  m !! k = Some v -> msum f (<[k:=v']> m) = msum f m - f k v + f k v'.
Proof.
  intros Hk. rewrite (msum_delete f m k v Hk).
  rewrite <- insert_delete_eq.
  rewrite msum_insert_new by apply lookup_delete_eq. lia.
Qed.

Lemma msum_le f g (m : gmap K V) :
  (forall k v, m !! k = Some v -> f k v <= g k v) -> msum f m <= msum g m.
Proof.
  induction m as [|k v m Hk IH] using map_ind; intros Hle.
  - by rewrite !msum_empty.
  - rewrite !msum_insert_new by done.
    assert (f k v <= g k v) by (apply Hle, lookup_insert_eq).
    enough (msum f m <= msum g m) by lia.
    apply IH. intros k' v' Hl. apply Hle.
    rewrite lookup_insert_ne; congruence.
Qed.

Lemma msum_ext f g (m : gmap K V) :
  (forall k v, m !! k = Some v -> f k v = g k v) -> msum f m = msum g m.
Proof.
  intros Heq. apply Z.le_antisymm; apply msum_le; intros k v Hk; rewrite (Heq k v Hk); lia.
Qed.

Lemma msum_zero f (m : gmap K V) :
  (forall k v, m !! k = Some v -> f k v = 0) -> msum f m = 0.
Proof.
  induction m as [|k v m Hk IH] using map_ind; intros Hz; [apply msum_empty|].
  rewrite msum_insert_new by done. rewrite (Hz k v) by apply lookup_insert_eq.
  rewrite IH; [done|]. intros k' v' Hk'. apply Hz. rewrite lookup_insert_ne; [done|congruence].
Qed.

Lemma msum_nonneg f (m : gmap K V) :
  (forall k v, m !! k = Some v -> 0 <= f k v) -> 0 <= msum f m.
Proof.
  intros Hnn. transitivity (msum (fun _ _ => 0) m); [|by apply msum_le].
  induction m as [|k v m Hk IH] using map_ind; [by rewrite msum_empty|].
  rewrite msum_insert_new by done.
  transitivity (msum (fun _ _ => 0) m); [|lia]. apply IH.
  intros k' v' Hl. apply Hnn with (k := k'). rewrite lookup_insert_ne; congruence.
Qed.

Lemma msum_lookup_le f (m : gmap K V) k v :
  (forall k v, m !! k = Some v -> 0 <= f k v) -> m !! k = Some v -> f k v <= msum f m.
Proof.
  intros Hnn Hk. rewrite (msum_delete f m k v Hk).
  enough (0 <= msum f (delete k m)) by lia.
  apply msum_nonneg. intros k' v' Hl. apply (Hnn k').
  by apply lookup_delete_Some in Hl as [_ ?].
Qed.

Lemma msum_add f g (m : gmap K V) : msum (fun k v => f k v + g k v) m = msum f m + msum g m.
Proof.
  induction m as [|k v m Hk IH] using map_ind; [by rewrite !msum_empty|].
  rewrite !msum_insert_new by done. lia.
Qed.
End MapSum.

Lemma msum_fmap `{Countable K} {V V'} (f : K -> V' -> Z) (g : V -> V') (m : gmap K V) :
  msum f (g <$> m) = msum (fun k v => f k (g v)) m.
Proof.
  induction m as [|k v m Hk IH] using map_ind; [by rewrite fmap_empty, !msum_empty|].
  rewrite fmap_insert, !msum_insert_new; [by rewrite IH|done|by rewrite lookup_fmap, Hk].
Qed.

(** Rows of a table in key order ([map_to_list] fixes one scan order). *)
Definition rows {V} (m : gmap string V) : list V := (map_to_list m).*2.

Lemma elem_of_rows {V} (m : gmap string V) v :
  v ∈ rows m <-> exists k, m !! k = Some v.
Proof.
  unfold rows. rewrite list_elem_of_fmap. split.
  - intros ([k v'] & -> & Hin). exists k. by apply elem_of_map_to_list.
  - intros [k Hk]. exists (k, v). split; [done|]. by apply elem_of_map_to_list.
Qed.

(** [count] of the rows that satisfy a predicate, as a sum. *)
Lemma count_rows {V} (P : V -> Prop) `{forall v, Decision (P v)} (m : gmap string V) :
  Z.of_nat (length (filter P (rows m))) = msum (fun _ v => if decide (P v) then 1 else 0) m.
Proof.
  induction m as [|k v m Hk IH] using map_ind; [by rewrite msum_empty|].
  rewrite msum_insert_new by done. rewrite <- IH. unfold rows.
  assert (filter P (map_to_list (<[k:=v]> m)).*2 ≡ₚ filter P (v :: (map_to_list m).*2)) as ->.
  { by rewrite map_to_list_insert. }
  rewrite filter_cons. case_decide; simpl; lia.
Qed.

(** [SELECT ... WHERE p LIMIT 1] on a table whose [p] selects at most one row. *)
Definition find_row {V} (p : V -> bool) (m : gmap string V) : option V :=
  head (filter (fun v => p v = true) (rows m)).

Lemma find_row_Some {V} (p : V -> bool) (m : gmap string V) v :
  find_row p m = Some v -> p v = true /\ exists k, m !! k = Some v.
Proof.
  unfold find_row. intros Hh.
  destruct (filter _ (rows m)) as [|x l] eqn:E; simplify_eq/=.
  assert (v ∈ filter (fun v => p v = true) (rows m)) as Hin by (rewrite E; left).
  apply list_elem_of_filter in Hin as [Hp Hin]. split; [done|]. by apply elem_of_rows.
Qed.

Lemma find_row_None {V} (p : V -> bool) (m : gmap string V) :
  find_row p m = None <-> forall k v, m !! k = Some v -> p v = false.
Proof.
  unfold find_row. split.
  - intros Hh k v Hk. destruct (p v) eqn:Ep; [|done]. exfalso.
    assert (v ∈ filter (fun v => p v = true) (rows m)) as Hin.
    { apply list_elem_of_filter. split; [done|]. apply elem_of_rows. eauto. }
    destruct (filter _ (rows m)); [by apply not_elem_of_nil in Hin | done].
  - intros Hall. destruct (filter _ (rows m)) as [|x l] eqn:E; [done|]. exfalso.
    assert (x ∈ filter (fun v => p v = true) (rows m)) as Hin by (rewrite E; left).
    apply list_elem_of_filter in Hin as [Hp (k & Hk)%elem_of_rows].
    by rewrite (Hall k x Hk) in Hp.
Qed.

(** ** Automation *)

(** Split every conjunction and existential of the context, and use
    equations between constructors. *)
Ltac crush :=
  repeat match goal with
  | H : _ /\ _ |- _ => destruct H
  | H : exists _, _ |- _ => destruct H
  end; simplify_eq/=; try done.

(** Case on the boolean comparison the goal or a hypothesis is stuck on. *)
Ltac bool_cases :=
  repeat match goal with
  | |- context [if ?b then _ else _] => let E := fresh "E" in destruct b eqn:E
  | H : context [if ?b then _ else _] |- _ => let E := fresh "E" in destruct b eqn:E
  end.

(** Boolean integer tests as propositions, for [lia]. *)
Ltac zbool :=
  rewrite ?negb_true_iff, ?negb_false_iff, ?andb_true_iff, ?andb_false_iff, ?orb_true_iff, ?orb_false_iff,
    ?negb_true_iff, ?negb_false_iff, ?Z.leb_le, ?Z.leb_gt, ?Z.ltb_lt, ?Z.ltb_ge,
    ?Z.eqb_eq, ?Z.eqb_neq, ?Z.gtb_ltb, ?Z.geb_leb in *.

Create HintDb go discriminated.
Create Rewrite HintDb go.
#[export] Hint Resolve wrap_i64_range : go.
#[export] Hint Rewrite @jget_jset_eq @msum_empty : go.
