(* ===== verification/Codec.v ===== *)
(** * Byte-level codecs of Go's standard library

    What the services use of [encoding/base64] (RawURLEncoding),
    [encoding/hex], [encoding/binary] (big endian) and [crypto/sha256],
    executable, on byte lists (a byte is a [Z] between 0 and 255), and the
    calendar arithmetic of package time.  The round
    trips here are what the ILP theorems of [Mojaloop.v] rest on. *)

From Stdlib Require Import Ascii String.
From S2P Require Import Prelude.
From Stdlib Require Import List.
Import ListNotations.

Definition is_byte (b : Z) : Prop := 0 <= b < 256.

Definition ascii_byte (c : ascii) : Z := Z.of_N (N_of_ascii c).
Definition byte_ascii (b : Z) : ascii := ascii_of_N (Z.to_N b).

Definition string_bytes (s : string) : list Z := map ascii_byte (list_ascii_of_string s).
Definition bytes_string (l : list Z) : string := string_of_list_ascii (map byte_ascii l).

Lemma ascii_byte_range c : is_byte (ascii_byte c).
Proof.
  unfold is_byte, ascii_byte. pose proof (N_ascii_bounded c). lia.
Qed.

Lemma byte_ascii_byte c : byte_ascii (ascii_byte c) = c.
Proof. unfold byte_ascii, ascii_byte. rewrite N2Z.id. apply ascii_N_embedding. Qed.

Lemma ascii_byte_ascii b : is_byte b -> ascii_byte (byte_ascii b) = b.
Proof.
  unfold is_byte, byte_ascii, ascii_byte. intros H.
  rewrite N_ascii_embedding by lia. lia.
Qed.

Lemma string_bytes_range s : Forall is_byte (string_bytes s).
Proof.
  unfold string_bytes. apply Forall_fmap, Forall_true. intros c. apply ascii_byte_range.
Qed.

Lemma bytes_string_bytes l : Forall is_byte l -> string_bytes (bytes_string l) = l.
Proof.
  intros H. unfold string_bytes, bytes_string.
  rewrite list_ascii_of_string_of_list_ascii, map_map.
  induction H as [|b l Hb Hl IH]; simpl; [done|].
  by rewrite ascii_byte_ascii, IH.
Qed.

Lemma string_bytes_inj s t : string_bytes s = string_bytes t -> s = t.
Proof.
  unfold string_bytes. intros Heq.
  rewrite <- (string_of_list_ascii_of_string s), <- (string_of_list_ascii_of_string t).
  f_equal. apply (f_equal (map byte_ascii)) in Heq. rewrite !map_map in Heq.
  rewrite !(map_ext _ id byte_ascii_byte), !map_id in Heq. exact Heq.
Qed.

(** ** Big-endian integers ([binary.BigEndian.PutUint64]/[PutUint32]) *)

Fixpoint put_be (n : nat) (v : Z) : list Z :=
  match n with
  | O => []
  | S n' => put_be n' (v / 256) ++ [v mod 256]
  end.

Definition get_be (l : list Z) : Z := fold_left (fun acc b => acc * 256 + b) l 0.

Lemma put_be_length n v : length (put_be n v) = n.
Proof. revert v. induction n as [|n IH]; intros v; simpl; [done|]. rewrite length_app, IH. simpl. lia. Qed.

Lemma put_be_bytes n v : Forall is_byte (put_be n v).
Proof.
  revert v. induction n as [|n IH]; intros v; simpl; [done|].
  apply Forall_app_2; [done|]. constructor; [|done].
  unfold is_byte. apply Z.mod_pos_bound. lia.
Qed.

Lemma get_put_be n v : 0 <= v < 256 ^ Z.of_nat n -> get_be (put_be n v) = v.
Proof.
  revert v. induction n as [|n IH]; intros v Hv.
  - cbn in *. lia.
  - unfold get_be. simpl. rewrite fold_left_app. simpl.
    fold (get_be (put_be n (v / 256))). rewrite IH.
    + pose proof (Z.div_mod v 256). lia.
    + replace (Z.of_nat (S n)) with (Z.of_nat n + 1) in Hv by lia.
      rewrite Z.pow_add_r in Hv by lia. change (256 ^ 1) with 256 in Hv.
      split; [apply Z.div_pos; lia | apply Z.div_lt_upper_bound; lia].
Qed.

(** ** [base64.RawURLEncoding] *)

Definition b64_alphabet : list ascii :=
  list_ascii_of_string "ABCDEFGHIJKLMNOPQRSTUVWXYZabcdefghijklmnopqrstuvwxyz0123456789-_".

Definition b64_char (i : Z) : ascii := nth (Z.to_nat i) b64_alphabet zero.

Fixpoint index_of (c : ascii) (l : list ascii) (i : Z) : option Z :=
  match l with
  | [] => None
  | c' :: l' => if Ascii.eqb c c' then Some i else index_of c l' (i + 1)
  end.

Definition b64_index (c : ascii) : option Z := index_of c b64_alphabet 0.

Fixpoint b64_enc (l : list Z) : list ascii :=
  match l with
  | b0 :: b1 :: b2 :: l' =>
      let v := b0 * 65536 + b1 * 256 + b2 in
      b64_char (v / 262144) :: b64_char (v / 4096 mod 64)
        :: b64_char (v / 64 mod 64) :: b64_char (v mod 64) :: b64_enc l'
  | [b0; b1] =>
      let v := b0 * 65536 + b1 * 256 in
      [b64_char (v / 262144); b64_char (v / 4096 mod 64); b64_char (v / 64 mod 64)]
  | [b0] =>
      let v := b0 * 65536 in
      [b64_char (v / 262144); b64_char (v / 4096 mod 64)]
  | [] => []
  end.

(** Decoding skips CR and LF and ignores the unused low bits of a final
    partial group, as the (non-strict) Go decoder does. *)
Definition b64_skip (c : ascii) : bool :=
  (ascii_byte c =? 13) || (ascii_byte c =? 10).

Fixpoint b64_vals (l : list ascii) : option (list Z) :=
  match l with
  | [] => Some []
  | c :: l' =>
      if b64_skip c then b64_vals l'
      else match b64_index c, b64_vals l' with
           | Some i, Some is_ => Some (i :: is_)
           | _, _ => None
           end
  end.

Fixpoint b64_join (l : list Z) : option (list Z) :=
  match l with
  | c0 :: c1 :: c2 :: c3 :: l' =>
      let v := c0 * 262144 + c1 * 4096 + c2 * 64 + c3 in
      match b64_join l' with
      | Some bs => Some (v / 65536 :: v / 256 mod 256 :: v mod 256 :: bs)
      | None => None
      end
  | [c0; c1; c2] =>
      let v := c0 * 262144 + c1 * 4096 + c2 * 64 in Some [v / 65536; v / 256 mod 256]
  | [c0; c1] =>
      let v := c0 * 262144 + c1 * 4096 in Some [v / 65536]
  | [_] => None
  | [] => Some []
  end.

Definition b64_encode (l : list Z) : string := string_of_list_ascii (b64_enc l).

Definition b64_decode (s : string) : option (list Z) :=
  match b64_vals (list_ascii_of_string s) with
  | Some vs => b64_join vs
  | None => None
  end.

Definition b64_table_ok (i : Z) : bool :=
  negb (b64_skip (b64_char i)) &&
  match b64_index (b64_char i) with Some j => j =? i | None => false end.

Lemma b64_table : forallb b64_table_ok (seqZ 0 64) = true.
Proof. vm_compute. reflexivity. Qed.

Lemma b64_char_spec i :
  0 <= i < 64 -> b64_skip (b64_char i) = false /\ b64_index (b64_char i) = Some i.
Proof.
  intros Hi. pose proof b64_table as Ht. rewrite forallb_forall in Ht.
  assert (b64_table_ok i = true) as Hok.
  { apply Ht. apply list_elem_of_In, elem_of_seqZ. lia. }
  unfold b64_table_ok in Hok. apply andb_true_iff in Hok as [H1 H2].
  apply negb_true_iff in H1. destruct (b64_index _); [|done].
  apply Z.eqb_eq in H2. by subst.
Qed.

Lemma b64_vals_cons i l :
  0 <= i < 64 ->
  b64_vals (b64_char i :: l) = match b64_vals l with Some v => Some (i :: v) | None => None end.
Proof. intros Hi. simpl. destruct (b64_char_spec i Hi) as [-> ->]. done. Qed.

(** Induction three bytes at a time, the shape of [b64_enc]. *)
Lemma list_ind3 {A} (P : list A -> Prop) :
  P [] -> (forall x, P [x]) -> (forall x y, P [x; y]) ->
  (forall x y z l, P l -> P (x :: y :: z :: l)) -> forall l, P l.
Proof.
  intros H0 H1 H2 H3. fix IH 1. intros [|x [|y [|z l]]]; [exact H0|exact (H1 x)|exact (H2 x y)|exact (H3 x y z l (IH l))].
Qed.

Ltac b64_bounds := Z.to_euclidean_division_equations; lia.

Lemma b64_roundtrip l : Forall is_byte l -> b64_decode (b64_encode l) = Some l.
Proof.
  intros Hl. unfold b64_decode, b64_encode. rewrite list_ascii_of_string_of_list_ascii.
  enough (exists vs, b64_vals (b64_enc l) = Some vs /\ b64_join vs = Some l)
    as (vs & -> & Hj) by done.
  revert Hl. induction l as [|x|x y|x y z l IH] using list_ind3; intros Hl; unfold is_byte in *.
  - by exists [].
  - inversion Hl; subst. cbn [b64_enc]. rewrite !b64_vals_cons by b64_bounds. cbn.
    eexists; split; [done|]. cbn. repeat f_equal; b64_bounds.
  - inversion Hl as [|? ? ? Hl']; subst. inversion Hl'; subst.
    cbn [b64_enc]. rewrite !b64_vals_cons by b64_bounds. cbn.
    eexists; split; [done|]. cbn. repeat f_equal; b64_bounds.
  - inversion Hl as [|? ? Hx Hl1]; subst. inversion Hl1 as [|? ? Hy Hl2]; subst.
    inversion Hl2 as [|? ? Hz Hl3]; subst. destruct (IH Hl3) as (vs & Hvs & Hj).
    cbn [b64_enc]. rewrite !b64_vals_cons by b64_bounds. rewrite Hvs.
    eexists; split; [done|]. cbn [b64_join]. rewrite Hj. repeat f_equal; b64_bounds.
Qed.

(** ** Decimal integers

    [strconv.ParseInt(raw, 10, 64)]. *)
Fixpoint parse_digits (l : list ascii) (acc : Z) : option Z :=
  match l with
  | [] => Some acc
  | c :: l' => let n := ascii_byte c - 48 in
               if (0 <=? n) && (n <=? 9) then parse_digits l' (acc * 10 + n) else None
  end.

Definition ParseInt (s : string) : option Z :=
  let '(sign, ds) := match list_ascii_of_string s with
                     | c :: l => if Ascii.eqb c "-" then (-1, l)
                                 else if Ascii.eqb c "+" then (1, l) else (1, c :: l)
                     | [] => (1, [])
                     end in
  match ds with
  | [] => None
  | _ => match parse_digits ds 0 with
         | Some n => if in_int8 (sign * n) then Some (sign * n) else None
         | None => None
         end
  end.

Lemma ParseInt_range s n : ParseInt s = Some n -> i64 n.
Proof.
  unfold ParseInt. intros H. apply in_int8_i64.
  destruct (match list_ascii_of_string s with [] => _ | _ => _ end) as [sign ds].
  destruct ds; [done|]. destruct (parse_digits _ _) as [m|]; [|done].
  destruct (in_int8 _) eqn:E; congruence.
Qed.

(** ** The [strings] functions the services use, on ASCII input *)

Definition is_space (c : ascii) : bool :=
  let n := ascii_byte c in ((9 <=? n) && (n <=? 13)) || (n =? 32).

Fixpoint drop_spaces (l : list ascii) : list ascii :=
  match l with
  | c :: l' => if is_space c then drop_spaces l' else l
  | [] => []
  end.

Definition TrimSpace (s : string) : string :=
  string_of_list_ascii (rev (drop_spaces (rev (drop_spaces (list_ascii_of_string s))))).

(** [strings.HasSuffix]. *)
Definition HasSuffix (s suffix : string) : bool :=
  (String.length suffix <=? String.length s)%nat &&
  bool_decide (String.substring (String.length s - String.length suffix) (String.length suffix) s = suffix).

(** One trailing [c], if there is one. *)
Definition TrimSuffix1 (s : string) (c : ascii) : string :=
  match rev (list_ascii_of_string s) with
  | x :: l => if Ascii.eqb x c then string_of_list_ascii (rev l) else s
  | [] => s
  end.

(** [strings.Split(s, sep)] for a one-byte separator. *)
Fixpoint split_on (c : ascii) (l cur : list ascii) : list string :=
  match l with
  | [] => [string_of_list_ascii (rev cur)]
  | x :: l' => if Ascii.eqb x c then string_of_list_ascii (rev cur) :: split_on c l' []
               else split_on c l' (x :: cur)
  end.

Definition Split (s : string) (c : ascii) : list string := split_on c (list_ascii_of_string s) [].

(** [strings.CutPrefix]: what follows the prefix, if it is there. *)
Fixpoint cut_prefix (p s : string) : option string :=
  match p, s with
  | EmptyString, _ => Some s
  | String a p', String b s' => if Ascii.eqb a b then cut_prefix p' s' else None
  | _, EmptyString => None
  end.

Example TrimSpace_example : TrimSpace "  a b  " = "a b"%string.
Proof. reflexivity. Qed.

Example Split_example : Split "a,,b" "," = ["a"; ""; "b"]%string.
Proof. reflexivity. Qed.

(** ** [hex.EncodeToString] *)

Definition hex_digit (d : Z) : ascii :=
  nth (Z.to_nat d) (list_ascii_of_string "0123456789abcdef") zero.

Definition hex_encode (l : list Z) : string :=
  string_of_list_ascii (flat_map (fun b => [hex_digit (b / 16); hex_digit (b mod 16)]) l).

(** ** [crypto/sha256] *)

Module Sha256.

Definition w32 (z : Z) : Z := z mod 4294967296.
Definition rotr (n x : Z) : Z := Z.lor (Z.shiftr x n) (w32 (Z.shiftl x (32 - n))).

Definition ch (x y z : Z) : Z := Z.lxor (Z.land x y) (Z.land (4294967295 - x) z).
Definition maj (x y z : Z) : Z := Z.lxor (Z.lxor (Z.land x y) (Z.land x z)) (Z.land y z).
Definition bsig0 (x : Z) : Z := Z.lxor (Z.lxor (rotr 2 x) (rotr 13 x)) (rotr 22 x).
Definition bsig1 (x : Z) : Z := Z.lxor (Z.lxor (rotr 6 x) (rotr 11 x)) (rotr 25 x).
Definition ssig0 (x : Z) : Z := Z.lxor (Z.lxor (rotr 7 x) (rotr 18 x)) (Z.shiftr x 3).
Definition ssig1 (x : Z) : Z := Z.lxor (Z.lxor (rotr 17 x) (rotr 19 x)) (Z.shiftr x 10).

(** The constants are the first 32 fractional bits of the cube roots of the
    first 64 primes, and of the square roots of the first eight. *)
Definition is_prime (n : Z) : bool :=
  forallb (fun k => negb (n mod k =? 0)) (map Z.of_nat (seq 2 (Z.to_nat n - 2))).

Definition primes : list Z := take 64 (List.filter is_prime (map Z.of_nat (seq 2 310))).

(** The integer cube root of [n] by bisection from the bit [i] down. *)
Fixpoint cbrt_bits (i : nat) (acc n : Z) : Z :=
  match i with
  | O => acc
  | S i' => let x := acc + 2 ^ Z.of_nat i' in cbrt_bits i' (if x * x * x <=? n then x else acc) n
  end.

Definition round_constants : list Z :=
  Eval vm_compute in map (fun p => w32 (cbrt_bits 36 0 (p * 2 ^ 96))) primes.

Definition init_state : list Z :=
  Eval vm_compute in map (fun p => w32 (Z.sqrt (p * 2 ^ 64))) (take 8 primes).

(** The message schedule: the last sixteen words, newest first, give the next. *)
Fixpoint schedule (n : nat) (recent : list Z) : list Z :=
  match n with
  | O => []
  | S n' =>
      let w i := nth i recent 0 in
      let next := w32 (ssig1 (w 1%nat) + w 6%nat + ssig0 (w 14%nat) + w 15%nat) in
      next :: schedule n' (next :: take 15 recent)
  end.

Definition round (st : list Z) (kw : Z * Z) : list Z :=
  match st with
  | [a; b; c; d; e; f; g; h] =>
      let t1 := w32 (h + bsig1 e + ch e f g + kw.1 + kw.2) in
      let t2 := w32 (bsig0 a + maj a b c) in
      [w32 (t1 + t2); a; b; c; w32 (d + t1); e; f; g]
  | _ => st
  end.

Definition compress (st block : list Z) : list Z :=
  let ws := block ++ schedule 48 (rev block) in
  let st' := fold_left round (zip round_constants ws) st in
  zip_with (fun x y => w32 (x + y)) st st'.

Fixpoint words (n : nat) (l : list Z) : list Z :=
  match n with
  | O => []
  | S n' => get_be (take 4 l) :: words n' (drop 4 l)
  end.

Definition pad (msg : list Z) : list Z :=
  let n := length msg in
  let zeros := Z.to_nat ((119 - Z.of_nat n) mod 64) in
  msg ++ [128] ++ replicate zeros 0 ++ put_be 8 (8 * Z.of_nat n).

Fixpoint blocks (fuel : nat) (l st : list Z) : list Z :=
  match fuel, l with
  | S fuel', _ :: _ => blocks fuel' (drop 64 l) (compress st (words 16 (take 64 l)))
  | _, _ => st
  end.

(** [sha256.Sum256]: 32 bytes. *)
Definition Sum256 (msg : list Z) : list Z :=
  let p := pad msg in
  flat_map (put_be 4) (blocks (length p) p init_state).

End Sha256.

(** FIPS 180-2 test vectors for one and two blocks. *)
Example sha256_abc :
  hex_encode (Sha256.Sum256 (string_bytes "abc"))
  = "ba7816bf8f01cfea414140de5dae2223b00361a396177a9cb410ff61f20015ad"%string.
Proof. vm_compute. reflexivity. Qed.

Example sha256_two_blocks :
  hex_encode (Sha256.Sum256 (string_bytes "abcdbcdecdefdefgefghfghighijhijkijkljklmklmnlmnomnopnopq"))
  = "248d6a61d20638b8e5c026930c3e6039a33ce45964ff2167f6ecedd419db06c1"%string.
Proof. vm_compute. reflexivity. Qed.

Lemma Sum256_bytes msg : Forall is_byte (Sha256.Sum256 msg).
Proof.
  unfold Sha256.Sum256.
  generalize (Sha256.blocks (length (Sha256.pad msg)) (Sha256.pad msg) Sha256.init_state).
  intros st. induction st as [|w st IH]; simpl; [done|].
  repeat (constructor; [unfold is_byte; apply Z.mod_pos_bound; lia|]). exact IH.
Qed.

Lemma round_length st kw : length (Sha256.round st kw) = length st.
Proof. unfold Sha256.round. do 8 (destruct st as [|? st]; [done|]). by destruct st. Qed.

Lemma Sum256_length msg : length (Sha256.Sum256 msg) = 32%nat.
Proof.
  assert (forall st b, length (Sha256.compress st b) = length st) as Hc.
  { intros st b. unfold Sha256.compress. rewrite length_zip_with.
    enough (length (fold_left Sha256.round (zip Sha256.round_constants (b ++ Sha256.schedule 48 (rev b))) st) = length st) by lia.
    generalize (zip Sha256.round_constants (b ++ Sha256.schedule 48 (rev b))). intros l. revert st.
    induction l as [|kw l IH]; intros st; [done|]. simpl. by rewrite IH, round_length. }
  assert (forall n l st, length (Sha256.blocks n l st) = length st) as Hb.
  { induction n as [|n IH]; intros l st; [done|]. destruct l; [done|]. cbn [Sha256.blocks]. by rewrite IH, Hc. }
  unfold Sha256.Sum256. generalize (Hb (length (Sha256.pad msg)) (Sha256.pad msg) Sha256.init_state).
  generalize (Sha256.blocks (length (Sha256.pad msg)) (Sha256.pad msg) Sha256.init_state). intros st Hst.
  enough (length (flat_map (put_be 4) st) = (4 * length st)%nat) as -> by (rewrite Hst; reflexivity).
  clear. induction st as [|w st IH]; [done|]. cbn [flat_map length]. rewrite length_app, put_be_length, IH. lia.
Qed.

Lemma hex_digit_inj a b : 0 <= a < 16 -> 0 <= b < 16 -> hex_digit a = hex_digit b -> a = b.
Proof.
  intros Ha Hb. assert (forall z, 0 <= z < 16 -> In z (map Z.of_nat (seq 0 16))) as Hin.
  { intros z Hz. apply in_map_iff. exists (Z.to_nat z). split; [lia|]. apply in_seq. lia. }
  pose proof (Hin a Ha) as Ia. pose proof (Hin b Hb) as Ib. cbn in Ia, Ib.
  intros He. destruct_or? Ia; try done; subst a; destruct_or? Ib; try done; subst b; try done; vm_compute in He; discriminate.
Qed.

Lemma hex_encode_inj l l' : Forall is_byte l -> Forall is_byte l' -> hex_encode l = hex_encode l' -> l = l'.
Proof.
  unfold hex_encode. intros Hl Hl' He. apply (f_equal list_ascii_of_string) in He.
  rewrite !list_ascii_of_string_of_list_ascii in He. revert l' Hl' He.
  induction Hl as [|b l Hb Hl IH]; intros [|b' l'] Hl' He; try done. inversion Hl' as [|? ? Hb' Hl'']; subst.
  cbn in He. injection He as H1 H2 H3. unfold is_byte in *.
  apply hex_digit_inj in H1; [|split; [apply Z.div_pos|apply Z.div_lt_upper_bound]; lia..].
  apply hex_digit_inj in H2; [|apply Z.mod_pos_bound; lia..].
  f_equal; [|by apply IH]. rewrite (Z.div_mod b 16), (Z.div_mod b' 16) by lia. congruence.
Qed.

(** ** Package time: calendar dates and zero-padded numbers *)

(** Proleptic Gregorian date of a day count since 1970-01-01. *)
Definition civil_from_days (days : Z) : Z * Z * Z :=
  let z := days + 719468 in
  let era := z / 146097 in
  let doe := z mod 146097 in
  let yoe := (doe - doe / 1460 + doe / 36524 - doe / 146096) / 365 in
  let doy := doe - (365 * yoe + yoe / 4 - yoe / 100) in
  let mp := (5 * doy + 2) / 153 in
  let d := doy - (153 * mp + 2) / 5 + 1 in
  let m := if mp <? 10 then mp + 3 else mp - 9 in
  let y := yoe + era * 400 + (if m <=? 2 then 1 else 0) in
  (y, m, d).

Fixpoint digits (n : nat) (v : Z) : string :=
  match n with
  | O => ""
  | S n' => digits n' (v / 10) +:+ String (ascii_of_N (Z.to_N (48 + v mod 10))) ""
  end.
