(* ===== verification/Json.v ===== *)
(** * JSON texts

    What the code uses of encoding/json on raw bytes: the grammar check
    [json.Valid], with the library's limit of 10000 nested values, and the
    compaction that [json.Marshal] applies to a [json.RawMessage].  The
    scanner runs on fuel; [scan_stable] shows that the fuel [Valid] passes
    decides, so that no text is refused for want of it. *)

From S2P Require Import Prelude Codec.

(** ** Tokens *)

Definition is_ws (b : Z) : bool := (b =? 32) || (b =? 9) || (b =? 10) || (b =? 13).
Definition is_digit (b : Z) : bool := (48 <=? b) && (b <=? 57).
Definition is_hex (b : Z) : bool :=
  is_digit b || ((97 <=? b) && (b <=? 102)) || ((65 <=? b) && (b <=? 70)).

Fixpoint skip_ws (l : list Z) : list Z :=
  match l with b :: l' => if is_ws b then skip_ws l' else l | [] => [] end.

Fixpoint skip_digits (l : list Z) : list Z :=
  match l with b :: l' => if is_digit b then skip_digits l' else l | [] => [] end.

(** One digit or more. *)
Definition scan_digits (l : list Z) : option (list Z) :=
  match l with b :: l' => if is_digit b then Some (skip_digits l') else None | [] => None end.

Definition scan_fraction (l : list Z) : option (list Z) :=
  match l with b :: l' => if b =? 46 then scan_digits l' else Some l | [] => Some [] end.

Definition scan_exponent (l : list Z) : option (list Z) :=
  match l with
  | b :: l' =>
      if (b =? 101) || (b =? 69) then
        match l' with
        | s :: l'' => if (s =? 43) || (s =? 45) then scan_digits l'' else scan_digits l'
        | [] => None
        end
      else Some l
  | [] => Some []
  end.

(** A number: an optional sign, no leading zeros, a fraction, an exponent. *)
Definition scan_number (l : list Z) : option (list Z) :=
  let l := match l with b :: l' => if b =? 45 then l' else l | [] => [] end in
  int ← match l with b :: l' => if b =? 48 then Some l' else scan_digits l | [] => None end;
  frac ← scan_fraction int;
  scan_exponent frac.

(** What may follow a backslash, [u] apart. *)
Definition is_escape (b : Z) : bool := bool_decide (b ∈ [34; 92; 47; 98; 102; 110; 114; 116]).

(** The rest of a string after its opening quote. *)
Fixpoint scan_string (l : list Z) : option (list Z) :=
  match l with
  | [] => None
  | b :: l' =>
      if b =? 34 then Some l'
      else if b =? 92 then
        match l' with
        | e :: l'' =>
            if e =? 117 then
              match l'' with
              | h1 :: h2 :: h3 :: h4 :: l3 =>
                  if is_hex h1 && is_hex h2 && is_hex h3 && is_hex h4 then scan_string l3 else None
              | _ => None
              end
            else if is_escape e then scan_string l'' else None
        | [] => None
        end
      else if b <? 32 then None
      else scan_string l'
  end.

Fixpoint scan_literal (w l : list Z) : option (list Z) :=
  match w, l with
  | [], _ => Some l
  | x :: w', b :: l' => if x =? b then scan_literal w' l' else None
  | _ :: _, [] => None
  end.

(** ** Values *)

(** What the scanner expects: a value, the elements of an open array, the
    members of an open object. *)
Inductive expects : Type := Value | Elements | Members.

Definition maxNestingDepth : Z := 10000.

Fixpoint scan (fuel : nat) (m : expects) (depth : Z) (l : list Z) : option (list Z) :=
  match fuel with
  | O => None
  | S fuel =>
      match m with
      | Value =>
          match skip_ws l with
          | [] => None
          | b :: r =>
              if (b =? 123) || (b =? 91) then
                if maxNestingDepth <=? depth then None
                else
                  match skip_ws r with
                  | [] => None
                  | c :: r' =>
                      if c =? b + 2 then Some r'
                      else scan fuel (if b =? 123 then Members else Elements) (depth + 1) (c :: r')
                  end
              else if b =? 34 then scan_string r
              else if b =? 116 then scan_literal (string_bytes "rue") r
              else if b =? 102 then scan_literal (string_bytes "alse") r
              else if b =? 110 then scan_literal (string_bytes "ull") r
              else scan_number (b :: r)
          end
      | Elements =>
          r ← scan fuel Value depth l;
          match skip_ws r with
          | c :: r' => if c =? 44 then scan fuel Elements depth r' else if c =? 93 then Some r' else None
          | [] => None
          end
      | Members =>
          match skip_ws l with
          | q :: r =>
              if q =? 34 then
                r ← scan_string r;
                match skip_ws r with
                | c :: r' =>
                    if c =? 58 then
                      r ← scan fuel Value depth r';
                      match skip_ws r with
                      | c :: r' => if c =? 44 then scan fuel Members depth r' else if c =? 125 then Some r' else None
                      | [] => None
                      end
                    else None
                | [] => None
                end
              else None
          | [] => None
          end
      end
  end.

Definition Valid (l : list Z) : bool :=
  match scan (2 * length l + 2) Value 0 l with
  | Some r => bool_decide (skip_ws r = [])
  | None => false
  end.

(** ** Compaction *)

(** [compact] with escaping, as [json.Marshal] runs it on raw messages: white
    space outside strings goes, and the characters that are special in HTML
    or in JavaScript lines are escaped. *)
Definition u_escape (s : string) : list Z := 92 :: 117 :: string_bytes s.

Fixpoint compact_loop (quoted escaped : bool) (l : list Z) : list Z :=
  match l with
  | [] => []
  | b :: l' =>
      if b =? 60 then u_escape "003c" ++ compact_loop quoted false l'
      else if b =? 62 then u_escape "003e" ++ compact_loop quoted false l'
      else if b =? 38 then u_escape "0026" ++ compact_loop quoted false l'
      else
        match l' with
        | c :: d :: l'' =>
            if (b =? 226) && (c =? 128) && ((d =? 168) || (d =? 169))
            then u_escape (if d =? 168 then "2028" else "2029") ++ compact_loop quoted false l''
            else if negb quoted && is_ws b then compact_loop quoted false l'
            else b :: compact_loop (if (b =? 34) && negb escaped then negb quoted else quoted) (quoted && (b =? 92) && negb escaped) l'
        | _ =>
            if negb quoted && is_ws b then compact_loop quoted false l'
            else b :: compact_loop (if (b =? 34) && negb escaped then negb quoted else quoted) (quoted && (b =? 92) && negb escaped) l'
        end
  end.

Definition compact (l : list Z) : list Z := compact_loop false false l.

(** ** The fuel decides *)

Lemma skip_ws_length l : (length (skip_ws l) <= length l)%nat.
Proof. induction l as [|b l IH]; simpl; [done|]. destruct (is_ws b); simpl; lia. Qed.

Lemma skip_digits_length l : (length (skip_digits l) <= length l)%nat.
Proof. induction l as [|b l IH]; simpl; [done|]. destruct (is_digit b); simpl; lia. Qed.

Lemma scan_string_length l r : scan_string l = Some r -> (length r < length l)%nat.
Proof.
  revert l r. refine (fix IH l r {struct l} := _). destruct l as [|b l]; simpl; [done|].
  destruct (b =? 34); [intros; simplify_eq; lia|]. destruct (b =? 92).
  - destruct l as [|e l]; [done|]. simpl. destruct (e =? 117).
    + destruct l as [|h1 [|h2 [|h3 [|h4 l]]]]; try done. simpl. destruct (_ && _); [|done]. intros Hr%IH. lia.
    + destruct (is_escape e); [|done]. intros Hr%IH. lia.
  - destruct (b <? 32); [done|]. intros Hr%IH. lia.
Qed.

Lemma scan_literal_length w l r : scan_literal w l = Some r -> (length r <= length l)%nat.
Proof.
  revert l. induction w as [|x w IH]; intros l; simpl; [intros; simplify_eq; lia|].
  destruct l as [|b l]; [done|]. destruct (x =? b); [|done]. intros Hr%IH. simpl. lia.
Qed.

Lemma scan_digits_length l r : scan_digits l = Some r -> (length r < length l)%nat.
Proof.
  destruct l as [|b l]; simpl; [done|]. destruct (is_digit b); [|done].
  intros. simplify_eq. pose proof (skip_digits_length l). lia.
Qed.

Lemma scan_fraction_length l r : scan_fraction l = Some r -> (length r <= length l)%nat.
Proof.
  destruct l as [|b l]; simpl; [intros; by simplify_eq|]. destruct (b =? 46).
  - intros ?%scan_digits_length. lia.
  - intros. by simplify_eq.
Qed.

Lemma scan_exponent_length l r : scan_exponent l = Some r -> (length r <= length l)%nat.
Proof.
  destruct l as [|b l]; simpl; [intros; by simplify_eq|]. destruct (_ || _); [|intros; by simplify_eq].
  destruct l as [|s l]; [done|]. destruct (_ || _); intros ?%scan_digits_length; simpl in *; lia.
Qed.

Lemma scan_number_length b l r : scan_number (b :: l) = Some r -> (length r < length (b :: l))%nat.
Proof.
  unfold scan_number. intros Hr.
  apply bind_Some in Hr as (i & Hi & (f & Hf%scan_fraction_length & He%scan_exponent_length)%bind_Some).
  enough (length i < length (b :: l))%nat by lia. clear Hf He. destruct (b =? 45).
  - destruct l as [|d l]; [done|]. destruct (d =? 48); [simplify_eq; simpl; lia|].
    apply scan_digits_length in Hi. simpl in *. lia.
  - destruct (b =? 48); [simplify_eq; simpl; lia|]. by apply scan_digits_length in Hi.
Qed.

(** A scan that succeeds has consumed something. *)
Lemma scan_consumes fuel m depth l r : scan fuel m depth l = Some r -> (length r < length l)%nat.
Proof.
  revert m depth l r. induction fuel as [|fuel IH]; intros m depth l r; [done|]. simpl. destruct m.
  - pose proof (skip_ws_length l) as Hws. destruct (skip_ws l) as [|b k]; [done|]. simpl in Hws.
    repeat case_match; simplify_eq; intros Hr; simplify_eq;
      repeat match goal with H : skip_ws ?x = _ |- _ => pose proof (skip_ws_length x); rewrite H in *; clear H end;
      try apply IH in Hr; try apply scan_string_length in Hr; try apply scan_literal_length in Hr;
      try apply scan_number_length in Hr; simpl in *; lia.
  - intros (k & Hk%IH & Hr)%bind_Some. pose proof (skip_ws_length k) as Hws.
    destruct (skip_ws k) as [|c k']; [done|]. simpl in Hws.
    destruct (c =? 44); [apply IH in Hr; lia|]. destruct (c =? 93); [simplify_eq; lia|done].
  - pose proof (skip_ws_length l) as Hws. destruct (skip_ws l) as [|q k]; [done|]. simpl in Hws.
    destruct (q =? 34); [|done]. intros (k1 & Hk%scan_string_length & Hr)%bind_Some.
    pose proof (skip_ws_length k1) as Hw1. destruct (skip_ws k1) as [|c k2]; [done|]. simpl in Hw1.
    destruct (c =? 58); [|done]. apply bind_Some in Hr as (k3 & Hk3%IH & Hr).
    pose proof (skip_ws_length k3) as Hw3. destruct (skip_ws k3) as [|c' k4]; [done|]. simpl in Hw3.
    destruct (c' =? 44); [apply IH in Hr; lia|]. destruct (c' =? 125); [simplify_eq; lia|done].
Qed.

(** The fuel a scan needs. *)
Definition enough (m : expects) (l : list Z) : nat :=
  (2 * length l + match m with Value => 1 | _ => 2 end)%nat.

Lemma scan_stable fuel fuel' m depth l :
  (enough m l <= fuel)%nat -> (enough m l <= fuel')%nat -> scan fuel m depth l = scan fuel' m depth l.
Proof.
  unfold enough. revert fuel' m depth l.
  induction fuel as [|fuel IH]; intros [|fuel'] m depth l H1 H2; try (destruct m; lia). simpl. destruct m.
  - pose proof (skip_ws_length l) as Hws. destruct (skip_ws l) as [|b k]; [done|]. simpl in Hws.
    destruct (_ || _); [|done]. destruct (_ <=? _); [done|].
    pose proof (skip_ws_length k) as Hw1. destruct (skip_ws k) as [|c k']; [done|]. simpl in Hw1.
    destruct (c =? b + 2); [done|]. apply IH; destruct (b =? 123); simpl; lia.
  - rewrite (IH fuel') by lia. destruct (scan fuel' Value depth l) as [k|] eqn:E; [|done]. simpl.
    apply scan_consumes in E. pose proof (skip_ws_length k) as Hws. destruct (skip_ws k) as [|c k']; [done|]. simpl in Hws.
    destruct (c =? 44); [|done]. apply IH; lia.
  - pose proof (skip_ws_length l) as Hws. destruct (skip_ws l) as [|q k]; [done|]. simpl in Hws.
    destruct (q =? 34); [|done]. destruct (scan_string k) as [k1|] eqn:Ek; [|done]. simpl.
    apply scan_string_length in Ek. pose proof (skip_ws_length k1) as Hw1. destruct (skip_ws k1) as [|c k2]; [done|]. simpl in Hw1.
    destruct (c =? 58); [|done]. rewrite (IH fuel') by lia.
    destruct (scan fuel' Value depth k2) as [k3|] eqn:E; [|done]. simpl.
    apply scan_consumes in E. pose proof (skip_ws_length k3) as Hw3. destruct (skip_ws k3) as [|c' k4]; [done|]. simpl in Hw3.
    destruct (c' =? 44); [|done]. apply IH; lia.
Qed.

(** [Valid] with any more fuel is [Valid]. *)
Lemma valid_stable fuel l :
  (2 * length l + 2 <= fuel)%nat ->
  Valid l = match scan fuel Value 0 l with Some r => bool_decide (skip_ws r = []) | None => false end.
Proof. intros Hf. unfold Valid. by rewrite (scan_stable _ fuel) by (unfold enough; lia). Qed.

(** ** Runs *)

(** A text in which apostrophes stand for quotation marks. *)
Definition text (s : string) : list Z := map (fun b => if b =? 39 then 34 else b) (string_bytes s).

Example valid_runs :
  map (fun s => Valid (text s))
    ["{}"; " [1, -2.5e+3 ,true,null]"; "{'a':{'b':[]}}"; "01"; "[1,]"; "{'a':1} x"; "'\u00zz'"; "-"; "" ]
  = [true; true; true; false; false; false; false; false; false].
Proof. vm_compute. reflexivity. Qed.

Example compact_run :
  compact (text "{ 'a b' : 'x<\' y' , 'c' : [ 1 ] }") = text "{'a b':'x\u003c\' y','c':[1]}".
Proof. vm_compute. reflexivity. Qed.
