(* ===== verification/World.v ===== *)
(** * The world a Go handler runs in, and its effects

    A handler is a state-passing function [M A = World -> A * World].  The
    world holds the committed PostgreSQL state (type [D], one record per
    service), the ledger state (type [S]), the event backbone, the clock (in
    milliseconds), the number of UUIDs drawn, the replies of an HTTP peer and the environment's
    schedule of faults.

    Every external call consults the schedule.  [Done] is the normal outcome;
    [Lost] means the call failed without effect; [LostReply] means the effect
    took place but the caller got an error (a connection cut after the
    statement, the commit, the produce or the ledger posting).  A theorem for
    every schedule is therefore a theorem about every failure and retry.

    A transaction is the function of its pending row writes: reads inside it
    see the committed state through it, [commit] applies it, and an early
    return drops it, which is what [defer tx.Rollback] does. *)

From S2P Require Import Prelude Codec.

Inductive outcome : Type := Done | Lost | LostReply.

Record event : Type := mkEvent { ev_topic : string; ev_data : list (string * json) }.

Record response : Type := mkResponse { status : Z; body : json }.

(** One HTTP attempt at a remote peer: how long it took, and what came back. *)
Inductive http_outcome : Type :=
| HttpFail (elapsed : N) (timed_out : bool) (msg : string)
| HttpReply (elapsed : N) (code : Z) (raw : string) (doc : option json).

Record http_request : Type := mkHttpRequest { hr_method : string; hr_path : string; hr_body : json }.

(** Code outside the repository that handlers call, as parameters. *)
Class Runtime : Type := {
  getenv : string -> string;               (* os.Getenv *)
  uuid_of : nat -> string;                 (* uuid.NewString, n-th draw *)
  day_start : string -> Z -> Z;            (* date_trunc('day', t AT TIME ZONE z) AT TIME ZONE z *)
  uint128_string : list Z -> string        (* tb_types.Uint128.String *)
}.

(** A runtime for concrete runs: an empty environment, numbered UUIDs, the
    clock in milliseconds, days of 86400 seconds, transfer ids printed in hexadecimal. *)
Definition test_runtime : Runtime := {|
  getenv := fun _ => "";
  uuid_of := fun n => "uuid-" +:+ pretty n;
  day_start := fun _ t => t - t mod 86400000;
  uint128_string := hex_encode
|}.

Record World (D S : Type) : Type := mkWorld {
  w_db : D;
  w_led : S;
  w_bus : list event;
  w_now : Z;
  w_uuids : nat;
  w_sched : list outcome;
  w_http : list http_outcome;
  w_sent : list http_request
}.
Arguments mkWorld {D S} _ _ _ _ _ _ _ _.
Arguments w_db {D S} _.
Arguments w_led {D S} _.
Arguments w_bus {D S} _.
Arguments w_now {D S} _.
Arguments w_uuids {D S} _.
Arguments w_sched {D S} _.
Arguments w_http {D S} _.
Arguments w_sent {D S} _.

Section Setters.
Context {D S : Type}.
Implicit Types w : World D S.

Definition with_db (d : D) w : World D S :=
  mkWorld d (w_led w) (w_bus w) (w_now w) (w_uuids w) (w_sched w) (w_http w) (w_sent w).
Definition with_led (l : S) w : World D S :=
  mkWorld (w_db w) l (w_bus w) (w_now w) (w_uuids w) (w_sched w) (w_http w) (w_sent w).
Definition with_bus (b : list event) w : World D S :=
  mkWorld (w_db w) (w_led w) b (w_now w) (w_uuids w) (w_sched w) (w_http w) (w_sent w).
Definition with_now (t : Z) w : World D S :=
  mkWorld (w_db w) (w_led w) (w_bus w) t (w_uuids w) (w_sched w) (w_http w) (w_sent w).
Definition with_uuids (n : nat) w : World D S :=
  mkWorld (w_db w) (w_led w) (w_bus w) (w_now w) n (w_sched w) (w_http w) (w_sent w).
Definition with_sched (s : list outcome) w : World D S :=
  mkWorld (w_db w) (w_led w) (w_bus w) (w_now w) (w_uuids w) s (w_http w) (w_sent w).
Definition with_http (h : list http_outcome) w : World D S :=
  mkWorld (w_db w) (w_led w) (w_bus w) (w_now w) (w_uuids w) (w_sched w) h (w_sent w).

(** ** The monad *)

Definition M (A : Type) : Type := World D S -> A * World D S.

Definition gret {A} (a : A) : M A := fun w => (a, w).

Definition gbind {A B} (m : M A) (k : A -> M B) : M B :=
  fun w => let '(a, w') := m w in k a w'.

Definition gets {A} (f : World D S -> A) : M A := fun w => (f w, w).

(** The outcome of the next external call; an exhausted schedule is fault free. *)
Definition pop : M outcome :=
  fun w => match w_sched w with
           | [] => (Done, w)
           | o :: s => (o, with_sched s w)
           end.

(** A read-only statement on the pool: [h.db.Query]/[QueryRow]. *)
Definition db_query {A} (f : D -> result A) : M (result A) :=
  fun w => let '(o, w) := pop w in
           match o with
           | Done => (f (w_db w), w)
           | _ => (Err (ErrIO "db"), w)
           end.

(** An autocommitted writing statement on the pool.  Evaluated on the
    committed state, a statement yields its value and the row writes to apply. *)
Definition db_exec {A} (f : D -> result (A * (D -> D))) : M (result A) :=
  fun w => let '(o, w) := pop w in
           match o, f (w_db w) with
           | Done, Ok (a, g) => (Ok a, with_db (g (w_db w)) w)
           | LostReply, Ok (_, g) => (Err (ErrIO "db"), with_db (g (w_db w)) w)
           | Done, Err e => (Err e, w)
           | _, _ => (Err (ErrIO "db"), w)
           end.

(** Transactions: [h.db.Begin], statements on [tx], [tx.Commit]. *)
Definition Tx : Type := D -> D.

Definition begin : M (result Tx) :=
  fun w => let '(o, w) := pop w in
           match o with
           | Done => (Ok (fun d => d), w)
           | _ => (Err (ErrIO "begin"), w)
           end.

Definition tx_query {A} (tx : Tx) (f : D -> result A) : M (result A) :=
  fun w => let '(o, w) := pop w in
           match o with
           | Done => (f (tx (w_db w)), w)
           | _ => (Err (ErrIO "tx"), w)
           end.

(** A writing statement in a transaction: evaluated on the transaction's view,
    it yields a value and the row writes to append. *)
Definition tx_exec {A} (tx : Tx) (f : D -> result (A * (D -> D))) : M (result (A * Tx)) :=
  fun w => let '(o, w) := pop w in
           match o with
           | Done => match f (tx (w_db w)) with
                     | Ok (a, g) => (Ok (a, fun d => g (tx d)), w)
                     | Err e => (Err e, w)
                     end
           | _ => (Err (ErrIO "tx"), w)
           end.

Definition commit (tx : Tx) : M (result unit) :=
  fun w => let '(o, w) := pop w in
           match o with
           | Done => (Ok tt, with_db (tx (w_db w)) w)
           | Lost => (Err (ErrIO "commit"), w)
           | LostReply => (Err (ErrIO "commit"), with_db (tx (w_db w)) w)
           end.

(** [h.pub.Publish]: the event reaches the backbone, or not, and the caller
    may or may not learn it. *)
Definition publish (topic : string) (data : list (string * json)) : M (result unit) :=
  fun w => let '(o, w) := pop w in
           let sent := with_bus (w_bus w ++ [mkEvent topic data]) w in
           match o with
           | Done => (Ok tt, sent)
           | Lost => (Err (ErrIO "kafka"), w)
           | LostReply => (Err (ErrIO "kafka"), sent)
           end.

(** A call to the ledger service. *)
Definition led_call {A} (f : S -> result A * S) : M (result A) :=
  fun w => let '(o, w) := pop w in
           match o with
           | Done => let '(r, l) := f (w_led w) in (r, with_led l w)
           | Lost => (Err (ErrIO "ledger"), w)
           | LostReply => let '(r, l) := f (w_led w) in (Err (ErrIO "ledger"), with_led l w)
           end.

(** Send a request to the HTTP peer and take its next reply; no reply left is
    a refused connection. *)
Definition http_do (rq : http_request) : M http_outcome :=
  fun w =>
    let w := mkWorld (w_db w) (w_led w) (w_bus w) (w_now w) (w_uuids w) (w_sched w)
               (w_http w) (w_sent w ++ [rq]) in
    match w_http w with
    | [] => (HttpFail 0 false "connection refused", w)
    | h :: rest => (h, with_http rest w)
    end.

Definition new_uuid `{Runtime} : M string :=
  fun w => (uuid_of (w_uuids w), with_uuids (w_uuids w + 1)%nat w).

(** ** A weakest-precondition calculus over the monad *)

Definition wp {A} (m : M A) (Q : A -> World D S -> Prop) w : Prop :=
  Q (m w).1 (m w).2.

Lemma wp_ret {A} (a : A) (Q : A -> World D S -> Prop) w : Q a w -> wp (gret a) Q w.
Proof. done. Qed.

Lemma wp_gets {A} (f : World D S -> A) (Q : A -> World D S -> Prop) w :
  Q (f w) w -> wp (gets f) Q w.
Proof. done. Qed.

Lemma wp_bind {A B} (m : M A) (k : A -> M B) (Q : B -> World D S -> Prop) w :
  wp m (fun a => wp (k a) Q) w -> wp (gbind m k) Q w.
Proof. unfold wp, gbind. by destruct (m w). Qed.

Lemma wp_mono {A} (m : M A) (Q Q' : A -> World D S -> Prop) w :
  (forall a w', Q a w' -> Q' a w') -> wp m Q w -> wp m Q' w.
Proof. unfold wp. auto. Qed.

Lemma pop_sched w : exists o s, pop w = (o, with_sched s w).
Proof.
  unfold pop. destruct w as [d l b n u [|o s] h snt]; [exists Done, [] | exists o, s]; done.
Qed.

Lemma wp_pop (Q : outcome -> World D S -> Prop) w :
  (forall o s, Q o (with_sched s w)) -> wp pop Q w.
Proof.
  intros HQ. unfold wp. destruct (pop_sched w) as (o & s & ->). apply HQ.
Qed.

Lemma wp_db_query {A} (f : D -> result A) (Q : result A -> World D S -> Prop) w :
  (forall s, Q (f (w_db w)) (with_sched s w)) ->
  (forall s, Q (Err (ErrIO "db")) (with_sched s w)) ->
  wp (db_query f) Q w.
Proof.
  intros H1 H2. unfold wp, db_query.
  destruct (pop_sched w) as (o & s & ->). destruct o; simpl; auto.
Qed.

Lemma wp_db_exec {A} (f : D -> result (A * (D -> D))) (Q : result A -> World D S -> Prop) w :
  (forall s a g, f (w_db w) = Ok (a, g) ->
     Q (Ok a) (with_db (g (w_db w)) (with_sched s w))) ->
  (forall s a g, f (w_db w) = Ok (a, g) ->
     Q (Err (ErrIO "db")) (with_db (g (w_db w)) (with_sched s w))) ->
  (forall s e, f (w_db w) = Err e -> Q (Err e) (with_sched s w)) ->
  (forall s, Q (Err (ErrIO "db")) (with_sched s w)) ->
  wp (db_exec f) Q w.
Proof.
  intros H1 H2 H3 H4. unfold wp, db_exec.
  destruct (pop_sched w) as (o & s & ->); simpl.
  destruct o, (f (w_db w)) as [[a d]|e] eqn:E; simpl; eauto.
Qed.

Lemma wp_begin (Q : result Tx -> World D S -> Prop) w :
  (forall s, Q (Ok (fun d => d)) (with_sched s w)) ->
  (forall s, Q (Err (ErrIO "begin")) (with_sched s w)) ->
  wp begin Q w.
Proof.
  intros H1 H2. unfold wp, begin.
  destruct (pop_sched w) as (o & s & ->).
  destruct o; simpl; auto.
Qed.

Lemma wp_tx_query {A} (tx : Tx) (f : D -> result A) (Q : result A -> World D S -> Prop) w :
  (forall s, Q (f (tx (w_db w))) (with_sched s w)) ->
  (forall s, Q (Err (ErrIO "tx")) (with_sched s w)) ->
  wp (tx_query tx f) Q w.
Proof.
  intros H1 H2. unfold wp, tx_query.
  destruct (pop_sched w) as (o & s & ->).
  destruct o; simpl; auto.
Qed.

Lemma wp_tx_exec {A} (tx : Tx) (f : D -> result (A * (D -> D)))
    (Q : result (A * Tx) -> World D S -> Prop) w :
  (forall s a g, f (tx (w_db w)) = Ok (a, g) -> Q (Ok (a, fun d => g (tx d))) (with_sched s w)) ->
  (forall s e, f (tx (w_db w)) = Err e -> Q (Err e) (with_sched s w)) ->
  (forall s, Q (Err (ErrIO "tx")) (with_sched s w)) ->
  wp (tx_exec tx f) Q w.
Proof.
  intros H1 H2 H3. unfold wp, tx_exec.
  destruct (pop_sched w) as (o & s & ->); simpl.
  destruct o; simpl; auto. destruct (f (tx (w_db w))) as [[a g]|e] eqn:E; simpl; auto.
Qed.

Lemma wp_commit (tx : Tx) (Q : result unit -> World D S -> Prop) w :
  (forall s, Q (Ok tt) (with_db (tx (w_db w)) (with_sched s w))) ->
  (forall s, Q (Err (ErrIO "commit")) (with_db (tx (w_db w)) (with_sched s w))) ->
  (forall s, Q (Err (ErrIO "commit")) (with_sched s w)) ->
  wp (commit tx) Q w.
Proof.
  intros H1 H2 H3. unfold wp, commit.
  destruct (pop_sched w) as (o & s & ->).
  destruct o; simpl; auto.
Qed.

Lemma wp_publish topic data (Q : result unit -> World D S -> Prop) w :
  (forall s r, Q r (with_bus (w_bus w ++ [mkEvent topic data]) (with_sched s w))) ->
  (forall s e, Q (Err e) (with_sched s w)) ->
  wp (publish topic data) Q w.
Proof.
  intros H1 H2. unfold wp, publish.
  destruct (pop_sched w) as (o & s & ->).
  destruct o; simpl; [apply H1 | apply H2 | apply H1].
Qed.

Lemma wp_led_call {A} (f : S -> result A * S) (Q : result A -> World D S -> Prop) w :
  (forall s r l, f (w_led w) = (r, l) -> Q r (with_led l (with_sched s w))) ->
  (forall s r l, f (w_led w) = (r, l) ->
     Q (Err (ErrIO "ledger")) (with_led l (with_sched s w))) ->
  (forall s, Q (Err (ErrIO "ledger")) (with_sched s w)) ->
  wp (led_call f) Q w.
Proof.
  intros H1 H2 H3. unfold wp, led_call.
  destruct (pop_sched w) as (o & s & ->); simpl.
  destruct o, (f (w_led w)) as [r l] eqn:E; simpl; eauto.
Qed.

Definition with_sent (rs : list http_request) w : World D S :=
  mkWorld (w_db w) (w_led w) (w_bus w) (w_now w) (w_uuids w) (w_sched w) (w_http w) rs.

Lemma wp_http_do rq (Q : http_outcome -> World D S -> Prop) w :
  (forall o h, Q o (with_sent (w_sent w ++ [rq]) (with_http h w))) -> wp (http_do rq) Q w.
Proof.
  unfold wp, http_do. intros HQ. destruct w as [d l b n u s h snt]; simpl in *.
  destruct h as [|o h]; [apply (HQ _ [])|apply (HQ _ h)].
Qed.

Lemma wp_new_uuid `{Runtime} (Q : string -> World D S -> Prop) w :
  Q (uuid_of (w_uuids w)) (with_uuids (w_uuids w + 1)%nat w) -> wp new_uuid Q w.
Proof. done. Qed.

(** *** The same calls when no fault is scheduled *)

Lemma pop_done w : w_sched w = [] -> pop w = (Done, w).
Proof. unfold pop. by intros ->. Qed.

Lemma wp_begin_done (Q : result Tx -> World D S -> Prop) w :
  w_sched w = [] -> Q (Ok (fun d => d)) w -> wp begin Q w.
Proof. intros Hs HQ. unfold wp, begin. by rewrite pop_done. Qed.

Lemma wp_db_query_done {A} (f : D -> result A) (Q : result A -> World D S -> Prop) w :
  w_sched w = [] -> Q (f (w_db w)) w -> wp (db_query f) Q w.
Proof. intros Hs HQ. unfold wp, db_query. by rewrite pop_done. Qed.

Lemma wp_tx_query_done {A} (tx : Tx) (f : D -> result A) (Q : result A -> World D S -> Prop) w :
  w_sched w = [] -> Q (f (tx (w_db w))) w -> wp (tx_query tx f) Q w.
Proof. intros Hs HQ. unfold wp, tx_query. by rewrite pop_done. Qed.

Lemma wp_tx_exec_done {A} (tx : Tx) (f : D -> result (A * (D -> D))) a g
    (Q : result (A * Tx) -> World D S -> Prop) w :
  w_sched w = [] -> f (tx (w_db w)) = Ok (a, g) -> Q (Ok (a, fun d => g (tx d))) w -> wp (tx_exec tx f) Q w.
Proof. intros Hs Hf HQ. unfold wp, tx_exec. rewrite pop_done by done. by rewrite Hf. Qed.

Lemma wp_db_exec_done {A} (f : D -> result (A * (D -> D))) a g (Q : result A -> World D S -> Prop) w :
  w_sched w = [] -> f (w_db w) = Ok (a, g) -> Q (Ok a) (with_db (g (w_db w)) w) -> wp (db_exec f) Q w.
Proof. intros Hs Hf HQ. unfold wp, db_exec. rewrite pop_done by done. by rewrite Hf. Qed.

Lemma wp_commit_done (tx : Tx) (Q : result unit -> World D S -> Prop) w :
  w_sched w = [] -> Q (Ok tt) (with_db (tx (w_db w)) w) -> wp (commit tx) Q w.
Proof. intros Hs HQ. unfold wp, commit. by rewrite pop_done. Qed.

Lemma wp_publish_done topic data (Q : result unit -> World D S -> Prop) w :
  w_sched w = [] -> Q (Ok tt) (with_bus (w_bus w ++ [mkEvent topic data]) w) -> wp (publish topic data) Q w.
Proof. intros Hs HQ. unfold wp, publish. by rewrite pop_done. Qed.

Lemma wp_led_call_done {A} (f : S -> result A * S) r l (Q : result A -> World D S -> Prop) w :
  w_sched w = [] -> f (w_led w) = (r, l) -> Q r (with_led l w) -> wp (led_call f) Q w.
Proof. intros Hs Hf HQ. unfold wp, led_call. rewrite pop_done by done. by rewrite Hf. Qed.

End Setters.

Arguments M : clear implicits.
Arguments Tx : clear implicits.

(** Sequencing, and the two ways the code reacts to an error value:
    [try!] returns early with the handler's answer, as
    [if err != nil { ...; return }] does. *)
Notation "'let!' x := m 'in' k" := (gbind m (fun x => k))
  (at level 10, x name, m at level 100, k at level 200,
   format "'[v' 'let!'  x  :=  m  'in' '/' k ']'") : go_scope.
Notation "'let!' ' p := m 'in' k" := (gbind m (fun x => match x with p => k end))
  (at level 10, p pattern, m at level 100, k at level 200) : go_scope.
Notation "'do!' m 'in' k" := (gbind m (fun _ => k))
  (at level 10, m at level 100, k at level 200) : go_scope.
Notation "'try!' x := m 'catch' e => h 'in' k" :=
  (gbind m (fun r => match r with Ok x => k | Err e => h end))
  (at level 10, x pattern, m at level 100, e name, h at level 200, k at level 200) : go_scope.

(** ** Responses *)

Definition json_error (code : Z) (msg : string) : response :=
  mkResponse code (JObj [("error", JStr msg)]).

(** [writeJSON(w, status, map[string]string{"error": msg})] and return. *)
Definition reply_error {D S} (code : Z) (msg : string) : M D S response :=
  gret (json_error code msg).

Definition reply {D S} (code : Z) (b : json) : M D S response :=
  gret (mkResponse code b).

(** [h.internal]: log, answer 500 without leaking the error. *)
Definition internal {D S} (op : string) (e : error) : M D S response :=
  reply_error 500 "internal error".

(** One step of symbolic execution of a handler, every outcome considered. *)
Ltac wp_step :=
  lazymatch goal with
  | |- wp (gbind _ _) _ _ => apply wp_bind
  | |- wp (gret _) _ _ => apply wp_ret
  | |- wp (reply_error _ _) _ _ => apply wp_ret
  | |- wp (reply _ _) _ _ => apply wp_ret
  | |- wp (internal _ _) _ _ => apply wp_ret
  | |- wp (gets _) _ _ => apply wp_gets
  | |- wp (db_query _) _ _ => apply wp_db_query; intros
  | |- wp (db_exec _) _ _ => apply wp_db_exec; intros
  | |- wp begin _ _ => apply wp_begin; intros
  | |- wp (tx_query _ _) _ _ => apply wp_tx_query; intros
  | |- wp (tx_exec _ _) _ _ => apply wp_tx_exec; intros
  | |- wp (commit _) _ _ => apply wp_commit; intros
  | |- wp (publish _ _) _ _ => apply wp_publish; intros
  | |- wp (led_call _) _ _ => apply wp_led_call; intros
  | |- wp (http_do _) _ _ => apply wp_http_do; intros
  | |- wp new_uuid _ _ => apply wp_new_uuid
  end.
