(* ===== verification/Float64.v ===== *)
(** * IEEE 754 binary64 arithmetic

    What the services use of Go's [float64]: the standard library's
    specification of binary64 ([SpecFloat] at precision 53), the literals of
    the source, the [%.2f] verb of fmt, [math.Max] and [math.Round], and the
    conversion to [uint64].  [PgNumeric] is how the database driver moves a
    [float64] in and out of a numeric column, which is code outside the
    repository; numeric columns themselves compute exactly, in [Qc]. *)

From Stdlib Require Export SpecFloat QArith_base Qcanon.
From Stdlib Require Import Ascii String.
From S2P Require Import Prelude Codec.

Abbreviation float64 := spec_float.

Definition fadd : float64 -> float64 -> float64 := SFadd 53 1024.
Definition fsub : float64 -> float64 -> float64 := SFsub 53 1024.
Definition flt : float64 -> float64 -> bool := SFltb.
Definition fle : float64 -> float64 -> bool := SFleb.

Definition fzero : float64 := S754_zero false.

(** The [float64] nearest to 10^-9. *)
Definition f1em9 : float64 := S754_finite false 4835703278458517 (-82).

(** An integer as [float64], rounded to nearest even. *)
Definition float_of_Z (z : Z) : float64 := binary_normalize 53 1024 z 0 false.

(** [n / d] rounded to the nearest integer, ties to even and ties away from zero. *)
Definition div_even (n d : Z) : Z :=
  let q := n / d in
  let r := n mod d in
  if 2 * r <? d then q else if d <? 2 * r then q + 1 else if Z.even q then q else q + 1.

Definition div_away (n d : Z) : Z := (2 * n + d) / (2 * d).

(** [m * 2^e] as a fraction. *)
Definition fraction (m : positive) (e : Z) : Z * Z :=
  if 0 <=? e then (Z.pos m * 2 ^ e, 1) else (Z.pos m, 2 ^ (- e)).

Definition two_digits (z : Z) : string :=
  (if z <? 10 then "0" else "") +:+ pretty (Z.to_N z).

(** [fmt.Sprintf("%.2f", f)]. *)
Definition fmt2f (f : float64) : string :=
  match f with
  | S754_zero s => (if s then "-" else "") +:+ "0.00"
  | S754_infinity s => if s then "-Inf" else "+Inf"
  | S754_nan => "NaN"
  | S754_finite s m e =>
      let '(n, d) := fraction m e in
      let c := div_even (100 * n) d in
      (if s then "-" else "") +:+ pretty (Z.to_N (c / 100)) +:+ "." +:+ two_digits (c mod 100)
  end.

(** [math.Max(f, 0)]. *)
Definition fmax0 (f : float64) : float64 :=
  match f with
  | S754_nan => S754_nan
  | _ => if flt fzero f then f else fzero
  end.

(** [math.Round], which is exact, as an integer; [None] for Inf and NaN. *)
Definition round_int (f : float64) : option Z :=
  match f with
  | S754_zero _ => Some 0
  | S754_finite s m e =>
      let '(n, d) := fraction m e in
      Some (if s then - div_away n d else div_away n d)
  | _ => None
  end.

(** [strconv.FormatFloat(f, 'f', prec, 64)]. *)
Definition FormatFloat_f (prec : nat) (f : float64) : string :=
  let point (n : Z) : string :=
    if decide (prec = 0%nat) then pretty (Z.to_N n)
    else pretty (Z.to_N (n / 10 ^ Z.of_nat prec)) +:+ "." +:+ digits prec (n mod 10 ^ Z.of_nat prec) in
  match f with
  | S754_zero s => (if s then "-" else "") +:+ point 0
  | S754_infinity s => if s then "-Inf" else "+Inf"
  | S754_nan => "NaN"
  | S754_finite s m e =>
      let '(n, d) := fraction m e in
      (if s then "-" else "") +:+ point (div_even (10 ^ Z.of_nat prec * n) d)
  end.

(** The conversion [int(f)]: truncation toward zero; [None] where the result
    does not fit, which the language leaves to the implementation. *)
Definition trunc_int (f : float64) : option Z :=
  match f with
  | S754_zero _ => Some 0
  | S754_finite s m e =>
      let '(n, d) := fraction m e in
      let z := if s then - (n / d) else n / d in
      if in_int8 z then Some z else None
  | _ => None
  end.

(** The driver's conversions between [float64] and numeric. *)
Class PgNumeric : Type := {
  numeric_of_float : float64 -> Qc;
  float_of_numeric : Qc -> result float64
}.

(** Conversions for concrete runs: the exact value of a [float64], and the
    [float64] nearest to a number. *)
Definition exact_value (f : float64) : Qc :=
  match f with
  | S754_finite s m e =>
      let '(n, d) := fraction m e in
      Q2Qc (Qmake (if s then - n else n) (Z.to_pos d))
  | _ => 0%Qc
  end.

Definition nearest_float (q : Qc) : float64 :=
  match Qnum q with
  | Z0 => fzero
  | Zpos n => let '(m, e, l) := SFdiv_core_binary 53 1024 (Zpos n) 0 (Zpos (Qden q)) 0 in
              binary_round_aux 53 1024 false m e l
  | Zneg n => let '(m, e, l) := SFdiv_core_binary 53 1024 (Zpos n) 0 (Zpos (Qden q)) 0 in
              binary_round_aux 53 1024 true m e l
  end.

Definition test_numeric : PgNumeric := {|
  numeric_of_float := exact_value;
  float_of_numeric := fun q => Ok (nearest_float q)
|}.

(** ** [strconv.ParseFloat(s, 64)]

    The scanner of [readFloat] with its decimal and hexadecimal syntax, the
    underscore rule and the special names; a syntax or range error is [None]. *)

Definition lower (c : ascii) : Z := Z.lor (ascii_byte c) 32.

Definition is_digit (c : ascii) : bool := (48 <=? ascii_byte c) && (ascii_byte c <=? 57).

Definition hex_letter (c : ascii) : bool := (97 <=? lower c) && (lower c <=? 102).

(** [underscoreOK] after the sign: [saw] is the last kind of character seen. *)
Inductive saw_kind : Type := SawStart | SawDigit | SawUnderscore | SawOther.

Fixpoint underscore_scan (hex : bool) (saw : saw_kind) (l : list ascii) : bool :=
  match l with
  | [] => match saw with SawUnderscore => false | _ => true end
  | c :: l' =>
      if is_digit c || hex && hex_letter c then underscore_scan hex SawDigit l'
      else if ascii_byte c =? 95 then match saw with SawDigit => underscore_scan hex SawUnderscore l' | _ => false end
      else match saw with SawUnderscore => false | _ => underscore_scan hex SawOther l' end
  end.

Definition underscoreOK (l : list ascii) : bool :=
  match l with
  | c :: x :: l' =>
      if (ascii_byte c =? 48) && ((lower x =? 98) || (lower x =? 111) || (lower x =? 120))
      then underscore_scan (lower x =? 120) SawDigit l'
      else underscore_scan false SawStart l
  | _ => underscore_scan false SawStart l
  end.

Record mantissa : Type := mkMantissa {
  mt_value : Z; mt_frac : Z; mt_dot : bool; mt_digits : bool; mt_underscores : bool }.

(** The digits, the point and the underscores of the mantissa; what is left. *)
Fixpoint scan_mantissa (hex : bool) (m : mantissa) (l : list ascii) : mantissa * list ascii :=
  match l with
  | [] => (m, [])
  | c :: l' =>
      if ascii_byte c =? 95
      then scan_mantissa hex (mkMantissa (mt_value m) (mt_frac m) (mt_dot m) (mt_digits m) true) l'
      else if ascii_byte c =? 46 then
        if mt_dot m then (m, l)
        else scan_mantissa hex (mkMantissa (mt_value m) (mt_frac m) true (mt_digits m) (mt_underscores m)) l'
      else
        let frac := if mt_dot m then mt_frac m + 1 else mt_frac m in
        let base := if hex then 16 else 10 in
        if is_digit c
        then scan_mantissa hex (mkMantissa (mt_value m * base + (ascii_byte c - 48)) frac (mt_dot m) true (mt_underscores m)) l'
        else if hex && hex_letter c
        then scan_mantissa hex (mkMantissa (mt_value m * base + (lower c - 87)) frac (mt_dot m) true (mt_underscores m)) l'
        else (m, l)
  end.

(** Exponent digits, capped as the scanner caps them. *)
Fixpoint scan_exponent (e : Z) (us : bool) (l : list ascii) : Z * bool * list ascii :=
  match l with
  | [] => (e, us, [])
  | c :: l' =>
      if ascii_byte c =? 95 then scan_exponent e true l'
      else if is_digit c then scan_exponent (if e <? 10000 then e * 10 + (ascii_byte c - 48) else e) us l'
      else (e, us, l)
  end.

Definition read_exponent (hex : bool) (l : list ascii) : option (Z * bool * list ascii) :=
  match l with
  | c :: l' =>
      if lower c =? (if hex then 112 else 101) then
        let '(sign, l'') := match l' with
                            | x :: r => if ascii_byte x =? 43 then (1, r) else if ascii_byte x =? 45 then (-1, r) else (1, l')
                            | [] => (1, l')
                            end in
        match l'' with
        | d :: _ => if is_digit d then let '(e, us, r) := scan_exponent 0 false l'' in Some (sign * e, us, r) else None
        | [] => None
        end
      else if hex then None else Some (0, false, l)
  | [] => if hex then None else Some (0, false, [])
  end.

(** The nearest [float64] to [n * base ^ e], where [base] is 10 or 2. *)
Definition scaled (base n e : Z) : float64 :=
  if 0 <=? e then nearest_float (Q2Qc (Qmake (n * base ^ e) 1))
  else nearest_float (Q2Qc (Qmake n (Z.to_pos (base ^ (- e))))).

Definition special_float (l : list ascii) : option float64 :=
  match map lower l with
  | [105; 110; 102] | [105; 110; 102; 105; 110; 105; 116; 121] => Some (S754_infinity false)
  | _ => None
  end.

Definition ParseFloat (s : string) : option float64 :=
  let l := list_ascii_of_string s in
  let '(signed, neg, l) := match l with
                   | c :: r => if ascii_byte c =? 43 then (true, false, r)
                               else if ascii_byte c =? 45 then (true, true, r) else (false, false, l)
                   | [] => (false, false, l)
                   end in
  match special_float l with
  | Some f => Some (if neg then SFopp f else f)
  | None =>
      if negb signed && bool_decide (map lower l = [110; 97; 110]) then Some S754_nan
      else
        let '(hex, ds) := match l with
                          | c :: x :: r => if (ascii_byte c =? 48) && (lower x =? 120) && negb (bool_decide (r = []))
                                           then (true, r) else (false, l)
                          | _ => (false, l)
                          end in
        let '(m, r) := scan_mantissa hex (mkMantissa 0 0 false false false) ds in
        if negb (mt_digits m) then None
        else match read_exponent hex r with
             | Some (e, us, []) =>
                 if (mt_underscores m || us) && negb (underscoreOK l) then None
                 else
                   let f := if hex then scaled 2 (mt_value m) (e - 4 * mt_frac m)
                            else scaled 10 (mt_value m) (e - mt_frac m) in
                   match f with
                   | S754_infinity _ => None
                   | _ => Some (if neg then SFopp f else f)
                   end
             | _ => None
             end
  end.
