(* ===== verification/Auth.v ===== *)
(** * Authentication and realm roles

    Models of packages/go-auth/jwt.go the claims a request carries and the
    role and subject lookups the handlers use; the guard that puts the claims
    there is in [AuthGuard]. *)

From S2P Require Import Prelude World.

(** ** Claims in the request context *)

(** [jwt.MapClaims], absent when no guard ran. *)
Definition claims : Type := option (list (string * json)).

Definition Subject (ctx : claims) : string :=
  match ctx with
  | Some c => match jget "sub" c with Some (JStr sub) => sub | _ => "" end
  | None => ""
  end.

Fixpoint has_string (s : string) (l : list json) : bool :=
  match l with
  | [] => false
  | JStr x :: l' => if decide (x = s) then true else has_string s l'
  | _ :: l' => has_string s l'
  end.

Definition hasRole (ctx : claims) (role : string) : bool :=
  match ctx with
  | None => false
  | Some c =>
      match jget "realm_access" c with
      | Some (JObj realm) =>
          match jget "roles" realm with
          | Some (JList roles) => has_string role roles
          | _ => false
          end
      | _ => false
      end
  end.

Fixpoint HasAnyRole (ctx : claims) (roles : list string) : bool :=
  match roles with
  | [] => false
  | r :: rs => if hasRole ctx r then true else HasAnyRole ctx rs
  end.

(** The staff roles that may see other riders' data. *)
Definition staff (ctx : claims) : bool := HasAnyRole ctx ["operator"; "platform-admin"].

(** Concrete claims for witnesses. *)
Definition claims_of (sub : string) (roles : list string) : claims :=
  Some [("sub", JStr sub); ("realm_access", JObj [("roles", JList (map JStr roles))])].

Lemma Subject_claims_of sub roles : Subject (claims_of sub roles) = sub.
Proof. done. Qed.
