(* ===== verification/AuthGuard.v ===== *)
(** * The JWT guard

    Models the middleware of packages/go-auth/jwt.go: its configuration, the
    cache of realm keys and its refresh, the verification of a token, and the
    role guards in front of the handlers.  Parsing a token and checking its
    signature, expiry and method is golang-jwt's, a parameter ([TokenLib]). *)

From Stdlib Require Import Ascii.
From S2P Require Import Prelude Codec World Auth.

Open Scope go_scope.

(** An RSA public key: modulus and exponent. *)
Record rsa_key : Type := mkRsaKey { rsa_n : Z; rsa_e : Z }.

#[global] Instance rsa_key_eq_dec : EqDecision rsa_key.
Proof. solve_decision. Defined.

(** What [jwt.ParseWithClaims] does with a token, for the options the code
    passes (RS256 only, expiration required): the kid and claims it carries if
    it is well formed and signed by an allowed method (the key is looked up
    only then), and whether it accepts it under a key at a time. *)
Class TokenLib : Type := {
  token_kid : string -> option string;
  token_claims : string -> option (list (string * json));
  token_accepted : Z -> string -> rsa_key -> bool
}.

(** ** The middleware's state *)

Record jwksKey : Type := mkJwksKey { jk_kty : string; jk_kid : string; jk_n : string; jk_e : string }.

(** What the realm's JWKS endpoint answers. *)
Inductive jwks_reply : Type :=
| JwksUnreachable
| JwksStatus (code : Z)
| JwksBadBody
| JwksDocument (keys : list jwksKey).

(** [fetchedAt] is [None] for the zero time of a middleware that never fetched. *)
Record Middleware : Type := mkMiddleware {
  mw_issuers : list string;
  mw_audience : string;
  mw_jwksURL : string;
  mw_keys : gmap string rsa_key;
  mw_fetchedAt : option Z
}.

Definition defaultAltIssuer : string := "http://localhost:8088/realms/h2fleet".

(** The loop over the alternative issuers: trimmed, without blanks and duplicates. *)
Fixpoint add_issuers (alts issuers : list string) : list string :=
  match alts with
  | [] => issuers
  | a :: alts' =>
      let a := TrimSuffix1 (TrimSpace a) "/" in
      if decide (a = "") then add_issuers alts' issuers
      else if decide (a ∈ issuers) then add_issuers alts' issuers
      else add_issuers alts' (issuers ++ [a])
  end.

Definition New (env : string -> string) (issuer : string) : Middleware :=
  let issuer := TrimSuffix1 issuer "/" in
  let issuers := if decide (issuer = "") then [] else [issuer] in
  let alt := env "KEYCLOAK_ISSUER_ALT" in
  let alt := if decide (alt = "") then defaultAltIssuer else alt in
  mkMiddleware (add_issuers (Split alt ",") issuers) (TrimSpace (env "KEYCLOAK_AUDIENCE"))
    (if decide (issuer = "") then "" else issuer +:+ "/protocol/openid-connect/certs") ∅ None.

(** ** Keys *)

(** [e = e<<8 | int(b)] over the bytes, in [int64]. *)
Definition exponent_of (bytes : list Z) : Z :=
  fold_left (fun e b => wrap_i64 (Z.lor (wrap_i64 (Z.shiftl e 8)) b)) bytes 0.

Definition parseRSAPublicKey (nB64 eB64 : string) : result rsa_key :=
  match b64_decode nB64 with
  | None => Err (ErrMsg "illegal base64 data")
  | Some n =>
      match b64_decode eB64 with
      | None => Err (ErrMsg "illegal base64 data")
      | Some e => if exponent_of e =? 0 then Err (ErrMsg "invalid exponent")
                  else Ok (mkRsaKey (get_be n) (exponent_of e))
      end
  end.

(** The usable keys of a document; a later key with the same kid replaces an earlier one. *)
Fixpoint usable_keys (ks : list jwksKey) (acc : gmap string rsa_key) : gmap string rsa_key :=
  match ks with
  | [] => acc
  | k :: ks' =>
      if decide (jk_kty k = "RSA") then
        match parseRSAPublicKey (jk_n k) (jk_e k) with
        | Ok pub => usable_keys ks' (<[jk_kid k := pub]> acc)
        | Err _ => usable_keys ks' acc
        end
      else usable_keys ks' acc
  end.

(** [time.Since(m.fetchedAt)] against a bound, in milliseconds. *)
Definition older_than (m : Middleware) (now limit : Z) : bool :=
  match mw_fetchedAt m with None => true | Some t => limit <? now - t end.

Definition fetched_within (m : Middleware) (now limit : Z) : bool :=
  match mw_fetchedAt m with None => false | Some t => now - t <? limit end.

Definition refreshJWKS (m : Middleware) (now : Z) (rep : jwks_reply) : result unit * Middleware :=
  if fetched_within m now 10000 then (Ok tt, m)
  else match rep with
  | JwksUnreachable => (Err (ErrMsg "fetch jwks"), m)
  | JwksStatus code => if code =? 200 then (Err (ErrMsg "decode jwks"), m)
                       else (Err (ErrMsg ("fetch jwks: status " +:+ pretty code)), m)
  | JwksBadBody => (Err (ErrMsg "decode jwks"), m)
  | JwksDocument ks =>
      let keys := usable_keys ks ∅ in
      if decide (keys = ∅) then (Err (ErrMsg "jwks document contained no usable RSA keys"), m)
      else (Ok tt, mkMiddleware (mw_issuers m) (mw_audience m) (mw_jwksURL m) keys (Some now))
  end.

Definition publicKey (m : Middleware) (now : Z) (rep : jwks_reply) (kid : string) : result rsa_key * Middleware :=
  match mw_keys m !! kid, older_than m now 300000 with
  | Some key, false => (Ok key, m)
  | cached, _ =>
      let '(r, m') := refreshJWKS m now rep in
      match r with
      | Err e => match cached with Some key => (Ok key, m') | None => (Err e, m') end
      | Ok _ => match mw_keys m' !! kid with
                | Some key => (Ok key, m')
                | None => (Err (ErrMsg ("unknown kid " +:+ quoted kid)), m')
                end
      end
  end.

(** ** Verification *)

Definition audienceContains (aud : option json) (want : string) : bool :=
  match aud with
  | Some (JStr s) => bool_decide (s = want)
  | Some (JList l) => has_string want l
  | _ => false
  end.

Definition acceptsIssuer (m : Middleware) (iss : string) : bool :=
  bool_decide (TrimSuffix1 iss "/" ∈ mw_issuers m).

Definition claim_string (c : list (string * json)) (k : string) : string :=
  match jget k c with Some (JStr s) => s | _ => "" end.

Section Guard.
Context `{TokenLib}.

Definition verify (m : Middleware) (now : Z) (rep : jwks_reply) (raw : string)
    : result (list (string * json)) * Middleware :=
  match token_claims raw with
  | None => (Err (ErrMsg "token is malformed"), m)
  | Some c =>
      let '(k, m') := publicKey m now rep (default "" (token_kid raw)) in
      match k with
      | Err e => (Err e, m')
      | Ok key =>
          if negb (token_accepted now raw key) then (Err (ErrMsg "token is unverifiable"), m')
          else if negb (acceptsIssuer m' (claim_string c "iss"))
          then (Err (ErrMsg ("unexpected issuer " +:+ quoted (claim_string c "iss"))), m')
          else if negb (bool_decide (mw_audience m' = "")) && negb (audienceContains (jget "aud" c) (mw_audience m'))
          then (Err (ErrMsg ("token audience does not include " +:+ quoted (mw_audience m'))), m')
          else (Ok c, m')
      end
  end.

Definition bearerToken (authorization : string) : string :=
  match cut_prefix "Bearer " authorization with
  | Some t => TrimSpace t
  | None => ""
  end.

(** The refusal, or the claims the next handler runs with. *)
Definition guard (m : Middleware) (now : Z) (rep : jwks_reply) (authorization : string)
    : (response + list (string * json)) * Middleware :=
  if decide (mw_jwksURL m = "")
  then (inl (json_error 503 "authentication not configured (KEYCLOAK_ISSUER unset)"), m)
  else
    let token := bearerToken authorization in
    if decide (token = "") then (inl (json_error 401 "missing bearer token"), m)
    else
      let '(r, m') := verify m now rep token in
      match r with
      | Err _ => (inl (json_error 401 "invalid token"), m')
      | Ok c => (inr c, m')
      end.

(** [RequireAuth], [RequireRole] and [RequireAnyRole] in front of a handler. *)
Definition RequireAuth {D S} (g : response + list (string * json)) (next : claims -> M D S response)
    : M D S response :=
  match g with inl refusal => gret refusal | inr c => next (Some c) end.

Definition RequireRole {D S} (role : string) (g : response + list (string * json))
    (next : claims -> M D S response) : M D S response :=
  RequireAuth g (fun ctx =>
    if hasRole ctx role then next ctx
    else reply_error 403 ("missing required realm role: " +:+ role)).

Fixpoint join_roles (roles : list string) : string :=
  match roles with
  | [] => ""
  | [r] => r
  | r :: rs => r +:+ ", " +:+ join_roles rs
  end.

Definition RequireAnyRole {D S} (roles : list string) (g : response + list (string * json))
    (next : claims -> M D S response) : M D S response :=
  RequireAuth g (fun ctx =>
    if HasAnyRole ctx roles then next ctx
    else reply_error 403 ("missing required realm role (any of): " +:+ join_roles roles)).

(** ** Who gets through *)

Lemma refresh_config m now rep :
  let m' := (refreshJWKS m now rep).2 in
  mw_issuers m' = mw_issuers m /\ mw_audience m' = mw_audience m /\ mw_jwksURL m' = mw_jwksURL m.
Proof.
  unfold refreshJWKS. destruct (fetched_within _ _ _); [done|]. destruct rep; try done.
  - by destruct (_ =? _).
  - cbv zeta. by case_decide.
Qed.

Lemma publicKey_spec m now rep kid r m' :
  publicKey m now rep kid = (r, m') ->
  mw_issuers m' = mw_issuers m /\ mw_audience m' = mw_audience m /\
  (forall key, r = Ok key -> mw_keys m' !! kid = Some key \/
     (* the cache is kept when the refresh fails *)
     mw_keys m !! kid = Some key /\ m' = m).
Proof.
  unfold publicKey. intros Hk.
  assert (forall cached, (let '(r0, m0) := refreshJWKS m now rep in
      match r0 with
      | Err e => match cached with Some key => (Ok key, m0) | None => (Err e, m0) end
      | Ok _ => match mw_keys m0 !! kid with Some key => (Ok key, m0)
                | None => (Err (ErrMsg ("unknown kid " +:+ quoted kid)), m0) end
      end) = (r, m') -> cached = mw_keys m !! kid ->
    mw_issuers m' = mw_issuers m /\ mw_audience m' = mw_audience m /\
    (forall key, r = Ok key -> mw_keys m' !! kid = Some key \/ mw_keys m !! kid = Some key /\ m' = m)) as Href.
  { intros cached E Hc. pose proof (refresh_config m now rep) as (C1 & C2 & _).
    destruct (refreshJWKS m now rep) as [[[]|e] m0] eqn:Er; simpl in *.
    - destruct (mw_keys m0 !! kid) eqn:E0; simplify_eq; (split_and!; [done|done|]); intros key Hr; simplify_eq; by left.
    - assert (m0 = m) as ->.
      { unfold refreshJWKS in Er. repeat case_match; by simplify_eq. }
      subst. destruct (mw_keys m !! kid) eqn:E0; simplify_eq; (split_and!; [done|done|]); intros key Hr; simplify_eq; by right. }
  destruct (mw_keys m !! kid) as [key|] eqn:E0; [destruct (older_than m now 300000)|].
  - by apply (Href (Some key)).
  - simplify_eq. split_and!; [done|done|]. intros key' Hr. simplify_eq. by left.
  - by apply (Href None).
Qed.

(** What the guard vouches for when it lets claims through. *)
Definition vouched (m m' : Middleware) (now : Z) (token : string) (c : list (string * json)) : Prop :=
  token_claims token = Some c /\
  acceptsIssuer m (claim_string c "iss") = true /\
  (mw_audience m <> "" -> audienceContains (jget "aud" c) (mw_audience m) = true) /\
  exists key, (mw_keys m' !! default "" (token_kid token) = Some key \/
               mw_keys m !! default "" (token_kid token) = Some key) /\
    token_accepted now token key = true.

Lemma verify_spec m now rep raw c m' :
  verify m now rep raw = (Ok c, m') -> vouched m m' now raw c.
Proof.
  unfold verify, vouched. destruct (token_claims raw) as [c0|]; [|done].
  destruct (publicKey m now rep _) as [k m0] eqn:Ek. apply publicKey_spec in Ek as (C1 & C2 & Hk).
  destruct k as [key|e]; [|done].
  destruct (token_accepted now raw key) eqn:Ea; simpl; [|done].
  destruct (acceptsIssuer m0 _) eqn:Ei; simpl; [|done].
  destruct (_ && _) eqn:Eaud; [done|]. intros; simplify_eq. split_and!; [done| | |].
  - unfold acceptsIssuer in *. by rewrite <- C1.
  - intros Hne. rewrite <- C2 in *. rewrite andb_false_iff, !negb_false_iff, bool_decide_eq_true in Eaud. tauto.
  - exists key. split; [|done]. destruct (Hk key eq_refl) as [?|[? ->]]; auto.
Qed.

(** Nobody gets past the guard unverified: when a role guard runs the next
    handler, the request carried a bearer token that golang-jwt accepted at
    that time under a key of the realm's cache, from an accepted issuer, for
    the required audience if one is configured, with the required role; in
    every other case the handler does not run and nothing changes. *)
Theorem role_guard_admits_only_verified {D S} (m : Middleware) (now : Z) (rep : jwks_reply)
    (authorization role : string) (next : claims -> M D S response) (w : World D S) :
  let g := (guard m now rep authorization).1 in
  let m' := (guard m now rep authorization).2 in
  (exists c, g = inr c /\ vouched m m' now (bearerToken authorization) c /\
     bearerToken authorization <> "" /\ mw_jwksURL m <> "" /\ hasRole (Some c) role = true /\
     RequireRole role g next w = next (Some c) w) \/
  ((status (RequireRole role g next w).1 = 401 \/ status (RequireRole role g next w).1 = 403 \/
    status (RequireRole role g next w).1 = 503) /\
   (RequireRole role g next w).2 = w).
Proof.
  cbv zeta. unfold guard. case_decide as Hurl; [right; simpl; auto|].
  case_decide as Htok; [right; simpl; auto|].
  destruct (verify m now rep (bearerToken authorization)) as [[c|e] m'] eqn:Ev; [|right; simpl; auto].
  apply verify_spec in Ev. cbn [fst snd]. unfold RequireRole, RequireAuth.
  destruct (hasRole (Some c) role) eqn:Er; [left|right; simpl; auto].
  exists c. by split_and!.
Qed.

(** ** The key cache *)

(** Where the cached keys come from: the last document that was accepted. *)
Definition cache_from (docs : list (list jwksKey)) (m : Middleware) : Prop :=
  mw_keys m = ∅ \/ exists ks, ks ∈ docs /\ mw_keys m = usable_keys ks ∅.

(** A request as it reaches the guard: time, what JWKS would answer, header. *)
Definition guard_step (m : Middleware) (t : Z * jwks_reply * string) : Middleware :=
  (guard m t.1.1 t.1.2 t.2).2.

Definition documents (l : list (Z * jwks_reply * string)) : list (list jwksKey) :=
  omap (fun t => match t.1.2 with JwksDocument ks => Some ks | _ => None end) l.

Lemma refresh_keys m now rep :
  mw_keys (refreshJWKS m now rep).2 = mw_keys m \/
  exists ks, rep = JwksDocument ks /\ mw_keys (refreshJWKS m now rep).2 = usable_keys ks ∅.
Proof.
  unfold refreshJWKS. destruct (fetched_within _ _ _); [by left|]. destruct rep; try by left.
  - destruct (_ =? _); by left.
  - cbv zeta. case_decide; [by left|]. right. eauto.
Qed.

Lemma guard_keys m now rep a :
  mw_keys (guard m now rep a).2 = mw_keys m \/
  exists ks, rep = JwksDocument ks /\ mw_keys (guard m now rep a).2 = usable_keys ks ∅.
Proof.
  assert (forall kid, (publicKey m now rep kid).2 = m \/ (publicKey m now rep kid).2 = (refreshJWKS m now rep).2) as Hp.
  { intros kid. unfold publicKey. destruct (mw_keys m !! kid); [destruct (older_than _ _ _); [|by left]|];
      destruct (refreshJWKS m now rep) as [[[]|e] m0]; simpl; try destruct (mw_keys m0 !! kid); by right. }
  assert (forall raw, (verify m now rep raw).2 = m \/ (verify m now rep raw).2 = (refreshJWKS m now rep).2) as Hv.
  { intros raw. unfold verify. destruct (token_claims raw) as [c|]; [|by left].
    specialize (Hp (default "" (token_kid raw))). destruct (publicKey m now rep _) as [[key|e] m0]; [|done].
    simpl in Hp. by repeat (match goal with |- context [if ?b then _ else _] => destruct b end). }
  unfold guard. case_decide; [by left|]. case_decide; [by left|].
  specialize (Hv (bearerToken a)). destruct (verify m now rep _) as [[c|e] m0]; simpl in *;
    (destruct Hv as [->| ->]; [by left|apply refresh_keys]).
Qed.

(** The guard trusts no key the realm did not publish: over any history of
    requests and JWKS outages, the cache holds exactly the usable RSA keys of
    one document the endpoint served, or nothing. *)
Theorem key_cache_is_published (env : string -> string) (issuer : string)
    (l : list (Z * jwks_reply * string)) :
  cache_from (documents l) (foldl guard_step (New env issuer) l).
Proof.
  induction l as [|t l IH] using rev_ind; [by left|].
  rewrite foldl_app. cbn [foldl]. unfold guard_step at 1. set (m := foldl guard_step _ l) in *.
  unfold cache_from, documents. rewrite omap_app. fold (documents l).
  destruct (guard_keys m t.1.1 t.1.2 t.2) as [E|(ks & Erep & E)]; rewrite E.
  - destruct IH as [IH|(ks & Hks & IH)]; [by left|right]. exists ks. split; [|done].
    apply elem_of_app. by left.
  - right. exists ks. split; [|done]. apply elem_of_app. right. cbn [omap list_omap]. rewrite Erep. by left.
Qed.

(** A withdrawn key stops working: once the cached keys are older than five
    minutes and the endpoint serves a document without a usable key for the
    token's kid, the token is refused, whatever the cache held. *)
Theorem withdrawn_key_refused (m : Middleware) (now : Z) (ks : list jwksKey) (authorization : string)
    (Hold : older_than m now 300000 = true)
    (Husable : usable_keys ks ∅ <> ∅)
    (Hgone : usable_keys ks ∅ !! default "" (token_kid (bearerToken authorization)) = None) :
  exists refusal, (guard m now (JwksDocument ks) authorization).1 = inl refusal /\ 400 <= status refusal.
Proof.
  assert (fetched_within m now 10000 = false) as Hf.
  { unfold older_than, fetched_within in *. destruct (mw_fetchedAt m); [|done]. zbool. lia. }
  unfold guard. case_decide; [eexists; split; [done|simpl; lia]|].
  case_decide; [eexists; split; [done|simpl; lia]|]. unfold verify.
  destruct (token_claims _) as [c|]; [|eexists; split; [done|simpl; lia]].
  unfold publicKey, refreshJWKS. rewrite Hold, Hf. cbv zeta. rewrite decide_False by done.
  destruct (mw_keys m !! _); cbn [mw_keys]; rewrite Hgone; (eexists; split; [done|simpl; lia]).
Qed.
End Guard.

(** ** Concrete runs *)

(** A library that knows two tokens of a test realm, signed by different keys. *)
#[local] Instance test_tokens : TokenLib := {|
  token_kid := fun raw => if decide (raw = "t1") then Some "k1" else if decide (raw = "t2") then Some "k2" else None;
  token_claims := fun raw =>
    if decide (raw = "t1" \/ raw = "t2")
    then Some [("iss", JStr "http://localhost:8088/realms/h2fleet/"); ("sub", JStr "alice");
               ("realm_access", JObj [("roles", JList [JStr "operator"])])]
    else None;
  token_accepted := fun now raw key => bool_decide (key = mkRsaKey 65537 65537)
|}.

Definition test_jwks (kid : string) : list jwksKey := [mkJwksKey "RSA" kid "AQAB" "AQAB"; mkJwksKey "EC" "x" "" ""].

Definition fresh_mw : Middleware := New (fun _ => "") "http://keycloak:8080/realms/h2fleet".

Example guard_run :
  let '(g1, m1) := guard fresh_mw 1000 (JwksDocument (test_jwks "k1")) "Bearer t1" in
  let '(g2, m2) := guard m1 2000 JwksUnreachable "Bearer t2" in
  let '(g3, m3) := guard m2 400000 JwksUnreachable "Bearer t1 " in
  (match g1 with inr c => claim_string c "sub" | inl _ => "" end,
   match g2 with inr _ => 0 | inl r => status r end,
   match g3 with inr c => claim_string c "sub" | inl _ => "" end) = ("alice"%string, 401, "alice"%string).
Proof. vm_compute. reflexivity. Qed.

(** The cache of that run, four hundred seconds on, when the realm rotated to k2. *)
Definition rotated_mw : Middleware :=
  mkMiddleware (mw_issuers fresh_mw) "" (mw_jwksURL fresh_mw) {[ "k1" := mkRsaKey 65537 65537 ]} (Some 1000).

Lemma withdrawn_key_refused_witness :
  exists refusal, (guard rotated_mw 400000 (JwksDocument (test_jwks "k2")) "Bearer t1").1 = inl refusal /\
    400 <= status refusal.
Proof.
  apply (withdrawn_key_refused rotated_mw 400000 (test_jwks "k2") "Bearer t1").
  - vm_compute. reflexivity.
  - vm_compute. discriminate.
  - vm_compute. reflexivity.
Defined.
