(* ===== verification/Ledger.v ===== *)
(** * The double-entry ledger client

    Models services/go/commerce-api/internal/ledger/ledger.go: the transfer
    ids, the account ranges, the [Ledger] interface as a type class, the
    TigerBeetle-backed implementation over the (external) client, and the
    in-memory development ledger with its [int64] balances.

    [LedgerSpec] is what the interface promises its callers; both
    implementations are proved to meet it, and the payment, refund, wallet
    and invoice handlers are verified against it alone. *)

From S2P Require Import Prelude Codec World.

(** ** Transfer ids, codes and accounts *)

Abbreviation Uint128 := (list Z).

Definition DeterministicTransferID (idempotencyKey : string) : Uint128 :=
  take 16 (Sha256.Sum256 (string_bytes ("h2fleet:tb-transfer:" +:+ idempotencyKey))).

Definition LedgerID : Z := 1.

Definition CodeFare : Z := 100.
Definition CodeEnergy : Z := 300.
Definition CodeCarbon : Z := 400.
Definition CodeBilling : Z := 500.

Definition OperatorRevenueAccount : Z := 2001.
Definition RiderFundingAccount : Z := 2002.
Definition EnergyTradeAccount : Z := 3001.
Definition CarbonFundAccount : Z := 4001.
Definition CarbonIssuanceAccount : Z := 4002.
Definition FirstBillingAccountID : Z := 5001.

Definition isRiderWallet (id : Z) : bool := (1001 <=? id) && (id <? 2000).
Definition isBillingAccount (id : Z) : bool := (5001 <=? id) && (id <? 6000).

(** Accounts the ledger must never overdraw. *)
Definition protected (id : Z) : bool :=
  isRiderWallet id || isBillingAccount id || (id =? EnergyTradeAccount).

(** ** The interface *)

Class Ledger (L : Type) : Type := {
  led_EnsureAccount : L -> Z -> Z -> result unit * L;
  led_Transfer : L -> Uint128 -> Z -> Z -> Z -> Z -> result string * L
}.

(** The amount a transfer moves into account [x]. *)
Definition delta (debit credit amount x : Z) : Z :=
  (if decide (x = credit) then amount else 0) - (if decide (x = debit) then amount else 0).

Lemma delta_self debit amount x : delta debit debit amount x = 0.
Proof. unfold delta. case_decide; lia. Qed.

(** What a ledger promises: a transfer id that was posted is never posted
    again, an error moves nothing, a success of a new id moves exactly the
    amount, and a protected account never goes negative. *)
Class LedgerSpec (L : Type) `{Ledger L} `{Runtime} : Type := {
  led_ok : L -> Prop;
  led_balance : L -> Z -> Z;
  led_posted : L -> Uint128 -> bool;
  ledger_ok_nonneg s x : led_ok s -> protected x = true -> 0 <= led_balance s x;
  ledger_ok_step s id d c a code r s' :
    led_ok s -> 0 <= a < two63 -> led_Transfer s id d c a code = (r, s') -> led_ok s';
  ledger_replay s id d c a code r s' :
    led_ok s -> 0 <= a < two63 -> led_posted s id = true ->
    led_Transfer s id d c a code = (r, s') ->
    (forall x, led_balance s' x = led_balance s x) /\ (forall i, led_posted s' i = led_posted s i);
  ledger_error s id d c a code e s' :
    led_ok s -> 0 <= a < two63 -> led_Transfer s id d c a code = (Err e, s') ->
    (forall x, led_balance s' x = led_balance s x) /\ (forall i, led_posted s' i = led_posted s i);
  ledger_success s id d c a code h s' :
    led_ok s -> 0 <= a < two63 -> led_posted s id = false ->
    led_Transfer s id d c a code = (Ok h, s') ->
    (forall x, led_balance s' x = led_balance s x + delta d c a x) /\
    (forall i, led_posted s' i = (if decide (i = id) then true else led_posted s i));
  ledger_success_posted s id d c a code h s' :
    led_ok s -> 0 <= a < two63 -> led_Transfer s id d c a code = (Ok h, s') ->
    led_posted s' id = true /\ h = uint128_string id
}.

(** Consequences clients use: whatever the answer, at most one posting. *)
Section LedgerFacts.
Context `{LedgerSpec L}.

Lemma ledger_step_cases s id d c a code r s' :
  led_ok s -> 0 <= a < two63 -> led_Transfer s id d c a code = (r, s') ->
  ((forall x, led_balance s' x = led_balance s x) /\
     (forall i, led_posted s' i = led_posted s i)) \/
  (led_posted s id = false /\ (exists h, r = Ok h) /\
     (forall x, led_balance s' x = led_balance s x + delta d c a x) /\
     (forall i, led_posted s' i = (if decide (i = id) then true else led_posted s i))).
Proof.
  intros Hok Ha Ht. destruct r as [h|e].
  - destruct (led_posted s id) eqn:Ep.
    + left. by eapply ledger_replay.
    + right. destruct (ledger_success s id d c a code h s') as [Hb Hp]; eauto.
  - left. by eapply ledger_error.
Qed.

(** Balances move only when the id was not posted before, and then by [delta]. *)
Lemma ledger_step_balance s id d c a code r s' x :
  led_ok s -> 0 <= a < two63 -> led_Transfer s id d c a code = (r, s') ->
  led_balance s' x = led_balance s x
  + (if led_posted s id then 0 else if led_posted s' id then delta d c a x else 0).
Proof.
  intros Hok Ha Ht.
  destruct (ledger_step_cases _ _ _ _ _ _ _ _ Hok Ha Ht) as [[Hb Hp]|(Hn & _ & Hb & Hp)].
  - rewrite Hb, Hp. by destruct (led_posted s id); lia.
  - rewrite Hb, Hp, Hn. case_decide; [lia|done].
Qed.

Lemma ledger_posted_mono s id d c a code r s' i :
  led_ok s -> 0 <= a < two63 -> led_Transfer s id d c a code = (r, s') ->
  led_posted s i = true -> led_posted s' i = true.
Proof.
  intros Hok Ha Ht Hi.
  destruct (ledger_step_cases _ _ _ _ _ _ _ _ Hok Ha Ht) as [[Hb Hp]|(Hn & _ & Hb & Hp)];
    rewrite Hp; [done|by case_decide].
Qed.

Lemma ledger_posted_other s id d c a code r s' i :
  led_ok s -> 0 <= a < two63 -> led_Transfer s id d c a code = (r, s') ->
  i <> id -> led_posted s' i = led_posted s i.
Proof.
  intros Hok Ha Ht Hi.
  destruct (ledger_step_cases _ _ _ _ _ _ _ _ Hok Ha Ht) as [[Hb Hp]|(Hn & _ & Hb & Hp)];
    rewrite Hp; [done|by case_decide].
Qed.

(** A posting of a positive [int64] amount, as the handlers make it. *)
Lemma posting_step d c amount id code s r s' :
  led_ok s -> 0 < amount < two63 ->
  led_Transfer s id d c (wrap_u64 amount) code = (r, s') ->
  led_ok s' /\
  ((forall x, led_balance s' x = led_balance s x) /\ (forall i, led_posted s' i = led_posted s i) \/
   led_posted s id = false /\ (exists h, r = Ok h) /\
   (forall x, led_balance s' x = led_balance s x + delta d c amount x) /\
   (forall i, led_posted s' i = (if decide (i = id) then true else led_posted s i))).
Proof.
  intros Hok Ha Ht. rewrite wrap_u64_id in Ht by (unfold u64, two63, two64 in *; lia).
  split; [by eapply ledger_ok_step; [| |exact Ht]; [done|lia]|].
  eapply ledger_step_cases; [done| |exact Ht]; lia.
Qed.

Lemma posting_done d c amount id code s h s' :
  led_ok s -> 0 < amount < two63 -> led_Transfer s id d c (wrap_u64 amount) code = (Ok h, s') ->
  led_posted s' id = true /\ h = uint128_string id.
Proof.
  intros Hok Ha Ht. rewrite wrap_u64_id in Ht by (unfold u64, two63, two64 in *; lia).
  eapply ledger_success_posted; [done| |exact Ht]; lia.
Qed.

(** What one run does to the ledger: nothing, or the first posting of [id],
    whose effect on the balances is one that [Eff] allows. *)
Definition posts_at_most (id : Uint128) (Eff : (Z -> Z) -> Prop) (s s' : L) : Prop :=
  (forall x, led_balance s' x = led_balance s x) /\ led_posted s' id = led_posted s id \/
  led_posted s id = false /\ led_posted s' id = true /\
  exists f, Eff f /\ forall x, led_balance s' x = led_balance s x + f x.

Lemma posts_at_most_refl id Eff s : posts_at_most id Eff s s.
Proof. by left. Qed.

#[global] Instance posts_at_most_trans id Eff : Transitive (posts_at_most id Eff).
Proof.
  intros s1 s2 s3 [[Hb1 Hp1]|(Hn1 & Ht1 & f & Hf & Hb1)] [[Hb2 Hp2]|(Hn2 & Ht2 & g & Hg & Hb2)].
  - left. split; [|congruence]. intros x. by rewrite Hb2.
  - right. split_and!; [congruence|done|]. exists g. split; [done|]. intros x. by rewrite Hb2, Hb1.
  - right. split_and!; [done|congruence|]. exists f. split; [done|]. intros x. by rewrite Hb2, Hb1.
  - congruence.
Qed.

(** Over any history of runs that each post at most once, [id] is posted at most once. *)
Lemma posts_once {W A} (led : W -> L) (step : W -> A -> W) (Inv : W -> Prop) (Good : A -> Prop) id Eff :
  (forall w a, Good a -> Inv w -> Inv (step w a) /\ posts_at_most id Eff (led w) (led (step w a))) ->
  forall l w, Forall Good l -> Inv w ->
    Inv (foldl step w l) /\ posts_at_most id Eff (led w) (led (foldl step w l)).
Proof.
  intros Hstep l. induction l as [|a l IH]; intros w Hl Hw; simpl; [split; [done|apply posts_at_most_refl]|].
  apply Forall_cons_1 in Hl as [Ha Hl]. destruct (Hstep w a Ha Hw) as [Hw1 Hp1].
  destruct (IH (step w a) Hl Hw1) as [Hw2 Hp2]. split; [done|]. by etrans.
Qed.
End LedgerFacts.

(** ** The simulated ledger *)

Record simulated : Type := mkSimulated {
  balances : gmap Z Z;
  transfers : gmap Uint128 string
}.

Definition newSimulated : simulated := mkSimulated ∅ ∅.

(** Reading a missing key of a Go map gives the zero value. *)
Definition bal (m : gmap Z Z) (id : Z) : Z := default 0 (m !! id).

Definition ensure_key (m : gmap Z Z) (id : Z) : gmap Z Z :=
  match m !! id with Some _ => m | None => <[id := 0]> m end.

Definition sim_EnsureAccount (s : simulated) (id code : Z) : result unit * simulated :=
  (Ok tt, mkSimulated (ensure_key (balances s) id) (transfers s)).

Definition sim_Transfer `{Runtime} (s : simulated) (id : Uint128) (debit credit amount code : Z)
    : result string * simulated :=
  let hexID := uint128_string id in
  match transfers s !! id with
  | Some existing => (Ok existing, s)
  | None =>
      let m1 := ensure_key (balances s) debit in
      let m2 := ensure_key m1 credit in
      if wrap_i64 (bal m2 debit - wrap_i64 amount) <? 0
      then (Err ErrInsufficientFunds, mkSimulated m2 (transfers s))
      else
        let m3 := <[debit := wrap_i64 (bal m2 debit - wrap_i64 amount)]> m2 in
        let m4 := <[credit := wrap_i64 (bal m3 credit + wrap_i64 amount)]> m3 in
        (Ok hexID, mkSimulated m4 (<[id := hexID]> (transfers s)))
  end.

#[export] Instance simulated_ledger `{Runtime} : Ledger simulated := {
  led_EnsureAccount := sim_EnsureAccount;
  led_Transfer := sim_Transfer
}.

(** ** The TigerBeetle ledger

    The client library and the server are external: [TBClient] is their
    interface, [TBClientLaws] the documented behaviour the code relies on. *)

Record tb_account : Type := mkAccount {
  ta_id : Z; ta_ledger : Z; ta_code : Z; ta_no_overdraft : bool
}.

Record tb_transfer : Type := mkTransfer {
  tt_id : Uint128; tt_debit : Z; tt_credit : Z; tt_amount : Z; tt_ledger : Z; tt_code : Z
}.

#[global] Instance tb_account_eq_dec : EqDecision tb_account.
Proof. solve_decision. Defined.

#[global] Instance tb_transfer_eq_dec : EqDecision tb_transfer.
Proof. solve_decision. Defined.

Inductive account_result : Type := AccountExists | AccountOther (name : string).
Inductive transfer_result : Type :=
  TransferExists | TransferExceedsCredits | TransferOther (name : string).

Class TBClient (T : Type) : Type := {
  CreateAccounts : T -> list tb_account -> result (list account_result) * T;
  CreateTransfers : T -> list tb_transfer -> result (list transfer_result) * T
}.

Section TB.
Context `{TBClient T} `{Runtime}.

Definition account_of_id (id code : Z) : tb_account :=
  mkAccount id LedgerID code
    (isRiderWallet id || isBillingAccount id || (id =? EnergyTradeAccount)).

(** The loop over the creation results: anything but "exists" is an error. *)
Fixpoint check_accounts (rs : list account_result) : result unit :=
  match rs with
  | [] => Ok tt
  | AccountExists :: rs' => check_accounts rs'
  | AccountOther n :: _ => Err (ErrMsg ("create account: " +:+ n))
  end.

Definition tb_EnsureAccount (t : T) (id code : Z) : result unit * T :=
  let '(r, t') := CreateAccounts t [account_of_id id code] in
  match r with
  | Err e => (Err e, t')
  | Ok rs => (check_accounts rs, t')
  end.

Fixpoint check_transfers (rs : list transfer_result) : result unit :=
  match rs with
  | [] => Ok tt
  | TransferExists :: rs' => check_transfers rs'
  | TransferExceedsCredits :: _ => Err ErrInsufficientFunds
  | TransferOther n :: _ => Err (ErrMsg ("transfer failed: " +:+ n))
  end.

Definition tb_Transfer (t : T) (id : Uint128) (debit credit amount code : Z)
    : result string * T :=
  let '(r1, t1) := tb_EnsureAccount t debit code in
  match r1 with
  | Err e => (Err e, t1)
  | Ok _ =>
      let '(r2, t2) := tb_EnsureAccount t1 credit code in
      match r2 with
      | Err e => (Err e, t2)
      | Ok _ =>
          let '(r3, t3) :=
            CreateTransfers t2 [mkTransfer id debit credit amount LedgerID code] in
          match r3 with
          | Err e => (Err e, t3)
          | Ok rs => match check_transfers rs with
                     | Ok _ => (Ok (uint128_string id), t3)
                     | Err e => (Err e, t3)
                     end
          end
      end
  end.

(** The accounts [New] creates at start-up, in order. *)
Definition bootstrap_accounts : list (Z * Z) :=
  [(OperatorRevenueAccount, CodeFare); (RiderFundingAccount, CodeFare);
   (EnergyTradeAccount, CodeEnergy); (CarbonFundAccount, CodeCarbon);
   (CarbonIssuanceAccount, CodeCarbon)].

Fixpoint tb_bootstrap (t : T) (accs : list (Z * Z)) : result unit * T :=
  match accs with
  | [] => (Ok tt, t)
  | (id, code) :: accs' =>
      let '(r, t') := tb_EnsureAccount t id code in
      match r with
      | Ok _ => tb_bootstrap t' accs'
      | Err e => (Err e, t')
      end
  end.
End TB.

#[export] Instance tigerbeetle_ledger `{TBClient T} `{Runtime} : Ledger T := {
  led_EnsureAccount := tb_EnsureAccount;
  led_Transfer := tb_Transfer
}.

(** [New]: which ledger the service runs on.  Without an address it fails
    closed unless the simulated ledger is opted into by name. *)
Inductive ledger_choice : Type := UseTigerBeetle | UseSimulated | RefuseToStart.

Definition New `{Runtime} (addr : string) : ledger_choice :=
  if decide (addr = "") then
    if decide (getenv "H2_SIMULATED_LEDGER" = "true") then UseSimulated else RefuseToStart
  else UseTigerBeetle.

(** ** The simulated ledger meets the interface *)

Section SimulatedProofs.
Context `{Runtime}.

Definition total (m : gmap Z Z) : Z := msum (fun _ v => v) m.

(** Well-formed: no negative balance, and the total fits [int64], so the
    [int64] arithmetic of the balances never wraps. *)
Definition sim_ok (s : simulated) : Prop :=
  (forall k v, balances s !! k = Some v -> 0 <= v) /\
  total (balances s) < two63 /\
  (forall id h, transfers s !! id = Some h -> h = uint128_string id).

Lemma bal_ensure_key m id x : bal (ensure_key m id) x = bal m x.
Proof.
  unfold ensure_key. destruct (m !! id) eqn:E; [done|].
  unfold bal. destruct (decide (x = id)) as [->|Hne].
  - by rewrite lookup_insert_eq, E.
  - by rewrite lookup_insert_ne.
Qed.

Lemma ensure_key_is_Some m id : is_Some (ensure_key m id !! id).
Proof.
  unfold ensure_key. destruct (m !! id) eqn:E; [by rewrite E; eauto|].
  rewrite lookup_insert_eq. eauto.
Qed.

Lemma ensure_key_keeps m id x : is_Some (m !! x) -> is_Some (ensure_key m id !! x).
Proof.
  unfold ensure_key. destruct (m !! id) eqn:E; [done|]. intros Hx.
  destruct (decide (x = id)) as [->|Hne]; [by rewrite E in Hx; destruct Hx|].
  by rewrite lookup_insert_ne.
Qed.

Lemma total_ensure_key m id : total (ensure_key m id) = total m.
Proof.
  unfold ensure_key, total. destruct (m !! id) eqn:E; [done|].
  rewrite msum_insert_new by done. lia.
Qed.

Lemma nonneg_ensure_key m id :
  (forall k v, m !! k = Some v -> 0 <= v) ->
  (forall k v, ensure_key m id !! k = Some v -> 0 <= v).
Proof.
  unfold ensure_key. intros Hm k v. destruct (m !! id) eqn:E; [apply Hm|].
  rewrite lookup_insert. case_decide; [intros; simplify_eq; lia|apply Hm].
Qed.

Lemma bal_nonneg m x : (forall k v, m !! k = Some v -> 0 <= v) -> 0 <= bal m x.
Proof. unfold bal. intros Hm. destruct (m !! x) eqn:E; [by eapply Hm|done]. Qed.

Lemma bal_insert m k v x : bal (<[k := v]> m) x = if decide (x = k) then v else bal m x.
Proof.
  unfold bal. rewrite lookup_insert.
  destruct (decide (k = x)), (decide (x = k)); subst; done.
Qed.

Lemma total_insert m k v : is_Some (m !! k) -> total (<[k := v]> m) = total m - bal m k + v.
Proof.
  intros [v0 Hk]. unfold total, bal. rewrite (msum_insert_old _ m k v0 v Hk), Hk. done.
Qed.

(** Two distinct balances never exceed the total. *)
Lemma bal_pair_le_total m d c :
  (forall k v, m !! k = Some v -> 0 <= v) -> d <> c -> bal m d + bal m c <= total m.
Proof.
  intros Hm Hne. unfold bal, total.
  assert (forall k' v', delete d m !! k' = Some v' -> 0 <= v') as Hd.
  { intros k' v' [_ ?]%lookup_delete_Some. by eapply Hm. }
  destruct (m !! d) as [vd|] eqn:Ed; simpl.
  - rewrite (msum_delete _ m d vd Ed).
    destruct (m !! c) as [vc|] eqn:Ec; simpl.
    + enough (vc <= msum (fun _ v => v) (delete d m)) by lia.
      apply (msum_lookup_le (fun _ v => v) _ c); [done|]. by rewrite lookup_delete_ne.
    + pose proof (msum_nonneg (fun _ v => v) _ Hd). lia.
  - destruct (m !! c) as [vc|] eqn:Ec; simpl; [|by apply msum_nonneg].
    by apply (msum_lookup_le (fun _ v => v) _ c).
Qed.

Lemma bal_le_total m x : (forall k v, m !! k = Some v -> 0 <= v) -> bal m x <= total m.
Proof.
  intros Hm. pose proof (bal_pair_le_total m x (x + 1) Hm ltac:(lia)).
  pose proof (bal_nonneg m (x + 1) Hm). lia.
Qed.

(** The whole effect of a fresh transfer, without the wrap-around. *)
Lemma sim_Transfer_fresh s id d c a code :
  sim_ok s -> 0 <= a < two63 -> transfers s !! id = None ->
  if bal (balances s) d <? a
  then exists m, sim_Transfer s id d c a code = (Err ErrInsufficientFunds, mkSimulated m (transfers s))
       /\ (forall x, bal m x = bal (balances s) x) /\ sim_ok (mkSimulated m (transfers s))
  else exists m, sim_Transfer s id d c a code
                 = (Ok (uint128_string id), mkSimulated m (<[id := uint128_string id]> (transfers s)))
       /\ (forall x, bal m x = bal (balances s) x + delta d c a x)
       /\ sim_ok (mkSimulated m (<[id := uint128_string id]> (transfers s))).
Proof.
  intros (Hnn & Htot & Hid) Ha Hnew. unfold sim_Transfer. rewrite Hnew.
  set (m2 := ensure_key (ensure_key (balances s) d) c).
  assert (forall x, bal m2 x = bal (balances s) x) as Hbal by (intros; unfold m2; by rewrite !bal_ensure_key).
  assert (forall k v, m2 !! k = Some v -> 0 <= v) as Hnn2.
  { apply nonneg_ensure_key, nonneg_ensure_key, Hnn. }
  assert (total m2 = total (balances s)) as Htot2 by (unfold m2; by rewrite !total_ensure_key).
  pose proof (bal_nonneg m2 d Hnn2). pose proof (bal_le_total m2 d Hnn2).
  rewrite (wrap_i64_id a) by (unfold i64, two63 in *; lia).
  rewrite (wrap_i64_id (bal m2 d - a)) by (unfold i64, two63 in *; lia).
  replace (bal m2 d - a <? 0) with (bal (balances s) d <? a)
    by (rewrite Hbal; destruct (Z.ltb_spec (bal (balances s) d) a),
          (Z.ltb_spec (bal (balances s) d - a) 0); try done; lia).
  destruct (Z.ltb_spec (bal (balances s) d) a) as [Hlt|Hge].
  { exists m2. split_and!; [done|done| split_and!; simpl; [done|lia|done]]. }
  set (m3 := <[d := bal m2 d - a]> m2).
  assert (total m3 = total (balances s) - a) as Htot3.
  { unfold m3. rewrite total_insert, Htot2 by apply ensure_key_keeps, ensure_key_is_Some. lia. }
  assert (is_Some (m3 !! c)) as Hkeep.
  { unfold m3. rewrite lookup_insert. case_decide; [by eauto|apply ensure_key_is_Some]. }
  assert (0 <= bal m3 c + a < two63) as Hc.
  { unfold m3. rewrite bal_insert. case_decide as Hcd.
    - subst. rewrite Hbal. pose proof (bal_nonneg _ d Hnn). pose proof (bal_le_total _ d Hnn). lia.
    - pose proof (bal_nonneg m2 c Hnn2).
      pose proof (bal_pair_le_total m2 d c Hnn2 (not_eq_sym Hcd)). pose proof (Hbal d). lia. }
  rewrite (wrap_i64_id (bal m3 c + a)) by (unfold i64, two63 in *; lia).
  eexists. split; [reflexivity|]. split.
  - intros x. rewrite bal_insert. unfold delta, m3. rewrite !bal_insert, !Hbal.
    repeat case_decide; subst; try done; lia.
  - split_and!; simpl.
    + intros k v. rewrite lookup_insert. case_decide; [intros; simplify_eq; lia|].
      unfold m3. rewrite lookup_insert. case_decide; [|apply Hnn2].
      intros Hv. simplify_eq. rewrite Hbal. lia.
    + rewrite total_insert, Htot3 by apply Hkeep. lia.
    + intros id' h. rewrite lookup_insert. case_decide; [|apply Hid]. intros; by simplify_eq.
Qed.
End SimulatedProofs.

Definition sim_posted (s : simulated) (id : Uint128) : bool := bool_decide (is_Some (transfers s !! id)).

Lemma sim_Transfer_old `{Runtime} s id d c a code h :
  transfers s !! id = Some h -> sim_Transfer s id d c a code = (Ok h, s).
Proof. intros Hh. unfold sim_Transfer. by rewrite Hh. Qed.

Lemma sim_posted_false s id : sim_posted s id = false -> transfers s !! id = None.
Proof. unfold sim_posted. rewrite bool_decide_eq_false, <- eq_None_not_Some. done. Qed.

Section SimulatedSpec.
Context `{Runtime}.
Implicit Types s : simulated.

Definition sim_balance s (x : Z) : Z := bal (balances s) x.

Lemma sim_ok_step s id d c a code r s' :
  sim_ok s -> 0 <= a < two63 -> sim_Transfer s id d c a code = (r, s') -> sim_ok s'.
Proof.
  intros Hok Ha Ht. destruct (transfers s !! id) as [h|] eqn:E.
  - rewrite (sim_Transfer_old _ _ _ _ _ _ h E) in Ht. by crush.
  - pose proof (sim_Transfer_fresh s id d c a code Hok Ha E) as Hf.
    destruct (_ <? _); destruct Hf as (m & Hm & _ & Hok'); rewrite Hm in Ht; by crush.
Qed.

Lemma sim_replay s id d c a code r s' :
  sim_ok s -> 0 <= a < two63 -> sim_posted s id = true ->
  sim_Transfer s id d c a code = (r, s') ->
  (forall x, sim_balance s' x = sim_balance s x) /\ (forall i, sim_posted s' i = sim_posted s i).
Proof.
  intros _ _ [h Hh]%bool_decide_eq_true Ht.
  rewrite (sim_Transfer_old _ _ _ _ _ _ h Hh) in Ht. by crush.
Qed.

Lemma sim_error s id d c a code e s' :
  sim_ok s -> 0 <= a < two63 -> sim_Transfer s id d c a code = (Err e, s') ->
  (forall x, sim_balance s' x = sim_balance s x) /\ (forall i, sim_posted s' i = sim_posted s i).
Proof.
  intros Hok Ha Ht. destruct (transfers s !! id) as [h|] eqn:E.
  - rewrite (sim_Transfer_old _ _ _ _ _ _ h E) in Ht. by crush.
  - pose proof (sim_Transfer_fresh s id d c a code Hok Ha E) as Hf.
    destruct (_ <? _); destruct Hf as (m & Hm & Hb & Hok'); rewrite Hm in Ht; by crush.
Qed.

Lemma sim_success s id d c a code h s' :
  sim_ok s -> 0 <= a < two63 -> sim_posted s id = false ->
  sim_Transfer s id d c a code = (Ok h, s') ->
  (forall x, sim_balance s' x = sim_balance s x + delta d c a x) /\ (forall i, sim_posted s' i = (if decide (i = id) then true else sim_posted s i)).
Proof.
  intros Hok Ha Hp%sim_posted_false Ht.
  pose proof (sim_Transfer_fresh s id d c a code Hok Ha Hp) as Hf.
  destruct (_ <? _); destruct Hf as (m & Hm & Hb & Hok'); rewrite Hm in Ht; crush.
  split; [done|]. intros i. unfold sim_posted; simpl. rewrite lookup_insert.
  repeat case_decide; subst; done.
Qed.

Lemma sim_success_posted s id d c a code h s' :
  sim_ok s -> 0 <= a < two63 -> sim_Transfer s id d c a code = (Ok h, s') ->
  sim_posted s' id = true /\ h = uint128_string id.
Proof.
  intros Hok Ha Ht. destruct (transfers s !! id) as [h'|] eqn:E.
  - rewrite (sim_Transfer_old _ _ _ _ _ _ h' E) in Ht. crush. split.
    + unfold sim_posted. rewrite E. by apply bool_decide_eq_true_2.
    + by apply (proj2 (proj2 Hok)).
  - pose proof (sim_Transfer_fresh s id d c a code Hok Ha E) as Hf.
    destruct (_ <? _); destruct Hf as (m & Hm & Hb & Hok'); rewrite Hm in Ht; crush.
    split; [|done]. unfold sim_posted; simpl. rewrite lookup_insert_eq. by apply bool_decide_eq_true_2.
Qed.

#[export] Instance simulated_spec : LedgerSpec simulated := {|
  led_ok := sim_ok;
  led_balance := sim_balance;
  led_posted := sim_posted;
  ledger_ok_nonneg := fun s x Hok _ => bal_nonneg (balances s) x (proj1 Hok);
  ledger_ok_step := sim_ok_step;
  ledger_replay := sim_replay;
  ledger_error := sim_error;
  ledger_success := sim_success;
  ledger_success_posted := sim_success_posted
|}.
End SimulatedSpec.

(** ** The development ledger against an abstract ledger *)

(** What a double-entry ledger that protects every account does. *)
Record abstract_ledger : Type := mkAbstract {
  ab_balance : Z -> Z;
  ab_posted : Uint128 -> bool
}.

Definition abstract_transfer (l : abstract_ledger) (id : Uint128) (debit credit amount : Z)
    : bool * abstract_ledger :=
  if ab_posted l id then (true, l)
  else if ab_balance l debit <? amount then (false, l)
  else (true, mkAbstract (fun x => ab_balance l x + delta debit credit amount x)
                (fun i => if decide (i = id) then true else ab_posted l i)).

Definition sim_abs (s : simulated) (l : abstract_ledger) : Prop :=
  (forall x, ab_balance l x = sim_balance s x) /\ (forall i, ab_posted l i = sim_posted s i).

(** The operations of a ledger session. *)
Inductive ledger_op : Type :=
| OpEnsure (id code : Z)
| OpTransfer (id : Uint128) (debit credit amount code : Z).

Definition run_op `{Runtime} (s : simulated) (op : ledger_op) : result string * simulated :=
  match op with
  | OpEnsure id code => let '(r, s') := sim_EnsureAccount s id code in
                        (result_map (fun _ => "") r, s')
  | OpTransfer id d c a code => sim_Transfer s id d c a code
  end.

Fixpoint run_ops `{Runtime} (s : simulated) (ops : list ledger_op) : list (result string) * simulated :=
  match ops with
  | [] => ([], s)
  | op :: ops' => let '(r, s1) := run_op s op in
                  let '(rs, s2) := run_ops s1 ops' in (r :: rs, s2)
  end.

Definition op_positive (op : ledger_op) : Prop :=
  match op with OpEnsure _ _ => True | OpTransfer _ _ _ a _ => 0 < a < two63 end.

Definition op_refused (op : ledger_op) (r : result string) : Prop :=
  match op with OpEnsure _ _ => True | OpTransfer _ _ _ _ _ => r = Err ErrInsufficientFunds end.

(** All balances zero and nothing posted: the state a fresh ledger never leaves. *)
Definition sim_barren (s : simulated) : Prop :=
  (forall k v, balances s !! k = Some v -> v = 0) /\ transfers s = ∅.

Lemma barren_ensure_key m id :
  (forall k v, m !! k = Some v -> v = 0) -> forall k v, ensure_key m id !! k = Some v -> v = 0.
Proof.
  unfold ensure_key. intros Hm k v. destruct (m !! id); [apply Hm|].
  rewrite lookup_insert. case_decide; [congruence|apply Hm].
Qed.

Lemma run_op_barren `{Runtime} s op :
  sim_barren s -> op_positive op ->
  op_refused op (run_op s op).1 /\ sim_barren (run_op s op).2.
Proof.
  intros [Hz Ht] Hpos. destruct op as [id code|id d c a code]; simpl in *.
  - split; [done|]. split; [|done]. apply barren_ensure_key, Hz.
  - unfold sim_Transfer. rewrite Ht, lookup_empty.
    set (m2 := ensure_key _ c).
    assert (forall k v, m2 !! k = Some v -> v = 0) as Hz2 by apply barren_ensure_key, barren_ensure_key, Hz.
    assert (bal m2 d = 0) as Hd by (unfold bal; destruct (m2 !! d) eqn:E; simpl; eauto).
    rewrite Hd, (wrap_i64_id a), (wrap_i64_id (0 - a)) by (unfold i64, two63 in *; lia).
    rewrite (proj2 (Z.ltb_lt (0 - a) 0)) by lia. done.
Qed.

(** C12: the development ledger refines the abstract ledger: on a well-formed state
    with amounts an [int64] can hold, [Transfer] answers success exactly when
    the abstract ledger does and leaves corresponding balances and posted
    ids, so its [int64] arithmetic never wraps; the state stays well formed. *)
Theorem simulated_refines_abstract `{Runtime} (s : simulated) (l : abstract_ledger)
    (id : Uint128) (d c a code : Z)
    (Hok : sim_ok s) (Habs : sim_abs s l) (Ha : 0 <= a < two63) :
  let '(r, s') := sim_Transfer s id d c a code in
  let '(ok, l') := abstract_transfer l id d c a in
  is_ok r = ok /\ sim_abs s' l' /\ sim_ok s'.
Proof.
  destruct Habs as [Hb Hp]. unfold abstract_transfer. rewrite Hp, Hb.
  destruct (sim_Transfer s id d c a code) as [r s'] eqn:Ht.
  pose proof (sim_ok_step _ _ _ _ _ _ _ _ Hok Ha Ht) as Hok'.
  destruct (sim_posted s id) eqn:Ep.
  - apply bool_decide_eq_true in Ep as [h Hh].
    rewrite (sim_Transfer_old _ _ _ _ _ _ h Hh) in Ht. crush.
  - pose proof (sim_Transfer_fresh s id d c a code Hok Ha (sim_posted_false _ _ Ep)) as Hf.
    unfold sim_balance. destruct (_ <? _); destruct Hf as (m & Hm & Hbal & _); rewrite Hm in Ht; crush.
    + split_and!; [done| |done]. split; simpl; intros; [by rewrite Hb; unfold sim_balance; simpl; rewrite Hbal|by rewrite Hp].
    + split_and!; [done| |done]. split; simpl; intros x; [by rewrite Hb; unfold sim_balance; simpl; rewrite Hbal|].
      unfold sim_posted in *; simpl. rewrite Hp, lookup_insert.
      destruct (decide (x = id)), (decide (id = x)); subst; done.
Qed.

(** A development ledger that starts empty stays empty: every transfer of a
    positive amount is refused for insufficient funds, whatever its accounts,
    the uncapped cash-in and issuance accounts included. *)
Theorem simulated_stays_barren `{Runtime} (ops : list ledger_op)
    (Hpos : Forall op_positive ops) :
  Forall2 op_refused ops (run_ops newSimulated ops).1 /\
  sim_barren (run_ops newSimulated ops).2.
Proof.
  assert (sim_barren newSimulated) as Hb by by split.
  revert Hb. generalize newSimulated as s.
  induction Hpos as [|op ops Hop Hops IH]; intros s Hb; simpl; [by split|].
  destruct (run_op_barren s op Hb Hop) as [Hr Hs].
  destruct (run_op s op) as [r s1]. simpl in *.
  specialize (IH s1 Hs). destruct (run_ops s1 ops) as [rs s2]. simpl in *.
  destruct IH. split; [by constructor|done].
Qed.

(** ** Witnesses *)

#[local] Existing Instance test_runtime.

Definition sim_example : simulated := mkSimulated {[1001 := 1000]} ∅.

Lemma sim_example_ok : sim_ok sim_example.
Proof.
  split_and!; simpl.
  - intros k v. rewrite lookup_singleton. case_decide; congruence || (intros; simplify_eq; lia).
  - unfold total. vm_compute. done.
  - intros id h. rewrite lookup_empty. done.
Qed.

Lemma simulated_refines_abstract_witness :
  let l := mkAbstract (sim_balance sim_example) (sim_posted sim_example) in
  let '(r, s') := sim_Transfer sim_example [7] 1001 2001 400 CodeFare in
  let '(ok, l') := abstract_transfer l [7] 1001 2001 400 in
  is_ok r = ok /\ sim_abs s' l' /\ sim_ok s'.
Proof.
  exact (simulated_refines_abstract sim_example
    (mkAbstract (sim_balance sim_example) (sim_posted sim_example)) [7] 1001 2001 400 CodeFare
    sim_example_ok (conj (fun _ => eq_refl) (fun _ => eq_refl)) ltac:(unfold two63; lia)).
Defined.

Lemma simulated_stays_barren_witness :
  let ops := [OpEnsure 1001 CodeFare; OpTransfer [1] RiderFundingAccount 1001 500 CodeFare] in
  Forall2 op_refused ops (run_ops newSimulated ops).1 /\
  sim_barren (run_ops newSimulated ops).2.
Proof.
  apply simulated_stays_barren. repeat constructor; unfold two63; lia.
Defined.
