(* ===== verification/TigerBeetle.v ===== *)
(** * The TigerBeetle-backed ledger meets the ledger interface

    [TBClientLaws] states the documented behaviour of the external client
    and server that ledger.go relies on: creating an identical account or
    transfer answers "exists", a same-id object with other fields answers
    another result code, an accepted transfer moves its amount once, and an
    account flagged debits-must-not-exceed-credits is not overdrawn.  From
    these the [Transfer] of ledger.go is proved to satisfy [LedgerSpec].

    [RefBeetle] is an executable client satisfying the laws; it is what the
    witnesses run on. *)

From S2P Require Import Prelude Codec World Ledger.

Section Laws.
Context {T : Type} `{TBClient T}.

Definition same_money {T'} (net : T' -> Z -> Z) (tr : T' -> Uint128 -> option tb_transfer)
    (t t' : T') : Prop :=
  (forall x, net t' x = net t x) /\ (forall i, tr t' i = tr t i).
End Laws.

Class TBClientLaws (T : Type) `{TBClient T} : Type := {
  tb_account_of : T -> Z -> option tb_account;
  tb_net : T -> Z -> Z;                       (* credits posted - debits posted *)
  tb_transfer_of : T -> Uint128 -> option tb_transfer;
  create_account_money t a r t' :
    CreateAccounts t [a] = (r, t') -> same_money tb_net tb_transfer_of t t';
  create_account_err t a e t' :
    CreateAccounts t [a] = (Err e, t') -> forall x, tb_account_of t' x = tb_account_of t x;
  create_account_old t a b rs t' :
    CreateAccounts t [a] = (Ok rs, t') -> tb_account_of t (ta_id a) = Some b ->
    (if decide (a = b) then rs = [AccountExists] else exists n, rs = [AccountOther n]) /\
    (forall x, tb_account_of t' x = tb_account_of t x);
  create_account_new t a rs t' :
    CreateAccounts t [a] = (Ok rs, t') -> tb_account_of t (ta_id a) = None ->
    (rs = [] /\ forall x, tb_account_of t' x
                = (if decide (x = ta_id a) then Some a else tb_account_of t x)) \/
    ((exists n, rs = [AccountOther n]) /\ forall x, tb_account_of t' x = tb_account_of t x);
  create_transfer_accounts t x r t' :
    CreateTransfers t [x] = (r, t') -> forall y, tb_account_of t' y = tb_account_of t y;
  create_transfer_err t x e t' :
    CreateTransfers t [x] = (Err e, t') -> same_money tb_net tb_transfer_of t t';
  create_transfer_old t x y rs t' :
    CreateTransfers t [x] = (Ok rs, t') -> tb_transfer_of t (tt_id x) = Some y ->
    (if decide (x = y) then rs = [TransferExists] else exists n, rs = [TransferOther n]) /\
    same_money tb_net tb_transfer_of t t';
  create_transfer_new t x rs t' :
    CreateTransfers t [x] = (Ok rs, t') -> tb_transfer_of t (tt_id x) = None ->
    (rs = [] /\
      (forall y, tb_net t' y = tb_net t y + delta (tt_debit x) (tt_credit x) (tt_amount x) y) /\
      (forall i, tb_transfer_of t' i
         = (if decide (i = tt_id x) then Some x else tb_transfer_of t i)) /\
      (forall b, tb_account_of t (tt_debit x) = Some b -> ta_no_overdraft b = true ->
         0 <= tb_net t (tt_debit x) - tt_amount x)) \/
    ((rs = [TransferExceedsCredits] \/ exists n, rs = [TransferOther n]) /\
      same_money tb_net tb_transfer_of t t')
}.

Section TBSpec.
Context `{TBClientLaws T} `{Runtime}.
Implicit Types t : T.

(** Accounts exist with the flags this code gives them, and the protected
    ones are not overdrawn. *)
Definition tb_ok t : Prop :=
  (forall x b, tb_account_of t x = Some b -> ta_no_overdraft b = protected x) /\
  (forall x, protected x = true -> 0 <= tb_net t x).

Definition tb_posted t (i : Uint128) : bool := bool_decide (is_Some (tb_transfer_of t i)).

Abbreviation tb_same := (same_money tb_net tb_transfer_of).

Lemma tb_same_trans t1 t2 t3 : tb_same t1 t2 -> tb_same t2 t3 -> tb_same t1 t3.
Proof. intros [A B] [C E]. split; intros; congruence. Qed.

Lemma tb_ensure_money t id code r t' :
  tb_EnsureAccount t id code = (r, t') -> tb_same t t'.
Proof.
  unfold tb_EnsureAccount. destruct (CreateAccounts _ _) as [r0 t0] eqn:E.
  apply create_account_money in E. destruct r0; intros; by crush.
Qed.

(** A successful [EnsureAccount] leaves the account with exactly the code
    and flags it asked for; whatever happens, nothing else changes. *)
Lemma tb_ensure_accounts t id code r t' :
  tb_EnsureAccount t id code = (r, t') ->
  (r = Ok tt -> tb_account_of t' id = Some (account_of_id id code)) /\
  (forall x, tb_account_of t' x = tb_account_of t x \/
     (x = id /\ tb_account_of t' x = Some (account_of_id id code))).
Proof.
  unfold tb_EnsureAccount. destruct (CreateAccounts _ _) as [r0 t0] eqn:E.
  destruct r0 as [rs|e]; intros; crush.
  - destruct (tb_account_of t id) as [b|] eqn:Eb.
    + destruct (create_account_old _ (account_of_id id code) _ _ _ E Eb) as [Hr Hs]. split; [|by auto].
      case_decide; crush; intros; crush. by rewrite Hs.
    + destruct (create_account_new _ (account_of_id id code) _ _ E Eb) as [[-> Hs]|[(n & ->) Hs]];
        (split; [|intros x; rewrite Hs; try case_decide; by auto]); intros; crush.
      rewrite Hs. simpl. by rewrite decide_True.
  - split; [done|]. left. by eapply create_account_err.
Qed.

Lemma tb_ok_ensure t id code r t' :
  tb_ok t -> tb_EnsureAccount t id code = (r, t') -> tb_ok t'.
Proof.
  intros [Hacc Hnn] E. destruct (tb_ensure_money _ _ _ _ _ E) as [Hnet _].
  destruct (tb_ensure_accounts _ _ _ _ _ E) as [_ Hs]. split.
  - intros x b Hb. destruct (Hs x) as [Heq|[-> Heq]]; rewrite Heq in Hb; [by eapply Hacc|].
    by simplify_eq.
  - intros x Hx. rewrite Hnet. by apply Hnn.
Qed.

(** The whole [Transfer]: it fails with the money untouched, or the two
    accounts carry this transfer's code and the client's answer decides. *)
Lemma tb_Transfer_cases t id d c a code r t' :
  tb_Transfer t id d c a code = (r, t') ->
  (exists e, r = Err e /\ tb_same t t' /\ (tb_ok t -> tb_ok t')) \/
  (exists t2 r3, tb_same t t2 /\ (tb_ok t -> tb_ok t2) /\
     tb_account_of t2 d = Some (account_of_id d code) /\
     tb_account_of t2 c = Some (account_of_id c code) /\
     CreateTransfers t2 [mkTransfer id d c a LedgerID code] = (r3, t') /\
     r = match r3 with
         | Err e => Err e
         | Ok rs => match check_transfers rs with
                    | Ok _ => Ok (uint128_string id)
                    | Err e => Err e
                    end
         end).
Proof.
  unfold tb_Transfer. destruct (tb_EnsureAccount t d code) as [r1 t1] eqn:E1.
  pose proof (tb_ensure_money _ _ _ _ _ E1) as S1.
  destruct r1 as [[]|e]; [|intros; crush; left; eauto using tb_ok_ensure].
  destruct (tb_EnsureAccount t1 c code) as [r2 t2] eqn:E2.
  pose proof (tb_same_trans _ _ _ S1 (tb_ensure_money _ _ _ _ _ E2)) as S2.
  assert (tb_ok t -> tb_ok t2) as Hok by eauto using tb_ok_ensure.
  destruct r2 as [[]|e]; [|intros; crush; left; eauto].
  destruct (CreateTransfers _ _) as [r3 t3] eqn:E3. intros Heq. right.
  destruct (tb_ensure_accounts _ _ _ _ _ E1) as [A1 _].
  destruct (tb_ensure_accounts _ _ _ _ _ E2) as [A2 B2].
  exists t2, r3. split_and!; [done|done| | |destruct r3 as [rs|]; [destruct (check_transfers rs)|]; by crush
    |destruct r3 as [rs|]; [destruct (check_transfers rs)|]; by crush].
  - destruct (B2 d) as [->|[-> ->]]; [by apply A1|done].
  - by apply A2.
Qed.

(** The money effect of the last step, from the client laws. *)
Lemma tb_Transfer_effect t id d c a code r t' :
  tb_ok t -> 0 <= a -> tb_Transfer t id d c a code = (r, t') ->
  (tb_same t t' /\ tb_ok t' /\ (forall h, r = Ok h -> tb_posted t id = true /\ h = uint128_string id)) \/
  (tb_posted t id = false /\ r = Ok (uint128_string id) /\ tb_ok t' /\
     (forall x, tb_net t' x = tb_net t x + delta d c a x) /\
     (forall i, tb_posted t' i = (if decide (i = id) then true else tb_posted t i))).
Proof.
  intros Hok Ha Ht.
  destruct (tb_Transfer_cases _ _ _ _ _ _ _ _ Ht)
    as [(e & -> & Hs & Hok')|(t2 & r3 & [Hnet Htr] & Hok2 & Ad & Ac & E3 & ->)].
  { left. split_and!; auto. intros; by crush. }
  pose proof (create_transfer_accounts _ _ _ _ E3) as Hacc.
  assert (tb_same t2 t' -> tb_ok t') as Hkeep.
  { intros [Hn _]. destruct (Hok2 Hok) as [O1 O2]. split.
    - intros x b. rewrite Hacc. apply O1.
    - intros x Hx. rewrite Hn. by apply O2. }
  destruct r3 as [rs|e]; [|left; pose proof (create_transfer_err _ _ _ _ E3) as Hs;
    split_and!; [by eapply tb_same_trans|by auto|by intros; crush]].
  destruct (tb_transfer_of t2 id) as [y|] eqn:Ey.
  - left. destruct (create_transfer_old _ _ _ _ _ E3 Ey) as [Hrs Hs].
    split_and!; [by eapply tb_same_trans|by auto|]. intros h Hh.
    unfold tb_posted. rewrite <- Htr, Ey. split; [by apply bool_decide_eq_true_2|].
    case_decide; crush.
  - destruct (create_transfer_new _ _ _ _ E3 Ey) as [(-> & Hn & Hi & Hov)|[Hrs Hs]]; simpl in *.
    + right. split_and!; [| |split| |].
      * unfold tb_posted. rewrite <- Htr, Ey. by apply bool_decide_eq_false_2; intros [].
      * done.
      * intros x b. rewrite Hacc. apply (proj1 (Hok2 Hok)).
      * intros x Hx. rewrite Hn. pose proof (proj2 (Hok2 Hok) x Hx) as Hx0. unfold delta.
        destruct (decide (x = d)) as [->|Hd]; [|case_decide; lia].
        specialize (Hov _ Ad). simpl in Hov. unfold protected in Hx. rewrite Hx in Hov.
        specialize (Hov eq_refl). case_decide; lia.
      * intros x. by rewrite Hn, Hnet.
      * intros i. unfold tb_posted. rewrite Hi, <- Htr. case_decide; [|done].
        by apply bool_decide_eq_true_2.
    + left. split_and!; [by eapply tb_same_trans|by auto|].
      intros h Hh. destruct Hrs as [->|[n ->]]; by crush.
Qed.

Lemma tb_posted_same t t' : tb_same t t' -> forall i, tb_posted t' i = tb_posted t i.
Proof. intros [_ Hi] i. unfold tb_posted. by rewrite Hi. Qed.

(** The TigerBeetle ledger as an instance of the interface's contract. *)
#[export] Program Instance tigerbeetle_spec : LedgerSpec T := {|
  led_ok := tb_ok;
  led_balance := tb_net;
  led_posted := tb_posted
|}.
Next Obligation. intros t x [_ Hnn]. apply Hnn. Qed.
Next Obligation.
  intros t id d c a code r t' Hok Ha Ht.
  destruct (tb_Transfer_effect _ _ _ _ _ _ _ _ Hok (proj1 Ha) Ht) as [(_ & ? & _)|(_ & _ & ? & _)]; done.
Qed.
Next Obligation.
  intros t id d c a code r t' Hok Ha Hp Ht.
  destruct (tb_Transfer_effect _ _ _ _ _ _ _ _ Hok (proj1 Ha) Ht) as [(Hs & _ & _)|(Hn & _)];
    [|by rewrite Hp in Hn]. split; [apply Hs|by apply tb_posted_same].
Qed.
Next Obligation.
  intros t id d c a code e t' Hok Ha Ht.
  destruct (tb_Transfer_effect _ _ _ _ _ _ _ _ Hok (proj1 Ha) Ht) as [(Hs & _ & _)|(_ & ? & _)];
    [|done]. split; [apply Hs|by apply tb_posted_same].
Qed.
Next Obligation.
  intros t id d c a code h t' Hok Ha Hp Ht.
  destruct (tb_Transfer_effect _ _ _ _ _ _ _ _ Hok (proj1 Ha) Ht) as [(_ & _ & Hh)|(_ & _ & _ & Hn & Hi)];
    [|done]. destruct (Hh h eq_refl) as [Hp' _]. by rewrite Hp in Hp'.
Qed.
Next Obligation.
  intros t id d c a code h t' Hok Ha Ht.
  destruct (tb_Transfer_effect _ _ _ _ _ _ _ _ Hok (proj1 Ha) Ht) as [(Hs & _ & Hh)|(_ & Hr & _ & _ & Hi)].
  - destruct (Hh h eq_refl) as [Hp ->]. by rewrite (tb_posted_same _ _ Hs).
  - simplify_eq. rewrite Hi. by rewrite decide_True.
Qed.

(** An account that exists under one code makes [EnsureAccount] fail under
    another code. *)
Lemma tb_ensure_code_mismatch t id code b :
  tb_account_of t id = Some b -> ta_code b <> code ->
  exists e t', tb_EnsureAccount t id code = (Err e, t').
Proof.
  intros Hb Hcode. unfold tb_EnsureAccount.
  destruct (CreateAccounts t [account_of_id id code]) as [r t'] eqn:E.
  destruct r as [rs|e]; [|by eauto].
  destruct (create_account_old _ (account_of_id id code) _ _ _ E Hb) as [Hrs _].
  rewrite decide_False in Hrs by (intros <-; by apply Hcode).
  destruct Hrs as [n ->]; simpl. eauto.
Qed.

Lemma tb_Transfer_code_mismatch t id d c a code x b :
  x = d \/ x = c -> tb_account_of t x = Some b -> ta_code b <> code ->
  exists e, (tb_Transfer t id d c a code).1 = Err e.
Proof.
  intros Hx Hb Hcode. destruct (tb_Transfer t id d c a code) as [r t'] eqn:Ht. simpl.
  destruct r as [h|e]; [|by eauto]. exfalso.
  destruct (tb_Transfer_cases _ _ _ _ _ _ _ _ Ht) as [(e & He & _)|_]; [done|].
  revert Ht. unfold tb_Transfer.
  destruct (decide (x = d)) as [->|Hd].
  - destruct (tb_ensure_code_mismatch t d code b Hb Hcode) as (e & t1 & ->). done.
  - destruct Hx as [?| ->]; [done|].
    destruct (tb_EnsureAccount t d code) as [[[]|e1] t1] eqn:E1; [|done].
    destruct (tb_ensure_accounts _ _ _ _ _ E1) as [_ Hs].
    destruct (Hs c) as [Heq|[? _]]; [|done]. rewrite Hb in Heq.
    destruct (tb_ensure_code_mismatch t1 c code b Heq Hcode) as (e & t2 & ->). done.
Qed.

(** Bootstrapping creates the operator revenue account under [CodeFare]. *)
Lemma tb_bootstrap_keeps t accs t' x b :
  tb_account_of t x = Some b -> tb_bootstrap t accs = (Ok tt, t') -> tb_account_of t' x = Some b.
Proof.
  revert t. induction accs as [|[id code] accs IH]; intros t Hb; simpl; [by intros; crush|].
  destruct (tb_EnsureAccount t id code) as [[[]|e] t1] eqn:E; [|done]. apply IH.
  destruct (tb_ensure_accounts _ _ _ _ _ E) as [Hok Hs].
  destruct (Hs x) as [->|[-> Heq]]; [done|].
  revert E. unfold tb_EnsureAccount. destruct (CreateAccounts _ _) as [r0 t0] eqn:E0.
  destruct r0 as [rs|]; intros; crush.
  destruct (create_account_old _ (account_of_id id code) _ _ _ E0 Hb) as [_ Hs']. by rewrite Hs'.
Qed.
End TBSpec.

(** ** An executable client that satisfies the laws *)

Record beetle : Type := mkBeetle {
  b_accounts : gmap Z tb_account;
  b_net : gmap Z Z;
  b_transfers : gmap Uint128 tb_transfer
}.

Definition beetle_account (s : beetle) (a : tb_account) : option account_result * beetle :=
  match b_accounts s !! ta_id a with
  | Some b => (Some (if decide (a = b) then AccountExists
                     else AccountOther "exists_with_different_fields"), s)
  | None => (None, mkBeetle (<[ta_id a := a]> (b_accounts s)) (b_net s) (b_transfers s))
  end.

Definition beetle_transfer (s : beetle) (x : tb_transfer) : option transfer_result * beetle :=
  match b_transfers s !! tt_id x with
  | Some y => (Some (if decide (x = y) then TransferExists
                     else TransferOther "exists_with_different_fields"), s)
  | None =>
      match b_accounts s !! tt_debit x, b_accounts s !! tt_credit x with
      | Some d, Some _ =>
          if decide (tt_debit x = tt_credit x)
          then (Some (TransferOther "accounts_must_be_different"), s)
          else if ta_no_overdraft d && (bal (b_net s) (tt_debit x) <? tt_amount x)
          then (Some TransferExceedsCredits, s)
          else (None, mkBeetle (b_accounts s)
                 (<[tt_credit x := bal (b_net s) (tt_credit x) + tt_amount x]>
                   (<[tt_debit x := bal (b_net s) (tt_debit x) - tt_amount x]> (b_net s)))
                 (<[tt_id x := x]> (b_transfers s)))
      | _, _ => (Some (TransferOther "account_not_found"), s)
      end
  end.

(** The batch interface: only the objects that were not created are reported. *)
Fixpoint beetle_batch {X R} (f : beetle -> X -> option R * beetle) (s : beetle) (l : list X)
    : list R * beetle :=
  match l with
  | [] => ([], s)
  | x :: l' => let '(r, s1) := f s x in
               let '(rs, s2) := beetle_batch f s1 l' in
               (match r with Some r => r :: rs | None => rs end, s2)
  end.

#[export] Instance beetle_client : TBClient beetle := {|
  CreateAccounts s l := let '(rs, s') := beetle_batch beetle_account s l in (Ok rs, s');
  CreateTransfers s l := let '(rs, s') := beetle_batch beetle_transfer s l in (Ok rs, s')
|}.

#[export] Program Instance beetle_laws : TBClientLaws beetle := {|
  tb_account_of s x := b_accounts s !! x;
  tb_net s x := bal (b_net s) x;
  tb_transfer_of s i := b_transfers s !! i
|}.
Next Obligation.
  intros s a r s'. simpl. unfold beetle_account. destruct (_ !! _); intros; by crush.
Qed.
Next Obligation. intros s a e s'. simpl. destruct (beetle_account s a); intros; by crush. Qed.
Next Obligation.
  intros s a b rs s'. simpl. unfold beetle_account. intros Hc Hb. rewrite Hb in Hc.
  crush. case_decide; eauto.
Qed.
Next Obligation.
  intros s a rs s'. simpl. unfold beetle_account. intros Hc Hb. rewrite Hb in Hc.
  crush. left. split; [done|]. intros x. rewrite lookup_insert.
  destruct (decide (ta_id a = x)), (decide (x = ta_id a)); by subst.
Qed.
Next Obligation.
  intros s x r s'. simpl. unfold beetle_transfer.
  repeat case_match; intros; by crush.
Qed.
Next Obligation. intros s x e s'. simpl. destruct (beetle_transfer s x); intros; by crush. Qed.
Next Obligation.
  intros s x y rs s'. simpl. unfold beetle_transfer. intros Hc Hy. rewrite Hy in Hc.
  crush. split; [case_decide; by eauto|by split].
Qed.
Next Obligation.
  intros s x rs s'. simpl. unfold beetle_transfer. intros Hc Hy. rewrite Hy in Hc.
  destruct (b_accounts s !! tt_debit x) as [d|] eqn:Ed; [|right; crush; split; [by eauto|by split]].
  destruct (b_accounts s !! tt_credit x) as [c|] eqn:Ec; [|right; crush; split; [by eauto|by split]].
  destruct (decide (tt_debit x = tt_credit x)) as [He|Hne];
    [right; crush; split; [by eauto|by split]|].
  destruct (ta_no_overdraft d && (bal (b_net s) (tt_debit x) <? tt_amount x)) eqn:Eo;
    [right; crush; split; [by eauto|by split]|].
  left. crush. split_and!; [done| | |].
  - intros y. rewrite !bal_insert. unfold delta. repeat case_decide; subst; try done; lia.
  - intros i. rewrite lookup_insert. destruct (decide (tt_id x = i)), (decide (i = tt_id x)); by subst.
  - intros b ? Hb. simplify_eq. rewrite Hb in Eo. simpl in Eo. apply Z.ltb_ge in Eo. lia.
Qed.

(** On TigerBeetle, once the start-up bootstrap succeeded on a fresh cluster, no
    transfer that touches operator revenue under the energy or billing code
    can succeed, and none of them moves money: [Transfer] re-creates both
    accounts with the transfer's own code, and the server refuses an account
    that exists with another code. *)
Theorem tb_cross_code_transfer_fails `{TBClientLaws T} `{Runtime}
    (t0 t : T) (id : Uint128) (d c a code : Z)
    (Hfresh : forall x, tb_account_of t0 x = None)
    (Hboot : tb_bootstrap t0 bootstrap_accounts = (Ok tt, t))
    (Hcode : code = CodeEnergy \/ code = CodeBilling)
    (Htouch : OperatorRevenueAccount = d \/ OperatorRevenueAccount = c) :
  exists e t', tb_Transfer t id d c a code = (Err e, t') /\
    same_money tb_net tb_transfer_of t t'.
Proof.
  assert (exists b, tb_account_of t OperatorRevenueAccount = Some b /\ ta_code b = CodeFare) as (b & Hb & Hbc).
  { exists (account_of_id OperatorRevenueAccount CodeFare). split; [|done].
    revert Hboot. unfold bootstrap_accounts. simpl.
    destruct (tb_EnsureAccount t0 OperatorRevenueAccount CodeFare) as [[[]|e] t1] eqn:E; [|done].
    apply (tb_bootstrap_keeps t1 [(RiderFundingAccount, CodeFare); (EnergyTradeAccount, CodeEnergy);
      (CarbonFundAccount, CodeCarbon); (CarbonIssuanceAccount, CodeCarbon)]).
    by apply (tb_ensure_accounts _ _ _ _ _ E). }
  destruct (tb_Transfer_code_mismatch t id d c a code _ b Htouch Hb) as [e He].
  { rewrite Hbc. destruct Hcode as [->| ->]; done. }
  destruct (tb_Transfer t id d c a code) as [r t'] eqn:Ht. simpl in He. subst r.
  exists e, t'. split; [done|].
  destruct (tb_Transfer_cases _ _ _ _ _ _ _ _ Ht) as [(e' & _ & Hs & _)|(t2 & r3 & Hs & _ & _ & _ & E3 & Hr)]; [done|].
  destruct r3 as [rs|e3]; [|by eapply tb_same_trans, create_transfer_err].
  eapply tb_same_trans; [done|].
  destruct (tb_transfer_of t2 id) as [y|] eqn:Ey.
  - by destruct (create_transfer_old _ _ _ _ _ E3 Ey).
  - destruct (create_transfer_new _ _ _ _ E3 Ey) as [(-> & _)|[_ ?]]; [done|done].
Qed.

(** ** Witness *)

#[local] Existing Instance test_runtime.

Definition beetle_fresh : beetle := mkBeetle ∅ ∅ ∅.
Definition beetle_booted : beetle := (tb_bootstrap beetle_fresh bootstrap_accounts).2.

Lemma tb_cross_code_transfer_fails_witness :
  exists e t', tb_Transfer beetle_booted [9] EnergyTradeAccount OperatorRevenueAccount 100 CodeEnergy
    = (Err e, t') /\ same_money tb_net tb_transfer_of beetle_booted t'.
Proof.
  apply (tb_cross_code_transfer_fails beetle_fresh beetle_booted).
  - intros x. apply lookup_empty.
  - vm_compute. reflexivity.
  - by left.
  - by right.
Defined.
