(* ===== verification/CommerceDb.v ===== *)
(** * The commerce schema

    The tables commerce-api owns (EnsureSchema in
    services/go/commerce-api/internal/handlers/common.go) as finite maps from
    primary key to row, and the row types of the handlers.  Constraints of the
    schema (unique indexes, CHECKs, foreign keys, integer ranges) appear as
    the errors of the statements that insert or update rows. *)

From S2P Require Import Prelude World.

(** [Payment] of payments.go plus the refunded_at column. *)
Record Payment : Type := mkPayment {
  p_id : string;
  p_rider : string;
  p_amount : Z;
  p_charged : option Z;
  p_currency : string;
  p_mojaloop : option string;
  p_tb : option string;
  p_key : option string;
  p_status : string;
  p_refunded : Z;
  p_refunded_at : option Z;
  p_created : Z
}.

(** [FareProduct] and [Entitlement] of entitlements.go. *)
Record FareProduct : Type := mkFareProduct {
  fp_id : string;
  fp_code : string;
  fp_kind : string;
  fp_pct : option Z;
  fp_price : Z;
  fp_days : Z;
  fp_description : string;
  fp_active : bool;
  fp_created : Z
}.

Record Entitlement : Type := mkEntitlement {
  en_id : string;
  en_rider : string;
  en_product : string;
  en_from : Z;
  en_to : Z;
  en_payer : option string;
  en_created_by : string;
  en_created : Z
}.

(** Loyalty: balances, the audit ledger, offers and redemptions (loyalty.go). *)
Record LoyaltyBalance : Type := mkLoyaltyBalance { lb_rider : string; lb_points : Z; lb_updated : Z }.

Record LoyaltyEntry : Type := mkLoyaltyEntry {
  le_id : string; le_rider : string; le_delta : Z; le_reason : string; le_ref : string; le_created : Z
}.

Record Offer : Type := mkOffer {
  of_id : string; of_title : string; of_description : string; of_partner : string;
  of_cost : Z; of_active : bool; of_created : Z
}.

Record Redemption : Type := mkRedemption {
  rd_id : string; rd_rider : string; rd_offer : string; rd_points : Z; rd_key : string;
  rd_status : string; rd_created : Z
}.

(** Corporate settlement (billing.go). *)
Record BillingAccount : Type := mkBillingAccount {
  ba_id : string; ba_name : string; ba_kind : string; ba_email : string; ba_ledger : Z;
  ba_status : string; ba_created : Z
}.

Record BillingCharge : Type := mkBillingCharge {
  bc_id : string; bc_account : string; bc_payment : string; bc_entitlement : string;
  bc_amount : Z; bc_invoice : option string; bc_created : Z
}.

Record Invoice : Type := mkInvoice {
  iv_id : string; iv_account : string; iv_start : Z; iv_end : Z; iv_amount : Z; iv_count : Z;
  iv_status : string; iv_tb : option string; iv_issued : Z; iv_paid : option Z; iv_created : Z
}.

(** The database: one map per table, keyed by its primary key.
    rider_accounts maps rider_sub to account_id; loyalty_accounts is keyed by
    rider_sub. *)
Record DB : Type := mkDB {
  fare_payments : gmap string Payment;
  rider_accounts : gmap string Z;
  fare_products : gmap string FareProduct;
  rider_entitlements : gmap string Entitlement;
  loyalty_accounts : gmap string LoyaltyBalance;
  loyalty_ledger : gmap string LoyaltyEntry;
  marketplace_offers : gmap string Offer;
  loyalty_redemptions : gmap string Redemption;
  billing_accounts : gmap string BillingAccount;
  billing_charges : gmap string BillingCharge;
  invoices : gmap string Invoice
}.

Definition empty_db : DB := mkDB ∅ ∅ ∅ ∅ ∅ ∅ ∅ ∅ ∅ ∅ ∅.

(** Row writes, one per table. *)
Definition put_payment (p : Payment) (d : DB) : DB :=
  mkDB (<[p_id p := p]> (fare_payments d)) (rider_accounts d) (fare_products d)
    (rider_entitlements d) (loyalty_accounts d) (loyalty_ledger d) (marketplace_offers d)
    (loyalty_redemptions d) (billing_accounts d) (billing_charges d) (invoices d).
Definition put_rider_account (sub : string) (account : Z) (d : DB) : DB :=
  mkDB (fare_payments d) (<[sub := account]> (rider_accounts d)) (fare_products d)
    (rider_entitlements d) (loyalty_accounts d) (loyalty_ledger d) (marketplace_offers d)
    (loyalty_redemptions d) (billing_accounts d) (billing_charges d) (invoices d).
Definition put_fare_product (x : FareProduct) (d : DB) : DB :=
  mkDB (fare_payments d) (rider_accounts d) (<[fp_id x := x]> (fare_products d))
    (rider_entitlements d) (loyalty_accounts d) (loyalty_ledger d) (marketplace_offers d)
    (loyalty_redemptions d) (billing_accounts d) (billing_charges d) (invoices d).
Definition put_entitlement (x : Entitlement) (d : DB) : DB :=
  mkDB (fare_payments d) (rider_accounts d) (fare_products d)
    (<[en_id x := x]> (rider_entitlements d)) (loyalty_accounts d) (loyalty_ledger d)
    (marketplace_offers d) (loyalty_redemptions d) (billing_accounts d) (billing_charges d)
    (invoices d).
Definition put_loyalty_account (x : LoyaltyBalance) (d : DB) : DB :=
  mkDB (fare_payments d) (rider_accounts d) (fare_products d) (rider_entitlements d)
    (<[lb_rider x := x]> (loyalty_accounts d)) (loyalty_ledger d) (marketplace_offers d)
    (loyalty_redemptions d) (billing_accounts d) (billing_charges d) (invoices d).
Definition put_loyalty_entry (x : LoyaltyEntry) (d : DB) : DB :=
  mkDB (fare_payments d) (rider_accounts d) (fare_products d) (rider_entitlements d)
    (loyalty_accounts d) (<[le_id x := x]> (loyalty_ledger d)) (marketplace_offers d)
    (loyalty_redemptions d) (billing_accounts d) (billing_charges d) (invoices d).
Definition put_offer (x : Offer) (d : DB) : DB :=
  mkDB (fare_payments d) (rider_accounts d) (fare_products d) (rider_entitlements d)
    (loyalty_accounts d) (loyalty_ledger d) (<[of_id x := x]> (marketplace_offers d))
    (loyalty_redemptions d) (billing_accounts d) (billing_charges d) (invoices d).
Definition put_redemption (x : Redemption) (d : DB) : DB :=
  mkDB (fare_payments d) (rider_accounts d) (fare_products d) (rider_entitlements d)
    (loyalty_accounts d) (loyalty_ledger d) (marketplace_offers d)
    (<[rd_id x := x]> (loyalty_redemptions d)) (billing_accounts d) (billing_charges d)
    (invoices d).
Definition put_billing_account (x : BillingAccount) (d : DB) : DB :=
  mkDB (fare_payments d) (rider_accounts d) (fare_products d) (rider_entitlements d)
    (loyalty_accounts d) (loyalty_ledger d) (marketplace_offers d) (loyalty_redemptions d)
    (<[ba_id x := x]> (billing_accounts d)) (billing_charges d) (invoices d).
Definition set_billing_charges (m : gmap string BillingCharge) (d : DB) : DB :=
  mkDB (fare_payments d) (rider_accounts d) (fare_products d) (rider_entitlements d)
    (loyalty_accounts d) (loyalty_ledger d) (marketplace_offers d) (loyalty_redemptions d)
    (billing_accounts d) m (invoices d).
Definition put_billing_charge (x : BillingCharge) (d : DB) : DB :=
  set_billing_charges (<[bc_id x := x]> (billing_charges d)) d.
Definition put_invoice (x : Invoice) (d : DB) : DB :=
  mkDB (fare_payments d) (rider_accounts d) (fare_products d) (rider_entitlements d)
    (loyalty_accounts d) (loyalty_ledger d) (marketplace_offers d) (loyalty_redemptions d)
    (billing_accounts d) (billing_charges d) (<[iv_id x := x]> (invoices d)).

(** A statement of the database, in or out of a transaction. *)
Abbreviation stmt A := (DB -> result (A * (DB -> DB))).

(** ** JSON renderings (the struct tags of the row types) *)

Definition jopt_field (k : string) (o : option string) : list (string * json) :=
  match o with Some s => [(k, JStr s)] | None => [] end.

Definition payment_json (p : Payment) : json :=
  JObj ([("id", JStr (p_id p)); ("rider_sub", JStr (p_rider p)); ("amount_minor", JInt (p_amount p))]
    ++ match p_charged p with Some c => [("charged_minor", JInt c)] | None => [] end
    ++ [("currency", JStr (p_currency p))]
    ++ jopt_field "mojaloop_transfer_id" (p_mojaloop p)
    ++ jopt_field "tb_transfer_id" (p_tb p)
    ++ jopt_field "idempotency_key" (p_key p)
    ++ [("status", JStr (p_status p)); ("refunded_minor", JInt (p_refunded p));
        ("created_at", JTime (p_created p))]).

Definition fare_product_json (x : FareProduct) : json :=
  JObj ([("id", JStr (fp_id x)); ("code", JStr (fp_code x)); ("kind", JStr (fp_kind x))]
    ++ match fp_pct x with Some c => [("discount_pct", JInt c)] | None => [] end
    ++ [("price_minor", JInt (fp_price x)); ("duration_days", JInt (fp_days x));
        ("description", JStr (fp_description x)); ("active", JBool (fp_active x));
        ("created_at", JTime (fp_created x))]).

Definition entitlement_json (x : Entitlement) : json :=
  JObj ([("id", JStr (en_id x)); ("rider_sub", JStr (en_rider x)); ("product_id", JStr (en_product x));
         ("valid_from", JTime (en_from x)); ("valid_to", JTime (en_to x))]
    ++ jopt_field "payer_account" (en_payer x)
    ++ [("created_by", JStr (en_created_by x)); ("created_at", JTime (en_created x))]).

Definition loyalty_json (b : LoyaltyBalance) : json :=
  JObj [("rider_sub", JStr (lb_rider b)); ("points", JInt (lb_points b)); ("updated_at", JTime (lb_updated b))].

Definition offer_json (o : Offer) : json :=
  JObj [("id", JStr (of_id o)); ("title", JStr (of_title o)); ("description", JStr (of_description o));
        ("partner", JStr (of_partner o)); ("cost_points", JInt (of_cost o));
        ("active", JBool (of_active o)); ("created_at", JTime (of_created o))].

Definition billing_account_json (a : BillingAccount) : json :=
  JObj [("id", JStr (ba_id a)); ("name", JStr (ba_name a)); ("kind", JStr (ba_kind a));
        ("contact_email", JStr (ba_email a)); ("ledger_account_id", JInt (ba_ledger a));
        ("status", JStr (ba_status a)); ("created_at", JTime (ba_created a))].

Definition invoice_json (v : Invoice) : json :=
  JObj ([("id", JStr (iv_id v)); ("billing_account_id", JStr (iv_account v));
         ("period_start", JTime (iv_start v)); ("period_end", JTime (iv_end v));
         ("amount_minor", JInt (iv_amount v)); ("charge_count", JInt (iv_count v));
         ("status", JStr (iv_status v))]
    ++ jopt_field "tb_transfer_id" (iv_tb v)
    ++ [("issued_at", JTime (iv_issued v))]
    ++ match iv_paid v with Some t => [("paid_at", JTime t)] | None => [] end
    ++ [("created_at", JTime (iv_created v))]).

(** [ORDER BY key DESC LIMIT n]. *)
Fixpoint insert_desc {V} (key : V -> Z) (v : V) (l : list V) : list V :=
  match l with
  | [] => [v]
  | x :: l' => if key x <? key v then v :: x :: l' else x :: insert_desc key v l'
  end.

Definition order_desc {V} (key : V -> Z) (l : list V) : list V := foldr (insert_desc key) [] l.

Lemma insert_desc_perm {V} (key : V -> Z) v l : insert_desc key v l ≡ₚ v :: l.
Proof.
  induction l as [|x l IH]; simpl; [done|]. destruct (_ <? _); [done|].
  rewrite IH. apply Permutation_swap.
Qed.

Lemma order_desc_perm {V} (key : V -> Z) (l : list V) : order_desc key l ≡ₚ l.
Proof. induction l as [|x l IH]; simpl; [done|]. by rewrite insert_desc_perm, IH. Qed.

Lemma elem_of_order_desc {V} (key : V -> Z) (l : list V) n v :
  v ∈ take n (order_desc key l) -> v ∈ l.
Proof. intros H%elem_of_take. destruct H as (i & Hi & _). rewrite <- (order_desc_perm key l). by eapply list_elem_of_lookup_2. Qed.
