(* ===== verification/Mojaloop.v ===== *)
(** * The Mojaloop payer client

    Models services/go/commerce-api/internal/mojaloop (client.go, ilp.go,
    errors.go): deterministic ids, the ILP packet and its condition, error
    classification, the retry loop of [do], and the parties -> quotes ->
    transfers flow.  The switch is the HTTP peer of the world: its replies are
    arbitrary, so what is proved holds for every switch.  A reply body is the
    decoded JSON document ([None] when it is not JSON); a timestamp string
    that parses is a [JTime]. *)

From Stdlib Require Import Ascii String.
From S2P Require Import Prelude Codec World.
From Stdlib Require Import List.
Import ListNotations.

Open Scope go_scope.

(** ** Error classification (errors.go) *)

Inductive ErrorKind : Type :=
| KindValidation | KindPayeeNotFound | KindQuoteRejected | KindTransferRejected
| KindDuplicate | KindTimeout | KindUnavailable.

#[global] Instance ErrorKind_eq_dec : EqDecision ErrorKind.
Proof. solve_decision. Defined.

Definition kind_string (k : ErrorKind) : string :=
  match k with
  | KindValidation => "validation"
  | KindPayeeNotFound => "payee_not_found"
  | KindQuoteRejected => "quote_rejected"
  | KindTransferRejected => "transfer_rejected"
  | KindDuplicate => "duplicate"
  | KindTimeout => "timeout"
  | KindUnavailable => "switch_unavailable"
  end.

Record mlError : Type := mkMlError {
  me_op : string; me_kind : ErrorKind; me_http : Z; me_msg : string
}.

(** An [error] of this package: a classified [*Error] or anything else. *)
Inductive failure : Type := Classified (e : mlError) | Unclassified (msg : string).

Inductive mlresult (A : Type) : Type := MOk (a : A) | MErr (f : failure).
Arguments MOk {A} _.
Arguments MErr {A} _.

Definition ErrorString (f : failure) : string :=
  match f with
  | Classified e =>
      if decide (me_http e = 0)
      then "mojaloop " +:+ me_op e +:+ ": " +:+ kind_string (me_kind e) +:+ ": " +:+ me_msg e
      else "mojaloop " +:+ me_op e +:+ ": " +:+ kind_string (me_kind e) +:+ " (http "
             +:+ pretty (me_http e) +:+ "): " +:+ me_msg e
  | Unclassified m => m
  end.

Definition PaymentStatus (err : option failure) : string :=
  match err with
  | None => "settled"
  | Some f =>
      let kind := match f with Classified e => me_kind e | Unclassified _ => KindUnavailable end in
      match kind with
      | KindPayeeNotFound => "mojaloop_payee_not_found"
      | KindQuoteRejected => "mojaloop_quote_rejected"
      | KindTransferRejected => "mojaloop_transfer_rejected"
      | KindTimeout => "mojaloop_timeout"
      | KindValidation => "failed"
      | KindDuplicate | KindUnavailable => "mojaloop_unavailable"
      end
  end.

Definition fspiopCode (doc : option json) : string :=
  match doc with
  | None => ""
  | Some d =>
      match doc_obj d with
      | None => ""
      | Some o =>
          match dec_obj o "errorInformation" with
          | None => ""
          | Some info =>
              match dec_str info "errorCode", dec_str info "errorDescription" with
              | Some c, Some _ => c
              | _, _ => ""
              end
          end
      end
  end.

Definition classify (path : string) (st : Z) (doc : option json) : ErrorKind :=
  let code := fspiopCode doc in
  if decide (code = "3208") then KindDuplicate
  else if String.prefix "/parties" path then KindPayeeNotFound
  else if String.prefix "/quotes" path then
    (if 500 <=? st then KindUnavailable else KindQuoteRejected)
  else if String.prefix "/transfers" path then
    (if 500 <=? st then KindUnavailable else KindTransferRejected)
  else if 500 <=? st then KindUnavailable else KindTransferRejected.

(** ** ILP packets (ilp.go) *)

Definition ilpTypePrepare : Z := 12.
Definition ilpDestination : string := "g.moja.h2fleet".

(** [t.UTC().Format("20060102150405.000Z")] of an instant in milliseconds. *)
Definition format_ilp_time (t : Z) : string :=
  let secs := t / 1000 in
  let '(y, m, d) := civil_from_days (secs / 86400) in
  let sod := secs mod 86400 in
  digits 4 y +:+ digits 2 m +:+ digits 2 d +:+ digits 2 (sod / 3600)
    +:+ digits 2 (sod / 60 mod 60) +:+ digits 2 (sod mod 60) +:+ "." +:+ digits 3 (t mod 1000) +:+ "Z".

Definition deriveFulfilment (transferID secret : string) : list Z :=
  Sha256.Sum256 (string_bytes ("h2fleet:ilp-fulfilment:v1:" +:+ secret +:+ ":" +:+ transferID)).

Definition conditionFor (fulfilment : list Z) : string * list Z :=
  let raw := Sha256.Sum256 fulfilment in (b64_encode raw, raw).

Definition encodeILPPrepare (destination : string) (amountMinor expiresAt : Z) (condition : list Z)
    : list Z :=
  let dest := string_bytes destination in
  [ilpTypePrepare] ++ [Z.of_nat (length dest) mod 256] ++ dest
    ++ put_be 8 amountMinor ++ string_bytes (format_ilp_time expiresAt)
    ++ put_be 4 (Z.of_nat (length condition)) ++ condition ++ put_be 4 0.

Definition buildILP (transferID secret : string) (amountMinor expiresAt : Z)
    : string * string * string :=
  let f := deriveFulfilment transferID secret in
  let '(condB64, condRaw) := conditionFor f in
  (b64_encode (encodeILPPrepare ilpDestination amountMinor expiresAt condRaw), condB64, b64_encode f).

Definition verifyFulfilment (fulfilmentB64 conditionB64 : string) : bool :=
  match b64_decode fulfilmentB64, b64_decode conditionB64 with
  | Some f, Some c => bool_decide (Sha256.Sum256 f = c)
  | _, _ => false
  end.

(** ** The client (client.go) *)

Definition PartyTypeBusiness : string := "BUSINESS".
Definition PartyTypeAlias : string := "ALIAS".
Definition TransferStateCommitted : string := "COMMITTED".
Definition TransferStateAborted : string := "ABORTED".

Record Config : Type := mkConfig {
  cfg_endpoint : string;
  cfg_dfsp : string;
  cfg_payee_id : string;
  cfg_payee_type : string;
  cfg_secret : string;
  cfg_generate_ilp : bool;
  cfg_attempt_timeout : Z;
  cfg_retry_budget : Z
}.

(** [strings.TrimRight(s, "/")]. *)
Fixpoint trim_slashes_rev (l : list ascii) : list ascii :=
  match l with
  | c :: l' => if Ascii.eqb c "/" then trim_slashes_rev l' else l
  | [] => []
  end.
Definition trim_right_slash (s : string) : string :=
  string_of_list_ascii (rev (trim_slashes_rev (rev (list_ascii_of_string s)))).

Definition or_default (s d : string) : string := if decide (s = "") then d else s.

(** [New]: defaults, and a retry budget of at least one attempt. *)
Definition NewClient (cfg : Config) : mlresult Config :=
  let ep := trim_right_slash (cfg_endpoint cfg) in
  if decide (ep = "") then MErr (Unclassified "mojaloop: Endpoint is required")
  else
    let at_ := if cfg_attempt_timeout cfg <=? 0 then 10000 else cfg_attempt_timeout cfg in
    let rb := if cfg_retry_budget cfg <=? 0 then 30000 else cfg_retry_budget cfg in
    MOk (mkConfig ep (or_default (cfg_dfsp cfg) "h2fleet")
           (or_default (cfg_payee_id cfg) "h2fleet-operator")
           (or_default (cfg_payee_type cfg) PartyTypeBusiness)
           (cfg_secret cfg) (cfg_generate_ilp cfg) at_ (if rb <? at_ then at_ else rb)).

(** [fmt.Sprintf("%s%d.%02d", ...)] on minor units. *)
Definition minorToMajor (minor : Z) : string :=
  let '(sign, m) := if minor <? 0 then ("-", wrap_i64 (- minor)) else ("", minor) in
  let frac := Z.rem m 100 in
  sign +:+ pretty (Z.quot m 100) +:+ "."
    +:+ (if (0 <=? frac) && (frac <? 10) then "0" +:+ pretty frac else pretty frac).

Definition set_byte (l : list Z) (i : nat) (f : Z -> Z) : list Z :=
  match l !! i with Some b => <[i := f b]> l | None => l end.

(** A UUID-shaped id: SHA-256 of the namespaced key, version and variant bits set. *)
Definition deterministicID (namespace key : string) : string :=
  let sum := Sha256.Sum256 (string_bytes ("h2fleet:mojaloop:" +:+ namespace +:+ ":" +:+ key)) in
  let id := take 16 sum in
  let id := set_byte id 6 (fun b => Z.lor (Z.land b 15) 64) in
  let id := set_byte id 8 (fun b => Z.lor (Z.land b 63) 128) in
  hex_encode (take 4 id) +:+ "-" +:+ hex_encode (take 2 (drop 4 id)) +:+ "-"
    +:+ hex_encode (take 2 (drop 6 id)) +:+ "-" +:+ hex_encode (take 2 (drop 8 id)) +:+ "-"
    +:+ hex_encode (take 6 (drop 10 id)).

Record PaymentRequest : Type := mkPaymentRequest {
  pr_key : string; pr_payer : string; pr_payer_type : string; pr_amount : Z; pr_currency : string
}.

Record TransferResponse : Type := mkTransferResponse {
  tr_id : string; tr_state : string; tr_fulfilment : string
}.

Record Result : Type := mkResult {
  rs_transfer : string; rs_state : string; rs_payee_fsp : string; rs_quote : string;
  rs_fulfilment_verified : bool
}.

Definition nextBackoff (d : Z) : Z := let d := d * 2 in if 2000 <? d then 2000 else d.

Definition isRetryableStatus (code : Z) : bool := (code =? 408) || (code =? 429) || (500 <=? code).

Definition truncate (s : string) (n : nat) : string :=
  if (n <? String.length s)%nat then String.substring 0 n s +:+ "…" else s.

Definition ctx_alive (ctx_deadline : option Z) (t : Z) : bool :=
  match ctx_deadline with Some d => t <? d | None => true end.

Section Client.
Context {D L : Type} `{Runtime}.

(** The retry loop of [do] at time [t]: one attempt, then an answer or a sleep
    of [backoff] and another attempt.  Times are in milliseconds. *)
Fixpoint do_loop (fuel : nat) (ctx : option Z) (deadline : Z) (rq : http_request) (want : bool)
    (t backoff : Z) : M D L (mlresult json * Z) :=
  let op := hr_method rq +:+ " " +:+ hr_path rq in
  match fuel with
  | O => gret (MErr (Unclassified "out of fuel"), t)
  | S fuel' =>
      let! h := http_do rq in
      match h with
      | HttpFail dt timed_out msg =>
          let t := t + Z.of_N dt in
          if ctx_alive ctx t && (t + backoff <? deadline)
          then do_loop fuel' ctx deadline rq want (t + backoff) (nextBackoff backoff)
          else gret (MErr (Classified (mkMlError op
                 (if timed_out then KindTimeout else KindUnavailable) 0 msg)), t)
      | HttpReply dt code raw doc =>
          let t := t + Z.of_N dt in
          if (200 <=? code) && (code <? 300) then
            if want && negb (bool_decide (raw = "")) then
              match doc with
              | Some d => gret (MOk d, t)
              | None => gret (MErr (Classified (mkMlError op KindUnavailable code
                          "invalid JSON from switch")), t)
              end
            else gret (MOk JNull, t)
          else if code =? 409 then
            gret (MErr (Classified (mkMlError op KindDuplicate code raw)), t)
          else if isRetryableStatus code && (t + backoff <? deadline) && ctx_alive ctx t
          then do_loop fuel' ctx deadline rq want (t + backoff) (nextBackoff backoff)
          else gret (MErr (Classified (mkMlError op (classify (hr_path rq) code doc) code
                 (truncate raw 512))), t)
      end
  end.

(** Attempts [do] can make: every retry sleeps at least 100 ms of its budget. *)
Definition do_fuel (budget : Z) : nat := Z.to_nat (budget / 100 + 2).

Definition do_call (cfg : Config) (ctx : option Z) (rq : http_request) (want : bool) (t : Z)
    : M D L (mlresult json * Z) :=
  let deadline := t + cfg_retry_budget cfg in
  let deadline := match ctx with Some d => if d <? deadline then d else deadline | None => deadline end in
  do_loop (do_fuel (cfg_retry_budget cfg)) ctx deadline rq want t 100.

Definition bad_json (op : string) : failure :=
  Classified (mkMlError op KindUnavailable 200 "invalid JSON from switch").

(** [GetParty]: the payee's FSP id. *)
Definition GetParty (cfg : Config) (ctx : option Z) (partyType partyID : string) (t : Z)
    : M D L (mlresult string * Z) :=
  let path := "/parties/" +:+ partyType +:+ "/" +:+ partyID in
  let! '(r, t) := do_call cfg ctx (mkHttpRequest "GET" path JNull) true t in
  match r with
  | MErr f => gret (MErr f, t)
  | MOk doc =>
      let fsp := o ← doc_obj doc; p ← dec_obj o "party"; i ← dec_obj p "partyIdInfo";
                 dec_str i "fspId" in
      match fsp with
      | None => gret (MErr (bad_json ("GET " +:+ path)), t)
      | Some "" => gret (MErr (Classified (mkMlError "GET /parties" KindPayeeNotFound 0
                     "party resolved without an fspId")), t)
      | Some f => gret (MOk f, t)
      end
  end.

Record quoteResponse : Type := mkQuote {
  q_currency : string; q_expiration : option Z; q_ilp : string; q_condition : string
}.

Definition decode_quote (doc : json) : option quoteResponse :=
  o ← doc_obj doc;
  a ← dec_obj o "transferAmount";
  cur ← dec_str a "currency";
  ilp ← dec_str o "ilpPacket";
  cond ← dec_str o "condition";
  match jget "expiration" o with
  | None | Some JNull | Some (JStr _) => Some (mkQuote cur None ilp cond)
  | Some (JTime e) => Some (mkQuote cur (Some e) ilp cond)
  | _ => None
  end.

Definition lower (s : string) : string :=
  string_of_list_ascii (map (fun c =>
    let n := ascii_byte c in if (65 <=? n) && (n <=? 90) then byte_ascii (n + 32) else c)
    (list_ascii_of_string s)).

Definition money (amount : Z) (currency : string) : json :=
  JObj [("amount", JStr (minorToMajor amount)); ("currency", JStr currency)].

Definition RequestQuote (cfg : Config) (ctx : option Z) (req : PaymentRequest)
    (quoteID transferID : string) (t : Z) : M D L (mlresult quoteResponse * Z) :=
  let payerType := or_default (pr_payer_type req) PartyTypeAlias in
  let q := JObj [("quoteId", JStr quoteID); ("transactionId", JStr transferID);
    ("payee", JObj [("partyIdType", JStr (cfg_payee_type cfg)); ("partyIdentifier", JStr (cfg_payee_id cfg))]);
    ("payer", JObj [("partyIdType", JStr payerType); ("partyIdentifier", JStr (pr_payer req))]);
    ("amountType", JStr "SEND"); ("amount", money (pr_amount req) (pr_currency req));
    ("transactionType", JObj [("scenario", JStr "PAYMENT"); ("initiator", JStr "PAYER");
                              ("initiatorType", JStr "CONSUMER")]);
    ("expiration", JTime (t + 120000))] in
  let! '(r, t) := do_call cfg ctx (mkHttpRequest "POST" "/quotes" q) true t in
  match r with
  | MErr f => gret (MErr f, t)
  | MOk doc =>
      match decode_quote doc with
      | None => gret (MErr (bad_json "POST /quotes"), t)
      | Some out =>
          if negb (bool_decide (q_currency out = ""))
             && negb (bool_decide (lower (q_currency out) = lower (pr_currency req)))
          then gret (MErr (Classified (mkMlError "POST /quotes" KindQuoteRejected 0
                 ("quote currency mismatch: asked " +:+ pr_currency req +:+ ", got " +:+ q_currency out))), t)
          else gret (MOk out, t)
      end
  end.

Definition decode_transfer (doc : json) : option TransferResponse :=
  o ← doc_obj doc;
  id ← dec_str o "transferId";
  st ← dec_str o "transferState";
  f ← dec_str o "fulfilment";
  Some (mkTransferResponse id st f).

Definition SendTransfer (cfg : Config) (ctx : option Z) (transferID : string) (payload : json)
    (condition : string) (t : Z) : M D L (mlresult TransferResponse * Z) :=
  let! '(r, t) := do_call cfg ctx (mkHttpRequest "POST" "/transfers" payload) true t in
  match r with
  | MErr (Classified e) =>
      if decide (me_kind e = KindDuplicate)
      then gret (MOk (mkTransferResponse transferID TransferStateCommitted ""), t)
      else gret (MErr (Classified e), t)
  | MErr f => gret (MErr f, t)
  | MOk doc =>
      match decode_transfer doc with
      | None => gret (MErr (bad_json "POST /transfers"), t)
      | Some out =>
          let out := mkTransferResponse (or_default (tr_id out) transferID) (tr_state out) (tr_fulfilment out) in
          if decide (tr_state out = TransferStateAborted)
          then gret (MErr (Classified (mkMlError "POST /transfers" KindTransferRejected 0
                 "transfer aborted by switch")), t)
          else if negb (bool_decide (tr_fulfilment out = "")) && negb (bool_decide (condition = ""))
                  && negb (verifyFulfilment (tr_fulfilment out) condition)
          then gret (MErr (Classified (mkMlError "POST /transfers" KindTransferRejected 0
                 "fulfilment does not satisfy condition")), t)
          else gret (MOk out, t)
      end
  end.

Definition validation (msg : string) : failure := Classified (mkMlError "Transfer" KindValidation 0 msg).

(** [Transfer]: validate, look the payee up, quote, build ILP material, send. *)
Definition Transfer (cfg : Config) (ctx : option Z) (req : PaymentRequest) : M D L (mlresult Result) :=
  let! t := gets w_now in
  if decide (pr_key req = "") then gret (MErr (validation "idempotency key is required"))
  else if pr_amount req <=? 0 then gret (MErr (validation "amount must be positive"))
  else if decide (pr_currency req = "") then gret (MErr (validation "currency is required"))
  else
    let transferID := deterministicID "transfer" (pr_key req) in
    let quoteID := deterministicID "quote" (pr_key req) in
    let! '(payee, t) := GetParty cfg ctx (cfg_payee_type cfg) (cfg_payee_id cfg) t in
    match payee with
    | MErr f => gret (MErr f)
    | MOk fsp =>
        let! '(quote, t) := RequestQuote cfg ctx req quoteID transferID t in
        match quote with
        | MErr f => gret (MErr f)
        | MOk q =>
            let '(ilpPacket, condition) :=
              if bool_decide (q_ilp q = "") || bool_decide (q_condition q = "") || cfg_generate_ilp cfg
              then let expiry := default (t + 120000) (q_expiration q) in
                   let '(p, c, _) := buildILP transferID (cfg_secret cfg) (wrap_u64 (pr_amount req)) expiry in
                   (p, c)
              else (q_ilp q, q_condition q) in
            let payload := JObj [("transferId", JStr transferID); ("payeeFsp", JStr fsp);
              ("payerFsp", JStr (cfg_dfsp cfg)); ("amount", money (pr_amount req) (pr_currency req));
              ("ilpPacket", JStr ilpPacket); ("condition", JStr condition);
              ("expiration", JTime (t + 120000))] in
            let! '(tr, t) := SendTransfer cfg ctx transferID payload condition t in
            match tr with
            | MErr f => gret (MErr f)
            | MOk r => gret (MOk (mkResult (tr_id r) (tr_state r) fsp quoteID
                         (negb (bool_decide (tr_fulfilment r = "")))))
            end
        end
    end.
End Client.

(** ** Lemmas *)

Lemma PaymentStatus_not_settled f : PaymentStatus (Some f) <> "settled"%string.
Proof. destruct f as [[? k ? ?]|m]; [destruct k|]; done. Qed.

Section ClientLemmas.
Context {D L : Type} `{Runtime}.
Implicit Types w : World D L.

(** Everything but the HTTP traffic is left alone, and the requests sent all
    satisfy [P]. *)
Definition http_only (P : http_request -> Prop) w w' : Prop :=
  exists rs h, w' = with_sent (w_sent w ++ rs) (with_http h w) /\ Forall P rs.

Lemma http_only_refl P w : http_only P w w.
Proof. exists [], (w_http w). rewrite app_nil_r. split; [by destruct w|done]. Qed.

Lemma http_only_trans P w1 w2 w3 : http_only P w1 w2 -> http_only P w2 w3 -> http_only P w1 w3.
Proof.
  intros (r1 & h1 & -> & H1) (r2 & h2 & -> & H2). exists (r1 ++ r2), h2. simpl.
  rewrite app_assoc. split; [done|]. by apply Forall_app_2.
Qed.

Lemma http_only_one P w h rq : P rq -> http_only P w (with_sent (w_sent w ++ [rq]) (with_http h w)).
Proof. intros HP. exists [rq], h. split; [done|]. by constructor. Qed.

Lemma nextBackoff_ge d : 100 <= d -> 100 <= nextBackoff d.
Proof. unfold nextBackoff. destruct (Z.ltb_spec 2000 (d * 2)); lia. Qed.

(** With enough fuel for the remaining budget, the loop answers: the fuel is
    never what ends it, and it sends only [rq], at most [fuel] times. *)
Lemma do_loop_spec fuel ctx deadline rq want t backoff w :
  100 <= backoff -> deadline - t <= 100 * (Z.of_nat fuel - 1) -> (1 <= fuel)%nat ->
  wp (do_loop fuel ctx deadline rq want t backoff)
    (fun r w' => r.1 <> MErr (Unclassified "out of fuel") /\
       exists n, (1 <= n <= fuel)%nat /\ exists h, w' = with_sent (w_sent w ++ replicate n rq) (with_http h w)) w.
Proof.
  revert t backoff w. induction fuel as [|fuel IH]; intros t backoff w Hb Hd Hf; [lia|].
  assert (forall h (r : mlresult json),
    r <> MErr (Unclassified "out of fuel") ->
    r <> MErr (Unclassified "out of fuel") /\
    exists n, (1 <= n <= S fuel)%nat /\ exists h',
      with_sent (w_sent w ++ [rq]) (with_http h w)
      = with_sent (w_sent w ++ replicate n rq) (with_http h' w)) as Hstop.
  { intros h r Hr. split; [done|]. exists 1%nat. split; [lia|]. by exists h. }
  assert (forall t' h, t + backoff <= t' -> t' < deadline ->
    wp (do_loop fuel ctx deadline rq want t' (nextBackoff backoff))
      (fun r w' => r.1 <> MErr (Unclassified "out of fuel") /\
         exists n, (1 <= n <= S fuel)%nat /\ exists h',
           w' = with_sent (w_sent w ++ replicate n rq) (with_http h' w))
      (with_sent (w_sent w ++ [rq]) (with_http h w))) as Hretry.
  { intros t' h Ht Hdl. eapply wp_mono; [|apply IH; [by apply nextBackoff_ge|lia|lia]].
    intros r w' (Hr & n & Hn & h' & ->). split; [done|]. exists (S n). split; [lia|].
    exists h'. simpl. by rewrite <- app_assoc. }
  cbn [do_loop]. apply wp_bind, wp_http_do. intros o h.
  destruct o as [dt to msg|dt code raw doc].
  - destruct (ctx_alive ctx _ && _) eqn:E; [|apply wp_ret, Hstop; by simpl].
    apply andb_true_iff in E as [_ E]. apply Z.ltb_lt in E. apply Hretry; lia.
  - destruct ((200 <=? code) && (code <? 300)).
    { destruct (want && _); [destruct doc|]; apply wp_ret, Hstop; by simpl. }
    destruct (code =? 409); [apply wp_ret, Hstop; by simpl|].
    destruct (isRetryableStatus code && _ && _) eqn:E; [|apply wp_ret, Hstop; by simpl].
    apply andb_true_iff in E as [[_ E]%andb_true_iff _]. apply Z.ltb_lt in E. apply Hretry; lia.
Qed.

Lemma do_call_spec cfg ctx rq want t w :
  0 <= cfg_retry_budget cfg ->
  wp (do_call cfg ctx rq want t)
    (fun r w' => r.1 <> MErr (Unclassified "out of fuel") /\
       exists n, (1 <= n <= do_fuel (cfg_retry_budget cfg))%nat /\ exists h,
         w' = with_sent (w_sent w ++ replicate n rq) (with_http h w)) w.
Proof.
  intros Hb. unfold do_call. set (dl := match ctx with Some d => _ | None => _ end).
  assert (dl <= t + cfg_retry_budget cfg) as Hdl.
  { unfold dl. destruct ctx as [d|]; [destruct (Z.ltb_spec d (t + cfg_retry_budget cfg)); lia|lia]. }
  assert (0 <= cfg_retry_budget cfg / 100) by (apply Z.div_pos; lia).
  pose proof (Z.mul_succ_div_gt (cfg_retry_budget cfg) 100 ltac:(lia)).
  apply do_loop_spec; unfold do_fuel; lia.
Qed.

Lemma do_call_only (P : http_request -> Prop) cfg ctx rq want t w :
  0 <= cfg_retry_budget cfg -> P rq ->
  wp (do_call cfg ctx rq want t) (fun _ w' => http_only P w w') w.
Proof.
  intros Hb HP. eapply wp_mono; [|by apply do_call_spec].
  intros r w' (_ & n & _ & h & ->). exists (replicate n rq), h. split; [done|].
  by apply Forall_replicate.
Qed.

(** The requests a payment may send: the transfer is always the same one. *)
Definition flow_request (cfg : Config) (req : PaymentRequest) (rq : http_request) : Prop :=
  hr_path rq = "/transfers"%string ->
  exists o, hr_body rq = JObj o /\
    jget "transferId" o = Some (JStr (deterministicID "transfer" (pr_key req))) /\
    jget "amount" o = Some (money (pr_amount req) (pr_currency req)).

Lemma GetParty_only cfg ctx ty id t req w :
  0 <= cfg_retry_budget cfg ->
  wp (GetParty cfg ctx ty id t) (fun _ w' => http_only (flow_request cfg req) w w') w.
Proof.
  intros Hb. unfold GetParty. apply wp_bind.
  eapply wp_mono; [|apply (do_call_only (flow_request cfg req)); [done|]; by intros ?].
  intros [r t'] w' Hw. destruct r as [doc|f]; [|by apply wp_ret].
  case_match; [case_match|]; by apply wp_ret.
Qed.

Lemma RequestQuote_only cfg ctx req q tr t w :
  0 <= cfg_retry_budget cfg ->
  wp (RequestQuote cfg ctx req q tr t) (fun _ w' => http_only (flow_request cfg req) w w') w.
Proof.
  intros Hb. unfold RequestQuote. apply wp_bind.
  eapply wp_mono; [|apply (do_call_only (flow_request cfg req)); [done|]; by intros ?].
  intros [r t'] w' Hw. destruct r as [doc|f]; [|by apply wp_ret].
  destruct (decode_quote doc); [|by apply wp_ret]. destruct (_ && _); by apply wp_ret.
Qed.

Lemma SendTransfer_only cfg ctx req tid payload cond t w :
  0 <= cfg_retry_budget cfg ->
  flow_request cfg req (mkHttpRequest "POST" "/transfers" payload) ->
  wp (SendTransfer cfg ctx tid payload cond t)
    (fun r w' => http_only (flow_request cfg req) w w' /\
       forall out, r.1 = MOk out -> tr_fulfilment out = ""%string \/ cond = ""%string
         \/ verifyFulfilment (tr_fulfilment out) cond = true) w.
Proof.
  intros Hb Hp. unfold SendTransfer. apply wp_bind.
  eapply wp_mono; [|by apply (do_call_only (flow_request cfg req))].
  intros [r t'] w' Hw. destruct r as [doc|[e|m]].
  - destruct (decode_transfer doc) as [out|]; [|apply wp_ret; by split].
    cbn zeta. case_decide; [apply wp_ret; by split|].
    destruct (_ && _ && _) eqn:E; apply wp_ret; (split; [done|]); intros out' Ho; crush.
    apply andb_false_iff in E as [[E|E]%andb_false_iff|E]; apply negb_false_iff in E;
      rewrite ?bool_decide_eq_true in E; auto.
  - case_decide; apply wp_ret; (split; [done|]); intros out Ho; crush. by left.
  - apply wp_ret. by split.
Qed.

Lemma buildILP_condition tid secret a e : (buildILP tid secret a e).1.2 <> ""%string.
Proof.
  unfold buildILP, conditionFor. cbn.
  intros Heq. assert (Sha256.Sum256 (deriveFulfilment tid secret) = []) as Hnil.
  { pose proof (b64_roundtrip _ (Sum256_bytes (deriveFulfilment tid secret))) as Hrt.
    rewrite Heq in Hrt. by injection Hrt. }
  revert Hnil. unfold Sha256.Sum256. set (p := Sha256.pad _).
  assert (Sha256.blocks (length p) p Sha256.init_state <> []) as Hne.
  { assert (forall f l st, length st = 8%nat -> length (Sha256.blocks f l st) = 8%nat) as Hlen.
    { induction f as [|f IH]; intros l st Hst; [done|]. destruct l; [done|]. cbn [Sha256.blocks].
      apply IH. unfold Sha256.compress. rewrite length_zip_with, Hst.
      enough (forall kws s, length s = 8%nat -> length (fold_left Sha256.round kws s) = 8%nat) as ->; [done|done|].
      induction kws as [|kw kws IH']; intros s Hs; [done|]. simpl. apply IH'.
      do 8 (destruct s as [|? s]; [done|]). by destruct s. }
    specialize (Hlen (length p) p Sha256.init_state eq_refl). by destruct (Sha256.blocks _ _ _). }
  destruct (Sha256.blocks _ _ _); [done|]. by cbn.
Qed.

(** The whole flow touches nothing but the switch, and every transfer it
    submits is the one its idempotency key determines. *)
Lemma Transfer_only cfg ctx req w :
  0 <= cfg_retry_budget cfg ->
  wp (Transfer cfg ctx req) (fun _ w' => http_only (flow_request cfg req) w w') w.
Proof.
  intros Hb. unfold Transfer. apply wp_bind, wp_gets.
  case_decide; [apply wp_ret, http_only_refl|].
  destruct (pr_amount req <=? 0); [apply wp_ret, http_only_refl|].
  case_decide; [apply wp_ret, http_only_refl|].
  apply wp_bind. eapply wp_mono; [|by apply (GetParty_only cfg ctx _ _ _ req)].
  intros [[fsp|f] t1] w1 W1; [|by apply wp_ret].
  apply wp_bind. eapply wp_mono; [|by apply RequestQuote_only].
  intros [[q|f] t2] w2 W2; [|apply wp_ret; by eapply http_only_trans].
  match goal with |- context [let '(_, _) := ?e in _] => destruct e as [ilp cond] end.
  apply wp_bind. eapply wp_mono; [|apply (SendTransfer_only cfg ctx req); [done|]].
  - intros [[r|f] t3] w3 [W3 _]; apply wp_ret; eauto using http_only_trans.
  - intros _. eexists. split; [reflexivity|]. split; reflexivity.
Qed.
End ClientLemmas.

(** ** Reading an ILP packet back *)

(** The fields of a Prepare packet by their documented offsets. *)
Definition decodeILPPrepare (pkt : list Z) : option (list Z * Z * list Z * list Z) :=
  match pkt with
  | ty :: n :: rest =>
      let dest := take (Z.to_nat n) rest in
      let rest := drop (Z.to_nat n) rest in
      let amount := get_be (take 8 rest) in
      let rest := drop 8 rest in
      let expiry := take 19 rest in
      let rest := drop 19 rest in
      let clen := Z.to_nat (get_be (take 4 rest)) in
      let rest := drop 4 rest in
      if decide (ty = ilpTypePrepare) then Some (dest, amount, expiry, take clen rest) else None
  | _ => None
  end.

Lemma string_bytes_app s u : string_bytes (s +:+ u) = string_bytes s ++ string_bytes u.
Proof. unfold string_bytes. induction s as [|c s IH]; simpl; [done|]. by rewrite IH. Qed.

Lemma digits_length n v : length (string_bytes (digits n v)) = n.
Proof.
  revert v. induction n as [|n IH]; intros v; [done|]. cbn [digits].
  rewrite string_bytes_app, length_app, IH. simpl. lia.
Qed.

Lemma format_ilp_time_length t : length (string_bytes (format_ilp_time t)) = 19%nat.
Proof.
  unfold format_ilp_time. destruct (civil_from_days _) as [[y m] d].
  rewrite !string_bytes_app, !length_app, !digits_length. done.
Qed.

Lemma take_app_len {A} (l k : list A) n : n = length l -> take n (l ++ k) = l.
Proof. intros ->. apply take_app_length. Qed.

Lemma drop_app_len {A} (l k : list A) n : n = length l -> drop n (l ++ k) = k.
Proof. intros ->. apply drop_app_length. Qed.

(** An ILP Prepare packet carries exactly the fields it was built from:
    reading the encoded bytes back gives the destination, the amount, the
    19-byte expiry and the condition, for every 64-bit amount. *)
Theorem ilp_prepare_roundtrip (dest : string) (amount expires : Z) (cond : list Z)
    (Hdest : Z.of_nat (length (string_bytes dest)) < 256)
    (Hamount : u64 amount) (Hcond : Z.of_nat (length cond) < 4294967296) :
  decodeILPPrepare (encodeILPPrepare dest amount expires cond)
  = Some (string_bytes dest, amount, string_bytes (format_ilp_time expires), cond).
Proof.
  unfold decodeILPPrepare, encodeILPPrepare. cbn [app].
  rewrite Z.mod_small by lia. rewrite Nat2Z.id.
  rewrite take_app_len, drop_app_len by done.
  rewrite take_app_len, drop_app_len by (by rewrite put_be_length).
  rewrite get_put_be by (unfold u64, two64 in Hamount; change (256 ^ Z.of_nat 8) with 18446744073709551616; lia).
  rewrite take_app_len, drop_app_len by (by rewrite format_ilp_time_length).
  rewrite take_app_len, drop_app_len by (by rewrite put_be_length).
  rewrite get_put_be by (change (256 ^ Z.of_nat 4) with 4294967296; lia).
  rewrite Nat2Z.id, take_app_len by done. by rewrite decide_True.
Qed.

(** Locally generated ILP material is self-consistent and reproducible:
    the fulfilment [buildILP] derives satisfies the condition it sends, and
    both depend only on the transfer id and the secret, so a retry with
    another amount or expiry re-creates the same pair. *)
Theorem ilp_fulfilment_verifies (transferID secret : string) (a1 e1 a2 e2 : Z) :
  let '(_, c1, f1) := buildILP transferID secret a1 e1 in
  let '(_, c2, f2) := buildILP transferID secret a2 e2 in
  verifyFulfilment f1 c1 = true /\ c1 = c2 /\ f1 = f2.
Proof.
  unfold buildILP, conditionFor. cbn. split; [|done].
  unfold verifyFulfilment. rewrite !b64_roundtrip by apply Sum256_bytes.
  by apply bool_decide_eq_true_2.
Qed.

(** A call to the switch always ends with an answer: whatever the switch
    replies, [do] returns before its bounded number of attempts is used up,
    having sent the same request each time. *)
Theorem do_terminates_within_budget {D L : Type} `{Runtime} (cfg : Config) (ctx : option Z)
    (rq : http_request) (want : bool) (t : Z) (w : World D L)
    (Hbudget : 0 <= cfg_retry_budget cfg) :
  exists r t' w' n, do_call cfg ctx rq want t w = ((r, t'), w') /\
    r <> MErr (Unclassified "out of fuel") /\
    (1 <= n)%nat /\ Z.of_nat n <= cfg_retry_budget cfg / 100 + 2 /\
    w_sent w' = w_sent w ++ replicate n rq.
Proof.
  pose proof (do_call_spec cfg ctx rq want t w Hbudget) as Hs. unfold wp in Hs.
  destruct (do_call cfg ctx rq want t w) as [[r t'] w']. simpl in Hs.
  destruct Hs as (Hr & n & Hn & h & ->). exists r, t'. eexists. exists n.
  split_and!; [done|done|lia| |done].
  assert (0 <= cfg_retry_budget cfg / 100) by (apply Z.div_pos; lia).
  unfold do_fuel in Hn. lia.
Qed.

(** A payment over Mojaloop can be retried at will: every POST /transfers
    it ever sends, on any replies, carries the transfer id its idempotency
    key determines and the charged amount, and the flow changes neither the
    database nor the ledger nor the event backbone. *)
Theorem mojaloop_transfer_retry_safe {D L : Type} `{Runtime} (cfg : Config) (ctx : option Z)
    (req : PaymentRequest) (w : World D L) (Hbudget : 0 <= cfg_retry_budget cfg) :
  let w' := (Transfer cfg ctx req w).2 in
  (w_db w' = w_db w /\ w_led w' = w_led w /\ w_bus w' = w_bus w) /\
  exists rs, w_sent w' = w_sent w ++ rs /\
    forall rq, rq ∈ rs -> hr_path rq = "/transfers"%string ->
      exists o, hr_body rq = JObj o /\
        jget "transferId" o = Some (JStr (deterministicID "transfer" (pr_key req))) /\
        jget "amount" o = Some (money (pr_amount req) (pr_currency req)).
Proof.
  pose proof (Transfer_only cfg ctx req w Hbudget) as (rs & h & Hw & Hrs).
  cbn zeta. rewrite Hw. split; [done|]. exists rs. split; [done|].
  intros rq Hin. rewrite List.Forall_forall in Hrs. apply Hrs. by apply list_elem_of_In.
Qed.

(** ** Witnesses *)

#[local] Existing Instance test_runtime.

Definition example_config : Config :=
  mkConfig "http://switch" "h2fleet" "h2fleet-operator" PartyTypeBusiness "s3cret" true 8000 20000.

(** A switch that is down twice, then resolves, quotes and commits. *)
Definition example_world : World unit unit :=
  mkWorld tt tt [] 1700000000000 0 []
    [HttpFail 5 false "refused"; HttpReply 3 503 "busy" None;
     HttpReply 9 200 "{..}" (Some (JObj [("party", JObj [("partyIdInfo", JObj [("fspId", JStr "op-fsp")])])]));
     HttpReply 9 200 "{..}" (Some (JObj [("expiration", JStr "")]));
     HttpReply 9 202 "" None] [].

Definition example_payment : PaymentRequest := mkPaymentRequest "key-1" "rider-1" PartyTypeAlias 250 "EUR".

Lemma ilp_prepare_roundtrip_witness :
  decodeILPPrepare (encodeILPPrepare ilpDestination 250 1700000000000 (Sha256.Sum256 [1]))
  = Some (string_bytes ilpDestination, 250, string_bytes "20231114221320.000Z", Sha256.Sum256 [1]).
Proof.
  change "20231114221320.000Z"%string with (format_ilp_time 1700000000000).
  apply ilp_prepare_roundtrip; [vm_compute; reflexivity|unfold u64, two64; lia|vm_compute; reflexivity].
Defined.

Lemma do_terminates_within_budget_witness :
  exists r t' w' n,
    do_call example_config (Some 1700000030000) (mkHttpRequest "GET" "/parties/X/y" JNull) true
      1700000000000 example_world = ((r, t'), w') /\
    r <> MErr (Unclassified "out of fuel") /\
    (1 <= n)%nat /\ Z.of_nat n <= 20000 / 100 + 2 /\
    w_sent w' = w_sent example_world ++ replicate n (mkHttpRequest "GET" "/parties/X/y" JNull).
Proof. apply (do_terminates_within_budget example_config). simpl. lia. Defined.

Lemma mojaloop_transfer_retry_safe_witness :
  (exists r, (Transfer example_config (Some 1700000030000) example_payment example_world).1 = MOk r) /\
  let w' := (Transfer example_config (Some 1700000030000) example_payment example_world).2 in
  (w_db w' = tt /\ w_led w' = tt /\ w_bus w' = []) /\
  exists rs, w_sent w' = w_sent example_world ++ rs /\
    forall rq, rq ∈ rs -> hr_path rq = "/transfers"%string ->
      exists o, hr_body rq = JObj o /\
        jget "transferId" o = Some (JStr (deterministicID "transfer" "key-1")) /\
        jget "amount" o = Some (money 250 "EUR").
Proof.
  split; [eexists; vm_compute; reflexivity|].
  apply (mojaloop_transfer_retry_safe example_config (Some 1700000030000) example_payment example_world).
  simpl. lia.
Defined.
