(* ===== verification/Loyalty.v ===== *)
(** * Loyalty points and the marketplace

    Models services/go/commerce-api/internal/handlers/loyalty.go: the lazily
    created balance, the accrual of points for a settled fare, the clawback
    for a refund, marketplace offers and their redemption.  The audit ledger
    (loyalty_ledger, unique on ref_id) is what makes accrual and clawback
    idempotent; the theorems below hold for every fault schedule. *)

From S2P Require Import Prelude World Auth CommerceDb.

Open Scope go_scope.

(** ** Statements *)

(** [INSERT INTO loyalty_ledger ... ON CONFLICT (ref_id) DO NOTHING]: the
    number of rows inserted. *)
Definition insert_loyalty_entry (e : LoyaltyEntry) : stmt Z := fun d =>
  if negb (in_int4 (le_delta e)) then Err (PgError numeric_value_out_of_range)
  else match find_row (fun x => bool_decide (le_ref x = le_ref e)) (loyalty_ledger d) with
       | Some _ => Ok (0, fun d => d)
       | None => match loyalty_ledger d !! le_id e with
                 | Some _ => Err (PgError unique_violation)
                 | None => Ok (1, put_loyalty_entry e)
                 end
       end.

(** [INSERT INTO loyalty_accounts (rider_sub, points) ... ON CONFLICT DO UPDATE
    SET points = points + EXCLUDED.points]. *)
Definition add_points (rider : string) (points now : Z) : stmt unit := fun d =>
  let total := match loyalty_accounts d !! rider with Some b => lb_points b + points | None => points end in
  if negb (in_int4 total) then Err (PgError numeric_value_out_of_range)
  else if total <? 0 then Err (PgError check_violation)
  else Ok (tt, put_loyalty_account (mkLoyaltyBalance rider total now)).

(** [UPDATE loyalty_accounts SET points = GREATEST(0, points - $2)]. *)
Definition subtract_points_floor (rider : string) (points now : Z) : stmt unit := fun d =>
  match loyalty_accounts d !! rider with
  | Some b => Ok (tt, put_loyalty_account (mkLoyaltyBalance rider (Z.max 0 (lb_points b - points)) now))
  | None => Ok (tt, fun d => d)
  end.

(** The lazily created account, its balance kept. *)
Definition ensure_loyalty_account (rider : string) (now : Z) : stmt LoyaltyBalance := fun d =>
  match loyalty_accounts d !! rider with
  | Some b => Ok (b, fun d => d)
  | None => let b := mkLoyaltyBalance rider 0 now in Ok (b, put_loyalty_account b)
  end.

(** [UPDATE loyalty_accounts SET points = points - $2 WHERE ... points >= $2
    RETURNING points]. *)
Definition deduct_points (rider : string) (cost now : Z) : stmt Z := fun d =>
  match loyalty_accounts d !! rider with
  | Some b => if cost <=? lb_points b
              then let p := lb_points b - cost in Ok (p, put_loyalty_account (mkLoyaltyBalance rider p now))
              else Err ErrNoRows
  | None => Err ErrNoRows
  end.

Definition insert_redemption (r : Redemption) : stmt unit := fun d =>
  match loyalty_redemptions d !! rd_id r with
  | Some _ => Err (PgError unique_violation)
  | None =>
      match find_row (fun x => bool_decide (rd_key x = rd_key r)) (loyalty_redemptions d) with
      | Some _ => Err (PgError unique_violation)
      | None => Ok (tt, put_redemption r)
      end
  end.

Definition redemption_by_key (key : string) (d : DB) : result Redemption :=
  match find_row (fun x => bool_decide (rd_key x = key)) (loyalty_redemptions d) with
  | Some r => Ok r
  | None => Err ErrNoRows
  end.

Definition active_offer_cost (id : string) (d : DB) : result Z :=
  match marketplace_offers d !! id with
  | Some o => if of_active o then Ok (of_cost o) else Err ErrNoRows
  | None => Err ErrNoRows
  end.

Definition insert_offer (o : Offer) : stmt Offer := fun d =>
  if negb (in_int4 (of_cost o)) then Err (PgError numeric_value_out_of_range)
  else if of_cost o <=? 0 then Err (PgError check_violation)
  else match marketplace_offers d !! of_id o with
       | Some _ => Err (PgError unique_violation)
       | None => Ok (o, put_offer o)
       end.

(** ** Handlers *)

Section Handlers.
Context {L : Type} `{Runtime}.

Definition GetLoyaltyBalance (ctx : claims) : M DB L response :=
  let sub := Subject ctx in
  if decide (sub = "") then reply_error 401 "authenticated subject required"
  else
    let! now := gets w_now in
    try! b := db_exec (ensure_loyalty_account sub now) catch e => internal "loyalty balance" e in
    reply 200 (loyalty_json b).

(** The ledger entry of a batch and, only when it landed, the balance change,
    in one transaction. *)
Definition post_points (rider reason ref : string) (signed : Z) (apply : Z -> stmt unit)
    : M DB L (result unit) :=
  let! now := gets w_now in
  try! tx := begin catch e => gret (Err e) in
  let! id := new_uuid in
  try! (n, tx) := tx_exec tx (insert_loyalty_entry (mkLoyaltyEntry id rider signed reason ref now))
    catch e => gret (Err e) in
  if n =? 1 then
    try! (_, tx) := tx_exec tx (apply now) catch e => gret (Err e) in
    commit tx
  else commit tx.

Definition accrueLoyaltyPoints (paymentID riderSub : string) (amountMinor : Z) : M DB L (result unit) :=
  let points := Z.quot amountMinor 100 in
  if (points <=? 0) || bool_decide (riderSub = "") then gret (Ok tt)
  else post_points riderSub "fare_accrual" paymentID points (add_points riderSub points).

Definition clawbackLoyaltyPoints (refID riderSub : string) (refundedMinor : Z) : M DB L (result unit) :=
  let points := Z.quot refundedMinor 100 in
  if (points <=? 0) || bool_decide (riderSub = "") then gret (Ok tt)
  else post_points riderSub "refund_clawback" refID (- points) (subtract_points_floor riderSub points).

Definition ListOffers : M DB L response :=
  try! os := db_query (fun d => Ok (take 200 (order_desc of_created (rows (marketplace_offers d)))))
    catch e => internal "list offers" e in
  reply 200 (JObj [("offers", JList (map offer_json os))]).

Record createOfferRequest : Type := mkCreateOffer {
  co_title : string; co_description : string; co_partner : string; co_cost : Z
}.

Definition CreateOffer (req : option createOfferRequest) : M DB L response :=
  match req with
  | None => reply_error 400 "title and positive cost_points are required"
  | Some r =>
      if bool_decide (co_title r = "") || (co_cost r <=? 0)
      then reply_error 400 "title and positive cost_points are required"
      else
        let! now := gets w_now in
        let! id := new_uuid in
        try! o := db_exec (insert_offer (mkOffer id (co_title r) (co_description r) (co_partner r)
                             (co_cost r) true now)) catch e => internal "create offer" e in
        reply 201 (offer_json o)
  end.

Definition redemptionResponse (red : Redemption) (remaining : Z) : json :=
  JObj ([("redemption_id", JStr (rd_id red)); ("redeemed_offer_id", JStr (rd_offer red));
         ("points_spent", JInt (rd_points red)); ("idempotency_key", JStr (rd_key red));
         ("status", JStr (rd_status red))]
    ++ (if 0 <=? remaining then [("remaining_points", JInt remaining)] else [])).

Definition replayRedemption (idemKey : string) : M DB L response :=
  try! red := db_query (redemption_by_key idemKey) catch e => internal "reload redemption" e in
  reply 200 (redemptionResponse red (-1)).

(** [RedeemOffer] after the request was validated: one transaction. *)
Definition redeem_tx (sub offerID idemKey : string) : M DB L response :=
  let! now := gets w_now in
  try! tx := begin catch e => internal "begin redeem tx" e in
  let! existing := tx_query tx (redemption_by_key idemKey) in
  match existing with
  | Ok ex =>
      do! commit tx in
      if negb (bool_decide (rd_rider ex = sub)) || negb (bool_decide (rd_offer ex = offerID))
      then reply_error 409 "idempotency key already used with different redemption parameters"
      else reply 200 (redemptionResponse ex (-1))
  | Err ErrNoRows =>
      let! cost := tx_query tx (active_offer_cost offerID) in
      match cost with
      | Err ErrNoRows => reply_error 404 "offer not found or inactive"
      | Err e => internal "load offer" e
      | Ok cost =>
          try! (_, tx) := tx_exec tx (ensure_loyalty_account sub now)
            catch e => internal "ensure loyalty account" e in
          let! ded := tx_exec tx (deduct_points sub cost now) in
          match ded with
          | Err ErrNoRows => reply_error 402 "insufficient loyalty points"
          | Err e => internal "deduct points" e
          | Ok (balance, tx) =>
              let! id := new_uuid in
              let red := mkRedemption id sub offerID cost idemKey "completed" now in
              let! ins := tx_exec tx (insert_redemption red) in
              match ins with
              | Err (PgError code) =>
                  if decide (code = unique_violation) then replayRedemption idemKey
                  else internal "record redemption" (PgError code)
              | Err e => internal "record redemption" e
              | Ok (_, tx) =>
                  let! eid := new_uuid in
                  try! (_, tx) := tx_exec tx (insert_loyalty_entry
                      (mkLoyaltyEntry eid sub (- cost) "offer_redeem" ("redeem:" +:+ idemKey) now))
                    catch e => internal "record redemption ledger entry" e in
                  try! _ := commit tx catch e => internal "commit redeem" e in
                  reply 200 (redemptionResponse red balance)
              end
          end
      end
  | Err e => internal "check redemption idempotency" e
  end.

(** The body carries the offer id; the key defaults to offer and subject. *)
Definition RedeemOffer (ctx : claims) (req : option string) (header : string) : M DB L response :=
  let sub := Subject ctx in
  if decide (sub = "") then reply_error 401 "authenticated subject required"
  else match req with
       | None | Some "" => reply_error 400 "offer_id is required"
       | Some offerID =>
           let idemKey := if decide (header = "") then offerID +:+ ":" +:+ sub else header in
           redeem_tx sub offerID idemKey
       end.
End Handlers.
