(* ===== verification/Payments.v ===== *)
(** * Fare payments

    Models services/go/commerce-api/internal/handlers/payments.go up to the
    refund handler: entitlement resolution, the daily fare cap, the rider
    wallet allocation, the Mojaloop leg, [CreatePayment] as the composition of
    its phases, and the two read handlers.  [CreatePayment] runs in one
    transaction under a per-rider advisory lock, so a whole request is one
    step of the model; what interleaves with it is in its fault schedule. *)

From S2P Require Import Prelude Codec World Auth Ledger CommerceDb Mojaloop Loyalty.

Open Scope go_scope.

(** ** Configuration from the environment *)

Definition dailyCapMinor (env : string -> string) : Z :=
  let raw := env "FARE_DAILY_CAP_MINOR" in
  if decide (raw = "") then 800
  else match ParseInt raw with
       | Some n => if n <? 0 then 800 else n
       | None => 800
       end.

Definition fareCapTimezone (env : string -> string) : string :=
  let tz := env "FARE_CAP_TIMEZONE" in if decide (tz = "") then "UTC" else tz.

Definition platformCurrency (env : string -> string) : string :=
  let c := env "PLATFORM_CURRENCY" in if decide (c = "") then "EUR" else c.

Definition envOr `{Runtime} (key fallback : string) : string :=
  if decide (getenv key = "") then fallback else getenv key.

(** ** Entitlement resolution *)

Record ent_row : Type := mkEntRow {
  er_kind : string; er_pct : Z; er_code : string; er_ent : string; er_payer : option string
}.

(** The rider's entitlements valid now, joined with their active products. *)
Definition ent_row_of (rider : string) (now : Z) (d : DB) (e : Entitlement) : option ent_row :=
  if decide (en_rider e = rider) then
    if (en_from e <=? now) && (now <? en_to e) then
      match fare_products d !! en_product e with
      | Some p => if fp_active p
                  then Some (mkEntRow (fp_kind p) (default 0 (fp_pct p)) (fp_code p) (en_id e) (en_payer e))
                  else None
      | None => None
      end
    else None
  else None.

Definition active_entitlements (rider : string) (now : Z) (d : DB) : list ent_row :=
  omap (ent_row_of rider now d) (rows (rider_entitlements d)).

(** What resolution returns: the charge, the product code, the entitlement
    and its corporate payer. *)
Record resolution : Type := mkResolution {
  rv_charge : Z; rv_code : string; rv_ent : string; rv_payer : option string
}.

Fixpoint resolve_loop (rs : list ent_row) (amount best : Z) (code ent : string) (payer : option string)
    : resolution :=
  match rs with
  | [] => mkResolution (if 0 <? best then Z.quot (wrap_i64 (amount * (100 - best))) 100 else amount)
            code ent payer
  | r :: rs' =>
      if decide (er_kind r = "free" \/ er_kind r = "pass") then mkResolution 0 (er_code r) (er_ent r) (er_payer r)
      else if decide (er_kind r = "discount") then
        if best <? er_pct r then resolve_loop rs' amount (er_pct r) (er_code r) (er_ent r) (er_payer r)
        else resolve_loop rs' amount best code ent payer
      else resolve_loop rs' amount best code ent payer
  end.

Definition resolveEntitlement (rs : list ent_row) (amount : Z) : resolution :=
  resolve_loop rs amount 0 "" "" None.

(** ** Statements on fare_payments and rider_accounts *)

Definition effectiveCharged (p : Payment) : Z := default (p_amount p) (p_charged p).

(** What one settled payment counts for in a rider's day from [start]. *)
Definition day_share (rider : string) (start : Z) (_ : string) (p : Payment) : Z :=
  if bool_decide (p_rider p = rider) && bool_decide (p_status p = "settled") && (start <=? p_created p)
  then effectiveCharged p else 0.

(** [COALESCE(sum(COALESCE(charged_minor, amount_minor)),0)] over the rider's
    settled payments of the day. *)
Definition spent_since (rider : string) (start : Z) (d : DB) : Z :=
  msum (day_share rider start) (fare_payments d).

Definition spent_query (rider : string) (start : Z) (d : DB) : result Z :=
  let s := spent_since rider start d in
  if in_int8 s then Ok s else Err (PgError numeric_value_out_of_range).

Definition key_taken (key : option string) (d : DB) : bool :=
  match key with
  | None => false
  | Some k => match find_row (fun p => bool_decide (p_key p = Some k)) (fare_payments d) with
              | Some _ => true
              | None => false
              end
  end.

Definition insert_payment (p : Payment) : stmt unit := fun d =>
  match fare_payments d !! p_id p with
  | Some _ => Err (PgError unique_violation)
  | None => if key_taken (p_key p) d then Err (PgError unique_violation) else Ok (tt, put_payment p)
  end.

Definition payment_by_id (id : string) (d : DB) : result Payment :=
  match fare_payments d !! id with Some p => Ok p | None => Err ErrNoRows end.

Definition payment_by_key (key : string) (d : DB) : result Payment :=
  match find_row (fun p => bool_decide (p_key p = Some key)) (fare_payments d) with
  | Some p => Ok p
  | None => Err ErrNoRows
  end.

(** [UPDATE fare_payments SET status, tb_transfer_id, mojaloop_transfer_id WHERE id RETURNING]. *)
Definition finalize_payment (id st : string) (tb ml : option string) : stmt Payment := fun d =>
  match fare_payments d !! id with
  | None => Err ErrNoRows
  | Some p =>
      let p' := mkPayment (p_id p) (p_rider p) (p_amount p) (p_charged p) (p_currency p) ml tb (p_key p)
                  st (p_refunded p) (p_refunded_at p) (p_created p) in
      Ok (p', put_payment p')
  end.

(** [INSERT INTO billing_charges ...] with its checks. *)
Definition insert_billing_charge (c : BillingCharge) : stmt unit := fun d =>
  if bc_amount c <=? 0 then Err (PgError check_violation)
  else match find_row (fun x => bool_decide (bc_payment x = bc_payment c)) (billing_charges d) with
       | Some _ => Err (PgError unique_violation)
       | None =>
           match billing_charges d !! bc_id c, billing_accounts d !! bc_account c,
                 rider_entitlements d !! bc_entitlement c with
           | None, Some _, Some _ => Ok (tt, put_billing_charge c)
           | Some _, _, _ => Err (PgError unique_violation)
           | _, _, _ => Err (PgError foreign_key_violation)
           end
       end.

(** [SELECT MAX(account_id) FROM rider_accounts]. *)
Definition max_account (m : gmap string Z) : option Z :=
  map_fold (fun _ v acc => Some (match acc with Some a => Z.max v a | None => v end)) None m.

(** [INSERT INTO rider_accounts SELECT $1, COALESCE(MAX(account_id), 1000) + 1
    ... ON CONFLICT (rider_sub) DO NOTHING]. *)
Definition allocate_account (sub : string) : stmt unit := fun d =>
  match rider_accounts d !! sub with
  | Some _ => Ok (tt, fun d => d)
  | None =>
      let n := default 1000 (max_account (rider_accounts d)) + 1 in
      match find_row (fun a => a =? n) (rider_accounts d) with
      | Some _ => Err (PgError unique_violation)
      | None => Ok (tt, put_rider_account sub n)
      end
  end.

Definition account_of (sub : string) (d : DB) : result Z :=
  match rider_accounts d !! sub with Some a => Ok a | None => Err ErrNoRows end.

(** ** Handlers *)

Section Handlers.
Context {L : Type} `{Ledger L} `{Runtime}.

(** [riderAccount]: up to three attempts, retried on a unique violation only. *)
Fixpoint riderAccount_loop (attempts : nat) (lastErr : error) (sub : string) : M DB L (result Z) :=
  match attempts with
  | O => gret (Err lastErr)
  | S n =>
      try! tx := begin catch e => gret (Err e) in
      let! r := tx_exec tx (allocate_account sub) in
      match r with
      | Err (PgError code) =>
          if decide (code = unique_violation) then riderAccount_loop n (PgError code) sub
          else gret (Err (PgError code))
      | Err e => gret (Err e)
      | Ok (_, tx) =>
          try! account := tx_query tx (account_of sub) catch e => gret (Err e) in
          try! _ := commit tx catch e => gret (Err e) in
          gret (Ok account)
      end
  end.

Definition riderAccount (sub : string) : M DB L (result Z) :=
  riderAccount_loop 3 (ErrMsg "allocate rider account") sub.

Record createPaymentRequest : Type := mkCreatePayment {
  cp_amount : Z; cp_currency : string; cp_rider : string; cp_mojaloop : bool
}.

(** The checks before the transaction: the accepted rider, amount and
    currency, or the refusal. *)
Definition validate_payment (ctx : claims) (idemKey : string) (req : option createPaymentRequest)
    : response + (string * Z * string * bool) :=
  if decide (idemKey = "") then inl (json_error 400 "Idempotency-Key header is required")
  else match req with
  | None => inl (json_error 400 "invalid JSON body")
  | Some r =>
      if cp_amount r <=? 0 then inl (json_error 400 "amount_minor must be positive")
      else
        let currency := if decide (cp_currency r = "") then "EUR" else cp_currency r in
        let subject := Subject ctx in
        if decide (subject = "") then inl (json_error 401 "authenticated subject required")
        else if negb (bool_decide (cp_rider r = "")) && negb (bool_decide (cp_rider r = subject))
        then inl (json_error 403 "rider_sub does not match the authenticated subject")
        else if negb (bool_decide (currency = platformCurrency getenv))
        then inl (json_error 422 ("unsupported currency " +:+ quoted currency
                    +:+ " (platform settles in " +:+ platformCurrency getenv +:+ ")"))
        else inr (subject, cp_amount r, currency, cp_mojaloop r)
  end.

(** Entitlement resolution, then the cap: the charge, the resolution and
    today's spend (0 when the cap does not apply). *)
Definition price_payment (tx : Tx DB) (rider : string) (amount : Z)
    : M DB L (result (Z * resolution * Z)) :=
  let! now := gets w_now in
  try! rv := tx_query tx (fun d => Ok (resolveEntitlement (active_entitlements rider now d) amount))
    catch e => gret (Err e) in
  let charge := rv_charge rv in
  let cap := dailyCapMinor getenv in
  if (0 <? cap) && (0 <? charge) then
    try! spent := tx_query tx (spent_query rider (day_start (fareCapTimezone getenv) now))
      catch e => gret (Err e) in
    let remaining := wrap_i64 (cap - spent) in
    gret (Ok (if remaining <? charge then Z.max remaining 0 else charge, rv, spent))
  else gret (Ok (charge, rv, 0)).

(** The corporate accrual of a payer-backed entitlement, in the same transaction. *)
Definition accrue_billing (tx : Tx DB) (paymentID : string) (amount charge : Z) (rv : resolution)
    : M DB L (result (Tx DB)) :=
  match rv_payer rv with
  | Some payer =>
      let covered := wrap_i64 (amount - charge) in
      if 0 <? covered then
        let! now := gets w_now in
        let! id := new_uuid in
        try! (_, tx) := tx_exec tx (insert_billing_charge
            (mkBillingCharge id payer paymentID (rv_ent rv) covered None now)) catch e => gret (Err e) in
        gret (Ok tx)
      else gret (Ok tx)
  | None => gret (Ok tx)
  end.

(** The fields of the domain event before settlement. *)
Definition payment_event (paymentID rider : string) (amount charge : Z) (currency : string)
    (rv : resolution) (spent : Z) : list (string * json) :=
  [("payment_id", JStr paymentID); ("rider_sub", JStr rider); ("amount_minor", JInt amount);
   ("charged_minor", JInt charge); ("currency", JStr currency)]
  ++ (if decide (rv_code rv = "") then []
      else [("entitlement", JObj [("product_code", JStr (rv_code rv))])])
  ++ match rv_payer rv with
     | Some payer => if 0 <? wrap_i64 (amount - charge)
                     then [("payer_account", JObj [("billing_account_id", JStr payer);
                             ("covered_minor", JInt (wrap_i64 (amount - charge)))])]
                     else []
     | None => []
     end
  ++ (if (charge <? amount) && bool_decide (rv_code rv = "")
      then [("fare_cap", JObj [("applied", JBool true); ("spent_today_minor", JInt spent)])] else []).

(** How the ledger leg ended. *)
Record settlement : Type := mkSettlement {
  st_status : string; st_tb : option string; st_insufficient : bool
}.

(** The ledger leg: rider wallet to operator revenue, under the transfer id
    of the idempotency key; a zero charge posts nothing. *)
Definition settle_ledger (rider idemKey : string) (charge : Z) : M DB L (result settlement) :=
  if 0 <? charge then
    try! account := riderAccount rider catch e => gret (Err e) in
    let! r := led_call (fun l => led_Transfer l (DeterministicTransferID idemKey) account
                OperatorRevenueAccount (wrap_u64 charge) CodeFare) in
    match r with
    | Ok transferID => gret (Ok (mkSettlement "settled" (Some transferID) false))
    | Err ErrInsufficientFunds => gret (Ok (mkSettlement "failed" None true))
    | Err _ => gret (Ok (mkSettlement "failed" None false))
    end
  else gret (Ok (mkSettlement "settled" None false)).

(** The request deadline the router's timeout middleware sets. *)
Definition request_timeout : Z := 30000.

Definition mojaloop_config (endpoint : string) : Config :=
  mkConfig endpoint (envOr "MOJALOOP_DFSP_ID" "h2fleet")
    (envOr "MOJALOOP_PAYEE_PARTY_ID" "h2fleet-operator")
    (envOr "MOJALOOP_PAYEE_PARTY_TYPE" PartyTypeBusiness)
    (getenv "MOJALOOP_ILP_SECRET")
    (bool_decide (envOr "MOJALOOP_GENERATE_ILP" "true" = "true"))
    8000 20000.

Definition mojaloopTransfer (endpoint idemKey rider currency : string) (amount : Z)
    : M DB L (mlresult string) :=
  if decide (endpoint = "") then
    if negb (bool_decide (envOr "H2_SIMULATED_MOJALOOP" "" = "true")) then
      gret (MErr (Classified (mkMlError "transfer" KindUnavailable 0
        "MOJALOOP_ENDPOINT is not configured (set H2_SIMULATED_MOJALOOP=true to opt into the simulated dev transfer)")))
    else
      let! id := new_uuid in
      gret (MOk ("ml-simulated-" +:+ id))
  else
    match NewClient (mojaloop_config endpoint) with
    | MErr f => gret (MErr f)
    | MOk cfg =>
        let! now := gets w_now in
        let! r := Transfer cfg (Some (now + request_timeout))
                    (mkPaymentRequest idemKey rider PartyTypeAlias amount currency) in
        match r with
        | MErr f => gret (MErr f)
        | MOk res => gret (MOk (rs_transfer res))
        end
    end.

(** The optional Mojaloop leg: only for a settled payment, moving the charge. *)
Definition mojaloop_leg (endpoint idemKey rider currency : string) (charge : Z) (wanted : bool)
    (st : string) : M DB L (string * option string * option failure) :=
  if wanted && bool_decide (st = "settled") then
    let! r := mojaloopTransfer endpoint idemKey rider currency charge in
    match r with
    | MOk id => gret (st, Some id, None)
    | MErr f => gret (PaymentStatus (Some f), None, Some f)
    end
  else gret (st, None, None).

(** After the commit of a payment that did not settle: the failure event and
    402 for an unfunded wallet, 502 otherwise. *)
Definition conclude_failed (p : Payment) (event : list (string * json)) (mlErr : option failure)
    (insufficient : bool) : M DB L response :=
  let! now := gets w_now in
  let reason := match mlErr with
                | Some f => "mojaloop transfer failed: " +:+ ErrorString f
                | None => "ledger transfer failed"
                end in
  let event := jset "failed_at" (JTime now) (jset "reason" (JStr reason) event) in
  do! publish "fare.payment.failed" event in
  if insufficient
  then reply 402 (JObj [("error", JStr "insufficient_funds");
         ("message", JStr "rider wallet has insufficient funds; top up via POST /v1/wallets/topup");
         ("payment", payment_json p)])
  else reply 502 (JObj [("error", JStr reason); ("payment", payment_json p)]).

(** After the commit of a settled payment: the event, the loyalty points
    (whose failure is only logged) and 201. *)
Definition conclude_settled (p : Payment) (paymentID rider : string) (charge : Z)
    (event : list (string * json)) (tb ml : option string) : M DB L response :=
  let! now := gets w_now in
  let event := jset "tb_transfer_id" (jopt_str tb) event in
  let event := match ml with Some id => jset "mojaloop_transfer_id" (JStr id) event | None => event end in
  let event := jset "settled_at" (JTime now) event in
  do! publish "fare.payment.settled" event in
  do! accrueLoyaltyPoints paymentID rider charge in
  reply 201 (payment_json p).

Definition conclude_payment (p : Payment) (paymentID rider : string) (charge : Z)
    (event : list (string * json)) (st : string) (tb ml : option string) (mlErr : option failure)
    (insufficient : bool) : M DB L response :=
  do! publish "fare.payment.initiated" event in
  if negb (bool_decide (st = "settled")) then conclude_failed p event mlErr insufficient
  else conclude_settled p paymentID rider charge event tb ml.

(** The recorded payment of a replayed key, hidden from everyone but its
    owner and staff. *)
Definition replay_payment (ctx : claims) (idemKey : string) : M DB L response :=
  try! existing := db_query (payment_by_key idemKey) catch e => internal "load idempotent payment" e in
  if negb (bool_decide (p_rider existing = Subject ctx)) && negb (staff ctx)
  then reply_error 404 "payment not found"
  else reply 200 (payment_json existing).

(** From the inserted row on: accrual, ledger, Mojaloop, final status, commit. *)
Definition settle_payment (endpoint : string) (tx : Tx DB) (paymentID rider idemKey : string)
    (amount charge : Z) (currency : string) (mojaloop : bool) (rv : resolution) (spent : Z)
    : M DB L response :=
  let event := payment_event paymentID rider amount charge currency rv spent in
  try! tx := accrue_billing tx paymentID amount charge rv
    catch e => internal "accrue corporate billing charge" e in
  try! st := settle_ledger rider idemKey charge catch e => internal "ensure rider ledger account" e in
  let! '(status, ml, mlErr) :=
    mojaloop_leg endpoint idemKey rider currency charge mojaloop (st_status st) in
  try! (p, tx) := tx_exec tx (finalize_payment paymentID status (st_tb st) ml)
    catch e => internal "finalize payment" e in
  try! _ := commit tx catch e => internal "commit payment" e in
  conclude_payment p paymentID rider charge event status (st_tb st) ml mlErr (st_insufficient st).

Definition CreatePayment (endpoint : string) (ctx : claims) (idemKey : string)
    (req : option createPaymentRequest) : M DB L response :=
  match validate_payment ctx idemKey req with
  | inl refusal => gret refusal
  | inr (rider, amount, currency, mojaloop) =>
      try! tx := begin catch e => internal "begin payment transaction" e in
      (* SELECT pg_advisory_xact_lock(hashtext($1)) *)
      try! _ := tx_query tx (fun _ => Ok tt) catch e => internal "lock rider payment stream" e in
      try! (charge, rv, spent) := price_payment tx rider amount
        catch e => internal "price payment" e in
      let! now := gets w_now in
      let! paymentID := new_uuid in
      let! ins := tx_exec tx (insert_payment
                    (mkPayment paymentID rider amount (Some charge) currency None None (Some idemKey)
                       "initiated" 0 None now)) in
      match ins with
      | Err (PgError code) =>
          if decide (code = unique_violation) then replay_payment ctx idemKey
          else internal "insert payment" (PgError code)
      | Err e => internal "insert payment" e
      | Ok (_, tx) =>
          settle_payment endpoint tx paymentID rider idemKey amount charge currency mojaloop rv spent
      end
  end.

Definition GetPayment (ctx : claims) (id : string) : M DB L response :=
  let! r := db_query (payment_by_id id) in
  match r with
  | Err ErrNoRows => reply_error 404 "payment not found"
  | Err e => internal "get payment" e
  | Ok p =>
      if negb (bool_decide (p_rider p = Subject ctx)) && negb (staff ctx)
      then reply_error 404 "payment not found"
      else reply 200 (payment_json p)
  end.

(** The rows [ListPayments] selects for the (already scoped) rider filter. *)
Definition list_payments (rider st : string) (d : DB) : list Payment :=
  take 200 (order_desc p_created
    (filter (fun p => (rider = "" \/ p_rider p = rider) /\ (st = "" \/ p_status p = st))
       (rows (fare_payments d)))).

Definition ListPayments (ctx : claims) (rider_sub st : string) : M DB L response :=
  let rider := if staff ctx then rider_sub else Subject ctx in
  try! ps := db_query (fun d => Ok (list_payments rider st d)) catch e => internal "list payments" e in
  reply 200 (JObj [("payments", JList (map payment_json ps))]).
End Handlers.
