(* ===== verification/LoyaltyTheorems.v ===== *)
(** * Theorems on loyalty points

    Accrual, clawback and redemption (loyalty.go) for every fault schedule: a
    batch of points is posted at most once, an offer is paid for at most once
    per key, balances never go negative, and the balance always covers the
    audit ledger. *)

From S2P Require Import Prelude World Auth CommerceDb Loyalty.

Open Scope go_scope.

(** ** Balances and the audit ledger *)

Definition points (rider : string) (d : DB) : Z :=
  match loyalty_accounts d !! rider with Some b => lb_points b | None => 0 end.

Definition ref_posted (ref : string) (d : DB) : bool :=
  match find_row (fun e => bool_decide (le_ref e = ref)) (loyalty_ledger d) with Some _ => true | None => false end.

Definition key_redeemed (key : string) (d : DB) : bool :=
  match find_row (fun r => bool_decide (rd_key r = key)) (loyalty_redemptions d) with Some _ => true | None => false end.

Definition audit_share (rider : string) (_ : string) (e : LoyaltyEntry) : Z :=
  if bool_decide (le_rider e = rider) then le_delta e else 0.

(** The sum of a rider's audit entries. *)
Definition audited (rider : string) (d : DB) : Z := msum (audit_share rider) (loyalty_ledger d).

Lemma points_put x d rider :
  points rider (put_loyalty_account x d) = if decide (lb_rider x = rider) then lb_points x else points rider d.
Proof. unfold points. simpl. rewrite lookup_insert. by case_decide. Qed.

Lemma points_entry e d rider : points rider (put_loyalty_entry e d) = points rider d.
Proof. done. Qed.

Lemma find_row_put {V} (p : V -> bool) (m : gmap string V) k v :
  m !! k = None ->
  (match find_row p (<[k := v]> m) with Some _ => true | None => false end)
  = p v || match find_row p m with Some _ => true | None => false end.
Proof.
  intros Hk. destruct (find_row p (<[k := v]> m)) as [x|] eqn:E.
  - apply find_row_Some in E as [Hp (k' & Hk')]. rewrite lookup_insert in Hk'. case_decide; simplify_eq.
    + by rewrite Hp.
    + destruct (find_row p m) eqn:E2; [by destruct (p v)|].
      rewrite find_row_None in E2. by rewrite (E2 _ _ Hk') in Hp.
  - rewrite find_row_None in E. rewrite (E k v) by apply lookup_insert_eq. simpl.
    destruct (find_row p m) as [y|] eqn:E2; [|done].
    apply find_row_Some in E2 as [Hp (k' & Hk')]. rewrite (E k' y) in Hp; [done|].
    rewrite lookup_insert_ne; [done|]. congruence.
Qed.

(** ** Posting a batch of points *)

Section Posting.
Context {L : Type} `{Runtime}.
Implicit Types w : World DB L.

(** Nothing happened, or the entry and the balance change of a new reference landed together. *)
Definition batch_posted (rider reason ref : string) (sgn : Z) (app : Z -> stmt unit) w w' : Prop :=
  w_db w' = w_db w \/
  exists id g, let e := mkLoyaltyEntry id rider sgn reason ref (w_now w) in
    ref_posted ref (w_db w) = false /\ loyalty_ledger (w_db w) !! id = None /\
    app (w_now w) (put_loyalty_entry e (w_db w)) = Ok (tt, g) /\
    w_db w' = g (put_loyalty_entry e (w_db w)).

Lemma insert_loyalty_entry_ok e d n g :
  insert_loyalty_entry e d = Ok (n, g) ->
  n = 0 /\ g = (fun d => d) /\ ref_posted (le_ref e) d = true \/
  n = 1 /\ g = put_loyalty_entry e /\ ref_posted (le_ref e) d = false /\ loyalty_ledger d !! le_id e = None.
Proof.
  unfold insert_loyalty_entry, ref_posted. destruct (negb _); [done|].
  destruct (find_row _ _); [intros; simplify_eq; by left|].
  destruct (loyalty_ledger d !! le_id e) eqn:E; [done|]. intros; simplify_eq. by right.
Qed.

Lemma post_points_effect rider reason ref sgn app w :
  wp (post_points rider reason ref sgn app)
    (fun _ w' => batch_posted rider reason ref sgn app w w' /\ w_now w' = w_now w) w.
Proof.
  unfold post_points. apply wp_bind, wp_gets, wp_bind, wp_begin; intros s1; [|apply wp_ret; by split; [left|]].
  apply wp_bind, wp_new_uuid, wp_bind, wp_tx_exec; intros s2.
  - intros n g Hg. simpl in Hg.
    apply insert_loyalty_entry_ok in Hg as [(-> & -> & _)|(-> & -> & Hr & Hn)]; simpl in *.
    + apply wp_commit; intros s3; by split; [left|].
    + apply wp_bind, wp_tx_exec; intros s3.
      * intros [] g2 Hg2. simpl in Hg2.
        apply wp_commit; intros s4; (split; [|done]); [right|right|by left]; eexists _, g2; by split_and!.
      * intros e _. apply wp_ret. by split; [left|].
      * apply wp_ret. by split; [left|].
  - intros e _. apply wp_ret. by split; [left|].
  - apply wp_ret. by split; [left|].
Qed.

Lemma add_points_effect rider p now d g :
  add_points rider p now d = Ok (tt, g) ->
  g = put_loyalty_account (mkLoyaltyBalance rider (points rider d + p) now) /\
  0 <= points rider d + p /\ in_int4 (points rider d + p) = true.
Proof.
  unfold add_points, points. destruct (loyalty_accounts d !! rider) as [b|]; cbv zeta.
  - destruct (negb _) eqn:E; [done|]. destruct (Z.ltb_spec (lb_points b + p) 0); [done|].
    intros; simplify_eq. zbool. by split_and!.
  - destruct (negb _) eqn:E; [done|]. destruct (Z.ltb_spec p 0); [done|].
    intros; simplify_eq. zbool. by split_and!.
Qed.

(** One attempt to accrue the points of a payment. *)
Definition accrue_attempt (id rider : string) (amount : Z) w (t : Z * list outcome) : World DB L :=
  (accrueLoyaltyPoints id rider amount (with_now t.1 (with_sched t.2 w))).2.

Lemma accrue_attempt_step id rider amount w t :
  let w' := accrue_attempt id rider amount w t in
  w_db w' = w_db w \/
  ref_posted id (w_db w) = false /\ ref_posted id (w_db w') = true /\
  points rider (w_db w') = points rider (w_db w) + Z.quot amount 100 /\
  forall r, r <> rider -> points r (w_db w') = points r (w_db w).
Proof.
  unfold accrue_attempt, accrueLoyaltyPoints. cbv zeta. destruct (_ || _); [by left|].
  destruct (post_points_effect rider "fare_accrual" id (Z.quot amount 100) (add_points rider (Z.quot amount 100))
    (with_now t.1 (with_sched t.2 w))) as [[E|(eid & g & Hr & Hn & Hg & E)] _]; [by left|right].
  apply add_points_effect in Hg as (-> & _ & _). rewrite E. cbn [w_db with_now with_sched] in *.
  split_and!; [done| | |].
  - unfold ref_posted. cbn [put_loyalty_account put_loyalty_entry loyalty_ledger].
    rewrite find_row_put by done. simpl. by rewrite bool_decide_eq_true_2.
  - rewrite points_put. by rewrite decide_True.
  - intros r Hr'. rewrite points_put, decide_False by done. done.
Qed.

(** A settled fare earns its points at most once: over any number of accrual
    attempts for one payment, at any times and with any faults, the rider's
    balance is unchanged or grows by exactly one point per 100 minor units, and
    no other balance moves. *)
Theorem points_accrue_once (id rider : string) (amount : Z) (w : World DB L) (l : list (Z * list outcome)) :
  let w' := foldl (accrue_attempt id rider amount) w l in
  (points rider (w_db w') = points rider (w_db w) \/
   ref_posted id (w_db w) = false /\
   points rider (w_db w') = points rider (w_db w) + Z.quot amount 100) /\
  forall r, r <> rider -> points r (w_db w') = points r (w_db w).
Proof.
  cut ((points rider (w_db (foldl (accrue_attempt id rider amount) w l)) = points rider (w_db w) /\
      ref_posted id (w_db (foldl (accrue_attempt id rider amount) w l)) = ref_posted id (w_db w) \/
    ref_posted id (w_db w) = false /\
    ref_posted id (w_db (foldl (accrue_attempt id rider amount) w l)) = true /\
    points rider (w_db (foldl (accrue_attempt id rider amount) w l)) = points rider (w_db w) + Z.quot amount 100) /\
   forall r, r <> rider ->
     points r (w_db (foldl (accrue_attempt id rider amount) w l)) = points r (w_db w)).
  { intros ([[? _]|(? & _ & ?)] & ?); (split; [|done]); [by left|by right]. }
  induction l as [|t l IH] using rev_ind; [split; [by left|done]|].
  rewrite foldl_app. cbn [foldl]. set (w1 := foldl _ w l) in *.
  destruct (accrue_attempt_step id rider amount w1 t) as [E|(Hn & Hp & Hpt & Ho)]; [by rewrite E|].
  destruct IH as [[[Hpt1 Hp1]|(_ & Hp1 & _)] Ho1]; [|congruence]. split.
  - right. split_and!; [congruence|done|lia].
  - intros r Hr. by rewrite Ho, Ho1.
Qed.
End Posting.

(** ** Redemption *)

Section Redeeming.
Context {L : Type} `{Runtime}.
Implicit Types w : World DB L.

(** What a committed redemption did. *)
Definition redeemed (sub offer key : string) w w' : Prop :=
  exists cost id eid, let d := w_db w in
    key_redeemed key d = false /\ active_offer_cost offer d = Ok cost /\ cost <= points sub d /\
    loyalty_redemptions d !! id = None /\
    let red := mkRedemption id sub offer cost key "completed" (w_now w) in
    let e := mkLoyaltyEntry eid sub (- cost) "offer_redeem" ("redeem:" +:+ key) (w_now w) in
    let spend := fun d => put_redemption red
      (put_loyalty_account (mkLoyaltyBalance sub (points sub d - cost) (w_now w)) d) in
    exists d0, (d0 = d \/ loyalty_accounts d !! sub = None /\ d0 = put_loyalty_account (mkLoyaltyBalance sub 0 (w_now w)) d) /\
    (ref_posted ("redeem:" +:+ key) d = true /\ w_db w' = spend d0 \/
     ref_posted ("redeem:" +:+ key) d = false /\ loyalty_ledger d !! eid = None /\
     w_db w' = put_loyalty_entry e (spend d0)).

Lemma redemption_by_key_none key d : redemption_by_key key d = Err ErrNoRows -> key_redeemed key d = false.
Proof. unfold redemption_by_key, key_redeemed. by destruct (find_row _ _). Qed.

Lemma deduct_points_effect sub cost now d p g :
  deduct_points sub cost now d = Ok (p, g) ->
  cost <= points sub d /\ g = put_loyalty_account (mkLoyaltyBalance sub (points sub d - cost) now).
Proof.
  unfold deduct_points, points. destruct (loyalty_accounts d !! sub) as [b|]; [|done].
  destruct (Z.leb_spec cost (lb_points b)); [|done]. intros; by simplify_eq.
Qed.

Lemma redeem_spec sub offer key w :
  wp (redeem_tx sub offer key)
    (fun _ w' => w_led w' = w_led w /\ w_bus w' = w_bus w /\ w_now w' = w_now w /\
       (w_db w' = w_db w \/ redeemed sub offer key w w')) w.
Proof.
  assert (forall (r : response) s n, wp (gret r) (fun _ w' => w_led w' = w_led w /\ w_bus w' = w_bus w /\
    w_now w' = w_now w /\ (w_db w' = w_db w \/ redeemed sub offer key w w')) (with_sched s (with_uuids n w))) as Hno.
  { intros. apply wp_ret. split_and!; [done..|by left]. }
  assert (forall (r : response) s, wp (gret r) (fun _ w' => w_led w' = w_led w /\ w_bus w' = w_bus w /\
    w_now w' = w_now w /\ (w_db w' = w_db w \/ redeemed sub offer key w w')) (with_sched s w)) as Hno0.
  { intros. apply wp_ret. split_and!; [done..|by left]. }
  unfold redeem_tx. apply wp_bind, wp_gets, wp_bind, wp_begin; intros s1; [|apply Hno0].
  apply wp_bind, wp_tx_query; intros s2; [|apply (Hno0 _ s2)]. cbn [w_db with_sched].
  destruct (redemption_by_key key (w_db w)) as [ex|e] eqn:Ek.
  { apply wp_bind, wp_commit; intros s3; destruct (_ || _); apply (Hno0 _ s3). }
  destruct e; try apply (Hno0 _ s2).
  apply wp_bind, wp_tx_query; intros s3; [|apply (Hno0 _ s3)]. cbn [w_db with_sched].
  destruct (active_offer_cost offer (w_db w)) as [cost|e] eqn:Ec; [|destruct e; apply (Hno0 _ s3)].
  apply wp_bind, wp_tx_exec; intros s4; try (intros; apply (Hno0 _ s4)).
  intros b g Hg. cbn [w_db with_sched w_now] in Hg |- *.
  assert (g (w_db w) = w_db w \/ loyalty_accounts (w_db w) !! sub = None /\
    g (w_db w) = put_loyalty_account (mkLoyaltyBalance sub 0 (w_now w)) (w_db w)) as Hens.
  { unfold ensure_loyalty_account in Hg. destruct (loyalty_accounts (w_db w) !! sub); simplify_eq; auto. }
  assert (points sub (g (w_db w)) = points sub (w_db w)) as Hpts.
  { destruct Hens as [->|[Hn ->]]; [done|]. rewrite points_put. simpl. rewrite decide_True by done.
    unfold points. by rewrite Hn. }
  apply wp_bind, wp_tx_exec; intros s5; [|intros e _; destruct e; apply (Hno0 _ s5)|apply (Hno0 _ s5)].
  intros p g2 Hg2. cbn [w_db with_sched w_now] in Hg2.
  apply deduct_points_effect in Hg2 as [Hle ->]. rewrite Hpts in Hle |- *.
  apply wp_bind, wp_new_uuid. cbv zeta. apply wp_bind, wp_tx_exec; intros s6.
  2: { intros e _. destruct e as [|code|?| |?]; try apply (Hno _ s6 (w_uuids w + 1)%nat).
       case_decide; [|apply (Hno _ s6 (w_uuids w + 1)%nat)]. unfold replayRedemption.
       apply wp_bind, wp_db_query; intros s7; cbn [w_db with_sched with_uuids];
         [|apply (Hno _ s7 (w_uuids w + 1)%nat)].
       destruct (redemption_by_key _ _); apply (Hno _ s7 (w_uuids w + 1)%nat). }
  2: apply (Hno _ s6 (w_uuids w + 1)%nat).
  intros [] g3 Hg3. unfold insert_redemption in Hg3.
  cbn [w_db with_sched with_uuids put_loyalty_account loyalty_redemptions rd_id] in Hg3.
  assert (loyalty_redemptions (g (w_db w)) = loyalty_redemptions (w_db w)) as Hrd by by destruct Hens as [->|[_ ->]].
  rewrite Hrd in Hg3. destruct (loyalty_redemptions (w_db w) !! _) eqn:Eid; [done|].
  destruct (find_row _ _); [done|]. simplify_eq.
  apply wp_bind, wp_new_uuid, wp_bind, wp_tx_exec; intros s7; try (intros; apply (Hno _ s7 (w_uuids w + 1 + 1)%nat)).
  intros n g4 Hg4. cbn [w_db with_sched with_uuids w_now] in Hg4.
  assert (loyalty_ledger (g (w_db w)) = loyalty_ledger (w_db w)) as Hll by by destruct Hens as [->|[_ ->]].
  assert (forall s, redeemed sub offer key w (with_db (g4 (put_redemption
      (mkRedemption (uuid_of (w_uuids w)) sub offer cost key "completed" (w_now w))
      (put_loyalty_account (mkLoyaltyBalance sub (points sub (w_db w) - cost) (w_now w)) (g (w_db w)))))
      (with_sched s (with_uuids (w_uuids w + 1 + 1)%nat w)))) as Hred.
  { intros s. exists cost, (uuid_of (w_uuids w)), (uuid_of (w_uuids w + 1)). cbv zeta.
    split_and!; [by apply redemption_by_key_none|done|done|done|]. exists (g (w_db w)). split; [done|].
    rewrite Hpts. apply insert_loyalty_entry_ok in Hg4 as [(_ & -> & Hr)|(_ & -> & Hr & Hn)];
      cbn [le_ref le_id] in Hr; unfold ref_posted in Hr |- *;
      cbn [put_redemption put_loyalty_account loyalty_ledger] in *; rewrite Hll in *; [left|right]; by split_and!. }
  apply wp_bind, wp_commit; intros s8.
  - apply wp_ret. split_and!; [done..|right; apply Hred].
  - apply wp_ret. split_and!; [done..|right; apply Hred].
  - apply (Hno _ s8 (w_uuids w + 1 + 1)%nat).
Qed.

Lemma redeemed_points sub offer key w w' :
  redeemed sub offer key w w' ->
  exists cost, active_offer_cost offer (w_db w) = Ok cost /\ cost <= points sub (w_db w) /\
    key_redeemed key (w_db w) = false /\ key_redeemed key (w_db w') = true /\
    points sub (w_db w') = points sub (w_db w) - cost /\
    marketplace_offers (w_db w') = marketplace_offers (w_db w) /\
    forall r, r <> sub -> points r (w_db w') = points r (w_db w).
Proof.
  intros (cost & id & eid & Hk & Hc & Hle & Hid & d0 & Hd0 & Hcase). exists cost.
  assert (points sub d0 = points sub (w_db w) /\ loyalty_redemptions d0 = loyalty_redemptions (w_db w) /\
    marketplace_offers d0 = marketplace_offers (w_db w) /\
    forall r, r <> sub -> points r d0 = points r (w_db w)) as (P1 & P2 & P3 & P4).
  { destruct Hd0 as [->|[Hn ->]]; [done|]. split_and!; [|done|done|].
    - rewrite points_put. simpl. rewrite decide_True by done. unfold points. by rewrite Hn.
    - intros r Hr. rewrite points_put. simpl. by rewrite decide_False. }
  set (d1 := put_redemption _ _) in Hcase.
  assert (key_redeemed key d1 = true) as K.
  { unfold key_redeemed, d1. cbn. rewrite find_row_put by by rewrite P2. simpl. by rewrite bool_decide_eq_true_2. }
  assert (points sub d1 = points sub (w_db w) - cost) as K1.
  { unfold d1. change (points sub (put_redemption ?r ?d)) with (points sub d).
    rewrite points_put. simpl. rewrite decide_True by done. lia. }
  assert (forall r, r <> sub -> points r d1 = points r (w_db w)) as K2.
  { intros r Hr. unfold d1. change (points r (put_redemption ?x ?d)) with (points r d).
    rewrite points_put. simpl. rewrite decide_False by done. by apply P4. }
  destruct Hcase as [[_ ->]|(_ & _ & ->)]; by split_and!.
Qed.

(** A request to redeem, with the faults that hit it. *)
Definition redeem_attempt (sub offer key : string) w (t : Z * list outcome) : World DB L :=
  (redeem_tx sub offer key (with_now t.1 (with_sched t.2 w))).2.

(** An offer is paid for at most once per key: over any number of redemption
    attempts with one idempotency key, at any times and with any faults, the
    rider's balance is unchanged or drops by exactly the offer's cost, which it
    covered; no other balance moves. *)
Theorem redemption_spends_once (sub offer key : string) (w : World DB L) (l : list (Z * list outcome)) :
  let w' := foldl (redeem_attempt sub offer key) w l in
  (points sub (w_db w') = points sub (w_db w) \/
   exists cost, active_offer_cost offer (w_db w) = Ok cost /\ cost <= points sub (w_db w) /\
     key_redeemed key (w_db w) = false /\ key_redeemed key (w_db w') = true /\
     points sub (w_db w') = points sub (w_db w) - cost) /\
  forall r, r <> sub -> points r (w_db w') = points r (w_db w).
Proof.
  cut (let w' := foldl (redeem_attempt sub offer key) w l in
    (w_db w' = w_db w \/
     exists cost, active_offer_cost offer (w_db w) = Ok cost /\ cost <= points sub (w_db w) /\
       key_redeemed key (w_db w) = false /\ key_redeemed key (w_db w') = true /\
       points sub (w_db w') = points sub (w_db w) - cost) /\
    forall r, r <> sub -> points r (w_db w') = points r (w_db w)).
  { cbv zeta. intros [[E|E] Ho]; (split; [|done]); [left; by rewrite E|by right]. }
  cbv zeta. induction l as [|t l IH] using rev_ind; [split; [by left|done]|].
  rewrite foldl_app. cbn [foldl]. set (w1 := foldl _ w l) in *. unfold redeem_attempt at 1 2 3 4.
  destruct (redeem_spec sub offer key (with_now t.1 (with_sched t.2 w1))) as (_ & _ & _ & [E|Hred]).
  { cbn [w_db with_now with_sched] in E. unfold redeem_attempt. by rewrite E. }
  apply redeemed_points in Hred as (cost & Hc & Hle & Hk & Hk' & Hp & _ & Ho). cbn [w_db with_now with_sched] in *.
  unfold redeem_attempt. destruct IH as [[E|(c & _ & _ & _ & Hk1 & _)] Ho1]; [|congruence].
  rewrite E in *. split; [right; by exists cost|]. intros r Hr. by apply Ho.
Qed.
End Redeeming.

(** ** The audit invariant *)

Section Audit.
Context {L : Type} `{Runtime}.
Implicit Types w : World DB L.

(** Balances are nonnegative and cover the audit ledger (a clawback floors at
    zero, so they may exceed it), and a redemption entry has its redemption. *)
Definition loyalty_inv (d : DB) : Prop :=
  (forall r, 0 <= points r d) /\
  (forall r, audited r d <= points r d) /\
  (forall k e key, loyalty_ledger d !! k = Some e -> le_ref e = "redeem:" +:+ key -> key_redeemed key d = true).

(** The operations of the component. *)
Inductive loyalty_call : Type :=
| CallBalance (ctx : claims)
| CallAccrue (payment rider : string) (amount : Z)
| CallClawback (ref rider : string) (amount : Z)
| CallRedeem (ctx : claims) (req : option string) (header : string)
| CallCreateOffer (req : option createOfferRequest).

(** References of fares and refunds are not of the form a redemption uses. *)
Definition call_ok (c : loyalty_call) : Prop :=
  match c with
  | CallAccrue ref _ _ | CallClawback ref _ _ => forall key, ref <> "redeem:" +:+ key
  | _ => True
  end.

Definition run_call (c : loyalty_call) : M DB L unit :=
  match c with
  | CallBalance ctx => do! GetLoyaltyBalance ctx in gret tt
  | CallAccrue p r a => do! accrueLoyaltyPoints p r a in gret tt
  | CallClawback p r a => do! clawbackLoyaltyPoints p r a in gret tt
  | CallRedeem ctx req h => do! RedeemOffer ctx req h in gret tt
  | CallCreateOffer req => do! CreateOffer req in gret tt
  end.

Definition loyalty_step w (t : loyalty_call * Z * list outcome) : World DB L :=
  (run_call t.1.1 (with_now t.1.2 (with_sched t.2 w))).2.

Lemma audited_entry e d r :
  loyalty_ledger d !! le_id e = None -> audited r (put_loyalty_entry e d) = audit_share r (le_id e) e + audited r d.
Proof. intros Hn. unfold audited. simpl. by rewrite msum_insert_new. Qed.

(** A batch: the entry, then the balance set to what covers it. *)
Lemma loyalty_inv_batch id rider sgn reason ref now total d :
  loyalty_inv d -> loyalty_ledger d !! id = None -> (forall key, ref <> "redeem:" +:+ key) ->
  0 <= total -> points rider d + sgn <= total ->
  loyalty_inv (put_loyalty_account (mkLoyaltyBalance rider total now)
    (put_loyalty_entry (mkLoyaltyEntry id rider sgn reason ref now) d)).
Proof.
  intros (Hnn & Haud & Href) Hn Hne Ht Hle. split_and!.
  - intros r. rewrite points_put. simpl. case_decide; [done|apply Hnn].
  - intros r. rewrite points_put. simpl. change (audited r (put_loyalty_account ?x ?d)) with (audited r d).
    rewrite audited_entry by done. unfold audit_share. simpl. specialize (Haud r).
    destruct (bool_decide (rider = r)) eqn:E.
    + apply bool_decide_eq_true in E. subst. rewrite decide_True by done. lia.
    + apply bool_decide_eq_false in E. rewrite decide_False, points_entry by done. lia.
  - intros k e key Hk Hr. cbn in Hk. rewrite lookup_insert in Hk. case_decide; simplify_eq/=.
    + by destruct (Hne key).
    + by eapply Href.
Qed.

Lemma loyalty_inv_entry id rider sgn reason ref now d :
  loyalty_inv d -> loyalty_ledger d !! id = None -> (forall key, ref <> "redeem:" +:+ key) -> sgn <= 0 ->
  loyalty_inv (put_loyalty_entry (mkLoyaltyEntry id rider sgn reason ref now) d).
Proof.
  intros (Hnn & Haud & Href) Hn Hne Hle. split_and!; [done| |].
  - intros r. rewrite points_entry, audited_entry by done. unfold audit_share. simpl. specialize (Haud r).
    destruct (bool_decide _); lia.
  - intros k e key Hk Hr. cbn in Hk. rewrite lookup_insert in Hk. case_decide; simplify_eq/=.
    + by destruct (Hne key).
    + by eapply Href.
Qed.

Lemma loyalty_inv_accrue p r a w :
  (forall key, p <> "redeem:" +:+ key) -> loyalty_inv (w_db w) ->
  wp (accrueLoyaltyPoints p r a) (fun _ w' => loyalty_inv (w_db w')) w.
Proof.
  intros Hp Hinv. unfold accrueLoyaltyPoints. cbv zeta. destruct (_ || _); [by apply wp_ret|].
  eapply wp_mono; [|apply post_points_effect]. intros _ w' [[->|(id & g & _ & Hn & Hg & ->)] _]; [done|].
  apply add_points_effect in Hg as (-> & Hnn & _). rewrite points_entry in *. by apply loyalty_inv_batch.
Qed.

Lemma loyalty_inv_clawback p r a w :
  (forall key, p <> "redeem:" +:+ key) -> loyalty_inv (w_db w) ->
  wp (clawbackLoyaltyPoints p r a) (fun _ w' => loyalty_inv (w_db w')) w.
Proof.
  intros Hp Hinv. unfold clawbackLoyaltyPoints. cbv zeta. destruct (_ || _) eqn:E; [by apply wp_ret|].
  zbool. destruct E as [E _]. eapply wp_mono; [|apply post_points_effect].
  intros _ w' [[->|(id & g & _ & Hn & Hg & ->)] _]; [done|]. unfold subtract_points_floor in Hg. cbn in Hg.
  destruct (loyalty_accounts (w_db w) !! r) as [b|] eqn:Eb; simplify_eq.
  - apply loyalty_inv_batch; try done; [lia|]. unfold points. rewrite Eb. lia.
  - apply loyalty_inv_entry; try done. lia.
Qed.

Lemma loyalty_inv_ensure sub now d :
  loyalty_inv d -> loyalty_accounts d !! sub = None ->
  loyalty_inv (put_loyalty_account (mkLoyaltyBalance sub 0 now) d).
Proof.
  intros (Hnn & Haud & Href) Hn. split_and!; [| |done].
  - intros r. rewrite points_put. simpl. case_decide; [done|apply Hnn].
  - intros r. rewrite points_put. simpl. change (audited r (put_loyalty_account ?x ?d)) with (audited r d).
    specialize (Haud r). case_decide; [|done]. subst. unfold points in Haud. by rewrite Hn in Haud.
Qed.

Lemma key_redeemed_put red d key :
  loyalty_redemptions d !! rd_id red = None ->
  key_redeemed key (put_redemption red d) = bool_decide (rd_key red = key) || key_redeemed key d.
Proof. intros Hn. unfold key_redeemed. cbn. by rewrite find_row_put. Qed.

Lemma loyalty_inv_redeem sub offer key w :
  loyalty_inv (w_db w) -> wp (redeem_tx sub offer key) (fun _ w' => loyalty_inv (w_db w')) w.
Proof.
  intros Hinv. eapply wp_mono; [|apply redeem_spec]. intros _ w' (_ & _ & _ & [->|Hred]); [done|].
  destruct Hred as (cost & id & eid & Hk & Hc & Hle & Hid & d0 & Hd0 & Hcase).
  assert (loyalty_inv d0 /\ points sub d0 = points sub (w_db w) /\
    loyalty_redemptions d0 = loyalty_redemptions (w_db w) /\ loyalty_ledger d0 = loyalty_ledger (w_db w))
    as (Hinv0 & P1 & P2 & P3).
  { destruct Hd0 as [->|[Hn ->]]; [done|]. split_and!; [by apply loyalty_inv_ensure| |done|done].
    rewrite points_put. simpl. rewrite decide_True by done. unfold points. by rewrite Hn. }
  destruct Hcase as [[Hr _]|(Hr & Hn & ->)].
  { exfalso. unfold ref_posted in Hr. destruct (find_row _ _) as [e|] eqn:E; [|done].
    apply find_row_Some in E as [Hb%bool_decide_eq_true (k & Hk')]. destruct Hinv as (_ & _ & Href).
    rewrite (Href _ _ _ Hk' Hb) in Hk. done. }
  destruct Hinv0 as (Hnn & Haud & Href). set (red := mkRedemption _ _ _ _ _ _ _).
  set (e := mkLoyaltyEntry _ _ _ _ _ _). set (bal := mkLoyaltyBalance _ _ _).
  set (d1 := put_redemption red (put_loyalty_account bal d0)).
  assert (forall r, points r d1 = if decide (sub = r) then points sub d0 - cost else points r d0) as Hp.
  { intros r. unfold d1. change (points r (put_redemption ?x ?d)) with (points r d). apply points_put. }
  assert (forall k, key_redeemed k d1 = bool_decide (key = k) || key_redeemed k d0) as Hkr.
  { intros k. unfold d1. rewrite key_redeemed_put by (cbn; by rewrite P2). done. }
  split_and!.
  - intros r. rewrite points_entry, Hp. case_decide; [lia|apply Hnn].
  - intros r. rewrite points_entry, Hp, audited_entry by (cbn; by rewrite P3).
    change (audited r d1) with (audited r d0). unfold audit_share. simpl. specialize (Haud r).
    case_decide.
    + subst. rewrite bool_decide_eq_true_2 by done. lia.
    + rewrite bool_decide_eq_false_2 by done. lia.
  - intros k e' key' Hk' Hr'. change (key_redeemed key' (put_loyalty_entry e d1)) with (key_redeemed key' d1).
    rewrite Hkr. cbn in Hk'. rewrite lookup_insert in Hk'. case_decide; simplify_eq/=.
    + by rewrite bool_decide_eq_true_2.
    + rewrite (Href _ _ _ Hk' Hr'). by destruct (bool_decide _).
Qed.

Lemma loyalty_step_inv w t :
  call_ok t.1.1 -> loyalty_inv (w_db w) -> loyalty_inv (w_db (loyalty_step w t)).
Proof.
  intros Hc Hinv. unfold loyalty_step. set (w0 := with_now _ _).
  assert (loyalty_inv (w_db w0)) as Hinv0 by done. clearbody w0.
  change (wp (run_call t.1.1) (fun _ w' => loyalty_inv (w_db w')) w0).
  destruct t.1.1 as [ctx|p r a|p r a|ctx req h|req]; simpl in *; apply wp_bind.
  - eapply wp_mono; [intros ? w' Hw'; apply wp_ret, Hw'|]. unfold GetLoyaltyBalance.
    case_decide; [by apply wp_ret|]. apply wp_bind, wp_gets, wp_bind, wp_db_exec; intros s;
      try (intros; by apply wp_ret);
      intros b g Hg; unfold ensure_loyalty_account in Hg; destruct (loyalty_accounts (w_db w0) !! _) eqn:E;
      simplify_eq; apply wp_ret; [done|by apply loyalty_inv_ensure|done|by apply loyalty_inv_ensure].
  - eapply wp_mono; [intros ? w' Hw'; apply wp_ret, Hw'|]. by apply loyalty_inv_accrue.
  - eapply wp_mono; [intros ? w' Hw'; apply wp_ret, Hw'|]. by apply loyalty_inv_clawback.
  - eapply wp_mono; [intros ? w' Hw'; apply wp_ret, Hw'|]. unfold RedeemOffer.
    case_decide; [by apply wp_ret|]. destruct req as [offer|]; [|by apply wp_ret].
    destruct offer; [by apply wp_ret|]. by apply loyalty_inv_redeem.
  - eapply wp_mono; [intros ? w' Hw'; apply wp_ret, Hw'|]. unfold CreateOffer.
    destruct req as [r|]; [|by apply wp_ret]. destruct (_ || _); [by apply wp_ret|].
    apply wp_bind, wp_gets, wp_bind, wp_new_uuid, wp_bind, wp_db_exec; intros s; try (intros; by apply wp_ret);
      intros o g Hg; unfold insert_offer in Hg; repeat case_match; simplify_eq; by apply wp_ret.
Qed.

(** C24: the loyalty books always balance: over any sequence of balance reads,
    accruals, clawbacks, redemptions and new offers, in any order, at any
    times and with any faults, no rider's balance is negative or falls below
    the sum of the rider's audit entries, and every redemption entry has its
    redemption. *)
Theorem loyalty_books_balance (w : World DB L) (l : list (loyalty_call * Z * list outcome))
    (Hcalls : Forall (fun t => call_ok t.1.1) l) (Hinv : loyalty_inv (w_db w)) :
  loyalty_inv (w_db (foldl loyalty_step w l)).
Proof.
  revert w Hinv. induction Hcalls as [|t l Ht Hl IH]; intros w Hinv; [done|].
  simpl. apply IH. by apply loyalty_step_inv.
Qed.
End Audit.

(** ** Concrete runs *)

#[local] Existing Instance test_runtime.

Definition loyalty_world : World DB unit :=
  mkWorld (put_offer (mkOffer "o" "Coffee" "" "cafe" 5 true 0) empty_db) tt [] 0 0 [] [] [].

Definition loyalty_history : list (loyalty_call * Z * list outcome) :=
  [(CallAccrue "pay" "alice" 1250, 1, []);
   (CallRedeem (claims_of "alice" []) (Some "o") "k", 2, [Done; Done; Done; Done; Done; Done; Done; LostReply]);
   (CallRedeem (claims_of "alice" []) (Some "o") "k", 3, []);
   (CallClawback "refund:pay:1250" "alice" 1250, 4, [])].

Example loyalty_history_run :
  let w' := foldl loyalty_step loyalty_world loyalty_history in
  (points "alice" (w_db w'), audited "alice" (w_db w')) = (0, -5).
Proof. vm_compute. reflexivity. Qed.

Lemma loyalty_books_balance_witness : loyalty_inv (w_db (foldl loyalty_step loyalty_world loyalty_history)).
Proof.
  apply (loyalty_books_balance loyalty_world loyalty_history).
  - repeat constructor; intros key; discriminate.
  - split_and!.
    + intros r. vm_compute. discriminate.
    + intros r. vm_compute. discriminate.
    + intros k e key Hk. simpl in Hk. by rewrite lookup_empty in Hk.
Defined.
