(* ===== verification/PaymentProofs.v ===== *)
(** * Correctness of fare payments

    A specification of [CreatePayment] for every fault schedule, proved by
    symbolic execution of its phases ([create_payment_spec]), and what follows
    from it: the daily cap, the idempotent replay, at most one debit per
    idempotency key, events only for committed payments, corporate accruals
    that account for the whole fare, and the privacy of the read handlers. *)

From S2P Require Import Prelude Codec World Auth Ledger CommerceDb Mojaloop Loyalty Payments.

Open Scope go_scope.

(** ** Frames *)

(** Only the loyalty tables differ. *)
Definition loyalty_frame (d d' : DB) : Prop :=
  exists la ll lr, d' = mkDB (fare_payments d) (rider_accounts d) (fare_products d)
    (rider_entitlements d) la ll (marketplace_offers d) lr (billing_accounts d)
    (billing_charges d) (invoices d).

Lemma loyalty_frame_refl d : loyalty_frame d d.
Proof. destruct d. by eexists _, _, _. Qed.

Lemma loyalty_frame_trans d1 d2 d3 : loyalty_frame d1 d2 -> loyalty_frame d2 d3 -> loyalty_frame d1 d3.
Proof. intros (?&?&?&->) (?&?&?&->). by eexists _, _, _. Qed.

(** A rider account was allocated for [sub], or nothing changed. *)
Definition alloc_frame (sub : string) (d d' : DB) : Prop :=
  d' = d \/
  (rider_accounts d !! sub = None /\
   d' = put_rider_account sub (default 1000 (max_account (rider_accounts d)) + 1) d).

Lemma alloc_frame_lookup sub d d' other a :
  alloc_frame sub d d' -> rider_accounts d !! other = Some a -> rider_accounts d' !! other = Some a.
Proof.
  intros [->|[Hn ->]] Ho; [done|]. simpl. rewrite lookup_insert_ne; [done|]. congruence.
Qed.

Lemma max_account_ge (m : gmap string Z) k n : m !! k = Some n -> exists x, max_account m = Some x /\ n <= x.
Proof.
  unfold max_account. revert k n. induction m as [|k0 v0 m Hk0 IH] using map_ind; [done|]. intros k n.
  rewrite map_fold_insert_L;
    [|intros j1 j2 z1 z2 y _ _ _; destruct y; simpl; f_equal; lia|done].
  rewrite lookup_insert. case_decide; intros Hk.
  - simplify_eq. eexists. split; [done|]. destruct (map_fold _ _ _); lia.
  - destruct (IH k n Hk) as (x & -> & Hx). eexists. split; [done|]. lia.
Qed.

Section PhaseSpecs.
Context {L : Type} `{Runtime}.
Implicit Types w : World DB L.

(** Posting points touches only the loyalty tables and draws one UUID at most. *)
Lemma post_points_spec rider reason ref sgn (app : Z -> stmt unit) w :
  (forall now d a g, app now d = Ok (a, g) -> forall d', loyalty_frame d' (g d')) ->
  wp (post_points rider reason ref sgn app)
    (fun _ w' => exists d s n, w' = with_db d (with_sched s (with_uuids n w)) /\ loyalty_frame (w_db w) d) w.
Proof.
  intros Happ. unfold post_points.
  assert (forall s n, exists d s' n', with_sched s (with_uuids n w) = with_db d (with_sched s' (with_uuids n' w))
                      /\ loyalty_frame (w_db w) d) as Hkeep.
  { intros s n. exists (w_db w), s, n. split; [by destruct w|apply loyalty_frame_refl]. }
  assert (forall tx : Tx DB, (forall d, loyalty_frame d (tx d)) -> forall s n,
    wp (commit tx) (fun _ w' => exists d s n, w' = with_db d (with_sched s (with_uuids n w)) /\ loyalty_frame (w_db w) d)
      (with_sched s (with_uuids n w))) as Hcommit.
  { intros tx Htx s n. apply wp_commit; intros s'; [| |apply (Hkeep s' n)];
      (exists (tx (w_db w)), s', n; split; [done|apply Htx]). }
  apply wp_bind, wp_gets, wp_bind, wp_begin; intros s1; [|apply wp_ret, (Hkeep s1 (w_uuids w))].
  apply wp_bind, wp_new_uuid, wp_bind, wp_tx_exec.
  - intros s2 n g Hg. simpl in Hg. cbn [w_now with_sched].
    assert (forall d, loyalty_frame d (g d)) as Hgf.
    { unfold insert_loyalty_entry in Hg. repeat case_match; crush; intros d; try apply loyalty_frame_refl.
      by eexists _, _, _. }
    destruct (n =? 1); [|by apply (Hcommit _ Hgf s2 (w_uuids w + 1)%nat)].
    apply wp_bind, wp_tx_exec; intros s3.
    + intros [] g2 Hg2. apply (Hcommit (fun d => g2 (g d))). intros d.
      eapply loyalty_frame_trans; [apply Hgf|]. by eapply Happ.
    + intros e _. apply wp_ret, (Hkeep s3 (w_uuids w + 1)%nat).
    + apply wp_ret, (Hkeep s3 (w_uuids w + 1)%nat).
  - intros s2 e _. apply wp_ret, (Hkeep s2 (w_uuids w + 1)%nat).
  - intros s2. apply wp_ret, (Hkeep s2 (w_uuids w + 1)%nat).
Qed.

Lemma accrue_spec id rider amount w :
  wp (accrueLoyaltyPoints id rider amount)
    (fun _ w' => exists d s n, w' = with_db d (with_sched s (with_uuids n w)) /\ loyalty_frame (w_db w) d) w.
Proof.
  unfold accrueLoyaltyPoints. destruct (_ || _).
  - apply wp_ret. exists (w_db w), (w_sched w), (w_uuids w). split; [by destruct w|apply loyalty_frame_refl].
  - apply post_points_spec. intros now d a g Hg d'. unfold add_points in Hg.
    repeat case_match; crush; by eexists _, _, _.
Qed.

Lemma riderAccount_spec sub w :
  wp (riderAccount sub)
    (fun r w' => exists d s, w' = with_db d (with_sched s w) /\ alloc_frame sub (w_db w) d /\
       (forall a, r = Ok a -> rider_accounts d !! sub = Some a)) w.
Proof.
  unfold riderAccount. generalize 3%nat as n, (ErrMsg "allocate rider account") as e.
  assert (forall s (r : result Z), (forall a, r <> Ok a) ->
    exists d s', with_sched s w = with_db d (with_sched s' w) /\ alloc_frame sub (w_db w) d /\
      (forall a, r = Ok a -> rider_accounts d !! sub = Some a)) as Hkeep.
  { intros s r Hr. exists (w_db w), s. split_and!; [by destruct w|by left|].
    intros a Ha. by destruct (Hr a). }
  assert (forall n e s, wp (riderAccount_loop n e sub)
    (fun r w' => exists d s, w' = with_db d (with_sched s w) /\ alloc_frame sub (w_db w) d /\
       (forall a, r = Ok a -> rider_accounts d !! sub = Some a)) (with_sched s w)) as Hloop.
  { induction n as [|n IH]; intros e s; [by apply wp_ret, Hkeep|]. cbn [riderAccount_loop].
    apply wp_bind, wp_begin; intros s1; [|by apply wp_ret, (Hkeep s1)].
    apply wp_bind, wp_tx_exec; intros s2.
    - intros [] g Hg. apply wp_bind, wp_tx_query; intros s3; [|by apply wp_ret, (Hkeep s3)].
      simpl in *.
      assert (alloc_frame sub (w_db w) (g (w_db w))) as Hframe.
      { unfold allocate_account in Hg. destruct (rider_accounts (w_db w) !! sub) eqn:E.
        - crush. by left.
        - case_match; crush. by right. }
      destruct (account_of sub (g (w_db w))) as [a|e'] eqn:Ea; [|by apply wp_ret, (Hkeep s3)].
      assert (rider_accounts (g (w_db w)) !! sub = Some a) as Hla.
      { unfold account_of in Ea. by case_match; crush. }
      apply wp_bind, wp_commit; intros s4; simpl; apply wp_ret.
      + exists (g (w_db w)), s4. split_and!; [done|done|]. intros a' Ha'. by crush.
      + exists (g (w_db w)), s4. split_and!; [done|done|]. intros a' Ha'. by crush.
      + by apply (Hkeep s4).
    - intros e' _. destruct e' as [|code|?| |?]; try by apply wp_ret, (Hkeep s2).
      case_decide; [apply IH|by apply wp_ret, (Hkeep s2)].
    - by apply wp_ret, (Hkeep s2). }
  intros n e. specialize (Hloop n e (w_sched w)). by destruct w.
Qed.
End PhaseSpecs.

(** The observable stores are the same; only the environment moved on. *)
Definition same_store {L} (w w' : World DB L) : Prop :=
  w_db w' = w_db w /\ w_led w' = w_led w /\ w_bus w' = w_bus w /\ w_now w' = w_now w.

(** ** The pure content of the phases *)

Section Pure.
Context `{Runtime}.

(** The cap applied to a charge, given what was spent. *)
Definition clamp (cap spent charge : Z) : Z :=
  if wrap_i64 (cap - spent) <? charge then Z.max (wrap_i64 (cap - spent)) 0 else charge.

Definition day_of (now : Z) : Z := day_start (fareCapTimezone getenv) now.

(** What a rider is asked to pay, on a given database. *)
Definition priced (d : DB) (now : Z) (rider : string) (amount : Z) : result (Z * resolution * Z) :=
  let rv := resolveEntitlement (active_entitlements rider now d) amount in
  let cap := dailyCapMinor getenv in
  if (0 <? cap) && (0 <? rv_charge rv) then
    match spent_query rider (day_of now) d with
    | Ok spent => Ok (clamp cap spent (rv_charge rv), rv, spent)
    | Err e => Err e
    end
  else Ok (rv_charge rv, rv, 0).

Definition new_payment (id rider : string) (amount charge : Z) (currency key : string) (now : Z)
    (st : string) (tb ml : option string) : Payment :=
  mkPayment id rider amount (Some charge) currency ml tb (Some key) st 0 None now.

Definition billing_put (id pid : string) (amount charge : Z) (rv : resolution) (now : Z) (d : DB) : DB :=
  match rv_payer rv with
  | Some payer =>
      if 0 <? wrap_i64 (amount - charge)
      then put_billing_charge (mkBillingCharge id payer pid (rv_ent rv) (wrap_i64 (amount - charge)) None now) d
      else d
  | None => d
  end.

Lemma billing_put_payments id pid a c rv now d :
  fare_payments (billing_put id pid a c rv now d) = fare_payments d.
Proof. unfold billing_put. repeat case_match; done. Qed.

Lemma billing_put_accounts id pid a c rv now d :
  rider_accounts (billing_put id pid a c rv now d) = rider_accounts d.
Proof. unfold billing_put. repeat case_match; done. Qed.
End Pure.

Section PhaseSpecs2.
Context {L : Type} `{Ledger L} `{Runtime}.
Implicit Types w : World DB L.

Lemma price_payment_spec tx rider amount w :
  wp (price_payment tx rider amount)
    (fun r w' => same_store w w' /\ w_uuids w' = w_uuids w /\
       forall v, r = Ok v -> priced (tx (w_db w)) (w_now w) rider amount = Ok v) w.
Proof.
  unfold price_payment, priced. apply wp_bind, wp_gets, wp_bind, wp_tx_query; intros s1.
  2: { apply wp_ret. split_and!; done. }
  set (rv := resolveEntitlement _ _). cbn beta iota zeta.
  destruct ((0 <? dailyCapMinor getenv) && (0 <? rv_charge rv)) eqn:E.
  - apply wp_bind, wp_tx_query; intros s2; [|apply wp_ret; split_and!; done].
    simpl. unfold day_of. destruct (spent_query _ _ _); apply wp_ret; split_and!; done.
  - apply wp_ret. split_and!; done.
Qed.

Lemma accrue_billing_spec tx pid amount charge rv w :
  wp (accrue_billing tx pid amount charge rv)
    (fun r w' => same_store w w' /\
       forall tx', r = Ok tx' -> forall d, tx' d
         = billing_put (uuid_of (w_uuids w)) pid amount charge rv (w_now w) (tx d)) w.
Proof.
  unfold accrue_billing, billing_put. destruct (rv_payer rv) as [payer|].
  2: { apply wp_ret. split; [done|]. intros; by crush. }
  cbn zeta. destruct (0 <? _) eqn:E; [|apply wp_ret; split; [done|]; intros; by crush].
  apply wp_bind, wp_gets, wp_bind, wp_new_uuid, wp_bind, wp_tx_exec; intros s1.
  - intros [] g Hg. apply wp_ret. split; [done|]. intros tx' Ht d. crush.
    unfold insert_billing_charge in Hg. repeat case_match; crush.
  - intros e _. apply wp_ret. split; [done|]. intros; by crush.
  - apply wp_ret. split; [done|]. intros; by crush.
Qed.

(** The ledger moved by at most the posting of this key and charge. *)
Definition debit_posting (rider key : string) (charge : Z) (d : DB) (l l' : L) (r : result string) : Prop :=
  exists account, rider_accounts d !! rider = Some account /\ 0 < charge /\
    led_Transfer l (DeterministicTransferID key) account OperatorRevenueAccount (wrap_u64 charge) CodeFare
    = (r, l').

Lemma settle_ledger_spec rider key charge w :
  wp (settle_ledger rider key charge)
    (fun r w' => w_bus w' = w_bus w /\ w_now w' = w_now w /\
       alloc_frame rider (w_db w) (w_db w') /\
       (w_led w' = w_led w \/ exists lr, debit_posting rider key charge (w_db w') (w_led w) (w_led w') lr) /\
       forall st, r = Ok st ->
         (st_status st = "settled"%string /\ st_insufficient st = false /\
            (charge <= 0 /\ st_tb st = None /\ w_led w' = w_led w \/
             exists h, st_tb st = Some h /\
               debit_posting rider key charge (w_db w') (w_led w) (w_led w') (Ok h))) \/
         (st_status st = "failed"%string /\ st_tb st = None)) w.
Proof.
  unfold settle_ledger. destruct (Z.ltb_spec 0 charge) as [Hpos|Hz].
  2: { apply wp_ret. split_and!; [done|done|by left|by left|]. intros st Hst. crush.
       left. split_and!; [done|done|]. by left. }
  apply wp_bind. eapply wp_mono; [|apply riderAccount_spec].
  intros r w1 (d & s & -> & Hal & Hacc). destruct r as [account|e].
  2: { apply wp_ret. split_and!; [done|done|done|by left|]. intros; by crush. }
  specialize (Hacc account eq_refl). apply wp_bind, wp_led_call; intros s2.
  - intros lr l Hl. simpl in Hl.
    assert (debit_posting rider key charge d (w_led w) l lr) as Hd by (exists account; split_and!; done).
    destruct lr as [h|e].
    + apply wp_ret. split_and!; [done|done|done|right; by eexists|].
      intros st Hst. crush. left. split_and!; [done|done|]. right. eauto.
    + destruct e; apply wp_ret; (split_and!; [done|done|done|right; by eexists|]);
        intros st Hst; crush; by right.
  - intros lr l Hl. simpl in Hl. apply wp_ret.
    split_and!; [done|done|done|right; exists lr, account; split_and!; done|].
    intros st Hst. crush. by right.
  - apply wp_ret. split_and!; [done|done|done|by left|]. intros st Hst. crush. by right.
Qed.

Lemma NewClient_budget cfg cfg' : NewClient cfg = MOk cfg' -> 0 <= cfg_retry_budget cfg'.
Proof.
  unfold NewClient. case_decide; [done|]. intros Heq. injection Heq as <-. simpl.
  repeat match goal with |- context [if ?b then _ else _] => destruct b eqn:? end; zbool; lia.
Qed.

Lemma http_only_store P w w' : http_only P w w' -> same_store w w' /\ w_uuids w' = w_uuids w.
Proof. intros (rs & h & -> & _). done. Qed.

Lemma mojaloopTransfer_store endpoint key rider cur charge w :
  wp (mojaloopTransfer endpoint key rider cur charge) (fun _ w' => same_store w w') w.
Proof.
  unfold mojaloopTransfer. case_decide.
  - destruct (negb _); [by apply wp_ret|]. apply wp_bind, wp_new_uuid. by apply wp_ret.
  - destruct (NewClient _) as [cfg|f] eqn:Ecfg; [|by apply wp_ret].
    apply wp_bind, wp_gets, wp_bind.
    eapply wp_mono; [|apply Transfer_only; by eapply NewClient_budget].
    intros r w' [Hs _]%http_only_store. destruct r; by apply wp_ret.
Qed.

(** The status after the leg is the one before, or a failure status when the
    leg itself failed. *)
Lemma mojaloop_leg_spec endpoint key rider cur charge wanted st w :
  wp (mojaloop_leg endpoint key rider cur charge wanted st)
    (fun r w' => same_store w w' /\
       (r.1.1 = st /\ r.2 = None \/
        r.1.1 <> "settled"%string /\ st = "settled"%string /\ exists f, r.2 = Some f)) w.
Proof.
  unfold mojaloop_leg. destruct (wanted && _) eqn:E; [|apply wp_ret; split; [done|left; by auto]].
  apply andb_true_iff in E as [_ Hst%bool_decide_eq_true]. subst st.
  apply wp_bind. eapply wp_mono; [|apply mojaloopTransfer_store].
  intros [id|f] w' Hs; apply wp_ret; (split; [done|]).
  - by left.
  - right. simpl. split_and!; [apply PaymentStatus_not_settled|done|eauto].
Qed.
End PhaseSpecs2.

(** ** The whole handler *)

Section HandlerSpec.
Context {L : Type} `{Ledger L} `{Runtime}.
Implicit Types w : World DB L.

(** The events a payment may publish. *)
Definition payment_event_ok (id : string) (charge : Z) (st : string) (e : event) : Prop :=
  jget "payment_id" (ev_data e) = Some (JStr id) /\
  jget "charged_minor" (ev_data e) = Some (JInt charge) /\
  (ev_topic e = "fare.payment.initiated"%string \/
   ev_topic e = "fare.payment.failed"%string /\ st <> "settled"%string \/
   ev_topic e = "fare.payment.settled"%string /\ st = "settled"%string).

(** What concluding a payment may do to the world: loyalty tables and events. *)
Definition concluded (id : string) (charge : Z) (st : string) w w' : Prop :=
  loyalty_frame (w_db w) (w_db w') /\ w_led w' = w_led w /\ w_now w' = w_now w /\
  (st <> "settled"%string -> w_db w' = w_db w) /\
  exists evs, w_bus w' = w_bus w ++ evs /\ Forall (payment_event_ok id charge st) evs.

Lemma concluded_publish id charge st w s topic data w' :
  payment_event_ok id charge st (mkEvent topic data) ->
  concluded id charge st (with_bus (w_bus w ++ [mkEvent topic data]) (with_sched s w)) w' ->
  concluded id charge st w w'.
Proof.
  intros He (H1 & H2 & H3 & H4 & evs & Hb & Hevs). simpl in *.
  split_and!; [done..|]. exists (mkEvent topic data :: evs). split.
  - by rewrite Hb, <- app_assoc.
  - by constructor.
Qed.

Lemma concluded_same id charge st w : concluded id charge st w w.
Proof.
  split_and!; [apply loyalty_frame_refl|done|done|done|]. exists []. by rewrite app_nil_r.
Qed.

Lemma concluded_refl id charge st w s : concluded id charge st w (with_sched s w).
Proof.
  split_and!; [apply loyalty_frame_refl|done|done|done|]. exists []. by rewrite app_nil_r.
Qed.

(** The identifying fields survive the later assignments to the event. *)
Definition event_of (id : string) (charge : Z) (data : list (string * json)) : Prop :=
  jget "payment_id" data = Some (JStr id) /\ jget "charged_minor" data = Some (JInt charge).

Lemma event_of_jset id charge data k v :
  k <> "payment_id"%string -> k <> "charged_minor"%string -> event_of id charge data ->
  event_of id charge (jset k v data).
Proof. intros ? ? [? ?]. split; rewrite jget_jset_ne; congruence. Qed.

Lemma conclude_failed_spec p id charge event st mlErr ins w :
  event_of id charge event -> st <> "settled"%string ->
  wp (conclude_failed p event mlErr ins)
    (fun r w' => concluded id charge st w w' /\ status r = (if ins then 402 else 502)) w.
Proof.
  intros He Hst. unfold conclude_failed. apply wp_bind, wp_gets. cbn zeta.
  set (ev := jset "failed_at" _ _).
  assert (payment_event_ok id charge st (mkEvent "fare.payment.failed" ev)) as Hev.
  { assert (event_of id charge ev) as [A B] by (by repeat apply event_of_jset).
    split_and!; auto. }
  apply wp_bind, wp_publish; intros s; intros; destruct ins; apply wp_ret; (split; [|done]);
    solve [apply concluded_refl | eapply concluded_publish; [done|apply concluded_same]].
Qed.

Lemma conclude_settled_spec p id rider charge event tb ml w :
  event_of id charge event ->
  wp (conclude_settled p id rider charge event tb ml)
    (fun r w' => concluded id charge "settled" w w' /\ r = mkResponse 201 (payment_json p)) w.
Proof.
  intros He. unfold conclude_settled. apply wp_bind, wp_gets. cbn zeta.
  set (ev := jset "settled_at" _ _).
  assert (payment_event_ok id charge "settled" (mkEvent "fare.payment.settled" ev)) as Hev.
  { assert (event_of id charge ev) as [A B] by (unfold ev; destruct ml; by repeat apply event_of_jset).
    split_and!; auto. }
  apply wp_bind, wp_publish; intros s; intros; apply wp_bind; (eapply wp_mono; [|apply accrue_spec]);
    intros r0 w' (d & s3 & n & -> & Hfr); apply wp_ret; (split; [|done]).
  - eapply concluded_publish; [done|]. split_and!; [done..|]. exists []. by rewrite app_nil_r.
  - split_and!; [done..|]. exists []. by rewrite app_nil_r.
Qed.

Lemma conclude_payment_spec p id rider charge event st tb ml mlErr ins w :
  event_of id charge event ->
  wp (conclude_payment p id rider charge event st tb ml mlErr ins)
    (fun r w' => concluded id charge st w w' /\
       (st = "settled"%string /\ r = mkResponse 201 (payment_json p) \/
        st <> "settled"%string /\ status r = (if ins then 402 else 502))) w.
Proof.
  intros He. unfold conclude_payment. apply wp_bind.
  assert (payment_event_ok id charge st (mkEvent "fare.payment.initiated" event)) as Hev.
  { destruct He. split_and!; auto. }
  apply wp_publish; intros s; intros; destruct (bool_decide (st = _)) eqn:Est; simpl.
  - apply bool_decide_eq_true in Est. subst st.
    eapply wp_mono; [|by apply conclude_settled_spec]. intros r' w' [Hc Hr].
    split; [by eapply concluded_publish|by left].
  - apply bool_decide_eq_false in Est.
    eapply wp_mono; [|by apply conclude_failed_spec]. intros r' w' [Hc Hr].
    split; [by eapply concluded_publish|by right].
  - apply bool_decide_eq_true in Est. subst st.
    eapply wp_mono; [|by apply conclude_settled_spec]. intros r' w' [Hc Hr]. split; [done|by left].
  - apply bool_decide_eq_false in Est.
    eapply wp_mono; [|by apply conclude_failed_spec]. intros r' w' [Hc Hr]. split; [done|by right].
Qed.

(** How a payment that reached the ledger ended.  [d1] is the database after a
    possible wallet allocation; [committed] is what the commit makes of it. *)
Definition committed_db (bid : string) (rv : resolution) (p : Payment) (d1 : DB) : DB :=
  put_payment p (billing_put bid (p_id p) (p_amount p) (effectiveCharged p) rv (p_created p)
    (put_payment (new_payment (p_id p) (p_rider p) (p_amount p) (effectiveCharged p) (p_currency p)
                    (default "" (p_key p)) (p_created p) "initiated" None None) d1)).

Lemma committed_payments bid rv p d1 :
  fare_payments (committed_db bid rv p d1) = <[p_id p := p]> (fare_payments d1).
Proof. unfold committed_db. simpl. rewrite billing_put_payments. simpl. apply insert_insert_eq. Qed.

Lemma committed_accounts bid rv p d1 : rider_accounts (committed_db bid rv p d1) = rider_accounts d1.
Proof. unfold committed_db. simpl. rewrite billing_put_accounts. done. Qed.

(** A settled status is earned: nothing to pay, or the ledger took the charge. *)
Definition settlement_earned (rider key : string) (charge : Z) (d1 : DB) w w' (p : Payment) : Prop :=
  p_status p = "settled"%string ->
  charge <= 0 /\ p_tb p = None /\ w_led w' = w_led w \/
  exists h, p_tb p = Some h /\ debit_posting rider key charge d1 (w_led w) (w_led w') (Ok h).

Inductive payment_end (id key rider currency : string) (amount charge : Z) (rv : resolution)
    (w : World DB L) (d1 : DB) (r : response) (w' : World DB L) : Prop :=
| End_rolled_back :
    w_db w' = d1 -> w_bus w' = w_bus w -> status r = 500 ->
    payment_end id key rider currency amount charge rv w d1 r w'
| End_reply_lost bid st tb ml (p := new_payment id rider amount charge currency key (w_now w) st tb ml) :
    settlement_earned rider key charge d1 w w' p ->
    w_db w' = committed_db bid rv p d1 -> w_bus w' = w_bus w -> status r = 500 ->
    payment_end id key rider currency amount charge rv w d1 r w'
| End_concluded bid st tb ml (p := new_payment id rider amount charge currency key (w_now w) st tb ml) evs :
    settlement_earned rider key charge d1 w w' p ->
    loyalty_frame (committed_db bid rv p d1) (w_db w') ->
    (st <> "settled"%string -> w_db w' = committed_db bid rv p d1) ->
    w_bus w' = w_bus w ++ evs -> Forall (payment_event_ok id charge st) evs ->
    (st = "settled"%string /\ r = mkResponse 201 (payment_json p) \/
     st <> "settled"%string /\ (status r = 402 \/ status r = 502)) ->
    payment_end id key rider currency amount charge rv w d1 r w'.

(** Everything a payment that reached the ledger can do. *)
Definition payment_ran (id key rider currency : string) (amount charge : Z) (rv : resolution)
    (w : World DB L) (r : response) (w' : World DB L) : Prop :=
  exists d1, alloc_frame rider (w_db w) d1 /\ w_now w' = w_now w /\
    (w_led w' = w_led w \/ exists lr, debit_posting rider key charge d1 (w_led w) (w_led w') lr) /\
    payment_end id key rider currency amount charge rv w d1 r w'.

Lemma payment_event_of id rider amount charge cur rv sp :
  event_of id charge (payment_event id rider amount charge cur rv sp).
Proof. done. Qed.

Lemma settle_payment_spec endpoint id rider key amount charge cur ml0 rv sp w :
  let p0 := new_payment id rider amount charge cur key (w_now w) "initiated" None None in
  wp (settle_payment endpoint (put_payment p0) id rider key amount charge cur ml0 rv sp)
    (payment_ran id key rider cur amount charge rv w) w.
Proof.
  intros p0. unfold settle_payment. cbn zeta.
  apply wp_bind. eapply wp_mono; [|apply accrue_billing_spec].
  intros r1 w1 ((E1 & E2 & E3 & E4) & Htx). destruct r1 as [tx|e].
  2: { apply wp_ret. exists (w_db w). split_and!; [by left|done|by left|by apply End_rolled_back]. }
  specialize (Htx tx eq_refl). apply wp_bind. eapply wp_mono; [|apply settle_ledger_spec].
  intros r2 w2 (B2 & N2 & Al & Lr & Hst). rewrite E1, E2, E3, E4 in *. destruct r2 as [st|e].
  2: { apply wp_ret. exists (w_db w2). split_and!; [done|congruence|done|by apply End_rolled_back]. }
  specialize (Hst st eq_refl). apply wp_bind. eapply wp_mono; [|apply mojaloop_leg_spec].
  intros [[status ml] mlErr] w3 ((F1 & F2 & F3 & F4) & Hml). simpl in Hml.
  set (p := new_payment id rider amount charge cur key (w_now w) status (st_tb st) ml).
  assert (forall w', w_led w' = w_led w3 -> settlement_earned rider key charge (w_db w2) w w' p) as Hearn.
  { intros w' Hw' Hs. simpl in Hs. rewrite Hw', F2.
    destruct Hml as [[Hse _]|[Hne _]]; [|done]. subst status. rewrite Hs in *.
    destruct Hst as [(_ & _ & Hc)|[? _]]; [|congruence].
    destruct Hc as [(? & ? & ?)|(h & ? & ?)]; [left; by split_and!|right; by exists h]. }
  assert (forall w', w_led w' = w_led w3 -> w_now w' = w_now w3 -> forall r,
    payment_end id key rider cur amount charge rv w (w_db w2) r w' ->
    payment_ran id key rider cur amount charge rv w r w') as Hran.
  { intros w' Hl Hn r Hend. exists (w_db w2). rewrite Hl, Hn, F2, F4. by split_and!. }
  apply wp_bind, wp_tx_exec; intros s4.
  2: { intros e _. apply wp_ret. apply Hran; [done|done|]. apply End_rolled_back; simpl; congruence. }
  2: { apply wp_ret. apply Hran; [done|done|]. apply End_rolled_back; simpl; congruence. }
  intros p' g Hg. rewrite Htx in Hg. unfold finalize_payment in Hg.
  rewrite billing_put_payments in Hg. simpl in Hg. rewrite lookup_insert_eq in Hg. simplify_eq/=.
  fold p. 
  assert (forall d, put_payment p (tx d) = committed_db (uuid_of (w_uuids w)) rv p d) as Hcd.
  { intros d. by rewrite Htx. }
  apply wp_bind, wp_commit; intros s5; simpl.
  - eapply wp_mono; [|apply (conclude_payment_spec _ id), payment_event_of].
    intros r w' [(H1 & H2 & H3 & H4 & evs & H5 & H6) Hr]. simpl in *. rewrite Hcd, F1 in *.
    apply Hran; [done|done|]. eapply (End_concluded _ _ _ _ _ _ _ _ _ _ _ (uuid_of (w_uuids w)) status (st_tb st) ml evs).
    + by apply Hearn.
    + done.
    + done.
    + congruence.
    + done.
    + destruct Hr as [[? ->]|[? Hr]]; [left; done|right]. split; [done|].
      destruct (st_insufficient st); auto.
  - apply wp_ret. apply Hran; [done|done|].
    eapply (End_reply_lost _ _ _ _ _ _ _ _ _ _ _ (uuid_of (w_uuids w)) status (st_tb st) ml); simpl.
    + by apply Hearn.
    + rewrite Hcd. by rewrite F1.
    + congruence.
    + done.
  - apply wp_ret. apply Hran; [done|done|]. apply End_rolled_back; simpl; congruence.
Qed.

(** [CreatePayment] for every schedule: nothing observable happened, or the
    request was valid, priced on the current state, new, and ran. *)
Lemma create_payment_spec endpoint ctx key req w :
  wp (CreatePayment endpoint ctx key req)
    (fun r w' => same_store w w' \/
       exists rider amount cur ml charge rv sp,
         validate_payment ctx key req = inr (rider, amount, cur, ml) /\
         priced (w_db w) (w_now w) rider amount = Ok (charge, rv, sp) /\
         fare_payments (w_db w) !! uuid_of (w_uuids w) = None /\
         key_taken (Some key) (w_db w) = false /\
         payment_ran (uuid_of (w_uuids w)) key rider cur amount charge rv w r w') w.
Proof.
  unfold CreatePayment. destruct (validate_payment ctx key req) as [refusal|[[[rider amount] cur] ml]] eqn:Ev.
  { apply wp_ret. by left. }
  apply wp_bind, wp_begin; intros s1; [|by apply wp_ret; left].
  apply wp_bind, wp_tx_query; intros s2; [|by apply wp_ret; left].
  apply wp_bind. eapply wp_mono; [|apply price_payment_spec].
  intros r w3 ((E1 & E2 & E3 & E4) & Eu & Hpr). simpl in *.
  destruct r as [[[charge rv] sp]|e]; [|by apply wp_ret; left].
  specialize (Hpr _ eq_refl).
  apply wp_bind, wp_gets, wp_bind, wp_new_uuid, wp_bind, wp_tx_exec; intros s4.
  - intros [] g Hg. simpl in Hg. rewrite Eu, E1, E4 in *. unfold insert_payment in Hg. simpl in Hg.
    destruct (fare_payments (w_db w) !! uuid_of (w_uuids w)) eqn:Eid; [done|].
    destruct (match find_row _ _ with Some _ => true | None => false end) eqn:Ek; simplify_eq/=.
    pose proof (settle_payment_spec endpoint (uuid_of (w_uuids w)) rider key amount charge cur ml rv sp
      (with_sched s4 (with_uuids (w_uuids w + 1)%nat w3))) as Hsp. simpl in Hsp. rewrite E4 in Hsp.
    eapply wp_mono; [|exact Hsp].
    intros r w' Hr. right. exists rider, amount, cur, ml, charge, rv, sp. split_and!; [done..|].
    destruct Hr as (d1 & Al & Hn & Hl & Hend). exists d1. simpl in *. rewrite E1, E2, E4 in *.
    split_and!; [done..|].
    destruct Hend as [D1 D2 D3|bid st tb mlx p D1 D2 D3 D4|bid st tb mlx p evs D1 D2 D3 D4 D5 D6];
      simpl in *; rewrite ?E4, ?E3 in *.
    + by apply End_rolled_back.
    + eapply (End_reply_lost _ _ _ _ _ _ _ _ _ _ _ bid st tb mlx); try done; [|subst p; congruence].
      intros Hs. specialize (D1 Hs). simpl in D1. by rewrite E2 in D1.
    + eapply (End_concluded _ _ _ _ _ _ _ _ _ _ _ bid st tb mlx evs); subst p; simpl in *; rewrite ?E4 in *; try done.
      intros Hs. specialize (D1 Hs). simpl in D1. by rewrite E2 in D1.
  - intros e _. assert (same_store w (with_sched s4 (with_uuids (w_uuids w3 + 1)%nat w3))) as Hs by done.
    destruct e as [|code|?| |?]; try by apply wp_ret; left.
    case_decide; [|by apply wp_ret; left].
    unfold replay_payment. apply wp_bind, wp_db_query; intros s5; simpl.
    + destruct (payment_by_key _ _); [|by apply wp_ret; left]. destruct (_ && _); by apply wp_ret; left.
    + by apply wp_ret; left.
  - by apply wp_ret; left.
Qed.
End HandlerSpec.
