(* ===== verification/PaymentTheorems.v ===== *)
(** * Theorems on fare payments

    The properties of payments.go that [create_payment_spec] yields: the daily
    cap, the idempotent replay, at most one debit per idempotency key over any
    history of retries and faults, settled events only for committed settled
    payments, corporate accruals that complete the fare, pricing that does not
    depend on row order, the privacy of the read handlers, and the outcome of a
    payment without faults, which is what the ledger answers. *)

From S2P Require Import Prelude Codec World Auth Ledger TigerBeetle CommerceDb Mojaloop Loyalty Payments PaymentProofs.

Open Scope go_scope.

(** ** Pricing *)

Definition covers (r : ent_row) : bool := bool_decide (er_kind r = "free" \/ er_kind r = "pass").

Definition discount_of (r : ent_row) : Z := if decide (er_kind r = "discount") then er_pct r else 0.

Definition best_discount (rs : list ent_row) : Z := foldr (fun r acc => Z.max (discount_of r) acc) 0 rs.

(** The fare rules in one line: any pass or free product covers the ride,
    otherwise the best discount applies. *)
Definition fare_after (rs : list ent_row) (amount : Z) : Z :=
  if existsb covers rs then 0
  else if 0 <? best_discount rs then Z.quot (wrap_i64 (amount * (100 - best_discount rs))) 100
  else amount.

Lemma best_discount_nonneg rs : 0 <= best_discount rs.
Proof. induction rs as [|r rs IH]; simpl; lia. Qed.

Lemma resolve_loop_charge rs amount best code ent payer :
  0 <= best ->
  rv_charge (resolve_loop rs amount best code ent payer)
  = if existsb covers rs then 0
    else let b := Z.max best (best_discount rs) in
         if 0 <? b then Z.quot (wrap_i64 (amount * (100 - b))) 100 else amount.
Proof.
  revert best code ent payer. induction rs as [|r rs IH]; intros best code ent payer Hb; simpl.
  - by rewrite Z.max_l by lia.
  - unfold covers at 1. case_decide as Hk.
    { rewrite bool_decide_eq_true_2 by done. done. }
    rewrite bool_decide_eq_false_2 by done. simpl. unfold discount_of. case_decide as Hd.
    + pose proof (best_discount_nonneg rs). destruct (Z.ltb_spec best (er_pct r)).
      * rewrite IH by lia. by replace (Z.max best (er_pct r `max` best_discount rs))
          with (Z.max (er_pct r) (best_discount rs)) by lia.
      * rewrite IH by lia. by replace (Z.max best (er_pct r `max` best_discount rs))
          with (Z.max best (best_discount rs)) by lia.
    + rewrite IH by lia. pose proof (best_discount_nonneg rs).
      by replace (Z.max best (0 `max` best_discount rs)) with (Z.max best (best_discount rs)) by lia.
Qed.

Lemma resolve_charge rs amount : rv_charge (resolveEntitlement rs amount) = fare_after rs amount.
Proof.
  unfold resolveEntitlement, fare_after. rewrite resolve_loop_charge by lia.
  pose proof (best_discount_nonneg rs). cbv zeta. by rewrite Z.max_r by lia.
Qed.

#[global] Instance fare_after_perm : Proper ((≡ₚ) ==> eq ==> eq) fare_after.
Proof.
  assert (forall l l', l ≡ₚ l' -> existsb covers l = existsb covers l') as He.
  { induction 1; simpl; [done|congruence| |congruence]. by destruct (covers x), (covers y). }
  assert (forall l l', l ≡ₚ l' -> best_discount l = best_discount l') as Hd.
  { induction 1; simpl; [done|congruence|lia|congruence]. }
  intros l l' Hl a a' <-. unfold fare_after. by rewrite (He _ _ Hl), (Hd _ _ Hl).
Qed.

Lemma best_discount_le rs :
  Forall (fun r => er_pct r <= 100) rs -> best_discount rs <= 100.
Proof.
  induction 1 as [|r rs Hr Hrs IH]; simpl; [lia|]. unfold discount_of. case_decide; lia.
Qed.

Lemma fare_after_bounds rs amount :
  Forall (fun r => er_pct r <= 100) rs -> 0 < amount -> amount * 100 < two63 ->
  0 <= fare_after rs amount <= amount.
Proof.
  intros Hp Ha Hm. unfold fare_after. destruct (existsb _ _); [lia|].
  destruct (Z.ltb_spec 0 (best_discount rs)) as [Hb|]; [|lia].
  pose proof (best_discount_le rs Hp).
  rewrite wrap_i64_id by (unfold i64, two63 in *; nia).
  rewrite Z.quot_div_nonneg by nia. split; [apply Z.div_pos; nia|].
  apply Z.div_le_upper_bound; nia.
Qed.

Lemma fare_after_i64 rs amount : i64 amount -> i64 (fare_after rs amount).
Proof.
  intros Ha. unfold fare_after. destruct (existsb _ _); [unfold i64, two63; lia|].
  destruct (0 <? _); [|done].
  pose proof (wrap_i64_range (amount * (100 - best_discount rs))) as Hw.
  generalize dependent (wrap_i64 (amount * (100 - best_discount rs))). intros z Hz.
  unfold i64, two63 in *. pose proof (Z.quot_rem' z 100). pose proof (Z.rem_bound_abs z 100 ltac:(lia)).
  lia.
Qed.

(** The resolution comes from one of the rows, or from none. *)
Lemma resolve_loop_from rs amount best code ent payer :
  0 <= best ->
  let v := resolve_loop rs amount best code ent payer in
  (rv_code v = code /\ rv_ent v = ent /\ rv_payer v = payer /\
   existsb covers rs = false /\ best_discount rs <= best) \/
  exists r, r ∈ rs /\ rv_code v = er_code r /\ rv_ent v = er_ent r /\ rv_payer v = er_payer r /\
    rv_charge v = rv_charge (resolveEntitlement [r] amount).
Proof.
  revert best code ent payer. induction rs as [|r rs IH]; intros best code ent payer Hb; cbn zeta.
  { left. by split_and!. }
  cbn [resolve_loop existsb best_discount foldr]. fold (best_discount rs).
  unfold covers at 1, discount_of. pose proof (best_discount_nonneg rs).
  assert (forall v, (exists r', r' ∈ rs /\ rv_code v = er_code r' /\ rv_ent v = er_ent r' /\
      rv_payer v = er_payer r' /\ rv_charge v = rv_charge (resolveEntitlement [r'] amount)) ->
    exists r', r' ∈ r :: rs /\ rv_code v = er_code r' /\ rv_ent v = er_ent r' /\
      rv_payer v = er_payer r' /\ rv_charge v = rv_charge (resolveEntitlement [r'] amount)) as Hmore.
  { intros v (r' & Hr' & ?). exists r'. split; [by right|done]. }
  case_decide as Hk.
  { right. exists r. split_and!; [left|done..|]. rewrite resolve_charge. unfold fare_after, covers. simpl.
    by rewrite bool_decide_eq_true_2. }
  rewrite bool_decide_eq_false_2 by done. case_decide as Hd.
  - destruct (Z.ltb_spec best (er_pct r)) as [Hlt|Hge].
    + destruct (IH (er_pct r) (er_code r) (er_ent r) (er_payer r) ltac:(lia)) as [(E1 & E2 & E3 & E4 & E5)|Hex];
        [|right; by apply Hmore].
      right. exists r. split_and!; [left|done..|].
      rewrite resolve_charge, resolve_loop_charge by lia. rewrite E4. cbv zeta.
      rewrite (Z.max_l (er_pct r)) by lia. unfold fare_after, covers. simpl.
      rewrite bool_decide_eq_false_2 by done. unfold discount_of. rewrite decide_True by done. simpl.
      by rewrite Z.max_l by lia.
    + destruct (IH best code ent payer Hb) as [(E1 & E2 & E3 & E4 & E5)|Hex]; [left|right; by apply Hmore].
      split_and!; try done. lia.
  - destruct (IH best code ent payer Hb) as [(E1 & E2 & E3 & E4 & E5)|Hex]; [left|right; by apply Hmore].
    split_and!; try done. lia.
Qed.

(** More discount, less fare. *)
Lemma discounted_mono amount b b' :
  0 < amount -> amount * 100 < two63 -> 0 <= b <= b' -> b' <= 100 ->
  Z.quot (wrap_i64 (amount * (100 - b'))) 100 <= Z.quot (wrap_i64 (amount * (100 - b))) 100.
Proof.
  intros. rewrite !wrap_i64_id by (unfold i64, two63 in *; nia).
  apply Z.quot_le_mono; nia.
Qed.

Lemma best_discount_ge rs r : r ∈ rs -> discount_of r <= best_discount rs.
Proof.
  induction 1 as [r rs|r x rs Hr IH]; unfold best_discount in *; cbn [foldr]; lia.
Qed.

Lemma fare_after_le_one rs r amount :
  Forall (fun r => er_pct r <= 100) rs -> 0 < amount -> amount * 100 < two63 -> r ∈ rs ->
  fare_after rs amount <= fare_after [r] amount.
Proof.
  intros Hp Ha Hm Hr.
  assert (Forall (fun r => er_pct r <= 100) [r]) as Hp1.
  { constructor; [|constructor]. by apply (proj1 (list.Forall_forall _ _) Hp). }
  pose proof (fare_after_bounds [r] amount Hp1 Ha Hm).
  pose proof (fare_after_bounds rs amount Hp Ha Hm).
  pose proof (best_discount_ge rs r Hr). pose proof (best_discount_le rs Hp).
  unfold fare_after in *. destruct (existsb covers rs) eqn:Ec; [lia|].
  destruct (existsb covers [r]) eqn:Ec1.
  { exfalso. simpl in Ec1. rewrite orb_false_r in Ec1.
    enough (existsb covers rs = true) by congruence. apply existsb_exists. exists r. split; [|done].
    by apply list_elem_of_In. }
  cbn [best_discount foldr] in *. destruct (Z.ltb_spec 0 (best_discount rs)) as [Hb|Hb].
  - destruct (Z.ltb_spec 0 (discount_of r `max` 0)); [|lia]. apply discounted_mono; lia.
  - destruct (Z.ltb_spec 0 (discount_of r `max` 0)); lia.
Qed.

(** A rider always gets the best of their entitlements: the fare charged is
    the same in whatever order the database returns the rows, lies between
    zero and the full fare, is at most what any single entitlement would give,
    and, when it is reduced, the product and payer reported are those of a row that
    gives exactly this fare. *)
Theorem resolve_best_fare (rs rs' : list ent_row) (amount : Z)
    (Hperm : rs ≡ₚ rs') (Hpct : Forall (fun r => er_pct r <= 100) rs)
    (Hpos : 0 < amount) (Hmax : amount * 100 < two63) :
  let v := resolveEntitlement rs amount in
  rv_charge v = rv_charge (resolveEntitlement rs' amount) /\
  0 <= rv_charge v <= amount /\
  (forall r, r ∈ rs -> rv_charge v <= rv_charge (resolveEntitlement [r] amount)) /\
  (rv_charge v <> amount ->
   exists r, r ∈ rs /\ rv_code v = er_code r /\ rv_ent v = er_ent r /\ rv_payer v = er_payer r /\
     rv_charge v = rv_charge (resolveEntitlement [r] amount)).
Proof.
  cbv zeta. split_and!.
  - rewrite !resolve_charge. by rewrite Hperm.
  - rewrite resolve_charge. by apply fare_after_bounds.
  - rewrite resolve_charge. by apply fare_after_bounds.
  - intros r Hr. rewrite !resolve_charge. by apply fare_after_le_one.
  - intros Hne. destruct (resolve_loop_from rs amount 0 "" "" None ltac:(lia)) as [(_ & _ & _ & Hc & Hb)|Hex]; [|done].
    destruct Hne. rewrite resolve_charge. unfold fare_after. rewrite Hc.
    destruct (Z.ltb_spec 0 (best_discount rs)); [lia|done].
Qed.

Section Priced.
Context `{Runtime}.

Lemma clamp_bounds cap spent charge : 0 < charge -> 0 <= clamp cap spent charge <= charge.
Proof. intros. unfold clamp. destruct (Z.ltb_spec (wrap_i64 (cap - spent)) charge); lia. Qed.

(** The clamped charge keeps the day under the cap, or is zero. *)
Lemma clamp_cap cap spent charge :
  0 <= cap < two63 -> i64 spent -> 0 < charge -> spent + clamp cap spent charge <= Z.max cap spent.
Proof.
  intros Hc Hs Hch. unfold clamp.
  destruct (decide (cap - spent < two63)) as [Hfit|Hbig].
  - rewrite wrap_i64_id by (unfold i64, two63 in *; lia).
    destruct (Z.ltb_spec (cap - spent) charge); lia.
  - assert (wrap_i64 (cap - spent) < 0) as Hneg.
    { unfold wrap_i64. unfold i64, two63, two64 in *.
      replace (cap - spent + 9223372036854775808)
        with ((cap - spent - 9223372036854775808) + 1 * 18446744073709551616) by lia.
      rewrite Z.mod_add, Z.mod_small by lia. lia. }
    destruct (Z.ltb_spec (wrap_i64 (cap - spent)) charge); lia.
Qed.

Lemma dailyCapMinor_range env : 0 <= dailyCapMinor env < two63.
Proof.
  unfold dailyCapMinor. case_decide; [unfold two63; lia|].
  destruct (ParseInt _) as [n|] eqn:E; [|unfold two63; lia].
  destruct (Z.ltb_spec n 0); [unfold two63; lia|]. apply ParseInt_range in E. unfold i64 in E. lia.
Qed.

Lemma priced_charge d now rider amount charge rv sp :
  priced d now rider amount = Ok (charge, rv, sp) ->
  rv = resolveEntitlement (active_entitlements rider now d) amount /\
  (rv_charge rv <= 0 -> charge = rv_charge rv) /\ (0 < rv_charge rv -> 0 <= charge <= rv_charge rv).
Proof.
  unfold priced. set (rv0 := resolveEntitlement _ _).
  destruct (_ && _) eqn:E.
  - zbool. destruct (spent_query _ _ _); [|done]. intros; simplify_eq.
    split_and!; [done|lia|]. intros. by apply clamp_bounds.
  - intros; simplify_eq. split_and!; [done|lia|lia].
Qed.

Lemma priced_i64 d now rider amount charge rv sp :
  i64 amount -> priced d now rider amount = Ok (charge, rv, sp) -> i64 charge.
Proof.
  intros Ha (-> & Hn & Hp)%priced_charge. rewrite resolve_charge in *.
  pose proof (fare_after_i64 (active_entitlements rider now d) amount Ha).
  destruct (decide (0 < fare_after (active_entitlements rider now d) amount)).
  - specialize (Hp ltac:(done)). unfold i64, two63 in *; lia.
  - by rewrite Hn by lia.
Qed.

(** A priced charge keeps the rider's day under the cap. *)
Lemma priced_cap d now rider amount charge rv sp :
  0 < dailyCapMinor getenv -> priced d now rider amount = Ok (charge, rv, sp) ->
  spent_since rider (day_of now) d + charge
    <= Z.max (dailyCapMinor getenv) (spent_since rider (day_of now) d).
Proof.
  intros Hcap. unfold priced. set (rv0 := resolveEntitlement _ _).
  rewrite (proj2 (Z.ltb_lt _ _) Hcap). simpl. destruct (Z.ltb_spec 0 (rv_charge rv0)).
  - unfold spent_query. destruct (in_int8 _) eqn:E; [|done]. intros; simplify_eq.
    apply clamp_cap; [apply dailyCapMinor_range|by apply in_int8_i64|done].
  - intros; simplify_eq. lia.
Qed.
End Priced.

(** ** What a payment request does to the stored payments *)

Section Rows.
Context {L : Type} `{Ledger L} `{Runtime}.
Implicit Types w : World DB L.

(** The body of a request as [encoding/json] decodes it: an [int64] amount. *)
Definition request_typed (req : option createPaymentRequest) : Prop :=
  match req with Some r => i64 (cp_amount r) | None => True end.

Lemma validate_payment_ok ctx key req rider amount cur ml :
  validate_payment ctx key req = inr (rider, amount, cur, ml) ->
  rider = Subject ctx /\ rider <> "" /\ key <> "" /\ 0 < amount /\ cur = platformCurrency getenv /\
  (request_typed req -> i64 amount).
Proof.
  unfold validate_payment. case_decide; [done|]. destruct req as [r|]; [|done].
  destruct (Z.leb_spec (cp_amount r) 0); [done|]. case_decide as Hs; [done|].
  destruct (negb _ && negb _); [done|].
  match goal with |- context [if negb ?b then _ else _] => destruct b eqn:E end; simpl; [|done].
  apply bool_decide_eq_true in E. intros; simplify_eq. by split_and!.
Qed.

(** The stored payments after a run: unchanged, or one new row. *)
Lemma payment_ran_row id key rider cur amount charge rv w r w' :
  payment_ran id key rider cur amount charge rv w r w' ->
  fare_payments (w_db w') = fare_payments (w_db w) \/
  exists st tb ml d1,
    let p := new_payment id rider amount charge cur key (w_now w) st tb ml in
    fare_payments (w_db w') = <[id := p]> (fare_payments (w_db w)) /\
    alloc_frame rider (w_db w) d1 /\ settlement_earned rider key charge d1 w w' p.
Proof.
  intros (d1 & Al & _ & _ & Hend).
  assert (fare_payments d1 = fare_payments (w_db w)) as Hf by by destruct Al as [->|[_ ->]].
  destruct Hend as [D1 D2 D3|bid st tb ml p D1 D2 D3 D4|bid st tb ml p evs D1 (la & ll & lr & D2) D3 D4 D5 D6].
  - left. congruence.
  - right. exists st, tb, ml, d1. cbv zeta. rewrite D2, committed_payments, Hf. by split_and!.
  - right. exists st, tb, ml, d1. cbv zeta. rewrite D2. cbn [fare_payments].
    rewrite committed_payments, Hf. by split_and!.
Qed.

Lemma day_share_new rider start id charge who amount cur key now st tb ml :
  day_share rider start id (new_payment id who amount charge cur key now st tb ml)
  = if bool_decide (who = rider) && bool_decide (st = "settled"%string) && (start <=? now) then charge else 0.
Proof. done. Qed.

Lemma spent_since_new rider start d d' id p :
  fare_payments d !! id = None -> fare_payments d' = <[id := p]> (fare_payments d) ->
  spent_since rider start d' = day_share rider start id p + spent_since rider start d.
Proof. intros Hn E. unfold spent_since. rewrite E. by apply msum_insert_new. Qed.

Lemma spent_since_same rider start d d' :
  fare_payments d' = fare_payments d -> spent_since rider start d' = spent_since rider start d.
Proof. unfold spent_since. by intros ->. Qed.

(** C1: the daily fare cap: whatever the request and the faults, after
    [CreatePayment] no rider's settled spend of the current civic day exceeds
    the cap, unless it already did before, in which case it has not grown. *)
Theorem create_payment_respects_daily_cap (endpoint : string) (ctx : claims) (key : string)
    (req : option createPaymentRequest) (w : World DB L) (rider : string)
    (Hcap : 0 < dailyCapMinor getenv) :
  spent_since rider (day_of (w_now w)) (w_db (CreatePayment endpoint ctx key req w).2)
    <= Z.max (dailyCapMinor getenv) (spent_since rider (day_of (w_now w)) (w_db w)).
Proof.
  destruct (create_payment_spec endpoint ctx key req w) as [(E & _)|Hrun].
  { rewrite E. lia. }
  destruct Hrun as (who & amount & cur & ml & charge & rv & sp & Hv & Hpr & Hid & Hk & Hrun).
  apply payment_ran_row in Hrun as [E|(st & tb & ml' & d1 & E & _)].
  { rewrite (spent_since_same _ _ _ _ E). lia. }
  rewrite (spent_since_new _ _ _ _ _ _ Hid E), day_share_new.
  destruct (bool_decide (who = rider)) eqn:Ew; simpl; [|lia].
  apply bool_decide_eq_true in Ew. subst who.
  pose proof (priced_cap _ _ _ _ _ _ _ Hcap Hpr). destruct (_ && _); lia.
Qed.

Lemma payment_by_key_taken key p d : payment_by_key key d = Ok p -> key_taken (Some key) d = true.
Proof. unfold payment_by_key, key_taken. by destruct (find_row _ _). Qed.

(** An idempotency key that was used is never used again: for every request
    and every fault the stores, the ledger and the event stream are unchanged,
    and a 200 answer carries the recorded payment, to its rider or to staff
    only. *)
Theorem create_payment_replay (endpoint : string) (ctx : claims) (key : string)
    (req : option createPaymentRequest) (w : World DB L) (p : Payment)
    (Hkey : payment_by_key key (w_db w) = Ok p) :
  let r := (CreatePayment endpoint ctx key req w).1 in
  let w' := (CreatePayment endpoint ctx key req w).2 in
  same_store w w' /\
  (status r = 200 -> body r = payment_json p /\ (p_rider p = Subject ctx \/ staff ctx = true)) /\
  (status r = 200 \/ 400 <= status r).
Proof.
  cut (wp (CreatePayment endpoint ctx key req) (fun r w' => same_store w w' /\
    (status r = 200 -> body r = payment_json p /\ (p_rider p = Subject ctx \/ staff ctx = true)) /\
    (status r = 200 \/ 400 <= status r)) w).
  { done. }
  pose proof (payment_by_key_taken _ _ _ Hkey) as Htaken.
  unfold CreatePayment. destruct (validate_payment ctx key req) as [refusal|[[[rider amount] cur] ml]] eqn:Ev.
  { apply wp_ret. unfold validate_payment in Ev.
    repeat first [case_decide | case_match]; simplify_eq; split_and!; simpl; try done; lia. }
  apply wp_bind, wp_begin; intros s1; [|apply wp_ret; split_and!; simpl; done || lia].
  apply wp_bind, wp_tx_query; intros s2; [|apply wp_ret; split_and!; simpl; done || lia].
  apply wp_bind. eapply wp_mono; [|apply price_payment_spec].
  intros r w3 ((E1 & E2 & E3 & E4) & Eu & Hpr). simpl in E1, E2, E3, E4.
  destruct r as [[[charge rv] sp]|e]; [|apply wp_ret; split_and!; simpl; done || lia].
  apply wp_bind, wp_gets, wp_bind, wp_new_uuid, wp_bind, wp_tx_exec; intros s4.
  - intros [] g Hg. exfalso. simpl in Hg. unfold insert_payment in Hg. cbn [p_key p_id] in Hg.
    rewrite E1, Htaken in Hg. by destruct (_ !! _).
  - intros e _. assert (forall s, same_store w (with_sched s (with_uuids (w_uuids w3 + 1)%nat w3))) as Hs by done.
    destruct e as [|code|?| |?]; try by (apply wp_ret; split_and!; simpl; done || lia).
    case_decide; [|apply wp_ret; split_and!; simpl; done || lia].
    unfold replay_payment. apply wp_bind, wp_db_query; intros s5; simpl;
      [|apply wp_ret; split_and!; simpl; done || lia].
    rewrite E1, Hkey. destruct (_ && _) eqn:Eo; apply wp_ret; [split_and!; simpl; done || lia|].
    split_and!; [done..| |by left].
    intros _. split; [done|]. rewrite andb_false_iff, !negb_false_iff, bool_decide_eq_true in Eo. tauto.
  - apply wp_ret. split_and!; simpl; done || lia.
Qed.
End Rows.

(** ** Rider wallets *)

(** Every rider has a wallet of their own, at 1001 or above. *)
Definition wallets_ok (d : DB) : Prop :=
  forall sub a, rider_accounts d !! sub = Some a -> 1001 <= a /\
    forall sub', rider_accounts d !! sub' = Some a -> sub = sub'.

Lemma alloc_frame_wallets sub d d' : wallets_ok d -> alloc_frame sub d d' -> wallets_ok d'.
Proof.
  intros Hok [->|[Hn ->]]; [done|]. set (n := default 1000 (max_account (rider_accounts d)) + 1).
  assert (forall s a, rider_accounts d !! s = Some a -> a < n) as Hlt.
  { intros s a Hs. destruct (max_account_ge _ _ _ Hs) as (x & Hx & ?). unfold n. rewrite Hx. simpl. lia. }
  assert (1001 <= n) as Hge.
  { unfold n. destruct (max_account (rider_accounts d)) as [x|] eqn:E; simpl; [|lia].
    destruct (map_choose (rider_accounts d)) as (k & a & Hk); [by intros Hm; rewrite Hm in E|].
    destruct (max_account_ge _ _ _ Hk) as (x' & Hx' & ?). destruct (Hok k a Hk). simplify_eq. lia. }
  intros s a Hs. simpl in *. rewrite lookup_insert in Hs. case_decide; simplify_eq.
  - split; [done|]. intros s' Hs'. rewrite lookup_insert in Hs'. case_decide; [done|].
    specialize (Hlt s' _ Hs'). lia.
  - destruct (Hok s a Hs) as [Ha Hinj]. split; [done|]. intros s' Hs'. rewrite lookup_insert in Hs'.
    case_decide; simplify_eq; [|by apply Hinj]. specialize (Hlt s _ Hs). lia.
Qed.

Section WalletTheorem.
Context {L : Type} `{Ledger L} `{Runtime}.

(** Riders never share a wallet: [CreatePayment] under any faults and retries
    of the allocation keeps every rider on a ledger account of their own, at
    1001 or above, and an account once given is kept. *)
Theorem rider_wallets_distinct (endpoint : string) (ctx : claims) (key : string)
    (req : option createPaymentRequest) (w : World DB L) (Hok : wallets_ok (w_db w)) :
  let d' := w_db (CreatePayment endpoint ctx key req w).2 in
  wallets_ok d' /\
  forall sub a, rider_accounts (w_db w) !! sub = Some a -> rider_accounts d' !! sub = Some a.
Proof.
  intros d'. destruct (create_payment_spec endpoint ctx key req w) as [(E & _)|Hrun].
  { unfold d'. by rewrite E. }
  destruct Hrun as (who & amount & cur & ml & charge & rv & sp & _ & _ & _ & _ & d1 & Al & _ & _ & Hend).
  assert (rider_accounts d' = rider_accounts d1) as Ed.
  { unfold d'. destruct Hend as [-> _ _|bid st tb mlx p _ -> _ _|bid st tb mlx p evs _ (?&?&?&->) _ _ _ _];
      [done|apply committed_accounts|cbn [rider_accounts]; apply committed_accounts]. }
  split.
  - pose proof (alloc_frame_wallets _ _ _ Hok Al) as Hw. unfold wallets_ok. by rewrite Ed.
  - intros sub a Ha. rewrite Ed. by eapply alloc_frame_lookup.
Qed.
End WalletTheorem.

(** ** One debit per idempotency key *)

(** A client's attempt at a payment: who asks for what, when, and how the
    environment behaves meanwhile. *)
Record attempt : Type := mkAttempt {
  at_endpoint : string; at_ctx : claims; at_req : option createPaymentRequest;
  at_now : Z; at_sched : list outcome; at_http : list http_outcome
}.

Section Debits.
Context {L : Type} `{LedgerSpec L}.
Implicit Types w : World DB L.

Definition run_attempt (key : string) w (a : attempt) : World DB L :=
  (CreatePayment (at_endpoint a) (at_ctx a) key (at_req a)
     (with_now (at_now a) (with_sched (at_sched a) (with_http (at_http a) w)))).2.

Definition run_attempts (key : string) w (l : list attempt) : World DB L := foldl (run_attempt key) w l.

Lemma charge_range charge : 0 < charge -> i64 charge -> 0 < charge < two63.
Proof. unfold i64. lia. Qed.

(** One request moves the ledger by at most one posting under its key. *)
Lemma create_payment_ledger endpoint ctx key req w :
  request_typed req -> led_ok (w_led w) ->
  let w' := (CreatePayment endpoint ctx key req w).2 in
  let id := DeterministicTransferID key in
  led_ok (w_led w') /\
  ((forall x, led_balance (w_led w') x = led_balance (w_led w) x) /\
     (forall i, led_posted (w_led w') i = led_posted (w_led w) i) \/
   led_posted (w_led w) id = false /\
   exists account charge, 0 < charge < two63 /\
     rider_accounts (w_db w') !! Subject ctx = Some account /\
     (forall x, led_balance (w_led w') x
       = led_balance (w_led w) x + delta account OperatorRevenueAccount charge x) /\
     (forall i, led_posted (w_led w') i = if decide (i = id) then true else led_posted (w_led w) i)).
Proof.
  intros Ht Hok w' id.
  destruct (create_payment_spec endpoint ctx key req w) as [(_ & E & _)|Hrun].
  { fold w' in E. rewrite E. split; [done|by left]. }
  destruct Hrun as (who & amount & cur & ml & charge & rv & sp & Hv & Hpr & Hid & Hk & Hrun).
  apply validate_payment_ok in Hv as (-> & _ & _ & _ & _ & Hi).
  pose proof (priced_i64 _ _ _ _ _ _ _ (Hi Ht) Hpr) as Hci.
  fold w' in Hrun. destruct Hrun as (d1 & Al & _ & [El|(lr & account & Hacc & Hpos & Htr)] & Hend).
  { rewrite El. split; [done|by left]. }
  destruct (posting_step _ _ _ _ _ _ _ _ Hok (charge_range _ Hpos Hci) Htr)
    as [Hok' [?|(Hn & _ & Hb & Hp)]]; (split; [done|]); [by left|].
  right. split; [done|]. exists account, charge. pose proof (charge_range _ Hpos Hci).
  split_and!; [lia|lia| |done|done].
  destruct Hend as [D _ _|bid st tb mlx p _ D _ _|bid st tb mlx p evs _ (?&?&?&D) _ _ _ _].
  - by rewrite D.
  - by rewrite D, committed_accounts.
  - rewrite D. cbn [rider_accounts]. by rewrite committed_accounts.
Qed.

(** The effect of a fare: a positive amount from a wallet to operator revenue. *)
Definition fare_debit (f : Z -> Z) : Prop :=
  exists account charge, 0 < charge < two63 /\ f = delta account OperatorRevenueAccount charge.

(** C2: at most one debit per idempotency key: over any sequence of attempts with
    the same key, by any callers, amounts, times and faults (lost statements,
    lost commits, postings whose reply was lost), the ledger moves by one
    transfer from one wallet to operator revenue, or not at all. *)
Theorem one_debit_per_idempotency_key (key : string) (w : World DB L) (l : list attempt)
    (Htyped : Forall (fun a => request_typed (at_req a)) l) (Hok : led_ok (w_led w)) :
  let w' := run_attempts key w l in
  (forall x, led_balance (w_led w') x = led_balance (w_led w) x) \/
  exists account charge, 0 < charge < two63 /\
    forall x, led_balance (w_led w') x
      = led_balance (w_led w) x + delta account OperatorRevenueAccount charge x.
Proof.
  destruct (posts_once w_led (run_attempt key) (fun w => led_ok (w_led w))
    (fun a => request_typed (at_req a)) (DeterministicTransferID key) fare_debit) with (l := l) (w := w)
    as [_ [[Hb _]|(_ & _ & f & (account & charge & Hc & ->) & Hb)]]; [|done|done|by left|right; eauto].
  intros w1 a Ha Hok1.
  pose proof (create_payment_ledger (at_endpoint a) (at_ctx a) key (at_req a)
    (with_now (at_now a) (with_sched (at_sched a) (with_http (at_http a) w1))) Ha Hok1) as Hstep.
  cbv zeta in Hstep. fold (run_attempt key w1 a) in Hstep. cbn [w_led with_now with_sched with_http] in Hstep.
  destruct Hstep as [Hok2 [[Hb Hp]|(Hn & account & charge & Hc & _ & Hb & Hp)]]; (split; [done|]).
  - by left.
  - right. rewrite Hp, decide_True by done. split_and!; [done..|].
    eexists. split; [by exists account, charge|done].
Qed.

(** A settlement event is never ahead of the books: for every
    [fare.payment.settled] a request publishes, the named payment is committed
    as settled with the announced charge, and unless there was nothing to pay
    the ledger has posted the transfer of the request's idempotency key. *)
Theorem settled_event_is_backed (endpoint : string) (ctx : claims) (key : string)
    (req : option createPaymentRequest) (w : World DB L)
    (Htyped : request_typed req) (Hok : led_ok (w_led w)) :
  let w' := (CreatePayment endpoint ctx key req w).2 in
  exists evs, w_bus w' = w_bus w ++ evs /\
    forall e, e ∈ evs -> ev_topic e = "fare.payment.settled"%string ->
    exists p charge, fare_payments (w_db w') !! p_id p = Some p /\
      p_status p = "settled"%string /\ p_rider p = Subject ctx /\ p_charged p = Some charge /\
      jget "payment_id" (ev_data e) = Some (JStr (p_id p)) /\
      jget "charged_minor" (ev_data e) = Some (JInt charge) /\
      (0 < charge -> p_tb p = Some (uint128_string (DeterministicTransferID key)) /\
                     led_posted (w_led w') (DeterministicTransferID key) = true).
Proof.
  intros w'.
  destruct (create_payment_spec endpoint ctx key req w) as [(_ & _ & E & _)|Hrun].
  { fold w' in E. rewrite E. exists []. rewrite app_nil_r. split; [done|]. intros e He; by apply not_elem_of_nil in He. }
  destruct Hrun as (who & amount & cur & ml & charge & rv & sp & Hv & Hpr & Hid & Hk & Hrun).
  apply validate_payment_ok in Hv as (-> & _ & _ & _ & _ & Hi).
  pose proof (priced_i64 _ _ _ _ _ _ _ (Hi Htyped) Hpr) as Hci. fold w' in Hrun.
  destruct Hrun as (d1 & Al & _ & _ & Hend).
  destruct Hend as [_ D _|bid st tb mlx p _ _ D _|bid st tb mlx p evs D1 (?&?&?&D2) _ D4 D5 _].
  1,2: rewrite D; exists []; rewrite app_nil_r; split; [done|]; intros e He; by apply not_elem_of_nil in He.
  exists evs. split; [done|]. intros e He Htop.
  destruct (proj1 (list.Forall_forall _ _) D5 e He) as (Hj1 & Hj2 & Hst).
  assert (st = "settled"%string) as -> by (destruct Hst as [?|[[? _]|[_ ?]]]; congruence).
  exists p, charge. split_and!; try done.
  - rewrite D2. cbn [fare_payments]. rewrite committed_payments. apply lookup_insert_eq.
  - intros Hpos. destruct (D1 eq_refl) as [[? _]|(h & Hh & account & Hacc & _ & Htr)]; [lia|].
    destruct (posting_done _ _ _ _ _ _ _ _ Hok (charge_range _ Hpos Hci) Htr) as [? ->]. done.
Qed.
End Debits.

(** ** Corporate payers, a funded wallet, and the read handlers *)

Lemma committed_charges bid rv p d1 :
  billing_charges (committed_db bid rv p d1)
  = match rv_payer rv with
    | Some payer =>
        let covered := wrap_i64 (p_amount p - effectiveCharged p) in
        if 0 <? covered
        then <[bid := mkBillingCharge bid payer (p_id p) (rv_ent rv) covered None (p_created p)]>
               (billing_charges d1)
        else billing_charges d1
    | None => billing_charges d1
    end.
Proof.
  unfold committed_db. cbn [put_payment billing_charges]. unfold billing_put.
  destruct (rv_payer rv); [|done]. cbv zeta. by destruct (0 <? _).
Qed.

Lemma loyalty_frame_charges d d' : loyalty_frame d d' -> billing_charges d' = billing_charges d.
Proof. by intros (?&?&?&->). Qed.

Lemma loyalty_frame_payments d d' : loyalty_frame d d' -> fare_payments d' = fare_payments d.
Proof. by intros (?&?&?&->). Qed.

Lemma loyalty_frame_accounts d d' : loyalty_frame d d' -> rider_accounts d' = rider_accounts d.
Proof. by intros (?&?&?&->). Qed.

Lemma alloc_frame_charges rider d d' : alloc_frame rider d d' -> billing_charges d' = billing_charges d.
Proof. by intros [->|[_ ->]]. Qed.

Section Readers.
Context {L : Type} `{Ledger L} `{Runtime}.
Implicit Types w : World DB L.

(** A payer-backed fare is accounted for in full: when a payment of a rider
    whose best entitlement names a corporate payer is committed, what the
    rider is charged and what is accrued to the payer add up to the fare, and
    the accrual is an uninvoiced charge of that payer for this payment. *)
Theorem corporate_accrual_completes_fare (endpoint : string) (ctx : claims) (key : string)
    (req : option createPaymentRequest) (w : World DB L) (p : Payment) (payer : string)
    (Hpct : Forall (fun r => er_pct r <= 100) (active_entitlements (Subject ctx) (w_now w) (w_db w)))
    (Hmax : p_amount p * 100 < two63)
    (Hnew : fare_payments (w_db w) !! p_id p = None)
    (Hrow : fare_payments (w_db (CreatePayment endpoint ctx key req w).2) !! p_id p = Some p)
    (Hpayer : rv_payer (resolveEntitlement (active_entitlements (Subject ctx) (w_now w) (w_db w))
                (p_amount p)) = Some payer) :
  effectiveCharged p = p_amount p \/
  exists c, billing_charges (w_db (CreatePayment endpoint ctx key req w).2) !! bc_id c = Some c /\
    bc_payment c = p_id p /\ bc_account c = payer /\ bc_invoice c = None /\
    0 < bc_amount c /\ effectiveCharged p + bc_amount c = p_amount p.
Proof.
  set (w' := (CreatePayment endpoint ctx key req w).2) in *.
  destruct (create_payment_spec endpoint ctx key req w) as [(E & _)|Hrun].
  { fold w' in E. rewrite E, Hnew in Hrow. done. }
  destruct Hrun as (who & amount & cur & ml & charge & rv & sp & Hv & Hpr & Hid & Hk & Hrun).
  apply validate_payment_ok in Hv as (-> & _ & _ & Hamt & _ & _). fold w' in Hrun.
  destruct Hrun as (d1 & Al & _ & _ & Hend).
  assert (fare_payments d1 = fare_payments (w_db w)) as Hf1 by by destruct Al as [->|[_ ->]].
  assert (exists bid st tb ml', let p' := new_payment (uuid_of (w_uuids w)) (Subject ctx) amount charge cur key
      (w_now w) st tb ml' in
    fare_payments (w_db w') = <[p_id p' := p']> (fare_payments (w_db w)) /\
    billing_charges (w_db w') = billing_charges (committed_db bid rv p' d1))
    as (bid & st & tb & ml' & Ep & Eb).
  { destruct Hend as [D1 D2 D3|bid st tb mlx q D1 D2 D3 D4|bid st tb mlx q evs D1 D2 D3 D4 D5 D6].
    - rewrite D1, Hf1, Hnew in Hrow. done.
    - exists bid, st, tb, mlx. cbv zeta. rewrite D2, committed_payments, Hf1. done.
    - exists bid, st, tb, mlx. cbv zeta.
      rewrite (loyalty_frame_payments _ _ D2), committed_payments, Hf1, (loyalty_frame_charges _ _ D2). done. }
  rewrite committed_charges in Eb.
  rewrite Ep, lookup_insert in Hrow. case_decide as Hd; [|congruence]. simplify_eq. cbn in *.
  unfold effectiveCharged; cbn.
  apply priced_charge in Hpr as (-> & Hn & Hp). rewrite resolve_charge in *.
  pose proof (fare_after_bounds _ _ Hpct Hamt Hmax) as Hb.
  assert (0 <= charge <= amount) as Hc.
  { destruct (decide (0 < fare_after (active_entitlements (Subject ctx) (w_now w) (w_db w)) amount));
      [specialize (Hp ltac:(done)); lia|rewrite Hn by lia; lia]. }
  rewrite Hpayer in Eb. unfold effectiveCharged in Eb. cbn in Eb.
  rewrite wrap_i64_id in Eb by (unfold i64, two63 in *; lia).
  destruct (Z.ltb_spec 0 (amount - charge)); [|left; lia].
  right. eexists (mkBillingCharge bid payer _ _ (amount - charge) None _).
  rewrite Eb. split_and!; [apply lookup_insert_eq|..]; simpl; try done; lia.
Qed.

(** The read handlers keep riders apart: without a staff role, [GetPayment]
    shows only a payment of the caller and [ListPayments] only payments of the
    caller, whatever filter the caller asks for. *)
Theorem payment_reads_are_private (ctx : claims) (id filter st : string) (w : World DB L)
    (Hrider : staff ctx = false) (Hsub : Subject ctx <> "") :
  (status (GetPayment ctx id w).1 = 200 ->
   exists p, fare_payments (w_db w) !! id = Some p /\ p_rider p = Subject ctx /\
     (GetPayment ctx id w).1 = mkResponse 200 (payment_json p)) /\
  (status (ListPayments ctx filter st w).1 = 200 ->
   exists ps, (ListPayments ctx filter st w).1
       = mkResponse 200 (JObj [("payments", JList (map payment_json ps))]) /\
     Forall (fun p => p_rider p = Subject ctx) ps).
Proof.
  split.
  - change (wp (GetPayment ctx id) (fun r _ => status r = 200 -> exists p,
      fare_payments (w_db w) !! id = Some p /\ p_rider p = Subject ctx /\
      r = mkResponse 200 (payment_json p)) w).
    unfold GetPayment. apply wp_bind, wp_db_query; intros s; [|by apply wp_ret].
    unfold payment_by_id. destruct (fare_payments (w_db w) !! id) as [p|]; [|by apply wp_ret].
    rewrite Hrider, andb_true_r. destruct (bool_decide _) eqn:E; simpl; [|by apply wp_ret].
    apply bool_decide_eq_true in E. apply wp_ret. intros _. by exists p.
  - change (wp (ListPayments ctx filter st) (fun r _ => status r = 200 -> exists ps,
      r = mkResponse 200 (JObj [("payments", JList (map payment_json ps))]) /\
      Forall (fun p => p_rider p = Subject ctx) ps) w).
    unfold ListPayments. rewrite Hrider. cbv zeta. apply wp_bind, wp_db_query; intros s; [|by apply wp_ret].
    apply wp_ret. intros _. eexists. split; [done|].
    apply list.Forall_forall. intros p Hp%elem_of_order_desc. apply list_elem_of_filter in Hp as [[[?|?] _] _]; done.
Qed.
End Readers.

(** ** Without faults a payment follows the ledger *)

(** The account number of a rider's wallet: the one on record, or the one
    that the first payment allocates. *)
Definition wallet_of (rider : string) (d : DB) : Z :=
  match rider_accounts d !! rider with
  | Some account => account
  | None => default 1000 (max_account (rider_accounts d)) + 1
  end.

(** The accrual of a payer-backed entitlement violates no key of billing_charges. *)
Definition accrual_admitted (rv : resolution) (covered : Z) (payment fresh : string) (d : DB) : Prop :=
  match rv_payer rv with
  | Some payer => 0 < covered ->
      find_row (fun x => bool_decide (bc_payment x = payment)) (billing_charges d) = None /\
      billing_charges d !! fresh = None /\ is_Some (billing_accounts d !! payer) /\
      is_Some (rider_entitlements d !! rv_ent rv)
  | None => True
  end.

(** An event of that topic about that payment. *)
Definition announces (topic payment : string) (evs : list event) : Prop :=
  exists e, e ∈ evs /\ ev_topic e = topic /\ jget "payment_id" (ev_data e) = Some (JStr payment).

Section FaultFree.
Context {L : Type} `{Ledger L} `{Runtime}.
Implicit Types w : World DB L.

Lemma price_payment_done tx rider amount w v (Q : result (Z * resolution * Z) -> World DB L -> Prop) :
  w_sched w = [] -> priced (tx (w_db w)) (w_now w) rider amount = Ok v -> Q (Ok v) w ->
  wp (price_payment tx rider amount) Q w.
Proof.
  intros Hs Hp HQ. unfold price_payment, priced, day_of in *.
  apply wp_bind, wp_gets, wp_bind, wp_tx_query_done; [done|]. cbn beta iota zeta.
  destruct (_ && _); [|simplify_eq; by apply wp_ret].
  apply wp_bind, wp_tx_query_done; [done|]. destruct (spent_query _ _ _); [|done]. simplify_eq. by apply wp_ret.
Qed.

Lemma accrue_billing_done tx payment amount charge rv w (Q : result (Tx DB) -> World DB L -> Prop) :
  w_sched w = [] -> accrual_admitted rv (wrap_i64 (amount - charge)) payment (uuid_of (w_uuids w)) (tx (w_db w)) ->
  (forall tx' n, (forall d, fare_payments (tx' d) = fare_payments (tx d) /\ rider_accounts (tx' d) = rider_accounts (tx d)) ->
     Q (Ok tx') (with_uuids n w)) ->
  wp (accrue_billing tx payment amount charge rv) Q w.
Proof.
  intros Hs Hadm HQ. assert (Q (Ok tx) w) as HQ0 by (specialize (HQ tx (w_uuids w) (fun _ => conj eq_refl eq_refl)); by destruct w).
  unfold accrue_billing, accrual_admitted in *. destruct (rv_payer rv) as [payer|]; [|by apply wp_ret].
  cbv zeta. destruct (Z.ltb_spec 0 (wrap_i64 (amount - charge))) as [Hc|]; [|by apply wp_ret].
  destruct (Hadm Hc) as (Hf & Hn & [a Ha] & [e He]).
  apply wp_bind, wp_gets, wp_bind, wp_new_uuid, wp_bind. eapply wp_tx_exec_done; [done| |].
  { unfold insert_billing_charge. cbn [bc_amount bc_payment bc_id bc_account bc_entitlement w_db with_uuids].
    rewrite (proj2 (Z.leb_gt _ _) Hc), Hf, Hn, Ha, He. done. }
  cbn beta iota. apply wp_ret. by apply HQ.
Qed.

Lemma riderAccount_done sub w (Q : result Z -> World DB L -> Prop) :
  w_sched w = [] ->
  (forall d, fare_payments d = fare_payments (w_db w) -> rider_accounts d !! sub = Some (wallet_of sub (w_db w)) ->
     Q (Ok (wallet_of sub (w_db w))) (with_db d w)) ->
  wp (riderAccount sub) Q w.
Proof.
  intros Hs HQ. unfold riderAccount. cbn [riderAccount_loop]. apply wp_bind, wp_begin_done, wp_bind; [done|].
  unfold wallet_of in *. destruct (rider_accounts (w_db w) !! sub) as [account|] eqn:Ha.
  - eapply wp_tx_exec_done; [done|unfold allocate_account; by rewrite Ha|]. simpl.
    apply wp_bind, wp_tx_query_done; [done|]. unfold account_of. rewrite Ha.
    apply wp_bind, wp_commit_done; [done|]. apply wp_ret. by apply HQ.
  - set (n := default 1000 (max_account (rider_accounts (w_db w))) + 1) in *.
    eapply wp_tx_exec_done; [done| |].
    { unfold allocate_account. rewrite Ha. fold n.
      assert (find_row (fun a => a =? n) (rider_accounts (w_db w)) = None) as ->; [|done].
      apply find_row_None. intros k a Hk. destruct (max_account_ge _ _ _ Hk) as (x & Hx & ?).
      apply Z.eqb_neq. unfold n. rewrite Hx. simpl. lia. }
    simpl. apply wp_bind, wp_tx_query_done; [done|]. unfold account_of. cbn. rewrite lookup_insert_eq.
    apply wp_bind, wp_commit_done; [done|]. apply wp_ret, HQ; [done|]. cbn. by rewrite lookup_insert_eq.
Qed.

(** What the ledger answers to the debit of a payment; nothing is asked for a
    free ride. *)
Definition debit_answer (key : string) (account charge : Z) (l : L) : result (option string) * L :=
  if 0 <? charge
  then let '(r, l) := led_Transfer l (DeterministicTransferID key) account OperatorRevenueAccount (wrap_u64 charge) CodeFare in
       (result_map Some r, l)
  else (Ok None, l).

Lemma settle_ledger_done rider key charge w (Q : result settlement -> World DB L -> Prop) :
  w_sched w = [] ->
  (forall d, fare_payments d = fare_payments (w_db w) ->
     (0 < charge -> rider_accounts d !! rider = Some (wallet_of rider (w_db w))) ->
     let '(r, l) := debit_answer key (wallet_of rider (w_db w)) charge (w_led w) in
     Q (Ok (match r with
            | Ok tb => mkSettlement "settled" tb false
            | Err e => mkSettlement "failed" None (bool_decide (e = ErrInsufficientFunds))
            end)) (with_led l (with_db d w))) ->
  wp (settle_ledger rider key charge) Q w.
Proof.
  intros Hs HQ. unfold settle_ledger, debit_answer in *. destruct (Z.ltb_spec 0 charge) as [Hc|Hc].
  - apply wp_bind, riderAccount_done; [done|]. intros d Hf Ha. cbn beta iota. apply wp_bind.
    specialize (HQ d Hf (fun _ => Ha)).
    destruct (led_Transfer (w_led w) _ _ _ _ _) as [r l] eqn:Et. eapply wp_led_call_done; [done|exact Et|].
    destruct r as [h|e]; cbn in HQ; [by apply wp_ret|]. case_bool_decide; subst; [by apply wp_ret|]. destruct e; by try apply wp_ret.
  - apply wp_ret. assert (Hd : with_led (w_led w) (with_db (w_db w) w) = w) by by destruct w.
    rewrite <- Hd. apply HQ; [done|lia].
Qed.
End FaultFree.

Lemma let_wp {D S A} (m : M D S A) (P : A -> World D S -> Prop) w : wp m P w -> let '(r, w') := m w in P r w'.
Proof. unfold wp. by destruct (m w). Qed.

Section Outcome.
Context {L : Type} `{LedgerSpec L}.
Implicit Types w : World DB L.

Lemma debit_answer_balance key account charge (l : L) :
  led_ok l -> charge < two63 ->
  let '(r, l') := debit_answer key account charge l in
  match r with
  | Ok _ => 0 < charge -> led_posted l (DeterministicTransferID key) = false -> forall x,
      led_balance l' x = led_balance l x + delta account OperatorRevenueAccount charge x
  | Err _ => forall x, led_balance l' x = led_balance l x
  end.
Proof.
  intros Hok Hlt. unfold debit_answer. destruct (Z.ltb_spec 0 charge) as [Hc|Hc]; [|intros; lia].
  rewrite wrap_u64_id by (unfold u64, two63, two64 in *; lia).
  destruct (led_Transfer _ _ _ _ _ _) as [[h|e] l'] eqn:Et; cbn.
  - intros _ Hn. apply (ledger_success _ _ _ _ _ _ _ _ Hok (conj (Z.lt_le_incl _ _ Hc) Hlt) Hn Et).
  - apply (ledger_error _ _ _ _ _ _ _ _ Hok (conj (Z.lt_le_incl _ _ Hc) Hlt) Et).
Qed.

(** C16: without faults a payment does what the ledger says.  Whatever the
    ledger behind the interface, for a valid payment with a new key and no
    Mojaloop leg, whose corporate accrual (if any) breaks no key: the rider's
    wallet is debited once, by the priced charge, under the transfer id of the
    key (a free ride asks nothing of the ledger; a first payment allocates the
    wallet); if the ledger accepts, the answer is 201, the payment is committed
    as settled with the ledger's handle, its settlement is announced, and the
    balances have moved by exactly the charge, unless that id had been posted
    before; if it refuses, the payment is committed and announced as failed, no
    balance moves, and the answer is 402 for a lack of funds and 502 otherwise. *)
Theorem payment_follows_ledger (endpoint key rider cur : string) (ctx : claims)
    (req : option createPaymentRequest) w (amount charge sp : Z) (rv : resolution)
    (Hsched : w_sched w = [])
    (Hvalid : validate_payment ctx key req = inr (rider, amount, cur, false))
    (Hpriced : priced (w_db w) (w_now w) rider amount = Ok (charge, rv, sp))
    (Hcharge : charge < two63)
    (Hid : fare_payments (w_db w) !! uuid_of (w_uuids w) = None)
    (Hkey : key_taken (Some key) (w_db w) = false)
    (Haccrual : accrual_admitted rv (wrap_i64 (amount - charge)) (uuid_of (w_uuids w)) (uuid_of (w_uuids w + 1)) (w_db w))
    (Hok : led_ok (w_led w)) :
  let '(answer, l) := debit_answer key (wallet_of rider (w_db w)) charge (w_led w) in
  let '(r, w') := CreatePayment endpoint ctx key req w in
  let row st tb := new_payment (uuid_of (w_uuids w)) rider amount charge cur key (w_now w) st tb None in
  w_led w' = l /\ (0 < charge -> rider_accounts (w_db w') !! rider = Some (wallet_of rider (w_db w))) /\
  match answer with
  | Ok tb =>
      let p := row "settled"%string tb in
      r = mkResponse 201 (payment_json p) /\ fare_payments (w_db w') = <[p_id p := p]> (fare_payments (w_db w)) /\
      announces "fare.payment.settled" (p_id p) (w_bus w') /\
      (0 < charge -> led_posted (w_led w) (DeterministicTransferID key) = false -> forall x,
         led_balance (w_led w') x = led_balance (w_led w) x + delta (wallet_of rider (w_db w)) OperatorRevenueAccount charge x)
  | Err e =>
      let p := row "failed"%string None in
      status r = (if decide (e = ErrInsufficientFunds) then 402 else 502) /\
      fare_payments (w_db w') = <[p_id p := p]> (fare_payments (w_db w)) /\
      announces "fare.payment.failed" (p_id p) (w_bus w') /\
      forall x, led_balance (w_led w') x = led_balance (w_led w) x
  end.
Proof.
  pose proof (debit_answer_balance key (wallet_of rider (w_db w)) charge (w_led w) Hok Hcharge) as Hbal.
  destruct (debit_answer _ _ _ _) as [answer l] eqn:Eans.
  apply let_wp. cbv zeta. unfold CreatePayment. rewrite Hvalid.
  apply wp_bind, wp_begin_done, wp_bind, wp_tx_query_done, wp_bind; [done..|].
  eapply price_payment_done; [done..|].
  apply wp_bind, wp_gets, wp_bind, wp_new_uuid, wp_bind.
  eapply wp_tx_exec_done; [done|unfold insert_payment; cbn [w_db with_uuids p_id p_key]; rewrite Hid, Hkey; done|].
  cbn beta iota. unfold settle_payment. apply wp_bind, accrue_billing_done; [done|exact Haccrual|].
  intros tx' n Htx. cbn beta iota. apply wp_bind, settle_ledger_done; [done|].
  cbn [w_db w_led with_uuids]. intros d Hf Ha. rewrite Eans. cbn beta iota.
  apply wp_bind. unfold mojaloop_leg. cbn [andb]. apply wp_ret, wp_bind. cbn beta iota.
  destruct (Htx d) as [Hpay Hacc].
  eapply wp_tx_exec_done; [done| |].
  { unfold finalize_payment. cbn [w_db with_led with_db]. rewrite Hpay. cbn. by rewrite lookup_insert_eq. }
  apply wp_bind, wp_commit_done; [done|]. cbn beta iota. unfold conclude_payment.
  apply wp_bind, wp_publish_done; [done|]. destruct answer as [tb|e]; cbn [st_status st_tb st_insufficient].
  - rewrite bool_decide_eq_true_2 by done. cbn [negb].
    unfold conclude_settled. apply wp_bind, wp_gets, wp_bind, wp_publish_done; [done|].
    apply wp_bind. eapply wp_mono; [|apply accrue_spec]. intros r0 w' (d' & s3 & n' & -> & Hfr). apply wp_ret.
    cbn [w_db w_led w_bus with_db with_led with_bus with_sched with_uuids] in *. split_and!; [done| |done| | |done].
    + intros Hc. rewrite (loyalty_frame_accounts _ _ Hfr). cbn. rewrite Hacc. by apply Ha.
    + rewrite (loyalty_frame_payments _ _ Hfr). cbn. rewrite Hpay. cbn. by rewrite insert_insert_eq, Hf.
    + eexists. split; [apply elem_of_app; right; by left|]. by split.
  - rewrite bool_decide_eq_false_2 by done. cbn [negb].
    unfold conclude_failed. apply wp_bind, wp_gets. cbv zeta. apply wp_bind, wp_publish_done; [done|].
    destruct (decide (e = ErrInsufficientFunds)) as [He|He];
      [rewrite (bool_decide_eq_true_2 _ He)|rewrite (bool_decide_eq_false_2 _ He)]; apply wp_ret;
      cbn [w_db w_led w_bus with_db with_led with_bus with_sched with_uuids] in *; (split_and!; [done| |done| | |done]);
      cbn; rewrite ?Hacc, ?Hpay; cbn; rewrite ?insert_insert_eq, ?Hf; try done;
      (eexists; split; [apply elem_of_app; right; by left|by split]).
Qed.
End Outcome.

(** ** Concrete runs *)

#[local] Existing Instance test_runtime.

Definition alice : claims := claims_of "alice" [].
Definition bob : claims := claims_of "bob" [].

(** Alice has wallet 1001 with 10.00 in it; a corporate account pays half her fares. *)
Definition demo_db : DB :=
  mkDB ∅ {[ "alice" := 1001 ]}
    {[ "prod" := mkFareProduct "prod" "half" "discount" (Some 50) 0 30 "" true 0 ]}
    {[ "ent" := mkEntitlement "ent" "alice" "prod" 0 1000000000 (Some "corp") "admin" 0 ]}
    ∅ ∅ ∅ ∅ {[ "corp" := mkBillingAccount "corp" "Corp" "corporate" "" 5001 "active" 0 ]} ∅ ∅.

Definition plain_db : DB := mkDB ∅ {[ "alice" := 1001 ]} ∅ ∅ ∅ ∅ ∅ ∅ ∅ ∅ ∅.

Definition demo_world (d : DB) (s : list outcome) : World DB simulated :=
  mkWorld d sim_example [] 1000 0 s [] [].

Definition demo_request : option createPaymentRequest := Some (mkCreatePayment 250 "EUR" "" false).

Example demo_payment_status :
  let '(r, w') := CreatePayment "" alice "k1" demo_request (demo_world demo_db []) in
  (status r, spent_since "alice" 0 (w_db w'), map bc_amount (rows (billing_charges (w_db w'))),
   map ev_topic (w_bus w'), sim_balance (w_led w') 1001)
  = (201, 125, [125], ["fare.payment.initiated"; "fare.payment.settled"], 875).
Proof. vm_compute. reflexivity. Qed.

Lemma create_payment_respects_daily_cap_witness :
  0 < dailyCapMinor getenv /\
  spent_since "alice" (day_of 1000)
    (w_db (CreatePayment "" alice "k1" demo_request (demo_world demo_db [])).2)
  <= Z.max (dailyCapMinor getenv) (spent_since "alice" (day_of 1000) demo_db).
Proof.
  assert (0 < dailyCapMinor getenv) as H by (vm_compute; reflexivity).
  split; [exact H|].
  exact (create_payment_respects_daily_cap "" alice "k1" demo_request (demo_world demo_db []) "alice" H).
Defined.

(** The state after Alice's payment under key k1. *)
Definition paid_row : Payment :=
  mkPayment "pay" "alice" 250 (Some 250) "EUR" None None (Some "k1") "settled" 0 None 500.
Definition paid_db : DB := put_payment paid_row plain_db.

Definition replay_world : World DB simulated := demo_world paid_db [Done; Done; Done; Done; LostReply].

Lemma create_payment_replay_witness :
  payment_by_key "k1" (w_db replay_world) = Ok paid_row /\
  let r := (CreatePayment "" bob "k1" demo_request replay_world).1 in
  let w' := (CreatePayment "" bob "k1" demo_request replay_world).2 in
  same_store replay_world w' /\
  (status r = 200 -> body r = payment_json paid_row /\ (p_rider paid_row = Subject bob \/ staff bob = true)) /\
  (status r = 200 \/ 400 <= status r).
Proof.
  assert (payment_by_key "k1" (w_db replay_world) = Ok paid_row) as H by (vm_compute; reflexivity).
  split; [exact H|].
  exact (create_payment_replay "" bob "k1" demo_request replay_world paid_row H).
Defined.

(** A first attempt whose ledger reply is lost, then a clean retry. *)
Definition retry_history : list attempt :=
  [mkAttempt "" alice demo_request 1000 [Done; Done; Done; Done; Done; Done; Done; Done; Done; LostReply] [];
   mkAttempt "" alice demo_request 2000 [] []].

Lemma one_debit_per_idempotency_key_witness :
  let w' := run_attempts "k1" (demo_world plain_db []) retry_history in
  (forall x, led_balance (w_led w') x = led_balance sim_example x) \/
  exists account charge, 0 < charge < two63 /\
    forall x, led_balance (w_led w') x
      = led_balance sim_example x + delta account OperatorRevenueAccount charge x.
Proof.
  apply (one_debit_per_idempotency_key "k1" (demo_world plain_db []) retry_history).
  - repeat constructor; unfold request_typed, i64, two63; simpl; lia.
  - exact sim_example_ok.
Defined.

Lemma settled_event_is_backed_witness :
  let w' := (CreatePayment "" alice "k1" demo_request (demo_world demo_db [])).2 in
  exists evs, w_bus w' = [] ++ evs /\
    forall e, e ∈ evs -> ev_topic e = "fare.payment.settled"%string ->
    exists p charge, fare_payments (w_db w') !! p_id p = Some p /\
      p_status p = "settled"%string /\ p_rider p = Subject alice /\ p_charged p = Some charge /\
      jget "payment_id" (ev_data e) = Some (JStr (p_id p)) /\
      jget "charged_minor" (ev_data e) = Some (JInt charge) /\
      (0 < charge -> p_tb p = Some (uint128_string (DeterministicTransferID "k1")) /\
                     led_posted (w_led w') (DeterministicTransferID "k1") = true).
Proof.
  apply (settled_event_is_backed "" alice "k1" demo_request (demo_world demo_db [])).
  - unfold request_typed, i64, two63; simpl; lia.
  - exact sim_example_ok.
Defined.

Definition two_rows : list ent_row :=
  [mkEntRow "discount" 30 "student" "e1" None; mkEntRow "discount" 50 "half" "e2" (Some "corp")].

Lemma resolve_best_fare_witness :
  let v := resolveEntitlement two_rows 250 in
  rv_charge v = rv_charge (resolveEntitlement (rev two_rows) 250) /\
  0 <= rv_charge v <= 250 /\
  (forall r, r ∈ two_rows -> rv_charge v <= rv_charge (resolveEntitlement [r] 250)) /\
  (rv_charge v <> 250 ->
   exists r, r ∈ two_rows /\ rv_code v = er_code r /\ rv_ent v = er_ent r /\ rv_payer v = er_payer r /\
     rv_charge v = rv_charge (resolveEntitlement [r] 250)).
Proof.
  apply (resolve_best_fare two_rows (rev two_rows) 250).
  - apply Permutation_rev.
  - repeat constructor; simpl; lia.
  - lia.
  - unfold two63; lia.
Defined.

Definition demo_paid : Payment :=
  new_payment "uuid-0" "alice" 250 125 "EUR" "k1" 1000 "settled"
    (Some (uint128_string (DeterministicTransferID "k1"))) None.

Lemma corporate_accrual_completes_fare_witness :
  fare_payments (w_db (CreatePayment "" alice "k1" demo_request (demo_world demo_db [])).2) !! "uuid-0"
    = Some demo_paid /\
  (effectiveCharged demo_paid = p_amount demo_paid \/
   exists c, billing_charges (w_db (CreatePayment "" alice "k1" demo_request (demo_world demo_db [])).2)
      !! bc_id c = Some c /\
     bc_payment c = p_id demo_paid /\ bc_account c = "corp"%string /\ bc_invoice c = None /\
     0 < bc_amount c /\ effectiveCharged demo_paid + bc_amount c = p_amount demo_paid).
Proof.
  assert (fare_payments (w_db (CreatePayment "" alice "k1" demo_request (demo_world demo_db [])).2)
    !! "uuid-0" = Some demo_paid) as Hrow by (vm_compute; reflexivity).
  split; [exact Hrow|].
  apply (corporate_accrual_completes_fare "" alice "k1" demo_request (demo_world demo_db []) demo_paid "corp").
  - vm_compute. repeat constructor; discriminate.
  - vm_compute. reflexivity.
  - vm_compute. reflexivity.
  - exact Hrow.
  - vm_compute. reflexivity.
Defined.

Lemma payment_reads_are_private_witness :
  (status (GetPayment alice "pay" (demo_world paid_db [])).1 = 200 ->
   exists p, fare_payments paid_db !! "pay" = Some p /\ p_rider p = Subject alice /\
     (GetPayment alice "pay" (demo_world paid_db [])).1 = mkResponse 200 (payment_json p)) /\
  (status (ListPayments alice "bob" "" (demo_world paid_db [])).1 = 200 ->
   exists ps, (ListPayments alice "bob" "" (demo_world paid_db [])).1
       = mkResponse 200 (JObj [("payments", JList (map payment_json ps))]) /\
     Forall (fun p => p_rider p = Subject alice) ps).
Proof.
  apply (payment_reads_are_private alice "pay" "bob" "" (demo_world paid_db [])).
  - vm_compute. reflexivity.
  - vm_compute. discriminate.
Defined.

(** TigerBeetle after start-up and a top-up of wallet 1001 by 10.00. *)
Definition beetle_funded : beetle :=
  (tb_Transfer (tb_bootstrap (mkBeetle ∅ ∅ ∅) bootstrap_accounts).2 [7] RiderFundingAccount 1001 1000 CodeFare).2.

Lemma tb_bootstrap_ok accs (t : beetle) : tb_ok t -> tb_ok (tb_bootstrap t accs).2.
Proof.
  revert t. induction accs as [|[id code] accs IH]; intros t Hok; [done|]. cbn [tb_bootstrap].
  destruct (tb_EnsureAccount t id code) as [r t'] eqn:E. pose proof (tb_ok_ensure _ _ _ _ _ Hok E).
  destruct r; [by apply IH|done].
Qed.

Lemma beetle_funded_ok : tb_ok beetle_funded.
Proof.
  assert (tb_ok (mkBeetle ∅ ∅ ∅)) as H0 by (split; [intros x b E; cbn in E; by rewrite lookup_empty in E|done]).
  apply (tb_bootstrap_ok bootstrap_accounts) in H0. unfold beetle_funded.
  destruct (tb_Transfer _ _ _ _ _ _) as [r t'] eqn:Et.
  refine (@ledger_ok_step beetle _ _ tigerbeetle_spec _ _ _ _ _ _ _ _ H0 _ Et). unfold two63. lia.
Qed.

Definition beetle_world : World DB beetle := mkWorld demo_db beetle_funded [] 1000 0 [] [] [].

Definition beetle_paid : beetle :=
  Eval vm_compute in (tb_Transfer beetle_funded (DeterministicTransferID "k1") 1001 OperatorRevenueAccount 125 CodeFare).2.

Lemma payment_follows_ledger_witness :
  let w' := (CreatePayment "" alice "k1" demo_request beetle_world).2 in
  status (CreatePayment "" alice "k1" demo_request beetle_world).1 = 201 /\
  announces "fare.payment.settled" "uuid-0" (w_bus w') /\ led_balance (w_led w') 1001 = 875.
Proof.
  assert (debit_answer "k1" (wallet_of "alice" (w_db beetle_world)) 125 (w_led beetle_world)
    = (Ok (Some (uint128_string (DeterministicTransferID "k1"))), beetle_paid)) as Ea by (vm_compute; reflexivity).
  pose proof (payment_follows_ledger "" "k1" "alice" "EUR" alice demo_request beetle_world
    250 125 0 (mkResolution 125 "half" "ent" (Some "corp"))) as Hp.
  rewrite Ea in Hp. destruct (CreatePayment "" alice "k1" demo_request beetle_world) as [r w']. cbv zeta.
  destruct Hp as (_ & _ & -> & _ & Han & Hb).
  - reflexivity.
  - vm_compute. reflexivity.
  - vm_compute. reflexivity.
  - reflexivity.
  - vm_compute. reflexivity.
  - vm_compute. reflexivity.
  - intros _. vm_compute. split_and!; try reflexivity; eexists; reflexivity.
  - exact beetle_funded_ok.
  - split; [reflexivity|]. split; [exact Han|]. cbn [snd]. rewrite Hb by (vm_compute; reflexivity). vm_compute. reflexivity.
Defined.

(** A ride that the rider could not pay for is billed to the corporate payer
    all the same: the accrual is committed with the failed payment. *)
Lemma failed_payment_is_billed :
  let '(r, w') := CreatePayment "" alice "k1" demo_request (mkWorld demo_db newSimulated [] 1000 0 [] [] []) in
  status r = 402 /\ map p_status (rows (fare_payments (w_db w'))) = ["failed"] /\
  map (fun c => (bc_account c, bc_amount c, bc_invoice c)) (rows (billing_charges (w_db w'))) = [("corp", 125, None)].
Proof. vm_compute. split_and!; reflexivity. Qed.

(** Finding: the scoping of [ListPayments] is lost for a caller without a subject: with
    no staff role and no sub claim the rider filter is empty and the answer
    lists the payments of every rider. *)
Theorem subjectless_caller_lists_every_rider :
  let ctx : claims := Some [] in
  staff ctx = false /\ Subject ctx = ""%string /\
  (ListPayments ctx "" "" (demo_world paid_db [])).1
  = mkResponse 200 (JObj [("payments", JList [payment_json paid_row])]) /\ p_rider paid_row = "alice"%string.
Proof. vm_compute. split_and!; reflexivity. Qed.

Lemma rider_wallets_distinct_witness :
  let d' := w_db (CreatePayment "" bob "k1" demo_request (demo_world demo_db [])).2 in
  wallets_ok d' /\
  forall sub a, rider_accounts (w_db (demo_world demo_db [])) !! sub = Some a -> rider_accounts d' !! sub = Some a.
Proof.
  apply (rider_wallets_distinct "" bob "k1" demo_request (demo_world demo_db [])).
  intros s a Hs. simpl in Hs. apply lookup_singleton_Some in Hs as [<- <-]. split; [lia|].
  intros s' Hs'. simpl in Hs'. by apply lookup_singleton_Some in Hs' as [<- _].
Defined.

(** The wallet range is not bounded: once account 2000 is given out, the next
    rider's wallet is 2001, the operator revenue account itself, which the
    ledger does not protect; that rider's fares debit and credit the same
    account, so a payment is recorded as settled and moves nothing. *)
Theorem wallet_allocation_reaches_revenue_account :
  let d := mkDB ∅ {[ "last" := 2000 ]} ∅ ∅ ∅ ∅ ∅ ∅ ∅ ∅ ∅ in
  let w := mkWorld d (mkSimulated {[OperatorRevenueAccount := 1000]} ∅) [] 1000 0 [] [] [] in
  let p := CreatePayment "" alice "k1" demo_request w in
  status p.1 = 201 /\
  rider_accounts (w_db p.2) !! "alice" = Some OperatorRevenueAccount /\
  protected OperatorRevenueAccount = false /\
  spent_since "alice" 0 (w_db p.2) = 250 /\
  sim_balance (w_led p.2) OperatorRevenueAccount = 1000.
Proof. vm_compute. split_and!; reflexivity. Qed.
