(* ===== verification/Refunds.v ===== *)
(** * Refunds

    Models [RefundPayment] of services/go/commerce-api/internal/handlers/payments.go.
    The handler reads the payment, posts the reversal and then updates the row
    conditionally, with no transaction around the three: the part after the
    read is a definition of its own ([refund_after_read]), so that a run on a
    stale row can be stated.  The theorems say what survives faults and races
    and what does not. *)

From S2P Require Import Prelude Codec World Auth Ledger CommerceDb Mojaloop Loyalty Payments PaymentProofs PaymentTheorems.

Open Scope go_scope.

(** [fmt.Sprintf("refund:%s:%d", id, total)]: the key of the reversal and of the clawback. *)
Definition refund_key (id : string) (total : Z) : string := "refund:" +:+ id +:+ ":" +:+ pretty total.

Definition refundable (st : string) : bool :=
  bool_decide (st = "settled") || bool_decide (st = "partially_refunded").

(** [UPDATE fare_payments SET refunded_minor, status, refunded_at WHERE id AND
    status IN (...) AND refunded_minor = $4 RETURNING]. *)
Definition mark_refunded (id : string) (newTotal : Z) (newStatus : string) (seen now : Z) : stmt Payment :=
  fun d =>
  match fare_payments d !! id with
  | Some p =>
      if refundable (p_status p) && (p_refunded p =? seen) then
        let p' := mkPayment (p_id p) (p_rider p) (p_amount p) (p_charged p) (p_currency p) (p_mojaloop p)
                    (p_tb p) (p_key p) newStatus newTotal (Some now) (p_created p) in
        Ok (p', put_payment p')
      else Err ErrNoRows
  | None => Err ErrNoRows
  end.

(** What the row read by the handler and the requested amount lead to: an
    answer at once, or the amount to refund. *)
Definition refund_plan (p : Payment) (req : option Z) : response + Z :=
  if decide (p_status p = "refunded") then inl (mkResponse 200 (payment_json p))
  else if negb (refundable (p_status p))
  then inl (json_error 409 ("only settled payments can be refunded (status " +:+ p_status p +:+ ")"))
  else
    let remainder := Z.max 0 (wrap_i64 (effectiveCharged p - p_refunded p)) in
    match req with
    | None => inr remainder
    | Some n =>
        if (n <=? 0) || (remainder <? n)
        then inl (json_error 422 ("amount_minor must be between 1 and the refundable remainder ("
                    +:+ pretty remainder +:+ ")"))
        else inr n
    end.

Definition refund_status (newTotal charged : Z) : string :=
  if charged <=? newTotal then "refunded" else "partially_refunded".

Section Handlers.
Context {L : Type} `{Ledger L} `{Runtime}.

(** The reversal: operator revenue to the rider's wallet, none for amount 0. *)
Definition refund_post (p : Payment) (amount newTotal : Z) : M DB L (result (option string)) :=
  if 0 <? amount then
    try! account := riderAccount (p_rider p) catch e => gret (Err e) in
    try! h := led_call (fun l => led_Transfer l (DeterministicTransferID (refund_key (p_id p) newTotal))
                OperatorRevenueAccount account (wrap_u64 amount) CodeFare) catch e => gret (Err e) in
    gret (Ok (Some h))
  else gret (Ok None).

(** After the row was updated: clawback (a failure is only logged), event, answer. *)
Definition refund_conclude (p : Payment) (amount newTotal : Z) (tb : option string) : M DB L response :=
  do! clawbackLoyaltyPoints (refund_key (p_id p) newTotal) (p_rider p) amount in
  let! now := gets w_now in
  do! publish "fare.payment.refunded"
    [("payment_id", JStr (p_id p)); ("rider_sub", JStr (p_rider p)); ("amount_minor", JInt amount);
     ("refunded_minor", JInt (p_refunded p)); ("status", JStr (p_status p));
     ("currency", JStr (p_currency p)); ("tb_transfer_id", jopt_str tb); ("refunded_at", JTime now)] in
  reply 200 (payment_json p).

(** Everything after the read of [p] and the choice of the amount. *)
Definition refund_after_read (id : string) (p : Payment) (amount : Z) : M DB L response :=
  let newTotal := wrap_i64 (p_refunded p + amount) in
  try! tb := refund_post p amount newTotal catch e => internal "refund" e in
  let! now := gets w_now in
  let! upd := db_exec (mark_refunded id newTotal (refund_status newTotal (effectiveCharged p)) (p_refunded p) now) in
  match upd with
  | Ok p' => refund_conclude p' amount newTotal tb
  | Err ErrNoRows =>
      try! q := db_query (payment_by_id id) catch e => internal "mark payment refunded" e in
      reply 409 (JObj [("error", JStr "concurrent refund changed the refundable remainder; retry against the current state");
                       ("payment", payment_json q)])
  | Err e => internal "mark payment refunded" e
  end.

(** The body: [None] is malformed JSON, [Some None] an absent amount. *)
Definition RefundPayment (id : string) (body : option (option Z)) : M DB L response :=
  match body with
  | None => reply_error 400 "invalid JSON body"
  | Some req =>
      let! r := db_query (payment_by_id id) in
      match r with
      | Err ErrNoRows => reply_error 404 "payment not found"
      | Err e => internal "load payment for refund" e
      | Ok p =>
          match refund_plan p req with
          | inl answer => gret answer
          | inr amount => refund_after_read id p amount
          end
      end
  end.
End Handlers.

(** ** What a refund does, for every schedule *)

(** The refunded row. *)
Definition refunded_row (p : Payment) (total now : Z) : Payment :=
  mkPayment (p_id p) (p_rider p) (p_amount p) (p_charged p) (p_currency p) (p_mojaloop p) (p_tb p) (p_key p)
    (refund_status total (effectiveCharged p)) total (Some now) (p_created p).

Section RefundSpec.
Context {L : Type} `{Ledger L} `{Runtime}.
Implicit Types w : World DB L.

Definition refund_posting (p : Payment) (amount total : Z) (d : DB) (l l' : L) (r : result string) : Prop :=
  exists account, rider_accounts d !! p_rider p = Some account /\ 0 < amount /\
    led_Transfer l (DeterministicTransferID (refund_key (p_id p) total)) OperatorRevenueAccount account
      (wrap_u64 amount) CodeFare = (r, l').

(** The posting succeeded, or there was nothing to post. *)
Definition reversal_done (p : Payment) (amount total : Z) (d : DB) (l l' : L) (tb : option string) : Prop :=
  amount <= 0 /\ tb = None /\ l' = l \/ exists h, tb = Some h /\ refund_posting p amount total d l l' (Ok h).

Lemma refund_post_spec p amount total w :
  wp (refund_post p amount total)
    (fun r w' => w_bus w' = w_bus w /\ w_now w' = w_now w /\ alloc_frame (p_rider p) (w_db w) (w_db w') /\
       (w_led w' = w_led w \/ exists lr, refund_posting p amount total (w_db w') (w_led w) (w_led w') lr) /\
       forall tb, r = Ok tb -> reversal_done p amount total (w_db w') (w_led w) (w_led w') tb) w.
Proof.
  unfold refund_post. destruct (Z.ltb_spec 0 amount) as [Hpos|Hz].
  2: { apply wp_ret. split_and!; [done|done|by left|by left|]. intros; simplify_eq. by left. }
  apply wp_bind. eapply wp_mono; [|apply riderAccount_spec].
  intros r w1 (d & s & -> & Hal & Hacc). destruct r as [account|e].
  2: { apply wp_ret. split_and!; [done|done|done|by left|]. intros; simplify_eq. }
  specialize (Hacc account eq_refl). apply wp_bind, wp_led_call; intros s2.
  - intros lr l Hl. simpl in Hl.
    assert (refund_posting p amount total d (w_led w) l lr) as Hd by (exists account; split_and!; done).
    destruct lr as [h|e]; apply wp_ret; (split_and!; [done|done|done|right; by eexists|]); intros tb Htb; simplify_eq.
    right. eauto.
  - intros lr l Hl. simpl in Hl. apply wp_ret.
    split_and!; [done|done|done|right; exists lr, account; split_and!; done|]. intros; simplify_eq.
  - apply wp_ret. split_and!; [done|done|done|by left|]. intros; simplify_eq.
Qed.

Lemma clawback_spec ref rider amount w :
  wp (clawbackLoyaltyPoints ref rider amount)
    (fun _ w' => exists d s n, w' = with_db d (with_sched s (with_uuids n w)) /\ loyalty_frame (w_db w) d) w.
Proof.
  unfold clawbackLoyaltyPoints. destruct (_ || _).
  - apply wp_ret. exists (w_db w), (w_sched w), (w_uuids w). split; [by destruct w|apply loyalty_frame_refl].
  - apply post_points_spec. intros now d a g Hg d'. unfold subtract_points_floor in Hg.
    repeat case_match; crush; try apply loyalty_frame_refl; by eexists _, _, _.
Qed.

Lemma refund_conclude_spec p amount total tb w :
  wp (refund_conclude p amount total tb)
    (fun r w' => loyalty_frame (w_db w) (w_db w') /\ w_led w' = w_led w /\ w_now w' = w_now w /\
       r = mkResponse 200 (payment_json p)) w.
Proof.
  unfold refund_conclude. apply wp_bind. eapply wp_mono; [|apply clawback_spec].
  intros _ w' (d & s & n & -> & Hf). apply wp_bind, wp_gets, wp_bind, wp_publish; intros; by apply wp_ret.
Qed.

(** A refund whose row was read as [p] and is still so. *)
Definition refund_ran (id : string) (p : Payment) (amount : Z) w (r : response) w' : Prop :=
  let total := wrap_i64 (p_refunded p + amount) in
  exists d1, alloc_frame (p_rider p) (w_db w) d1 /\ w_now w' = w_now w /\
    (w_led w' = w_led w \/ exists lr, refund_posting p amount total d1 (w_led w) (w_led w') lr) /\
    (w_db w' = d1 /\ status r = 500 \/
     loyalty_frame (put_payment (refunded_row p total (w_now w)) d1) (w_db w') /\
     (exists tb, reversal_done p amount total d1 (w_led w) (w_led w') tb) /\
     (r = mkResponse 200 (payment_json (refunded_row p total (w_now w))) \/ status r = 500)).

Lemma refund_after_read_spec id p amount w :
  fare_payments (w_db w) !! id = Some p -> refundable (p_status p) = true ->
  wp (refund_after_read id p amount) (refund_ran id p amount w) w.
Proof.
  intros Hp Hr. unfold refund_after_read, refund_ran. cbv zeta. set (total := wrap_i64 _).
  apply wp_bind. eapply wp_mono; [|apply refund_post_spec].
  intros r1 w1 (B1 & N1 & Al & Hl & Hok). destruct r1 as [tb|e].
  2: { apply wp_ret. exists (w_db w1). split_and!; try done. by left. }
  specialize (Hok tb eq_refl).
  assert (mark_refunded id total (refund_status total (effectiveCharged p)) (p_refunded p) (w_now w1) (w_db w1)
    = Ok (refunded_row p total (w_now w), put_payment (refunded_row p total (w_now w)))) as Hm.
  { unfold mark_refunded. assert (fare_payments (w_db w1) = fare_payments (w_db w)) as ->
      by by destruct Al as [->|[_ ->]].
    rewrite Hp, Hr, Z.eqb_refl, N1. done. }
  apply wp_bind, wp_gets, wp_bind, wp_db_exec; intros s; rewrite ?Hm.
  - intros a g Heq. simplify_eq. eapply wp_mono; [|apply refund_conclude_spec].
    intros r w2 (F1 & F2 & F3 & ->). exists (w_db w1). simpl in *. rewrite F2, F3. split_and!; try done.
    right. split_and!; [done|by exists tb|by left].
  - intros a g Heq. simplify_eq. apply wp_ret. exists (w_db w1). split_and!; try done.
    right. simpl. split_and!; [apply loyalty_frame_refl|by exists tb|by right].
  - intros e Heq. simplify_eq.
  - apply wp_ret. exists (w_db w1). split_and!; try done. by left.
Qed.

Lemma refund_plan_refundable p req amount : refund_plan p req = inr amount -> refundable (p_status p) = true.
Proof. unfold refund_plan. case_decide; [done|]. by destruct (refundable _). Qed.

(** The request is answered without a refund being attempted. *)
Definition refund_declined (id : string) (body : option (option Z)) (d : DB) : Prop :=
  forall req p amount, body = Some req -> fare_payments d !! id = Some p -> refund_plan p req <> inr amount.

Lemma refund_spec id body w :
  wp (RefundPayment id body)
    (fun r w' => same_store w w' /\ (status r = 500 \/ refund_declined id body (w_db w)) \/
       exists req p amount, body = Some req /\ fare_payments (w_db w) !! id = Some p /\
         refund_plan p req = inr amount /\ refund_ran id p amount w r w') w.
Proof.
  unfold RefundPayment. destruct body as [req|]; [|apply wp_ret; left; split; [done|by right]].
  apply wp_bind, wp_db_query; intros s; [|apply wp_ret; left; split; [done|by left]].
  unfold payment_by_id. destruct (fare_payments (w_db w) !! id) as [p|] eqn:Ep.
  2: { apply wp_ret. left. split; [done|right]. intros ? ? ? ? ?. congruence. }
  destruct (refund_plan p req) as [answer|amount] eqn:Epl.
  - apply wp_ret. left. split; [done|right]. intros ? ? ? ? ?. simplify_eq; congruence.
  - pose proof (refund_after_read_spec id p amount (with_sched s w) Ep (refund_plan_refundable _ _ _ Epl)) as Hs.
    eapply wp_mono; [|exact Hs]. intros r w' Hran. right. by exists req, p, amount.
Qed.
End RefundSpec.

(** ** Sound payment rows *)

(** What is recorded as refunded never exceeds the charge, and the status
    says whether anything is left. *)
Definition payment_sound (p : Payment) : Prop :=
  i64 (effectiveCharged p) /\ 0 <= p_refunded p <= Z.max 0 (effectiveCharged p) /\
  (p_status p = "refunded"%string -> effectiveCharged p <= p_refunded p) /\
  (p_status p = "partially_refunded"%string -> p_refunded p < effectiveCharged p).

Definition payments_sound (d : DB) : Prop :=
  map_Forall (fun k p => p_id p = k /\ payment_sound p) (fare_payments d).

Lemma refund_plan_amount p req amount :
  payment_sound p -> refund_plan p req = inr amount ->
  0 <= amount /\ p_refunded p + amount <= Z.max 0 (effectiveCharged p) /\
  wrap_i64 (p_refunded p + amount) = p_refunded p + amount /\ amount < two63 /\
  (req = None -> Z.max 0 (effectiveCharged p) = p_refunded p + amount).
Proof.
  intros (Hi & Hr & _ & _). unfold refund_plan. case_decide; [done|].
  destruct (negb _); [done|]. cbv zeta.
  rewrite (wrap_i64_id (effectiveCharged p - p_refunded p)) by (unfold i64, two63 in *; lia).
  intros Hplan.
  assert (0 <= amount /\ p_refunded p + amount <= Z.max 0 (effectiveCharged p) /\
    (req = None -> Z.max 0 (effectiveCharged p) = p_refunded p + amount)) as (H1 & H2 & H3).
  { destruct req as [n|].
    - destruct (_ || _) eqn:E; simplify_eq. zbool. split_and!; [lia|lia|done].
    - simplify_eq. lia. }
  split_and!; try done.
  - apply wrap_i64_id. unfold i64, two63 in *. lia.
  - unfold i64, two63 in *. lia.
Qed.

Lemma refunded_row_sound p amount now :
  payment_sound p -> 0 <= amount -> p_refunded p + amount <= Z.max 0 (effectiveCharged p) ->
  payment_sound (refunded_row p (p_refunded p + amount) now).
Proof.
  intros (Hi & Hr & _ & _) Ha Hle. unfold payment_sound, refund_status. simpl.
  change (effectiveCharged (refunded_row p (p_refunded p + amount) now)) with (effectiveCharged p).
  unfold refund_status. destruct (Z.leb_spec (effectiveCharged p) (p_refunded p + amount));
    split_and!; try done; lia.
Qed.

Section RefundTheorems.
Context {L : Type} `{LedgerSpec L}.
Implicit Types w : World DB L.

Lemma alloc_frame_payments rider d d' : alloc_frame rider d d' -> fare_payments d' = fare_payments d.
Proof. by intros [->|[_ ->]]. Qed.

(** The stored payments after a refund ran. *)
Lemma refund_ran_rows id p amount w r w' :
  refund_ran id p amount w r w' ->
  fare_payments (w_db w') = fare_payments (w_db w) /\ status r = 500 \/
  fare_payments (w_db w')
  = <[p_id p := refunded_row p (wrap_i64 (p_refunded p + amount)) (w_now w)]> (fare_payments (w_db w)).
Proof.
  intros (d1 & Al & _ & _ & [[-> ?]|(Hf & _ & _)]); [left|right].
  - by rewrite (alloc_frame_payments _ _ _ Al).
  - rewrite (loyalty_frame_payments _ _ Hf). cbn. by rewrite (alloc_frame_payments _ _ _ Al).
Qed.

(** A refund never records more than the charge: for every payment, amount
    asked for and fault, [RefundPayment] keeps every payment row sound
    (refunded between zero and the charge, status [refunded] only when
    everything was returned, [partially_refunded] only when something is
    left). *)
Theorem refund_preserves_sound_rows (id : string) (body : option (option Z)) (w : World DB L)
    (Hsound : payments_sound (w_db w)) :
  payments_sound (w_db (RefundPayment id body w).2).
Proof.
  destruct (refund_spec id body w) as [[(E & _) _]|(req & p & amount & -> & Hp & Hplan & Hran)].
  { by rewrite E. }
  destruct (Hsound id p Hp) as [Hid Hps].
  destruct (refund_plan_amount p req amount Hps Hplan) as (Ha & Hle & Hw & _ & _).
  apply refund_ran_rows in Hran as [[E _]|E]; unfold payments_sound; rewrite E; [done|].
  rewrite Hw. apply map_Forall_insert_2; [|done]. split; [done|]. by apply refunded_row_sound.
Qed.

(** When a refund is acknowledged the books agree: after a 200 answer to a
    refund of [amount], the row records exactly [amount] more, and the ledger
    either moved exactly [amount] from operator revenue to the rider's wallet,
    or had already posted this very step (and moved nothing again), or there
    was nothing to return. *)
Theorem acknowledged_refund_books_agree (id : string) (req : option Z) (w : World DB L) (p : Payment)
    (amount : Z)
    (Hsound : payments_sound (w_db w)) (Hok : led_ok (w_led w))
    (Hrow : fare_payments (w_db w) !! id = Some p) (Hplan : refund_plan p req = inr amount)
    (Hack : status (RefundPayment id (Some req) w).1 = 200) :
  let w' := (RefundPayment id (Some req) w).2 in
  let step := DeterministicTransferID (refund_key id (p_refunded p + amount)) in
  fare_payments (w_db w') = <[id := refunded_row p (p_refunded p + amount) (w_now w)]> (fare_payments (w_db w)) /\
  ((amount = 0 \/ led_posted (w_led w) step = true) /\
     (forall x, led_balance (w_led w') x = led_balance (w_led w) x) \/
   exists account, rider_accounts (w_db w') !! p_rider p = Some account /\
     forall x, led_balance (w_led w') x
       = led_balance (w_led w) x + delta OperatorRevenueAccount account amount x).
Proof.
  intros w' step. destruct (Hsound id p Hrow) as [Hid Hps].
  destruct (refund_plan_amount p req amount Hps Hplan) as (Ha & Hle & Hw & Hlt & _).
  destruct (refund_spec id (Some req) w) as [[_ [E|Hdec]]|(req' & p' & amount' & Hb & Hp' & Hpl & Hran)].
  { by rewrite E in Hack. }
  { by destruct (Hdec req p amount eq_refl Hrow). }
  simplify_eq. rewrite Hplan in Hpl. simplify_eq. fold w' in Hran. unfold refund_ran in Hran. cbv zeta in Hran. rewrite Hw in Hran.
  destruct Hran as (d1 & Al & _ & _ & [[_ E]|(Hf & (tb & Hrev) & _)]); [by rewrite E in Hack|].
  split.
  { rewrite (loyalty_frame_payments _ _ Hf). cbn. by rewrite (alloc_frame_payments _ _ _ Al). }
  destruct Hrev as [(Hz & _ & El)|(h & _ & account & Hacc & Hpos & Htr)].
  { left. rewrite El. split; [left; lia|done]. }
  destruct (posting_step _ _ _ _ _ _ _ _ Hok (conj Hpos Hlt) Htr) as [_ [[Hb' Hp']|(_ & _ & Hb' & _)]].
  - left. split; [right|done].
    destruct (posting_done _ _ _ _ _ _ _ _ Hok (conj Hpos Hlt) Htr) as [Ht _].
    rewrite <- Hp'. exact Ht.
  - right. exists account. split; [|done]. destruct Hf as (?&?&?&->). exact Hacc.
Qed.

(** ** Retried full refunds *)

(** One attempt at the full refund of a payment: the clock and the faults. *)
Definition full_refund (id : string) w (a : Z * list outcome) : World DB L :=
  (RefundPayment id (Some None) (with_now a.1 (with_sched a.2 w))).2.

Definition full_refunds (id : string) w (l : list (Z * list outcome)) : World DB L :=
  foldl (full_refund id) w l.

(** Either nothing was recorded yet, or the payment is refunded. *)
Definition refund_pending (id : string) (p : Payment) (d : DB) : Prop :=
  fare_payments d !! id = Some p \/
  exists q, fare_payments d !! id = Some q /\ p_status q = "refunded"%string.

Definition refund_step_id (id : string) (p : Payment) : Uint128 :=
  DeterministicTransferID (refund_key id (Z.max 0 (effectiveCharged p))).

(** The reversal of everything not yet refunded. *)
Definition full_reversal (p : Payment) (f : Z -> Z) : Prop :=
  exists account, f = delta OperatorRevenueAccount account (effectiveCharged p - p_refunded p).

(** One attempt moves the ledger by the remainder under the id of the full total, or not at all. *)
Lemma full_refund_step id p w a :
  p_id p = id -> payment_sound p -> refund_pending id p (w_db w) -> led_ok (w_led w) ->
  let w' := full_refund id w a in
  refund_pending id p (w_db w') /\ led_ok (w_led w') /\
  posts_at_most (refund_step_id id p) (full_reversal p) (w_led w) (w_led w').
Proof.
  intros Hid Hps Hpend Hok w'. unfold w', full_refund. set (w0 := with_now _ _).
  destruct (refund_spec id (Some None) w0) as [[(E1 & E2 & _) _]|(req & q & amount & Hb & Hq & Hplan & Hran)].
  { rewrite E1, E2. split_and!; [done|done|apply posts_at_most_refl]. }
  simplify_eq. cbn [w0 w_db w_led with_now with_sched] in *.
  destruct Hpend as [Hp|(q' & Hq' & Hst)].
  2: { rewrite Hq in Hq'. simplify_eq. unfold refund_plan in Hplan. rewrite decide_True in Hplan by done. done. }
  rewrite Hq in Hp. simplify_eq.
  destruct (refund_plan_amount p None amount Hps Hplan) as (Ha & Hle & Hw & Hlt & Hfull).
  specialize (Hfull eq_refl). pose proof (refund_ran_rows _ _ _ _ _ _ Hran) as Hrows.
  unfold refund_ran in Hran. cbv zeta in Hran. rewrite Hw in Hran, Hrows. rewrite <- Hfull in Hran.
  split_and!.
  - destruct Hrows as [[E _]|E].
    + left. by rewrite E.
    + right. eexists. rewrite E. split; [apply lookup_insert_eq|]. simpl. unfold refund_status.
      destruct (Z.leb_spec (effectiveCharged p) (p_refunded p + amount)); [done|lia].
  - destruct Hran as (d1 & _ & _ & [->|(lr & account & _ & Hpos & Htr)] & _); [done|].
    by apply (posting_step _ _ _ _ _ _ _ _ Hok (conj Hpos Hlt)) in Htr as [? _].
  - destruct Hran as (d1 & _ & _ & [->|(lr & account & _ & Hpos & Htr)] & _); [apply posts_at_most_refl|].
    destruct (posting_step _ _ _ _ _ _ _ _ Hok (conj Hpos Hlt) Htr) as [_ [[??]|(Hn & _ & Hb & Hpo)]]; [by left|].
    right. split_and!; [done|rewrite Hpo; by rewrite decide_True|].
    eexists. split; [by exists account|]. intros x. rewrite Hb.
    by replace amount with (effectiveCharged p - p_refunded p) by (destruct Hps; lia).
Qed.

(** C3: a full refund is paid once: over any number of attempts to refund a
    payment in full, at any times and with any faults, the ledger returns
    exactly the refundable remainder to one wallet, or nothing at all, and the
    row is as it was or [refunded]. *)
Theorem full_refund_paid_once (id : string) (p : Payment) (w : World DB L) (l : list (Z * list outcome))
    (Hrow : fare_payments (w_db w) !! id = Some p) (Hid : p_id p = id) (Hsound : payment_sound p)
    (Hok : led_ok (w_led w)) :
  let w' := full_refunds id w l in
  refund_pending id p (w_db w') /\
  ((forall x, led_balance (w_led w') x = led_balance (w_led w) x) \/
   exists account, forall x, led_balance (w_led w') x = led_balance (w_led w) x
     + delta OperatorRevenueAccount account (effectiveCharged p - p_refunded p) x).
Proof.
  destruct (posts_once w_led (full_refund id) (fun w => refund_pending id p (w_db w) /\ led_ok (w_led w))
    (fun _ => True) (refund_step_id id p) (full_reversal p)) with (l := l) (w := w)
    as [[Hp _] [[Hb _]|(_ & _ & f & (account & ->) & Hb)]].
  - intros w1 a _ [Hp Hok1]. destruct (full_refund_step id p w1 a Hid Hsound Hp Hok1) as (? & ? & ?).
    by split_and!.
  - by apply Forall_true.
  - split; [by left|done].
  - split; [done|by left].
  - split; [done|right; eauto].
Qed.

(** A refund that read an outdated row changes no row: if, when it resumes, the
    stored payment has another refunded amount or is no longer refundable,
    every payment row stays as it is and the answer is 409 with the current
    payment, or 500 on a fault. *)
Theorem stale_refund_changes_no_row (id : string) (p q : Payment) (amount : Z) (w : World DB L)
    (Hrow : fare_payments (w_db w) !! id = Some q)
    (Hstale : p_refunded q <> p_refunded p \/ refundable (p_status q) = false) :
  let r := (refund_after_read id p amount w).1 in
  let w' := (refund_after_read id p amount w).2 in
  fare_payments (w_db w') = fare_payments (w_db w) /\ w_bus w' = w_bus w /\
  (status r = 409 /\ (exists msg, body r = JObj [("error", JStr msg); ("payment", payment_json q)]) \/
   status r = 500).
Proof.
  change (wp (refund_after_read id p amount) (fun r w' =>
    fare_payments (w_db w') = fare_payments (w_db w) /\ w_bus w' = w_bus w /\
    (status r = 409 /\ (exists msg, body r = JObj [("error", JStr msg); ("payment", payment_json q)]) \/
     status r = 500)) w).
  unfold refund_after_read. cbv zeta. apply wp_bind. eapply wp_mono; [|apply refund_post_spec].
  intros r1 w1 (B1 & N1 & Al & _ & _). pose proof (alloc_frame_payments _ _ _ Al) as Hf.
  destruct r1 as [tb|e]; [|apply wp_ret; split_and!; [done|done|by right]].
  assert (forall t st now, mark_refunded id t st (p_refunded p) now (w_db w1) = Err ErrNoRows) as Hm.
  { intros. unfold mark_refunded. rewrite Hf, Hrow. destruct Hstale as [Hne|Hnr].
    - rewrite (proj2 (Z.eqb_neq _ _) Hne), andb_false_r. done.
    - by rewrite Hnr. }
  apply wp_bind, wp_gets, wp_bind, wp_db_exec; intros s; rewrite ?Hm; try done.
  - intros e Heq. simplify_eq. apply wp_bind, wp_db_query; intros s2; simpl;
      [|apply wp_ret; split_and!; [done|done|by right]].
    unfold payment_by_id. rewrite Hf, Hrow. apply wp_ret. split_and!; [done|done|left].
    split; [done|by eexists].
  - apply wp_ret. split_and!; [done|done|by right].
Qed.
End RefundTheorems.

(** ** Concrete runs *)

#[local] Existing Instance test_runtime.

(** Alice paid 100; operator revenue holds 1000. *)
Definition ride : Payment :=
  mkPayment "ride" "alice" 100 (Some 100) "EUR" None None (Some "k") "settled" 0 None 500.

Definition refund_led : simulated := mkSimulated {[2001 := 1000]} ∅.

Definition refund_world (s : list outcome) : World DB simulated :=
  mkWorld (put_payment ride plain_db) refund_led [] 1000 0 s [] [].

Lemma ride_sound : payment_sound ride.
Proof. unfold payment_sound, i64, two63. simpl. unfold effectiveCharged. simpl. split_and!; try done; lia. Qed.

Lemma refund_world_sound s : payments_sound (w_db (refund_world s)).
Proof.
  unfold payments_sound. simpl. apply map_Forall_insert_2; [|apply map_Forall_empty].
  split; [done|apply ride_sound].
Qed.

Lemma refund_led_ok : sim_ok refund_led.
Proof.
  split_and!; simpl.
  - intros k v. rewrite lookup_singleton. case_decide; congruence || (intros; simplify_eq; lia).
  - unfold total. vm_compute. done.
  - intros id h. rewrite lookup_empty. done.
Qed.

(** Two refunds that race overpay: both read the same 100 payment, one refunds
    60 and one everything; the second loses the conditional update and is
    answered 409, yet its reversal stays posted, so the wallet is credited
    160 for a charge of 100 while the row records 60. *)
Theorem racing_refunds_overpay :
  let first := refund_after_read "ride" ride 60 (refund_world []) in
  let second := refund_after_read "ride" ride 100 first.2 in
  effectiveCharged ride = 100 /\
  status first.1 = 200 /\ status second.1 = 409 /\
  sim_balance (w_led second.2) 1001 = sim_balance refund_led 1001 + 160 /\
  option_map p_refunded (fare_payments (w_db second.2) !! "ride") = Some 60.
Proof. vm_compute. split_and!; reflexivity. Qed.

Lemma refund_preserves_sound_rows_witness :
  payments_sound (w_db (RefundPayment "ride" (Some (Some 40)) (refund_world [])).2).
Proof. apply (refund_preserves_sound_rows "ride" (Some (Some 40)) (refund_world [])). apply refund_world_sound. Defined.

Definition refund_start : World DB simulated := refund_world [].

Lemma acknowledged_refund_books_agree_witness :
  let w' := (RefundPayment "ride" (Some (Some 40)) refund_start).2 in
  let step := DeterministicTransferID (refund_key "ride" (p_refunded ride + 40)) in
  fare_payments (w_db w')
    = <["ride"%string := refunded_row ride (p_refunded ride + 40) (w_now refund_start)]>
        (fare_payments (w_db refund_start)) /\
  ((40 = 0 \/ led_posted (w_led refund_start) step = true) /\
     (forall x, led_balance (w_led w') x = led_balance (w_led refund_start) x) \/
   exists account, rider_accounts (w_db w') !! p_rider ride = Some account /\
     forall x, led_balance (w_led w') x
       = led_balance (w_led refund_start) x + delta OperatorRevenueAccount account 40 x).
Proof.
  apply (acknowledged_refund_books_agree "ride" (Some 40) refund_start ride 40).
  - apply refund_world_sound.
  - apply refund_led_ok.
  - vm_compute. reflexivity.
  - vm_compute. reflexivity.
  - vm_compute. reflexivity.
Defined.

(** The first attempt loses the row update after the posting. *)
Lemma full_refund_paid_once_witness :
  let w' := full_refunds "ride" refund_start [(1000, [Done; Done; Done; Done; Done; Done; Lost]); (2000, [])] in
  refund_pending "ride" ride (w_db w') /\
  ((forall x, led_balance (w_led w') x = led_balance (w_led refund_start) x) \/
   exists account, forall x, led_balance (w_led w') x = led_balance (w_led refund_start) x
     + delta OperatorRevenueAccount account (effectiveCharged ride - p_refunded ride) x).
Proof.
  apply (full_refund_paid_once "ride" ride refund_start).
  - vm_compute. reflexivity.
  - reflexivity.
  - apply ride_sound.
  - apply refund_led_ok.
Defined.

(** The state after the first of the two racing refunds. *)
Definition raced_world : World DB simulated :=
  mkWorld (put_payment (refunded_row ride 60 1000) plain_db) refund_led [] 1000 0 [] [] [].

Lemma stale_refund_changes_no_row_witness :
  let r := (refund_after_read "ride" ride 100 raced_world).1 in
  let w' := (refund_after_read "ride" ride 100 raced_world).2 in
  fare_payments (w_db w') = fare_payments (w_db raced_world) /\ w_bus w' = w_bus raced_world /\
  (status r = 409 /\
     (exists msg, body r = JObj [("error", JStr msg); ("payment", payment_json (refunded_row ride 60 1000))]) \/
   status r = 500).
Proof.
  apply (stale_refund_changes_no_row "ride" ride (refunded_row ride 60 1000) 100 raced_world).
  - vm_compute. reflexivity.
  - left. vm_compute. discriminate.
Defined.
