(* ===== verification/Wallets.v ===== *)
(** * Wallet top-up

    Models services/go/commerce-api/internal/handlers/wallets.go: the
    environment switch and the idempotent funding of the caller's wallet. *)

From S2P Require Import Prelude Codec World Auth Ledger CommerceDb Mojaloop Loyalty Payments PaymentProofs PaymentTheorems.

Open Scope go_scope.

Definition maxTopUpMinor : Z := 1000000.

Definition TopUpEnabled (env : string -> string) : bool :=
  let v := env "WALLET_TOPUP_ENABLED" in
  if decide (v = "") then bool_decide (env "H2_SIMULATED_LEDGER" = "true") else bool_decide (v = "true").

Definition topup_key (idemKey : string) : string := "topup:" +:+ idemKey.

Section Handlers.
Context {L : Type} `{Ledger L} `{Runtime}.

(** The body is [None] for malformed JSON. *)
Definition TopUpWallet (ctx : claims) (idemKey : string) (req : option Z) : M DB L response :=
  if negb (TopUpEnabled getenv) then reply_error 404 "wallet top-up is disabled"
  else
    let sub := Subject ctx in
    if decide (sub = "") then reply_error 401 "authenticated subject required"
    else if decide (idemKey = "") then reply_error 400 "Idempotency-Key header is required"
    else match req with
    | None => reply_error 400 "invalid JSON body"
    | Some amount =>
        if (amount <=? 0) || (maxTopUpMinor <? amount)
        then reply_error 400 "amount_minor must be between 1 and 1000000"
        else
          try! account := riderAccount sub catch e => internal "ensure rider ledger account" e in
          try! transferID := led_call (fun l => led_Transfer l (DeterministicTransferID (topup_key idemKey))
                RiderFundingAccount account (wrap_u64 amount) CodeFare)
            catch e => internal "top up wallet" e in
          reply 201 (JObj [("rider_sub", JStr sub); ("account_id", JInt account);
                           ("amount_minor", JInt amount); ("tb_transfer_id", JStr transferID);
                           ("funding", JStr "simulated")])
    end.
End Handlers.

(** One top-up request: the caller, the body and the faults. *)
Record topup : Type := mkTopup { tu_ctx : claims; tu_req : option Z; tu_sched : list outcome }.

Section Proofs.
Context {L : Type} `{LedgerSpec L}.
Implicit Types w : World DB L.

(** The effect of a top-up: at most [maxTopUpMinor] from the funding account to a wallet. *)
Definition wallet_credit (f : Z -> Z) : Prop :=
  exists account amount, 0 < amount <= maxTopUpMinor /\ f = delta RiderFundingAccount account amount.

Lemma topup_spec ctx key req w :
  led_ok (w_led w) ->
  wp (TopUpWallet ctx key req) (fun r w' =>
    w_bus w' = w_bus w /\ alloc_frame (Subject ctx) (w_db w) (w_db w') /\ led_ok (w_led w') /\
    posts_at_most (DeterministicTransferID (topup_key key)) wallet_credit (w_led w) (w_led w') /\
    (status r = 201 -> led_posted (w_led w') (DeterministicTransferID (topup_key key)) = true)) w.
Proof.
  intros Hok. unfold TopUpWallet.
  assert (forall r : response, status r <> 201 -> wp (gret r) (fun r w' =>
    w_bus w' = w_bus w /\ alloc_frame (Subject ctx) (w_db w) (w_db w') /\ led_ok (w_led w') /\
    posts_at_most (DeterministicTransferID (topup_key key)) wallet_credit (w_led w) (w_led w') /\
    (status r = 201 -> led_posted (w_led w') (DeterministicTransferID (topup_key key)) = true)) w) as Hno.
  { intros r Hr. apply wp_ret. split_and!; [done|by left|done|apply posts_at_most_refl|done]. }
  destruct (negb _); [by apply Hno|]. cbv zeta. do 2 (case_decide; [by apply Hno|]).
  destruct req as [amount|]; [|by apply Hno]. destruct (_ || _) eqn:E; [by apply Hno|]. zbool.
  destruct E as [Hpos Hmax]. apply wp_bind. eapply wp_mono; [|apply riderAccount_spec].
  intros r w1 (d & s & -> & Hal & Hacc). destruct r as [account|e].
  2: { apply wp_ret. split_and!; [done|done|done|apply posts_at_most_refl|done]. }
  assert (forall lr l, led_Transfer (w_led w) (DeterministicTransferID (topup_key key))
      RiderFundingAccount account (wrap_u64 amount) CodeFare = (lr, l) ->
    led_ok l /\ posts_at_most (DeterministicTransferID (topup_key key)) wallet_credit (w_led w) l /\
    (forall h, lr = Ok h -> led_posted l (DeterministicTransferID (topup_key key)) = true)) as Hpost.
  { intros lr l Hl. assert (0 < amount < two63) as Ha by (unfold maxTopUpMinor, two63 in *; lia).
    destruct (posting_step _ _ _ _ _ _ _ _ Hok Ha Hl) as [Hok' Hcase]. split_and!; [done| |].
    - destruct Hcase as [[Hb Hp]|(Hn & _ & Hb & Hp)]; [by left|right].
      rewrite Hp, decide_True by done. split_and!; [done..|].
      eexists. split; [exists account, amount; split; [lia|done]|done].
    - intros h ->. by destruct (posting_done _ _ _ _ _ _ _ _ Hok Ha Hl). }
  apply wp_bind, wp_led_call; intros s2.
  - intros lr l Hl. destruct (Hpost lr l Hl) as (? & ? & Hh).
    destruct lr as [h|e]; apply wp_ret; split_and!; try done. intros _. by eapply Hh.
  - intros lr l Hl. destruct (Hpost lr l Hl) as (? & ? & Hh). apply wp_ret. by split_and!.
  - apply wp_ret. split_and!; [done|done|done|apply posts_at_most_refl|done].
Qed.

Definition run_topup (key : string) w (t : topup) : World DB L :=
  (TopUpWallet (tu_ctx t) key (tu_req t) (with_sched (tu_sched t) w)).2.

(** A top-up key funds at most once: over any history of top-up requests with
    one Idempotency-Key, by any callers, for any amounts and with any faults,
    the ledger moves by at most one credit, of at most the single top-up
    limit, from the funding account to one wallet. *)
Theorem topup_credits_at_most_once (key : string) (w : World DB L) (l : list topup)
    (Hok : led_ok (w_led w)) :
  let w' := foldl (run_topup key) w l in
  (forall x, led_balance (w_led w') x = led_balance (w_led w) x) \/
  exists account amount, 0 < amount <= maxTopUpMinor /\
    forall x, led_balance (w_led w') x
      = led_balance (w_led w) x + delta RiderFundingAccount account amount x.
Proof.
  destruct (posts_once w_led (run_topup key) (fun w => led_ok (w_led w)) (fun _ => True)
    (DeterministicTransferID (topup_key key)) wallet_credit) with (l := l) (w := w)
    as [_ [[Hb _]|(_ & _ & f & (account & amount & Ha & ->) & Hb)]]; [| |done|by left|right; eauto].
  - intros w1 t _ Hok1.
    destruct (topup_spec (tu_ctx t) key (tu_req t) (with_sched (tu_sched t) w1) Hok1) as (_ & _ & ? & ? & _).
    done.
  - by apply Forall_true.
Qed.
End Proofs.

(** ** Concrete runs *)

(** A runtime with top-up enabled. *)
Definition topup_runtime : Runtime := {|
  getenv := fun k => if decide (k = "WALLET_TOPUP_ENABLED"%string) then "true" else "";
  uuid_of := fun n => "uuid-" +:+ pretty n;
  day_start := fun _ t => t - t mod 86400000;
  uint128_string := hex_encode
|}.

#[local] Existing Instance topup_runtime.

(** The funding account holds 5000, Alice's wallet 1001 nothing. *)
Definition funding_led : simulated := mkSimulated {[RiderFundingAccount := 5000]} ∅.

Definition topup_world : World DB simulated := mkWorld plain_db funding_led [] 1000 0 [] [] [].

Lemma funding_led_ok : sim_ok funding_led.
Proof.
  split_and!; simpl.
  - intros k v. rewrite lookup_singleton. case_decide; congruence || (intros; simplify_eq; lia).
  - unfold total. vm_compute. done.
  - intros id h. rewrite lookup_empty. done.
Qed.

Lemma topup_credits_at_most_once_witness :
  let w' := foldl (run_topup "k") topup_world
              [mkTopup alice (Some 500) [Done; Done; Done; Done; LostReply]; mkTopup alice (Some 500) []] in
  (forall x, led_balance (w_led w') x = led_balance (w_led topup_world) x) \/
  exists account amount, 0 < amount <= maxTopUpMinor /\
    forall x, led_balance (w_led w') x
      = led_balance (w_led topup_world) x + delta RiderFundingAccount account amount x.
Proof. apply (topup_credits_at_most_once "k" topup_world). exact funding_led_ok. Defined.

(** Payment keys and top-up keys share one transfer-id space: a rider who
    topped up 500 with key k and then pays a 300 fare with the key topup:k is
    answered 201 and recorded as settled, while the development ledger takes
    the posting for a replay of the top-up and debits nothing. *)
Theorem payment_key_collides_with_topup :
  let t := TopUpWallet alice "k" (Some 500) topup_world in
  let p := CreatePayment "" alice "topup:k" (Some (mkCreatePayment 300 "EUR" "" false)) t.2 in
  status t.1 = 201 /\ status p.1 = 201 /\
  sim_balance (w_led p.2) 1001 = 500 /\
  spent_since "alice" 0 (w_db p.2) = 300.
Proof. vm_compute. split_and!; reflexivity. Qed.
