(* ===== verification/Entitlements.v ===== *)
(** * Fare products and entitlements

    Models services/go/commerce-api/internal/handlers/entitlements.go: the
    tariff catalogue and the grants, with the schema constraints of
    fare_products and rider_entitlements, and what a grant does to prices. *)

From S2P Require Import Prelude Codec World Auth Ledger CommerceDb Mojaloop Loyalty Payments PaymentProofs PaymentTheorems.

Open Scope go_scope.

(** ** Statements *)

Definition product_kind (k : string) : bool :=
  bool_decide (k = "pass") || bool_decide (k = "discount") || bool_decide (k = "free").

(** [INSERT INTO fare_products ... RETURNING], with the CHECKs of the table. *)
Definition insert_fare_product (x : FareProduct) : stmt FareProduct := fun d =>
  if negb (in_int4 (default 0 (fp_pct x)) && in_int4 (fp_days x))
  then Err (PgError numeric_value_out_of_range)
  else if negb (product_kind (fp_kind x)
                && ((0 <=? default 0 (fp_pct x)) && (default 0 (fp_pct x) <=? 100))
                && (0 <=? fp_price x) && (0 <? fp_days x))
  then Err (PgError check_violation)
  else match find_row (fun y => bool_decide (fp_code y = fp_code x)) (fare_products d), fare_products d !! fp_id x with
       | None, None => Ok (x, put_fare_product x)
       | _, _ => Err (PgError unique_violation)
       end.

Definition active_product_days (id : string) (d : DB) : result Z :=
  match fare_products d !! id with
  | Some p => if fp_active p then Ok (fp_days p) else Err ErrNoRows
  | None => Err ErrNoRows
  end.

Definition billing_account_status (id : string) (d : DB) : result string :=
  match billing_accounts d !! id with Some a => Ok (ba_status a) | None => Err ErrNoRows end.

(** [INSERT INTO rider_entitlements ... RETURNING]. *)
Definition insert_entitlement (x : Entitlement) : stmt Entitlement := fun d =>
  if en_to x <=? en_from x then Err (PgError check_violation)
  else match fare_products d !! en_product x, rider_entitlements d !! en_id x with
       | Some _, None => Ok (x, put_entitlement x)
       | None, _ => Err (PgError foreign_key_violation)
       | _, Some _ => Err (PgError unique_violation)
       end.

(** [ORDER BY code]. *)
Fixpoint insert_by_code (x : FareProduct) (l : list FareProduct) : list FareProduct :=
  match l with
  | [] => [x]
  | y :: l' => if String.ltb (fp_code x) (fp_code y) then x :: y :: l' else y :: insert_by_code x l'
  end.

(** [time.Duration(days) * 24 * time.Hour], in milliseconds; the product is
    computed in [int64] nanoseconds. *)
Definition days_duration (days : Z) : Z := Z.quot (wrap_i64 (days * 86400000000000)) 1000000.

(** ** Handlers *)

Record fareProductRequest : Type := mkFareProductRequest {
  fr_code : string; fr_kind : string; fr_pct : option Z; fr_price : Z; fr_days : Z; fr_description : string
}.

Record grantRequest : Type := mkGrantRequest {
  gr_rider : string; gr_product : string; gr_from : option Z; gr_to : option Z; gr_payer : option string
}.

Section Handlers.
Context {L : Type} `{Runtime}.

(** The switch over the product kind and the range checks: the refusal, if any. *)
Definition refuse_product (r : fareProductRequest) : option string :=
  let kind_error :=
    if decide (fr_kind r = "pass" \/ fr_kind r = "free") then None
    else if decide (fr_kind r = "discount") then
      match fr_pct r with
      | Some pct => if (pct <=? 0) || (100 <? pct)
                    then Some "discount products require 0 < discount_pct <= 100"%string else None
      | None => Some "discount products require 0 < discount_pct <= 100"%string
      end
    else Some "kind must be pass, discount or free"%string in
  match kind_error with
  | Some e => Some e
  | None => if fr_days r <=? 0 then Some "duration_days must be positive"%string
            else if fr_price r <? 0 then Some "price_minor must be >= 0"%string
            else None
  end.

Definition CreateFareProduct (req : option fareProductRequest) : M DB L response :=
  match req with
  | None => reply_error 400 ("body must include " +:+ quoted "code")
  | Some r =>
      if decide (fr_code r = "") then reply_error 400 ("body must include " +:+ quoted "code")
      else match refuse_product r with
      | Some msg => reply_error 400 msg
      | None =>
          let! now := gets w_now in
          let! id := new_uuid in
          try! p := db_exec (insert_fare_product (mkFareProduct id (fr_code r) (fr_kind r) (fr_pct r)
                               (fr_price r) (fr_days r) (fr_description r) true now))
            catch e => internal "create fare product" e in
          reply 201 (fare_product_json p)
      end
  end.

Definition ListFareProducts (active : string) : M DB L response :=
  try! ps := db_query (fun d => Ok (foldr insert_by_code []
      (filter (fun p => active <> "true" \/ fp_active p = true) (rows (fare_products d)))))
    catch e => internal "list fare products" e in
  reply 200 (JObj [("fare_products", JList (map fare_product_json ps))]).

(** The payer check: the account exists and is active. *)
Definition check_payer (payer : option string) : M DB L (option response) :=
  match payer with
  | None => gret None
  | Some id =>
      let! r := db_query (billing_account_status id) in
      match r with
      | Err ErrNoRows => gret (Some (json_error 404 "unknown payer_account"))
      | Err _ => gret (Some (json_error 500 "internal error"))
      | Ok st => if decide (st = "active") then gret None
                 else gret (Some (json_error 422 ("payer_account billing account is " +:+ st)))
      end
  end.

(** The window and the insert. *)
Definition grant_window (ctx : claims) (r : grantRequest) (days : Z) : M DB L response :=
  let! now := gets w_now in
  let from := default now (gr_from r) in
  let to := default (from + days_duration days) (gr_to r) in
  if to <=? from then reply_error 400 "valid_to must be after valid_from"
  else
    let! id := new_uuid in
    try! e := db_exec (insert_entitlement (mkEntitlement id (gr_rider r) (gr_product r) from to (gr_payer r)
                         (Subject ctx) now)) catch e => internal "grant entitlement" e in
    reply 201 (entitlement_json e).

Definition GrantEntitlement (ctx : claims) (req : option grantRequest) : M DB L response :=
  match req with
  | None => reply_error 400 ("body must include " +:+ quoted "rider_sub" +:+ " and " +:+ quoted "product_id")
  | Some r =>
      if decide (gr_rider r = "" \/ gr_product r = "")
      then reply_error 400 ("body must include " +:+ quoted "rider_sub" +:+ " and " +:+ quoted "product_id")
      else
        let! days := db_query (active_product_days (gr_product r)) in
        match days with
        | Err ErrNoRows => reply_error 404 "unknown or inactive product_id"
        | Err e => internal "load fare product" e
        | Ok days =>
            let! refused := check_payer (gr_payer r) in
            match refused with
            | Some answer => gret answer
            | None => grant_window ctx r days
            end
        end
  end.

Definition list_entitlements (rider : string) (d : DB) : list Entitlement :=
  take 200 (order_desc en_to (filter (fun e => rider = "" \/ en_rider e = rider) (rows (rider_entitlements d)))).

Definition ListEntitlements (ctx : claims) (rider_sub : string) : M DB L response :=
  let rider := if staff ctx then rider_sub else Subject ctx in
  try! es := db_query (fun d => Ok (list_entitlements rider d)) catch e => internal "list entitlements" e in
  reply 200 (JObj [("entitlements", JList (map entitlement_json es))]).
End Handlers.

(** ** The catalogue invariant *)

(** Products carry a percentage of at most 100, and every grant names a product. *)
Definition catalogue_ok (d : DB) : Prop :=
  map_Forall (fun k p => fp_id p = k /\ 0 <= default 0 (fp_pct p) <= 100) (fare_products d) /\
  map_Forall (fun k e => en_id e = k /\ en_from e < en_to e /\ is_Some (fare_products d !! en_product e))
    (rider_entitlements d).

Lemma active_pct_le d rider now :
  catalogue_ok d -> Forall (fun r => er_pct r <= 100) (active_entitlements rider now d).
Proof.
  intros [Hp _]. apply list.Forall_forall. intros r Hr.
  apply list_elem_of_omap in Hr as (e & _ & He). unfold ent_row_of in He.
  case_decide; [|done]. destruct (_ && _); [|done].
  destruct (fare_products d !! en_product e) as [p|] eqn:E; [|done].
  destruct (fp_active p); simplify_eq. simpl. destruct (Hp _ _ E). lia.
Qed.

Lemma fare_after_cons_le r rs amount :
  Forall (fun r => er_pct r <= 100) (r :: rs) -> 0 < amount -> amount * 100 < two63 ->
  fare_after (r :: rs) amount <= fare_after rs amount.
Proof.
  intros Hp Ha Hm. pose proof (fare_after_bounds _ amount Hp Ha Hm).
  pose proof (best_discount_le _ Hp) as Hb. apply Forall_cons_1 in Hp as [_ Hp].
  pose proof (fare_after_bounds rs amount Hp Ha Hm). pose proof (best_discount_nonneg rs).
  unfold fare_after in *. simpl existsb in *.
  destruct (covers r); simpl in *; [lia|]. destruct (existsb covers rs); [lia|].
  fold (best_discount rs) in *. change (best_discount (r :: rs)) with (discount_of r `max` best_discount rs) in *.
  destruct (Z.ltb_spec 0 (best_discount rs)).
  - rewrite (proj2 (Z.ltb_lt _ _)) by lia. apply discounted_mono; lia.
  - lia.
Qed.

(** A fresh grant adds its row, if it is active, to the rider's list. *)
Lemma active_entitlements_put x d rider now :
  rider_entitlements d !! en_id x = None ->
  active_entitlements rider now (put_entitlement x d)
  ≡ₚ match ent_row_of rider now d x with Some r => [r] | None => [] end ++ active_entitlements rider now d.
Proof.
  intros Hn. unfold active_entitlements, rows. cbn [rider_entitlements put_entitlement].
  assert ((map_to_list (<[en_id x := x]> (rider_entitlements d))).*2
    ≡ₚ x :: (map_to_list (rider_entitlements d)).*2) as Hperm.
  { rewrite map_to_list_insert by done. done. }
  change (ent_row_of rider now (put_entitlement x d)) with (ent_row_of rider now d).
  rewrite Hperm. simpl. by destruct (ent_row_of rider now d x).
Qed.

Section GrantSpec.
Context {L : Type} `{Runtime}.
Implicit Types w : World DB L.

(** A grant leaves the database alone or adds one entitlement of the named
    rider, for an existing product and a proper window. *)
Lemma grant_spec ctx req w :
  wp (GrantEntitlement ctx req) (fun r w' =>
    w_led w' = w_led w /\ w_bus w' = w_bus w /\
    (w_db w' = w_db w /\ status r <> 201 \/
     exists x g, req = Some g /\ en_rider x = gr_rider g /\ en_product x = gr_product g /\
       en_from x < en_to x /\ rider_entitlements (w_db w) !! en_id x = None /\
       is_Some (fare_products (w_db w) !! en_product x) /\ w_db w' = put_entitlement x (w_db w))) w.
Proof.
  assert (forall (r : response) s n, status r <> 201 -> wp (gret r) (fun r w' =>
    w_led w' = w_led w /\ w_bus w' = w_bus w /\
    (w_db w' = w_db w /\ status r <> 201 \/
     exists x g, req = Some g /\ en_rider x = gr_rider g /\ en_product x = gr_product g /\
       en_from x < en_to x /\ rider_entitlements (w_db w) !! en_id x = None /\
       is_Some (fare_products (w_db w) !! en_product x) /\ w_db w' = put_entitlement x (w_db w)))
    (with_sched s (with_uuids n w))) as Hno.
  { intros r s n Hr. apply wp_ret. split_and!; [done|done|by left]. }
  unfold GrantEntitlement. destruct req as [r|].
  2: { apply wp_ret. split_and!; [done|done|by left]. }
  case_decide. { apply wp_ret. split_and!; [done|done|by left]. }
  apply wp_bind, wp_db_query; intros s1; [|by apply (Hno _ s1 (w_uuids w))].
  destruct (active_product_days _ _) as [days|e].
  2: { destruct e; by apply (Hno _ s1 (w_uuids w)). }
  apply wp_bind. eapply (wp_mono _ (fun o w' => (forall a, o = Some a -> status a <> 201) /\ exists s, w' = with_sched s w)).
  2: { unfold check_payer. destruct (gr_payer r); [|apply wp_ret; split; [done|by eexists]].
       apply wp_bind, wp_db_query; intros s2.
       - destruct (billing_account_status _ _) as [st|e].
         + case_decide; apply wp_ret; (split; [by intros ? [= <-]|by eexists]).
         + destruct e; apply wp_ret; (split; [by intros ? [= <-]|by eexists]).
       - apply wp_ret. split; [by intros ? [= <-]|by eexists]. }
  intros o w2 [Ha [s2 ->]]. destruct o as [a|]. { apply (Hno _ s2 (w_uuids w)). by apply Ha. }
  unfold grant_window. apply wp_bind, wp_gets. cbv zeta.
  destruct (Z.leb_spec (default (default (w_now (with_sched s2 w)) (gr_from r) + days_duration days) (gr_to r))
    (default (w_now (with_sched s2 w)) (gr_from r))); [by apply (Hno _ s2 (w_uuids w))|].
  apply wp_bind, wp_new_uuid. apply wp_bind, wp_db_exec; intros s3; simpl.
  - intros x g Hg. unfold insert_entitlement in Hg. repeat case_match; simplify_eq. zbool. simpl in *.
    apply wp_ret. split_and!; [done|done|right]. eexists _, r. split_and!; try done; simpl; eauto.
  - intros x g Hg. unfold insert_entitlement in Hg. repeat case_match; simplify_eq. zbool. simpl in *.
    apply wp_ret. split_and!; [done|done|right]. eexists _, r. split_and!; try done; simpl; eauto.
  - intros e _. by apply (Hno _ s3 (w_uuids w + 1)%nat).
  - by apply (Hno _ s3 (w_uuids w + 1)%nat).
Qed.

(** A grant only ever lowers fares: whatever is granted and whatever fails, the
    catalogue invariant is kept, the fare of every rider at every time is at
    most what it was, and nobody but the named rider is affected. *)
Theorem grant_only_lowers_fares (ctx : claims) (g : grantRequest) (w : World DB L)
    (rider : string) (now amount : Z)
    (Hcat : catalogue_ok (w_db w)) (Hpos : 0 < amount) (Hmax : amount * 100 < two63) :
  let d' := w_db (GrantEntitlement ctx (Some g) w).2 in
  let fare d := rv_charge (resolveEntitlement (active_entitlements rider now d) amount) in
  catalogue_ok d' /\ fare d' <= fare (w_db w) /\ (rider <> gr_rider g -> fare d' = fare (w_db w)).
Proof.
  intros d' fare. subst d' fare. cbv beta. rewrite !resolve_charge.
  destruct (grant_spec ctx (Some g) w) as (_ & _ & [[E _]|(x & g' & Hg & Hr & Hp & Hwin & Hn & Hprod & E)]).
  { rewrite E. split_and!; [done|lia|done]. }
  simplify_eq. rewrite E.
  assert (catalogue_ok (put_entitlement x (w_db w))) as Hcat'.
  { destruct Hcat as [H1 H2]. split; [done|]. simpl. apply map_Forall_insert_2; [by split_and!|done]. }
  pose proof (active_pct_le _ rider now Hcat') as Hpct.
  rewrite (active_entitlements_put x (w_db w) rider now Hn) in Hpct |- *. split_and!; [done| |].
  - destruct (ent_row_of rider now (w_db w) x); simpl in *; [by apply fare_after_cons_le|lia].
  - intros Hne. unfold ent_row_of. rewrite decide_False by congruence. done.
Qed.

(** Publishing a product changes no fare: [CreateFareProduct] keeps the
    catalogue invariant and no rider's fare changes at any time, because a
    new product has no grants yet. *)
Theorem new_product_is_price_neutral (req : option fareProductRequest) (w : World DB L)
    (rider : string) (now amount : Z) (Hcat : catalogue_ok (w_db w)) :
  let d' := w_db (CreateFareProduct req w).2 in
  catalogue_ok d' /\
  resolveEntitlement (active_entitlements rider now d') amount
  = resolveEntitlement (active_entitlements rider now (w_db w)) amount.
Proof.
  cbv zeta. change (wp (CreateFareProduct req) (fun _ w' => catalogue_ok (w_db w') /\
    resolveEntitlement (active_entitlements rider now (w_db w')) amount
    = resolveEntitlement (active_entitlements rider now (w_db w)) amount) w).
  assert (forall x y g, insert_fare_product x (w_db w) = Ok (y, g) -> catalogue_ok (g (w_db w)) /\
    active_entitlements rider now (g (w_db w)) = active_entitlements rider now (w_db w)) as Hins.
  { intros x y g Hg. unfold insert_fare_product in Hg. repeat case_match; simplify_eq. zbool.
    destruct Hcat as [Hprods Hents]. split.
    - split; simpl.
      + apply map_Forall_insert_2; [split; [done|lia]|done].
      + intros k e He. destruct (Hents k e He) as (? & ? & ?). split_and!; [done..|].
        destruct (decide (fp_id y = en_product e)) as [->|]; [by rewrite lookup_insert_eq; eauto|].
        by rewrite lookup_insert_ne.
    - unfold active_entitlements. simpl. apply list_omap_ext, list.Forall2_same_length_lookup_2; [done|].
      intros i e e' He He'. simplify_eq. apply list_elem_of_lookup_2, elem_of_rows in He as [k Hk].
      destruct (Hents k e Hk) as (_ & _ & Hs). unfold ent_row_of. simpl.
      rewrite lookup_insert_ne; [done|]. intros Heq. rewrite <- Heq in Hs. by destruct Hs as [? Hs]; simplify_eq. }
  unfold CreateFareProduct. destruct req as [r|]; [|by apply wp_ret].
  case_decide; [by apply wp_ret|]. destruct (refuse_product r); [by apply wp_ret|].
  apply wp_bind, wp_gets, wp_bind, wp_new_uuid, wp_bind, wp_db_exec; intros s; try (intros; by apply wp_ret).
  - intros y g [? E]%Hins. apply wp_ret. simpl. by rewrite E.
  - intros y g [? E]%Hins. apply wp_ret. simpl. by rewrite E.
Qed.
End GrantSpec.

(** ** Concrete runs *)

#[local] Existing Instance test_runtime.

Definition grant_world : World DB simulated := mkWorld demo_db sim_example [] 1000 0 [] [] [].

Lemma demo_catalogue_ok : catalogue_ok demo_db.
Proof.
  split; simpl.
  - apply map_Forall_singleton. simpl. split; [done|lia].
  - apply map_Forall_singleton. simpl. split_and!; [done|lia|]. by eexists.
Qed.

Definition half_price_grant : grantRequest := mkGrantRequest "alice" "prod" None None None.

Lemma grant_only_lowers_fares_witness :
  let d' := w_db (GrantEntitlement alice (Some half_price_grant) grant_world).2 in
  let fare d := rv_charge (resolveEntitlement (active_entitlements "alice" 5000 d) 250) in
  catalogue_ok d' /\ fare d' <= fare (w_db grant_world) /\
  ("alice"%string <> gr_rider half_price_grant -> fare d' = fare (w_db grant_world)).
Proof.
  apply (grant_only_lowers_fares alice half_price_grant grant_world "alice" 5000 250).
  - exact demo_catalogue_ok.
  - lia.
  - unfold two63. lia.
Defined.

Definition pass_request : option fareProductRequest :=
  Some (mkFareProductRequest "monthly" "pass" None 4900 30 "").

Lemma new_product_is_price_neutral_witness :
  let d' := w_db (CreateFareProduct pass_request grant_world).2 in
  catalogue_ok d' /\
  resolveEntitlement (active_entitlements "alice" 5000 d') 250
  = resolveEntitlement (active_entitlements "alice" 5000 (w_db grant_world)) 250.
Proof.
  apply (new_product_is_price_neutral pass_request grant_world "alice" 5000 250).
  exact demo_catalogue_ok.
Defined.

Example grant_example :
  let '(r, w') := GrantEntitlement alice (Some half_price_grant) grant_world in
  (status r, map en_to (rows (rider_entitlements (w_db w')))) = (201, [1000 + 30 * 86400000; 1000000000]).
Proof. vm_compute. reflexivity. Qed.
