(* ===== verification/Billing.v ===== *)
(** * Corporate billing

    Models services/go/commerce-api/internal/handlers/billing.go: billing
    accounts and the allocation of their clearing accounts, the sweep of
    uninvoiced charges into an invoice, and the settlement of an invoice. *)

From S2P Require Import Prelude Codec World Auth Ledger CommerceDb Mojaloop Loyalty Payments PaymentProofs PaymentTheorems.

Open Scope go_scope.

(** ** Statements *)

(** [SELECT MAX(ledger_account_id)] over the table. *)
Definition max_ledger (m : gmap string BillingAccount) : option Z := max_account (ba_ledger <$> m).

(** [INSERT INTO billing_accounts ... SELECT ..., COALESCE(MAX(ledger_account_id), 5000) + 1]. *)
Definition insert_billing_account (id name kind email : string) (now : Z) : stmt BillingAccount := fun d =>
  let n := default (FirstBillingAccountID - 1) (max_ledger (billing_accounts d)) + 1 in
  if negb (in_int8 n) then Err (PgError numeric_value_out_of_range)
  else match find_row (fun a => ba_ledger a =? n) (billing_accounts d), billing_accounts d !! id with
       | None, None => let a := mkBillingAccount id name kind email n "active" now in
                       Ok (a, put_billing_account a)
       | _, _ => Err (PgError unique_violation)
       end.

Definition uninvoiced_share (account : string) (_ : string) (c : BillingCharge) : Z :=
  if bool_decide (bc_account c = account) && bool_decide (bc_invoice c = None) then bc_amount c else 0.

(** [COALESCE(sum(amount_minor),0) ... WHERE billing_account_id AND invoice_id IS NULL]. *)
Definition uninvoiced (account : string) (d : DB) : Z := msum (uninvoiced_share account) (billing_charges d).

Definition uninvoiced_query (account : string) (d : DB) : result Z :=
  let s := uninvoiced account d in
  if in_int8 s then Ok s else Err (ErrMsg "cannot scan numeric into int64").

Definition billing_account_by_id (id : string) (d : DB) : result BillingAccount :=
  match billing_accounts d !! id with Some a => Ok a | None => Err ErrNoRows end.

(** The charge is swept by an invoice of [account] over [[from, to)]. *)
Definition in_period (account : string) (from to : Z) (c : BillingCharge) : bool :=
  bool_decide (bc_account c = account) && bool_decide (bc_invoice c = None)
  && (from <=? bc_created c) && (bc_created c <? to).

Definition assign_invoice (inv : string) (account : string) (from to : Z) (c : BillingCharge) : BillingCharge :=
  if in_period account from to c
  then mkBillingCharge (bc_id c) (bc_account c) (bc_payment c) (bc_entitlement c) (bc_amount c) (Some inv)
         (bc_created c)
  else c.

(** [UPDATE billing_charges SET invoice_id = $1 WHERE ...]: the rows affected. *)
Definition sweep_charges (inv account : string) (from to : Z) : stmt Z := fun d =>
  Ok (Z.of_nat (length (filter (fun c => in_period account from to c = true) (rows (billing_charges d)))),
      fun d => set_billing_charges (assign_invoice inv account from to <$> billing_charges d) d).

Definition invoice_share (inv : string) (_ : string) (c : BillingCharge) : Z :=
  if bool_decide (bc_invoice c = Some inv) then bc_amount c else 0.

Definition invoice_total (inv : string) (d : DB) : Z := msum (invoice_share inv) (billing_charges d).

Definition invoice_lines (inv : string) (d : DB) : list BillingCharge :=
  filter (fun c => bc_invoice c = Some inv) (rows (billing_charges d)).

(** [INSERT INTO invoices ... SELECT $1, $2, $3, $4, the sum and the number of the charges RETURNING]. *)
Definition insert_invoice (inv account : string) (from to now : Z) : stmt Invoice := fun d =>
  let amount := invoice_total inv d in
  let count := Z.of_nat (length (invoice_lines inv d)) in
  if negb (in_int8 amount && in_int4 count) then Err (PgError numeric_value_out_of_range)
  else if negb ((0 <? amount) && (0 <? count) && (from <? to)) then Err (PgError check_violation)
  else match billing_accounts d !! account, invoices d !! inv,
             find_row (fun v => bool_decide (iv_account v = account) && (iv_start v =? from) && (iv_end v =? to))
               (invoices d) with
       | Some _, None, None =>
           let v := mkInvoice inv account from to amount count "issued" None now None now in
           Ok (v, put_invoice v)
       | None, _, _ => Err (PgError foreign_key_violation)
       | _, _, _ => Err (PgError unique_violation)
       end.

Definition invoice_by_period (account : string) (from to : Z) (d : DB) : result Invoice :=
  match find_row (fun v => bool_decide (iv_account v = account) && (iv_start v =? from) && (iv_end v =? to))
          (invoices d) with
  | Some v => Ok v
  | None => Err ErrNoRows
  end.

Definition invoice_by_id (id : string) (d : DB) : result Invoice :=
  match invoices d !! id with Some v => Ok v | None => Err ErrNoRows end.

Definition ledger_account_of (account : string) (d : DB) : result Z :=
  match billing_accounts d !! account with Some a => Ok (ba_ledger a) | None => Err ErrNoRows end.

(** [UPDATE invoices SET status = 'paid', paid_at, tb_transfer_id WHERE id AND status = 'issued' RETURNING]. *)
Definition settled_invoice (v : Invoice) (tb : string) (now : Z) : Invoice :=
  mkInvoice (iv_id v) (iv_account v) (iv_start v) (iv_end v) (iv_amount v) (iv_count v) "paid" (Some tb)
    (iv_issued v) (Some now) (iv_created v).

Definition mark_paid (id tb : string) (now : Z) : stmt Invoice := fun d =>
  match invoices d !! id with
  | Some v => if decide (iv_status v = "issued")
              then let v' := settled_invoice v tb now in Ok (v', put_invoice v') else Err ErrNoRows
  | None => Err ErrNoRows
  end.

Definition charge_json (c : BillingCharge) : json :=
  JObj [("id", JStr (bc_id c)); ("payment_id", JStr (bc_payment c)); ("entitlement_id", JStr (bc_entitlement c));
        ("amount_minor", JInt (bc_amount c)); ("created_at", JTime (bc_created c))].

Definition account_fields (j : json) : list (string * json) :=
  match j with JObj fs => fs | _ => [] end.

(** ** Handlers *)

Record billingAccountRequest : Type := mkBillingAccountRequest {
  br_name : string; br_kind : string; br_email : string
}.

Section Handlers.
Context {L : Type} `{Ledger L} `{Runtime}.

(** Up to three attempts, retried on a unique violation only. *)
Fixpoint create_account_loop (attempts : nat) (lastErr : error) (r : billingAccountRequest)
    : M DB L (result BillingAccount) :=
  match attempts with
  | O => gret (Err lastErr)
  | S n =>
      let! now := gets w_now in
      let! id := new_uuid in
      let! res := db_exec (insert_billing_account id (br_name r) (br_kind r) (br_email r) now) in
      match res with
      | Ok a => gret (Ok a)
      | Err (PgError code) =>
          if decide (code = unique_violation) then create_account_loop n (PgError code) r
          else gret (Err (PgError code))
      | Err e => gret (Err e)
      end
  end.

Definition CreateBillingAccount (ctx : claims) (req : option billingAccountRequest) : M DB L response :=
  match req with
  | None => reply_error 400 ("body must include " +:+ quoted "name")
  | Some r =>
      if decide (br_name r = "") then reply_error 400 ("body must include " +:+ quoted "name")
      else if negb (bool_decide (br_kind r ∈ ["corporate"; "school"; "agency"; "municipal"]))
      then reply_error 400 "kind must be corporate, school, agency or municipal"
      else
        try! a := create_account_loop 3 (ErrMsg "") r catch e => internal "create billing account" e in
        let! now := gets w_now in
        do! publish "billing.account.created"
          [("billing_account_id", JStr (ba_id a)); ("name", JStr (ba_name a)); ("kind", JStr (ba_kind a));
           ("ledger_account_id", JInt (ba_ledger a)); ("created_by", JStr (Subject ctx));
           ("created_at", JTime now)] in
        reply 201 (billing_account_json a)
  end.

Definition ListBillingAccounts : M DB L response :=
  try! l := db_query (fun d =>
      let accounts := take 200 (order_desc ba_created (rows (billing_accounts d))) in
      if forallb (fun a => in_int8 (uninvoiced (ba_id a) d)) accounts
      then Ok (map (fun a => JObj (account_fields (billing_account_json a)
                                   ++ [("uninvoiced_minor", JInt (uninvoiced (ba_id a) d))])) accounts)
      else Err (ErrMsg "cannot scan numeric into int64")) catch e => internal "list billing accounts" e in
  reply 200 (JObj [("billing_accounts", JList l)]).

Definition GetBillingAccount (id : string) : M DB L response :=
  let! r := db_query (billing_account_by_id id) in
  match r with
  | Err ErrNoRows => reply_error 404 "billing account not found"
  | Err e => internal "get billing account" e
  | Ok a =>
      try! u := db_query (uninvoiced_query id) catch e => internal "billing account accrual total" e in
      reply 200 (JObj [("billing_account", billing_account_json a); ("uninvoiced_minor", JInt u)])
  end.

(** After the lock and the replay check: account status, sweep, insert, commit, event. *)
Definition generate_tx (tx : Tx DB) (account : string) (from to : Z) : M DB L response :=
  let! st := tx_query tx (fun d => result_map ba_status (billing_account_by_id account d)) in
  match st with
  | Err ErrNoRows => reply_error 404 "billing account not found"
  | Err e => internal "lock billing account row" e
  | Ok st =>
      if negb (bool_decide (st = "active")) then reply_error 422 ("billing account is " +:+ st)
      else
        let! now := gets w_now in
        let! inv := new_uuid in
        try! (n, tx) := tx_exec tx (sweep_charges inv account from to)
          catch e => internal "sweep billing charges" e in
        if n =? 0 then reply_error 422 "no uninvoiced charges in the period"
        else
          try! (v, tx) := tx_exec tx (insert_invoice inv account from to now)
            catch e => internal "insert invoice" e in
          try! _ := commit tx catch e => internal "commit invoice" e in
          do! publish "billing.invoice.issued"
            [("invoice_id", JStr (iv_id v)); ("billing_account_id", JStr (iv_account v));
             ("period_start", JTime (iv_start v)); ("period_end", JTime (iv_end v));
             ("amount_minor", JInt (iv_amount v)); ("charge_count", JInt (iv_count v)); ("issued_at", JTime now)] in
          reply 201 (invoice_json v)
  end.

(** The period; [None] is the zero time of an absent field. *)
Definition GenerateInvoice (account : string) (req : option (option Z * option Z)) : M DB L response :=
  match req with
  | Some (Some from, Some to) =>
      if to <=? from then reply_error 400 "period_end must be after period_start"
      else
        try! tx := begin catch e => internal "begin invoice generation" e in
        (* SELECT pg_advisory_xact_lock(hashtext($1)) *)
        try! _ := tx_query tx (fun _ => Ok tt) catch e => internal "lock billing account" e in
        let! existing := tx_query tx (invoice_by_period account from to) in
        match existing with
        | Ok v => do! commit tx in reply 200 (invoice_json v)
        | Err ErrNoRows => generate_tx tx account from to
        | Err e => internal "check existing invoice" e
        end
  | _ => reply_error 400 ("body must include " +:+ quoted "period_start" +:+ " and " +:+ quoted "period_end")
  end.

Definition list_invoices (account st : string) (d : DB) : list Invoice :=
  take 200 (order_desc iv_issued
    (filter (fun v => (account = "" \/ iv_account v = account) /\ (st = "" \/ iv_status v = st)) (rows (invoices d)))).

Definition ListInvoices (account st : string) : M DB L response :=
  try! vs := db_query (fun d => Ok (list_invoices account st d)) catch e => internal "list invoices" e in
  reply 200 (JObj [("invoices", JList (map invoice_json vs))]).

(** The invoice and its lines, oldest first. *)
Definition GetInvoice (id : string) : M DB L response :=
  let! r := db_query (invoice_by_id id) in
  match r with
  | Err ErrNoRows => reply_error 404 "invoice not found"
  | Err e => internal "get invoice" e
  | Ok v =>
      try! cs := db_query (fun d => Ok (reverse (order_desc bc_created (invoice_lines id d))))
        catch e => internal "list invoice charges" e in
      reply 200 (JObj [("invoice", invoice_json v); ("charges", JList (map charge_json cs))])
  end.

(** After the transfer: mark, commit, event. *)
Definition pay_conclude (tx : Tx DB) (v : Invoice) (transferID : string) : M DB L response :=
  let! now := gets w_now in
  let! upd := tx_exec tx (mark_paid (iv_id v) transferID now) in
  match upd with
  | Err ErrNoRows =>
      try! cur := tx_query tx (invoice_by_id (iv_id v)) catch e => internal "mark invoice paid" e in
      do! commit tx in
      reply 409 (JObj [("error", JStr "invoice was concurrently settled; current state returned");
                       ("invoice", invoice_json cur)])
  | Err e => internal "mark invoice paid" e
  | Ok (paid, tx) =>
      try! _ := commit tx catch e => internal "commit invoice payment" e in
      do! publish "billing.invoice.paid"
        [("invoice_id", JStr (iv_id paid)); ("billing_account_id", JStr (iv_account paid));
         ("amount_minor", JInt (iv_amount paid)); ("tb_transfer_id", JStr transferID); ("paid_at", JTime now)] in
      reply 200 (invoice_json paid)
  end.

Definition invoice_key (id : string) : string := "invoice:" +:+ id.

Definition PayInvoice (id : string) : M DB L response :=
  try! tx := begin catch e => internal "begin invoice payment" e in
  let! r := tx_query tx (invoice_by_id id) in
  match r with
  | Err ErrNoRows => reply_error 404 "invoice not found"
  | Err e => internal "load invoice" e
  | Ok v =>
      if decide (iv_status v = "paid") then do! commit tx in reply 200 (invoice_json v)
      else if negb (bool_decide (iv_status v = "issued"))
      then reply_error 409 ("only issued invoices can be paid (status " +:+ iv_status v +:+ ")")
      else
        try! acct := tx_query tx (ledger_account_of (iv_account v))
          catch e => internal "load billing account ledger id" e in
        let! t := led_call (fun l => led_Transfer l (DeterministicTransferID (invoice_key (iv_id v))) acct
                    OperatorRevenueAccount (wrap_u64 (iv_amount v)) CodeBilling) in
        match t with
        | Err ErrInsufficientFunds =>
            reply 402 (JObj [("error", JStr "insufficient_funds");
              ("message", JStr "corporate clearing account is not funded for this invoice; record the external settlement first");
              ("invoice", invoice_json v)])
        | Err e => internal "invoice ledger transfer" e
        | Ok transferID => pay_conclude tx v transferID
        end
  end.
End Handlers.

(** ** The books of the billing tables *)

Definition line_share (inv : string) (_ : string) (c : BillingCharge) : Z :=
  if decide (bc_invoice c = Some inv) then 1 else 0.

(** Charges are positive; an invoiced charge lies on an existing invoice of its
    account and period; an invoice's total and count are those of its lines. *)
Definition billing_ok (d : DB) : Prop :=
  map_Forall (fun k c => bc_id c = k /\ 0 < bc_amount c /\
    forall i, bc_invoice c = Some i -> exists v, invoices d !! i = Some v /\
      iv_account v = bc_account c /\ iv_start v <= bc_created c < iv_end v) (billing_charges d) /\
  map_Forall (fun i v => iv_id v = i /\ 0 < iv_amount v < two63 /\
    iv_amount v = invoice_total i d /\ iv_count v = Z.of_nat (length (invoice_lines i d))) (invoices d).

Lemma invoice_lines_count inv d :
  Z.of_nat (length (invoice_lines inv d)) = msum (line_share inv) (billing_charges d).
Proof. apply count_rows. Qed.

Lemma assign_invoice_other inv account from to i c :
  i <> inv -> bc_invoice (assign_invoice inv account from to c) = Some i <-> bc_invoice c = Some i.
Proof.
  intros Hne. unfold assign_invoice, in_period. destruct (bool_decide (bc_invoice c = None)) eqn:E;
    [apply bool_decide_eq_true in E|]; destruct (bool_decide (bc_account c = account)); simpl; try done.
  destruct (_ && _); simpl; [|done]. rewrite E. split; congruence.
Qed.

Lemma assign_invoice_amount inv account from to c : bc_amount (assign_invoice inv account from to c) = bc_amount c.
Proof. unfold assign_invoice. by destruct (in_period _ _ _ _). Qed.

Lemma assign_invoice_account inv account from to c : bc_account (assign_invoice inv account from to c) = bc_account c.
Proof. unfold assign_invoice. by destruct (in_period _ _ _ _). Qed.

Definition swept (inv account : string) (from to : Z) (d : DB) : DB :=
  set_billing_charges (assign_invoice inv account from to <$> billing_charges d) d.

(** Sweeping into a new invoice leaves the totals and lines of every other one. *)
Lemma swept_total_other inv account from to i d :
  i <> inv -> invoice_total i (swept inv account from to d) = invoice_total i d.
Proof.
  intros Hne. unfold invoice_total, swept. simpl. rewrite msum_fmap. apply msum_ext. intros k c _.
  unfold invoice_share. rewrite assign_invoice_amount.
  destruct (bool_decide (bc_invoice c = Some i)) eqn:E;
    [apply bool_decide_eq_true in E|apply bool_decide_eq_false in E];
    [rewrite bool_decide_eq_true_2|rewrite bool_decide_eq_false_2]; rewrite ?assign_invoice_other by done; done.
Qed.

Lemma swept_lines_other inv account from to i d :
  i <> inv -> length (invoice_lines i (swept inv account from to d)) = length (invoice_lines i d).
Proof.
  intros Hne. apply Nat2Z.inj. rewrite !invoice_lines_count. unfold swept. simpl. rewrite msum_fmap.
  apply msum_ext. intros k c _. unfold line_share. pose proof (assign_invoice_other inv account from to i c Hne).
  repeat case_decide; tauto.
Qed.

(** What leaves the uninvoiced total is what enters the invoice. *)
Lemma swept_conserves inv account from to d :
  (forall k c, billing_charges d !! k = Some c -> bc_invoice c <> Some inv) ->
  uninvoiced account d
  = uninvoiced account (swept inv account from to d) + invoice_total inv (swept inv account from to d).
Proof.
  intros Hfresh. unfold uninvoiced, invoice_total, swept. simpl. rewrite !msum_fmap, <- msum_add.
  apply msum_ext. intros k c Hc. specialize (Hfresh k c Hc).
  unfold uninvoiced_share, invoice_share. rewrite assign_invoice_amount, assign_invoice_account.
  unfold assign_invoice, in_period. destruct (bool_decide (bc_account c = account)); simpl.
  - destruct (bool_decide (bc_invoice c = None)) eqn:E; simpl.
    + destruct (_ && _); simpl; rewrite ?E, ?bool_decide_eq_true_2, ?bool_decide_eq_false_2 by done; lia.
    + rewrite E, bool_decide_eq_false_2 by done. lia.
  - rewrite bool_decide_eq_false_2 by done. lia.
Qed.

Lemma swept_uninvoiced_other inv account from to d a :
  a <> account -> uninvoiced a (swept inv account from to d) = uninvoiced a d.
Proof.
  intros Hne. unfold uninvoiced, swept. simpl. rewrite msum_fmap. apply msum_ext. intros k c _.
  unfold uninvoiced_share, assign_invoice, in_period.
  destruct (bool_decide (bc_account c = account)) eqn:E; simpl; [|done].
  apply bool_decide_eq_true in E. rewrite E. rewrite (bool_decide_eq_false_2 (account = a)) by done.
  simpl. destruct (_ && _ && _); simpl; rewrite ?E, (bool_decide_eq_false_2 (account = a)) by done; done.
Qed.

(** The books stay right when an invoice takes a sweep. *)
Lemma billing_ok_sweep inv account from to now v g d :
  billing_ok d -> insert_invoice inv account from to now (swept inv account from to d) = Ok (v, g) ->
  billing_ok (g (swept inv account from to d)) /\ iv_id v = inv /\ iv_account v = account /\
  invoices d !! inv = None /\ g = put_invoice v /\
  iv_amount v = invoice_total inv (swept inv account from to d) /\
  (forall k c, billing_charges d !! k = Some c -> bc_invoice c <> Some inv).
Proof.
  intros [Hch Hinv] Hins. unfold insert_invoice in Hins. cbv zeta in Hins.
  destruct (negb (in_int8 _ && _)) eqn:E1; [done|]. destruct (negb _) eqn:E2 in Hins; [done|].
  destruct (billing_accounts _ !! account); [|done].
  destruct (invoices (swept inv account from to d) !! inv) eqn:Ei; [done|].
  destruct (find_row _ _); [done|]. simplify_eq. cbn [swept set_billing_charges invoices] in Ei. zbool.
  destruct E1 as [E1 _]. apply in_int8_i64 in E1. unfold i64 in E1.
  assert (forall k c, billing_charges d !! k = Some c -> bc_invoice c <> Some inv) as Hfresh.
  { intros k c Hc Hi. destruct (Hch k c Hc) as (_ & _ & Hv). destruct (Hv inv Hi) as (? & ? & _). congruence. }
  split_and!; try done. split.
  - intros k c Hc. cbn [put_invoice swept set_billing_charges billing_charges invoices] in *.
    rewrite lookup_fmap in Hc. destruct (billing_charges d !! k) as [c0|] eqn:E0; [|done]. simplify_eq/=.
    destruct (Hch k c0 E0) as (H1 & H2 & H3). rewrite assign_invoice_amount. split_and!; [|done|].
    + unfold assign_invoice. by destruct (in_period _ _ _ _).
    + intros i. rewrite assign_invoice_account. unfold assign_invoice, in_period.
      destruct (bool_decide (bc_account c0 = account)) eqn:Ea; simpl.
      2: { intros Hi. destruct (H3 i Hi) as (v & Hv & ?). exists v. rewrite lookup_insert_ne by congruence. done. }
      destruct (bool_decide (bc_invoice c0 = None)) eqn:En; simpl.
      2: { intros Hi. destruct (H3 i Hi) as (v & Hv & ?). exists v. rewrite lookup_insert_ne by congruence. done. }
      destruct (_ && _) eqn:Ep; simpl.
      2: { intros Hi. destruct (H3 i Hi) as (v & Hv & ?). exists v. rewrite lookup_insert_ne by congruence. done. }
      intros [= <-]. eexists. split; [apply lookup_insert_eq|]. simpl. apply bool_decide_eq_true in Ea. zbool.
      split; [done|lia].
  - cbn [put_invoice invoices swept set_billing_charges]. apply map_Forall_insert_2.
    + split_and!; try done; simpl; lia.
    + intros i v Hv. destruct (Hinv i v Hv) as (H1 & H2 & H3 & H4).
      assert (i <> inv) by congruence.
      split_and!; [done|lia|lia| |].
      * by rewrite H3, <- (swept_total_other inv account from to i d).
      * by rewrite H4, <- (swept_lines_other inv account from to i d).
Qed.

(** ** Invoice generation *)

Section GenerateSpec.
Context {L : Type} `{Runtime}.
Implicit Types w : World DB L.

(** The database after a generation: unchanged, or one sweep into one new invoice. *)
Definition generated (account : string) w w' : Prop :=
  w_led w' = w_led w /\ w_now w' = w_now w /\
  (w_db w' = w_db w /\ w_bus w' = w_bus w \/
   exists from to v g, let inv := uuid_of (w_uuids w) in
     insert_invoice inv account from to (w_now w) (swept inv account from to (w_db w)) = Ok (v, g) /\
     w_db w' = g (swept inv account from to (w_db w))).

Lemma generated_none account w s n : generated account w (with_sched s (with_uuids n w)).
Proof. split_and!; [done|done|by left]. Qed.

Lemma generate_spec account req w :
  wp (GenerateInvoice account req) (fun _ w' => generated account w w') w.
Proof.
  assert (forall (r : response) s n, wp (gret r) (fun _ w' => generated account w w')
    (with_sched s (with_uuids n w))) as Hno by (intros; apply wp_ret, generated_none).
  assert (forall r : response, wp (gret r) (fun _ w' => generated account w w') w) as Hno0.
  { intros r. apply wp_ret. split_and!; [done|done|by left]. }
  unfold GenerateInvoice. destruct req as [[[from|] [to|]]|]; try apply Hno0.
  destruct (to <=? from); [apply Hno0|].
  apply wp_bind, wp_begin; intros s1; [|apply (Hno _ s1 (w_uuids w))].
  apply wp_bind, wp_tx_query; intros s2; [|apply (Hno _ s2 (w_uuids w))].
  apply wp_bind, wp_tx_query; intros s3; [|apply (Hno _ s3 (w_uuids w))].
  cbn [w_db with_sched]. destruct (invoice_by_period _ _ _ _) as [v|e].
  { apply wp_bind, wp_commit; intros s4; apply (Hno _ s4 (w_uuids w)). }
  destruct e; try apply (Hno _ s3 (w_uuids w)).
  unfold generate_tx. apply wp_bind, wp_tx_query; intros s4; [|apply (Hno _ s4 (w_uuids w))].
  destruct (result_map _ _) as [st|e]; [|destruct e; apply (Hno _ s4 (w_uuids w))].
  destruct (negb _); [apply (Hno _ s4 (w_uuids w))|].
  apply wp_bind, wp_gets, wp_bind, wp_new_uuid. set (inv := uuid_of _).
  apply wp_bind, wp_tx_exec; intros s5; try (intros; apply (Hno _ s5 (w_uuids w + 1)%nat)).
  intros n g Hg. unfold sweep_charges in Hg. cbn [w_db with_sched with_uuids] in Hg. injection Hg as <- <-.
  destruct (_ =? 0); [apply (Hno _ s5 (w_uuids w + 1)%nat)|].
  apply wp_bind, wp_tx_exec; intros s6; try (intros; apply (Hno _ s6 (w_uuids w + 1)%nat)).
  intros v g2 Hg2. apply wp_bind, wp_commit; intros s7.
  - apply wp_bind, wp_publish; intros; apply wp_ret; (split_and!; [done|done|right]); by exists from, to, v, g2.
  - apply wp_ret. split_and!; [done|done|right]. by exists from, to, v, g2.
  - apply (Hno _ s7 (w_uuids w + 1)%nat).
Qed.

(** C23: invoicing conserves the accruals: whatever the period and the faults, after
    [GenerateInvoice] the books are right (every invoice's total and count are
    those of its lines, every invoiced charge is on one invoice of its account
    and period), and when an invoice was issued its amount is exactly what
    left the account's uninvoiced total, other accounts being untouched. *)
Theorem invoicing_conserves_accruals (account : string) (req : option (option Z * option Z))
    (w : World DB L) (Hok : billing_ok (w_db w)) :
  let d' := w_db (GenerateInvoice account req w).2 in
  billing_ok d' /\
  (d' = w_db w \/
   exists v, invoices (w_db w) !! iv_id v = None /\ invoices d' = <[iv_id v := v]> (invoices (w_db w)) /\
     iv_account v = account /\ uninvoiced account (w_db w) = uninvoiced account d' + iv_amount v /\
     forall a, a <> account -> uninvoiced a d' = uninvoiced a (w_db w)).
Proof.
  intros d'. destruct (generate_spec account req w) as (_ & _ & [[E _]|(from & to & v & g & Hins & E)]).
  { fold d' in E. rewrite E. split; [done|by left]. }
  fold d' in E. destruct (billing_ok_sweep _ _ _ _ _ _ _ _ Hok Hins) as (Hok' & Hid & Hacc & Hn & -> & Hamt & Hfresh).
  rewrite E. split; [done|right]. exists v. rewrite Hid. split_and!; [done| |done| |].
  - cbn. by rewrite Hid.
  - rewrite Hamt. by apply swept_conserves.
  - intros a Ha. by apply (swept_uninvoiced_other (uuid_of (w_uuids w)) account from to (w_db w) a).
Qed.

(** Invoice generation is idempotent on the account and period: when an
    invoice for them exists, nothing is stored or published again and a
    success answer is that invoice. *)
Theorem invoice_generation_replays (account : string) (from to : Z) (w : World DB L) (v : Invoice)
    (Hperiod : from < to) (Hex : invoice_by_period account from to (w_db w) = Ok v) :
  let r := (GenerateInvoice account (Some (Some from, Some to)) w).1 in
  let w' := (GenerateInvoice account (Some (Some from, Some to)) w).2 in
  w_db w' = w_db w /\ w_bus w' = w_bus w /\ w_led w' = w_led w /\
  (r = mkResponse 200 (invoice_json v) \/ status r = 500).
Proof.
  change (wp (GenerateInvoice account (Some (Some from, Some to))) (fun r w' =>
    w_db w' = w_db w /\ w_bus w' = w_bus w /\ w_led w' = w_led w /\
    (r = mkResponse 200 (invoice_json v) \/ status r = 500)) w).
  unfold GenerateInvoice. rewrite (proj2 (Z.leb_gt _ _)) by done.
  apply wp_bind, wp_begin; intros s1; [|apply wp_ret; split_and!; [done..|by right]].
  apply wp_bind, wp_tx_query; intros s2; [|apply wp_ret; split_and!; [done..|by right]].
  apply wp_bind, wp_tx_query; intros s3; [|apply wp_ret; split_and!; [done..|by right]].
  cbn [w_db with_sched]. rewrite Hex.
  apply wp_bind, wp_commit; intros s4; apply wp_ret; split_and!; try done; by left.
Qed.
End GenerateSpec.

(** ** Paying an invoice *)

Section PaySpec.
Context {L : Type} `{LedgerSpec L}.
Implicit Types w : World DB L.

Definition invoice_transfer (v : Invoice) (a : BillingAccount) (l l' : L) (r : result string) : Prop :=
  led_Transfer l (DeterministicTransferID (invoice_key (iv_id v))) (ba_ledger a) OperatorRevenueAccount
    (wrap_u64 (iv_amount v)) CodeBilling = (r, l').

(** What a payment attempt does: nothing; or the posting, with the row
    unchanged and no success answer, or with the row settled. *)
Definition pay_ran (id : string) w (r : response) w' : Prop :=
  w_now w' = w_now w /\
  (w_db w' = w_db w /\ w_led w' = w_led w /\ w_bus w' = w_bus w /\
     (status r = 200 -> exists v, invoices (w_db w) !! id = Some v /\ iv_status v = "paid"%string /\
        r = mkResponse 200 (invoice_json v)) \/
   exists v a lr, invoices (w_db w) !! id = Some v /\ iv_status v = "issued"%string /\
     billing_accounts (w_db w) !! iv_account v = Some a /\
     invoice_transfer v a (w_led w) (w_led w') lr /\
     (w_db w' = w_db w /\ status r <> 200 \/
      exists h, lr = Ok h /\ w_db w' = put_invoice (settled_invoice v h (w_now w)) (w_db w) /\
        (r = mkResponse 200 (invoice_json (settled_invoice v h (w_now w))) \/ status r = 500))).

Lemma pay_spec id w :
  (forall v, invoices (w_db w) !! id = Some v -> iv_id v = id) ->
  wp (PayInvoice id) (pay_ran id w) w.
Proof.
  intros Hkey. unfold PayInvoice.
  assert (forall (r : response) s, status r <> 200 -> wp (gret r) (pay_ran id w) (with_sched s w)) as Hno.
  { intros r s Hr. apply wp_ret. split; [done|left]. by split_and!. }
  apply wp_bind, wp_begin; intros s1; [|by apply (Hno _ s1)].
  apply wp_bind, wp_tx_query; intros s2; [|by apply (Hno _ s2)]. cbn [w_db with_sched].
  unfold invoice_by_id at 1. destruct (invoices (w_db w) !! id) as [v|] eqn:Ev; [|by apply (Hno _ s2)].
  case_decide as Hpaid.
  { apply wp_bind, wp_commit; intros s3; apply wp_ret; (split; [done|left]); split_and!; try done;
      intros _; by exists v. }
  destruct (negb _) eqn:Eiss; [by apply (Hno _ s2)|]. zbool. apply bool_decide_eq_true in Eiss.
  apply wp_bind, wp_tx_query; intros s3; [|by apply (Hno _ s3)]. cbn [w_db with_sched].
  unfold ledger_account_of. destruct (billing_accounts (w_db w) !! iv_account v) as [a|] eqn:Ea; [|by apply (Hno _ s3)].
  pose proof (Hkey v eq_refl) as Hid.
  apply wp_bind, wp_led_call; intros s4; [| |by apply (Hno _ s4)].
  - intros lr l Hl. cbn [w_led with_sched] in Hl. destruct lr as [h|e].
    2: { destruct e; apply wp_ret; (split; [done|right]); exists v, a; eexists;
         (split_and!; [done..|exact Hl|by left]). }
    unfold pay_conclude. apply wp_bind, wp_gets, wp_bind.
    assert (mark_paid (iv_id v) h (w_now w) (w_db w)
      = Ok (settled_invoice v h (w_now w), put_invoice (settled_invoice v h (w_now w)))) as Hm.
    { unfold mark_paid. by rewrite Hid, Ev, decide_True. }
    apply wp_tx_exec; intros s5; cbn [w_db w_now with_led with_sched]; rewrite ?Hm.
    + intros p g Hp. simplify_eq. apply wp_bind, wp_commit; intros s6.
      * apply wp_bind, wp_publish; intros; apply wp_ret; (split; [done|right]); exists v, a, (Ok h);
          (split_and!; [done..|exact Hl|right]; exists h; split_and!; [done..|by left]).
      * apply wp_ret. split; [done|right]. exists v, a, (Ok h).
        split_and!; [done..|exact Hl|right]. exists h. split_and!; [done..|by right].
      * apply wp_ret. split; [done|right]. exists v, a, (Ok h). split_and!; [done..|exact Hl|by left].
    + intros e He. simplify_eq.
    + apply wp_ret. split; [done|right]. exists v, a, (Ok h). split_and!; [done..|exact Hl|by left].
  - intros lr l Hl. apply wp_ret. split; [done|right]. exists v, a, lr. split_and!; [done..|exact Hl|by left].
Qed.

(** ** Paying once *)

(** The invoice is as it was, or settled with its transfer posted. *)
Definition pay_state (id : string) (v : Invoice) (a : BillingAccount) w : Prop :=
  led_ok (w_led w) /\ billing_accounts (w_db w) !! iv_account v = Some a /\
  (invoices (w_db w) !! id = Some v \/
   exists h t, invoices (w_db w) !! id = Some (settled_invoice v h t) /\
     led_posted (w_led w) (DeterministicTransferID (invoice_key id)) = true).

Definition invoice_debit (v : Invoice) (a : BillingAccount) (f : Z -> Z) : Prop :=
  f = delta (ba_ledger a) OperatorRevenueAccount (iv_amount v).

Definition pay_attempt (id : string) w (t : Z * list outcome) : World DB L :=
  (PayInvoice id (with_now t.1 (with_sched t.2 w))).2.

Lemma pay_attempt_step id v a w t :
  iv_id v = id -> 0 < iv_amount v < two63 -> pay_state id v a w ->
  pay_state id v a (pay_attempt id w t) /\
  posts_at_most (DeterministicTransferID (invoice_key id)) (invoice_debit v a) (w_led w) (w_led (pay_attempt id w t)).
Proof.
  intros Hid Ham (Hok & Hacc & Hrow). unfold pay_attempt. set (w0 := with_now _ _).
  assert (forall u, invoices (w_db w0) !! id = Some u -> iv_id u = id) as Hkey.
  { intros u Hu. cbn in Hu. destruct Hrow as [Hv|(h & tm & Hv & _)]; rewrite Hu in Hv; by simplify_eq. }
  destruct (pay_spec id w0 Hkey) as [_ [(E1 & E2 & _)|(u & a' & lr & Hu & Hst & Ha' & Htr & Hend)]].
  { unfold pay_state. rewrite E1, E2. split; [done|apply posts_at_most_refl]. }
  cbn [w0 w_db w_led with_now with_sched] in *.
  destruct Hrow as [Hv|(h & tm & Hv & _)]; rewrite Hu in Hv; simplify_eq.
  unfold invoice_transfer in Htr. destruct (posting_step _ _ _ _ _ _ _ _ Hok Ham Htr) as [Hok' Hcase].
  split.
  - unfold pay_state. destruct Hend as [[-> _]|(h & -> & -> & _)]; (split_and!; [done|done|]); [by left|right].
    exists h, (w_now w0). split; [apply lookup_insert_eq|]. by destruct (posting_done _ _ _ _ _ _ _ _ Hok Ham Htr).
  - destruct Hcase as [[Hb Hp]|(Hn & _ & Hb & Hp)]; [by left|right].
    rewrite Hp, decide_True by done. split_and!; [done..|]. by eexists.
Qed.

(** An invoice is paid once: over any number of attempts to pay it, at any times
    and with any faults, the ledger moves by exactly the invoice amount from
    the account's clearing account to operator revenue, or not at all; the
    row changes only to [paid], and then the transfer is posted. *)
Theorem invoice_paid_once (id : string) (v : Invoice) (a : BillingAccount) (w : World DB L)
    (l : list (Z * list outcome))
    (Hid : iv_id v = id) (Hamount : 0 < iv_amount v < two63) (Hok : led_ok (w_led w))
    (Hacc : billing_accounts (w_db w) !! iv_account v = Some a)
    (Hrow : invoices (w_db w) !! id = Some v) :
  let w' := foldl (pay_attempt id) w l in
  pay_state id v a w' /\
  ((forall x, led_balance (w_led w') x = led_balance (w_led w) x) \/
   forall x, led_balance (w_led w') x
     = led_balance (w_led w) x + delta (ba_ledger a) OperatorRevenueAccount (iv_amount v) x).
Proof.
  destruct (posts_once w_led (pay_attempt id) (pay_state id v a) (fun _ => True)
    (DeterministicTransferID (invoice_key id)) (invoice_debit v a)) with (l := l) (w := w)
    as [Hs [[Hb _]|(_ & _ & f & -> & Hb)]]; [| | |by split; [|left]|by split; [|right]].
  - intros w1 t _ Hw1. by apply pay_attempt_step.
  - by apply Forall_true.
  - split_and!; [done|done|by left].
Qed.
End PaySpec.

(** ** Clearing accounts *)

(** Every clearing account lies in the billing range or above, and no two
    billing accounts share one. *)
Definition accounts_ok (d : DB) : Prop :=
  forall k a, billing_accounts d !! k = Some a -> FirstBillingAccountID <= ba_ledger a /\
    forall k' a', billing_accounts d !! k' = Some a' -> ba_ledger a = ba_ledger a' -> k = k'.

Lemma max_ledger_ge (m : gmap string BillingAccount) k a :
  m !! k = Some a -> exists x, max_ledger m = Some x /\ ba_ledger a <= x.
Proof. intros Hk. apply (max_account_ge _ k). by rewrite lookup_fmap, Hk. Qed.

Section Accounts.
Context {L : Type} `{Runtime}.
Implicit Types w : World DB L.

Lemma insert_billing_account_ok id name kind email now d a g :
  accounts_ok d -> insert_billing_account id name kind email now d = Ok (a, g) -> accounts_ok (g d).
Proof.
  intros Hok Hins. unfold insert_billing_account in Hins. cbv zeta in Hins.
  destruct (negb _); [done|]. destruct (find_row _ _); [done|].
  destruct (billing_accounts d !! id) eqn:Eid; [done|]. simplify_eq.
  set (n := default (FirstBillingAccountID - 1) (max_ledger (billing_accounts d)) + 1).
  assert (forall k a, billing_accounts d !! k = Some a -> ba_ledger a < n) as Hlt.
  { intros k a Hk. destruct (max_ledger_ge _ _ _ Hk) as (x & Hx & Hle). unfold n. rewrite Hx. simpl. lia. }
  assert (FirstBillingAccountID <= n) as Hn.
  { unfold n. destruct (max_ledger (billing_accounts d)) as [x|] eqn:E; simpl; [|lia].
    destruct (map_choose (billing_accounts d)) as (k & a & Hk); [by intros Hm; rewrite Hm in E|].
    destruct (max_ledger_ge _ _ _ Hk) as (x' & Hx' & Hle). destruct (Hok k a Hk). simplify_eq. lia. }
  intros k a Hk. simpl in Hk. rewrite lookup_insert in Hk.
  case_decide; simplify_eq; simpl.
  - split; [done|]. intros k' a' Hk'. rewrite lookup_insert in Hk'. case_decide; [done|].
    intros Heq. simpl in Heq. specialize (Hlt k' a' Hk'). lia.
  - destruct (Hok k a Hk) as [H1 H2]. split; [done|]. intros k' a' Hk' Heq. rewrite lookup_insert in Hk'.
    case_decide; simplify_eq; simpl in *; [|by eapply H2]. specialize (Hlt k a Hk). lia.
Qed.

(** Clearing accounts are never shared: [CreateBillingAccount] under any
    faults and retries keeps every billing account on its own ledger account,
    at 5001 or above. *)
Theorem clearing_accounts_distinct (ctx : claims) (req : option billingAccountRequest) (w : World DB L)
    (Hok : accounts_ok (w_db w)) :
  accounts_ok (w_db (CreateBillingAccount ctx req w).2).
Proof.
  change (wp (CreateBillingAccount ctx req) (fun _ w' => accounts_ok (w_db w')) w).
  unfold CreateBillingAccount. destruct req as [r|]; [|by apply wp_ret].
  case_decide; [by apply wp_ret|]. destruct (negb _); [by apply wp_ret|].
  apply wp_bind. eapply (wp_mono _ (fun _ w' => accounts_ok (w_db w'))).
  - intros [a|e] w' Hw'; [|by apply wp_ret]. apply wp_bind, wp_gets, wp_bind, wp_publish; intros; by apply wp_ret.
  - revert w Hok. generalize (ErrMsg "") as e. generalize 3%nat as n.
    induction n as [|n IH]; intros e w Hok; [by apply wp_ret|]. cbn [create_account_loop].
    apply wp_bind, wp_gets, wp_bind, wp_new_uuid, wp_bind, wp_db_exec; intros s.
    + intros a g Hg. apply wp_ret. by eapply insert_billing_account_ok.
    + intros a g Hg. apply wp_ret. by eapply insert_billing_account_ok.
    + intros e' _. destruct e'; try by apply wp_ret. case_decide; [by apply IH|by apply wp_ret].
    + by apply wp_ret.
Qed.
End Accounts.

(** ** Concrete runs *)

#[local] Existing Instance test_runtime.

(** Corp accrued 125 for one ride; its clearing account holds 500. *)
Definition corp : BillingAccount := mkBillingAccount "corp" "Corp" "corporate" "" 5001 "active" 0.

Definition accrued : BillingCharge := mkBillingCharge "c1" "corp" "uuid-0" "ent" 125 None 1000.

Definition billing_db : DB :=
  mkDB ∅ ∅ ∅ ∅ ∅ ∅ ∅ ∅ {[ "corp" := corp ]} {[ "c1" := accrued ]} ∅.

Definition clearing_led : simulated := mkSimulated {[5001 := 500]} ∅.

Definition billing_world : World DB simulated := mkWorld billing_db clearing_led [] 9000 0 [] [] [].

Lemma billing_db_ok : billing_ok billing_db.
Proof.
  split; simpl.
  - apply map_Forall_singleton. simpl. split_and!; [done|lia|done].
  - apply map_Forall_empty.
Qed.

Lemma clearing_led_ok : sim_ok clearing_led.
Proof.
  split_and!; simpl.
  - intros k v. rewrite lookup_singleton. case_decide; congruence || (intros; simplify_eq; lia).
  - unfold total. vm_compute. done.
  - intros id h. rewrite lookup_empty. done.
Qed.

Example invoice_run :
  let '(r1, w1) := GenerateInvoice "corp" (Some (Some 0, Some 5000)) billing_world in
  let '(r2, w2) := PayInvoice "uuid-0" w1 in
  (status r1, status r2, uninvoiced "corp" (w_db w1), sim_balance (w_led w2) 5001,
   map iv_status (rows (invoices (w_db w2)))) = (201, 200, 0, 375, ["paid"]).
Proof. vm_compute. reflexivity. Qed.

Lemma invoicing_conserves_accruals_witness :
  let d' := w_db (GenerateInvoice "corp" (Some (Some 0, Some 5000)) billing_world).2 in
  billing_ok d' /\
  (d' = w_db billing_world \/
   exists v, invoices (w_db billing_world) !! iv_id v = None /\
     invoices d' = <[iv_id v := v]> (invoices (w_db billing_world)) /\
     iv_account v = "corp"%string /\
     uninvoiced "corp" (w_db billing_world) = uninvoiced "corp" d' + iv_amount v /\
     forall a, a <> "corp"%string -> uninvoiced a d' = uninvoiced a (w_db billing_world)).
Proof. apply (invoicing_conserves_accruals "corp" (Some (Some 0, Some 5000)) billing_world). exact billing_db_ok. Defined.

(** The issued invoice of the run above. *)
Definition issued : Invoice := mkInvoice "inv" "corp" 0 5000 125 1 "issued" None 9000 None 9000.

Definition issued_world : World DB simulated :=
  mkWorld (put_invoice issued (put_billing_charge
    (mkBillingCharge "c1" "corp" "uuid-0" "ent" 125 (Some "inv") 1000) billing_db))
    clearing_led [] 9000 0 [] [] [].

Lemma invoice_generation_replays_witness :
  let r := (GenerateInvoice "corp" (Some (Some 0, Some 5000)) issued_world).1 in
  let w' := (GenerateInvoice "corp" (Some (Some 0, Some 5000)) issued_world).2 in
  w_db w' = w_db issued_world /\ w_bus w' = w_bus issued_world /\ w_led w' = w_led issued_world /\
  (r = mkResponse 200 (invoice_json issued) \/ status r = 500).
Proof.
  apply (invoice_generation_replays "corp" 0 5000 issued_world issued).
  - lia.
  - vm_compute. reflexivity.
Defined.

(** A first attempt whose commit is lost, then a retry. *)
Lemma invoice_paid_once_witness :
  let w' := foldl (pay_attempt "inv") issued_world [(9000, [Done; Done; Done; Done; Done; Lost]); (9500, [])] in
  pay_state "inv" issued corp w' /\
  ((forall x, led_balance (w_led w') x = led_balance (w_led issued_world) x) \/
   forall x, led_balance (w_led w') x
     = led_balance (w_led issued_world) x + delta (ba_ledger corp) OperatorRevenueAccount (iv_amount issued) x).
Proof.
  apply (invoice_paid_once "inv" issued corp issued_world).
  - reflexivity.
  - unfold two63. simpl. lia.
  - exact clearing_led_ok.
  - vm_compute. reflexivity.
  - vm_compute. reflexivity.
Defined.

Lemma clearing_accounts_distinct_witness :
  accounts_ok (w_db (CreateBillingAccount alice (Some (mkBillingAccountRequest "School" "school" "")) billing_world).2).
Proof.
  apply (clearing_accounts_distinct alice (Some (mkBillingAccountRequest "School" "school" "")) billing_world).
  intros k a Hk. simpl in Hk. apply lookup_singleton_Some in Hk as [<- <-]. split; [vm_compute; discriminate|].
  intros k' a' Hk'. simpl in Hk'. apply lookup_singleton_Some in Hk' as [<- _]. done.
Defined.
