(* ===== verification/Advertising.v ===== *)
(** * Advertising: campaigns, inventory and placements

    Models services/go/commerce-api/internal/handlers/advertising.go over its
    three tables (with the overlap exclusion constraint and foreign keys of
    infra/sql/migrations/0005_missing_schemas.sql).  A placement is booked in
    one transaction that locks the campaign row, so a request is one step;
    [UpdateCampaign] reads and then updates without a condition, so the part
    after the read is a definition of its own. *)

From S2P Require Import Prelude Codec World Auth CommerceDb.

Open Scope go_scope.

(** ** Rows and tables *)

Record Campaign : Type := mkCampaign {
  cm_id : string; cm_name : string; cm_advertiser : string; cm_budget : Z; cm_status : string;
  cm_starts : option Z; cm_ends : option Z; cm_created : Z
}.

Record AdInventory : Type := mkAdInventory {
  ai_id : string; ai_kind : string; ai_bus : option string; ai_label : string; ai_active : bool; ai_created : Z
}.

Record AdPlacement : Type := mkAdPlacement {
  pl_id : string; pl_campaign : string; pl_inventory : string; pl_starts : Z; pl_ends : Z; pl_cost : Z;
  pl_created : Z
}.

(** The advertising tables, and the vehicles their foreign key refers to. *)
Record AdDB : Type := mkAdDB {
  ad_campaigns : gmap string Campaign;
  ad_inventory : gmap string AdInventory;
  ad_placements : gmap string AdPlacement;
  vehicles : gset string
}.

Definition put_campaign (c : Campaign) (d : AdDB) : AdDB :=
  mkAdDB (<[cm_id c := c]> (ad_campaigns d)) (ad_inventory d) (ad_placements d) (vehicles d).
Definition put_inventory (i : AdInventory) (d : AdDB) : AdDB :=
  mkAdDB (ad_campaigns d) (<[ai_id i := i]> (ad_inventory d)) (ad_placements d) (vehicles d).
Definition put_placement (p : AdPlacement) (d : AdDB) : AdDB :=
  mkAdDB (ad_campaigns d) (ad_inventory d) (<[pl_id p := p]> (ad_placements d)) (vehicles d).

Abbreviation ad_stmt A := (AdDB -> result (A * (AdDB -> AdDB))).

(** ** Spend *)

Definition cost_share (campaign : string) (_ : string) (p : AdPlacement) : Z :=
  if bool_decide (pl_campaign p = campaign) then pl_cost p else 0.

(** [COALESCE(sum(cost_minor),0) FROM ad_placements WHERE campaign_id]. *)
Definition committed (campaign : string) (d : AdDB) : Z := msum (cost_share campaign) (ad_placements d).

(** The sum is [numeric]; scanning it into an [int64] fails out of range. *)
Definition scan_sum (s : Z) : result Z :=
  if in_int8 s then Ok s else Err (ErrMsg "cannot scan numeric into int64").

(** [campaignCols]: a campaign row with the sum of its placements. *)
Definition campaign_row (d : AdDB) (c : Campaign) : Campaign * Z := (c, committed (cm_id c) d).

(** [scanCampaign]: the row with its spend and what is left of the budget. *)
Definition scanCampaign (row : Campaign * Z) : result (Campaign * Z * Z) :=
  match scan_sum row.2 with
  | Ok s => Ok (row.1, s, wrap_i64 (cm_budget row.1 - s))
  | Err e => Err e
  end.

Fixpoint scan_all (rs : list (Campaign * Z)) : result (list (Campaign * Z * Z)) :=
  match rs with
  | [] => Ok []
  | r :: rs' => match scanCampaign r with
                | Err e => Err e
                | Ok x => match scan_all rs' with Ok xs => Ok (x :: xs) | Err e => Err e end
                end
  end.

Definition jopt_time (k : string) (t : option Z) : list (string * json) :=
  match t with Some x => [(k, JTime x)] | None => [] end.

Definition campaign_json (x : Campaign * Z * Z) : json :=
  let '(c, com, rem) := x in
  JObj ([("id", JStr (cm_id c)); ("name", JStr (cm_name c)); ("advertiser", JStr (cm_advertiser c));
         ("budget_minor", JInt (cm_budget c)); ("committed_minor", JInt com);
         ("remaining_budget_minor", JInt rem); ("status", JStr (cm_status c))]
    ++ jopt_time "starts_at" (cm_starts c) ++ jopt_time "ends_at" (cm_ends c)
    ++ [("created_at", JTime (cm_created c))]).

Definition inventory_json (i : AdInventory) : json :=
  JObj ([("id", JStr (ai_id i)); ("kind", JStr (ai_kind i))] ++ jopt_field "bus_id" (ai_bus i)
    ++ [("label", JStr (ai_label i)); ("active", JBool (ai_active i)); ("created_at", JTime (ai_created i))]).

Definition placement_json (p : AdPlacement) : json :=
  JObj [("id", JStr (pl_id p)); ("campaign_id", JStr (pl_campaign p)); ("inventory_id", JStr (pl_inventory p));
        ("starts_at", JTime (pl_starts p)); ("ends_at", JTime (pl_ends p)); ("cost_minor", JInt (pl_cost p));
        ("created_at", JTime (pl_created p))].

(** ** Statements *)

Definition exclusion_violation : string := "23P01".

Definition insert_campaign (c : Campaign) : ad_stmt (Campaign * Z) := fun d =>
  match ad_campaigns d !! cm_id c with
  | Some _ => Err (PgError unique_violation)
  | None => Ok (campaign_row d c, put_campaign c)
  end.

Definition campaign_by_id (id : string) (d : AdDB) : result Campaign :=
  match ad_campaigns d !! id with Some c => Ok c | None => Err ErrNoRows end.

(** [UPDATE ad_campaigns SET status = $2 WHERE id = $1 RETURNING]. *)
Definition with_status (c : Campaign) (st : string) : Campaign :=
  mkCampaign (cm_id c) (cm_name c) (cm_advertiser c) (cm_budget c) st (cm_starts c) (cm_ends c) (cm_created c).

Definition set_status (id st : string) : ad_stmt (Campaign * Z) := fun d =>
  match ad_campaigns d !! id with
  | None => Err ErrNoRows
  | Some c => Ok (campaign_row d (with_status c st), put_campaign (with_status c st))
  end.

Definition insert_inventory (i : AdInventory) : ad_stmt AdInventory := fun d =>
  match ai_bus i with
  | Some b => if decide (b ∈ vehicles d)
              then match ad_inventory d !! ai_id i with
                   | Some _ => Err (PgError unique_violation)
                   | None => Ok (i, put_inventory i)
                   end
              else Err (PgError foreign_key_violation)
  | None => match ad_inventory d !! ai_id i with
            | Some _ => Err (PgError unique_violation)
            | None => Ok (i, put_inventory i)
            end
  end.

Definition inventory_active (id : string) (d : AdDB) : result bool :=
  match ad_inventory d !! id with Some i => Ok (ai_active i) | None => Err ErrNoRows end.

(** [inventory_id WITH =, tstzrange(starts_at, ends_at) WITH &&]. *)
Definition overlaps (p q : AdPlacement) : bool :=
  bool_decide (pl_inventory p = pl_inventory q) && (pl_starts p <? pl_ends q) && (pl_starts q <? pl_ends p).

Definition insert_placement (p : AdPlacement) : ad_stmt AdPlacement := fun d =>
  if pl_ends p <=? pl_starts p then Err (PgError check_violation)
  else match find_row (overlaps p) (ad_placements d) with
       | Some _ => Err (PgError exclusion_violation)
       | None =>
           match ad_placements d !! pl_id p, ad_campaigns d !! pl_campaign p, ad_inventory d !! pl_inventory p with
           | None, Some _, Some _ => Ok (p, put_placement p)
           | Some _, _, _ => Err (PgError unique_violation)
           | _, _, _ => Err (PgError foreign_key_violation)
           end
       end.

(** ** Handlers *)

Definition validCampaignStatus (s : string) : bool := bool_decide (s ∈ ["draft"; "active"; "paused"; "ended"]).

(** The campaign lifecycle; [ended] is terminal. *)
Definition transition_allowed (from to : string) : bool :=
  match from with
  | "draft" => bool_decide (to ∈ ["draft"; "active"; "ended"])
  | "active" => bool_decide (to ∈ ["active"; "paused"; "ended"])
  | "paused" => bool_decide (to ∈ ["paused"; "active"; "ended"])
  | "ended" => bool_decide (to = "ended")
  | _ => false
  end.

Definition validInventoryKind (k : string) : bool :=
  bool_decide (k ∈ ["bus-side"; "bus-interior"; "shelter"; "digital-screen"]).

Definition maxCampaignNameLen : nat := 200.

Record createCampaignRequest : Type := mkCreateCampaign {
  cc_name : string; cc_advertiser : string; cc_budget : Z; cc_starts : option Z; cc_ends : option Z
}.

Record createInventoryRequest : Type := mkCreateInventory {
  ci_kind : string; ci_bus : option string; ci_label : string
}.

Record createPlacementRequest : Type := mkCreatePlacement {
  pr_campaign : string; pr_inventory : string; pr_starts : Z; pr_ends : Z; pr_cost : Z
}.

Section Handlers.
Context {L : Type} `{Runtime}.

Definition ListCampaigns (st : string) : M AdDB L response :=
  try! rs := db_query (fun d => Ok (map (campaign_row d) (take 200 (order_desc cm_created
      (filter (fun c => st = "" \/ cm_status c = st) (rows (ad_campaigns d)))))))
    catch e => internal "list campaigns" e in
  try! cs := gret (scan_all rs) catch e => internal "scan campaign" e in
  reply 200 (JObj [("campaigns", JList (map campaign_json cs))]).

Definition GetCampaign (id : string) : M AdDB L response :=
  let! r := db_query (fun d => result_map (campaign_row d) (campaign_by_id id d)) in
  match r with
  | Err ErrNoRows => reply_error 404 "campaign not found"
  | Err e => internal "get campaign" e
  | Ok row => try! x := gret (scanCampaign row) catch e => internal "get campaign" e in
              reply 200 (campaign_json x)
  end.

Definition CreateCampaign (req : option createCampaignRequest) : M AdDB L response :=
  match req with
  | None => reply_error 400 "invalid JSON body"
  | Some r =>
      let name := TrimSpace (cc_name r) in
      if bool_decide (name = "") || (maxCampaignNameLen <? String.length name)%nat
      then reply_error 400 "name is required (1-200 chars)"
      else if cc_budget r <? 0 then reply_error 400 "budget_minor must not be negative"
      else if match cc_starts r, cc_ends r with Some s, Some e => e <? s | _, _ => false end
      then reply_error 400 "ends_at must not be before starts_at"
      else
        let! now := gets w_now in
        let! id := new_uuid in
        try! row := db_exec (insert_campaign (mkCampaign id name (cc_advertiser r) (cc_budget r) "draft"
                               (cc_starts r) (cc_ends r) now)) catch e => internal "create campaign" e in
        try! x := gret (scanCampaign row) catch e => internal "create campaign" e in
        reply 201 (campaign_json x)
  end.

(** After the read of the current status: the transition check and the update. *)
Definition update_after_read (id current st : string) : M AdDB L response :=
  if negb (transition_allowed current st)
  then reply_error 409 ("invalid status transition from " +:+ current +:+ " to " +:+ st)
  else
    let! r := db_exec (set_status id st) in
    match r with
    | Err ErrNoRows => reply_error 404 "campaign not found"
    | Err e => internal "update campaign" e
    | Ok row => try! x := gret (scanCampaign row) catch e => internal "update campaign" e in
                reply 200 (campaign_json x)
    end.

Definition UpdateCampaign (id : string) (req : option string) : M AdDB L response :=
  match req with
  | None => reply_error 400 "status must be one of draft|active|paused|ended"
  | Some st =>
      if negb (validCampaignStatus st) then reply_error 400 "status must be one of draft|active|paused|ended"
      else
        let! r := db_query (fun d => result_map cm_status (campaign_by_id id d)) in
        match r with
        | Err ErrNoRows => reply_error 404 "campaign not found"
        | Err e => internal "load campaign status" e
        | Ok current => update_after_read id current st
        end
  end.

Definition ListAdInventory (kind active : string) : M AdDB L response :=
  try! l := db_query (fun d => Ok (take 200 (order_desc ai_created
      (filter (fun i => (kind = "" \/ ai_kind i = kind) /\
                        (active = "" \/ ai_active i = bool_decide (active = "true"))) (rows (ad_inventory d))))))
    catch e => internal "list ad inventory" e in
  reply 200 (JObj [("inventory", JList (map inventory_json l))]).

Definition CreateAdInventory (req : option createInventoryRequest) : M AdDB L response :=
  match req with
  | None => reply_error 400 "invalid JSON body"
  | Some r =>
      if negb (validInventoryKind (ci_kind r))
      then reply_error 400 "kind must be one of bus-side|bus-interior|shelter|digital-screen"
      else
        let label := TrimSpace (ci_label r) in
        if decide (label = "") then reply_error 400 "label is required"
        else if bool_decide (ci_kind r = "bus-side" \/ ci_kind r = "bus-interior") && bool_decide (ci_bus r = None)
        then reply_error 400 "bus_id is required for on-bus inventory"
        else
          let! now := gets w_now in
          let! id := new_uuid in
          let! res := db_exec (insert_inventory (mkAdInventory id (ci_kind r) (ci_bus r) label true now)) in
          match res with
          | Ok i => reply 201 (inventory_json i)
          | Err (PgError code) =>
              if decide (code = foreign_key_violation)
              then reply_error 422 "bus_id does not reference a known vehicle"
              else internal "create ad inventory" (PgError code)
          | Err e => internal "create ad inventory" e
          end
  end.

Definition ListAdPlacements (campaign inventory : string) : M AdDB L response :=
  try! l := db_query (fun d => Ok (take 200 (order_desc pl_starts
      (filter (fun p => (campaign = "" \/ pl_campaign p = campaign) /\
                        (inventory = "" \/ pl_inventory p = inventory)) (rows (ad_placements d))))))
    catch e => internal "list ad placements" e in
  reply 200 (JObj [("placements", JList (map placement_json l))]).

(** The insert at the end of the booking transaction, and the commit. *)
Definition book_slot (tx : Tx AdDB) (r : createPlacementRequest) : M AdDB L response :=
  let! now := gets w_now in
  let! id := new_uuid in
  let! ins := tx_exec tx (insert_placement (mkAdPlacement id (pr_campaign r) (pr_inventory r) (pr_starts r)
                            (pr_ends r) (pr_cost r) now)) in
  match ins with
  | Err (PgError code) =>
      if decide (code = exclusion_violation)
      then reply_error 409 "slot_already_booked: an overlapping placement exists for this inventory slot"
      else internal "create ad placement" (PgError code)
  | Err e => internal "create ad placement" e
  | Ok (p, tx) =>
      try! _ := commit tx catch e => internal "commit ad placement" e in
      reply 201 (placement_json p)
  end.

(** The slot and budget checks of the booking transaction. *)
Definition book_within_budget (tx : Tx AdDB) (r : createPlacementRequest) (budget : Z) : M AdDB L response :=
  let! act := tx_query tx (inventory_active (pr_inventory r)) in
  match act with
  | Err ErrNoRows => reply_error 404 "inventory slot not found"
  | Err e => internal "load inventory for placement" e
  | Ok false => reply_error 409 "inventory slot is inactive"
  | Ok true =>
      try! com := tx_query tx (fun d => scan_sum (committed (pr_campaign r) d))
        catch e => internal "compute committed spend" e in
      if budget <? wrap_i64 (com + pr_cost r)
      then reply 409 (JObj [("error", JStr "budget_exceeded"); ("budget_minor", JInt budget);
                            ("committed_minor", JInt com); ("requested_minor", JInt (pr_cost r))])
      else book_slot tx r
  end.

Definition CreateAdPlacement (req : option createPlacementRequest) : M AdDB L response :=
  match req with
  | None => reply_error 400 "invalid JSON body"
  | Some r =>
      if decide (pr_campaign r = "" \/ pr_inventory r = "")
      then reply_error 400 "campaign_id and inventory_id are required"
      else if pr_ends r <=? pr_starts r then reply_error 400 "ends_at must be after starts_at"
      else if pr_cost r <? 0 then reply_error 400 "cost_minor must not be negative"
      else
        try! tx := begin catch e => internal "begin placement tx" e in
        let! c := tx_query tx (campaign_by_id (pr_campaign r)) in
        match c with
        | Err ErrNoRows => reply_error 404 "campaign not found"
        | Err e => internal "load campaign for placement" e
        | Ok c => if decide (cm_status c = "ended")
                  then reply_error 409 "cannot book placements on an ended campaign"
                  else book_within_budget tx r (cm_budget c)
        end
  end.
End Handlers.

(** ** The advertising invariant *)

(** One placement of the campaign is so dear that budget and cost together do
    not fit an [int64]. *)
Definition oversized_placement (k : string) (budget : Z) (d : AdDB) : Prop :=
  exists q p, ad_placements d !! q = Some p /\ pl_campaign p = k /\ two63 <= budget + pl_cost p.

(** A campaign is within its budget, or else has an oversized placement; slots
    are not double-booked; placements refer to existing campaigns. *)
Definition ad_inv (d : AdDB) : Prop :=
  map_Forall (fun k c => cm_id c = k /\ 0 <= cm_budget c /\
    (committed k d <= cm_budget c \/ oversized_placement k (cm_budget c) d)) (ad_campaigns d) /\
  map_Forall (fun k p => pl_id p = k /\ 0 <= pl_cost p /\ pl_starts p < pl_ends p /\
    is_Some (ad_campaigns d !! pl_campaign p)) (ad_placements d) /\
  (forall k k' p q, ad_placements d !! k = Some p -> ad_placements d !! k' = Some q -> k <> k' -> overlaps p q = false).

(** The operations that write. *)
Inductive ad_call : Type :=
| AdCreate (req : option createCampaignRequest)
| AdUpdate (id : string) (req : option string)
| AdStock (req : option createInventoryRequest)
| AdPlace (req : option createPlacementRequest).

Lemma committed_nonneg d id : ad_inv d -> 0 <= committed id d.
Proof.
  intros (_ & Hp & _). apply msum_nonneg. intros k p Hk. unfold cost_share.
  destruct (bool_decide _); [|lia]. by destruct (Hp k p Hk) as (_ & ? & _).
Qed.

Lemma committed_fresh d id : ad_inv d -> ad_campaigns d !! id = None -> committed id d = 0.
Proof.
  intros (_ & Hp & _) Hn. apply msum_zero. intros k p Hk. unfold cost_share.
  destruct (bool_decide _) eqn:E; [|done]. apply bool_decide_eq_true in E.
  destruct (Hp k p Hk) as (_ & _ & _ & Hs). rewrite E, Hn in Hs. by destruct Hs.
Qed.

Lemma ad_inv_campaign d c :
  ad_inv d -> ad_campaigns d !! cm_id c = None -> 0 <= cm_budget c -> ad_inv (put_campaign c d).
Proof.
  intros Hinv Hn Hb. pose proof (committed_fresh d _ Hinv Hn) as H0. destruct Hinv as (Hc & Hp & Ho).
  split_and!; [| |done]; simpl.
  - apply map_Forall_insert_2; [|done]. split_and!; [done|lia|left].
    change (committed (cm_id c) (put_campaign c d)) with (committed (cm_id c) d). lia.
  - intros k p Hk. destruct (Hp k p Hk) as (? & ? & ? & Hs). split_and!; [done..|].
    rewrite lookup_insert. case_decide; [eauto|done].
Qed.

Lemma ad_inv_status d id c st :
  ad_inv d -> ad_campaigns d !! id = Some c -> ad_inv (put_campaign (with_status c st) d).
Proof.
  intros (Hc & Hp & Ho) Hid. destruct (Hc id c Hid) as (Hk & Hb & Hcom). split_and!; [| |done]; simpl.
  - apply map_Forall_insert_2; [|done]. simpl. rewrite Hk.
    split_and!; [done|lia|exact Hcom].
  - intros k p Hk'. destruct (Hp k p Hk') as (? & ? & ? & Hs). split_and!; [done..|].
    rewrite lookup_insert. case_decide; [eauto|done].
Qed.

(** A placement that passed the checks fits. *)
Lemma ad_inv_placement d p c :
  ad_inv d -> ad_placements d !! pl_id p = None -> 0 <= pl_cost p -> pl_starts p < pl_ends p ->
  ad_campaigns d !! pl_campaign p = Some c ->
  committed (pl_campaign p) d + pl_cost p <= cm_budget c \/ two63 <= committed (pl_campaign p) d + pl_cost p ->
  find_row (overlaps p) (ad_placements d) = None -> ad_inv (put_placement p d).
Proof.
  intros (Hc & Hp & Ho) Hn Hcost Hwin Hcamp Hfit Hfree. rewrite find_row_None in Hfree.
  assert (forall id, committed id (put_placement p d) = cost_share id (pl_id p) p + committed id d) as Hcom.
  { intros id. unfold committed. simpl. by rewrite msum_insert_new. }
  assert (forall q, overlaps q p = overlaps p q) as Hsym.
  { intros q. unfold overlaps. rewrite (bool_decide_ext (pl_inventory q = pl_inventory p) (pl_inventory p = pl_inventory q)) by done.
    destruct (bool_decide _), (_ <? _), (_ <? _); done. }
  split_and!; simpl.
  - intros k c' Hk. destruct (Hc k c' Hk) as (? & ? & Hb). split_and!; [done|lia|].
    assert (forall b, oversized_placement k b d -> oversized_placement k b (put_placement p d)) as Hkeep.
    { intros b (q & x & Hx & Hrest). exists q, x. split; [|done]. simpl. rewrite lookup_insert_ne; [done|congruence]. }
    destruct Hb as [Hb|Hb]; [|right; by apply Hkeep]. rewrite Hcom. unfold cost_share.
    destruct (bool_decide _) eqn:E; [|left; lia]. apply bool_decide_eq_true in E.
    rewrite <- E, Hcamp in Hk. injection Hk as <-. subst k. rewrite E in Hfit. destruct Hfit as [Hfit|Hfit]; [left; lia|right].
    exists (pl_id p), p. simpl. rewrite lookup_insert_eq. split_and!; [done|done|lia].
  - apply map_Forall_insert_2; [|done]. split_and!; eauto.
  - intros k k' x y Hx Hy Hne. rewrite lookup_insert in Hx, Hy. repeat case_decide; simplify_eq.
    all: first [by eapply Hfree | rewrite Hsym; by eapply Hfree | by eapply (Ho k k')].
Qed.

Section Proofs.
Context {L : Type} `{Runtime}.
Implicit Types w : World AdDB L.

(** The booking, for every schedule: nothing, or one placement that fits. *)
Lemma place_spec req w :
  wp (CreateAdPlacement req) (fun r w' => w_led w' = w_led w /\ w_bus w' = w_bus w /\
    (w_db w' = w_db w \/
     exists q p c com, req = Some q /\ pl_cost p = pr_cost q /\ 0 <= pr_cost q /\ pl_campaign p = pr_campaign q /\
       ad_campaigns (w_db w) !! pl_campaign p = Some c /\ cm_status c <> "ended"%string /\
       scan_sum (committed (pl_campaign p) (w_db w)) = Ok com /\ wrap_i64 (com + pl_cost p) <= cm_budget c /\
       pl_starts p < pl_ends p /\ find_row (overlaps p) (ad_placements (w_db w)) = None /\
       ad_placements (w_db w) !! pl_id p = None /\ w_db w' = put_placement p (w_db w))) w.
Proof.
  set (Q := fun (r : response) w' => w_led w' = w_led w /\ w_bus w' = w_bus w /\ _).
  assert (forall (r : response) s n, wp (gret r) Q (with_sched s (with_uuids n w))) as Hno.
  { intros. apply wp_ret. split_and!; [done|done|by left]. }
  assert (forall (r : response) s, wp (gret r) Q (with_sched s w)) as Hno0.
  { intros. apply wp_ret. split_and!; [done|done|by left]. }
  assert (forall r : response, wp (gret r) Q w) as Hno1.
  { intros. apply wp_ret. split_and!; [done|done|by left]. }
  unfold CreateAdPlacement. destruct req as [q|]; [|apply Hno1]. case_decide; [apply Hno1|].
  destruct (pr_ends q <=? pr_starts q); [apply Hno1|]. destruct (Z.ltb_spec (pr_cost q) 0); [apply Hno1|].
  apply wp_bind, wp_begin; intros s1; [|apply Hno0].
  apply wp_bind, wp_tx_query; intros s2; [|apply (Hno0 _ s2)]. cbn [w_db with_sched].
  unfold campaign_by_id. destruct (ad_campaigns (w_db w) !! pr_campaign q) as [c|] eqn:Ec; [|apply (Hno0 _ s2)].
  case_decide as Hst; [apply (Hno0 _ s2)|]. unfold book_within_budget.
  apply wp_bind, wp_tx_query; intros s3; [|apply (Hno0 _ s3)].
  destruct (inventory_active _ _) as [[|]|e]; [|apply (Hno0 _ s3)|destruct e; apply (Hno0 _ s3)].
  apply wp_bind, wp_tx_query; intros s4; [|apply (Hno0 _ s4)]. cbn [w_db with_sched].
  destruct (scan_sum _) as [com|e] eqn:Es; [|apply (Hno0 _ s4)].
  destruct (Z.ltb_spec (cm_budget c) (wrap_i64 (com + pr_cost q))); [apply (Hno0 _ s4)|].
  unfold book_slot. apply wp_bind, wp_gets, wp_bind, wp_new_uuid, wp_bind, wp_tx_exec; intros s5.
  - intros p g Hg. cbn [w_db with_sched with_uuids] in Hg. unfold insert_placement in Hg. cbn in Hg.
    destruct (Z.leb_spec (pr_ends q) (pr_starts q)); [done|]. destruct (find_row _ _) eqn:Ef; [done|].
    destruct (ad_placements (w_db w) !! _) eqn:Ep; [done|]. rewrite Ec in Hg.
    destruct (ad_inventory (w_db w) !! _); [|done]. simplify_eq.
    apply wp_bind, wp_commit; intros s6; [| |apply (Hno _ s6 (w_uuids w + 1)%nat)]; apply wp_ret;
      (split_and!; [done|done|right]); exists q, (mkAdPlacement (uuid_of (w_uuids w)) (pr_campaign q) (pr_inventory q) (pr_starts q) (pr_ends q) (pr_cost q) (w_now w)), c, com;
      by split_and!.
  - intros e _. destruct e; try apply (Hno _ s5 (w_uuids w + 1)%nat).
    case_decide; apply (Hno _ s5 (w_uuids w + 1)%nat).
  - apply (Hno _ s5 (w_uuids w + 1)%nat).
Qed.

Lemma update_spec id req w :
  wp (UpdateCampaign id req) (fun _ w' =>
    w_db w' = w_db w \/
    exists st c, ad_campaigns (w_db w) !! id = Some c /\ transition_allowed (cm_status c) st = true /\
      w_db w' = put_campaign (with_status c st) (w_db w)) w.
Proof.
  unfold UpdateCampaign. destruct req as [st|]; [|apply wp_ret; by left].
  destruct (negb _); [apply wp_ret; by left|].
  apply wp_bind, wp_db_query; intros s1; [|apply wp_ret; by left].
  unfold campaign_by_id. destruct (ad_campaigns (w_db w) !! id) as [c|] eqn:Ec; [|apply wp_ret; by left].
  cbn [result_map]. unfold update_after_read. destruct (transition_allowed _ _) eqn:Et; [|apply wp_ret; by left].
  cbn [negb]. apply wp_bind, wp_db_exec; intros s2; cbn [w_db with_sched].
  - intros x g Hg. unfold set_status in Hg. rewrite Ec in Hg. simplify_eq. apply wp_bind, wp_ret.
    destruct (scanCampaign _); apply wp_ret; right; by exists st, c.
  - intros x g Hg. unfold set_status in Hg. rewrite Ec in Hg. simplify_eq.
    apply wp_ret. right. by exists st, c.
  - intros e _. destruct e; apply wp_ret; by left.
  - apply wp_ret. by left.
Qed.

Lemma create_campaign_spec req w :
  wp (CreateCampaign req) (fun _ w' =>
    w_db w' = w_db w \/
    exists r c, req = Some r /\ cm_budget c = cc_budget r /\ 0 <= cm_budget c /\
      ad_campaigns (w_db w) !! cm_id c = None /\ w_db w' = put_campaign c (w_db w)) w.
Proof.
  unfold CreateCampaign. destruct req as [r|]; [|apply wp_ret; by left]. cbv zeta.
  destruct (_ || _); [apply wp_ret; by left|]. destruct (Z.ltb_spec (cc_budget r) 0); [apply wp_ret; by left|].
  match goal with |- context [if ?b then _ else _] => destruct b end; [apply wp_ret; by left|].
  apply wp_bind, wp_gets, wp_bind, wp_new_uuid, wp_bind, wp_db_exec; intros s; cbn [w_db with_uuids].
  1, 2: intros x g Hg; unfold insert_campaign in Hg; cbn in Hg; destruct (ad_campaigns (w_db w) !! _) eqn:E; [done|];
    simplify_eq; try (apply wp_bind, wp_ret; destruct (scanCampaign _)); apply wp_ret; right;
    exists r, (mkCampaign (uuid_of (w_uuids w)) (TrimSpace (cc_name r)) (cc_advertiser r) (cc_budget r) "draft"
                 (cc_starts r) (cc_ends r) (w_now w)); by split_and!.
  - intros e _. apply wp_ret. by left.
  - apply wp_ret. by left.
Qed.

Lemma create_inventory_spec req w :
  wp (CreateAdInventory req) (fun _ w' =>
    ad_campaigns (w_db w') = ad_campaigns (w_db w) /\ ad_placements (w_db w') = ad_placements (w_db w)) w.
Proof.
  unfold CreateAdInventory. destruct req as [r|]; [|by apply wp_ret]. destruct (negb _); [by apply wp_ret|].
  cbv zeta. case_decide; [by apply wp_ret|]. destruct (_ && _); [by apply wp_ret|].
  apply wp_bind, wp_gets, wp_bind, wp_new_uuid, wp_bind, wp_db_exec; intros s.
  - intros i g Hg. unfold insert_inventory in Hg. repeat case_match; simplify_eq; by apply wp_ret.
  - intros i g Hg. unfold insert_inventory in Hg. repeat case_match; simplify_eq; by apply wp_ret.
  - intros e _. destruct e; try by apply wp_ret. by case_decide; apply wp_ret.
  - by apply wp_ret.
Qed.

Definition run_ad (c : ad_call) : M AdDB L response :=
  match c with
  | AdCreate req => CreateCampaign req
  | AdUpdate id req => UpdateCampaign id req
  | AdStock req => CreateAdInventory req
  | AdPlace req => CreateAdPlacement req
  end.

Definition ad_step w (t : ad_call * Z * list outcome) : World AdDB L :=
  (run_ad t.1.1 (with_now t.1.2 (with_sched t.2 w))).2.

Lemma ad_step_inv w t : ad_inv (w_db w) -> ad_inv (w_db (ad_step w t)).
Proof.
  intros Hinv. unfold ad_step. set (w0 := with_now _ _).
  assert (ad_inv (w_db w0)) as Hinv0 by done. clearbody w0.
  destruct t.1.1 as [req|id req|req|req]; cbn [run_ad].
  - destruct (create_campaign_spec req w0) as [->|(r & c & -> & Hb & Hnn & Hn & ->)]; [done|].
    by apply ad_inv_campaign.
  - destruct (update_spec id req w0) as [->|(st & c & Hc & _ & ->)]; [done|]. by eapply ad_inv_status.
  - destruct (create_inventory_spec req w0) as [E1 E2]. destruct Hinv0 as (Hc & Hp & Ho).
    unfold ad_inv, committed, oversized_placement. rewrite E1, E2. by split_and!.
  - destruct (place_spec req w0) as (_ & _ & [->|(q & p & c & com & -> & Hcost & Hnn & Hcq & Hc & _ & Hs & Hfit & Hwin & Hfree & Hn & ->)]);
      [done|].
    pose proof (committed_nonneg _ (pl_campaign p) Hinv0). pose proof Hinv0 as (Hcs & _).
    unfold scan_sum in Hs. destruct (in_int8 _); simplify_eq.
    eapply ad_inv_placement; eauto; [lia|].
    destruct (Z.lt_ge_cases (committed (pl_campaign p) (w_db w0) + pl_cost p) two63) as [Hlt|Hge]; [left|by right].
    rewrite wrap_i64_id in Hfit by (unfold i64, two63 in *; lia). exact Hfit.
Qed.

(** C25: slots are never double-booked, and only one placement can break a
    budget: over any sequence of campaign, inventory and placement requests
    (of any amounts), at any times and with any faults, no two placements of
    one inventory slot overlap in time, every placement is of an existing
    campaign, and the placements of a campaign cost at most its budget, unless
    one of them alone costs so much that with the budget it is 2^63 or more,
    which the [int64] check lets pass ([huge_placement_passes_budget]).  (Each
    request is one step: a booking locks its campaign until it commits.) *)
Theorem ad_bookings_sound (w : World AdDB L) (l : list (ad_call * Z * list outcome)) (Hinv : ad_inv (w_db w)) :
  let d := w_db (foldl ad_step w l) in
  ad_inv d /\
  forall k c, ad_campaigns d !! k = Some c ->
    (forall q p, ad_placements d !! q = Some p -> pl_campaign p = k -> cm_budget c + pl_cost p < two63) ->
    committed k d <= cm_budget c.
Proof.
  cbv zeta. assert (ad_inv (w_db (foldl ad_step w l))) as Hd.
  { revert w Hinv. induction l as [|t l IH]; intros w Hinv; [done|]. simpl. by apply IH, ad_step_inv. }
  split; [done|]. intros k c Hc Hsmall. destruct Hd as (Hcs & _). destruct (Hcs k c Hc) as (_ & _ & [?|(q & p & Hq & Hp & Hbig)]); [done|].
  specialize (Hsmall q p Hq Hp). lia.
Qed.

Lemma ad_step_ended w t id c :
  ad_campaigns (w_db w) !! id = Some c -> cm_id c = id -> cm_status c = "ended"%string ->
  map_Forall (fun k c => cm_id c = k) (ad_campaigns (w_db w)) ->
  let d' := w_db (ad_step w t) in
  map_Forall (fun k c => cm_id c = k) (ad_campaigns d') /\
  (exists c', ad_campaigns d' !! id = Some c' /\ cm_id c' = id /\ cm_status c' = "ended"%string) /\
  forall p, p ∈ rows (ad_placements d') -> pl_campaign p = id -> p ∈ rows (ad_placements (w_db w)).
Proof.
  intros Hc Hid Hst Hkey d'. subst d'. unfold ad_step. set (w0 := with_now _ _).
  destruct t.1.1 as [req|i req|req|req]; cbn [run_ad].
  - destruct (create_campaign_spec req w0) as [->|(r & x & -> & _ & _ & Hn & ->)]; [by split_and!; eauto|].
    cbn in *. split_and!; [by apply map_Forall_insert_2| |done].
    exists c. split_and!; [|done|done]. rewrite lookup_insert_ne; [done|]. intros Heq. rewrite Heq in Hn. congruence.
  - destruct (update_spec i req w0) as [->|(st & x & Hx & Ht & ->)]; [by split_and!; eauto|]. cbn in *.
    split_and!; [by apply map_Forall_insert_2| |done]. rewrite lookup_insert. case_decide as Hd; [|by eauto].
    eexists. split; [done|]. simpl. split; [done|]. rewrite (Hkey i x Hx) in Hd. subst i. simplify_eq.
    rewrite Hst in Ht. simpl in Ht. by apply bool_decide_eq_true in Ht.
  - destruct (create_inventory_spec req w0) as [E1 E2]. rewrite E1, E2. by split_and!; eauto.
  - destruct (place_spec req w0) as (_ & _ & [->|(q & p & x & com & -> & _ & _ & _ & Hx & Hne & _ & _ & _ & _ & _ & ->)]);
      [by split_and!; eauto|]. cbn in *. split_and!; [done|by eauto|].
    intros p' (k & Hk)%elem_of_rows Hcamp. rewrite lookup_insert in Hk. apply elem_of_rows.
    case_decide; [|by eauto]. injection Hk as <-. rewrite Hcamp, Hc in Hx. by injection Hx as <-.
Qed.

(** An ended campaign is over: over any sequence of requests, at any times and
    with any faults, a campaign that has ended stays ended and gets no further
    placement. *)
Theorem ended_campaign_is_terminal (w : World AdDB L) (l : list (ad_call * Z * list outcome))
    (id : string) (c : Campaign)
    (Hkeys : map_Forall (fun k c => cm_id c = k) (ad_campaigns (w_db w)))
    (Hc : ad_campaigns (w_db w) !! id = Some c) (Hended : cm_status c = "ended"%string) :
  let d' := w_db (foldl ad_step w l) in
  (exists c', ad_campaigns d' !! id = Some c' /\ cm_status c' = "ended"%string) /\
  forall p, p ∈ rows (ad_placements d') -> pl_campaign p = id -> p ∈ rows (ad_placements (w_db w)).
Proof.
  revert w c Hkeys Hc Hended. induction l as [|t l IH]; intros w c Hkeys Hc Hended; cbv zeta; [by split; eauto|].
  destruct (ad_step_ended w t id c Hc (Hkeys _ _ Hc) Hended Hkeys) as (Hk1 & (c1 & Hc1 & _ & He1) & Hp1).
  destruct (IH (ad_step w t) c1 Hk1 Hc1 He1) as [Hex Hp2]. simpl. split; [done|]. intros p Hp Hid.
  by apply Hp1; [apply Hp2|].
Qed.
End Proofs.

(** ** Concrete runs *)

Definition ad_runtime : Runtime := {|
  getenv := fun _ => "";
  uuid_of := fun n => "uuid-" +:+ pretty n;
  day_start := fun _ t => t - t mod 86400000;
  uint128_string := hex_encode
|}.

#[local] Existing Instance ad_runtime.

Definition spring (status : string) : Campaign := mkCampaign "spring" "Spring sale" "ACME" 1000 status None None 0.

(** One campaign with a budget of 1000 and two shelters. *)
Definition ad_db (status : string) : AdDB :=
  mkAdDB {["spring" := spring status]}
    {["s1" := mkAdInventory "s1" "shelter" None "Main St" true 0; "s2" := mkAdInventory "s2" "shelter" None "Park" true 0]}
    ∅ ∅.

Definition ad_world (status : string) : World AdDB unit := mkWorld (ad_db status) tt [] 1000 0 [] [] [].

Lemma ad_db_inv status : ad_inv (ad_db status).
Proof.
  split_and!.
  - apply map_Forall_singleton. split_and!; [done|by vm_compute|left; by vm_compute].
  - apply map_Forall_empty.
  - intros k k' p q Hp. simpl in Hp. by rewrite lookup_empty in Hp.
Qed.

Definition place (inv : string) (s e cost : Z) : ad_call * Z * list outcome :=
  (AdPlace (Some (mkCreatePlacement "spring" inv s e cost)), 1000, []).

(** Four bookings: accepted, overlapping, over budget, accepted. *)
Definition ad_requests : list (ad_call * Z * list outcome) :=
  [place "s1" 10 20 600; place "s1" 15 25 100; place "s2" 10 20 500; place "s2" 10 20 400].

Lemma ad_bookings_sound_witness :
  ad_inv (w_db (foldl ad_step (ad_world "active") ad_requests)) /\
  committed "spring" (w_db (foldl ad_step (ad_world "active") ad_requests)) = 1000 /\
  size (ad_placements (w_db (foldl ad_step (ad_world "active") ad_requests))) = 2%nat.
Proof.
  split; [|vm_compute; split; reflexivity].
  apply (ad_bookings_sound (ad_world "active") ad_requests), ad_db_inv.
Defined.

Lemma ended_campaign_is_terminal_witness :
  let d' := w_db (foldl ad_step (ad_world "ended")
                    [(AdUpdate "spring" (Some "active"), 5, []); place "s1" 10 20 600]) in
  (exists c', ad_campaigns d' !! "spring"%string = Some c' /\ cm_status c' = "ended"%string) /\
  forall p, p ∈ rows (ad_placements d') -> pl_campaign p = "spring"%string ->
    p ∈ rows (ad_placements (w_db (ad_world "ended"))).
Proof.
  apply (ended_campaign_is_terminal (ad_world "ended") _ "spring" (spring "ended")).
  - apply map_Forall_singleton. reflexivity.
  - apply lookup_insert_eq.
  - reflexivity.
Defined.

(** The budget check of the booking transaction is an [int64] addition that
    wraps: with 1 already committed, a placement that costs 2^63-1 passes the
    check of a campaign with a budget of 1000 and is booked. *)
Theorem huge_placement_passes_budget :
  let w' := foldl ad_step (ad_world "active") [place "s1" 10 20 1; place "s2" 10 20 9223372036854775807] in
  size (ad_placements (w_db w')) = 2%nat /\ committed "spring" (w_db w') = 9223372036854775808.
Proof. vm_compute. split; reflexivity. Qed.

(** The lifecycle check of UpdateCampaign is not atomic: an update that read
    the status active before another request ended the campaign pauses it, and
    the campaign is live again. *)
Theorem racing_update_revives_ended :
  let ended := UpdateCampaign "spring" (Some "ended") (ad_world "active") in
  let revived := update_after_read "spring" "active" "paused" ended.2 in
  status ended.1 = 200 /\ status revived.1 = 200 /\
  result_map cm_status (campaign_by_id "spring" (w_db revived.2)) = Ok "paused"%string.
Proof. vm_compute. split_and!; reflexivity. Qed.
