(* ===== verification/Trading.v ===== *)
(** * Energy trading

    Models services/go/commerce-api/internal/handlers/trading.go: the trades
    table, the draw-down of station surplus and its compensation, the ledger
    settlement and the cancellation.  Quantities are [float64] in Go and
    numeric in the database.  A trade is not one transaction: the phases after
    the insert and after the draw-down are definitions of their own, so that
    other requests can be interleaved between them. *)

From S2P Require Import Prelude Codec World Float64 Auth Ledger CommerceDb.

Open Scope Z_scope.
Open Scope go_scope.

(** ** Rows and tables *)

Record Trade : Type := mkTrade {
  td_id : string; td_kind : string; td_quantity : Qc; td_price : Z; td_status : string;
  td_tb : option string; td_key : option string; td_created : Z
}.

(** infra.stations, the columns trading uses. *)
Record Station : Type := mkStation { sn_id : string; sn_kg : option Qc; sn_kwh : option Qc }.

Record TradeDB : Type := mkTradeDB { trades : gmap string Trade; stations : gmap string Station }.

Definition put_trade (t : Trade) (d : TradeDB) : TradeDB := mkTradeDB (<[td_id t := t]> (trades d)) (stations d).

Abbreviation trade_stmt A := (TradeDB -> result (A * (TradeDB -> TradeDB))).

(** [ORDER BY id] of text keys. *)
Fixpoint insert_by_id (x : Station) (l : list Station) : list Station :=
  match l with
  | [] => [x]
  | y :: l' => if String.ltb (sn_id x) (sn_id y) then x :: y :: l' else y :: insert_by_id x l'
  end.

(** ** Statements *)

Definition insert_trade (t : Trade) : trade_stmt unit := fun d =>
  match trades d !! td_id t, find_row (fun x => bool_decide (td_key x = td_key t)) (trades d) with
  | None, None => Ok (tt, put_trade t)
  | _, _ => Err (PgError unique_violation)
  end.

Definition trade_by_key (key : string) (d : TradeDB) : result Trade :=
  match find_row (fun x => bool_decide (td_key x = Some key)) (trades d) with
  | Some t => Ok t
  | None => Err ErrNoRows
  end.

Definition with_outcome (t : Trade) (st : string) (tb : option string) : Trade :=
  mkTrade (td_id t) (td_kind t) (td_quantity t) (td_price t) st tb (td_key t) (td_created t).

(** [UPDATE ... SET status = 'failed' WHERE id = $1 RETURNING]. *)
Definition mark_failed (id : string) : trade_stmt Trade := fun d =>
  match trades d !! id with
  | None => Err ErrNoRows
  | Some t => let t' := with_outcome t "failed" (td_tb t) in Ok (t', put_trade t')
  end.

Definition mark_executed (id transferID : string) : trade_stmt Trade := fun d =>
  match trades d !! id with
  | None => Err ErrNoRows
  | Some t => let t' := with_outcome t "executed" (Some transferID) in Ok (t', put_trade t')
  end.

(** The only conditional update: a proposed trade is cancelled. *)
Definition mark_cancelled (id : string) : trade_stmt Trade := fun d =>
  match trades d !! id with
  | None => Err ErrNoRows
  | Some t => if decide (td_status t = "proposed")
              then let t' := with_outcome t "cancelled" (td_tb t) in Ok (t', put_trade t')
              else Err ErrNoRows
  end.

(** [UPDATE infra.stations SET column = column + q WHERE id]; NULL stays NULL. *)
Definition station_add (column : string) (q : Qc) (s : Station) : Station :=
  if decide (column = "available_kwh")
  then mkStation (sn_id s) (sn_kg s) ((fun x => x + q)%Qc <$> sn_kwh s)
  else mkStation (sn_id s) ((fun x => x + q)%Qc <$> sn_kg s) (sn_kwh s).

Definition add_surplus (column id : string) (q : Qc) (d : TradeDB) : TradeDB :=
  mkTradeDB (trades d) (alter (station_add column q) id (stations d)).

Definition surplus (column : string) (s : Station) : option Qc :=
  if decide (column = "available_kwh") then sn_kwh s else sn_kg s.

(** [WHERE column > 0 ORDER BY id]. *)
Definition surplus_rows (column : string) (d : TradeDB) : list (string * Qc) :=
  omap (fun s => match surplus column s with
                 | Some q => if decide (0 < q)%Qc then Some (sn_id s, q) else None
                 | None => None
                 end) (foldr insert_by_id [] (rows (stations d))).

(** ** Handlers *)

Definition validTradeKind (k : string) : bool :=
  bool_decide (k ∈ ["h2-sale"; "h2-purchase"; "energy-export"; "ev-v2g-export"; "ev-charge-purchase"]).

(** The column and unit a kind draws from; [None] for the purchases. *)
Definition surplusColumn (kind : string) : option (string * string) :=
  match kind with
  | "ev-v2g-export" => Some ("available_kwh", "kwh")
  | "h2-purchase" => None
  | "ev-charge-purchase" => None
  | _ => Some ("available_kg", "kg")
  end.

Record createTradeRequest : Type := mkCreateTrade { tq_kind : string; tq_quantity : float64; tq_price : Z }.

Record stationDraw : Type := mkStationDraw { sd_id : string; sd_amount : float64 }.

(** What [drawDownSurplus] returns: the draws, [errInsufficientSurplus], or another error. *)
Inductive draw_result : Type :=
| Drawn (draws : list stationDraw)
| InsufficientSurplus
| DrawFailed (e : error).

Definition trade_key (idemKey : string) : string := "trade:" +:+ idemKey.

(** The accounts a settlement debits and credits; purchases pay into clearing. *)
Definition trade_accounts (kind : string) : Z * Z :=
  if HasSuffix kind "-purchase"
  then (OperatorRevenueAccount, EnergyTradeAccount)
  else (EnergyTradeAccount, OperatorRevenueAccount).

Section Handlers.
Context {L : Type} `{Ledger L} `{Runtime} `{PgNumeric}.

(** [scanTrade]: the row with its quantity as [float64]. *)
Definition scanTrade (t : Trade) : result (Trade * float64) :=
  match float_of_numeric (td_quantity t) with
  | Ok f => Ok (t, f)
  | Err e => Err e
  end.

Fixpoint scan_trades (ts : list Trade) : result (list (Trade * float64)) :=
  match ts with
  | [] => Ok []
  | t :: ts' => match scanTrade t with
                | Err e => Err e
                | Ok x => match scan_trades ts' with Ok xs => Ok (x :: xs) | Err e => Err e end
                end
  end.

Definition trade_json (x : Trade * float64) : json :=
  let '(t, q) := x in
  JObj ([("id", JStr (td_id t)); ("kind", JStr (td_kind t)); ("quantity_kg", JFloat q);
         ("price_minor", JInt (td_price t)); ("status", JStr (td_status t))]
    ++ jopt_field "tb_transfer_id" (td_tb t) ++ jopt_field "idempotency_key" (td_key t)
    ++ [("created_at", JTime (td_created t))]).

Definition ListTrades : M TradeDB L response :=
  try! ts := db_query (fun d => Ok (take 200 (order_desc td_created (rows (trades d)))))
    catch e => internal "list trades" e in
  try! xs := gret (scan_trades ts) catch e => internal "scan trade" e in
  reply 200 (JObj [("trades", JList (map trade_json xs))]).

(** The stations with their surplus as [float64], and its running total. *)
Fixpoint scan_stations (rs : list (string * Qc)) (total : float64) : result (list stationDraw * float64) :=
  match rs with
  | [] => Ok ([], total)
  | (id, q) :: rs' =>
      match float_of_numeric q with
      | Err e => Err e
      | Ok f => match scan_stations rs' (fadd total f) with
                | Ok (ss, t) => Ok (mkStationDraw id f :: ss, t)
                | Err e => Err e
                end
      end
  end.

(** The greedy draw over the locked stations. *)
Fixpoint draw_loop (tx : Tx TradeDB) (column : string) (ss : list stationDraw) (remaining : float64)
    : M TradeDB L (result (list stationDraw * Tx TradeDB)) :=
  match ss with
  | [] => gret (Ok ([], tx))
  | s :: ss' =>
      if fle remaining f1em9 then gret (Ok ([], tx))
      else
        let take := if flt remaining (sd_amount s) then remaining else sd_amount s in
        try! (_, tx) := tx_exec tx (fun _ => Ok (tt, add_surplus column (sd_id s) (- numeric_of_float take)%Qc))
          catch e => gret (Err e) in
        try! (draws, tx) := draw_loop tx column ss' (fsub remaining take) catch e => gret (Err e) in
        gret (Ok (mkStationDraw (sd_id s) take :: draws, tx))
  end.

Definition drawDownSurplus (amount : float64) (column : string) : M TradeDB L draw_result :=
  try! tx := begin catch e => gret (DrawFailed e) in
  try! rs := tx_query tx (fun d => Ok (surplus_rows column d)) catch e => gret (DrawFailed e) in
  try! (ss, total) := gret (scan_stations rs fzero) catch e => gret (DrawFailed e) in
  if flt (fadd total f1em9) amount then gret InsufficientSurplus
  else
    try! (draws, tx) := draw_loop tx column ss amount catch e => gret (DrawFailed e) in
    try! _ := commit tx catch e => gret (DrawFailed e) in
    gret (Drawn draws).

(** Compensation, one statement per draw, up to the first failure. *)
Fixpoint restoreSurplus (draws : list stationDraw) (column : string) : M TradeDB L (result unit) :=
  match draws with
  | [] => gret (Ok tt)
  | d :: ds =>
      try! _ := db_exec (fun _ => Ok (tt, add_surplus column (sd_id d) (numeric_of_float (sd_amount d))))
        catch e => gret (Err e) in
      restoreSurplus ds column
  end.

Definition trade_event (tradeID : string) (r : createTradeRequest) : list (string * json) :=
  [("trade_id", JStr tradeID); ("kind", JStr (tq_kind r)); ("quantity_kg", JFloat (tq_quantity r));
   ("price_minor", JInt (tq_price r))].

(** The [fail] closure: mark, announce, answer. *)
Definition fail_trade (tradeID : string) (event : list (string * json)) (code : Z) (error reason : string)
    : M TradeDB L response :=
  try! t := db_exec (mark_failed tradeID) catch e => internal "mark trade failed" e in
  try! x := gret (scanTrade t) catch e => internal "mark trade failed" e in
  let! now := gets w_now in
  do! publish "energy.trade.failed" (jset "failed_at" (JTime now) (jset "reason" (JStr reason) event)) in
  reply code (JObj [("error", JStr error); ("message", JStr reason); ("trade", trade_json x)]).

(** Step 4: the executed row, its event and 201. *)
Definition finish_trade (tradeID transferID : string) (event : list (string * json)) : M TradeDB L response :=
  try! t := db_exec (mark_executed tradeID transferID) catch e => internal "finalize trade" e in
  try! x := gret (scanTrade t) catch e => internal "finalize trade" e in
  let! now := gets w_now in
  do! publish "energy.trade.executed"
        (jset "executed_at" (JTime now) (jset "tb_transfer_id" (JStr transferID) event)) in
  reply 201 (trade_json x).

(** Step 3: the ledger settlement; a failure gives the drawn surplus back. *)
Definition settle_trade (idemKey tradeID : string) (r : createTradeRequest) (column : string)
    (draws : list stationDraw) : M TradeDB L response :=
  let event := trade_event tradeID r in
  let '(debit, credit) := trade_accounts (tq_kind r) in
  let! tr := led_call (fun l => led_Transfer l (DeterministicTransferID (trade_key idemKey)) debit credit
               (wrap_u64 (tq_price r)) CodeEnergy) in
  match tr with
  | Ok transferID => finish_trade tradeID transferID event
  | Err e =>
      do! restoreSurplus draws column in
      match e with
      | ErrInsufficientFunds =>
          fail_trade tradeID event 402 "insufficient_funds" "energy clearing account is not funded by a buyer settlement"
      | _ => fail_trade tradeID event 502 "ledger_error" "ledger transfer failed"
      end
  end.

(** Step 2: physical backing of the inserted trade, then settlement. *)
Definition back_trade (idemKey tradeID : string) (r : createTradeRequest) : M TradeDB L response :=
  match surplusColumn (tq_kind r) with
  | None => settle_trade idemKey tradeID r "" []
  | Some (column, unit) =>
      let! dr := drawDownSurplus (tq_quantity r) column in
      match dr with
      | InsufficientSurplus =>
          fail_trade tradeID (trade_event tradeID r) 409 "insufficient_surplus"
            ("trade quantity " +:+ fmt2f (tq_quantity r) +:+ " " +:+ unit +:+ " exceeds recorded station surplus")
      | DrawFailed e => internal "draw down station surplus" e
      | Drawn draws => settle_trade idemKey tradeID r column draws
      end
  end.

Definition CreateTrade (idemKey : string) (req : option createTradeRequest) : M TradeDB L response :=
  if decide (idemKey = "") then reply_error 400 "Idempotency-Key header is required"
  else match req with
  | None => reply_error 400 "invalid JSON body"
  | Some r =>
      if negb (validTradeKind (tq_kind r))
      then reply_error 400 "kind must be one of h2-sale|h2-purchase|energy-export|ev-v2g-export|ev-charge-purchase"
      else if fle (tq_quantity r) fzero || (tq_price r <=? 0)
      then reply_error 400 "positive quantity_kg and price_minor are required"
      else
        let! now := gets w_now in
        let! tradeID := new_uuid in
        let! ins := db_exec (insert_trade (mkTrade tradeID (tq_kind r) (numeric_of_float (tq_quantity r)) (tq_price r)
                               "proposed" None (Some idemKey) now)) in
        match ins with
        | Err (PgError code) =>
            if decide (code = unique_violation) then
              try! t := db_query (trade_by_key idemKey) catch e => internal "load idempotent trade" e in
              try! x := gret (scanTrade t) catch e => internal "load idempotent trade" e in
              reply 200 (trade_json x)
            else internal "insert trade" (PgError code)
        | Err e => internal "insert trade" e
        | Ok _ => back_trade idemKey tradeID r
        end
  end.

Definition CancelTrade (id : string) : M TradeDB L response :=
  let! r := db_exec (mark_cancelled id) in
  match r with
  | Err ErrNoRows => reply_error 409 "trade not found or not in proposed status"
  | Err e => internal "cancel trade" e
  | Ok t =>
      try! (t, q) := gret (scanTrade t) catch e => internal "cancel trade" e in
      let! now := gets w_now in
      do! publish "energy.trade.cancelled"
            [("trade_id", JStr (td_id t)); ("kind", JStr (td_kind t)); ("quantity_kg", JFloat q);
             ("price_minor", JInt (td_price t)); ("cancelled_at", JTime now)] in
      reply 200 (trade_json (t, q))
  end.
End Handlers.

(** ** Surplus arithmetic *)

(** The greedy allocation, as a function of the scanned surplus. *)
Fixpoint draw_plan (ss : list stationDraw) (remaining : float64) : list stationDraw :=
  match ss with
  | [] => []
  | s :: ss' =>
      if fle remaining f1em9 then []
      else let take := if flt remaining (sd_amount s) then remaining else sd_amount s in
           mkStationDraw (sd_id s) take :: draw_plan ss' (fsub remaining take)
  end.

Section Surplus.
Context `{PgNumeric}.

(** The recorded surplus covers the amount, and the draws are its allocation. *)
Definition covered_by (column : string) (amount : float64) (d : TradeDB) (ds : list stationDraw) : Prop :=
  exists ss total, scan_stations (surplus_rows column d) fzero = Ok (ss, total) /\
    flt (fadd total f1em9) amount = false /\ ds = draw_plan ss amount.

Definition draw_one (column : string) (d : TradeDB) (x : stationDraw) : TradeDB :=
  add_surplus column (sd_id x) (- numeric_of_float (sd_amount x))%Qc d.
Definition restore_one (column : string) (d : TradeDB) (x : stationDraw) : TradeDB :=
  add_surplus column (sd_id x) (numeric_of_float (sd_amount x)) d.

Lemma station_add_comm column q q' s :
  station_add column q (station_add column q' s) = station_add column q' (station_add column q s).
Proof.
  unfold station_add. case_decide; simpl; f_equal; destruct s as [? [x|] [y|]]; simpl; f_equal; ring.
Qed.

Lemma station_add_inv column q s : station_add column q (station_add column (- q)%Qc s) = s.
Proof.
  unfold station_add. case_decide; destruct s as [? [x|] [y|]]; simpl; f_equal; f_equal; ring.
Qed.

Lemma add_surplus_comm column id id' q q' d :
  add_surplus column id q (add_surplus column id' q' d) = add_surplus column id' q' (add_surplus column id q d).
Proof.
  unfold add_surplus. simpl. f_equal. apply map_eq. intros k. rewrite !lookup_alter.
  repeat (case_decide; subst); simplify_eq; try done.
  destruct (stations d !! _); simpl; [by rewrite station_add_comm|done].
Qed.

Lemma restore_draw_one column x d : restore_one column (draw_one column d x) x = d.
Proof.
  unfold restore_one, draw_one, add_surplus. destruct d as [ts ss]; simpl. f_equal. apply map_eq. intros k.
  rewrite !lookup_alter. repeat case_decide; subst; try done.
  destruct (ss !! _); simpl; [by rewrite station_add_inv|done].
Qed.

Lemma restore_draws_comm column x ds d :
  restore_one column (foldl (draw_one column) d ds) x = foldl (draw_one column) (restore_one column d x) ds.
Proof.
  revert d. induction ds as [|y ds IH]; intros d; [done|]. simpl. rewrite IH. f_equal.
  unfold restore_one, draw_one. apply add_surplus_comm.
Qed.

(** Giving back what was drawn, in the same order, is exact. *)
Lemma restore_draws column ds d : foldl (restore_one column) (foldl (draw_one column) d ds) ds = d.
Proof.
  revert d. induction ds as [|x ds IH]; intros d; [done|]. simpl.
  by rewrite restore_draws_comm, restore_draw_one, IH.
Qed.

Lemma draws_trades column ds d : trades (foldl (draw_one column) d ds) = trades d.
Proof. revert d. induction ds as [|x ds IH]; intros d; [done|]. simpl. by rewrite IH. Qed.

Lemma restores_trades column ds d : trades (foldl (restore_one column) d ds) = trades d.
Proof. revert d. induction ds as [|x ds IH]; intros d; [done|]. simpl. by rewrite IH. Qed.
End Surplus.

(** ** What a trade does, for every fault schedule *)

(** A trade settlement moves a positive amount between clearing and revenue. *)
Definition trade_effect (f : Z -> Z) : Prop :=
  exists kind amount, 0 < amount < two63 /\ f = delta (trade_accounts kind).1 (trade_accounts kind).2 amount.

Definition trade_typed (r : createTradeRequest) : Prop := i64 (tq_price r).

Section Proofs.
Context {L : Type} `{LedgerSpec L} `{PgNumeric}.
Implicit Types w : World TradeDB L.

Abbreviation trade_id_of key := (DeterministicTransferID (trade_key key)).

(** The events of a run, none of which announces an execution. *)
Definition quiet w w' : Prop :=
  exists evs, w_bus w' = w_bus w ++ evs /\ Forall (fun e => ev_topic e <> "energy.trade.executed"%string) evs.

Lemma quiet_refl w w' : w_bus w' = w_bus w -> quiet w w'.
Proof. intros E. exists []. rewrite app_nil_r. by split. Qed.

Lemma draw_loop_spec tx column ss remaining w :
  wp (draw_loop tx column ss remaining) (fun r w' => (exists s, w' = with_sched s w) /\
    forall ds tx', r = Ok (ds, tx') -> ds = draw_plan ss remaining /\
      forall d, tx' d = foldl (draw_one column) (tx d) ds) w.
Proof.
  revert tx remaining w. induction ss as [|x ss IH]; intros tx remaining w; cbn [draw_loop draw_plan].
  { apply wp_ret. split; [by exists (w_sched w); destruct w|]. intros ds tx' Hr. by simplify_eq. }
  destruct (fle _ _). { apply wp_ret. split; [by exists (w_sched w); destruct w|]. intros ds tx' Hr. by simplify_eq. }
  apply wp_bind, wp_tx_exec; intros s.
  - intros a g Hg. simplify_eq. apply wp_bind. eapply wp_mono; [|apply IH].
    intros [[ds tx']|e] w' [[s' ->] Htx]; apply wp_ret; (split; [by exists s'|]); [|done].
    intros ds2 tx2 Hr. simplify_eq. destruct (Htx ds tx2 eq_refl) as [-> Hd]. split; [done|].
    intros d. by rewrite Hd.
  - intros e He. done.
  - apply wp_ret. split; [by exists s|done].
Qed.

(** The draw-down: nothing, or exactly the reported draws, or (when only the
    reply of the commit is lost) some draws and an error. *)
Lemma draw_spec amount column w :
  wp (drawDownSurplus amount column) (fun r w' =>
    exists s ds, (w' = with_sched s w \/ w' = with_db (foldl (draw_one column) (w_db w) ds) (with_sched s w)) /\
      match r with
      | Drawn ds' => ds' = ds /\ covered_by column amount (w_db w) ds /\ w' = with_db (foldl (draw_one column) (w_db w) ds) (with_sched s w)
      | InsufficientSurplus => w' = with_sched s w
      | DrawFailed _ => True
      end) w.
Proof.
  unfold drawDownSurplus. apply wp_bind, wp_begin; intros s1; [|apply wp_ret; exists s1, []; split; [by left|done]].
  apply wp_bind, wp_tx_query; intros s2; [|apply wp_ret; exists s2, []; split; [by left|done]].
  apply wp_bind, wp_ret. destruct (scan_stations _ _) as [[ss total]|e] eqn:Es; [|apply wp_ret; exists s2, []; split; [by left|done]].
  destruct (flt _ _) eqn:Ef; [apply wp_ret; exists s2, []; split; [by left|done]|].
  apply wp_bind. eapply wp_mono; [|apply draw_loop_spec]. intros [[ds tx]|e] w' [[s3 ->] Htx].
  2: { apply wp_ret; exists s3, []; split; [by left|done]. }
  destruct (Htx ds tx eq_refl) as [Hds Hd].
  apply wp_bind, wp_commit; intros s4; apply wp_ret; exists s4, ds; cbn [w_db with_sched].
  - rewrite Hd. split; [by right|]. split_and!; [done| |done]. by exists ss, total.
  - rewrite Hd. split; [by right|done].
  - split; [by left|done].
Qed.

Lemma restore_spec ds column w :
  wp (restoreSurplus ds column) (fun _ w' => w_led w' = w_led w /\ w_bus w' = w_bus w) w.
Proof.
  revert w. induction ds as [|x ds IH]; intros w; cbn [restoreSurplus]; [by apply wp_ret|].
  apply wp_bind, wp_db_exec; intros s; [|intros; by apply wp_ret|by intros|by apply wp_ret].
  intros a g _. eapply wp_mono; [|apply IH]. by intros.
Qed.

Lemma fail_spec id event code error reason w :
  wp (fail_trade id event code error reason) (fun _ w' => w_led w' = w_led w /\ quiet w w') w.
Proof.
  unfold fail_trade. apply wp_bind, wp_db_exec; intros s; try (intros; apply wp_ret; split; [done|by apply quiet_refl]).
  intros t g _. apply wp_bind, wp_ret. destruct (scanTrade t); [|apply wp_ret; split; [done|by apply quiet_refl]].
  apply wp_bind, wp_gets, wp_bind, wp_publish; intros s2.
  - intros r. apply wp_ret. split; [done|]. eexists. split; [done|]. by repeat constructor.
  - intros e. apply wp_ret. split; [done|by apply quiet_refl].
Qed.

(** An execution is announced only with the row to show for it. *)
Lemma finish_spec id tb event t w :
  trades (w_db w) !! id = Some t -> td_id t = id ->
  wp (finish_trade id tb event) (fun _ w' => w_led w' = w_led w /\ stations (w_db w') = stations (w_db w) /\
    exists evs, w_bus w' = w_bus w ++ evs /\ Forall (fun e => jget "trade_id" (ev_data e) = jget "trade_id" event /\
      trades (w_db w') !! id = Some (with_outcome t "executed" (Some tb))) evs) w.
Proof.
  intros Ht Hid. unfold finish_trade. apply wp_bind, wp_db_exec; intros s.
  - intros t' g Hg. unfold mark_executed in Hg. rewrite Ht in Hg. simplify_eq.
    apply wp_bind, wp_ret. destruct (scanTrade _).
    2: { apply wp_ret. split_and!; [done|done|]. exists []. by rewrite app_nil_r. }
    apply wp_bind, wp_gets, wp_bind, wp_publish; intros s2.
    + intros r. apply wp_ret. split_and!; [done|done|]. eexists. split; [done|]. repeat constructor; simpl.
      * by rewrite !jget_jset_ne.
      * apply lookup_insert_eq.
    + intros e. apply wp_ret. split_and!; [done|done|]. exists []. by rewrite app_nil_r.
  - intros t' g Hg. unfold mark_executed in Hg. rewrite Ht in Hg. simplify_eq.
    apply wp_ret. split_and!; [done|done|]. exists []. by rewrite app_nil_r.
  - intros e He. unfold mark_executed in He. by rewrite Ht in He.
  - apply wp_ret. split_and!; [done|done|]. exists []. by rewrite app_nil_r.
Qed.

(** What stands behind an announced execution. *)
Definition executed_backed (key id : string) (r : createTradeRequest) (d0 : TradeDB) w' (e : event) : Prop :=
  jget "trade_id" (ev_data e) = Some (JStr id) /\ led_posted (w_led w') (trade_id_of key) = true /\
  (exists t, trades (w_db w') !! id = Some t /\ td_status t = "executed"%string /\ td_price t = tq_price r /\
     td_key t = Some key /\ td_tb t = Some (uint128_string (trade_id_of key))) /\
  match surplusColumn (tq_kind r) with
  | Some (column, _) => exists ds, covered_by column (tq_quantity r) d0 ds /\
      stations (w_db w') = stations (foldl (draw_one column) d0 ds)
  | None => stations (w_db w') = stations d0
  end.

(** What a run may do: post at most once, announce only what is backed. *)
Definition trade_run (key id : string) (r : createTradeRequest) (d0 : TradeDB) w w' : Prop :=
  led_ok (w_led w') /\ posts_at_most (trade_id_of key) trade_effect (w_led w) (w_led w') /\
  exists evs, w_bus w' = w_bus w ++ evs /\
    Forall (fun e => ev_topic e = "energy.trade.executed"%string -> executed_backed key id r d0 w' e) evs.

Lemma trade_run_quiet key id r d0 w w' :
  led_ok (w_led w') -> posts_at_most (trade_id_of key) trade_effect (w_led w) (w_led w') -> quiet w w' ->
  trade_run key id r d0 w w'.
Proof.
  intros Hok Hp (evs & Hb & Hq). split_and!; [done|done|]. exists evs. split; [done|].
  eapply list.Forall_impl; [exact Hq|]. by intros e He ?.
Qed.

Lemma settle_spec key id r column ds d0 t w :
  led_ok (w_led w) -> 0 < tq_price r < two63 ->
  trades (w_db w) !! id = Some t -> td_id t = id -> td_price t = tq_price r -> td_key t = Some key ->
  match surplusColumn (tq_kind r) with
  | Some (c, _) => c = column /\ covered_by column (tq_quantity r) d0 ds /\
      stations (w_db w) = stations (foldl (draw_one column) d0 ds)
  | None => stations (w_db w) = stations d0
  end ->
  wp (settle_trade key id r column ds) (fun _ w' => trade_run key id r d0 w w') w.
Proof.
  intros Hok Hprice Ht Hid Hp Hk Hst. unfold settle_trade.
  destruct (trade_accounts (tq_kind r)) as [debit credit] eqn:Eacc.
  assert (forall lr l, led_Transfer (w_led w) (trade_id_of key) debit credit (wrap_u64 (tq_price r)) CodeEnergy = (lr, l) ->
    led_ok l /\ posts_at_most (trade_id_of key) trade_effect (w_led w) l) as Hpost.
  { intros lr l Hl. destruct (posting_step _ _ _ _ _ _ _ _ Hok Hprice Hl) as [Hok' Hcase]. split; [done|].
    destruct Hcase as [[Hb Hq]|(Hn & _ & Hb & Hq)]; [by left|right].
    rewrite Hq, decide_True by done. split_and!; [done..|]. exists (delta debit credit (tq_price r)).
    split; [|done]. exists (tq_kind r), (tq_price r). by rewrite Eacc. }
  assert (forall w1 m, w_bus w1 = w_bus w -> led_ok (w_led w1) ->
    posts_at_most (trade_id_of key) trade_effect (w_led w) (w_led w1) ->
    (forall w2, wp m (fun _ w3 => w_led w3 = w_led w2 /\ quiet w2 w3) w2) ->
    wp (do! restoreSurplus ds column in m) (fun (_ : response) w' => trade_run key id r d0 w w') w1) as Hcomp.
  { intros w1 m Hbus Hl1 Hp1 Hm. apply wp_bind. eapply wp_mono; [|apply restore_spec].
    intros a w2 [Hl2 Hb2]. eapply wp_mono; [|apply Hm]. intros x w3 [Hl3 (evs & Hb3 & Hq)].
    apply trade_run_quiet; [by rewrite Hl3, Hl2|by rewrite Hl3, Hl2|]. exists evs. by rewrite Hb3, Hb2, Hbus. }
  apply wp_bind, wp_led_call; intros s.
  - intros [h|e] l Hl; destruct (Hpost _ _ Hl) as [Hok' Hpm].
    + destruct (posting_done _ _ _ _ _ _ _ _ Hok Hprice Hl) as [Hdone ->].
      eapply wp_mono; [|by eapply finish_spec]. intros a w' (Hl' & Hst' & evs & Hb & Hf).
      unfold trade_run. rewrite Hl'. split_and!; [done|done|]. exists evs. split; [done|].
      eapply list.Forall_impl; [exact Hf|]. intros e [Hj Hrow] _. unfold executed_backed. rewrite Hl', Hst'.
      split_and!; [done|done| |].
      * eexists. split; [exact Hrow|]. by split_and!.
      * destruct (surplusColumn (tq_kind r)) as [[c u]|]; [|done]. destruct Hst as (-> & ? & ?). eauto.
    + destruct e; apply Hcomp; try done; intros; apply fail_spec.
  - intros lr l Hl; destruct (Hpost _ _ Hl) as [Hok' Hpm]. apply Hcomp; try done. intros; apply fail_spec.
  - apply Hcomp; [done|done|apply posts_at_most_refl|]. intros; apply fail_spec.
Qed.

Lemma draws_stations column ds t d :
  stations (foldl (draw_one column) (put_trade t d) ds) = stations (foldl (draw_one column) d ds).
Proof.
  assert (forall d1 d2, stations d1 = stations d2 ->
    stations (foldl (draw_one column) d1 ds) = stations (foldl (draw_one column) d2 ds)) as Hext; [|by apply Hext].
  induction ds as [|x ds IH]; intros d1 d2 E; [done|]. simpl. apply IH. unfold draw_one, add_surplus. simpl. by rewrite E.
Qed.

(** The trade after its insert, against the tables before it. *)
Lemma back_spec key r (t : Trade) d w :
  led_ok (w_led w) -> 0 < tq_price r < two63 -> td_price t = tq_price r -> td_key t = Some key ->
  w_db w = put_trade t d ->
  wp (back_trade key (td_id t) r) (fun _ w' => trade_run key (td_id t) r d w w') w.
Proof.
  intros Hok Hprice Hp Hk Hdb. unfold back_trade.
  assert (trades (w_db w) !! td_id t = Some t) as Ht by (rewrite Hdb; apply lookup_insert_eq).
  destruct (surplusColumn (tq_kind r)) as [[column u]|] eqn:Ec.
  2: { eapply settle_spec; try done. rewrite Ec. by rewrite Hdb. }
  apply wp_bind. eapply wp_mono; [|apply draw_spec]. intros dr w1 (s & ds & Hw1 & Hdr).
  assert (w_led w1 = w_led w /\ w_bus w1 = w_bus w) as [Hl1 Hb1] by (destruct Hw1 as [-> | ->]; done).
  destruct dr as [ds'| |e].
  - destruct Hdr as (-> & Hcov & ->).
    eapply wp_mono; [|eapply (settle_spec key _ r column ds d t)]; try done.
    + cbn [w_db with_db]. by rewrite draws_trades.
    + rewrite Ec. split_and!; [done| |].
      * unfold covered_by in *. rewrite Hdb in Hcov. exact Hcov.
      * cbn [w_db with_db]. by rewrite Hdb, draws_stations.
  - eapply wp_mono; [|apply fail_spec]. intros a w' [Hl (evs & Hb & Hq)].
    apply trade_run_quiet; rewrite ?Hl, ?Hl1; [done|apply posts_at_most_refl|]. exists evs. by rewrite Hb, Hb1.
  - apply wp_ret. apply trade_run_quiet; rewrite ?Hl1; [done|apply posts_at_most_refl|]. by apply quiet_refl.
Qed.

Lemma create_trade_spec key req w :
  led_ok (w_led w) -> (forall r, req = Some r -> trade_typed r) ->
  wp (CreateTrade key req) (fun _ w' =>
    (w_led w' = w_led w /\ w_bus w' = w_bus w) \/ exists r id, req = Some r /\ trade_run key id r (w_db w) w w') w.
Proof.
  intros Hok Htyped. unfold CreateTrade. case_decide; [apply wp_ret; by left|].
  destruct req as [r|]; [|apply wp_ret; by left]. destruct (negb _); [apply wp_ret; by left|].
  destruct (_ || _) eqn:E; [apply wp_ret; by left|]. zbool. destruct E as [_ Hpos].
  assert (0 < tq_price r < two63) as Hprice by (pose proof (Htyped r eq_refl) as Hi; unfold trade_typed, i64 in Hi; lia).
  apply wp_bind, wp_gets, wp_bind, wp_new_uuid, wp_bind, wp_db_exec; intros s.
  - intros u g Hg. unfold insert_trade in Hg. destruct (trades _ !! _); [done|]. destruct (find_row _ _); [done|].
    simplify_eq. match goal with |- context [put_trade ?t _] => set (t0 := t) end.
    eapply wp_mono; [|by eapply (back_spec key r t0)]. intros a w' Hrun. right. by exists r, (td_id t0).
  - intros u g _. apply wp_ret. by left.
  - intros e _. destruct e; try (apply wp_ret; by left). case_decide; [|apply wp_ret; by left].
    apply wp_bind, wp_db_query; intros s2; [|apply wp_ret; by left]. cbn [w_db with_sched with_uuids].
    destruct (trade_by_key _ _); [|apply wp_ret; by left].
    apply wp_bind, wp_ret. destruct (scanTrade _); apply wp_ret; by left.
  - apply wp_ret. by left.
Qed.

(** One attempt at a trade: the body and the faults. *)
Definition run_trade (key : string) w (a : option createTradeRequest * list outcome) : World TradeDB L :=
  (CreateTrade key a.1 (with_sched a.2 w)).2.

(** A trade settles at most once: over any history of trade requests with
    one Idempotency-Key, with any bodies and any faults, the ledger moves by at
    most one settlement between the clearing and the revenue account. *)
Theorem trade_settles_once (key : string) (w : World TradeDB L)
    (l : list (option createTradeRequest * list outcome))
    (Htyped : Forall (fun a => forall r, a.1 = Some r -> trade_typed r) l) (Hok : led_ok (w_led w)) :
  let w' := foldl (run_trade key) w l in
  (forall x, led_balance (w_led w') x = led_balance (w_led w) x) \/
  exists kind amount, 0 < amount < two63 /\
    forall x, led_balance (w_led w') x
      = led_balance (w_led w) x + delta (trade_accounts kind).1 (trade_accounts kind).2 amount x.
Proof.
  destruct (posts_once w_led (run_trade key) (fun w => led_ok (w_led w))
    (fun a => forall r, a.1 = Some r -> trade_typed r) (trade_id_of key) trade_effect) with (l := l) (w := w)
    as [_ [[Hb _]|(_ & _ & f & (kind & amount & Ha & ->) & Hb)]]; [|done|done|by left|right; eauto].
  intros w1 a Ha Hok1. destruct (create_trade_spec key a.1 (with_sched a.2 w1) Hok1 Ha) as [[Hl _]|(r & id & _ & Hr)].
  - unfold run_trade. rewrite Hl. split; [done|apply posts_at_most_refl].
  - by destruct Hr as (? & ? & _).
Qed.

(** An announced execution is backed: for every energy.trade.executed a
    request publishes, the trade row is committed as executed with the transfer
    of the request's key, the ledger has posted it, and for the selling kinds
    the recorded surplus covered the quantity and was drawn down by exactly its
    greedy allocation over the stations. *)
Theorem executed_trade_is_backed (key : string) (req : option createTradeRequest) (w : World TradeDB L)
    (Htyped : forall r, req = Some r -> trade_typed r) (Hok : led_ok (w_led w)) :
  let w' := (CreateTrade key req w).2 in
  exists evs, w_bus w' = w_bus w ++ evs /\
    forall e, e ∈ evs -> ev_topic e = "energy.trade.executed"%string ->
      exists r id, req = Some r /\ executed_backed key id r (w_db w) w' e.
Proof.
  destruct (create_trade_spec key req w Hok Htyped) as [[_ Hb]|(r & id & Hr & _ & _ & evs & Hb & Hf)]; cbv zeta.
  - exists []. rewrite app_nil_r. split; [done|]. intros e He. by apply not_elem_of_nil in He.
  - exists evs. split; [done|]. intros e He Ht. exists r, id. split; [done|].
    by apply (proj1 (list.Forall_forall _ _) Hf e He).
Qed.

(** *** Without faults *)

Lemma draw_loop_done tx column ss remaining w :
  w_sched w = [] ->
  wp (draw_loop tx column ss remaining) (fun r w' => w' = w /\
    exists ds tx', r = Ok (ds, tx') /\ forall d, tx' d = foldl (draw_one column) (tx d) ds) w.
Proof.
  intros Hs. revert tx remaining. induction ss as [|x ss IH]; intros tx remaining; cbn [draw_loop].
  { apply wp_ret. split; [done|]. by exists [], tx. }
  destruct (fle _ _). { apply wp_ret. split; [done|]. by exists [], tx. }
  apply wp_bind. eapply wp_tx_exec_done; [done|done|]. apply wp_bind. eapply wp_mono; [|apply IH].
  intros ? ? [-> (ds & tx' & -> & Htx)]. apply wp_ret. split; [done|]. do 2 eexists. split; [done|].
  intros d. by rewrite Htx.
Qed.

Lemma draw_done amount column w :
  w_sched w = [] ->
  wp (drawDownSurplus amount column) (fun r w' =>
    match r with
    | Drawn ds => w' = with_db (foldl (draw_one column) (w_db w) ds) w
    | _ => w' = w
    end) w.
Proof.
  intros Hs. unfold drawDownSurplus. apply wp_bind, wp_begin_done, wp_bind, wp_tx_query_done, wp_bind, wp_ret; [done|done|].
  destruct (scan_stations _ _) as [[ss total]|e]; [|by apply wp_ret]. destruct (flt _ _); [by apply wp_ret|].
  apply wp_bind. eapply wp_mono; [|by apply draw_loop_done]. intros ? ? [-> (ds & tx & -> & Htx)].
  apply wp_bind, wp_commit_done; [done|]. apply wp_ret. by rewrite Htx.
Qed.

Lemma restore_done ds column w :
  w_sched w = [] ->
  wp (restoreSurplus ds column) (fun _ w' => w_db w' = foldl (restore_one column) (w_db w) ds) w.
Proof.
  revert w. induction ds as [|x ds IH]; intros w Hs; cbn [restoreSurplus]; [by apply wp_ret|].
  apply wp_bind. eapply wp_db_exec_done; [done|done|]. by apply IH.
Qed.

Lemma fail_stations id event code error reason w :
  wp (fail_trade id event code error reason) (fun _ w' => stations (w_db w') = stations (w_db w)) w.
Proof.
  unfold fail_trade. apply wp_bind, wp_db_exec; intros s.
  - intros t g Hg. unfold mark_failed in Hg. destruct (_ !! _); simplify_eq. apply wp_bind, wp_ret.
    destruct (scanTrade _); [|by apply wp_ret]. by apply wp_bind, wp_gets, wp_bind, wp_publish; intros; apply wp_ret.
  - intros t g Hg. unfold mark_failed in Hg. destruct (_ !! _); simplify_eq. by apply wp_ret.
  - intros. by apply wp_ret.
  - by apply wp_ret.
Qed.

Lemma settle_done key id r column ds d0 w :
  w_sched w = [] -> led_ok (w_led w) -> 0 < tq_price r < two63 ->
  w_db w = foldl (draw_one column) d0 ds ->
  wp (settle_trade key id r column ds) (fun _ w' =>
    stations (w_db w') = stations d0 \/ led_posted (w_led w') (trade_id_of key) = true) w.
Proof.
  intros Hs Hok Hprice Hdb. unfold settle_trade. destruct (trade_accounts _) as [debit credit].
  destruct (led_Transfer (w_led w) (trade_id_of key) debit credit (wrap_u64 (tq_price r)) CodeEnergy) as [lr l] eqn:Hl.
  apply wp_bind. eapply wp_led_call_done; [done|exact Hl|]. destruct lr as [h|e].
  - destruct (posting_done _ _ _ _ _ _ _ _ Hok Hprice Hl) as [Hdone _]. unfold finish_trade.
    apply wp_bind, wp_db_exec; intros; try (apply wp_ret; by right). apply wp_bind, wp_ret.
    destruct (scanTrade _); [|apply wp_ret; by right].
    apply wp_bind, wp_gets, wp_bind, wp_publish; intros; apply wp_ret; by right.
  - apply wp_bind. eapply wp_mono; [|by apply restore_done]. intros a w1 Hw1. cbn [w_db with_led] in Hw1.
    rewrite Hdb, restore_draws in Hw1.
    destruct e; (eapply wp_mono; [|apply fail_stations]); intros b w2 ->; left; by rewrite Hw1.
Qed.

(** C26: surplus leaves the stations only against money: in a run without
    faults, either the ledger has posted the trade's settlement or every
    station ends with exactly the amounts it had; in particular a trade the
    ledger refuses gives back what it drew, to the digit. *)
Theorem surplus_leaves_only_when_settled (key : string) (req : option createTradeRequest) (w : World TradeDB L)
    (Hfree : w_sched w = []) (Htyped : forall r, req = Some r -> trade_typed r) (Hok : led_ok (w_led w)) :
  let w' := (CreateTrade key req w).2 in
  stations (w_db w') = stations (w_db w) \/ led_posted (w_led w') (DeterministicTransferID (trade_key key)) = true.
Proof.
  cbv zeta. change (wp (CreateTrade key req) (fun _ w' => stations (w_db w') = stations (w_db w) \/
    led_posted (w_led w') (trade_id_of key) = true) w).
  unfold CreateTrade. case_decide; [apply wp_ret; by left|].
  destruct req as [r|]; [|apply wp_ret; by left]. destruct (negb _); [apply wp_ret; by left|].
  destruct (_ || _) eqn:E; [apply wp_ret; by left|]. zbool. destruct E as [_ Hpos].
  assert (0 < tq_price r < two63) as Hprice by (pose proof (Htyped r eq_refl) as Hi; unfold trade_typed, i64 in Hi; lia).
  apply wp_bind, wp_gets, wp_bind, wp_new_uuid, wp_bind.
  match goal with |- wp (db_exec ?st) _ _ => destruct (st (w_db w)) as [[u g]|e] eqn:Hst end.
  - eapply wp_db_exec_done; [done|exact Hst|]. unfold insert_trade in Hst.
    destruct (trades _ !! _); [done|]. destruct (find_row _ _); [done|]. simplify_eq.
    unfold back_trade. destruct (surplusColumn _) as [[column un]|]; [|by eapply wp_mono; [|by eapply settle_done]].
    apply wp_bind. eapply wp_mono; [|by apply draw_done]. intros [ds| |e] w1 ->.
    + by eapply wp_mono; [|by eapply settle_done].
    + eapply wp_mono; [|apply fail_stations]. intros a w' ->. by left.
    + apply wp_ret. by left.
  - apply wp_db_exec; intros s; cbn [w_db with_uuids]; rewrite ?Hst; try done.
    2: { apply wp_ret. by left. }
    intros e' He'. simplify_eq. destruct e'; try (apply wp_ret; by left). case_decide; [|apply wp_ret; by left].
    apply wp_bind, wp_db_query; intros s2; [|apply wp_ret; by left].
    destruct (trade_by_key _ _); [|apply wp_ret; by left].
    apply wp_bind, wp_ret. destruct (scanTrade _); apply wp_ret; by left.
Qed.
End Proofs.

(** ** Concrete runs *)

#[local] Existing Instance test_runtime.
#[local] Existing Instance test_numeric.

(** Two stations with 25 and 40 kg, and a clearing account that holds [funds]. *)
Definition station_db : TradeDB :=
  mkTradeDB ∅ {["st-a" := mkStation "st-a" (Some (Q2Qc 25)) None; "st-b" := mkStation "st-b" (Some (Q2Qc 40)) None]}.

Definition energy_led (funds : Z) : simulated := mkSimulated {[EnergyTradeAccount := funds]} ∅.

Definition trade_world (funds : Z) : World TradeDB simulated := mkWorld station_db (energy_led funds) [] 1000 0 [] [] [].

(** Thirty kilograms for 900. *)
Definition sale_30 : option createTradeRequest := Some (mkCreateTrade "h2-sale" (float_of_Z 30) 900).

Lemma energy_led_ok funds : 0 <= funds < 1000000 -> sim_ok (energy_led funds).
Proof.
  intros Hf. split_and!; simpl.
  - intros k v. rewrite lookup_singleton. case_decide; congruence || (intros; simplify_eq; lia).
  - unfold total. simpl. rewrite <- insert_empty, msum_insert_new, msum_empty by done. unfold two63. lia.
  - intros id h. rewrite lookup_empty. done.
Qed.

Lemma sale_30_typed r : sale_30 = Some r -> trade_typed r.
Proof. intros Hr. injection Hr as <-. unfold trade_typed, i64, two63. simpl. lia. Qed.

Lemma trade_settles_once_witness :
  let w' := foldl (run_trade "k") (trade_world 1000) [(sale_30, [Done; Done; Done; Done; Done; Done; LostReply]); (sale_30, [])] in
  (forall x, led_balance (w_led w') x = led_balance (w_led (trade_world 1000)) x) \/
  exists kind amount, 0 < amount < two63 /\
    forall x, led_balance (w_led w') x
      = led_balance (w_led (trade_world 1000)) x + delta (trade_accounts kind).1 (trade_accounts kind).2 amount x.
Proof.
  apply (trade_settles_once "k" (trade_world 1000)).
  - do 2 (apply Forall_cons_2; [exact sale_30_typed|]). apply Forall_nil_2.
  - apply energy_led_ok. lia.
Defined.

(** The run of the next witness: 25 kg of the first station and 5 of the second. *)
Definition sale_run : response * World TradeDB simulated := CreateTrade "k" sale_30 (trade_world 1000).

Lemma sale_run_executes :
  status sale_run.1 = 201 /\ map ev_topic (w_bus sale_run.2) = ["energy.trade.executed"%string] /\
  sim_balance (w_led sale_run.2) OperatorRevenueAccount = 900 /\
  (sn_kg <$> stations (w_db sale_run.2) !! "st-a"%string) = Some (Some (Q2Qc 0)) /\
  (sn_kg <$> stations (w_db sale_run.2) !! "st-b"%string) = Some (Some (Q2Qc 35)).
Proof. vm_compute. split_and!; reflexivity. Qed.

Lemma executed_trade_is_backed_witness :
  status sale_run.1 = 201 /\
  exists evs, w_bus sale_run.2 = [] ++ evs /\
    forall e, e ∈ evs -> ev_topic e = "energy.trade.executed"%string ->
      exists r id, sale_30 = Some r /\ executed_backed "k" id r station_db sale_run.2 e.
Proof.
  split; [vm_compute; reflexivity|]. apply (executed_trade_is_backed "k" sale_30 (trade_world 1000)).
  - exact sale_30_typed.
  - apply energy_led_ok. lia.
Defined.

(** The clearing account is short: 402, and the stations are as they were. *)
Definition refused_run : response * World TradeDB simulated := CreateTrade "k" sale_30 (trade_world 100).

Lemma surplus_leaves_only_when_settled_witness :
  status refused_run.1 = 402 /\
  (stations (w_db refused_run.2) = stations station_db \/
   led_posted (w_led refused_run.2) (DeterministicTransferID (trade_key "k")) = true).
Proof.
  split; [vm_compute; reflexivity|]. apply (surplus_leaves_only_when_settled "k" sale_30 (trade_world 100)).
  - reflexivity.
  - exact sale_30_typed.
  - apply energy_led_ok. lia.
Defined.

(** The world between the insert of the trade and its draw-down. *)
Definition proposed_world : World TradeDB simulated :=
  with_db (put_trade (mkTrade "t1" "h2-sale" (Q2Qc 30) 900 "proposed" None (Some "k") 1000) station_db) (trade_world 1000).

(** A cancellation does not stop a trade in flight: a cancel request that
    arrives between the insert and the settlement is answered 200, and the
    trade then draws the surplus, settles and is recorded as executed. *)
Theorem cancelled_trade_still_executes :
  let c := CancelTrade "t1" proposed_world in
  let t := back_trade "k" "t1" (mkCreateTrade "h2-sale" (float_of_Z 30) 900) c.2 in
  status c.1 = 200 /\ status t.1 = 201 /\
  (td_status <$> trades (w_db t.2) !! "t1"%string) = Some "executed"%string /\
  sim_balance (w_led t.2) OperatorRevenueAccount = 900.
Proof. vm_compute. split_and!; reflexivity. Qed.
