(* ===== verification/Carbon.v ===== *)
(** * The carbon-fund consumer

    Models services/go/commerce-api/internal/consumers/carbon.go: the ledger
    leg of an issued credit and the loop over the carbon.credit.issued topic.
    The topic is one partition, a list of records; the group's committed
    offset is the consumer's only durable state, and a restart resumes from
    it.  What [CommitRecords] and a rebalance do to the offset is franz-go's
    documented behaviour. *)

From S2P Require Import Prelude Codec World Float64 Ledger.

Open Scope Z_scope.
Open Scope go_scope.

Record CarbonCreditIssued : Type := mkCarbonCredit {
  cr_credit : string; cr_period : string; cr_kg : float64; cr_credits : float64
}.

(** The value of a record: no envelope, an envelope whose data does not
    decode, or a payload. *)
Inductive record : Type :=
| Malformed
| BadData
| Issued (c : CarbonCreditIssued).

Definition carbon_key (credit : string) : string := "carbon:" +:+ credit.

(** [uint64(math.Round(math.Max(kg, 0)))]; out of range the conversion is
    implementation specific, the parameter. *)
Definition whole_kg (unspecified : float64 -> Z) (kg : float64) : Z :=
  match round_int (fmax0 kg) with
  | Some z => if z <? two64 then z else unspecified kg
  | None => unspecified kg
  end.

Section Consumer.
Context {L : Type} `{Ledger L} (unspecified : float64 -> Z).

(** The database of the world is the committed offset. *)
Definition PostCarbonFundLeg (c : CarbonCreditIssued) : M nat L (result string) :=
  if decide (cr_credit c = "" \/ cr_period c = "")
  then gret (Err (ErrMsg "carbon.credit.issued payload missing credit_id/period"))
  else
    let amount := whole_kg unspecified (cr_kg c) in
    if decide (amount = 0) then gret (Ok "")
    else led_call (fun l => led_Transfer l (DeterministicTransferID (carbon_key (cr_credit c)))
           CarbonIssuanceAccount CarbonFundAccount amount CodeCarbon).

(** [client.CommitRecords]: the offset after the record; a failure is logged. *)
Definition commit_offset (n : nat) : M nat L unit :=
  do! db_exec (fun _ => Ok (tt, fun _ => S n)) in gret tt.

(** The body of [EachRecord] for the record at offset [n]. *)
Definition consume_record (n : nat) (r : record) : M nat L unit :=
  match r with
  | Malformed => commit_offset n
  | BadData => commit_offset n
  | Issued c =>
      let! res := PostCarbonFundLeg c in
      match res with
      | Err _ => gret tt
      | Ok _ => commit_offset n
      end
  end.

(** One fetch: the records from offset [n] on. *)
Fixpoint consume_batch (n : nat) (rs : list record) : M nat L unit :=
  match rs with
  | [] => gret tt
  | r :: rs' => do! consume_record n r in consume_batch (S n) rs'
  end.

(** The consumer between two polls: how far it has fetched, and the world. *)
Record consumer : Type := mkConsumer { position : nat; cworld : World nat L }.

(** What drives it: a poll that fetches some records under some faults, a poll
    error, or a restart (or rebalance) back to the committed offset. *)
Inductive consumer_event : Type :=
| Poll (fetched : nat) (sched : list outcome)
| PollError
| Resume.

Definition consumer_step (log : list record) (c : consumer) (e : consumer_event) : consumer :=
  match e with
  | Poll k sched =>
      let rs := take k (drop (position c) log) in
      mkConsumer (position c + length rs) (consume_batch (position c) rs (with_sched sched (cworld c))).2
  | PollError => c
  | Resume => mkConsumer (w_db (cworld c)) (cworld c)
  end.
End Consumer.

(** ** Each credit counts once *)

Definition credits_of (log : list record) : list CarbonCreditIssued :=
  omap (fun r => match r with Issued c => Some c | _ => None end) log.

Section Proofs.
Context {L : Type} `{LedgerSpec L} (unspecified : float64 -> Z).
Implicit Types w : World nat L.

Abbreviation kg_of c := (whole_kg unspecified (cr_kg c)).
Abbreviation carbon_id c := (DeterministicTransferID (carbon_key (cr_credit c))).

Definition kg_sum (cs : list CarbonCreditIssued) : Z := foldr (fun c s => kg_of c + s) 0 cs.

(** The ledger [l] is [l0] plus one leg for each of the credits [posted]. *)
Definition carbon_books (log : list record) (l0 l : L) (posted : list CarbonCreditIssued) : Prop :=
  led_ok l /\ posted ⊆ credits_of log /\ NoDup (map cr_credit posted) /\
  (forall x, led_balance l x = led_balance l0 x + delta CarbonIssuanceAccount CarbonFundAccount (kg_sum posted) x) /\
  (forall c, c ∈ posted -> led_posted l (carbon_id c) = true).

Definition log_typed (log : list record) : Prop :=
  forall c, c ∈ credits_of log -> 0 <= kg_of c < two63.

Lemma leg_spec log l0 c w :
  log_typed log -> c ∈ credits_of log ->
  (exists ps, carbon_books log l0 (w_led w) ps) ->
  wp (PostCarbonFundLeg unspecified c) (fun _ w' => exists ps, carbon_books log l0 (w_led w') ps) w.
Proof.
  intros Hty Hc Hbooks. unfold PostCarbonFundLeg. case_decide; [by apply wp_ret|].
  case_decide as Hz; [by apply wp_ret|].
  assert (forall r l, led_Transfer (w_led w) (carbon_id c) CarbonIssuanceAccount CarbonFundAccount (kg_of c) CodeCarbon = (r, l) ->
    exists ps, carbon_books log l0 l ps) as Hpost.
  { intros r l Hl. destruct Hbooks as (ps & Hok & Hsub & Hnd & Hbal & Hps).
    assert (0 <= kg_of c < two63) as Hkg by by apply Hty.
    pose proof (ledger_ok_step _ _ _ _ _ _ _ _ Hok Hkg Hl) as Hok'.
    destruct (ledger_step_cases _ _ _ _ _ _ _ _ Hok Hkg Hl) as [[Hb Hp]|(Hn & _ & Hb & Hp)].
    - exists ps. split_and!; [done|done|done| |].
      + intros x. by rewrite Hb.
      + intros c' Hc'. rewrite Hp. by apply Hps.
    - exists (c :: ps). split_and!; [done| | | |].
      + intros c' [->|Hc']%elem_of_cons; [done|by apply Hsub].
      + simpl. apply list.NoDup_cons. split; [|done]. intros (c' & Hid & Hc')%list_elem_of_fmap.
        pose proof (Hps c' Hc') as Hposted. rewrite <- Hid in Hposted. congruence.
      + intros x. rewrite Hb, Hbal. unfold delta. simpl. repeat case_decide; lia.
      + intros c' Hc'. rewrite Hp. case_decide as Hd; [done|].
        apply elem_of_cons in Hc' as [->|Hc']; [done|by apply Hps]. }
  apply wp_led_call; intros s; [intros r l Hl..|done]; cbn [w_led with_led]; by eapply Hpost.
Qed.

Lemma consume_record_spec log l0 n r w :
  log_typed log -> r ∈ log -> (exists ps, carbon_books log l0 (w_led w) ps) ->
  wp (consume_record unspecified n r) (fun _ w' => exists ps, carbon_books log l0 (w_led w') ps) w.
Proof.
  intros Hty Hr Hbooks.
  assert (forall m w1, (exists ps, carbon_books log l0 (w_led w1) ps) ->
    wp (commit_offset m) (fun _ w' => exists ps, carbon_books log l0 (w_led w') ps) w1) as Hcommit.
  { intros m w1 Hb. unfold commit_offset. apply wp_bind, wp_db_exec; intros; by apply wp_ret. }
  destruct r as [| |c]; [by apply Hcommit..|]. cbn [consume_record]. apply wp_bind.
  eapply wp_mono; [|apply (leg_spec log l0); [done| |done]].
  - intros [h|e] w' Hb; [by apply Hcommit|by apply wp_ret].
  - unfold credits_of. apply list_elem_of_omap. by exists (Issued c).
Qed.

Lemma consume_batch_spec log l0 n rs w :
  log_typed log -> rs ⊆ log -> (exists ps, carbon_books log l0 (w_led w) ps) ->
  wp (consume_batch unspecified n rs) (fun _ w' => exists ps, carbon_books log l0 (w_led w') ps) w.
Proof.
  intros Hty. revert n w. induction rs as [|r rs IH]; intros n w Hsub Hb; [by apply wp_ret|].
  cbn [consume_batch]. apply wp_bind.
  eapply wp_mono; [|apply (consume_record_spec log l0); [done|apply Hsub; left|done]].
  intros a w' Hb'. apply IH; [|done]. intros x Hx. apply Hsub. by right.
Qed.

(** C27: every issued credit reaches the carbon fund at most once: for any topic
    and any sequence of polls, faults, restarts and redeliveries, the ledger
    has moved exactly the whole kilograms of a set of the topic's credits, no
    two of them with the same credit id, from issuance to the fund. *)
Theorem carbon_credits_count_once (log : list record) (c : consumer) (l : list consumer_event)
    (Hty : log_typed log) (Hok : led_ok (w_led (cworld c))) :
  let c' := foldl (consumer_step unspecified log) c l in
  exists posted, posted ⊆ credits_of log /\ NoDup (map cr_credit posted) /\
    (forall x, led_balance (w_led (cworld c')) x
       = led_balance (w_led (cworld c)) x + delta CarbonIssuanceAccount CarbonFundAccount (kg_sum posted) x) /\
    forall p, p ∈ posted -> led_posted (w_led (cworld c')) (carbon_id p) = true.
Proof.
  set (l0 := w_led (cworld c)).
  assert (exists ps, carbon_books log l0 (w_led (cworld c)) ps) as Hb.
  { exists []. split_and!; [done|set_solver|apply NoDup_nil_2| |set_solver].
    intros x. unfold l0, delta. simpl. repeat case_decide; lia. }
  clearbody l0. revert c Hok Hb. induction l as [|e l IH]; intros c Hok Hb.
  { cbv zeta. simpl. destruct Hb as (ps & _ & ? & ? & ? & ?). by exists ps. }
  simpl. assert (exists ps, carbon_books log l0 (w_led (cworld (consumer_step unspecified log c e))) ps) as Hb'.
  { destruct e as [k sched| |]; [|done|done]. cbn [consumer_step cworld].
    apply (consume_batch_spec log l0 (position c) _ (with_sched sched (cworld c))); [done| |done].
    etrans; [apply subseteq_take|apply subseteq_drop]. }
  apply IH; [|done]. by destruct Hb' as (ps & ? & _).
Qed.
End Proofs.

(** ** Concrete runs *)

#[local] Existing Instance test_runtime.

Definition two_credits : list record :=
  [Issued (mkCarbonCredit "c1" "2026-01" (float_of_Z 10) (float_of_Z 1));
   Malformed;
   Issued (mkCarbonCredit "c2" "2026-02" (float_of_Z 20) (float_of_Z 2))].

Definition issuance_led : simulated := mkSimulated {[CarbonIssuanceAccount := 1000]} ∅.

Definition fresh_consumer : consumer := mkConsumer 0 (mkWorld 0%nat issuance_led [] 1000 0 [] [] []).

Abbreviation run_consumer l := (foldl (consumer_step (fun _ => 0) two_credits) fresh_consumer l).

(** Both credits are delivered twice: the offset commits of the first session are lost. *)
Definition redelivery : list consumer_event := [Poll 3 [Done; Lost; Lost; Done; Lost]; PollError; Resume; Poll 5 []].

Lemma carbon_credits_count_once_witness :
  position (run_consumer redelivery) = 3%nat /\
  sim_balance (w_led (cworld (run_consumer redelivery))) CarbonFundAccount = 30 /\
  exists posted, posted ⊆ credits_of two_credits /\ NoDup (map cr_credit posted) /\
    (forall x, led_balance (w_led (cworld (run_consumer redelivery))) x
       = led_balance (w_led (cworld fresh_consumer)) x
         + delta CarbonIssuanceAccount CarbonFundAccount (kg_sum (fun _ => 0) posted) x) /\
    forall p, p ∈ posted -> led_posted (w_led (cworld (run_consumer redelivery)))
                (DeterministicTransferID (carbon_key (cr_credit p))) = true.
Proof.
  split; [vm_compute; reflexivity|]. split; [vm_compute; reflexivity|].
  apply (carbon_credits_count_once (fun _ => 0) two_credits fresh_consumer redelivery).
  - intros c Hc. apply list.Forall_forall with (x := c) (l := credits_of two_credits); [|exact Hc].
    repeat constructor; vm_compute; congruence.
  - split_and!; simpl.
    + intros k v. rewrite lookup_singleton. case_decide; congruence || (intros; simplify_eq; lia).
    + unfold total. vm_compute. reflexivity.
    + intros id h. rewrite lookup_empty. done.
Defined.

(** A failed credit is not redelivered once a later one succeeds: the
    posting of the first credit fails, the second one's offset commit covers
    both, and after a restart no poll sees the first again, so its kilograms
    never reach the fund. *)
Theorem failed_credit_is_skipped :
  let c := run_consumer [Poll 3 [Lost]; Resume; Poll 3 []; Resume; Poll 3 []] in
  w_db (cworld c) = 3%nat /\ position c = 3%nat /\
  sim_balance (w_led (cworld c)) CarbonFundAccount = 20.
Proof. vm_compute. split_and!; reflexivity. Qed.
