(* ===== verification/System.v ===== *)
(** * The commerce service as a whole

    A state of the service is a world; a step is one request to any writing
    handler over the commerce tables, or the environment moving the clock and
    choosing the coming faults and switch replies.  The books invariant
    combines the components: it is kept by every step, so it holds in every
    reachable state. *)

From S2P Require Import Prelude Codec World Auth Ledger CommerceDb Mojaloop Loyalty Payments LoyaltyTheorems.
From S2P Require Import PaymentProofs PaymentTheorems Refunds Wallets Entitlements Billing.

Open Scope go_scope.

(** ** What a payment adds beside its row *)

(** The status of a payment that was just made. *)
Definition made_status (st : string) : Prop := st <> "refunded"%string /\ st <> "partially_refunded"%string.

Lemma PaymentStatus_made f : made_status (PaymentStatus (Some f)).
Proof. destruct f as [[? k ? ?]|m]; [destruct k|]; done. Qed.

(** One uninvoiced positive charge more, or the same charges. *)
Definition charge_added (d d' : DB) : Prop :=
  billing_charges d' = billing_charges d \/
  exists c, billing_charges d !! bc_id c = None /\ bc_invoice c = None /\ 0 < bc_amount c /\
    billing_charges d' = <[bc_id c := c]> (billing_charges d).

(** The tables a payment never writes. *)
Definition same_catalogue (d d' : DB) : Prop :=
  fare_products d' = fare_products d /\ rider_entitlements d' = rider_entitlements d /\
  billing_accounts d' = billing_accounts d /\ invoices d' = invoices d.

Definition payment_side (d d' : DB) : Prop :=
  same_catalogue d d' /\ charge_added d d' /\
  forall k p, fare_payments d' !! k = Some p -> fare_payments d !! k = Some p \/ made_status (p_status p).

Lemma payment_side_refl d : payment_side d d.
Proof. split_and!; [done|by left|by auto]. Qed.

Lemma payment_side_alloc rider d d' : alloc_frame rider d d' -> payment_side d d'.
Proof. intros [->|[_ ->]]; [apply payment_side_refl|]. split_and!; [done|by left|by auto]. Qed.

Lemma payment_side_loyalty d d1 d2 : payment_side d d1 -> loyalty_frame d1 d2 -> payment_side d d2.
Proof. by intros Hs (la & ll & lr & ->). Qed.

Section Side.
Context {L : Type} `{Ledger L} `{Runtime}.
Implicit Types w : World DB L.

Lemma accrue_billing_side tx pid amount charge rv w :
  wp (accrue_billing tx pid amount charge rv) (fun r w' => same_store w w' /\ forall tx', r = Ok tx' ->
    (forall d, tx' d = tx d) \/
    exists c, billing_charges (tx (w_db w)) !! bc_id c = None /\ bc_invoice c = None /\ 0 < bc_amount c /\
      forall d, tx' d = put_billing_charge c (tx d)) w.
Proof.
  unfold accrue_billing. destruct (rv_payer rv) as [payer|].
  2: { apply wp_ret. split; [done|]. intros tx' Ht. simplify_eq. by left. }
  cbn zeta. destruct (Z.ltb_spec 0 (wrap_i64 (amount - charge))).
  2: { apply wp_ret. split; [done|]. intros tx' Ht. simplify_eq. by left. }
  apply wp_bind, wp_gets, wp_bind, wp_new_uuid, wp_bind, wp_tx_exec; intros s1.
  - intros [] g Hg. apply wp_ret. split; [done|]. intros tx' Ht. simplify_eq. right.
    unfold insert_billing_charge in Hg. cbn in Hg. destruct (_ <=? 0); [done|]. destruct (find_row _ _); [done|].
    destruct (billing_charges _ !! _) eqn:Eb; [done|]. destruct (billing_accounts _ !! _); [|done].
    destruct (rider_entitlements _ !! _); [|done]. simplify_eq.
    exists (mkBillingCharge (uuid_of (w_uuids w)) payer pid (rv_ent rv) (wrap_i64 (amount - charge)) None (w_now w)).
    by split_and!.
  - intros e _. apply wp_ret. split; [done|]. intros; simplify_eq.
  - apply wp_ret. split; [done|]. intros; simplify_eq.
Qed.

Lemma mojaloop_leg_made endpoint key rider cur charge wanted st w :
  made_status st ->
  wp (mojaloop_leg endpoint key rider cur charge wanted st)
    (fun r w' => w_db w' = w_db w /\ made_status r.1.1) w.
Proof.
  intros Hst. unfold mojaloop_leg. destruct (_ && _); [|by apply wp_ret].
  apply wp_bind. eapply wp_mono; [|apply mojaloopTransfer_store].
  intros [id|f] w' (Hs & _); apply wp_ret; (split; [done|]); [done|apply PaymentStatus_made].
Qed.

(** The row, the charge and nothing else. *)
Lemma settle_payment_side endpoint id rider key amount charge cur ml0 rv sp p0 w :
  p_id p0 = id -> made_status (p_status p0) ->
  wp (settle_payment endpoint (put_payment p0) id rider key amount charge cur ml0 rv sp)
    (fun _ w' => payment_side (w_db w) (w_db w')) w.
Proof.
  intros Hid Hst0. unfold settle_payment. cbn zeta.
  apply wp_bind. eapply wp_mono; [|apply accrue_billing_side]. intros r1 w1 ((E1 & _) & Htx).
  destruct r1 as [tx|e]; [|apply wp_ret; rewrite E1; apply payment_side_refl].
  specialize (Htx tx eq_refl). apply wp_bind. eapply wp_mono; [|apply settle_ledger_spec].
  intros r2 w2 (_ & _ & Al & _ & Hst). rewrite E1 in Al. pose proof (payment_side_alloc _ _ _ Al) as Hal.
  destruct r2 as [st|e]; [|by apply wp_ret]. specialize (Hst st eq_refl).
  assert (made_status (st_status st)) as Hmade by (destruct Hst as [[-> _]|[-> _]]; done).
  apply wp_bind. eapply wp_mono; [|by apply mojaloop_leg_made]. intros [[status ml] mlErr] w3 [F1 Hm]. simpl in Hm.
  assert (billing_charges (w_db w2) = billing_charges (w_db w)) as Hbc by by destruct Al as [->|[_ ->]].
  apply wp_bind, wp_tx_exec; intros s4.
  2: { intros e _. apply wp_ret. simpl. by rewrite F1. }
  2: { apply wp_ret. simpl. by rewrite F1. }
  intros p g Hg. unfold finalize_payment in Hg.
  assert (fare_payments (tx (w_db w3)) !! id = Some p0) as Hrow.
  { destruct Htx as [Ht|(c & _ & _ & _ & Ht)]; rewrite Ht; simpl; rewrite Hid; apply lookup_insert_eq. }
  cbn [w_db with_sched] in Hg. rewrite Hrow in Hg. simplify_eq/=.
  match goal with |- context [put_payment ?q (tx _)] => set (p := q) end.
  assert (payment_side (w_db w) (put_payment p (tx (w_db w3)))) as Hside.
  { destruct Hal as (Hcat & _ & Hrows). rewrite F1. split_and!.
    - destruct Htx as [Ht|(c & _ & _ & _ & Ht)]; rewrite Ht; exact Hcat.
    - destruct Htx as [Ht|(c & Hn & Hi & Hp & Ht)]; rewrite Ht; [by left|right].
      exists c. cbn in *. by rewrite Hbc.
    - intros k q Hq.
      assert (<[p_id p0 := p]> (<[p_id p0 := p0]> (fare_payments (w_db w2))) !! k = Some q) as Hq'
        by (destruct Htx as [Ht|(c & _ & _ & _ & Ht)]; rewrite Ht in Hq; exact Hq).
      rewrite !lookup_insert in Hq'. repeat case_decide; simplify_eq; [by right|by apply Hrows]. }
  apply wp_bind, wp_commit; intros s5; cbn [w_db with_db with_sched].
  - eapply wp_mono; [|apply (conclude_payment_spec _ (p_id p0)), payment_event_of].
    intros r w' [(Hf & _) _]. by eapply payment_side_loyalty.
  - by apply wp_ret.
  - apply wp_ret. cbn [w_db with_sched]. by rewrite F1.
Qed.

Lemma create_payment_side endpoint ctx key req w :
  wp (CreatePayment endpoint ctx key req) (fun _ w' => payment_side (w_db w) (w_db w')) w.
Proof.
  unfold CreatePayment. destruct (validate_payment ctx key req) as [refusal|[[[rider amount] cur] ml]];
    [apply wp_ret, payment_side_refl|].
  apply wp_bind, wp_begin; intros s1; [|apply wp_ret, payment_side_refl].
  apply wp_bind, wp_tx_query; intros s2; [|apply wp_ret, payment_side_refl].
  apply wp_bind. eapply wp_mono; [|apply price_payment_spec]. intros r w3 ((E1 & _) & _ & _). simpl in E1.
  destruct r as [[[charge rv] sp]|e]; [|apply wp_ret; rewrite E1; apply payment_side_refl].
  apply wp_bind, wp_gets, wp_bind, wp_new_uuid, wp_bind, wp_tx_exec; intros s4.
  - intros [] g Hg. unfold insert_payment in Hg. destruct (fare_payments _ !! _); [done|].
    destruct (key_taken _ _); simplify_eq/=. rewrite <- E1.
    by eapply wp_mono; [|by apply settle_payment_side].
  - intros e _. destruct e as [|code|?| |?]; try (apply wp_ret; simpl; rewrite E1; apply payment_side_refl).
    case_decide; [|apply wp_ret; simpl; rewrite E1; apply payment_side_refl].
    unfold replay_payment. apply wp_bind, wp_db_query; intros s5.
    + destruct (payment_by_key _ _); [destruct (_ && _)|]; apply wp_ret; simpl; rewrite E1; apply payment_side_refl.
    + apply wp_ret. simpl. rewrite E1. apply payment_side_refl.
  - apply wp_ret. simpl. rewrite E1. apply payment_side_refl.
Qed.
End Side.

(** ** The books invariant *)

(** The tables the invariant reads are the same. *)
Definition core_same (d d' : DB) : Prop :=
  fare_payments d' = fare_payments d /\ rider_accounts d' = rider_accounts d /\
  billing_charges d' = billing_charges d /\ same_catalogue d d'.

Lemma core_same_loyalty d d' : loyalty_frame d d' -> core_same d d'.
Proof. by intros (la & ll & lr & ->). Qed.

(** Adding a fresh uninvoiced charge disturbs no invoice. *)
Lemma billing_ok_charge d d' :
  billing_ok d -> charge_added d d' -> invoices d' = invoices d -> billing_ok d'.
Proof.
  intros [Hch Hinv] Hadd Ei. destruct Hadd as [Eb|(c & Hn & Hnone & Hpos & Eb)].
  { unfold billing_ok, invoice_total, invoice_lines. by rewrite Eb, Ei. }
  assert (forall i, invoice_total i d' = invoice_total i d) as Ht.
  { intros i. unfold invoice_total. rewrite Eb, msum_insert_new by done. unfold invoice_share.
    rewrite bool_decide_false by congruence. lia. }
  assert (forall i, Z.of_nat (length (invoice_lines i d')) = Z.of_nat (length (invoice_lines i d))) as Hl.
  { intros i. rewrite !invoice_lines_count, Eb, msum_insert_new by done. unfold line_share.
    rewrite decide_False by congruence. lia. }
  split.
  - rewrite Eb, Ei. apply map_Forall_insert_2; [|done]. split_and!; [done|done|]. intros i Hi. congruence.
  - rewrite Ei. intros i v Hv. rewrite Ht, Hl. by apply Hinv.
Qed.

(** A settled invoice is the same invoice. *)
Lemma billing_ok_settled d v h now :
  billing_ok d -> invoices d !! iv_id v = Some v -> billing_ok (put_invoice (settled_invoice v h now) d).
Proof.
  intros [Hch Hinv] Hv. split; simpl.
  - intros k c Hk. destruct (Hch k c Hk) as (H1 & H2 & H3). split_and!; [done|done|]. intros i Hi.
    destruct (H3 i Hi) as (x & Hx & Hacc). rewrite lookup_insert. case_decide; [|by eauto]. subst i.
    eexists. split; [done|]. simpl. by simplify_eq.
  - apply map_Forall_insert_2; [|done]. by destruct (Hinv _ _ Hv).
Qed.

Lemma billing_ok_same d d' :
  billing_ok d -> billing_charges d' = billing_charges d -> invoices d' = invoices d -> billing_ok d'.
Proof. intros Hb E1 E2. apply (billing_ok_charge d); [done|by left|done]. Qed.

Section Books.
Context {L : Type} `{LedgerSpec L}.
Implicit Types w : World DB L.

(** The ledger only gains postings. *)
Definition led_later (l l' : L) : Prop :=
  led_ok l' /\ forall i, led_posted l i = true -> led_posted l' i = true.

Lemma led_later_refl l : led_ok l -> led_later l l.
Proof. by split. Qed.

Lemma led_later_transfer l id d c amount code r l' :
  led_ok l -> 0 < amount < two63 -> led_Transfer l id d c (wrap_u64 amount) code = (r, l') -> led_later l l'.
Proof.
  intros Hok Ha Ht. destruct (posting_step _ _ _ _ _ _ _ _ Hok Ha Ht) as [Hok' Hcase]. split; [done|].
  intros i Hi. destruct Hcase as [[_ Hp]|(_ & _ & _ & Hp)]; rewrite Hp; [done|]. by case_decide.
Qed.

(** Who paid has paid: the transfer of every settled fare and of every paid
    invoice is on the ledger. *)
Definition paid_status (st : string) : Prop :=
  st = "settled"%string \/ st = "partially_refunded"%string \/ st = "refunded"%string.

Definition fare_posted (l : L) (p : Payment) : Prop :=
  paid_status (p_status p) -> 0 < effectiveCharged p ->
  exists key, p_key p = Some key /\ led_posted l (DeterministicTransferID key) = true.

Definition invoice_posted (l : L) (i : string) (v : Invoice) : Prop :=
  iv_status v = "paid"%string -> led_posted l (DeterministicTransferID (invoice_key i)) = true.

Definition posted_rows (d : DB) (l : L) : Prop :=
  map_Forall (fun _ p => fare_posted l p) (fare_payments d) /\
  map_Forall (fun i v => invoice_posted l i v) (invoices d).

Lemma posted_rows_later d d' l l' :
  posted_rows d l -> led_later l l' -> fare_payments d' = fare_payments d -> invoices d' = invoices d ->
  posted_rows d' l'.
Proof.
  intros [Hf Hi] [_ Hm] E1 E2. unfold posted_rows. rewrite E1, E2. split.
  - intros k p Hp Hst Hc. destruct (Hf k p Hp Hst Hc) as (key & ? & ?). eauto.
  - intros i v Hv Hst. apply Hm. by apply (Hi i v Hv).
Qed.

Definition books_ok w : Prop :=
  let d := w_db w in
  led_ok (w_led w) /\ payments_sound d /\ wallets_ok d /\ billing_ok d /\ accounts_ok d /\ catalogue_ok d /\
  posted_rows d (w_led w).

Lemma books_core w w' :
  books_ok w -> core_same (w_db w) (w_db w') -> led_later (w_led w) (w_led w') -> books_ok w'.
Proof.
  intros (_ & Hp & Hw & Hb & Ha & Hc & Hpost) (E1 & E2 & E3 & E4 & E5 & E6 & E7) Hl. unfold books_ok.
  split_and!; [by destruct Hl| | | | | |].
  - unfold payments_sound. by rewrite E1.
  - unfold wallets_ok. by rewrite E2.
  - by apply (billing_ok_same (w_db w)).
  - unfold accounts_ok. by rewrite E6.
  - unfold catalogue_ok. by rewrite E4, E5.
  - by eapply posted_rows_later.
Qed.

(** The wallet tables may grow by an allocation. *)
Lemma books_alloc rider w w' :
  books_ok w -> alloc_frame rider (w_db w) (w_db w') -> led_later (w_led w) (w_led w') -> books_ok w'.
Proof.
  intros Hbooks Hal Hl. destruct Hal as [E|[Hn E]].
  { apply (books_core w); [done| |done]. by rewrite E. }
  destruct Hbooks as (_ & Hp & Hw & Hb & Ha & Hc & Hpost). unfold books_ok. rewrite E.
  split_and!; [by destruct Hl|done| |done|done|done|].
  - eapply alloc_frame_wallets; [exact Hw|right; by split].
  - by eapply posted_rows_later.
Qed.

(** ** Every handler keeps the books *)

Lemma books_payment endpoint ctx key req w :
  request_typed req -> books_ok w -> books_ok (CreatePayment endpoint ctx key req w).2.
Proof.
  intros Hty Hbooks. pose proof Hbooks as (Hok & Hp & Hw & Hb & Ha & Hc & Hpost).
  set (w' := (CreatePayment endpoint ctx key req w).2).
  assert (led_later (w_led w) (w_led w')) as Hl.
  { destruct (create_payment_ledger endpoint ctx key req w Hty Hok) as [Hok' Hcase]. split; [done|]. fold w' in Hcase.
    intros i Hi. destruct Hcase as [[_ Hm]|(_ & account & charge & _ & _ & _ & Hm)]; rewrite Hm; [done|]. by case_decide. }
  pose proof (create_payment_side endpoint ctx key req w) as ((Ep & Ee & Eba & Ei) & Hadd & Hmade).
  fold w' in Ep, Ee, Eba, Ei, Hadd, Hmade.
  destruct (create_payment_spec endpoint ctx key req w) as [(E & _)|Hrun].
  { fold w' in E. apply (books_core w); [done| |done]. by rewrite E. }
  destruct Hrun as (who & amount & cur & ml & charge & rv & sp & Hv & Hpr & Hid & _ & Hrun).
  fold w' in Hrun. apply validate_payment_ok in Hv as (-> & _ & _ & _ & _ & Hi).
  pose proof (priced_i64 _ _ _ _ _ _ _ (Hi Hty) Hpr) as Hci.
  assert (exists d1, alloc_frame (Subject ctx) (w_db w) d1 /\ rider_accounts (w_db w') = rider_accounts d1) as (d1 & Al & Er).
  { destruct Hrun as (d1 & Al & _ & _ & Hend). exists d1. split; [done|].
    destruct Hend as [-> _ _|bid st tb mlx p _ -> _ _|bid st tb mlx p evs _ (?&?&?&->) _ _ _ _];
      [done|apply committed_accounts|cbn [rider_accounts]; apply committed_accounts]. }
  assert (wallets_ok (w_db w')) as Hw'.
  { pose proof (alloc_frame_wallets _ _ _ Hw Al). unfold wallets_ok. by rewrite Er. }
  assert (billing_ok (w_db w') /\ accounts_ok (w_db w') /\ catalogue_ok (w_db w')) as (Hb' & Ha' & Hc').
  { split_and!; [by eapply billing_ok_charge|unfold accounts_ok; by rewrite Eba|unfold catalogue_ok; by rewrite Ep, Ee]. }
  apply payment_ran_row in Hrun as [Ef|(st & tb & ml' & d2 & Ef & _ & Hearn)].
  - split_and!; [by destruct Hl|unfold payments_sound; by rewrite Ef|done..|by eapply posted_rows_later].
  - cbv zeta in Ef, Hearn. set (p := new_payment _ _ _ _ _ _ _ _ _ _) in *.
    assert (made_status st) as Hst.
    { destruct (Hmade (uuid_of (w_uuids w)) p) as [Hold|Hm]; [rewrite Ef; apply lookup_insert_eq|congruence|exact Hm]. }
    split_and!; [by destruct Hl| |done..|].
    + unfold payments_sound. rewrite Ef. apply map_Forall_insert_2; [|done]. split; [done|].
      destruct Hst as [Hs1 Hs2]. unfold payment_sound. change (effectiveCharged p) with charge.
      change (p_refunded p) with 0. split; [done|]. split_and!; done || lia.
    + destruct (posted_rows_later (w_db w) (w_db w) _ _ Hpost Hl eq_refl eq_refl) as [Hf Hi'].
      split; [|by rewrite Ei]. rewrite Ef. apply map_Forall_insert_2; [|done].
      intros Hps Hpos. exists key. split; [done|]. change (0 < charge) in Hpos.
      destruct Hps as [Hs|[Hs|Hs]]; simpl in Hs; [|by destruct Hst..].
      destruct (Hearn Hs) as [[? _]|(h & _ & account & _ & Hcp & Htr)]; [lia|].
      by destruct (posting_done _ _ _ _ _ _ _ _ Hok (charge_range _ Hcp Hci) Htr).
Qed.
End Books.

Section Handlers.
Context {L : Type} `{LedgerSpec L}.
Implicit Types w : World DB L.

Lemma books_refund id body w : books_ok w -> books_ok (RefundPayment id body w).2.
Proof.
  intros Hbooks. pose proof Hbooks as (Hok & Hp & Hw & Hb & Ha & Hc & Hpost).
  destruct (refund_spec id body w) as [[(E & El & _) _]|(req & p & amount & -> & Hrow & Hplan & Hran)].
  { apply (books_core w); [done|by rewrite E|]. rewrite El. by apply led_later_refl. }
  destruct (Hp id p Hrow) as [Hid Hps].
  destruct (refund_plan_amount p req amount Hps Hplan) as (Hamt & Hle & Hwrap & Hmax & _).
  destruct Hran as (d1 & Al & _ & Hled & Hend). rewrite Hwrap in Hled, Hend.
  set (w' := (RefundPayment id (Some req) w).2) in *.
  assert (led_later (w_led w) (w_led w')) as Hl.
  { destruct Hled as [->|(lr & account & _ & Hpos & Htr)]; [by apply led_later_refl|].
    by eapply led_later_transfer; [done| |exact Htr]. }
  destruct Hend as [[E _]|(Hf & _ & _)]; [apply (books_alloc (p_rider p) w); [done|by rewrite E|done]|].
  set (q := refunded_row p _ _) in *. set (wa := with_led (w_led w') (with_db d1 w)).
  assert (books_ok wa) as (_ & Hp1 & Hw1 & Hb1 & Ha1 & Hc1 & [Hf1 Hi1]) by by apply (books_alloc (p_rider p) w).
  apply (books_core (with_db (put_payment q d1) wa)); [|by apply core_same_loyalty|by apply led_later_refl; destruct Hl].
  split_and!; [by destruct Hl| |done..|].
  - apply map_Forall_insert_2; [|done]. split; [done|]. by apply refunded_row_sound.
  - split; [|done]. apply map_Forall_insert_2; [|done]. intros _ Hpos. apply (Hf1 id p).
    + change (fare_payments d1 !! id = Some p). by rewrite (alloc_frame_payments _ _ _ Al).
    + apply refund_plan_refundable in Hplan. unfold refundable in Hplan. apply orb_true_iff in Hplan.
      destruct Hplan as [Hs|Hs]; apply bool_decide_eq_true in Hs; unfold paid_status; auto.
    + done.
Qed.

Lemma books_topup ctx key req w : books_ok w -> books_ok (TopUpWallet ctx key req w).2.
Proof.
  intros Hbooks. pose proof Hbooks as (Hok & _).
  change (wp (TopUpWallet ctx key req) (fun _ w' => books_ok w') w). unfold TopUpWallet.
  destruct (negb _); [by apply wp_ret|]. cbv zeta. do 2 (case_decide; [by apply wp_ret|]).
  destruct req as [amount|]; [|by apply wp_ret]. destruct (_ || _) eqn:E; [by apply wp_ret|]. zbool.
  apply wp_bind. eapply wp_mono; [|apply riderAccount_spec]. intros r w1 (d & s & -> & Hal & _).
  assert (books_ok (with_db d (with_sched s w))) as Hb1.
  { apply (books_alloc (Subject ctx) w); [done|done|]. by apply led_later_refl. }
  destruct r as [account|e]; [|by apply wp_ret].
  assert (forall r l, led_Transfer (w_led w) (DeterministicTransferID (topup_key key)) RiderFundingAccount account
    (wrap_u64 amount) CodeFare = (r, l) -> forall s2, books_ok (with_led l (with_sched s2 (with_db d (with_sched s w))))) as Hpost.
  { intros r l Hl s2. apply (books_alloc (Subject ctx) w); [done|done|].
    eapply led_later_transfer; [done| |exact Hl]. unfold maxTopUpMinor, two63 in *. lia. }
  apply wp_bind, wp_led_call; intros s2.
  - intros [h|e] l Hl; apply wp_ret; by eapply Hpost.
  - intros r l Hl. apply wp_ret. by eapply Hpost.
  - by apply wp_ret.
Qed.

Lemma books_grant ctx req w : books_ok w -> books_ok (GrantEntitlement ctx req w).2.
Proof.
  intros Hbooks. pose proof Hbooks as (Hok & Hp & Hw & Hb & Ha & [Hc1 Hc2] & Hpost).
  destruct (grant_spec ctx req w) as (El & _ & [[E _]|(x & g & _ & _ & _ & Hwin & Hn & Hprod & E)]).
  { apply (books_core w); [done|by rewrite E|]. rewrite El. by apply led_later_refl. }
  unfold books_ok. rewrite El, E. split_and!; try done. split; [done|]. simpl.
  apply map_Forall_insert_2; [by split_and!|done].
Qed.

Lemma books_product req w : books_ok w -> books_ok (CreateFareProduct req w).2.
Proof.
  intros Hbooks. pose proof Hbooks as (Hok & Hp & Hw & Hb & Ha & Hc & Hpost).
  destruct (new_product_is_price_neutral req w "" 0 1 Hc) as [Hc' _].
  assert (wp (CreateFareProduct req) (fun _ w' => w_led w' = w_led w /\
    (w_db w' = w_db w \/ exists x, w_db w' = put_fare_product x (w_db w))) w) as Hspec.
  { unfold CreateFareProduct. destruct req as [r|]; [|apply wp_ret; auto]. case_decide; [apply wp_ret; auto|].
    destruct (refuse_product r); [apply wp_ret; auto|].
    apply wp_bind, wp_gets, wp_bind, wp_new_uuid, wp_bind, wp_db_exec; intros s; try (intros; apply wp_ret; by auto);
      intros x g Hg; unfold insert_fare_product in Hg; repeat case_match; simplify_eq; apply wp_ret; split; eauto. }
  destruct Hspec as [El [E|[x E]]].
  { apply (books_core w); [done|by rewrite E|]. rewrite El. by apply led_later_refl. }
  unfold books_ok. rewrite E in Hc' |- *. rewrite El. by split_and!.
Qed.

Lemma books_account ctx req w : books_ok w -> books_ok (CreateBillingAccount ctx req w).2.
Proof.
  intros Hbooks. pose proof Hbooks as (Hok & Hp & Hw & Hb & Ha & Hc & Hpost).
  pose proof (clearing_accounts_distinct ctx req w Ha) as Ha'.
  set (keeps := fun (d d' : DB) => exists m, d' = mkDB (fare_payments d) (rider_accounts d) (fare_products d)
    (rider_entitlements d) (loyalty_accounts d) (loyalty_ledger d) (marketplace_offers d) (loyalty_redemptions d)
    m (billing_charges d) (invoices d)).
  assert (forall d, keeps d d) as Hrefl by (intros []; by eexists).
  assert (wp (CreateBillingAccount ctx req) (fun _ w' => w_led w' = w_led w /\ keeps (w_db w) (w_db w')) w) as [El [m E]].
  { unfold CreateBillingAccount. destruct req as [r|]; [|by apply wp_ret]. case_decide; [by apply wp_ret|].
    destruct (negb _); [by apply wp_ret|]. apply wp_bind.
    eapply (wp_mono _ (fun _ w' => w_led w' = w_led w /\ keeps (w_db w) (w_db w'))).
    - intros [a|e] w' Hw'; [|by apply wp_ret]. apply wp_bind, wp_gets, wp_bind, wp_publish; intros; by apply wp_ret.
    - clear - Hrefl. generalize (ErrMsg "") as e. generalize 3%nat as n.
      intros n. revert w. induction n as [|n IH]; intros w e; [by apply wp_ret|]. cbn [create_account_loop].
      apply wp_bind, wp_gets, wp_bind, wp_new_uuid, wp_bind, wp_db_exec; intros s.
      + intros a g Hg. unfold insert_billing_account in Hg. repeat case_match; simplify_eq. apply wp_ret. split; [done|by eexists].
      + intros a g Hg. unfold insert_billing_account in Hg. repeat case_match; simplify_eq. apply wp_ret. split; [done|by eexists].
      + intros e' _. destruct e'; try by apply wp_ret. case_decide; [|by apply wp_ret]. eapply wp_mono; [|apply IH]. by intros.
      + by apply wp_ret. }
  unfold books_ok. rewrite E in Ha' |- *. rewrite El. by split_and!.
Qed.

Lemma books_generate account req w : books_ok w -> books_ok (GenerateInvoice account req w).2.
Proof.
  intros Hbooks. pose proof Hbooks as (Hok & Hp & Hw & Hb & Ha & Hc & [Hf Hi]).
  destruct (generate_spec account req w) as (El & _ & [[E _]|(from & to & v & g & Hins & E)]).
  { apply (books_core w); [done|by rewrite E|]. rewrite El. by apply led_later_refl. }
  destruct (billing_ok_sweep _ _ _ _ _ _ _ _ Hb Hins) as (Hb' & Hid & _ & _ & -> & _ & _).
  unfold books_ok. rewrite El, E. split_and!; try done. split; [done|]. simpl.
  apply map_Forall_insert_2; [|done]. unfold insert_invoice in Hins. cbv zeta in Hins.
  repeat case_match; simplify_eq. done.
Qed.

Lemma books_pay id w : books_ok w -> books_ok (PayInvoice id w).2.
Proof.
  intros Hbooks. pose proof Hbooks as (Hok & Hp & Hw & Hb & Ha & Hc & [Hf Hi]).
  assert (forall v, invoices (w_db w) !! id = Some v -> iv_id v = id) as Hkey.
  { intros v Hv. destruct Hb as [_ Hinv]. by destruct (Hinv id v Hv). }
  destruct (pay_spec id w Hkey) as [_ [(E & El & _)|(v & a & lr & Hv & _ & _ & Htr & Hend)]].
  { apply (books_core w); [done|by rewrite E|]. rewrite El. by apply led_later_refl. }
  assert (0 < iv_amount v < two63) as Hamt by (destruct Hb as [_ Hinv]; by destruct (Hinv id v Hv) as (_ & ? & _)).
  pose proof (led_later_transfer _ _ _ _ _ _ _ _ Hok Hamt Htr) as Hl. pose proof (Hkey v Hv) as Hid.
  destruct Hend as [[E _]|(h & -> & E & _)]; [apply (books_core w); [done|by rewrite E|done]|].
  destruct (posted_rows_later (w_db w) (w_db w) _ _ (conj Hf Hi) Hl eq_refl eq_refl) as [Hf' Hi'].
  unfold books_ok. rewrite E. split_and!; try done; [by destruct Hl|apply billing_ok_settled; [done|by rewrite Hid]|].
  split; [done|]. simpl. rewrite Hid. apply map_Forall_insert_2; [|done]. intros _.
  destruct (posting_done _ _ _ _ _ _ _ _ Hok Hamt Htr) as [Hdone _]. by rewrite Hid in Hdone.
Qed.

Lemma books_loyalty c w : books_ok w -> books_ok (run_call c w).2.
Proof.
  intros Hbooks. pose proof Hbooks as (Hok & _).
  assert (forall {A} (m : M DB L A), wp m (fun _ w' => w_led w' = w_led w /\ core_same (w_db w) (w_db w')) w ->
    books_ok (gbind m (fun _ => gret tt) w).2) as Hkeep.
  { intros A m Hm. change (wp (gbind m (fun _ => gret tt)) (fun _ w' => books_ok w') w). apply wp_bind.
    eapply wp_mono; [|exact Hm]. intros a w' [El Hs]. apply wp_ret. apply (books_core w); [done|done|].
    rewrite El. by apply led_later_refl. }
  destruct c as [ctx|p r a|p r a|ctx req h|req]; cbn [run_call]; apply Hkeep.
  - unfold GetLoyaltyBalance. case_decide; [by apply wp_ret|].
    apply wp_bind, wp_gets, wp_bind, wp_db_exec; intros s; try (intros; by apply wp_ret);
      intros b g Hg; unfold ensure_loyalty_account in Hg; repeat case_match; simplify_eq; by apply wp_ret.
  - eapply wp_mono; [|apply accrue_spec]. intros x w' (d & s & n & -> & Hf). split; [done|by apply core_same_loyalty].
  - eapply wp_mono; [|apply clawback_spec]. intros x w' (d & s & n & -> & Hf). split; [done|by apply core_same_loyalty].
  - unfold RedeemOffer. case_decide; [by apply wp_ret|]. destruct req as [offer|]; [|by apply wp_ret].
    destruct offer as [|c offer]; [by apply wp_ret|]. eapply wp_mono; [|apply redeem_spec].
    intros x w' (El & _ & _ & [E|Hred]); (split; [done|]); [by rewrite E|].
    destruct Hred as (cost & rid & eid & _ & _ & _ & _ & d0 & Hd0 & Hend).
    assert (core_same (w_db w) d0) as Hs by by destruct Hd0 as [->|[_ ->]].
    destruct Hend as [[_ ->]|(_ & _ & ->)]; exact Hs.
  - unfold CreateOffer. destruct req as [r|]; [|by apply wp_ret]. destruct (_ || _); [by apply wp_ret|].
    apply wp_bind, wp_gets, wp_bind, wp_new_uuid, wp_bind, wp_db_exec; intros s; try (intros; by apply wp_ret);
      intros o g Hg; unfold insert_offer in Hg; repeat case_match; simplify_eq; by apply wp_ret.
Qed.

(** ** The service as a transition system *)

(** One request, or the environment between two requests. *)
Inductive commerce_step : World DB L -> World DB L -> Prop :=
| Step_payment endpoint ctx key req w :
    request_typed req -> commerce_step w (CreatePayment endpoint ctx key req w).2
| Step_refund id body w : commerce_step w (RefundPayment id body w).2
| Step_topup ctx key req w : commerce_step w (TopUpWallet ctx key req w).2
| Step_product req w : commerce_step w (CreateFareProduct req w).2
| Step_grant ctx req w : commerce_step w (GrantEntitlement ctx req w).2
| Step_account ctx req w : commerce_step w (CreateBillingAccount ctx req w).2
| Step_invoice account req w : commerce_step w (GenerateInvoice account req w).2
| Step_pay id w : commerce_step w (PayInvoice id w).2
| Step_loyalty c w : commerce_step w (run_call c w).2
| Step_environment now sched http w :
    w_now w <= now -> commerce_step w (with_now now (with_sched sched (with_http http w))).

(** C4: the books are sound in every reachable state of the commerce service:
    whatever requests arrive in whatever order, with any faults, clock and
    switch replies, no payment records more refunds than its charge, no two
    riders share a wallet and no two corporate accounts a clearing account,
    every invoice equals its lines, entitlements refer to products, the ledger
    is consistent, and the transfer of every settled fare and of every paid
    invoice is posted on it. *)
Theorem reachable_books_sound (w w' : World DB L)
    (Hreach : rtc commerce_step w w') (Hstart : books_ok w) : books_ok w'.
Proof.
  induction Hreach as [w|w1 w2 w3 Hstep _ IH]; [done|]. apply IH. destruct Hstep.
  - by apply books_payment.
  - by apply books_refund.
  - by apply books_topup.
  - by apply books_product.
  - by apply books_grant.
  - by apply books_account.
  - by apply books_generate.
  - by apply books_pay.
  - by apply books_loyalty.
  - exact Hstart.
Qed.
End Handlers.

(** ** A concrete history *)

#[local] Existing Instance topup_runtime.

(** An empty service whose funding account holds 5000. *)
Definition opening : World DB simulated := mkWorld empty_db funding_led [] 1000 0 [] [] [].

(** Alice tops up 500 and pays 300; the first attempt is cut off after the
    debit and rolled back, the retry settles on the same posting; then 100 are
    refunded. *)
Definition topped : World DB simulated := (TopUpWallet alice "k0" (Some 500) opening).2.
Definition shaken : World DB simulated :=
  with_now 2000 (with_sched [Done; Done; Done; Done; Done; Done; Done; Done; LostReply] (with_http [] topped)).
Definition fare_300 : option createPaymentRequest := Some (mkCreatePayment 300 "EUR" "" false).
Definition paid : World DB simulated := (CreatePayment "" alice "k1" fare_300 shaken).2.
Definition retried : World DB simulated := (CreatePayment "" alice "k1" fare_300 paid).2.
Definition refunded : World DB simulated := (RefundPayment "uuid-1" (Some (Some 100)) retried).2.

Lemma opening_books : books_ok opening.
Proof.
  unfold books_ok. split; [exact funding_led_ok|]. simpl. split; [apply map_Forall_empty|].
  split; [intros sub a Hs; simpl in Hs; by rewrite lookup_empty in Hs|]. split; [split; apply map_Forall_empty|].
  split; [intros k a Hk; simpl in Hk; by rewrite lookup_empty in Hk|]. split; split; apply map_Forall_empty.
Qed.

Lemma reachable_books_sound_witness :
  books_ok refunded /\ map p_status (rows (fare_payments (w_db refunded))) = ["partially_refunded"%string] /\
  sim_balance (w_led refunded) 1001 = 300.
Proof.
  split; [|vm_compute; split; reflexivity].
  apply (reachable_books_sound opening refunded); [|exact opening_books].
  apply (rtc_l _ _ topped); [apply Step_topup|].
  apply (rtc_l _ _ shaken); [apply (Step_environment 2000 _ [] topped); vm_compute; congruence|].
  apply (rtc_l _ _ paid); [apply Step_payment; unfold request_typed, i64, two63; simpl; lia|].
  apply (rtc_l _ _ retried); [apply Step_payment; unfold request_typed, i64, two63; simpl; lia|].
  apply (rtc_l _ _ refunded); [apply Step_refund|]. apply rtc_refl.
Defined.
