(* ===== verification/AuditLog.v ===== *)
(** * The audit log

    Models services/go/audit-log: the hash-chained, append-only table of
    internal/store/store.go with its verifier, the sliding-window detector of
    internal/anomaly/anomaly.go, and the three handlers of
    internal/handlers/handlers.go.

    The table is its list of rows in id order.  Times are in nanoseconds, as
    Go has them; a timestamptz column keeps microseconds.  The canonical text
    of a jsonb value is PostgreSQL's, the parameter [Jsonb]; role lists survive
    the round trip through their jsonb column. *)

From Stdlib Require Import Ascii String Sorted.
From S2P Require Import Prelude Codec World.

Open Scope Z_scope.
Open Scope go_scope.

(** ** Rows and the chain hash *)

Record Entry : Type := mkEntry {
  en_num : Z; en_actor : string; en_roles : list string; en_action : string; en_entity : string;
  en_entity_id : string; en_before : option string; en_after : option string; en_ip : string; en_ua : string;
  en_ts : Z; en_prev : string; en_hash : string
}.

(** The fraction of [time.RFC3339Nano]: trailing zeros are dropped. *)
Fixpoint trimmed (n : nat) (v : Z) : string :=
  match n with
  | O => ""
  | S n' => if v mod 10 =? 0 then trimmed n' (v / 10) else digits n v
  end.

(** [t.UTC().Format(time.RFC3339Nano)], years 0 to 9999. *)
Definition rfc3339nano (t : Z) : string :=
  let secs := t / 1000000000 in
  let ns := t mod 1000000000 in
  let '(y, m, d) := civil_from_days (secs / 86400) in
  let sod := secs mod 86400 in
  digits 4 y +:+ "-" +:+ digits 2 m +:+ "-" +:+ digits 2 d +:+ "T" +:+ digits 2 (sod / 3600) +:+ ":"
    +:+ digits 2 (sod / 60 mod 60) +:+ ":" +:+ digits 2 (sod mod 60)
    +:+ (if ns =? 0 then "" else "." +:+ trimmed 9 ns) +:+ "Z".

Fixpoint join_comma (l : list string) : string :=
  match l with
  | [] => ""
  | [s] => s
  | s :: l' => s +:+ "," +:+ join_comma l'
  end.

Definition rawText (r : option string) : string := default "" r.

(** The hashed fields of an entry, in order. *)
Definition fields (prevHash : string) (e : Entry) : list string :=
  [prevHash; en_actor e; join_comma (en_roles e); en_action e; en_entity e; en_entity_id e;
   rawText (en_before e); rawText (en_after e); en_ip e; en_ua e; rfc3339nano (en_ts e)].

(** [writeField]: the decimal length, a colon, the field. *)
Definition writeField (s : string) : string := pretty (N.of_nat (String.length s)) +:+ ":" +:+ s.

Definition encode (l : list string) : string := foldr (fun s r => writeField s +:+ r) "" l.

Definition ChainHash (prevHash : string) (e : Entry) : string :=
  hex_encode (Sha256.Sum256 (string_bytes (encode (fields prevHash e)))).

#[global] Arguments ChainHash : simpl never.

(** ** State *)

(** [seen] and [alerted] of the detector, in memory. *)
Record Audit : Type := mkAudit {
  audit_log : list Entry;
  seen : gmap string (list Z);
  alerted : gmap string Z
}.

(** PostgreSQL's [$1::jsonb::text]. *)
Class Jsonb : Type := { jsonb_text : string -> result string }.

(** A timestamptz column keeps microseconds. *)
Definition stored_ts (t : Z) : Z := t / 1000 * 1000.

(** The zero [time.Time], 0001-01-01. *)
Definition zero_time : Z := -62135596800000000000.

Definition with_chain (e : Entry) (before after : option string) (prev hash : string) : Entry :=
  mkEntry (en_num e) (en_actor e) (en_roles e) (en_action e) (en_entity e) (en_entity_id e) before after
    (en_ip e) (en_ua e) (en_ts e) prev hash.

Definition with_ts (e : Entry) (t : Z) : Entry :=
  mkEntry (en_num e) (en_actor e) (en_roles e) (en_action e) (en_entity e) (en_entity_id e) (en_before e)
    (en_after e) (en_ip e) (en_ua e) t (en_prev e) (en_hash e).

Definition with_num (e : Entry) (n : Z) : Entry :=
  mkEntry n (en_actor e) (en_roles e) (en_action e) (en_entity e) (en_entity_id e) (en_before e)
    (en_after e) (en_ip e) (en_ua e) (en_ts e) (en_prev e) (en_hash e).

(** [SELECT hash ... ORDER BY id DESC LIMIT 1], empty for an empty table. *)
Definition last_hash (l : list Entry) : string := foldl (fun _ e => en_hash e) "" l.

Section Store.
Context `{Jsonb}.
Abbreviation AM := (M Audit unit).

(** [nextval] of the id sequence, which a rollback does not give back. *)
Definition nextval : AM Z := fun w => (Z.of_nat (w_uuids w) + 1, with_uuids (w_uuids w + 1)%nat w).

(** A change of the process's own memory. *)
Definition modify (f : Audit -> Audit) : AM unit := fun w => (tt, with_db (f (w_db w)) w).

(** [$6::jsonb] of an optional text, as the column later prints it. *)
Definition to_jsonb (o : option string) : result (option string) :=
  match o with
  | None => Ok None
  | Some s => match jsonb_text s with Ok t => Ok (Some t) | Err e => Err e end
  end.

(** [INSERT INTO platform.audit_log ... RETURNING id]: the hash is unique. *)
Definition insert_entry (e : Entry) (d : Audit) : result (unit * (Audit -> Audit)) :=
  match to_jsonb (en_before e), to_jsonb (en_after e) with
  | Ok b, Ok a =>
      if decide (en_hash e ∈ map en_hash (audit_log d)) then Err (PgError unique_violation)
      else
        let row := with_ts (with_chain e b a (en_prev e) (en_hash e)) (stored_ts (en_ts e)) in
        Ok (tt, fun d => mkAudit (audit_log d ++ [row]) (seen d) (alerted d))
  | Err x, _ => Err x
  | _, Err x => Err x
  end.

(** The normalisation of before or after through the database. *)
Definition normalize (tx : Tx Audit) (o : option string) (msg : string) : AM (result (option string)) :=
  match o with
  | None => gret (Ok None)
  | Some s => try! t := tx_query tx (fun _ => jsonb_text s) catch e => gret (Err (ErrMsg msg)) in
              gret (Ok (Some t))
  end.

Definition Append (e : Entry) : AM (result Entry) :=
  let! now := gets w_now in
  let e := if en_ts e =? zero_time then with_ts e now else e in
  try! tx := begin catch e => gret (Err e) in
  (* SELECT pg_advisory_xact_lock($1) *)
  try! _ := tx_query tx (fun _ => Ok tt) catch e => gret (Err (ErrMsg "chain lock")) in
  try! prevHash := tx_query tx (fun d => Ok (last_hash (audit_log d)))
    catch e => gret (Err (ErrMsg "read chain head")) in
  try! b := normalize tx (en_before e) "invalid before JSON" catch e => gret (Err e) in
  try! a := normalize tx (en_after e) "invalid after JSON" catch e => gret (Err e) in
  let e := with_chain e b a prevHash (en_hash e) in
  let e := with_chain e b a prevHash (ChainHash prevHash e) in
  let! id := nextval in
  let e := with_num e id in
  try! (_, tx) := tx_exec tx (insert_entry e) catch e => gret (Err (ErrMsg "insert audit entry")) in
  try! _ := commit tx catch e => gret (Err e) in
  gret (Ok e).

(** The walk of [Verify]: the first offending id (0 for none) and the rows checked. *)
Fixpoint verify_rows (prevHash : string) (rows : list Entry) (checked : Z) : Z * Z :=
  match rows with
  | [] => (0, checked)
  | e :: rows' =>
      if negb (bool_decide (en_prev e = prevHash)) then (en_num e, checked + 1)
      else if negb (bool_decide (ChainHash prevHash e = en_hash e)) then (en_num e, checked + 1)
      else verify_rows (en_hash e) rows' (checked + 1)
  end.

Definition Verify : AM (result (Z * Z)) :=
  db_query (fun d => Ok (verify_rows "" (audit_log d) 0)).

Record ListFilter : Type := mkListFilter {
  lf_actor : string; lf_entity : string; lf_from : Z; lf_limit : Z
}.

(** [WHERE ... ORDER BY id DESC LIMIT n]. *)
Definition list_entries (f : ListFilter) : AM (result (list Entry)) :=
  let limit := if (lf_limit f <=? 0) || (1000 <? lf_limit f) then 100 else lf_limit f in
  db_query (fun d => Ok (take (Z.to_nat limit) (rev (filter (fun e =>
    (lf_actor f = "" \/ en_actor e = lf_actor f) /\ (lf_entity f = "" \/ en_entity e = lf_entity f) /\
    (lf_from f = zero_time \/ lf_from f <= en_ts e)) (audit_log d))))).

(** ** The detector *)

Record Detector : Type := mkDetector { dt_threshold : Z; dt_window : Z; dt_amURL : string }.

(** Five minutes. *)
Definition cooldown : Z := 300000000000.

(** [Observe]: the new state, and whether the alert fires. *)
Definition observe_step (dt : Detector) (actor : string) (now : Z) (d : Audit) : bool * Audit :=
  if decide (actor = "") then (false, d)
  else
    let kept := filter (fun t => now - dt_window dt < t) (default [] (seen d !! actor)) ++ [now] in
    let seen' := <[actor := kept]> (seen d) in
    let onCooldown := match alerted d !! actor with Some t => now - t <? cooldown | None => false end in
    if (Z.of_nat (length kept) <=? dt_threshold dt) || onCooldown
    then (false, mkAudit (audit_log d) seen' (alerted d))
    else (true, mkAudit (audit_log d) seen' (<[actor := now]> (alerted d))).

(** The best-effort notification; its outcome is only logged. *)
Definition fireAlertmanager (dt : Detector) (actor : string) : AM unit :=
  if decide (dt_amURL dt = "") then gret tt
  else
    let! now := gets w_now in
    let! _ := http_do (mkHttpRequest "POST" (dt_amURL dt +:+ "/api/v1/alerts")
      (JList [JObj [("labels", JObj [("alertname", JStr "H2FleetAuditAnomaly"); ("severity", JStr "warning");
                                     ("service", JStr "audit-log"); ("actor", JStr actor)]);
                    ("annotations", JObj [("summary", JStr "Insider-threat anomaly: actor exceeded sensitive-action rate")]);
                    ("startsAt", JTime now)]])) in
    gret tt.

Definition Observe (dt : Detector) (actor : string) : AM unit :=
  let! now := gets w_now in
  let! fires := gets (fun w => (observe_step dt actor now (w_db w)).1) in
  do! modify (fun d => (observe_step dt actor now d).2) in
  if fires then fireAlertmanager dt actor else gret tt.

(** ** Handlers *)

Record ingestRequest : Type := mkIngest {
  ig_actor : string; ig_roles : list string; ig_action : string; ig_entity : string; ig_entity_id : string;
  ig_before : option string; ig_after : option string; ig_ip : string; ig_ua : string; ig_ts : option Z
}.

Definition jopt_raw (k : string) (o : option string) : list (string * json) :=
  match o with Some s => [(k, JStr s)] | None => [] end.

Definition jnonempty (k s : string) : list (string * json) := if decide (s = "") then [] else [(k, JStr s)].

Definition entry_json (e : Entry) : json :=
  JObj ([("id", JInt (en_num e)); ("actor_sub", JStr (en_actor e)); ("actor_roles", JList (map JStr (en_roles e)));
         ("action", JStr (en_action e)); ("entity", JStr (en_entity e))]
    ++ jnonempty "entity_id" (en_entity_id e) ++ jopt_raw "before" (en_before e) ++ jopt_raw "after" (en_after e)
    ++ jnonempty "ip" (en_ip e) ++ jnonempty "ua" (en_ua e)
    ++ [("ts", JTime (en_ts e)); ("prev_hash", JStr (en_prev e)); ("hash", JStr (en_hash e))]).

Definition Ingest (dt : Detector) (req : option ingestRequest) : AM response :=
  match req with
  | None => reply_error 400 "invalid JSON body"
  | Some r =>
      if decide (ig_actor r = "" \/ ig_action r = "" \/ ig_entity r = "")
      then reply_error 400 "actor_sub, action and entity are required"
      else
        try! e := Append (mkEntry 0 (ig_actor r) (ig_roles r) (ig_action r) (ig_entity r) (ig_entity_id r)
                            (ig_before r) (ig_after r) (ig_ip r) (ig_ua r) (default zero_time (ig_ts r)) "" "")
          catch e => internal "append audit entry" e in
        do! Observe dt (en_actor e) in
        reply 201 (entry_json e)
  end.

(** [GET /v1/audit]; the query values [from] and [limit] are absent, malformed
    ([Some None]) or parsed. *)
Definition ListEntries (actor entity : string) (from limit : option (option Z)) : AM response :=
  match from, limit with
  | Some None, _ => reply_error 400 "from must be RFC3339 (e.g. 2025-01-02T03:04:05Z)"
  | _, Some None => reply_error 400 "limit must be an integer"
  | _, _ =>
      try! es := list_entries (mkListFilter actor entity (default zero_time (mjoin from)) (default 0 (mjoin limit)))
        catch e => internal "list audit entries" e in
      reply 200 (JObj [("entries", JList (map entry_json es)); ("count", JInt (Z.of_nat (length es)))])
  end.

(** The shared ingest tokens, a comma-separated list. *)
Definition accepted_tokens (ingestToken : string) : list string :=
  filter (fun tok => tok <> "") (map TrimSpace (Split ingestToken ",")).

(** A request with an accepted X-Audit-Token runs; any other goes to the JWT guard. *)
Definition RequireIngestAuth {D S} (ingestToken got : string) (next jwtWrapped : M D S response) : M D S response :=
  if decide (got ∈ accepted_tokens ingestToken) then next else jwtWrapped.

(** [GET /v1/audit/verify]. *)
Definition VerifyChain : AM response :=
  try! (bad, checked) := Verify catch e => internal "verify audit chain" e in
  let! now := gets w_now in
  reply (if bad =? 0 then 200 else 409)
    (JObj [("ok", JBool (bad =? 0)); ("checked", JInt checked); ("first_bad_id", JInt bad); ("checked_at", JTime now)]).
End Store.

(** ** The encoding is unambiguous *)

Fixpoint colonless (s : string) : Prop :=
  match s with
  | EmptyString => True
  | String c s' => c <> ":"%char /\ colonless s'
  end.

Lemma pretty_colonless (n : N) : colonless (pretty n).
Proof.
  assert (forall x s, colonless s -> colonless (pretty_N_go x s)) as Hgo.
  { intros x. induction (N.lt_wf_0 x) as [x _ IH]. intros s Hs.
    assert (x = 0 \/ 0 < x)%N as [->|Hx] by lia; [by rewrite pretty_N_go_0|].
    rewrite pretty_N_go_step by done. apply IH; [by apply N.div_lt|].
    split; [|done]. unfold pretty_N_char. by repeat case_match. }
  unfold pretty, pretty_N. case_decide; [by split|]. by apply Hgo.
Qed.

Lemma append_assoc (a b c : string) : (a +:+ b) +:+ c = a +:+ (b +:+ c).
Proof. induction a as [|x a IH]; [done|]. exact (f_equal (String x) IH). Qed.

Lemma colon_split a b x y :
  colonless a -> colonless b -> a +:+ String ":" x = b +:+ String ":" y -> a = b /\ x = y.
Proof.
  revert b. induction a as [|c a IH]; intros [|c' b] Ha Hb He; simpl in *.
  - by injection He as ->.
  - injection He as <- _. by destruct Hb.
  - injection He as -> _. by destruct Ha.
  - injection He as -> He. destruct Ha, Hb. by destruct (IH b) as [-> ->].
Qed.

Lemma length_split (a b x y : string) :
  String.length a = String.length b -> a +:+ x = b +:+ y -> a = b /\ x = y.
Proof.
  revert b. induction a as [|c a IH]; intros [|c' b] Hl He; simpl in *; try done.
  injection He as -> He. injection Hl as Hl. by destruct (IH b Hl He) as [-> ->].
Qed.

Lemma writeField_inj s s' r r' : writeField s +:+ r = writeField s' +:+ r' -> s = s' /\ r = r'.
Proof.
  unfold writeField. rewrite !append_assoc. intros He. simpl in He.
  apply colon_split in He as [Hn He]; [|apply pretty_colonless..].
  apply (inj pretty) in Hn. apply length_split in He; [done|lia].
Qed.

Lemma encode_inj l l' : length l = length l' -> encode l = encode l' -> l = l'.
Proof.
  revert l'. induction l as [|s l IH]; intros [|s' l'] Hl He; try done.
  cbn [encode foldr] in He. apply writeField_inj in He as [-> He]. injection Hl as Hl. f_equal. by apply IH.
Qed.

(** What the hash of an entry covers, besides its predecessor. *)
Definition content (e : Entry) : list string :=
  [en_actor e; join_comma (en_roles e); en_action e; en_entity e; en_entity_id e;
   rawText (en_before e); rawText (en_after e); en_ip e; en_ua e; rfc3339nano (en_ts e)].

(** The text that was hashed for an entry. *)
Definition hashed_text (e : Entry) : string := encode (fields (en_prev e) e).

(** Two recorded entries, one of each chain, that were hashed from different
    texts to one digest.  A collision of SHA-256 exists for want of room; that
    one stands in these two tables is another matter. *)
Definition collide (l l' : list Entry) : Prop :=
  exists e e', e ∈ l /\ e' ∈ l' /\ hashed_text e <> hashed_text e' /\
    Sha256.Sum256 (string_bytes (hashed_text e)) = Sha256.Sum256 (string_bytes (hashed_text e')).

Lemma collide_app l k l' k' : collide l l' -> collide (l ++ k) (l' ++ k').
Proof. intros (e & e' & He & He' & Hc). exists e, e'. by rewrite !elem_of_app; auto. Qed.

Lemma ChainHash_binds e e' : ChainHash (en_prev e) e = ChainHash (en_prev e') e' ->
  (en_prev e = en_prev e' /\ content e = content e') \/ collide [e] [e'].
Proof.
  unfold ChainHash. intros He. apply hex_encode_inj in He; [|apply Sum256_bytes..].
  destruct (decide (hashed_text e = hashed_text e')) as [Heq|Hne].
  - left. apply encode_inj in Heq; [|done].
    split; [exact (f_equal (fun l => default "" (head l)) Heq)|exact (f_equal tail Heq)].
  - right. exists e, e'. by rewrite !list_elem_of_singleton.
Qed.

Lemma ChainHash_nonempty p e : ChainHash p e <> "".
Proof.
  unfold ChainHash. intros He. pose proof (Sum256_length (string_bytes (encode (fields p e)))) as Hl.
  destruct (Sha256.Sum256 _); [done|]. by unfold hex_encode in He.
Qed.

(** ** Chains *)

Fixpoint chain_ok (prev : string) (l : list Entry) : Prop :=
  match l with
  | [] => True
  | e :: l' => en_prev e = prev /\ ChainHash prev e = en_hash e /\ chain_ok (en_hash e) l'
  end.

Lemma verify_rows_ok prev l n :
  Forall (fun e => en_num e <> 0) l -> (verify_rows prev l n).1 = 0 -> chain_ok prev l.
Proof.
  revert prev n. induction l as [|e l IH]; intros prev n Hid Hv; [done|].
  apply Forall_cons_1 in Hid as [He Hid]. simpl in *.
  destruct (bool_decide (en_prev e = prev)) eqn:E1; simpl in Hv; [|done].
  destruct (bool_decide (ChainHash prev e = en_hash e)) eqn:E2; simpl in Hv; [|done].
  apply bool_decide_eq_true in E1, E2. split_and!; [done|done|]. by eapply IH.
Qed.

Lemma chain_verifies prev l n : chain_ok prev l -> verify_rows prev l n = (0, n + Z.of_nat (length l)).
Proof.
  revert prev n. induction l as [|e l IH]; intros prev n Hc; simpl; [f_equal; lia|].
  destruct Hc as (H1 & H2 & H3). rewrite !bool_decide_true by done. simpl. rewrite IH by done. f_equal. lia.
Qed.

Lemma chain_ok_snoc prev l e :
  chain_ok prev (l ++ [e]) <-> chain_ok prev l /\
    let h := foldl (fun _ x => en_hash x) prev l in en_prev e = h /\ ChainHash h e = en_hash e.
Proof.
  revert prev. induction l as [|x l IH]; intros prev; simpl; [tauto|]. rewrite IH. simpl. tauto.
Qed.

Lemma chains_agree l l' :
  chain_ok "" l -> chain_ok "" l' -> last_hash l = last_hash l' ->
  map content l = map content l' \/ collide l l'.
Proof.
  revert l'. induction l as [|e l IH] using rev_ind; intros l' Hl Hl' He;
    (destruct l' as [|e' l' _] using rev_ind; [|]); unfold last_hash in He; rewrite ?foldl_snoc in He.
  - by left.
  - apply chain_ok_snoc in Hl' as [_ [_ Hh]]. simpl in He. rewrite <- He in Hh. by destruct (ChainHash_nonempty _ _ Hh).
  - apply chain_ok_snoc in Hl as [_ [_ Hh]]. simpl in He. rewrite He in Hh. by destruct (ChainHash_nonempty _ _ Hh).
  - apply chain_ok_snoc in Hl as [Hl [Ep Hh]], Hl' as [Hl' [Ep' Hh']]. simpl in Ep, Ep', Hh, Hh'.
    rewrite He, <- Hh', <- Ep, <- Ep' in Hh.
    apply ChainHash_binds in Hh as [[Hp Hc]|(x & x' & Hx & Hx' & Hc)]; [|right; exists x, x'; by rewrite !elem_of_app; auto].
    rewrite Ep, Ep' in Hp. destruct (IH l' Hl Hl' Hp) as [Hm|?]; [left|right; by apply collide_app]. by rewrite !map_app, Hm, <- (app_nil_r (map content l')); simpl; rewrite Hc.
Qed.

(** ** Theorems *)

(** C7: the last hash commits to the whole trail: two tables that the verifier
    accepts and that end in the same hash hold the same history, entry by entry
    (actor, roles as joined, action, entity, id, before, after, address, agent
    and time), unless a row of the one and a row of the other were hashed from
    different texts to the same SHA-256 digest.  No edit, insertion, deletion
    or reordering goes unnoticed by who has kept the last hash, save one that
    exhibits such a collision in the two tables themselves. *)
Theorem head_commits_to_history (d d' : Audit)
    (Hids : Forall (fun e => en_num e <> 0) (audit_log d)) (Hids' : Forall (fun e => en_num e <> 0) (audit_log d'))
    (Hok : (verify_rows "" (audit_log d) 0).1 = 0) (Hok' : (verify_rows "" (audit_log d') 0).1 = 0)
    (Hhead : last_hash (audit_log d) = last_hash (audit_log d')) :
  map content (audit_log d) = map content (audit_log d') \/ collide (audit_log d) (audit_log d').
Proof. apply chains_agree; [by eapply verify_rows_ok|by eapply verify_rows_ok|done]. Qed.

(** The canonical text of a jsonb value is the text of itself. *)
Class JsonbLaws `{Jsonb} : Prop := {
  jsonb_canonical s t : jsonb_text s = Ok t -> jsonb_text t = Ok t
}.

(** Whole microseconds, what a timestamptz column can hold. *)
Definition storable (t : Z) : Prop := t mod 1000 = 0.

Lemma stored_ts_id t : storable t -> stored_ts t = t.
Proof. unfold storable, stored_ts. intros Ht. rewrite (Z.div_mod t 1000) at 2 by lia. lia. Qed.

Section Honest.
Context `{JsonbLaws}.
Implicit Types w : World Audit unit.

Definition entry_time w (t : Z) : Z := if t =? zero_time then w_now w else t.

(** The row an append adds: the entry as hashed. *)
Definition appended (l : list Entry) (row : Entry) : Prop :=
  en_prev row = last_hash l /\ ChainHash (last_hash l) row = en_hash row.

Definition same_request (e row : Entry) (now : Z) : Prop :=
  en_actor row = en_actor e /\ en_roles row = en_roles e /\ en_action row = en_action e /\
  en_entity row = en_entity e /\ en_entity_id row = en_entity_id e /\ en_ip row = en_ip e /\ en_ua row = en_ua e /\
  en_ts row = (if en_ts e =? zero_time then now else en_ts e).

Lemma normalize_spec tx o msg w :
  wp (normalize tx o msg) (fun r w' => (exists s, w' = with_sched s w) /\
    forall b, r = Ok b -> to_jsonb o = Ok b /\ to_jsonb b = Ok b) w.
Proof using All.
  unfold normalize. destruct o as [s|].
  2: { apply wp_ret. split; [by exists (w_sched w); destruct w|]. intros b Hb. by simplify_eq. }
  apply wp_bind, wp_tx_query; intros s1; [|apply wp_ret; split; [by exists s1|done]].
  destruct (jsonb_text s) as [t|e] eqn:E; apply wp_ret; (split; [by exists s1|]); [|done].
  intros b Hb. simplify_eq. simpl. by rewrite E, (jsonb_canonical s t E).
Qed.

(** The entry an append hashes, and the row it stores: the texts of before and
    after are the database's, the time is what the column keeps. *)
Definition hashed w (e : Entry) (b a : option string) (n : Z) : Entry :=
  let e1 := if en_ts e =? zero_time then with_ts e (w_now w) else e in
  let prev := last_hash (audit_log (w_db w)) in
  let e2 := with_chain e1 b a prev (en_hash e1) in
  with_num (with_chain e2 b a prev (ChainHash prev e2)) n.

Definition as_stored (e : Entry) : Entry := with_ts e (stored_ts (en_ts e)).

(** [Append] for every fault: the table as it was, or one row more. *)
Lemma append_row e w :
  wp (Append e) (fun r w' => seen (w_db w') = seen (w_db w) /\ alerted (w_db w') = alerted (w_db w) /\ w_now w' = w_now w /\
    (audit_log (w_db w') = audit_log (w_db w) /\ is_ok r = false \/
     exists b a n, to_jsonb (en_before e) = Ok b /\ to_jsonb (en_after e) = Ok a /\
       audit_log (w_db w') = audit_log (w_db w) ++ [as_stored (hashed w e b a n)] /\
       (forall x, r = Ok x -> x = hashed w e b a n))) w.
Proof using All.
  unfold Append. set (Q := fun (r : result Entry) w' => seen (w_db w') = _ /\ _).
  assert (forall (r : result Entry) s n, is_ok r = false -> wp (gret r) Q (with_sched s (with_uuids n w))) as Hno.
  { intros r s n Hr. apply wp_ret. split_and!; [done|done|done|by left]. }
  assert (forall (r : result Entry) s, is_ok r = false -> wp (gret r) Q (with_sched s w)) as Hno0.
  { intros r s Hr. apply wp_ret. split_and!; [done|done|done|by left]. }
  apply wp_bind, wp_gets. cbv zeta.
  apply wp_bind, wp_begin; intros s1; [|by apply (Hno0 _ s1)].
  apply wp_bind, wp_tx_query; intros s2; [|by apply (Hno0 _ s2)].
  apply wp_bind, wp_tx_query; intros s3; [|by apply (Hno0 _ s3)].
  cbn [w_db with_sched].
  set (e1 := if en_ts e =? zero_time then with_ts e (w_now w) else e).
  assert (en_before e1 = en_before e /\ en_after e1 = en_after e) as [Eb Ea] by (unfold e1; by destruct (_ =? _)).
  apply wp_bind. eapply wp_mono; [|apply normalize_spec]. rewrite Eb. intros rb w4 [[s4 ->] Hb].
  destruct rb as [b|x]; [|by apply (Hno0 _ s4)]. destruct (Hb b eq_refl) as [Hb1 Hb2].
  apply wp_bind. eapply wp_mono; [|apply normalize_spec]. rewrite Ea. intros ra w5 [[s5 ->] Ha].
  destruct ra as [a|x]; [|by apply (Hno0 _ s5)]. destruct (Ha a eq_refl) as [Ha1 Ha2].
  apply wp_bind.
  assert (forall R (k : Z -> M Audit unit R) (P : R -> World Audit unit -> Prop) w0,
    wp (k (Z.of_nat (w_uuids w0) + 1)) P (with_uuids (w_uuids w0 + 1)%nat w0) ->
    wp nextval (fun a => wp (k a) P) w0) as wp_nextval by done.
  apply wp_nextval. set (n := Z.of_nat _ + 1). cbn [w_uuids with_sched].
  apply wp_bind, wp_tx_exec; intros s6; [| |by apply (Hno _ s6 (w_uuids w + 1)%nat)].
  2: { intros x _. by apply (Hno _ s6 (w_uuids w + 1)%nat). }
  intros [] g Hg. cbn [w_db with_sched with_uuids] in Hg. unfold insert_entry in Hg. cbn [en_before en_after with_num with_chain] in Hg.
  rewrite Hb2, Ha2 in Hg. case_decide; [done|]. simplify_eq.
  apply wp_bind, wp_commit; intros s7; [| |by apply (Hno _ s7 (w_uuids w + 1)%nat)]; apply wp_ret;
    (split_and!; [done|done|done|right]); exists b, a, n; (split_and!; [done|done|done|]); intros x Hx; by simplify_eq.
Qed.

(** At a time the column can hold, the row is the entry as hashed, linked to the table. *)
Lemma append_spec e w :
  storable (entry_time w (en_ts e)) ->
  wp (Append e) (fun r w' => seen (w_db w') = seen (w_db w) /\ alerted (w_db w') = alerted (w_db w) /\ w_now w' = w_now w /\
    (audit_log (w_db w') = audit_log (w_db w) /\ is_ok r = false \/
     exists row, appended (audit_log (w_db w)) row /\ same_request e row (w_now w) /\
       audit_log (w_db w') = audit_log (w_db w) ++ [row] /\ (forall x, r = Ok x -> x = row))) w.
Proof using All.
  intros Hts. eapply wp_mono; [|apply append_row]. intros r w' (-> & -> & -> & [Hno|(b & a & n & _ & _ & Hlog & Hr)]).
  { split_and!; auto. }
  assert (as_stored (hashed w e b a n) = hashed w e b a n) as Es.
  { unfold as_stored, with_ts, hashed, with_num, with_chain. simpl. rewrite stored_ts_id; [done|].
    unfold entry_time in Hts. by destruct (_ =? _). }
  split_and!; [done..|right]. exists (hashed w e b a n). rewrite Es in Hlog.
  split_and!; [by split| |done|done]. unfold same_request, hashed. by destruct (_ =? _) eqn:E; simpl; rewrite ?E.
Qed.

(** Detection reads and writes only the detector. *)
Lemma observe_log dt actor w :
  wp (Observe dt actor) (fun _ w' => audit_log (w_db w') = audit_log (w_db w)) w.
Proof using All.
  assert (forall now d, audit_log (observe_step dt actor now d).2 = audit_log d) as Hlog.
  { intros now d. unfold observe_step. case_decide; [done|]. by destruct (_ || _). }
  unfold Observe. apply wp_bind, wp_gets, wp_bind, wp_gets, wp_bind.
  change (wp (if (observe_step dt actor (w_now w) (w_db w)).1
              then fireAlertmanager dt actor else gret tt)
    (fun _ w' => audit_log (w_db w') = audit_log (w_db w))
    (with_db (observe_step dt actor (w_now w) (w_db w)).2 w)).
  destruct (observe_step _ _ _ _).1; [|apply wp_ret; apply Hlog].
  unfold fireAlertmanager. case_decide; [apply wp_ret; apply Hlog|].
  apply wp_bind, wp_gets, wp_bind, wp_http_do. intros o h. apply wp_ret. apply Hlog.
Qed.

(** One ingest: the request, the time and the faults. *)
Definition ingest_step (dt : Detector) w (t : option ingestRequest * Z * list outcome) : World Audit unit :=
  (Ingest dt t.1.1 (with_now t.1.2 (with_sched t.2 w))).2.

(** The times of a request are whole microseconds. *)
Definition storable_request (t : option ingestRequest * Z * list outcome) : Prop :=
  storable t.1.2 /\ forall r, t.1.1 = Some r -> storable (default zero_time (ig_ts r)).

Lemma ingest_step_chain dt w t :
  storable_request t -> chain_ok "" (audit_log (w_db w)) ->
  chain_ok "" (audit_log (w_db (ingest_step dt w t))) /\
  audit_log (w_db w) `prefix_of` audit_log (w_db (ingest_step dt w t)).
Proof using All.
  intros [Hnow Hreq] Hc. unfold ingest_step. set (w0 := with_now _ _).
  assert (audit_log (w_db w0) = audit_log (w_db w) /\ w_now w0 = t.1.2) as [E0 En] by done. clearbody w0.
  rewrite <- E0 in Hc |- *. clear E0.
  change (wp (Ingest dt t.1.1) (fun _ w' => chain_ok "" (audit_log (w_db w')) /\
    audit_log (w_db w0) `prefix_of` audit_log (w_db w')) w0).
  unfold Ingest. destruct t.1.1 as [r|]; [|by apply wp_ret]. case_decide; [by apply wp_ret|].
  apply wp_bind. eapply wp_mono; [|apply append_spec].
  2: { unfold entry_time. cbn. destruct (_ =? _); [by rewrite En|by apply Hreq]. }
  intros res w1 (_ & _ & _ & Hlog).
  assert (chain_ok "" (audit_log (w_db w1)) /\ audit_log (w_db w0) `prefix_of` audit_log (w_db w1)) as Hw1.
  { destruct Hlog as [[-> _]|(row & [Hp Hh] & _ & -> & _)]; [done|]. split; [|by apply prefix_app_r].
    apply chain_ok_snoc. by split. }
  destruct res as [e|e]; [|by apply wp_ret]. apply wp_bind. eapply wp_mono; [|apply observe_log].
  intros x w2 E2. apply wp_ret. by rewrite E2.
Qed.

(** C11: an honest trail verifies and only grows: from a table the verifier
    accepts, over any sequence of ingest requests whose times are whole
    microseconds, with any faults, nothing that was recorded changes and the
    verifier accepts the whole table. *)
Theorem honest_trail_verifies (dt : Detector) (w : World Audit unit) (l : list (option ingestRequest * Z * list outcome))
    (Htimes : Forall storable_request l) (Hids : Forall (fun e => en_num e <> 0) (audit_log (w_db w)))
    (Hok : (verify_rows "" (audit_log (w_db w)) 0).1 = 0) :
  let log := audit_log (w_db w) in
  let log' := audit_log (w_db (foldl (ingest_step dt) w l)) in
  log `prefix_of` log' /\ verify_rows "" log' 0 = (0, Z.of_nat (length log')).
Proof using All.
  cbv zeta. apply verify_rows_ok in Hok; [|done]. clear Hids. revert w Hok.
  induction Htimes as [|t l Ht Hl IH]; intros w Hok; simpl.
  - split; [done|]. by rewrite chain_verifies.
  - destruct (ingest_step_chain dt w t Ht Hok) as [Hok1 Hp1]. destruct (IH _ Hok1) as [Hp2 Hv]. split; [by etrans|done].
Qed.
End Honest.

(** A shortened trail is still a chain: without the last hash kept elsewhere,
    the verifier accepts any prefix of an accepted table. *)
Lemma truncation_unnoticed l l' :
  chain_ok "" (l ++ l') -> verify_rows "" l 0 = (0, Z.of_nat (length l)).
Proof.
  intros Hc. rewrite chain_verifies; [done|]. revert Hc. generalize ""%string. induction l as [|e l IH]; intros p Hc; [done|].
  destruct Hc as (? & ? & ?). split_and!; [done|done|]. by apply IH.
Qed.

(** ** Alerts *)

(** The times at which the detector alerts on one actor, over a sequence of
    observed actions. *)
Fixpoint alerts (dt : Detector) (actor : string) (obs : list (string * Z)) (d : Audit) : list Z :=
  match obs with
  | [] => []
  | (a, t) :: obs' =>
      let '(fires, d') := observe_step dt a t d in
      if fires && bool_decide (a = actor) then t :: alerts dt actor obs' d' else alerts dt actor obs' d'
  end.

Lemma alerts_after dt actor obs d s :
  alerted d !! actor = Some s -> HdRel (fun s t => s + cooldown <= t) s (alerts dt actor obs d).
Proof.
  revert d. induction obs as [|[a t] obs IH]; intros d Hs; [constructor|]. simpl.
  unfold observe_step. case_decide; [by apply IH|].
  destruct (decide (a = actor)) as [->|Hne].
  - rewrite Hs. destruct (_ || _) eqn:E; simpl; [by apply IH|].
    rewrite bool_decide_true by done. zbool. destruct E. constructor. lia.
  - destruct (_ || _); simpl; [by apply IH|]. rewrite bool_decide_false by done.
    apply IH. simpl. by rewrite lookup_insert_ne.
Qed.

(** One burst, one alert: whatever actions are observed at whatever times, two
    successive alerts on one actor are at least the cooldown apart, and an
    alert is raised only for an actor with more than the threshold of actions
    within the window. *)
Theorem alerts_are_rate_limited (dt : Detector) (actor : string) (obs : list (string * Z)) (d : Audit) :
  Sorted (fun s t => s + cooldown <= t) (alerts dt actor obs d) /\
  forall now, (observe_step dt actor now d).1 = true ->
    dt_threshold dt < 1 + Z.of_nat (length (filter (fun t => now - dt_window dt < t) (default [] (seen d !! actor)))).
Proof.
  split.
  - revert d. induction obs as [|[a t] obs IH]; intros d; [constructor|]. simpl.
    destruct (observe_step dt a t d) as [fires d'] eqn:E. destruct (fires && _) eqn:F; [|apply IH].
    apply andb_true_iff in F as [-> ->%bool_decide_eq_true]. constructor; [apply IH|].
    unfold observe_step in E. case_decide; [done|]. destruct (_ || _); simplify_eq.
    apply alerts_after. apply lookup_insert_eq.
  - intros now. unfold observe_step. case_decide; [done|]. destruct (_ || _) eqn:E; [done|]. intros _.
    zbool. destruct E as [E _]. rewrite length_app in E. simpl in E. lia.
Qed.

(** ** Concrete runs *)

(** For concrete runs every text is its own canonical form. *)
Definition plain_jsonb : Jsonb := {| jsonb_text := fun s => Ok s |}.

#[local] Existing Instance plain_jsonb.

#[local] Instance plain_jsonb_laws : JsonbLaws.
Proof. split. intros s t Hs. by simplify_eq. Qed.

Definition default_detector : Detector := mkDetector 20 60000000000 "".

Definition audit_world : World Audit unit := mkWorld (mkAudit [] ∅ ∅) tt [] 0 0 [] [] [].

Definition toggle_flip : option ingestRequest :=
  Some (mkIngest "root" ["platform-admin"] "toggle.update" "toggle" "fare-payments" None (Some "{}") "10.0.0.1" "curl" None).

Definition ts_text_example : string := rfc3339nano 1700000000123456789.
Lemma ts_text_example_ok : ts_text_example = "2023-11-14T22:13:20.123456789Z"%string.
Proof. vm_compute. reflexivity. Qed.

(** Two appends, the reply of the second commit lost, and a third. *)
Definition three_flips : list (option ingestRequest * Z * list outcome) :=
  [(toggle_flip, 1700000000123456000, []);
   (toggle_flip, 1700000001000000000, [Done; Done; Done; Done; Done; LostReply]);
   (toggle_flip, 1700000002000000000, [])].

Lemma honest_trail_verifies_witness :
  let log' := audit_log (w_db (foldl (ingest_step default_detector) audit_world three_flips)) in
  length log' = 3%nat /\ [] `prefix_of` log' /\ verify_rows "" log' 0 = (0, Z.of_nat (length log')).
Proof.
  split; [vm_compute; reflexivity|]. apply (honest_trail_verifies default_detector audit_world three_flips).
  - repeat (apply Forall_cons_2; [split; [reflexivity|intros r Hr; injection Hr as <-; reflexivity]|]). apply Forall_nil_2.
  - apply Forall_nil_2.
  - reflexivity.
Defined.

(** The trail after one flip, and the same row under another id. *)
Definition one_flip : Audit :=
  Eval vm_compute in w_db (foldl (ingest_step default_detector) audit_world (take 1 three_flips)).

Definition renumbered : Audit := mkAudit (map (fun e => with_num e 7) (audit_log one_flip)) ∅ ∅.

Lemma head_commits_to_history_witness :
  map content (audit_log one_flip) = map content (audit_log renumbered) \/
  collide (audit_log one_flip) (audit_log renumbered).
Proof.
  apply (head_commits_to_history one_flip renumbered).
  - apply Forall_cons_2; [discriminate|apply Forall_nil_2].
  - apply Forall_cons_2; [discriminate|apply Forall_nil_2].
  - vm_compute. reflexivity.
  - vm_compute. reflexivity.
  - reflexivity.
Defined.

(** The clock is finer than the column: an entry appended with a time that
    is not a whole number of microseconds is hashed with its nanoseconds but
    stored without them, so the verifier reports the untouched table as
    broken at that entry. *)
Theorem nanosecond_entry_breaks_chain :
  let w := ingest_step default_detector audit_world (toggle_flip, 1700000000123456789, []) in
  length (audit_log (w_db w)) = 1%nat /\ status (VerifyChain w).1 = 409 /\
  (verify_rows "" (audit_log (w_db w)) 0) = (1, 1).
Proof. vm_compute. split_and!; reflexivity. Qed.

(** A row with id 0 is accepted whatever it says, as 0 is the verifier's
    answer for no offending row. *)
Lemma zero_id_unnoticed :
  let forged := mkEntry 0 "nobody" [] "x" "y" "" None None "" "" 0 "junk" "junk" in
  verify_rows "" (forged :: audit_log one_flip) 0 = (0, 1).
Proof. reflexivity. Qed.
