(* ===== verification/InfraDb.v ===== *)
(** * What the infra-api handlers share

    Models of services/go/infra-api/internal/handlers/common.go and
    internal/workflow/workflow.go: the answer to an internal error and the
    signals sent to Temporal workflows, with the workflow a signal starts;
    and of PostgreSQL the parts these handlers lean on: three-valued logic
    over nullable columns, ascending order, the text input of uuid columns. *)

From Stdlib Require Import Sorted.
From S2P Require Import Prelude World Float64.

Open Scope Z_scope.
Open Scope go_scope.

(** ** Three-valued logic *)

Abbreviation tri := (option bool).

Definition tri_and (a b : tri) : tri :=
  match a, b with
  | Some false, _ | _, Some false => Some false
  | Some true, Some true => Some true
  | _, _ => None
  end.

Definition tri_or (a b : tri) : tri :=
  match a, b with
  | Some true, _ | _, Some true => Some true
  | Some false, Some false => Some false
  | _, _ => None
  end.

Definition is_null {A} (o : option A) : tri := Some (match o with None => true | Some _ => false end).

(** [a < b] on nullable timestamps. *)
Definition tri_lt (a b : option Z) : tri :=
  match a, b with Some x, Some y => Some (x <? y) | _, _ => None end.

(** [a = b] on nullable text. *)
Definition tri_eq (a b : option string) : tri :=
  match a, b with Some x, Some y => Some (bool_decide (x = y)) | _, _ => None end.

(** A WHERE clause keeps the rows on which it is true, not null. *)
Definition holds (t : tri) : bool := match t with Some true => true | _ => false end.

Lemma holds_and a b : holds (tri_and a b) = holds a && holds b.
Proof. by destruct a as [[]|], b as [[]|]. Qed.

Lemma holds_or a b : holds (tri_or a b) = holds a || holds b.
Proof. by destruct a as [[]|], b as [[]|]. Qed.

Lemma holds_lt a b : holds (tri_lt (Some a) (Some b)) = (a <? b).
Proof. simpl. by destruct (a <? b). Qed.

Lemma holds_null {A} (o : option A) : holds (is_null o) = match o with None => true | Some _ => false end.
Proof. by destruct o. Qed.

#[export] Hint Rewrite holds_and holds_or holds_lt @holds_null : go.

(** ** The database server

    The text input of [uuid] (a malformed text is SQLSTATE 22P02, any other
    has one canonical spelling), division of numerics, the bounds of the civil
    day of an instant in a named zone (an unknown zone is an error), and how
    many rows of a result arrive before the connection breaks. *)
Class PgServer : Type := {
  uuid_in : string -> result string;
  numeric_div : Qc -> Qc -> Qc;
  civil_day : string -> Z -> result (Z * Z);
  rows_arrived : nat
}.

Definition test_server : PgServer := {|
  uuid_in := fun s => if decide (s = "") then Err (PgError "22P02") else Ok s;
  numeric_div := Qcdiv;
  civil_day := fun _ t => Ok (t - t mod 86400000, t - t mod 86400000 + 86400000);
  rows_arrived := 0
|}.

Definition uuid_arg `{PgServer} (o : option string) : result (option string) :=
  match o with None => Ok None | Some s => result_map Some (uuid_in s) end.

(** [ORDER BY key]. *)
Fixpoint insert_asc {V} (key : V -> Z) (v : V) (l : list V) : list V :=
  match l with
  | [] => [v]
  | x :: l' => if key v <? key x then v :: x :: l' else x :: insert_asc key v l'
  end.

Definition order_asc {V} (key : V -> Z) (l : list V) : list V := foldr (insert_asc key) [] l.

(** [ORDER BY key] on text. *)
Fixpoint insert_text {V} (key : V -> string) (v : V) (l : list V) : list V :=
  match l with
  | [] => [v]
  | x :: l' => if String.ltb (key v) (key x) then v :: x :: l' else x :: insert_text key v l'
  end.

Definition order_text {V} (key : V -> string) (l : list V) : list V := foldr (insert_text key) [] l.

Lemma insert_asc_perm {V} (key : V -> Z) v l : insert_asc key v l ≡ₚ v :: l.
Proof.
  induction l as [|x l IH]; simpl; [done|]. destruct (_ <? _); [done|].
  rewrite IH. apply Permutation_swap.
Qed.

Lemma order_asc_perm {V} (key : V -> Z) (l : list V) : order_asc key l ≡ₚ l.
Proof. induction l as [|x l IH]; simpl; [done|]. by rewrite insert_asc_perm, IH. Qed.

Lemma insert_asc_sorted {V} (key : V -> Z) v l :
  StronglySorted (fun a b => key a <= key b) l -> StronglySorted (fun a b => key a <= key b) (insert_asc key v l).
Proof.
  induction 1 as [|x l Hl IH Hx]; simpl; [by repeat constructor|]. destruct (Z.ltb_spec (key v) (key x)) as [Hlt|Hge].
  - constructor; [by constructor|]. constructor; [lia|]. eapply Forall_impl; [|exact Hx]. simpl. lia.
  - constructor; [done|]. rewrite insert_asc_perm. by constructor.
Qed.

Lemma order_asc_sorted {V} (key : V -> Z) l : StronglySorted (fun a b => key a <= key b) (order_asc key l).
Proof. induction l as [|v l IH]; simpl; [constructor|]. by apply insert_asc_sorted. Qed.

Lemma insert_text_perm {V} (key : V -> string) v l : insert_text key v l ≡ₚ v :: l.
Proof.
  induction l as [|x l IH]; simpl; [done|]. destruct (String.ltb _ _); [done|].
  rewrite IH. apply Permutation_swap.
Qed.

Lemma order_text_perm {V} (key : V -> string) (l : list V) : order_text key l ≡ₚ l.
Proof. induction l as [|x l IH]; simpl; [done|]. by rewrite insert_text_perm, IH. Qed.

(** ** ORDER BY on several keys *)

Section OrderBy.
Context {V : Type} (before : V -> V -> bool).

Fixpoint insert_by (v : V) (l : list V) : list V :=
  match l with
  | [] => [v]
  | x :: l' => if before v x then v :: x :: l' else x :: insert_by v l'
  end.

Definition order_by (l : list V) : list V := foldr insert_by [] l.

Lemma insert_by_perm v l : insert_by v l ≡ₚ v :: l.
Proof.
  induction l as [|x l IH]; simpl; [done|]. destruct (before v x); [done|]. rewrite IH. apply Permutation_swap.
Qed.

Lemma order_by_perm l : order_by l ≡ₚ l.
Proof. induction l as [|x l IH]; simpl; [done|]. by rewrite insert_by_perm, IH. Qed.

(** [a] may stand before [b]. *)
Definition not_after (a b : V) : Prop := before b a = false.

Hypothesis asym : forall a b, before a b = true -> before b a = false.
Hypothesis trans : forall a b c, not_after a b -> not_after b c -> not_after a c.

Lemma insert_by_sorted v l : StronglySorted not_after l -> StronglySorted not_after (insert_by v l).
Proof using All.
  induction 1 as [|x l Hl IH Hx]; simpl; [by repeat constructor|]. destruct (before v x) eqn:E.
  - constructor; [by constructor|]. constructor; [by apply asym|]. eapply Forall_impl; [|exact Hx].
    intros y. by apply trans, asym.
  - constructor; [done|]. rewrite insert_by_perm. by constructor.
Qed.

Lemma order_by_sorted l : StronglySorted not_after (order_by l).
Proof using All. induction l as [|v l IH]; simpl; [constructor|]. by apply insert_by_sorted. Qed.

(** [ORDER BY ... LIMIT n] is the top: what it leaves out comes after
    everything it shows, and it leaves something out only when it is full. *)
Lemma limit_is_top n l x : x ∈ l -> x ∉ take n (order_by l) ->
  length (take n (order_by l)) = n /\ forall y, y ∈ take n (order_by l) -> not_after y x.
Proof using All.
  intros Hx Hn. pose proof (order_by_sorted l) as Hs. rewrite <- (order_by_perm l) in Hx. generalize dependent (order_by l). clear l.
  intros l Hx Hn Hs. rewrite <- (take_drop n l) in Hx. apply elem_of_app in Hx as [Hx|Hx]; [done|].
  split; [rewrite length_take; apply list_elem_of_lookup in Hx as [i Hi]; rewrite lookup_drop in Hi; apply lookup_lt_Some in Hi; lia|].
  rewrite <- (take_drop n l) in Hs. intros y Hy. clear -Hs Hx Hy. induction (take n l) as [|z t IH]; [by apply elem_of_nil in Hy|].
  simpl in Hs. apply StronglySorted_inv in Hs as [Hs Hz]. apply elem_of_cons in Hy as [-> |Hy]; [|by apply IH].
  rewrite list.Forall_forall in Hz. apply Hz, elem_of_app. by right.
Qed.
End OrderBy.

Lemma take_sorted {V} (R : V -> V -> Prop) n l : StronglySorted R l -> StronglySorted R (take n l).
Proof.
  intros Hl. revert n. induction Hl as [|x l Hl IH Hx]; intros [|n]; simpl; constructor; [done|]. by apply Forall_take.
Qed.

(** ** Temporal signals

    The workflow service stands where the ledger stands in commerce-api: its
    state is the list of signals it accepted, in order. *)

Record signal : Type := mkSignal { sg_workflow : string; sg_name : string; sg_payload : list (string * json) }.

Abbreviation Workflows := (list signal).

Definition IncidentWorkflowIDPrefix : string := "incident-".
Definition DispatchWorkflowIDPrefix : string := "dispatch-".

Definition SignalLeakDetected : string := "leak-detected".
Definition SignalIncidentAcknowledged : string := "incident-acknowledged".
Definition SignalIncidentResolved : string := "incident-resolved".
Definition SignalJobAssigned : string := "job-assigned".
Definition SignalJobAccepted : string := "job-accepted".
Definition SignalJobCancelled : string := "job-cancelled".

(** [temporalSignaler.Signal]; the caller logs an error and goes on. *)
Definition Signal {D} (workflowID signalName : string) (payload : list (string * json))
    : M D Workflows (result unit) :=
  led_call (fun l => (Ok tt, l ++ [mkSignal workflowID signalName payload])).

Inductive workflow_type : Type := IncidentResponseWf | DispatchWf.

(** [workflowForID]: the workflow that a signal to this id starts. *)
Definition workflowForID (workflowID : string) : option workflow_type :=
  if String.prefix IncidentWorkflowIDPrefix workflowID then Some IncidentResponseWf
  else if String.prefix DispatchWorkflowIDPrefix workflowID then Some DispatchWf
  else None.

(** [h.internal]. *)
Definition infra_internal {D S} (op : string) (e : error) : M D S response :=
  reply_error 500 "internal_error".

(** A nullable timestamp, rendered with [omitempty]. *)
Definition jopt_time (k : string) (o : option Z) : list (string * json) :=
  match o with Some t => [(k, JTime t)] | None => [] end.

(** [timeValue]: RFC 3339 or null. *)
Definition timeValue (o : option Z) : json :=
  match o with Some t => JTime t | None => JNull end.

Lemma wp_Signal {D} wid name payload (Q : result unit -> World D Workflows -> Prop) w :
  (forall s r, Q r (with_led (w_led w ++ [mkSignal wid name payload]) (with_sched s w))) ->
  (forall s e, Q (Err e) (with_sched s w)) ->
  wp (Signal wid name payload) Q w.
Proof.
  intros H1 H2. unfold Signal. apply wp_led_call; intros; simplify_eq/=; auto.
Qed.

Lemma wp_Signal_done {D} wid name payload (Q : result unit -> World D Workflows -> Prop) w :
  w_sched w = [] -> Q (Ok tt) (with_led (w_led w ++ [mkSignal wid name payload]) w) ->
  wp (Signal wid name payload) Q w.
Proof. intros Hs HQ. eapply wp_led_call_done; eauto. Qed.

Lemma wp_db_exec_err {D S A} (f : D -> result (A * (D -> D))) e (Q : result A -> World D S -> Prop) w :
  w_sched w = [] -> f (w_db w) = Err e -> Q (Err e) w -> wp (db_exec f) Q w.
Proof. intros Hs Hf HQ. unfold wp, db_exec. rewrite pop_done by done. by rewrite Hf. Qed.

(** *** The calls on the database without faults, with either result *)

Section Quiet.
Context {D S : Type}.
Implicit Types w : World D S.

Lemma wp_db_exec_quiet {A} (f : D -> result (A * (D -> D))) (Q : result A -> World D S -> Prop) w :
  w_sched w = [] -> (forall a g, f (w_db w) = Ok (a, g) -> Q (Ok a) (with_db (g (w_db w)) w)) ->
  (forall e, f (w_db w) = Err e -> Q (Err e) w) -> wp (db_exec f) Q w.
Proof.
  intros Hs H1 H2. unfold wp, db_exec. rewrite pop_done by done.
  destruct (f (w_db w)) as [[a g]|e] eqn:E; simpl; auto.
Qed.

Lemma wp_tx_exec_quiet {A} (tx : Tx D) (f : D -> result (A * (D -> D))) (Q : result (A * Tx D) -> World D S -> Prop) w :
  w_sched w = [] -> (forall a g, f (tx (w_db w)) = Ok (a, g) -> Q (Ok (a, fun d => g (tx d))) w) ->
  (forall e, f (tx (w_db w)) = Err e -> Q (Err e) w) -> wp (tx_exec tx f) Q w.
Proof.
  intros Hs H1 H2. unfold wp, tx_exec. rewrite pop_done by done.
  destruct (f (tx (w_db w))) as [[a g]|e] eqn:E; simpl; auto.
Qed.
End Quiet.

(** [wp_step], for handlers that answer with [infra_internal]. *)
Ltac infra_step :=
  lazymatch goal with
  | |- wp (infra_internal _ _) _ _ => apply wp_ret
  | |- _ => wp_step
  end.

(** One step of a fault-free run; the schedule must be seen to be empty. *)
Ltac quiet_step :=
  lazymatch goal with
  | |- wp (db_query _) _ _ => apply wp_db_query_done; [done|]
  | |- wp (db_exec _) _ _ => apply wp_db_exec_quiet; [done|intros|intros]
  | |- wp begin _ _ => apply wp_begin_done; [done|]
  | |- wp (tx_query _ _) _ _ => apply wp_tx_query_done; [done|]
  | |- wp (tx_exec _ _) _ _ => apply wp_tx_exec_quiet; [done|intros|intros]
  | |- wp (commit _) _ _ => apply wp_commit_done; [done|]
  | |- wp (publish _ _) _ _ => apply wp_publish_done; [done|]
  | |- _ => infra_step
  end.

(** A query and a loop over its rows that does not ask [rows.Err()]: it goes on
    with the rows that arrived before a result was cut off. *)
Definition read_rows `{PgServer} {D S A} (f : D -> list A) : M D S (result (list A)) := fun w =>
  let '(o, w) := pop w in
  match o with
  | Done => (Ok (f (w_db w)), w)
  | Lost => (Err (ErrIO "db"), w)
  | LostReply => (Ok (take rows_arrived (f (w_db w))), w)
  end.

(** ** Preservation

    A handler keeps a preorder on what it leaves behind (the tables, the
    signals, the requests sent) when each of its calls does; the schedule, the
    clock, the bus and the drawn ids do not matter. *)

Record left_behind (D S : Type) : Type := mkLeft { lf_db : D; lf_led : S; lf_sent : list http_request }.
Arguments mkLeft {D S} _ _ _.
Arguments lf_db {D S} _.
Arguments lf_led {D S} _.
Arguments lf_sent {D S} _.

Definition view {D S} (w : World D S) : left_behind D S := mkLeft (w_db w) (w_led w) (w_sent w).

Section Keeps.
Context {D S : Type} (R : left_behind D S -> left_behind D S -> Prop) `{!PreOrder R}.

Definition keeps {A} (m : M D S A) : Prop := forall w, R (view w) (view (m w).2).

Lemma keeps_ret {A} (a : A) : keeps (gret a).
Proof using All. intros w. reflexivity. Qed.

Lemma keeps_reply code b : keeps (reply code b).
Proof using All. intros w. reflexivity. Qed.

Lemma keeps_reply_error code msg : keeps (reply_error code msg).
Proof using All. intros w. reflexivity. Qed.

Lemma keeps_internal op e : keeps (infra_internal op e).
Proof using All. intros w. reflexivity. Qed.

Lemma keeps_gets {A} (f : World D S -> A) : keeps (gets f).
Proof using All. intros w. reflexivity. Qed.

Lemma keeps_bind {A B} (m : M D S A) (k : A -> M D S B) : keeps m -> (forall a, keeps (k a)) -> keeps (gbind m k).
Proof using All.
  intros Hm Hk w. unfold gbind. specialize (Hm w). destruct (m w) as [a w1]. etransitivity; [exact Hm|apply Hk].
Qed.

Lemma pop_view (w : World D S) : view (pop w).2 = view w.
Proof using Type. unfold pop. by destruct (w_sched w). Qed.

Lemma keeps_rows `{PgServer} {A} (f : D -> list A) : keeps (read_rows f).
Proof using All. intros w. rewrite <- (pop_view w). unfold read_rows. by destruct (pop w) as [[] w1]. Qed.

Lemma keeps_query {A} (f : D -> result A) : keeps (db_query f).
Proof using All.
  intros w. unfold db_query. pose proof (pop_view w) as E. destruct (pop w) as [o w1]. rewrite <- E. destruct o; reflexivity.
Qed.

Lemma keeps_exec {A} (f : D -> result (A * (D -> D))) :
  (forall d l s a g, f d = Ok (a, g) -> R (mkLeft d l s) (mkLeft (g d) l s)) -> keeps (db_exec f).
Proof using All.
  intros Hf w. unfold db_exec. pose proof (pop_view w) as E. destruct (pop w) as [o w1]. rewrite <- E. clear E.
  destruct w1 as [d l b n u sc h snt]. simpl. destruct o, (f d) as [[a g]|e] eqn:Ef; try reflexivity; by eapply Hf.
Qed.

Lemma keeps_publish topic data : keeps (publish topic data).
Proof using All.
  intros w. unfold publish. pose proof (pop_view w) as E. destruct (pop w) as [o w1]. rewrite <- E. destruct o; reflexivity.
Qed.

Lemma keeps_begin : keeps begin.
Proof using All.
  intros w. unfold begin. pose proof (pop_view w) as E. destruct (pop w) as [o w1]. rewrite <- E. destruct o; reflexivity.
Qed.

Lemma keeps_tx_query {A} tx (f : D -> result A) : keeps (tx_query tx f).
Proof using All.
  intros w. unfold tx_query. pose proof (pop_view w) as E. destruct (pop w) as [o w1]. rewrite <- E. destruct o; reflexivity.
Qed.

Lemma keeps_tx_exec {A} tx (f : D -> result (A * (D -> D))) : keeps (tx_exec tx f).
Proof using All.
  intros w. unfold tx_exec. pose proof (pop_view w) as E. destruct (pop w) as [o w1]. rewrite <- E.
  destruct o; try reflexivity. destruct (f _) as [[a g]|e]; reflexivity.
Qed.

Lemma keeps_commit tx : (forall d l s, R (mkLeft d l s) (mkLeft (tx d) l s)) -> keeps (commit tx).
Proof using All.
  intros Hr w. unfold commit. pose proof (pop_view w) as E. destruct (pop w) as [o w1]. rewrite <- E. clear E.
  destruct w1 as [d l b n u sc h snt]. destruct o; try reflexivity; apply Hr.
Qed.

Lemma keeps_uuid `{Runtime} : keeps new_uuid.
Proof using All. intros w. reflexivity. Qed.

Lemma keeps_http rq : (forall d l s, R (mkLeft d l s) (mkLeft d l (s ++ [rq]))) -> keeps (http_do rq).
Proof using All.
  intros Hr w. unfold http_do. destruct w as [d l b n u sc h snt]; simpl. destruct h; apply Hr.
Qed.

Lemma keeps_led {A} (f : S -> result A * S) :
  (forall d l s, R (mkLeft d l s) (mkLeft d (f l).2 s)) -> keeps (led_call f).
Proof using All.
  intros Hr w. unfold led_call. pose proof (pop_view w) as E. destruct (pop w) as [o w1]. rewrite <- E. clear E.
  destruct w1 as [d l b n u sc h snt]. simpl. specialize (Hr d l snt). destruct o, (f l); simpl in *; try exact Hr; reflexivity.
Qed.
End Keeps.

Lemma keeps_Signal {D} (R : left_behind D Workflows -> left_behind D Workflows -> Prop) `{!PreOrder R} wid name payload :
  (forall d l s, R (mkLeft d l s) (mkLeft d (l ++ [mkSignal wid name payload]) s)) -> keeps R (Signal wid name payload).
Proof. intros Hr. unfold Signal. apply keeps_led; [apply _|]. intros d l s. apply Hr. Qed.

(** One step of a preservation proof; what is left are the statements, the
    requests and the signals. *)
Ltac keep_step :=
  lazymatch goal with
  | |- keeps _ (gbind _ _) => apply keeps_bind; [apply _| |intros]
  | |- keeps _ (gret _) => apply keeps_ret; apply _
  | |- keeps _ (reply _ _) => apply keeps_reply; apply _
  | |- keeps _ (reply_error _ _) => apply keeps_reply_error; apply _
  | |- keeps _ (infra_internal _ _) => apply keeps_internal; apply _
  | |- keeps _ (gets _) => apply keeps_gets; apply _
  | |- keeps _ (db_query _) => apply keeps_query; apply _
  | |- keeps _ (read_rows _) => apply keeps_rows; apply _
  | |- keeps _ (publish _ _) => apply keeps_publish; apply _
  | |- keeps _ begin => apply keeps_begin; apply _
  | |- keeps _ (tx_query _ _) => apply keeps_tx_query; apply _
  | |- keeps _ (tx_exec _ _) => apply keeps_tx_exec; apply _
  | |- keeps _ (commit _) => apply keeps_commit; [apply _|intros]
  | |- keeps _ new_uuid => apply keeps_uuid; apply _
  | |- keeps _ (db_exec _) => apply keeps_exec; [apply _|intros]
  | |- keeps _ (http_do _) => apply keeps_http; [apply _|intros]
  | |- keeps _ (Signal _ _ _) => apply keeps_Signal; [apply _|intros]
  | |- keeps _ (match ?x with _ => _ end) => destruct x eqn:?
  end.
