(* ===== verification/Dispatch.v ===== *)
(** * Dispatch jobs, drivers and charter bookings

    Models services/go/infra-api/internal/handlers/dispatch.go, drivers.go and
    charters.go and the requeue activity of internal/workflow/activities.go,
    over the tables of migrations 0005 and 0010 with their keys, partial
    unique indexes and foreign keys.  The writes of a creation
    ([insert_dispatch_job]), an acceptance ([accept_job]), a swap
    ([swap_vehicle_tx]) and a charter ([write_reservation]) are definitions of
    their own, which the handlers run after their checks, so that other
    requests can be run between the two.  The theorems are in [DispatchTheorems.v]. *)

From S2P Require Import Prelude Codec World Float64 Auth CommerceDb InfraDb.

Open Scope Z_scope.
Open Scope go_scope.

(** ** Rows and tables *)

Record DispatchJob : Type := mkJob {
  dj_id : string; dj_driver : string; dj_vehicle : option string; dj_route : string;
  dj_starts : option Z; dj_ends : option Z; dj_status : string; dj_created : Z; dj_accepted : option Z
}.

Record Driver : Type := mkDriver { dv_sub : string; dv_name : string; dv_license : string; dv_status : string }.

Record CharterBooking : Type := mkBooking {
  cb_id : string; cb_reference : string; cb_customer : string; cb_contact : string; cb_starts : Z; cb_ends : Z;
  cb_status : string; cb_notes : string; cb_created_by : string; cb_created : Z; cb_cancelled : option Z
}.

(** infra.charter_vehicles, keyed by its unique dispatch_job_id. *)
Record CharterVehicle : Type := mkCharterVehicle { cv_booking : string; cv_vehicle : string; cv_job : string }.

Record DispatchDB : Type := mkDispatchDB {
  jobs : gmap string DispatchJob;
  drivers : gmap string Driver;
  vehicles : gset string;                   (* fleet.vehicles, by id *)
  bookings : gmap string CharterBooking;
  charter_vehicles : gmap string CharterVehicle
}.

Definition set_jobs (m : gmap string DispatchJob) (d : DispatchDB) : DispatchDB :=
  mkDispatchDB m (drivers d) (vehicles d) (bookings d) (charter_vehicles d).
Definition set_drivers (m : gmap string Driver) (d : DispatchDB) : DispatchDB :=
  mkDispatchDB (jobs d) m (vehicles d) (bookings d) (charter_vehicles d).
Definition set_bookings (m : gmap string CharterBooking) (d : DispatchDB) : DispatchDB :=
  mkDispatchDB (jobs d) (drivers d) (vehicles d) m (charter_vehicles d).
Definition set_links (m : gmap string CharterVehicle) (d : DispatchDB) : DispatchDB :=
  mkDispatchDB (jobs d) (drivers d) (vehicles d) (bookings d) m.

Definition put_job (j : DispatchJob) (d : DispatchDB) : DispatchDB := set_jobs (<[dj_id j := j]> (jobs d)) d.
Definition put_driver (x : Driver) (d : DispatchDB) : DispatchDB := set_drivers (<[dv_sub x := x]> (drivers d)) d.
Definition put_booking (b : CharterBooking) (d : DispatchDB) : DispatchDB := set_bookings (<[cb_id b := b]> (bookings d)) d.
Definition put_link (v : CharterVehicle) (d : DispatchDB) : DispatchDB := set_links (<[cv_job v := v]> (charter_vehicles d)) d.

Abbreviation dispatch_stmt A := (DispatchDB -> result (A * (DispatchDB -> DispatchDB))).

Definition with_job_status (j : DispatchJob) (st : string) (accepted : option Z) : DispatchJob :=
  mkJob (dj_id j) (dj_driver j) (dj_vehicle j) (dj_route j) (dj_starts j) (dj_ends j) st (dj_created j) accepted.
Definition with_vehicle (j : DispatchJob) (v : option string) : DispatchJob :=
  mkJob (dj_id j) (dj_driver j) v (dj_route j) (dj_starts j) (dj_ends j) (dj_status j) (dj_created j) (dj_accepted j).

(** [status IN ('assigned','accepted','in_progress')]. *)
Definition active (st : string) : bool := bool_decide (st ∈ ["assigned"; "accepted"; "in_progress"]).

(** ** Statements *)

(** The time-window test of job creation and of the vehicle swap. *)
Definition window_conflict (starts ends : option Z) (j : DispatchJob) : tri :=
  tri_and (tri_or (is_null starts) (tri_or (is_null (dj_starts j)) (tri_lt (dj_starts j) ends)))
          (tri_or (is_null ends) (tri_or (is_null (dj_ends j)) (tri_lt starts (dj_ends j)))).

(** [driver_sub = $1 OR ($2::uuid IS NOT NULL AND vehicle_id = $2)]. *)
Definition shares_resource (driver : string) (vehicle : option string) (j : DispatchJob) : tri :=
  tri_or (Some (bool_decide (dj_driver j = driver)))
         (tri_and (Some (match vehicle with Some _ => true | None => false end)) (tri_eq (dj_vehicle j) vehicle)).

Definition conflicting (driver : string) (vehicle : option string) (starts ends : option Z) (j : DispatchJob) : bool :=
  active (dj_status j) && holds (tri_and (shares_resource driver vehicle j) (window_conflict starts ends j)).

(** The two partial unique indexes of migration 0005, on a new or changed row. *)
Definition index_clash (j x : DispatchJob) : bool :=
  negb (bool_decide (dj_id x = dj_id j)) && active (dj_status j) && active (dj_status x) &&
  (bool_decide (dj_driver x = dj_driver j) || holds (tri_eq (dj_vehicle x) (dj_vehicle j))).

(** The foreign keys dispatch_jobs_vehicle_fk and dispatch_jobs_driver_fk. *)
Definition vehicle_known (o : option string) (d : DispatchDB) : bool :=
  match o with None => true | Some v => bool_decide (v ∈ vehicles d) end.
Definition driver_known (sub : string) (d : DispatchDB) : bool := bool_decide (is_Some (drivers d !! sub)).

Definition insert_job (j : DispatchJob) : dispatch_stmt unit := fun d =>
  match jobs d !! dj_id j, find_row (index_clash j) (jobs d) with
  | None, None => if vehicle_known (dj_vehicle j) d && driver_known (dj_driver j) d
                  then Ok (tt, put_job j) else Err (PgError foreign_key_violation)
  | _, _ => Err (PgError unique_violation)
  end.

(** [UPDATE ... SET status WHERE id = $1 AND p RETURNING]. *)
Definition update_job (id : string) (p : DispatchJob -> bool) (f : DispatchJob -> DispatchJob) : dispatch_stmt DispatchJob := fun d =>
  match jobs d !! id with
  | None => Err ErrNoRows
  | Some j => if p j then Ok (f j, put_job (f j)) else Err ErrNoRows
  end.

(** [UPDATE ... SET vehicle_id = $2 WHERE id = $1 RETURNING]. *)
Definition set_vehicle (id vehicle : string) : dispatch_stmt DispatchJob := fun d =>
  match jobs d !! id with
  | None => Err ErrNoRows
  | Some j =>
      let j' := with_vehicle j (Some vehicle) in
      match find_row (index_clash j') (jobs d) with
      | Some _ => Err (PgError unique_violation)
      | None => if vehicle_known (Some vehicle) d then Ok (j', put_job j') else Err (PgError foreign_key_violation)
      end
  end.

Definition insert_booking (b : CharterBooking) : dispatch_stmt unit := fun d =>
  match bookings d !! cb_id b, find_row (fun x => bool_decide (cb_reference x = cb_reference b)) (bookings d) with
  | None, None => if cb_starts b <? cb_ends b then Ok (tt, put_booking b) else Err (PgError check_violation)
  | _, _ => Err (PgError unique_violation)
  end.

Definition booking_by_reference (reference : string) (d : DispatchDB) : result CharterBooking :=
  match find_row (fun x => bool_decide (cb_reference x = reference)) (bookings d) with
  | Some b => Ok b
  | None => Err ErrNoRows
  end.

(** Primary key (booking_id, vehicle_id), unique dispatch_job_id, booking reference. *)
Definition insert_link (v : CharterVehicle) : dispatch_stmt unit := fun d =>
  match charter_vehicles d !! cv_job v,
        find_row (fun x => bool_decide (cv_booking x = cv_booking v) && bool_decide (cv_vehicle x = cv_vehicle v))
          (charter_vehicles d) with
  | None, None => if decide (is_Some (bookings d !! cv_booking v)) then Ok (tt, put_link v)
                  else Err (PgError foreign_key_violation)
  | _, _ => Err (PgError unique_violation)
  end.

(** [INSERT ... ON CONFLICT (sub) DO NOTHING]; [true] when a row was inserted. *)
Definition insert_driver_if_absent (x : Driver) : dispatch_stmt bool := fun d =>
  match drivers d !! dv_sub x with
  | Some _ => Ok (false, fun d => d)
  | None => Ok (true, put_driver x)
  end.

(** [INSERT ... ON CONFLICT (sub) DO UPDATE SET name, license_no RETURNING (xmax = 0)]. *)
Definition upsert_driver_row (sub name license : string) : dispatch_stmt bool := fun d =>
  match drivers d !! sub with
  | Some x => Ok (false, put_driver (mkDriver sub name license (dv_status x)))
  | None => Ok (true, put_driver (mkDriver sub name license "active"))
  end.

Definition set_driver_status (sub st : string) : dispatch_stmt Z := fun d =>
  match drivers d !! sub with
  | None => Ok (0, fun d => d)
  | Some x => Ok (1, put_driver (mkDriver (dv_sub x) (dv_name x) (dv_license x) st))
  end.

(** [UPDATE charter_bookings SET status = 'cancelled', cancelled_at = now() WHERE id AND status = 'confirmed']. *)
Definition cancel_booking (id : string) (now : Z) : dispatch_stmt CharterBooking := fun d =>
  match bookings d !! id with
  | None => Err ErrNoRows
  | Some b =>
      if decide (cb_status b = "confirmed") then
        let b' := mkBooking (cb_id b) (cb_reference b) (cb_customer b) (cb_contact b) (cb_starts b) (cb_ends b)
                    "cancelled" (cb_notes b) (cb_created_by b) (cb_created b) (Some now) in
        Ok (b', put_booking b')
      else Err ErrNoRows
  end.

(** The jobs a booking's cancellation touches. *)
Definition booked_active (booking : string) (d : DispatchDB) (j : DispatchJob) : bool :=
  match charter_vehicles d !! dj_id j with
  | Some v => bool_decide (cv_booking v = booking) && active (dj_status j)
  | None => false
  end.

Definition cancel_job_row (j : DispatchJob) : DispatchJob := with_job_status j "cancelled" (dj_accepted j).

Definition cancel_booked_jobs (booking : string) : dispatch_stmt (list string) := fun d =>
  Ok (dj_id <$> filter (fun j => booked_active booking d j = true) (rows (jobs d)),
      fun d => set_jobs ((fun j => if booked_active booking d j then cancel_job_row j else j) <$> jobs d) d).

(** ** Configuration *)

Section Config.
Context `{Runtime}.

Definition hours_limit (name : string) : float64 :=
  match ParseFloat (getenv name) with
  | Some v => if flt fzero v then v else float_of_Z 10
  | None => float_of_Z 10
  end.

Definition dispatchMaxShiftHours : float64 := hours_limit "DISPATCH_MAX_SHIFT_HOURS".
Definition dispatchMaxDailyHours : float64 := hours_limit "DISPATCH_MAX_DAILY_HOURS".

Definition dispatchTimezone : string :=
  let tz := getenv "DISPATCH_TIMEZONE" in if decide (tz = "") then "UTC" else tz.
End Config.

(** [t.Sub(u)] in nanoseconds, saturated, of instants in milliseconds. *)
Definition time_Sub (t u : Z) : Z := Z.max (- two63) (Z.min (two63 - 1) ((t - u) * 1000000)).

(** [Duration.Hours]. *)
Definition duration_Hours (ns : Z) : float64 :=
  fadd (float_of_Z (Z.quot ns 3600000000000)) (SFdiv 53 1024 (float_of_Z (Z.rem ns 3600000000000)) (float_of_Z 3600000000000)).

(** ** Dispatch handlers *)

Definition dispatch_job_json (j : DispatchJob) : json :=
  JObj ([("id", JStr (dj_id j)); ("driver_sub", JStr (dj_driver j))] ++ jopt_field "vehicle_id" (dj_vehicle j)
    ++ [("route", JStr (dj_route j))] ++ jopt_time "starts_at" (dj_starts j) ++ jopt_time "ends_at" (dj_ends j)
    ++ [("status", JStr (dj_status j)); ("created_at", JTime (dj_created j))] ++ jopt_time "accepted_at" (dj_accepted j)).

(** A conjunct [column = $n] of a query built in the handler. *)
Record condition : Type := mkCondition { cn_param : nat; cn_column : DispatchJob -> string }.

Definition list_jobs_args (st driver : string) : list string :=
  (if decide (st = "") then [] else [st]) ++ (if decide (driver = "") then [] else [driver]).

Definition list_jobs_conds (st driver : string) : list condition :=
  (if decide (st = "") then [] else [mkCondition 1 dj_status]) ++
  (if decide (driver = "") then [] else [mkCondition 2 dj_driver]).

(** The server accepts a query whose parameters are numbered 1 to the number
    of arguments, and rejects one that leaves a parameter without a type. *)
Definition run_conditions (conds : list condition) (args : list string) (ts : list DispatchJob) : result (list DispatchJob) :=
  if decide (map cn_param conds = seq 1 (length args))
  then Ok (filter (fun j => forallb (fun c => bool_decide (args !! (cn_param c - 1)%nat = Some (cn_column c j))) conds = true) ts)
  else Err (PgError "42P18").

Record createDispatchJobRequest : Type := mkCreateJob {
  jr_driver : string; jr_vehicle : option string; jr_route : string; jr_starts : option Z; jr_ends : option Z
}.

Section Handlers.
Context `{Runtime} `{PgNumeric} `{PgServer}.

Abbreviation DM := (M DispatchDB Workflows).

Definition ListDispatchJobs (st driver : string) : DM response :=
  try! js := db_query (fun d => result_map (fun l => take 200 (order_desc dj_created l))
               (run_conditions (list_jobs_conds st driver) (list_jobs_args st driver) (rows (jobs d))))
    catch e => infra_internal "list dispatch jobs" e in
  reply 200 (JObj [("jobs", JList (map dispatch_job_json js))]).

(** The hours one active job counts for, in milliseconds; an open end counts
    as the maximal shift. *)
Definition job_ms (maxHours : Z) (j : DispatchJob) : Z :=
  match dj_starts j with
  | None => 0
  | Some s => match dj_ends j with Some e => e - s | None => maxHours * 3600000 end
  end.

Definition on_day (driver : string) (day : Z * Z) (j : DispatchJob) : bool :=
  bool_decide (dj_driver j = driver) && active (dj_status j) &&
  match dj_starts j with Some s => (day.1 <=? s) && (s <? day.2) | None => false end.

(** The daily total: [sum(EXTRACT(EPOCH FROM ...)) / 3600.0], scanned into a [float64].
    The [int(maxShift)] argument of make_interval must fit an integer. *)
Definition driver_day_hours (driver : string) (start : Z) (maxShift : float64) (d : DispatchDB) : result float64 :=
  match trunc_int maxShift with
  | Some h =>
      if in_int4 h then
        match civil_day dispatchTimezone start with
        | Err e => Err e
        | Ok day =>
            let ms := msum (fun _ j => if on_day driver day j then job_ms h j else 0) (jobs d) in
            float_of_numeric (numeric_div (Q2Qc (Qmake ms 1000)) (Q2Qc (Qmake 3600 1)))
        end
      else Err (ErrMsg "int4 parameter out of range")
  | None => Err (ErrMsg "int4 parameter out of range")
  end.

Definition shift_error (planned maxShift : float64) : string :=
  "shift exceeds the hours-of-service limit (" +:+ FormatFloat_f 1 planned +:+ "h > " +:+ FormatFloat_f 0 maxShift +:+ "h max)".

Definition daily_error (dayTotal planned maxDaily : float64) : string :=
  "driver daily hours-of-service exceeded (" +:+ FormatFloat_f 1 dayTotal +:+ "h scheduled + " +:+
  FormatFloat_f 1 planned +:+ "h new > " +:+ FormatFloat_f 0 maxDaily +:+ "h max)".

(** The planned hours of a request; [None] when one shift is too long. *)
Definition plannedHours (r : createDispatchJobRequest) : float64 :=
  match jr_starts r, jr_ends r with
  | Some s, Some e => duration_Hours (time_Sub e s)
  | _, _ => dispatchMaxShiftHours
  end.

(** The hours-of-service phase: [Some] answer refuses the request. *)
Definition check_hours (r : createDispatchJobRequest) : DM (option response) :=
  let maxShift := dispatchMaxShiftHours in
  let planned := plannedHours r in
  let too_long := match jr_starts r, jr_ends r with Some _, Some _ => flt maxShift planned | _, _ => false end in
  if too_long then gret (Some (json_error 422 (shift_error planned maxShift)))
  else match jr_starts r with
  | None => gret None
  | Some start =>
      let! dayTotal := db_query (driver_day_hours (jr_driver r) start maxShift) in
      match dayTotal with
      | Err e => let! a := infra_internal "compute driver daily hours" e in gret (Some a)
      | Ok dayTotal =>
          let maxDaily := dispatchMaxDailyHours in
          if flt maxDaily (fadd dayTotal planned)
          then gret (Some (json_error 422 (daily_error dayTotal planned maxDaily)))
          else gret None
      end
  end.

Definition dispatch_event (j : DispatchJob) : list (string * json) :=
  [("job_id", JStr (dj_id j)); ("driver_id", JStr (dj_driver j)); ("bus_id", jopt_str (dj_vehicle j));
   ("route_id", JStr (dj_route j)); ("shift_start", timeValue (dj_starts j)); ("shift_end", timeValue (dj_ends j))].

(** The insert of the transaction, its commit, the event and the signal. *)
Definition insert_dispatch_job (tx : Tx DispatchDB) (r : createDispatchJobRequest) : DM response :=
  let! now := gets w_now in
  let! id := new_uuid in
  let! ins := tx_exec tx (fun d => match uuid_arg (jr_vehicle r) with
                                   | Err e => Err e
                                   | Ok v => let j := mkJob id (jr_driver r) v (jr_route r) (jr_starts r) (jr_ends r)
                                                        "assigned" now None in
                                             result_map (fun x => (j, x.2)) (insert_job j d)
                                   end) in
  match ins with
  | Err (PgError code) =>
      if decide (code = foreign_key_violation)
      then reply_error 422 "vehicle_id or driver_sub does not reference a known vehicle/driver"
      else if decide (code = unique_violation)
      then reply_error 409 "driver or vehicle already has an active dispatch job"
      else infra_internal "create dispatch job" (PgError code)
  | Err e => infra_internal "create dispatch job" e
  | Ok (j, tx) =>
      try! _ := commit tx catch e => infra_internal "commit dispatch job" e in
      do! publish "dispatch.job.assigned" (dispatch_event j) in
      do! Signal (DispatchWorkflowIDPrefix +:+ dj_id j) SignalJobAssigned (dispatch_event j) in
      reply 201 (dispatch_job_json j)
  end.

(** The transaction of job creation: the conflict check, then the insert. *)
Definition create_dispatch_tx (r : createDispatchJobRequest) : DM response :=
  try! tx := begin catch e => infra_internal "begin dispatch job transaction" e in
  let! conflict := tx_query tx (fun d =>
    match uuid_arg (jr_vehicle r) with
    | Err e => Err e
    | Ok v => match find_row (conflicting (jr_driver r) v (jr_starts r) (jr_ends r)) (jobs d) with
              | Some j => Ok (if decide (dj_driver j = jr_driver r) then "driver" else "vehicle")
              | None => Err ErrNoRows
              end
    end) in
  match conflict with
  | Ok c => if decide (c = "driver") then reply_error 409 "driver already has an overlapping active dispatch job"
            else reply_error 409 "vehicle already assigned to an overlapping active dispatch job"
  | Err ErrNoRows => insert_dispatch_job tx r
  | Err e => infra_internal "dispatch conflict check" e
  end.

Definition CreateDispatchJob (req : option createDispatchJobRequest) : DM response :=
  match req with
  | None => reply_error 400 ("body must include " +:+ quoted "driver_sub")
  | Some r =>
      if decide (jr_driver r = "") then reply_error 400 ("body must include " +:+ quoted "driver_sub")
      else if match jr_starts r, jr_ends r with Some s, Some e => negb (s <? e) | _, _ => false end
      then reply_error 400 "ends_at must be after starts_at"
      else
        let! refused := check_hours r in
        match refused with
        | Some a => gret a
        | None => create_dispatch_tx r
        end
  end.

(** The update of an acceptance, on the pool, and the signal. *)
Definition accept_job (caller id : string) : DM response :=
  let! now := gets w_now in
  let! r := db_exec (fun d => match uuid_in id with
                       | Err e => Err e
                       | Ok id => update_job id (fun j => bool_decide (dj_status j = "assigned") && bool_decide (dj_driver j = caller))
                                    (fun j => with_job_status j "accepted" (Some now)) d
                       end) in
  match r with
  | Err ErrNoRows => reply_error 404 "job not found, not in assigned status, or assigned to another driver"
  | Err e => infra_internal "accept dispatch job" e
  | Ok j =>
      do! Signal (DispatchWorkflowIDPrefix +:+ dj_id j) SignalJobAccepted
            [("job_id", JStr (dj_id j)); ("driver_id", JStr (dj_driver j))] in
      reply 200 (dispatch_job_json j)
  end.

Definition AcceptDispatchJob (ctx : claims) (id : string) : DM response :=
  let caller := Subject ctx in
  if decide (caller = "") then reply_error 401 "unauthorized"
  else
    let! st := db_query (fun d => match drivers d !! caller with Some x => Ok (dv_status x) | None => Err ErrNoRows end) in
    match st with
    | Err ErrNoRows => reply_error 403 "driver not registered (POST /v1/drivers/register first)"
    | Err e => infra_internal "check driver status" e
    | Ok st =>
        if negb (bool_decide (st = "active")) then reply_error 403 ("driver is not active (status=" +:+ st +:+ ")")
        else accept_job caller id
    end.

Definition CancelDispatchJob (id : string) : DM response :=
  let! r := db_exec (fun d => match uuid_in id with
                       | Err e => Err e
                       | Ok id => update_job id (fun j => active (dj_status j)) cancel_job_row d
                       end) in
  match r with
  | Err ErrNoRows => reply_error 409 "job not found or not in an active status"
  | Err e => infra_internal "cancel dispatch job" e
  | Ok j =>
      do! Signal (DispatchWorkflowIDPrefix +:+ dj_id j) SignalJobCancelled
            [("job_id", JStr (dj_id j)); ("driver_id", JStr (dj_driver j))] in
      reply 200 (dispatch_job_json j)
  end.

(** The update of the swap's transaction, its commit and the event. *)
Definition swap_vehicle_tx (tx : Tx DispatchDB) (job : DispatchJob) (vehicle reason : string) : DM response :=
  let! upd := tx_exec tx (fun d => match uuid_in vehicle with Err e => Err e | Ok v => set_vehicle (dj_id job) v d end) in
  match upd with
  | Err (PgError code) =>
      if decide (code = foreign_key_violation)
      then reply_error 422 "vehicle_id does not reference a known vehicle"
      else infra_internal "swap vehicle" (PgError code)
  | Err e => infra_internal "swap vehicle" e
  | Ok (updated, tx) =>
      try! _ := commit tx catch e => infra_internal "commit vehicle swap" e in
      let! now := gets w_now in
      do! publish "dispatch.vehicle_swapped"
            [("job_id", JStr (dj_id job)); ("driver_sub", JStr (dj_driver job));
             ("old_vehicle_id", jopt_str (dj_vehicle job)); ("new_vehicle_id", JStr vehicle);
             ("reason", JStr reason); ("swapped_at", JTime now)] in
      reply 200 (dispatch_job_json updated)
  end.

Definition SwapDispatchVehicle (id : string) (req : option (string * string)) : DM response :=
  match req with
  | None => reply_error 400 ("body must include " +:+ quoted "vehicle_id" +:+ " and " +:+ quoted "reason")
  | Some (vehicle, reason) =>
      if decide (vehicle = "" \/ reason = "")
      then reply_error 400 ("body must include " +:+ quoted "vehicle_id" +:+ " and " +:+ quoted "reason")
      else
        try! tx := begin catch e => infra_internal "begin vehicle swap" e in
        let! loaded := tx_query tx (fun d =>
          match uuid_in id with
          | Err e => Err e
          | Ok id => match jobs d !! id with
                     | Some j => if active (dj_status j) then Ok j else Err ErrNoRows
                     | None => Err ErrNoRows
                     end
          end) in
        match loaded with
        | Err ErrNoRows => reply_error 409 "job not found or not in an active status"
        | Err e => infra_internal "load job for vehicle swap" e
        | Ok job =>
            try! conflict := tx_query tx (fun d =>
              match uuid_in vehicle with
              | Err e => Err e
              | Ok v => Ok (match find_row (fun x => negb (bool_decide (dj_id x = dj_id job)) && active (dj_status x) &&
                                      holds (tri_and (tri_eq (dj_vehicle x) (Some v))
                                               (window_conflict (dj_starts job) (dj_ends job) x))) (jobs d) with
                            | Some _ => true | None => false end)
              end) catch e => infra_internal "swap conflict check" e in
            if (conflict : bool) then reply_error 409 "vehicle already assigned to an overlapping active dispatch job"
            else swap_vehicle_tx tx job vehicle reason
        end
  end.

(** [Activities.RequeueDispatchJob], run by the dispatch workflow. *)
Definition RequeueDispatchJob (jobID : string) : DM (result unit) :=
  let! r := db_exec (fun d => match uuid_in jobID with
                       | Err e => Err e
                       | Ok id => update_job id (fun j => bool_decide (dj_status j = "assigned"))
                                    (fun j => with_job_status j "requeued" (dj_accepted j)) d
                       end) in
  match r with
  | Ok _ | Err ErrNoRows => gret (Ok tt)
  | Err e => gret (Err e)
  end.

(** ** Driver handlers *)

(** [driverBody.validate]: the trimmed name and licence, or what is wrong. *)
Definition validate_driver (name license : string) : string + string * string :=
  let name := TrimSpace name in
  let license := TrimSpace license in
  if decide (name = "") then inl "name is required (max 120 chars)"
  else if (120 <? String.length name)%nat then inl "name is required (max 120 chars)"
  else if (String.length license <? 4)%nat || (64 <? String.length license)%nat
  then inl "license_no is required (4–64 chars)"
  else inr (name, license).

(** The body is the decode error or the name and licence. *)
Definition RegisterDriver (ctx : claims) (body : string + string * string) : DM response :=
  let sub := Subject ctx in
  if decide (sub = "") then reply_error 401 "unauthorized"
  else match body with
  | inl err => reply_error 400 ("invalid JSON body: " +:+ err)
  | inr (name, license) =>
      match validate_driver name license with
      | inl msg => reply_error 400 msg
      | inr (name, license) =>
          try! inserted := db_exec (insert_driver_if_absent (mkDriver sub name license "active"))
            catch e => infra_internal "register driver" e in
          if (inserted : bool)
          then reply 201 (JObj [("sub", JStr sub); ("name", JStr name); ("registered", JBool true)])
          else reply 200 (JObj [("sub", JStr sub); ("registered", JBool true); ("already_registered", JBool true);
                 ("message", JStr "already registered; profile corrections go through an operator (POST /v1/drivers)")])
      end
  end.

Definition upsertDriver (sub name license : string) : DM (result bool) := db_exec (upsert_driver_row sub name license).

Definition CreateDriver (body : string + string * string * string) : DM response :=
  match body with
  | inl err => reply_error 400 ("invalid JSON body: " +:+ err)
  | inr (sub, name, license) =>
      let sub := TrimSpace sub in
      if bool_decide (sub = "") || (128 <? String.length sub)%nat
      then reply_error 400 "sub (Keycloak subject) is required (max 128 chars)"
      else match validate_driver name license with
      | inl msg => reply_error 400 msg
      | inr (name, license) =>
          try! inserted := upsertDriver sub name license catch e => infra_internal "upsert driver" e in
          reply (if (inserted : bool) then 201 else 200)
            (JObj [("sub", JStr sub); ("name", JStr name); ("registered", JBool true)])
      end
  end.

Definition SetDriverStatus (sub : string) (body : string + string) : DM response :=
  match body with
  | inl err => reply_error 400 ("invalid JSON body: " +:+ err)
  | inr st =>
      if negb (bool_decide (st ∈ ["active"; "off-duty"; "suspended"]))
      then reply_error 400 "status must be active|off-duty|suspended"
      else
        try! n := db_exec (set_driver_status sub st) catch e => infra_internal "set driver status" e in
        if decide (n = 0) then reply_error 404 "driver not found"
        else reply 200 (JObj [("sub", JStr sub); ("status", JStr st)])
  end.

(** ** Charter handlers *)

Record createCharterRequest : Type := mkCreateCharter {
  cq_reference : string; cq_customer : string; cq_contact : string; cq_starts : option Z; cq_ends : option Z;
  cq_vehicles : list string; cq_notes : string
}.

Definition charterDriverSub (reference vehicle : string) : string := "charter:" +:+ reference +:+ ":" +:+ vehicle.

Definition charter_route (reference : string) : string := "charter:" +:+ reference.

Definition booking_fields (b : CharterBooking) : list (string * json) :=
  [("id", JStr (cb_id b)); ("reference", JStr (cb_reference b)); ("customer_name", JStr (cb_customer b));
   ("contact", JStr (cb_contact b)); ("starts_at", JTime (cb_starts b)); ("ends_at", JTime (cb_ends b));
   ("status", JStr (cb_status b)); ("notes", JStr (cb_notes b)); ("created_by", JStr (cb_created_by b));
   ("created_at", JTime (cb_created b))] ++ jopt_time "cancelled_at" (cb_cancelled b).

(** A vehicle of a booking as the API shows it: vehicle and backing job. *)
Definition charter_vehicle_json (v : string * string) : json :=
  JObj [("vehicle_id", JStr v.1); ("dispatch_job_id", JStr v.2)].

(** [omitempty] on the count and on the list. *)
Definition charter_json (b : CharterBooking) (count : Z) (vs : list (string * string)) : json :=
  JObj (booking_fields b ++ (if decide (count = 0) then [] else [("vehicle_count", JInt count)])
        ++ (match vs with [] => [] | _ => [("vehicles", JList (map charter_vehicle_json vs))] end)).

(** The first element that is empty or seen before. *)
Fixpoint bad_vehicle (seen vs : list string) : bool :=
  match vs with
  | [] => false
  | v :: vs' => if bool_decide (v = "") || bool_decide (v ∈ seen) then true else bad_vehicle (v :: seen) vs'
  end.

(** The writes that reserve one vehicle inside the transaction: the job's id
    and the extended transaction, or the answer. *)
Definition write_reservation (tx : Tx DispatchDB) (bookingID reference vehicle : string) (starts ends : Z)
    : DM (response + string * Tx DispatchDB) :=
  let driverSub := charterDriverSub reference vehicle in
  let! drv := tx_exec tx (insert_driver_if_absent (mkDriver driverSub ("Charter placeholder " +:+ reference) "" "off-duty")) in
  match drv with
  | Err e => let! a := infra_internal "insert charter placeholder driver" e in gret (inl a)
  | Ok (_, tx) =>
      let! now := gets w_now in
      let! jobID := new_uuid in
      let! ins := tx_exec tx (fun d => match uuid_in vehicle with
                    | Err e => Err e
                    | Ok v => insert_job (mkJob jobID driverSub (Some v) (charter_route reference) (Some starts) (Some ends)
                                            "assigned" now None) d
                    end) in
      match ins with
      | Err (PgError code) =>
          if decide (code = foreign_key_violation)
          then gret (inl (json_error 422 ("vehicle " +:+ vehicle +:+ " does not reference a known vehicle")))
          else if decide (code = unique_violation)
          then gret (inl (json_error 409 ("vehicle " +:+ vehicle +:+ " was booked concurrently")))
          else let! a := infra_internal "insert charter dispatch job" (PgError code) in gret (inl a)
      | Err e => let! a := infra_internal "insert charter dispatch job" e in gret (inl a)
      | Ok (_, tx) =>
          let! lnk := tx_exec tx (fun d => match uuid_in vehicle with
                        | Err e => Err e
                        | Ok v => insert_link (mkCharterVehicle bookingID v jobID) d
                        end) in
          match lnk with
          | Err e => let! a := infra_internal "link charter vehicle" e in gret (inl a)
          | Ok (_, tx) => gret (inr (jobID, tx))
          end
      end
  end.

(** One round of the loop over the vehicles: the conflict check, then the writes. *)
Definition reserve_vehicle (tx : Tx DispatchDB) (bookingID reference vehicle : string) (starts ends : Z)
    : DM (response + string * Tx DispatchDB) :=
  let! conflict := tx_query tx (fun d =>
    match uuid_in vehicle with
    | Err e => Err e
    | Ok v => Ok (match find_row (fun x => active (dj_status x) &&
                          holds (tri_and (tri_eq (dj_vehicle x) (Some v))
                            (tri_and (tri_or (is_null (dj_starts x)) (tri_lt (dj_starts x) (Some ends)))
                                     (tri_or (is_null (dj_ends x)) (tri_lt (Some starts) (dj_ends x)))))) (jobs d) with
                  | Some _ => true | None => false end)
    end) in
  match conflict with
  | Err e => let! a := infra_internal "charter vehicle conflict check" e in gret (inl a)
  | Ok true => gret (inl (json_error 409 ("vehicle " +:+ vehicle +:+ " already has an overlapping active dispatch job")))
  | Ok false => write_reservation tx bookingID reference vehicle starts ends
  end.

(** The loop over the vehicles, given its round: [reserve_vehicle] in the
    handler, [write_reservation] where the checks have been made before. *)
Abbreviation reservation := (Tx DispatchDB -> string -> string -> string -> Z -> Z -> DM (response + string * Tx DispatchDB)).

Fixpoint reserve_vehicles (reserve : reservation) (tx : Tx DispatchDB) (bookingID reference : string) (starts ends : Z)
    (vs : list string) : DM (response + list (string * string) * Tx DispatchDB) :=
  match vs with
  | [] => gret (inr ([], tx))
  | v :: vs' =>
      let! r := reserve tx bookingID reference v starts ends in
      match r with
      | inl a => gret (inl a)
      | inr (jobID, tx) =>
          let! rest := reserve_vehicles reserve tx bookingID reference starts ends vs' in
          match rest with
          | inl a => gret (inl a)
          | inr (done, tx) => gret (inr ((v, jobID) :: done, tx))
          end
      end
  end.

Definition charter_event (b : CharterBooking) (vs : list string) : list (string * json) :=
  [("booking_id", JStr (cb_id b)); ("reference", JStr (cb_reference b)); ("customer", JStr (cb_customer b));
   ("vehicle_ids", JList (map JStr vs)); ("starts_at", JTime (cb_starts b)); ("ends_at", JTime (cb_ends b))].

(** The reference is taken: the same customer and window replay, anything else conflicts. *)
Definition replay_charter (r : createCharterRequest) (starts ends : Z) : DM response :=
  try! b := db_query (booking_by_reference (cq_reference r)) catch e => infra_internal "load existing charter booking" e in
  if bool_decide (cb_customer b = cq_customer r) && (cb_starts b =? starts) && (cb_ends b =? ends)
  then reply 200 (charter_json b 0 [])
  else reply_error 409 "reference already used by a different charter booking".

(** The advisory lock is one more statement of the transaction. *)
Definition create_charter_tx (reserve : reservation) (operator : string) (r : createCharterRequest) (starts ends : Z) : DM response :=
  try! tx := begin catch e => infra_internal "begin charter booking" e in
  try! _ := tx_query tx (fun _ => Ok tt) catch e => infra_internal "lock charter reference" e in
  let! now := gets w_now in
  let! id := new_uuid in
  let b := mkBooking id (cq_reference r) (cq_customer r) (cq_contact r) starts ends "confirmed" (cq_notes r) operator now None in
  let! ins := tx_exec tx (insert_booking b) in
  match ins with
  | Err (PgError code) =>
      if decide (code = unique_violation) then replay_charter r starts ends
      else infra_internal "insert charter booking" (PgError code)
  | Err e => infra_internal "insert charter booking" e
  | Ok (_, tx) =>
      let! res := reserve_vehicles reserve tx id (cq_reference r) starts ends (cq_vehicles r) in
      match res with
      | inl a => gret a
      | inr (vs, tx) =>
          try! _ := commit tx catch e => infra_internal "commit charter booking" e in
          do! publish "charter.booking.confirmed" (charter_event b (cq_vehicles r)) in
          reply 201 (charter_json b 0 vs)
      end
  end.

(** An absent [time.Time] decodes to the zero time. *)
Definition CreateCharter (ctx : claims) (req : option createCharterRequest) : DM response :=
  match req with
  | None => reply_error 400 ("body must include " +:+ quoted "reference" +:+ " and " +:+ quoted "customer_name")
  | Some r =>
      if decide (cq_reference r = "" \/ cq_customer r = "")
      then reply_error 400 ("body must include " +:+ quoted "reference" +:+ " and " +:+ quoted "customer_name")
      else match cq_starts r, cq_ends r with
      | Some starts, Some ends =>
          if negb (starts <? ends)
          then reply_error 400 "starts_at and ends_at are required and ends_at must be after starts_at"
          else if decide (cq_vehicles r = []) then reply_error 400 "vehicle_ids must name at least one vehicle"
          else if bad_vehicle [] (cq_vehicles r)
          then reply_error 400 "vehicle_ids must be distinct, non-empty vehicle ids"
          else create_charter_tx reserve_vehicle (Subject ctx) r starts ends
      | _, _ => reply_error 400 "starts_at and ends_at are required and ends_at must be after starts_at"
      end
  end.

Definition vehicle_count (d : DispatchDB) (b : CharterBooking) : Z :=
  Z.of_nat (length (filter (fun v => cv_booking v = cb_id b) (rows (charter_vehicles d)))).

Definition ListCharters (st : string) : DM response :=
  try! bs := db_query (fun d => Ok (map (fun b => (b, vehicle_count d b))
               (take 200 (order_desc cb_starts (filter (fun b => st = "" \/ cb_status b = st) (rows (bookings d)))))))
    catch e => infra_internal "list charter bookings" e in
  reply 200 (JObj [("bookings", JList (map (fun x => charter_json x.1 x.2 []) bs))]).

Definition GetCharter (id : string) : DM response :=
  let! r := db_query (fun d => match uuid_in id with
                       | Err e => Err e
                       | Ok id => match bookings d !! id with Some b => Ok b | None => Err ErrNoRows end
                       end) in
  match r with
  | Err ErrNoRows => reply_error 404 "charter booking not found"
  | Err e => infra_internal "load charter booking" e
  | Ok b =>
      try! vs := db_query (fun d => match uuid_in id with
                   | Err e => Err e
                   | Ok id => Ok (map (fun v => (cv_vehicle v, cv_job v))
                       (order_text cv_vehicle (filter (fun v => cv_booking v = id) (rows (charter_vehicles d)))))
                   end) catch e => infra_internal "list charter vehicles" e in
      reply 200 (charter_json b 0 vs)
  end.

Fixpoint signal_cancelled (reference : string) (ids : list string) : DM unit :=
  match ids with
  | [] => gret tt
  | id :: ids' =>
      do! Signal (DispatchWorkflowIDPrefix +:+ id) SignalJobCancelled
            [("job_id", JStr id); ("charter_reference", JStr reference)] in
      signal_cancelled reference ids'
  end.

Definition CancelCharter (id : string) : DM response :=
  try! tx := begin catch e => infra_internal "begin charter cancellation" e in
  let! now := gets w_now in
  let! r := tx_exec tx (fun d => match uuid_in id with Err e => Err e | Ok id => cancel_booking id now d end) in
  match r with
  | Err ErrNoRows => reply_error 409 "charter booking not found or not in confirmed status"
  | Err e => infra_internal "cancel charter booking" e
  | Ok (b, tx) =>
      try! (ids, tx) := tx_exec tx (fun d => match uuid_in id with Err e => Err e | Ok id => cancel_booked_jobs id d end)
        catch e => infra_internal "cancel charter dispatch jobs" e in
      try! _ := commit tx catch e => infra_internal "commit charter cancellation" e in
      do! signal_cancelled (cb_reference b) ids in
      do! publish "charter.booking.cancelled"
            [("booking_id", JStr (cb_id b)); ("reference", JStr (cb_reference b)); ("jobs", JList (map JStr ids))] in
      reply 200 (charter_json b 0 [])
  end.
End Handlers.
