(* ===== verification/DispatchTheorems.v ===== *)
(** * Correctness of dispatch and charters

    An abstract machine of the dispatch tables, [dstep], says in one labelled
    step each what may happen to a job, a driver or a booking; every handler
    of [Dispatch.v], under every fault schedule, takes at most one such step.
    The invariants follow by rule induction on the machine: no driver and no
    vehicle holds two active jobs, and a cancelled charter holds no vehicle.
    The first holds as well when the writes of a creation, an acceptance, a
    swap or a charter run on a later state than their checks ([interleaved]). *)

From S2P Require Import Prelude Codec World Float64 Auth CommerceDb InfraDb Dispatch.

Open Scope Z_scope.
Open Scope go_scope.

(** ** The machine *)

Inductive label : Type :=
| LAssign (j : DispatchJob)
| LAccept (caller id : string)
| LCancel (id : string)
| LRequeue (id : string)
| LSwap (id vehicle : string)
| LDriver (x : Driver)
| LBook (b : CharterBooking) (vs : list (string * string))
| LUnbook (id : string).

(** A row that satisfies the keys of dispatch_jobs and may be added. *)
Definition admissible (j : DispatchJob) (d : DispatchDB) : Prop :=
  jobs d !! dj_id j = None /\ find_row (index_clash j) (jobs d) = None /\
  vehicle_known (dj_vehicle j) d = true /\ driver_known (dj_driver j) d = true.

Definition charter_job (b : CharterBooking) (vehicle canonical id : string) (now : Z) : DispatchJob :=
  mkJob id (charterDriverSub (cb_reference b) vehicle) (Some canonical) (charter_route (cb_reference b))
    (Some (cb_starts b)) (Some (cb_ends b)) "assigned" now None.

(** Adding the placeholder driver of a chartered vehicle. *)
Definition with_placeholder (reference vehicle : string) (d : DispatchDB) : DispatchDB :=
  let sub := charterDriverSub reference vehicle in
  match drivers d !! sub with
  | Some _ => d
  | None => put_driver (mkDriver sub ("Charter placeholder " +:+ reference) "" "off-duty") d
  end.

(** The vehicles of a booking, reserved one after the other. *)
Inductive reserved `{PgServer} (b : CharterBooking) (now : Z) : list (string * string) -> DispatchDB -> DispatchDB -> Prop :=
| reserved_nil d : reserved b now [] d d
| reserved_cons v c id vs d d' :
    uuid_in v = Ok c ->
    let j := charter_job b v c id now in
    let d1 := with_placeholder (cb_reference b) v d in
    admissible j d1 ->
    charter_vehicles d !! id = None ->
    reserved b now vs (put_link (mkCharterVehicle (cb_id b) c id) (put_job j d1)) d' ->
    reserved b now ((v, id) :: vs) d d'.

Definition window_ok (s e : option Z) : Prop :=
  match s, e with Some s, Some e => s < e | _, _ => True end.

Definition cancelled_booking (b : CharterBooking) (now : Z) : CharterBooking :=
  mkBooking (cb_id b) (cb_reference b) (cb_customer b) (cb_contact b) (cb_starts b) (cb_ends b)
    "cancelled" (cb_notes b) (cb_created_by b) (cb_created b) (Some now).

Definition unbooked (id : string) (d : DispatchDB) : DispatchDB :=
  set_jobs ((fun j => if booked_active id d j then cancel_job_row j else j) <$> jobs d) d.

Inductive dstep `{PgServer} (d : DispatchDB) : label -> DispatchDB -> Prop :=
| ds_assign j :
    admissible j d -> dj_status j = "assigned" -> window_ok (dj_starts j) (dj_ends j) ->
    dstep d (LAssign j) (put_job j d)
| ds_accept j x now :
    jobs d !! dj_id j = Some j -> dj_status j = "assigned" ->
    drivers d !! dj_driver j = Some x -> dv_status x = "active" ->
    dstep d (LAccept (dj_driver j) (dj_id j)) (put_job (with_job_status j "accepted" (Some now)) d)
| ds_cancel j :
    jobs d !! dj_id j = Some j -> active (dj_status j) = true ->
    dstep d (LCancel (dj_id j)) (put_job (cancel_job_row j) d)
| ds_requeue j :
    jobs d !! dj_id j = Some j -> dj_status j = "assigned" ->
    dstep d (LRequeue (dj_id j)) (put_job (with_job_status j "requeued" (dj_accepted j)) d)
| ds_swap j v :
    jobs d !! dj_id j = Some j -> active (dj_status j) = true ->
    find_row (index_clash (with_vehicle j (Some v))) (jobs d) = None -> vehicle_known (Some v) d = true ->
    dstep d (LSwap (dj_id j) v) (put_job (with_vehicle j (Some v)) d)
| ds_driver x :
    dstep d (LDriver x) (put_driver x d)
| ds_book b now vs d' :
    bookings d !! cb_id b = None ->
    find_row (fun x => bool_decide (cb_reference x = cb_reference b)) (bookings d) = None ->
    cb_starts b < cb_ends b -> cb_status b = "confirmed" ->
    reserved b now vs (put_booking b d) d' ->
    dstep d (LBook b vs) d'
| ds_unbook b now :
    bookings d !! cb_id b = Some b -> cb_status b = "confirmed" ->
    dstep d (LUnbook (cb_id b)) (unbooked (cb_id b) (put_booking (cancelled_booking b now) d)).

(** ** The invariant *)

Definition same_vehicle (a b : option string) : bool := holds (tri_eq a b).

Record dispatch_inv (d : DispatchDB) : Prop := mkInv {
  inv_key : forall k j, jobs d !! k = Some j -> dj_id j = k;
  inv_dkey : forall k x, drivers d !! k = Some x -> dv_sub x = k;
  inv_bkey : forall k b, bookings d !! k = Some b -> cb_id b = k;
  inv_lkey : forall k v, charter_vehicles d !! k = Some v -> cv_job v = k;
  inv_excl : forall k k' j j', jobs d !! k = Some j -> jobs d !! k' = Some j' -> k <> k' ->
    active (dj_status j) = true -> active (dj_status j') = true ->
    dj_driver j <> dj_driver j' /\ same_vehicle (dj_vehicle j) (dj_vehicle j') = false;
  inv_known : forall k j, jobs d !! k = Some j ->
    vehicle_known (dj_vehicle j) d = true /\ driver_known (dj_driver j) d = true;
  inv_window : forall k j, jobs d !! k = Some j -> window_ok (dj_starts j) (dj_ends j);
  inv_ref : forall k k' b b', bookings d !! k = Some b -> bookings d !! k' = Some b' ->
    cb_reference b = cb_reference b' -> k = k';
  inv_link : forall k v, charter_vehicles d !! k = Some v -> exists b j,
    bookings d !! cv_booking v = Some b /\ jobs d !! k = Some j /\ dj_route j = charter_route (cb_reference b) /\
    (cb_status b = "cancelled" -> active (dj_status j) = false)
}.

Definition empty_dispatch (vs : gset string) : DispatchDB := mkDispatchDB ∅ ∅ vs ∅ ∅.

Lemma empty_dispatch_inv vs : dispatch_inv (empty_dispatch vs).
Proof. split; simpl; intros *; rewrite ?lookup_empty; done. Qed.

Lemma tri_eq_sym a b : holds (tri_eq a b) = holds (tri_eq b a).
Proof. destruct a, b; simpl; try done. repeat case_bool_decide; simplify_eq; done. Qed.

(** A row the indexes admit shares no resource with another active row. *)
Lemma no_clash j d k x :
  dispatch_inv d -> find_row (index_clash j) (jobs d) = None -> jobs d !! k = Some x -> k <> dj_id j ->
  active (dj_status j) = true -> active (dj_status x) = true ->
  dj_driver j <> dj_driver x /\ same_vehicle (dj_vehicle j) (dj_vehicle x) = false.
Proof.
  intros Hi Hn Hk Hne Hj Hx. pose proof (proj1 (find_row_None _ _) Hn k x Hk) as Hc.
  unfold index_clash in Hc. rewrite Hj, Hx, (inv_key d Hi k x Hk), bool_decide_eq_false_2 in Hc by done.
  simpl in Hc. apply orb_false_iff in Hc as [Hd Hv]. apply bool_decide_eq_false in Hd.
  split; [by intros E; rewrite E in Hd|]. unfold same_vehicle. by rewrite tri_eq_sym.
Qed.

(** Rewriting one job: what must hold of the new row for the invariant. *)
Lemma put_job_inv j d :
  dispatch_inv d ->
  (active (dj_status j) = true -> forall k x, jobs d !! k = Some x -> k <> dj_id j -> active (dj_status x) = true ->
     dj_driver j <> dj_driver x /\ same_vehicle (dj_vehicle j) (dj_vehicle x) = false) ->
  vehicle_known (dj_vehicle j) d = true -> driver_known (dj_driver j) d = true ->
  window_ok (dj_starts j) (dj_ends j) ->
  (forall o, jobs d !! dj_id j = Some o -> dj_route j = dj_route o /\
     (active (dj_status o) = false -> active (dj_status j) = false)) ->
  dispatch_inv (put_job j d).
Proof.
  intros Hi Hex Hv Hd Hw Ho. destruct Hi as [Hk Hdk Hbk Hlk He Hkn Hwn Hr Hl].
  split; simpl; try done.
  - intros k x [[<- <-]|[? ?]]%lookup_insert_Some; eauto.
  - intros k k' x x' [[<- <-]|[Hne Hx]]%lookup_insert_Some [[<- <-]|[Hne' Hx']]%lookup_insert_Some Hkk Ha Ha'; eauto.
    + done.
    + destruct (Hex Ha' k x Hx) as [E1 E2]; [congruence|done|]. split; [congruence|].
      unfold same_vehicle in *. by rewrite tri_eq_sym.
  - intros k x [[<- <-]|[? ?]]%lookup_insert_Some; [done|by apply (Hkn k)].
  - intros k x [[<- <-]|[? ?]]%lookup_insert_Some; [done|by eapply Hwn].
  - intros k v Hkv. destruct (Hl k v Hkv) as (b & o & Hb & Hjo & Hrt & Hc). exists b.
    destruct (decide (k = dj_id j)) as [->|Hne].
    + exists j. rewrite lookup_insert_eq. destruct (Ho o Hjo) as [-> Hst]. split_and!; auto.
    + exists o. rewrite lookup_insert_ne by done. done.
Qed.

(** A row whose status only moves keeps the invariant. *)
Lemma move_job_inv j j' d :
  dispatch_inv d -> jobs d !! dj_id j = Some j ->
  dj_id j' = dj_id j -> dj_driver j' = dj_driver j -> dj_vehicle j' = dj_vehicle j -> dj_route j' = dj_route j ->
  dj_starts j' = dj_starts j -> dj_ends j' = dj_ends j ->
  (active (dj_status j') = true -> active (dj_status j) = true) ->
  dispatch_inv (put_job j' d).
Proof.
  intros Hi Hj E1 E2 E3 E4 E5 E6 Ha. destruct (inv_known d Hi _ _ Hj). apply put_job_inv; rewrite ?E1, ?E2, ?E3, ?E5, ?E6; try done.
  - intros Ha' k x Hk Hne Hx. by apply (inv_excl d Hi (dj_id j) k); auto.
  - by apply (inv_window d Hi (dj_id j)).
  - intros o Ho. simplify_eq. split; [done|]. destruct (active (dj_status j')); [|done]. intros E. by rewrite Ha in E.
Qed.

Lemma put_driver_inv x d : dispatch_inv d -> dispatch_inv (put_driver x d).
Proof.
  intros [Hk Hdk Hbk Hlk He Hkn Hwn Hr Hl]. split; simpl; try done.
  - intros k y [[<- <-]|[? ?]]%lookup_insert_Some; eauto.
  - intros k j Hj. destruct (Hkn k j Hj) as [H1 H2]. split; [done|].
    unfold driver_known in *. simpl. apply bool_decide_eq_true in H2. apply bool_decide_eq_true.
    destruct (decide (dv_sub x = dj_driver j)) as [->|]; [by rewrite lookup_insert_eq|by rewrite lookup_insert_ne].
Qed.

Lemma with_placeholder_inv r v d : dispatch_inv d -> dispatch_inv (with_placeholder r v d).
Proof. unfold with_placeholder. intros Hi. destruct (drivers d !! _); [done|]. by apply put_driver_inv. Qed.

Lemma put_booking_inv b d :
  dispatch_inv d -> bookings d !! cb_id b = None ->
  find_row (fun x => bool_decide (cb_reference x = cb_reference b)) (bookings d) = None ->
  dispatch_inv (put_booking b d).
Proof.
  intros [Hk Hdk Hbk Hlk He Hkn Hwn Hr Hl] Hn Hf. split; simpl; try done.
  - intros k y [[<- <-]|[? ?]]%lookup_insert_Some; eauto.
  - pose proof (proj1 (find_row_None _ _) Hf) as Hf'.
    intros k k' x x' [[<- <-]|[Hne Hx]]%lookup_insert_Some [[<- <-]|[Hne' Hx']]%lookup_insert_Some E; eauto.
    + specialize (Hf' _ _ Hx'). cbn in Hf'. by rewrite bool_decide_eq_true_2 in Hf'.
    + specialize (Hf' _ _ Hx). cbn in Hf'. by rewrite bool_decide_eq_true_2 in Hf'.
  - intros k v Hkv. destruct (Hl k v Hkv) as (b' & o & Hb & ?). exists b', o.
    rewrite lookup_insert_ne; [done|]. congruence.
Qed.

Lemma put_link_inv v d b j :
  dispatch_inv d -> bookings d !! cv_booking v = Some b -> jobs d !! cv_job v = Some j ->
  dj_route j = charter_route (cb_reference b) -> cb_status b <> "cancelled" ->
  dispatch_inv (put_link v d).
Proof.
  intros [Hk Hdk Hbk Hlk He Hkn Hwn Hr Hl] Hb Hj Hrt Hc. split; simpl; try done.
  - intros k y [[<- <-]|[? ?]]%lookup_insert_Some; eauto.
  - intros k y [[<- <-]|[? ?]]%lookup_insert_Some; [|eauto]. exists b, j. done.
Qed.

Section Machine.
Context `{PgServer}.

Lemma admissible_inv j d :
  dispatch_inv d -> admissible j d -> window_ok (dj_starts j) (dj_ends j) -> dispatch_inv (put_job j d).
Proof.
  intros Hi (Hn & Hf & Hv & Hd) Hw. apply put_job_inv; try done.
  - intros Ha k x Hk Hne Hx. by apply (no_clash j d k x).
  - by rewrite Hn.
Qed.

Lemma reserved_bookings b now vs d d' : reserved b now vs d d' -> bookings d' = bookings d.
Proof.
  induction 1 as [|v c id vs d d' Hu j d1 Ha Hl Hr IH]; [done|]. rewrite IH. simpl. subst d1.
  unfold with_placeholder. by destruct (drivers d !! _).
Qed.

Lemma reserved_inv b now vs d d' :
  reserved b now vs d d' -> cb_starts b < cb_ends b -> cb_status b = "confirmed" ->
  bookings d !! cb_id b = Some b -> dispatch_inv d -> dispatch_inv d'.
Proof.
  induction 1 as [|v c id vs d d' Hu j d1 Ha Hl Hr IH]; intros Hw Hc Hb Hi; [done|].
  assert (bookings d1 = bookings d) as Eb by (subst d1; unfold with_placeholder; by destruct (drivers d !! _)).
  apply IH; try done; [by simpl; rewrite Eb|].
  apply (put_link_inv _ _ b j); simpl; rewrite ?Eb, ?lookup_insert_eq, ?Hc; try done.
  apply admissible_inv; [by apply with_placeholder_inv|done|done].
Qed.

Lemma unbooked_inv b now d :
  dispatch_inv d -> bookings d !! cb_id b = Some b -> dispatch_inv (unbooked (cb_id b) (put_booking (cancelled_booking b now) d)).
Proof.
  intros [Hk Hdk Hbk Hlk He Hkn Hwn Hr Hl] Hb.
  set (d1 := put_booking (cancelled_booking b now) d).
  set (f := fun j => if booked_active (cb_id b) d1 j then cancel_job_row j else j).
  assert (forall j, dj_id (f j) = dj_id j /\ dj_driver (f j) = dj_driver j /\ dj_vehicle (f j) = dj_vehicle j /\
            dj_starts (f j) = dj_starts j /\ dj_ends (f j) = dj_ends j /\ dj_route (f j) = dj_route j /\
            (active (dj_status (f j)) = true -> active (dj_status j) = true)) as Hf.
  { intros j. unfold f. by destruct (booked_active _ _ _). }
  assert (forall k y, jobs (unbooked (cb_id b) d1) !! k = Some y -> exists j, jobs d !! k = Some j /\ y = f j) as Hg.
  { intros k y. unfold unbooked. simpl. rewrite lookup_fmap. change (jobs d1) with (jobs d).
    destruct (jobs d !! k) as [j|]; simpl; [|done]. intros [= <-]. by exists j. }
  split.
  - intros k y (j & Hj & ->)%Hg. destruct (Hf j) as (-> & _). eauto.
  - exact Hdk.
  - simpl. intros k y [[<- <-]|[? ?]]%lookup_insert_Some; eauto.
  - exact Hlk.
  - intros k k' y y' (j & Hj & ->)%Hg (j' & Hj' & ->)%Hg Hne Ha Ha'.
    destruct (Hf j) as (_ & -> & -> & _ & _ & _ & Hs), (Hf j') as (_ & -> & -> & _ & _ & _ & Hs'). by apply (He k k'); auto.
  - intros k y (j & Hj & ->)%Hg. destruct (Hf j) as (_ & -> & -> & _). by apply (Hkn k).
  - intros k y (j & Hj & ->)%Hg. destruct (Hf j) as (_ & _ & _ & -> & -> & _). by apply (Hwn k).
  - simpl. intros k k' x x' [[<- <-]|[Hne Hx]]%lookup_insert_Some [[<- <-]|[Hne' Hx']]%lookup_insert_Some E; eauto.
  - simpl. intros k v Hkv. destruct (Hl k v Hkv) as (b' & j & Hb' & Hj & Hrt & Hc).
    rewrite lookup_fmap, Hj. simpl.
    destruct (decide (cv_booking v = cb_id b)) as [E|E].
    + rewrite E in Hb'. simplify_eq. exists (cancelled_booking b now), (f j). rewrite E, lookup_insert_eq.
      destruct (Hf j) as (_ & _ & _ & _ & _ & -> & _). split_and!; try done. intros _.
      unfold f, booked_active. simpl. rewrite (Hk _ _ Hj), Hkv, E, bool_decide_eq_true_2 by done. simpl.
      by destruct (active (dj_status j)) eqn:Ea.
    + exists b', (f j). rewrite lookup_insert_ne by done. destruct (Hf j) as (_ & _ & _ & _ & _ & -> & Hs).
      split_and!; try done. intros Hcc. specialize (Hc Hcc).
      destruct (active (dj_status (f j))); [|done]. by rewrite Hs in Hc.
Qed.

(** Every step of the machine keeps the invariant. *)
Lemma dstep_inv d l d' : dstep d l d' -> dispatch_inv d -> dispatch_inv d'.
Proof.
  destruct 1 as [j Ha Hs Hw|j x now Hj Hs Hx Hxa|j Hj Ha|j Hj Hs|j v Hj Ha Hf Hv|x|b now vs d' Hn Hf Hw Hs Hr|b now Hb Hs]; intros Hi.
  - by apply admissible_inv.
  - apply (move_job_inv j); try done. by rewrite Hs.
  - apply (move_job_inv j); done.
  - apply (move_job_inv j); done.
  - apply put_job_inv; try done; simpl.
    + intros Ha' k x Hk Hne Hx. exact (no_clash _ _ _ _ Hi Hf Hk Hne Ha' Hx).
    + by apply (inv_known d Hi (dj_id j)).
    + by apply (inv_window d Hi (dj_id j)).
    + intros o Ho. by simplify_eq.
  - by apply put_driver_inv.
  - eapply reserved_inv; try done; [simpl; by rewrite lookup_insert_eq|]. by apply put_booking_inv.
  - by apply unbooked_inv.
Qed.
End Machine.

(** ** The handlers refine the machine *)

(** The requests that write, and the insert phase of a creation whose checks
    ran earlier, against an older state. *)
Inductive dispatch_op : Type :=
| OCreate (req : option createDispatchJobRequest)
| OLateInsert (r : createDispatchJobRequest)
| OAccept (ctx : claims) (id : string)
| OCancel (id : string)
| OSwap (id : string) (req : option (string * string))
| ORequeue (id : string)
| ORegister (ctx : claims) (body : string + string * string)
| OCreateDriver (body : string + string * string * string)
| OSetDriverStatus (sub : string) (body : string + string)
| OBook (ctx : claims) (req : option createCharterRequest)
| OUnbook (id : string).

Definition window_okb (s e : option Z) : bool :=
  match s, e with Some s, Some e => s <? e | _, _ => true end.

Lemma window_okb_spec s e : window_okb s e = true -> window_ok s e.
Proof. destruct s, e; simpl; try done. by intros ?%Z.ltb_lt. Qed.

(** Symbolic execution up to the next choice, and the choice. *)
Ltac dgo := repeat first [wp_step | progress unfold infra_internal | progress cbn beta iota | apply wp_Signal; intros].
(** A run that ends in a refusal. *)
Ltac fin := split_and!; try done; by intros x [= <-].
Ltac dcase := match goal with |- wp (match ?x with _ => _ end) _ _ => destruct x eqn:? end.

Section Run.
Context `{Runtime} `{PgNumeric} `{PgServer}.
Abbreviation DM := (M DispatchDB Workflows).

Definition quietly {A} (m : DM A) : DM unit := gbind m (fun _ => gret tt).

Definition run (op : dispatch_op) : DM unit :=
  match op with
  | OCreate req => quietly (CreateDispatchJob req)
  | OLateInsert r => if window_okb (jr_starts r) (jr_ends r) then quietly (insert_dispatch_job (fun d => d) r) else gret tt
  | OAccept ctx id => quietly (AcceptDispatchJob ctx id)
  | OCancel id => quietly (CancelDispatchJob id)
  | OSwap id req => quietly (SwapDispatchVehicle id req)
  | ORequeue id => quietly (RequeueDispatchJob id)
  | ORegister ctx body => quietly (RegisterDriver ctx body)
  | OCreateDriver body => quietly (CreateDriver body)
  | OSetDriverStatus sub body => quietly (SetDriverStatus sub body)
  | OBook ctx req => quietly (CreateCharter ctx req)
  | OUnbook id => quietly (CancelCharter id)
  end.

Definition creates (r : createDispatchJobRequest) (j : DispatchJob) : Prop :=
  dj_driver j = jr_driver r /\ uuid_arg (jr_vehicle r) = Ok (dj_vehicle j) /\ dj_route j = jr_route r /\
  dj_starts j = jr_starts r /\ dj_ends j = jr_ends r.

(** The machine steps a request may take. *)
Definition allowed (op : dispatch_op) (l : label) : Prop :=
  match op, l with
  | OCreate (Some r), LAssign j | OLateInsert r, LAssign j => creates r j
  | OAccept ctx id, LAccept caller i => caller = Subject ctx /\ uuid_in id = Ok i
  | OCancel id, LCancel i | ORequeue id, LRequeue i | OUnbook id, LUnbook i => uuid_in id = Ok i
  | OSwap id (Some (v, _)), LSwap i c => uuid_in id = Ok i /\ uuid_in v = Ok c
  | ORegister ctx _, LDriver x => dv_sub x = Subject ctx
  | OCreateDriver (inr (sub, _, _)), LDriver x => dv_sub x = TrimSpace sub
  | OSetDriverStatus sub _, LDriver x => dv_sub x = sub
  | OBook _ (Some r), LBook b vs => vs.*1 = cq_vehicles r /\ cb_reference b = cq_reference r
  | _, _ => False
  end.

(** At most one allowed step. *)
Definition one_step (op : dispatch_op) (d d' : DispatchDB) : Prop :=
  d' = d \/ exists l, allowed op l /\ dstep d l d'.

Lemma one_step_refl op d : one_step op d d.
Proof. by left. Qed.

Lemma quietly_wp {A} (m : DM A) (P : World DispatchDB Workflows -> Prop) w :
  wp m (fun _ => P) w -> wp (quietly m) (fun _ => P) w.
Proof. intros Hm. apply wp_bind. eapply wp_mono; [|exact Hm]. intros a w' HP. by apply wp_ret. Qed.

(** What a request that passes the hours-of-service phase satisfies. *)
Definition hours_ok (r : createDispatchJobRequest) (d : DispatchDB) : Prop :=
  forall start, jr_starts r = Some start ->
    (jr_ends r <> None -> flt dispatchMaxShiftHours (plannedHours r) = false) /\
    exists dayTotal, driver_day_hours (jr_driver r) start dispatchMaxShiftHours d = Ok dayTotal /\
      flt dispatchMaxDailyHours (fadd dayTotal (plannedHours r)) = false.

Lemma check_hours_wp r w :
  wp (check_hours r) (fun a w' => (exists s, w' = with_sched s w) /\ (a = None -> hours_ok r (w_db w)) /\
        (forall x, a = Some x -> status x <> 201)) w.
Proof.
  assert (forall w : World DispatchDB Workflows, exists s, w = with_sched s w) as Hself.
  { intros w0. exists (w_sched w0). by destruct w0. }
  unfold check_hours, hours_ok. dcase; [dgo; split_and!; try done; by intros x [= <-]|].
  destruct (jr_starts r) as [st|] eqn:Es; [|dgo; done].
  dgo; [|split_and!; eauto; [done|by intros x [= <-]]].
  destruct (driver_day_hours _ _ _ _) as [t|e] eqn:Et; [|dgo; split_and!; eauto; [done|by intros x [= <-]]].
  destruct (flt dispatchMaxDailyHours _) eqn:Ef; dgo; (split_and!; [by eauto| |]); try done; [by intros x [= <-]|].
  intros _ st' [= <-]. split; [|by exists t]. by destruct (jr_ends r).
Qed.

Lemma insert_job_ok j d u g : insert_job j d = Ok (u, g) -> admissible j d /\ g = put_job j.
Proof.
  unfold insert_job, admissible. destruct (jobs d !! _); [done|]. destruct (find_row _ _); [done|].
  destruct (vehicle_known _ _ && driver_known _ _) eqn:Ek; [|done]. intros [= <- <-].
  by apply andb_true_iff in Ek.
Qed.

(** The insert phase on a transaction with no earlier writes. *)
Lemma insert_phase_refines op r w :
  (forall j, creates r j -> allowed op (LAssign j)) -> window_ok (jr_starts r) (jr_ends r) ->
  wp (insert_dispatch_job (fun d => d) r) (fun _ w' => one_step op (w_db w) (w_db w')) w.
Proof.
  intros Hop Hw. unfold insert_dispatch_job. do 6 wp_step.
  - match goal with H : match uuid_arg _ with _ => _ end = _ |- _ => rename H into Hs end.
    destruct (uuid_arg (jr_vehicle r)) as [v|] eqn:Ev; [|done]. cbn in Hs.
    destruct (insert_job _ _) as [[u g']|] eqn:Ei; [|done]. simplify_eq/=. apply insert_job_ok in Ei as [Ha ->].
    assert (one_step op (w_db w) (put_job (mkJob (uuid_of (w_uuids w)) (jr_driver r) v (jr_route r) (jr_starts r) (jr_ends r)
              "assigned" (w_now w) None) (w_db w))) as Hstep.
    { right. eexists. split; [apply Hop; unfold creates|by apply ds_assign]; done. }
    dgo; try apply one_step_refl; exact Hstep.
  - destruct e; dgo; try (repeat dcase; dgo); apply one_step_refl.
  - dgo; apply one_step_refl.
Qed.

Lemma create_refines req w :
  wp (CreateDispatchJob req) (fun _ w' => one_step (OCreate req) (w_db w) (w_db w')) w.
Proof.
  unfold CreateDispatchJob. destruct req as [r|]; [|dgo; apply one_step_refl].
  case_decide; [dgo; apply one_step_refl|]. dcase; [dgo; apply one_step_refl|].
  assert (window_ok (jr_starts r) (jr_ends r)) as Hw.
  { destruct (jr_starts r), (jr_ends r); simpl; try done. by apply negb_false_iff, Z.ltb_lt in Heqb. }
  apply wp_bind. eapply wp_mono; [|apply check_hours_wp]. intros [a|] w' ([s ->] & _); [dgo; apply one_step_refl|].
  unfold create_dispatch_tx. dgo; try apply one_step_refl.
  dcase; [repeat case_decide; dgo; apply one_step_refl|].
  destruct e; try (dgo; apply one_step_refl).
  eapply wp_mono; [|apply (insert_phase_refines (OCreate (Some r))); done]. done.
Qed.

Lemma update_job_ok id p f d j' g :
  update_job id p f d = Ok (j', g) -> exists j, jobs d !! id = Some j /\ p j = true /\ j' = f j /\ g = put_job (f j).
Proof. unfold update_job. destruct (jobs d !! id) as [j|]; [|done]. destruct (p j) eqn:Ep; [|done]. intros [= <- <-]. by exists j. Qed.

(** A conditional update of the pool, by what it does when it finds its row. *)
Lemma uuid_update_ok id p f d j' g :
  match uuid_in id with Ok i => update_job i p f d | Err e => Err e end = Ok (j', g) ->
  exists i j, uuid_in id = Ok i /\ jobs d !! i = Some j /\ p j = true /\ g = put_job (f j).
Proof. destruct (uuid_in id) as [i|]; [|done]. intros (j & ? & ? & _ & ?)%update_job_ok. by exists i, j. Qed.

Lemma accept_refines ctx id w : dispatch_inv (w_db w) ->
  wp (AcceptDispatchJob ctx id) (fun _ w' => one_step (OAccept ctx id) (w_db w) (w_db w')) w.
Proof.
  intros Hi. unfold AcceptDispatchJob. case_decide; [dgo; apply one_step_refl|]. dgo; [|apply one_step_refl].
  destruct (drivers (w_db w) !! Subject ctx) as [x|] eqn:Ex; [|dgo; apply one_step_refl].
  case_bool_decide; [|dgo; apply one_step_refl]. cbn [negb]. unfold accept_job.
  assert (forall s j' g, match uuid_in id with Ok i => update_job i
             (fun j => bool_decide (dj_status j = "assigned") && bool_decide (dj_driver j = Subject ctx))
             (fun j => with_job_status j "accepted" (Some (w_now (with_sched s w)))) (w_db w) | Err e => Err e end = Ok (j', g) ->
           one_step (OAccept ctx id) (w_db w) (g (w_db w))) as Hok.
  { intros s0 j' g (i & j & Hu & Hj & Hp & ->)%uuid_update_ok. apply andb_true_iff in Hp as [Hst Hdr].
    apply bool_decide_eq_true in Hst, Hdr. pose proof (inv_key _ Hi _ _ Hj) as Ek. right.
    exists (LAccept (dj_driver j) (dj_id j)). split; [by rewrite Ek|]. apply (ds_accept _ j x); rewrite ?Ek, ?Hdr; done. }
  dgo; try (eapply Hok; eassumption); try apply one_step_refl. destruct e; dgo; apply one_step_refl.
Qed.

Lemma cancel_refines id w : dispatch_inv (w_db w) ->
  wp (CancelDispatchJob id) (fun _ w' => one_step (OCancel id) (w_db w) (w_db w')) w.
Proof.
  intros Hi. unfold CancelDispatchJob.
  assert (forall j' g, match uuid_in id with Ok i => update_job i (fun j => active (dj_status j)) cancel_job_row (w_db w)
             | Err e => Err e end = Ok (j', g) -> one_step (OCancel id) (w_db w) (g (w_db w))) as Hok.
  { intros j' g (i & j & Hu & Hj & Hp & ->)%uuid_update_ok. pose proof (inv_key _ Hi _ _ Hj) as Ek. right.
    exists (LCancel (dj_id j)). split; [by rewrite Ek|]. apply (ds_cancel _ j); rewrite ?Ek; done. }
  dgo; try (eapply Hok; eassumption); try apply one_step_refl. destruct e; dgo; apply one_step_refl.
Qed.

Lemma requeue_refines id w : dispatch_inv (w_db w) ->
  wp (RequeueDispatchJob id) (fun _ w' => one_step (ORequeue id) (w_db w) (w_db w')) w.
Proof.
  intros Hi. unfold RequeueDispatchJob.
  assert (forall j' g, match uuid_in id with Ok i => update_job i (fun j => bool_decide (dj_status j = "assigned"))
             (fun j => with_job_status j "requeued" (dj_accepted j)) (w_db w)
             | Err e => Err e end = Ok (j', g) -> one_step (ORequeue id) (w_db w) (g (w_db w))) as Hok.
  { intros j' g (i & j & Hu & Hj & Hp%bool_decide_eq_true & ->)%uuid_update_ok. pose proof (inv_key _ Hi _ _ Hj) as Ek. right.
    exists (LRequeue (dj_id j)). split; [by rewrite Ek|]. apply (ds_requeue _ j); rewrite ?Ek; done. }
  dgo; try (eapply Hok; eassumption); try apply one_step_refl. destruct e; dgo; apply one_step_refl.
Qed.

Lemma set_vehicle_ok id v d j' g :
  set_vehicle id v d = Ok (j', g) -> exists j, jobs d !! id = Some j /\
    find_row (index_clash (with_vehicle j (Some v))) (jobs d) = None /\ vehicle_known (Some v) d = true /\
    g = put_job (with_vehicle j (Some v)).
Proof.
  unfold set_vehicle. destruct (jobs d !! id) as [j|]; [|done]. destruct (find_row _ _) eqn:Ef; [done|].
  destruct (vehicle_known _ _) eqn:Ev; [|done]. intros [= <- <-]. by exists j.
Qed.

Lemma swap_refines id req w : dispatch_inv (w_db w) ->
  wp (SwapDispatchVehicle id req) (fun _ w' => one_step (OSwap id req) (w_db w) (w_db w')) w.
Proof.
  intros Hi. unfold SwapDispatchVehicle. destruct req as [[v reason]|]; [|dgo; apply one_step_refl].
  case_decide; [dgo; apply one_step_refl|]. dgo; try apply one_step_refl.
  destruct (uuid_in id) as [i|e] eqn:Eu; [|destruct e; dgo; apply one_step_refl]. simpl.
  destruct (jobs (w_db w) !! i) as [job|] eqn:Ej; [|dgo; apply one_step_refl].
  destruct (active (dj_status job)) eqn:Ea; [|dgo; apply one_step_refl].
  pose proof (inv_key _ Hi _ _ Ej) as Ek. dgo; try apply one_step_refl.
  destruct (uuid_in v) as [c|e] eqn:Ev; [|dgo; apply one_step_refl]. cbn beta iota.
  dcase; [dgo; apply one_step_refl|]. unfold swap_vehicle_tx. rewrite Ev.
  dgo; try apply one_step_refl.
  all: try (match goal with e : error |- _ => destruct e; dgo; try (repeat dcase; dgo); apply one_step_refl end).
  all: match goal with Hs : set_vehicle _ _ _ = Ok _ |- _ => apply set_vehicle_ok in Hs as (j & Hj & Hf & Hv & ->) end.
  all: cbn in *; rewrite Ek in Hj; simplify_eq; right; exists (LSwap (dj_id job) c); split; [done|]; by apply ds_swap.
Qed.

Lemma register_refines ctx body w : dispatch_inv (w_db w) ->
  wp (RegisterDriver ctx body) (fun _ w' => one_step (ORegister ctx body) (w_db w) (w_db w')) w.
Proof.
  intros Hi. unfold RegisterDriver. case_decide; [dgo; apply one_step_refl|].
  destruct body as [|[name license]]; [dgo; apply one_step_refl|].
  destruct (validate_driver name license) as [|[n l]]; [dgo; apply one_step_refl|].
  assert (forall b g, insert_driver_if_absent (mkDriver (Subject ctx) n l "active") (w_db w) = Ok (b, g) ->
            one_step (ORegister ctx (inr (name, license))) (w_db w) (g (w_db w))) as Hok.
  { unfold insert_driver_if_absent. intros b g. destruct (drivers _ !! _); intros [= <- <-]; [by left|]. right.
    eexists. split; [|apply ds_driver]. done. }
  dgo; try dcase; dgo; try (eapply Hok; eassumption); apply one_step_refl.
Qed.

Lemma create_driver_refines body w : dispatch_inv (w_db w) ->
  wp (CreateDriver body) (fun _ w' => one_step (OCreateDriver body) (w_db w) (w_db w')) w.
Proof.
  intros Hi. unfold CreateDriver. destruct body as [|[[sub name] license]]; [dgo; apply one_step_refl|].
  dcase; [dgo; apply one_step_refl|]. destruct (validate_driver name license) as [|[n l]]; [dgo; apply one_step_refl|].
  assert (forall b g, upsert_driver_row (TrimSpace sub) n l (w_db w) = Ok (b, g) ->
            one_step (OCreateDriver (inr (sub, name, license))) (w_db w) (g (w_db w))) as Hok.
  { unfold upsert_driver_row. intros b g. destruct (drivers _ !! _); intros [= <- <-]; right;
    (eexists; split; [|apply ds_driver]; done). }
  unfold upsertDriver. dgo; try (eapply Hok; eassumption); apply one_step_refl.
Qed.

Lemma driver_status_refines sub body w : dispatch_inv (w_db w) ->
  wp (SetDriverStatus sub body) (fun _ w' => one_step (OSetDriverStatus sub body) (w_db w) (w_db w')) w.
Proof.
  intros Hi. unfold SetDriverStatus. destruct body as [|st]; [dgo; apply one_step_refl|].
  dcase; [dgo; apply one_step_refl|].
  assert (forall n g, set_driver_status sub st (w_db w) = Ok (n, g) ->
            one_step (OSetDriverStatus sub (inr st)) (w_db w) (g (w_db w))) as Hok.
  { unfold set_driver_status. intros n g. destruct (drivers _ !! _) as [x|] eqn:Ex; intros [= <- <-]; [right|by left].
    eexists. split; [|apply ds_driver]. apply (inv_dkey _ Hi _ _ Ex). }
  dgo; try dcase; dgo; try (eapply Hok; eassumption); apply one_step_refl.
Qed.

Lemma insert_link_ok v d u g : insert_link v d = Ok (u, g) -> charter_vehicles d !! cv_job v = None /\ g = put_link v.
Proof.
  unfold insert_link. destruct (charter_vehicles d !! _); [done|]. destruct (find_row _ _); [done|].
  case_decide; [|done]. by intros [= <- <-].
Qed.

Lemma placeholder_ok reference v d u g :
  insert_driver_if_absent (mkDriver (charterDriverSub reference v) ("Charter placeholder " +:+ reference) "" "off-duty") d = Ok (u, g) ->
  g d = with_placeholder reference v d.
Proof. unfold insert_driver_if_absent, with_placeholder. simpl. by destruct (drivers d !! _); intros [= <- <-]. Qed.

Lemma with_placeholder_links r v d : charter_vehicles (with_placeholder r v d) = charter_vehicles d.
Proof. unfold with_placeholder. by destruct (drivers d !! _). Qed.

(** Reserving a vehicle inside the transaction: only the schedule and the
    drawn ids move; on success the transaction has the job and the link. *)
Definition reservation_spec (reserve : Tx DispatchDB -> string -> string -> string -> Z -> Z -> DM (response + string * Tx DispatchDB)) : Prop := forall b tx v w,
  wp (reserve tx (cb_id b) (cb_reference b) v (cb_starts b) (cb_ends b))
    (fun r w' => w_db w' = w_db w /\ w_now w' = w_now w /\ (forall a, r = inl a -> status a <> 201) /\
       forall id tx', r = inr (id, tx') -> exists c,
       uuid_in v = Ok c /\
       let d1 := with_placeholder (cb_reference b) v (tx (w_db w)) in
       admissible (charter_job b v c id (w_now w)) d1 /\ charter_vehicles (tx (w_db w)) !! id = None /\
       tx' (w_db w) = put_link (mkCharterVehicle (cb_id b) c id) (put_job (charter_job b v c id (w_now w)) d1)) w.

Lemma write_reservation_wp : reservation_spec write_reservation.
Proof.
  intros b tx v w. unfold write_reservation. destruct (uuid_in v) as [c|] eqn:Eu.
  2: { apply wp_bind, wp_tx_exec; [|intros; dgo; fin|intros; dgo; fin]. intros s0 u g _. cbn beta iota.
       dgo; try done; try fin. destruct e; dgo; repeat dcase; dgo; fin. }
  apply wp_bind, wp_tx_exec; [|intros; dgo; fin|intros; dgo; fin]. intros s0 u g Hdrv. apply placeholder_ok in Hdrv. cbn beta iota.
  wp_step. wp_step. wp_step. wp_step. apply wp_bind, wp_tx_exec.
  - intros s1 u1 g1 Hins. apply insert_job_ok in Hins as [Ha ->]. cbn beta iota.
    apply wp_bind, wp_tx_exec; [|intros; dgo; fin|intros; dgo; fin].
    intros s2 u2 g2 Hlnk. apply insert_link_ok in Hlnk as [Hl ->]. dgo. split_and!; [done..|].
    intros id tx' [= <- <-]. exists c. cbn in *. rewrite Hdrv in *. rewrite with_placeholder_links in Hl. done.
  - intros s1 e _. destruct e; dgo; repeat dcase; dgo; fin.
  - intros. dgo. fin.
Qed.

Lemma reserve_vehicle_wp : reservation_spec reserve_vehicle.
Proof.
  intros b tx v w. unfold reserve_vehicle. destruct (uuid_in v) as [c|] eqn:Eu; cbn beta iota; [|dgo; fin].
  dgo; [|fin]. dcase; [dgo; fin|]. pose proof (write_reservation_wp b tx v (with_sched s w)) as Hw. rewrite Eu in Hw. exact Hw.
Qed.

Lemma reserve_vehicles_wp reserve (Hreserve : reservation_spec reserve) b vs tx w :
  wp (reserve_vehicles reserve tx (cb_id b) (cb_reference b) (cb_starts b) (cb_ends b) vs)
    (fun r w' => w_db w' = w_db w /\ (forall a, r = inl a -> status a <> 201) /\ forall ps tx', r = inr (ps, tx') ->
       ps.*1 = vs /\ reserved b (w_now w) ps (tx (w_db w)) (tx' (w_db w))) w.
Proof.
  revert tx w. induction vs as [|v vs IH]; intros tx w; cbn [reserve_vehicles].
  { dgo. split_and!; [done..|]. intros ps tx' [= <- <-]. split; [done|constructor]. }
  apply wp_bind. eapply wp_mono; [|apply Hreserve]. intros [a|[id tx1]] w1 (Hd & Hn & Hq & Hr); [dgo; split_and!; [done| |done]; intros x [= <-]; by apply Hq|].
  destruct (Hr id tx1 eq_refl) as (c & Hu & Ha & Hl & Htx).
  apply wp_bind. eapply wp_mono; [|apply IH]. intros [a|[ps tx2]] w2 (Hd2 & Hq2 & Hr2); dgo.
  { split_and!; [congruence| |done]. intros x [= <-]. by apply Hq2. }
  split_and!; [congruence|done|].
  intros qs tx' [= <- <-]. destruct (Hr2 ps tx2 eq_refl) as [Hps Hres]. rewrite Hd, Hn in Hres.
  split; [by rewrite <- Hps|]. rewrite Htx in Hres. by eapply reserved_cons.
Qed.

Lemma insert_booking_ok b d u g : insert_booking b d = Ok (u, g) ->
  bookings d !! cb_id b = None /\
  find_row (fun x => bool_decide (cb_reference x = cb_reference b)) (bookings d) = None /\ cb_starts b < cb_ends b /\ g = put_booking b.
Proof.
  unfold insert_booking. destruct (bookings d !! _); [done|]. destruct (find_row _ _); [done|].
  destruct (cb_starts b <? cb_ends b) eqn:E; [|done]. apply Z.ltb_lt in E. by intros [= <- <-].
Qed.

(** The booking step a request asks for. *)
Definition booked ctx (r : createCharterRequest) (now : Z) (d d' : DispatchDB) : Prop :=
  exists b ps, ps.*1 = cq_vehicles r /\ cb_reference b = cq_reference r /\ cb_customer b = cq_customer r /\
    cq_starts r = Some (cb_starts b) /\ cq_ends r = Some (cb_ends b) /\ cb_created_by b = Subject ctx /\
    bookings d !! cb_id b = None /\
    find_row (fun x => bool_decide (cb_reference x = cb_reference b)) (bookings d) = None /\
    cb_starts b < cb_ends b /\ cb_status b = "confirmed" /\ reserved b now ps (put_booking b d) d'.

Definition book_answer ctx r (w : World DispatchDB Workflows) (a : response) (w' : World DispatchDB Workflows) : Prop :=
  w_db w' = w_db w /\ status a <> 201 \/ booked ctx r (w_now w) (w_db w) (w_db w').

Lemma charter_tx_spec reserve (Hreserve : reservation_spec reserve) ctx r st en w :
  cq_starts r = Some st -> cq_ends r = Some en ->
  wp (create_charter_tx reserve (Subject ctx) r st en) (book_answer ctx r w) w.
Proof.
  intros Es Ee. assert (forall a w', w_db w' = w_db w -> status a <> 201 -> book_answer ctx r w a w') as Hno by by left.
  unfold create_charter_tx. dgo; try by apply Hno.
  - match goal with H : insert_booking _ _ = _ |- _ => apply insert_booking_ok in H as (Hn & Hf & Hw & ->) end.
    match goal with |- wp (reserve_vehicles _ _ (uuid_of ?n) _ _ _ _) _ _ =>
      set (b := mkBooking (uuid_of n) (cq_reference r) (cq_customer r) (cq_contact r) st en "confirmed" (cq_notes r)
                  (Subject ctx) (w_now w) None) end.
    eapply wp_mono; [|apply (reserve_vehicles_wp reserve Hreserve b)]. intros [ans|[ps tx]] w1 (Hd & Hq & Hr); [dgo; by apply Hno; [|apply Hq]|].
    destruct (Hr ps tx eq_refl) as [Hps Hres]. cbn in Hd, Hres.
    assert (booked ctx r (w_now w) (w_db w) (tx (w_db w))) as Hstep by by exists b, ps.
    dgo; try (by apply Hno); right; cbn; rewrite Hd; exact Hstep.
  - destruct e as [|code| | |]; dgo; try by apply Hno.
    destruct (decide (code = unique_violation)); [|dgo; by apply Hno].
    unfold replay_charter. dgo; [|by apply Hno]. dcase; [|dgo; by apply Hno]. dcase; dgo; by apply Hno.
Qed.

Lemma book_spec ctx r w : wp (CreateCharter ctx (Some r)) (book_answer ctx r w) w.
Proof.
  assert (forall a w', w_db w' = w_db w -> status a <> 201 -> book_answer ctx r w a w') as Hno by by left.
  unfold CreateCharter. case_decide; [dgo; by apply Hno|].
  destruct (cq_starts r) as [st|] eqn:Es; [|dgo; by apply Hno]. destruct (cq_ends r) as [en|] eqn:Ee; [|dgo; by apply Hno].
  repeat dcase; try (dgo; by apply Hno). by apply charter_tx_spec; [apply reserve_vehicle_wp|..].
Qed.

Lemma book_refines ctx req w :
  wp (CreateCharter ctx req) (fun _ w' => one_step (OBook ctx req) (w_db w) (w_db w')) w.
Proof.
  destruct req as [r|]; [|unfold CreateCharter; dgo; apply one_step_refl].
  eapply wp_mono; [|apply book_spec]. intros a w' [[E _]|(b & ps & H2)]; [by left|]. crush.
  right. exists (LBook b ps). split; [done|]. by eapply ds_book.
Qed.

Lemma signal_cancelled_wp reference ids (P : World DispatchDB Workflows -> Prop) w :
  (forall w', w_db w' = w_db w -> P w') -> wp (signal_cancelled reference ids) (fun _ => P) w.
Proof.
  revert w. induction ids as [|id ids IH]; intros w HP; cbn [signal_cancelled]; [dgo; by apply HP|].
  dgo; apply IH; intros w' E; apply HP; rewrite E; done.
Qed.

Lemma unbook_refines id w : dispatch_inv (w_db w) ->
  wp (CancelCharter id) (fun _ w' => one_step (OUnbook id) (w_db w) (w_db w')) w.
Proof.
  intros Hi. unfold CancelCharter. apply wp_bind, wp_begin; intros s; [|dgo; apply one_step_refl].
  wp_step. wp_step. apply wp_bind, wp_tx_exec; intros s0; [|intros e _; destruct e; dgo; apply one_step_refl|dgo; apply one_step_refl].
  intros b' g Hb. destruct (uuid_in id) as [i|] eqn:Eu; [|done].
  unfold cancel_booking in Hb. cbn in Hb.
  destruct (bookings (w_db w) !! i) as [b|] eqn:Eb; [|done]. case_decide; [|done]. simplify_eq.
  pose proof (inv_bkey _ Hi _ _ Eb) as Ek.
  assert (one_step (OUnbook id) (w_db w) (unbooked i (put_booking (cancelled_booking b (w_now w)) (w_db w)))) as Hstep.
  { right. exists (LUnbook (cb_id b)). split; [by rewrite Ek|]. rewrite <- Ek. apply ds_unbook; [by rewrite Ek|done]. }
  dgo; try apply one_step_refl; try done.
  all: match goal with H : cancel_booked_jobs _ _ = _ |- _ => unfold cancel_booked_jobs in H end; simplify_eq.
  all: try (apply signal_cancelled_wp; intros w' E; dgo; cbn; rewrite E); try apply one_step_refl; exact Hstep.
Qed.

(** Every request, under every fault schedule, takes at most one allowed step of the machine. *)
Lemma run_refines op w : dispatch_inv (w_db w) ->
  wp (run op) (fun _ w' => one_step op (w_db w) (w_db w')) w.
Proof.
  intros Hi. destruct op; unfold run.
  2: { destruct (window_okb _ _) eqn:Ew; [|dgo; apply one_step_refl].
       apply quietly_wp, insert_phase_refines; [done|by apply window_okb_spec]. }
  all: apply quietly_wp.
  - apply create_refines.
  - by apply accept_refines.
  - by apply cancel_refines.
  - by apply swap_refines.
  - by apply requeue_refines.
  - by apply register_refines.
  - by apply create_driver_refines.
  - by apply driver_status_refines.
  - apply book_refines.
  - by apply unbook_refines.
Qed.
End Run.

(** ** Runs of the service *)

(** Requests in any order, with the clock and the faults of the environment in between. *)
Inductive trace `{Runtime} `{PgNumeric} `{PgServer} (w : World DispatchDB Workflows) : World DispatchDB Workflows -> Prop :=
| trace_refl : trace w w
| trace_op w1 op : trace w w1 -> trace w (run op w1).2
| trace_env w1 t s : trace w w1 -> trace w (with_now t (with_sched s w1)).

Lemma trace_inv `{Runtime} `{PgNumeric} `{PgServer} w w' : trace w w' -> dispatch_inv (w_db w) -> dispatch_inv (w_db w').
Proof.
  induction 1 as [|w1 op Ht IH|w1 t s Ht IH]; intros Hi; [done| |by apply IH].
  pose proof (run_refines op w1 (IH Hi)) as [E|(l & _ & Hs)]; [rewrite E; auto|]. eapply dstep_inv; eauto.
Qed.

#[global] Instance DispatchJob_eq_dec : EqDecision DispatchJob.
Proof. solve_decision. Defined.

(** ** Interleaving *)

(** What runs undisturbed: a request whose statements all meet one state, or
    the writes alone of a request that made its checks earlier, on whatever
    state there was then.  (The insert of a creation is [OLateInsert].) *)
Inductive phase : Type :=
| Whole (op : dispatch_op)
| LateAccept (caller id : string)
| LateSwap (job : DispatchJob) (vehicle reason : string)
| LateBook (ctx : claims) (r : createCharterRequest).

Section Interleaving.
Context `{Runtime} `{PgNumeric} `{PgServer}.

(** A swap reads its job FOR UPDATE, so the row it writes is the row it read;
    nothing else that was checked need hold any more. *)
Definition run_phase (p : phase) : M DispatchDB Workflows unit :=
  match p with
  | Whole op => run op
  | LateAccept caller id => quietly (accept_job caller id)
  | LateSwap job vehicle reason =>
      let! d := gets w_db in
      if decide (jobs d !! dj_id job = Some job) then quietly (swap_vehicle_tx (fun d => d) job vehicle reason) else gret tt
  | LateBook ctx r =>
      match cq_starts r, cq_ends r with
      | Some starts, Some ends => quietly (create_charter_tx write_reservation (Subject ctx) r starts ends)
      | _, _ => gret tt
      end
  end.

(** Phases of any requests in any order, with clock and faults in between. *)
Inductive interleaved (w : World DispatchDB Workflows) : World DispatchDB Workflows -> Prop :=
| il_refl : interleaved w w
| il_phase w1 p : interleaved w w1 -> interleaved w (run_phase p w1).2
| il_env w1 t s : interleaved w w1 -> interleaved w (with_now t (with_sched s w1)).

Abbreviation keeps_inv m := (forall w, dispatch_inv (w_db w) -> wp m (fun _ w' => dispatch_inv (w_db w')) w).

Lemma late_accept_inv caller id : keeps_inv (accept_job caller id).
Proof.
  intros w Hi. unfold accept_job. wp_step. wp_step.
  assert (forall j' g, match uuid_in id with Ok i => update_job i
            (fun j => bool_decide (dj_status j = "assigned") && bool_decide (dj_driver j = caller))
            (fun j => with_job_status j "accepted" (Some (w_now w))) (w_db w) | Err e => Err e end = Ok (j', g) ->
          dispatch_inv (g (w_db w))) as Hok.
  { intros j' g (i & j & _ & Hj & Hp & ->)%uuid_update_ok. apply andb_true_iff in Hp as [Hst%bool_decide_eq_true _].
    pose proof (inv_key _ Hi _ _ Hj) as Ek. apply (move_job_inv j); rewrite ?Ek; try done. by rewrite Hst. }
  dgo; try (eapply Hok; eassumption); try exact Hi. destruct e; dgo; exact Hi.
Qed.

Lemma late_swap_inv job vehicle reason w :
  jobs (w_db w) !! dj_id job = Some job -> dispatch_inv (w_db w) ->
  wp (swap_vehicle_tx (fun d => d) job vehicle reason) (fun _ w' => dispatch_inv (w_db w')) w.
Proof.
  intros Hj Hi. unfold swap_vehicle_tx.
  assert (forall j' g, match uuid_in vehicle with Ok v => set_vehicle (dj_id job) v (w_db w) | Err e => Err e end = Ok (j', g) ->
          dispatch_inv (g (w_db w))) as Hok.
  { intros j' g. destruct (uuid_in vehicle) as [v|]; [|done]. intros (j & Hj' & Hf & Hv & ->)%set_vehicle_ok. simplify_eq.
    apply put_job_inv; try done; simpl.
    - intros Ha k x Hk Hne Hx. exact (no_clash _ _ _ _ Hi Hf Hk Hne Ha Hx).
    - by apply (inv_known _ Hi (dj_id job)).
    - by apply (inv_window _ Hi (dj_id job)).
    - intros o Ho. by simplify_eq. }
  dgo; try exact Hi; try (eapply Hok; eassumption).
  destruct e; dgo; try (repeat dcase; dgo); exact Hi.
Qed.

Lemma phase_inv p : keeps_inv (run_phase p).
Proof.
  intros w Hi. destruct p as [op|caller id|job v reason|ctx r]; cbn [run_phase].
  - eapply wp_mono; [|by apply run_refines]. intros [] w' [->|(l & _ & Hs)]; [done|]. by eapply dstep_inv.
  - by apply quietly_wp, late_accept_inv.
  - wp_step. wp_step. case_decide; [|by apply wp_ret]. by apply quietly_wp, late_swap_inv.
  - destruct (cq_starts r) as [st|] eqn:Es; [|by apply wp_ret]. destruct (cq_ends r) as [en|] eqn:Ee; [|by apply wp_ret].
    apply quietly_wp. eapply wp_mono; [|by apply (charter_tx_spec _ write_reservation_wp)].
    intros a w' [[-> _]|(b & ps & Hb)]; [done|]. crush. eapply dstep_inv; [by eapply ds_book|done].
Qed.

Lemma interleaved_inv w w' : interleaved w w' -> dispatch_inv (w_db w) -> dispatch_inv (w_db w').
Proof. induction 1 as [|w1 p Ht IH|w1 t s Ht IH]; intros Hi; [done| |by apply IH]. by apply (phase_inv p w1), IH. Qed.
End Interleaving.

(** A job's journey in one step of the machine. *)
Lemma put_job_lookup j d id o : jobs d !! id = Some o -> exists o', jobs (put_job j d) !! id = Some o' /\
  (o' = o \/ id = dj_id j /\ o' = j).
Proof.
  intros Ho. simpl. destruct (decide (id = dj_id j)) as [->|]; [rewrite lookup_insert_eq; eauto|].
  rewrite lookup_insert_ne by done. eauto.
Qed.

Lemma reserved_keeps `{PgServer} b now ps d d' id o :
  reserved b now ps d d' -> jobs d !! id = Some o -> jobs d' !! id = Some o.
Proof.
  induction 1 as [|v c i vs d d' Hu j d1 Ha Hl Hr IH]; intros Ho; [done|]. apply IH. simpl.
  assert (jobs d1 = jobs d) as E by (subst d1; unfold with_placeholder; by destruct (drivers d !! _)).
  rewrite E. destruct Ha as (Hn & _). simpl in Hn. rewrite E in Hn. rewrite lookup_insert_ne; [done|congruence].
Qed.

Lemma reserved_link_keeps `{PgServer} b now ps d d' id v :
  reserved b now ps d d' -> charter_vehicles d !! id = Some v -> charter_vehicles d' !! id = Some v.
Proof.
  induction 1 as [|x c i vs d d' Hu j d1 Ha Hl Hr IH]; intros Ho; [done|]. apply IH. simpl.
  assert (charter_vehicles d1 = charter_vehicles d) as E by (subst d1; apply with_placeholder_links).
  rewrite E, lookup_insert_ne; [done|congruence].
Qed.

(** Every reserved vehicle has its job and its link. *)
Lemma reserved_holds `{PgServer} b now ps d d' v id :
  reserved b now ps d d' -> (v, id) ∈ ps -> exists c, uuid_in v = Ok c /\
    jobs d' !! id = Some (charter_job b v c id now) /\ charter_vehicles d' !! id = Some (mkCharterVehicle (cb_id b) c id).
Proof.
  induction 1 as [|x c i vs d d' Hu j d1 Ha Hl Hr IH]; intros Hin; [by apply not_elem_of_nil in Hin|].
  apply elem_of_cons in Hin as [E|Hin]; [|by apply IH]. simplify_eq. exists c. split; [done|]. split.
  - eapply reserved_keeps; [done|]. simpl. by rewrite lookup_insert_eq.
  - eapply reserved_link_keeps; [done|]. simpl. by rewrite lookup_insert_eq.
Qed.

(** ** The properties *)

Section Properties.
Context `{Runtime} `{PgNumeric} `{PgServer}.

(** C14: Every dispatch, driver and charter request, and the requeue activity,
    under every fault schedule, changes the tables by at most one step of the
    abstract machine, and only by a step that request may take: a request is
    atomic, whatever fails in between. *)
Theorem dispatch_refines op w :
  dispatch_inv (w_db w) -> one_step op (w_db w) (w_db (run op w).2).
Proof. apply run_refines. Qed.

(** C10: no driver and no vehicle is on two active jobs: over any requests,
    in any interleaving of their checks and their writes (an insert, an
    acceptance, a swap or a charter may write on a state its checks never
    saw, the row a swap has locked apart), under any faults and clock
    changes.  What guarantees it is the two partial unique indexes, which
    every one of these writes has to pass; the checks only decide earlier. *)
Theorem no_double_booking w w' k k' j j' :
  dispatch_inv (w_db w) -> interleaved w w' ->
  jobs (w_db w') !! k = Some j -> jobs (w_db w') !! k' = Some j' -> k <> k' ->
  active (dj_status j) = true -> active (dj_status j') = true ->
  dj_driver j <> dj_driver j' /\ forall v, dj_vehicle j = Some v -> dj_vehicle j' <> Some v.
Proof.
  intros Hi Ht Hj Hj' Hne Ha Ha'. pose proof (interleaved_inv w w' Ht Hi) as Hi'.
  destruct (inv_excl _ Hi' k k' j j') as [Hd Hv]; try done. split; [done|]. intros v E E'.
  unfold same_vehicle in Hv. rewrite E, E' in Hv. simpl in Hv. by rewrite bool_decide_eq_true_2 in Hv.
Qed.

(** A job becomes accepted only by an accept request of the driver it is
    assigned to, while that driver's record is active; no other request,
    activity or fault accepts a job. *)
Theorem accepted_by_assignee op w id j j' :
  dispatch_inv (w_db w) ->
  jobs (w_db w) !! id = Some j -> jobs (w_db (run op w).2) !! id = Some j' ->
  dj_status j <> "accepted" -> dj_status j' = "accepted" ->
  dj_status j = "assigned" /\
  (exists ctx i, op = OAccept ctx i /\ uuid_in i = Ok id /\ Subject ctx = dj_driver j) /\
  exists x, drivers (w_db w) !! dj_driver j = Some x /\ dv_status x = "active".
Proof.
  intros Hi Hj Hj' Hs Hs'. destruct (run_refines op w Hi) as [E|(l & Hal & Hst)]; [rewrite E in Hj'; by simplify_eq|].
  assert (forall n, dj_id n = id -> dj_status n <> "accepted" -> jobs (put_job n (w_db w)) !! id = Some j' -> False) as Hput.
  { intros n <- Hn. simpl. rewrite lookup_insert_eq. intros. by simplify_eq. }
  assert (forall n, dj_id n <> id -> jobs (put_job n (w_db w)) !! id = Some j' -> False) as Hother.
  { intros n Hn. simpl. rewrite lookup_insert_ne by done. intros. by simplify_eq. }
  inversion Hst as [n Ha Hns Hw E1 E2|n x now Hn Hns Hx Hxa E1 E2|n Hn Ha E1 E2|n Hn Hns E1 E2|n v Hn Ha Hf Hv E1 E2
    |x E1 E2|b now ps d' Hn Hf Hw Hbs Hr E1 E2|b now Hb Hbs E1 E2]; subst l; rewrite <- ?E2 in *.
  - destruct (decide (dj_id n = id)) as [<-|Hne]; [|by destruct (Hother _ Hne)]. destruct Ha as [Ha _]. by rewrite Hj in Ha.
  - destruct (decide (dj_id n = id)) as [<-|Hne]; [|by destruct (Hother (with_job_status n "accepted" (Some now)))].
    simplify_eq. destruct op as [[]| |ctx i| |? [[]|]| | |[|[[]]]| |? []| ]; try done. destruct Hal as [Hc Hu].
    split; [done|]. split; [by exists ctx, i|by exists x].
  - destruct (decide (dj_id n = id)) as [E|Hne]; [by destruct (Hput (cancel_job_row n))|by destruct (Hother (cancel_job_row n))].
  - destruct (decide (dj_id n = id)) as [E|Hne];
      [by destruct (Hput (with_job_status n "requeued" (dj_accepted n)))|by destruct (Hother (with_job_status n "requeued" (dj_accepted n)))].
  - destruct (decide (dj_id n = id)) as [E|Hne]; [|by destruct (Hother (with_vehicle n (Some v)))].
    subst id. simplify_eq. by destruct (Hput (with_vehicle j (Some v))).
  - simpl in Hj'. by simplify_eq.
  - rewrite (reserved_keeps b now ps (put_booking b (w_db w)) _ id j) in Hj' by done. by simplify_eq.
  - simpl in Hj'. rewrite lookup_fmap, Hj in Hj'. simpl in Hj'. destruct (booked_active _ _ _); by simplify_eq.
Qed.

(** A cancelled charter holds nothing: after any sequence of requests,
    every job backing a cancelled booking is out of the active statuses, so
    its vehicle and its placeholder driver are free for dispatch. *)
Theorem cancelled_charter_holds_nothing w w' b k v :
  dispatch_inv (w_db w) -> trace w w' ->
  bookings (w_db w') !! cb_id b = Some b -> cb_status b = "cancelled" ->
  charter_vehicles (w_db w') !! k = Some v -> cv_booking v = cb_id b ->
  exists j, jobs (w_db w') !! k = Some j /\ active (dj_status j) = false.
Proof.
  intros Hi Ht Hb Hc Hl E. destruct (inv_link _ (trace_inv w w' Ht Hi) k v Hl) as (b' & j & Hb' & Hj & _ & Hno).
  rewrite E in Hb'. simplify_eq. eauto.
Qed.

(** A charter is confirmed (201) only when all of it is reserved: the
    booking row exists and every requested vehicle has an active dispatch job
    over the whole window and its link, with no fault able to leave a part of
    the vehicles reserved. *)
Theorem charter_confirmed_is_reserved ctx r w :
  status (CreateCharter ctx (Some r) w).1 = 201 ->
  exists b ps, bookings (w_db (CreateCharter ctx (Some r) w).2) !! cb_id b = Some b /\
    cb_reference b = cq_reference r /\ cb_status b = "confirmed" /\ ps.*1 = cq_vehicles r /\
    forall v id, (v, id) ∈ ps -> exists c j, uuid_in v = Ok c /\
      charter_vehicles (w_db (CreateCharter ctx (Some r) w).2) !! id = Some (mkCharterVehicle (cb_id b) c id) /\
      jobs (w_db (CreateCharter ctx (Some r) w).2) !! id = Some j /\ active (dj_status j) = true /\
      dj_vehicle j = Some c /\ dj_starts j = cq_starts r /\ dj_ends j = cq_ends r.
Proof.
  intros Hs. destruct (book_spec ctx r w) as [[_ Hno]|(b & ps & Hps & Hr & Hc & Hst & Hen & Hby & Hn & Hf & Hw & Hcf & Hres)]; [done|].
  exists b, ps. split; [|split_and!; try done].
  - rewrite (reserved_bookings _ _ _ _ _ Hres). simpl. by rewrite lookup_insert_eq.
  - intros v id Hin. destruct (reserved_holds _ _ _ _ _ _ _ Hres Hin) as (c & Hu & Hj & Hl).
    exists c. eexists. split_and!; [done|done|exact Hj|done..].
Qed.

(** A job created with a start passed the hours-of-service limits: its
    shift is at most the maximal shift, and with the driver's other active
    hours of that civic day it is at most the daily limit. *)
Theorem created_within_hours r w start :
  jr_starts r = Some start -> status (CreateDispatchJob (Some r) w).1 = 201 ->
  (jr_ends r <> None -> flt dispatchMaxShiftHours (plannedHours r) = false) /\
  exists dayTotal, driver_day_hours (jr_driver r) start dispatchMaxShiftHours (w_db w) = Ok dayTotal /\
    flt dispatchMaxDailyHours (fadd dayTotal (plannedHours r)) = false.
Proof.
  intros Hst. assert (wp (CreateDispatchJob (Some r)) (fun a _ => status a = 201 -> hours_ok r (w_db w)) w) as Hh.
  { unfold CreateDispatchJob. case_decide; [by apply wp_ret|]. destruct (match jr_starts r with Some _ => _ | None => _ end); [by apply wp_ret|].
    apply wp_bind. eapply wp_mono; [|apply check_hours_wp]. intros [a|] w' (_ & Hok & Hno).
    - apply wp_ret. intros E. by destruct (Hno a eq_refl).
    - unfold wp. intros _. by apply Hok. }
  intros H201. by apply (Hh H201 start).
Qed.
End Properties.

(** ** The overlap test *)

(** An instant of the window [starts, ends), a null bound being unbounded. *)
Definition in_window (s e : option Z) (t : Z) : Prop :=
  match s with Some s => s <= t | None => True end /\ match e with Some e => t < e | None => True end.

(** For a candidate with both bounds the overlap test of job creation,
    vehicle swap and charters is exactly the intersection of time windows:
    it reports a job if and only if some instant lies in both windows. *)
Theorem overlap_check_is_intersection s e j :
  s < e -> window_ok (dj_starts j) (dj_ends j) ->
  holds (window_conflict (Some s) (Some e) j) = true <->
  exists t, in_window (Some s) (Some e) t /\ in_window (dj_starts j) (dj_ends j) t.
Proof.
  intros Hse Hw. unfold window_conflict, in_window.
  destruct (dj_starts j) as [a|], (dj_ends j) as [b|]; autorewrite with go; simpl in *; zbool;
    (split; [intros Hov|intros (t & Ht & Ht'); repeat split; lia]).
  - exists (Z.max s a). lia.
  - exists (Z.max s a). lia.
  - exists s. lia.
  - exists s. lia.
Qed.

(** The same test with a start and no end never reports a job that has a
    start, and with an end and no start never reports a job that has an end,
    although an open bound is meant to overlap everything on its side. *)
Theorem open_window_check_is_blind t j :
  (dj_starts j <> None -> holds (window_conflict (Some t) None j) = false) /\
  (dj_ends j <> None -> holds (window_conflict None (Some t) j) = false).
Proof. split; intros Hj; unfold window_conflict; [destruct (dj_starts j)|destruct (dj_ends j)]; try done; by destruct (dj_ends j), (dj_starts j). Qed.

(** ** What the code refuses *)

Section Refusals.
Context `{Runtime} `{PgNumeric} `{PgServer}.

(** A driver with an active job gets no second one, whatever the two
    windows: the unique index admits one active job per driver, so shifts
    that do not overlap are refused as well. *)
Theorem second_shift_refused r w k j :
  dispatch_inv (w_db w) -> jobs (w_db w) !! k = Some j -> active (dj_status j) = true -> dj_driver j = jr_driver r ->
  status (CreateDispatchJob (Some r) w).1 <> 201.
Proof.
  intros Hi Hj Ha Hd. assert (forall w1, w_db w1 = w_db w -> wp (insert_dispatch_job (fun d => d) r) (fun a _ => status a <> 201) w1) as Hins.
  { intros w1 Ew. unfold insert_dispatch_job. do 6 wp_step.
    - exfalso. match goal with Hs : match uuid_arg _ with _ => _ end = _ |- _ => revert Hs end. cbn. rewrite Ew.
      destruct (uuid_arg (jr_vehicle r)) as [v|]; [|done]. destruct (insert_job _ _) as [[u g']|] eqn:Ei; [|done].
      intros _. apply insert_job_ok in Ei as [(Hn & Hf & _) _]. simpl in Hn.
      destruct (no_clash _ _ k j Hi Hf Hj) as [Hdd _]; simpl in *; [congruence|done|done|]. congruence.
    - destruct e; dgo; repeat dcase; dgo; done.
    - by dgo. }
  assert (wp (CreateDispatchJob (Some r)) (fun a _ => status a <> 201) w) as Hw; [|exact Hw].
  unfold CreateDispatchJob. case_decide; [by apply wp_ret|]. destruct (match jr_starts r with Some _ => _ | None => _ end); [by apply wp_ret|].
  apply wp_bind. eapply wp_mono; [|apply check_hours_wp]. intros [a|] w' ([s ->] & _ & Hno); [apply wp_ret; by apply Hno|].
  unfold create_dispatch_tx. dgo; try done.
  dcase; [repeat case_decide; by apply wp_ret|]. destruct e; try (by dgo). by apply Hins.
Qed.

(** With no fault, swapping an active job onto a vehicle that another
    active job holds at a different time answers 500 instead of a conflict:
    the window test passes and the unique index then rejects the update, an
    error the handler does not map. *)
Theorem swap_onto_scheduled_vehicle_is_500 id v reason w i c j k x :
  dispatch_inv (w_db w) -> w_sched w = [] -> v <> "" -> reason <> "" -> uuid_in id = Ok i -> uuid_in v = Ok c ->
  jobs (w_db w) !! i = Some j -> active (dj_status j) = true ->
  jobs (w_db w) !! k = Some x -> k <> i -> active (dj_status x) = true -> dj_vehicle x = Some c ->
  holds (window_conflict (dj_starts j) (dj_ends j) x) = false ->
  status (SwapDispatchVehicle id (Some (v, reason)) w).1 = 500.
Proof.
  intros Hi Hs Hv Hr Hid Hc Hj Ha Hx Hne Hxa Hxv Hwin.
  assert (wp (SwapDispatchVehicle id (Some (v, reason))) (fun a _ => status a = 500) w) as Hw; [|exact Hw].
  unfold SwapDispatchVehicle. rewrite decide_False by tauto. apply wp_bind, wp_begin_done; [done|].
  apply wp_bind, wp_tx_query_done; [done|]. rewrite Hid, Hj, Ha. apply wp_bind, wp_tx_query_done; [done|]. rewrite Hc.
  destruct (find_row _ _) as [y|] eqn:Ey.
  - apply find_row_Some in Ey as [Hp [ky Hy]]. exfalso. rewrite holds_and, !andb_true_iff in Hp. destruct Hp as [[Hnid Hya] [Hyv Hyw]].
    destruct (decide (ky = k)) as [->|Hky]; [simplify_eq; by rewrite Hwin in Hyw|].
    destruct (inv_excl _ Hi ky k y x) as [_ E]; try done. unfold same_vehicle in E. rewrite Hxv in E. congruence.
  - unfold swap_vehicle_tx. apply wp_bind. unfold wp, tx_exec. rewrite pop_done by done. rewrite Hc.
    rewrite (inv_key _ Hi _ _ Hj). unfold set_vehicle. rewrite Hj.
    destruct (find_row (index_clash _) _) as [z|] eqn:Ez; [done|]. exfalso.
    destruct (no_clash _ _ k x Hi Ez Hx) as [_ E]; simpl; [by rewrite (inv_key _ Hi _ _ Hj)|done|done|].
    unfold same_vehicle in E. simpl in E. rewrite Hxv in E. simpl in E. by rewrite bool_decide_eq_true_2 in E.
Qed.

(** Listing jobs by driver alone, which is what the drivers' app asks,
    always fails: the query numbers its only parameter 2. *)
Theorem list_by_driver_alone_fails driver w :
  driver <> "" -> status (ListDispatchJobs "" driver w).1 = 500.
Proof.
  intros Hd. assert (wp (ListDispatchJobs "" driver) (fun a _ => status a = 500) w) as Hw; [|exact Hw].
  unfold ListDispatchJobs, list_jobs_conds, list_jobs_args. rewrite !(decide_False (P := driver = "")) by done.
  apply wp_bind, wp_db_query; intros; by apply wp_ret.
Qed.
End Refusals.

(** ** Concrete runs *)

Section Witnesses.
#[local] Existing Instance test_runtime.
#[local] Existing Instance test_numeric.
#[local] Existing Instance test_server.

Definition demo_dispatch (sched : list outcome) : World DispatchDB Workflows :=
  mkWorld (empty_dispatch {["bus-1"; "bus-2"]}) [] [] 1000 0 sched [] [].

(** Two drivers register, one job each is created; the second waits. *)
Definition demo_request (driver vehicle : string) (s e : Z) : createDispatchJobRequest :=
  mkCreateJob driver (Some vehicle) "R10" (Some s) (Some e).

Definition demo_ops : list dispatch_op :=
  [ORegister (claims_of "dan" ["driver"]) (inr ("Dan", "LIC-1")); ORegister (claims_of "eve" ["driver"]) (inr ("Eve", "LIC-2"));
   OCreate (Some (demo_request "dan" "bus-1" 3600000 7200000)); OCreate (Some (demo_request "eve" "bus-2" 9000000 12600000))].

Definition run_all (ops : list dispatch_op) (w : World DispatchDB Workflows) : World DispatchDB Workflows :=
  foldl (fun w op => (run op w).2) w ops.

Lemma run_all_trace ops w w' : trace w w' -> trace w (run_all ops w').
Proof. revert w'. induction ops as [|op ops IH]; intros w' Ht; [done|]. apply IH. by constructor. Qed.

Definition demo_world : World DispatchDB Workflows := run_all demo_ops (demo_dispatch []).

Lemma demo_world_inv : dispatch_inv (w_db demo_world).
Proof. eapply trace_inv; [apply run_all_trace, trace_refl|apply empty_dispatch_inv]. Qed.

Definition demo_charter : createCharterRequest :=
  mkCreateCharter "SCH-1" "School" "" (Some 20000000) (Some 30000000) ["bus-1"] "".

Lemma dispatch_refines_witness :
  one_step (OCreate (Some (demo_request "dan" "bus-1" 3600000 7200000))) (w_db (demo_dispatch [Done; Lost]))
    (w_db (run (OCreate (Some (demo_request "dan" "bus-1" 3600000 7200000))) (demo_dispatch [Done; Lost])).2).
Proof. apply dispatch_refines, empty_dispatch_inv. Defined.

(** A third bus, and two swaps, an acceptance and a charter that all checked
    the state after [demo_ops] and now write: dan is moved to bus-3, eve to the
    bus-1 he left, and the charter of bus-1 is refused by the index. *)
Definition raced_phases : list phase :=
  map Whole demo_ops ++
  [LateSwap (mkJob "uuid-0" "dan" (Some "bus-1") "R10" (Some 3600000) (Some 7200000) "assigned" 1000 None) "bus-3" "service";
   LateSwap (mkJob "uuid-1" "eve" (Some "bus-2") "R10" (Some 9000000) (Some 12600000) "assigned" 1000 None) "bus-1" "service";
   LateAccept "dan" "uuid-0"; LateBook (claims_of "op" ["operator"]) demo_charter].

Definition three_buses : World DispatchDB Workflows :=
  mkWorld (empty_dispatch {["bus-1"; "bus-2"; "bus-3"]}) [] [] 1000 0 [] [] [].

Definition raced_world : World DispatchDB Workflows := foldl (fun w p => (run_phase p w).2) three_buses raced_phases.

Lemma phases_interleaved ps w w' : interleaved w w' -> interleaved w (foldl (fun w p => (run_phase p w).2) w' ps).
Proof. revert w'. induction ps as [|p ps IH]; intros w' Hw; [done|]. apply IH. by constructor. Qed.

Definition driver_vehicle_status (j : DispatchJob) : string * option string * string := (dj_driver j, dj_vehicle j, dj_status j).

Lemma no_double_booking_witness :
  map driver_vehicle_status (rows (jobs (w_db raced_world))) = [("eve", Some "bus-1", "assigned"); ("dan", Some "bus-3", "accepted")] /\
  exists j j', jobs (w_db raced_world) !! "uuid-0" = Some j /\ jobs (w_db raced_world) !! "uuid-1" = Some j' /\ dj_driver j <> dj_driver j'.
Proof.
  split; [vm_compute; reflexivity|].
  eexists _, _. split; [vm_compute; reflexivity|]. split; [vm_compute; reflexivity|].
  eapply (no_double_booking three_buses raced_world "uuid-0" "uuid-1");
    [apply empty_dispatch_inv|apply phases_interleaved, il_refl|..]; vm_compute; try reflexivity; discriminate.
Defined.

(** A driver suspended between the check and the update has the job all the same. *)
Lemma suspended_driver_accepts :
  let w := foldl (fun w p => (run_phase p w).2) three_buses
             (map Whole (demo_ops ++ [OSetDriverStatus "dan" (inr "suspended")]) ++ [LateAccept "dan" "uuid-0"]) in
  dv_status <$> drivers (w_db w) !! "dan" = Some "suspended" /\ dj_status <$> jobs (w_db w) !! "uuid-0" = Some "accepted".
Proof. vm_compute. split; reflexivity. Qed.

Lemma accepted_by_assignee_witness :
  let w := demo_world in
  exists j, jobs (w_db w) !! "uuid-0" = Some j /\ dj_status j = "assigned" /\ dj_driver j = "dan".
Proof.
  eexists. split; [vm_compute; reflexivity|].
  destruct (accepted_by_assignee (OAccept (claims_of "dan" ["driver"]) "uuid-0") demo_world "uuid-0"
    (mkJob "uuid-0" "dan" (Some "bus-1") "R10" (Some 3600000) (Some 7200000) "assigned" 1000 None)
    (mkJob "uuid-0" "dan" (Some "bus-1") "R10" (Some 3600000) (Some 7200000) "accepted" 1000 (Some 1000)))
    as (Hs & (ctx & i & _ & _ & Hd) & _);
    [apply demo_world_inv|vm_compute; reflexivity|vm_compute; reflexivity|discriminate|reflexivity|].
  split; [exact Hs|reflexivity].
Defined.

Definition booked_world : World DispatchDB Workflows :=
  run_all [OBook (claims_of "op" ["operator"]) (Some demo_charter); OUnbook "uuid-0"] (demo_dispatch []).

Lemma cancelled_charter_holds_nothing_witness :
  exists j, jobs (w_db booked_world) !! "uuid-1" = Some j /\ active (dj_status j) = false.
Proof.
  eapply (cancelled_charter_holds_nothing (demo_dispatch []) booked_world
    (mkBooking "uuid-0" "SCH-1" "School" "" 20000000 30000000 "cancelled" "" "op" 1000 (Some 1000)) "uuid-1"
    (mkCharterVehicle "uuid-0" "bus-1" "uuid-1"));
    [apply empty_dispatch_inv|apply run_all_trace, trace_refl|vm_compute; reflexivity..].
Defined.

Lemma charter_confirmed_is_reserved_witness :
  status (CreateCharter (claims_of "op" ["operator"]) (Some demo_charter) (demo_dispatch [])).1 = 201 /\
  exists b, bookings (w_db (CreateCharter (claims_of "op" ["operator"]) (Some demo_charter) (demo_dispatch [])).2) !! cb_id b = Some b.
Proof.
  split; [vm_compute; reflexivity|].
  destruct (charter_confirmed_is_reserved (claims_of "op" ["operator"]) demo_charter (demo_dispatch [])) as (b & ps & Hb & _);
    [vm_compute; reflexivity|]. exists b. exact Hb.
Defined.

Lemma created_within_hours_witness :
  exists dayTotal, driver_day_hours "dan" 3600000 dispatchMaxShiftHours (w_db (run_all (take 2 demo_ops) (demo_dispatch []))) = Ok dayTotal.
Proof.
  destruct (created_within_hours (demo_request "dan" "bus-1" 3600000 7200000) (run_all (take 2 demo_ops) (demo_dispatch [])) 3600000)
    as [_ (t & Ht & _)]; [reflexivity|vm_compute; reflexivity|]. exists t. exact Ht.
Defined.

Lemma overlap_check_is_intersection_witness :
  exists t, in_window (Some 10) (Some 20) t /\ in_window (Some 15) None t.
Proof.
  apply (overlap_check_is_intersection 10 20 (mkJob "" "" None "" (Some 15) None "assigned" 0 None)); [lia|exact I|reflexivity].
Defined.

Lemma second_shift_refused_witness :
  status (CreateDispatchJob (Some (demo_request "dan" "bus-2" 80000000 81000000)) demo_world).1 <> 201.
Proof.
  apply (second_shift_refused (demo_request "dan" "bus-2" 80000000 81000000) demo_world "uuid-0"
    (mkJob "uuid-0" "dan" (Some "bus-1") "R10" (Some 3600000) (Some 7200000) "assigned" 1000 None));
    [apply demo_world_inv|vm_compute; reflexivity..].
Defined.

Lemma swap_onto_scheduled_vehicle_is_500_witness :
  status (SwapDispatchVehicle "uuid-0" (Some ("bus-2", "breakdown")) demo_world).1 = 500.
Proof.
  apply (swap_onto_scheduled_vehicle_is_500 "uuid-0" "bus-2" "breakdown" demo_world "uuid-0" "bus-2"
    (mkJob "uuid-0" "dan" (Some "bus-1") "R10" (Some 3600000) (Some 7200000) "assigned" 1000 None) "uuid-1"
    (mkJob "uuid-1" "eve" (Some "bus-2") "R10" (Some 9000000) (Some 12600000) "assigned" 1000 None));
    [apply demo_world_inv|vm_compute; reflexivity|discriminate|discriminate|reflexivity|reflexivity|vm_compute; reflexivity
    |reflexivity|vm_compute; reflexivity|discriminate|reflexivity..].
Defined.

Lemma list_by_driver_alone_fails_witness : status (ListDispatchJobs "" "dan" demo_world).1 = 500.
Proof. apply list_by_driver_alone_fails. discriminate. Defined.
End Witnesses.
