(* ===== verification/Incidents.v ===== *)
(** * Incidents, partner webhooks and evidence packs

    Models services/go/infra-api/internal/handlers/incidents.go, webhooks.go
    and evidence.go and the incident activities of
    internal/workflow/activities.go.  A leak reading, a manual report and a
    driver's SOS open incidents; a critical one at a station puts the station
    in emergency; every opening and resolution is delivered, signed, to the
    subscribed partners.  The theorems are in [IncidentTheorems.v]. *)

From S2P Require Import Prelude Codec World Float64 Auth CommerceDb InfraDb Dispatch AuditLog.

Open Scope Z_scope.
Open Scope go_scope.

(** ** Rows and tables *)

(** A jsonb object column: its fields. *)
Abbreviation meta := (list (string * json)).

Record Incident : Type := mkIncident {
  in_id : string; in_type : string; in_severity : string; in_bus : option string; in_station : option string;
  in_status : string; in_opened : Z; in_meta : meta; in_resolved : option Z
}.

Record Subscription : Type := mkSubscription {
  ws_id : string; ws_url : string; ws_secret : string; ws_min : string; ws_active : bool;
  ws_description : string; ws_created : Z
}.

Record Delivery : Type := mkDelivery {
  wd_id : string; wd_subscription : string; wd_incident : string; wd_event : string; wd_payload : json;
  wd_status : string; wd_attempts : Z; wd_error : option string; wd_created : Z; wd_delivered : option Z
}.

(** fleet.telemetry, the columns used here; a position may be null. *)
Record Telemetry : Type := mkTelemetry {
  tm_bus : string; tm_ts : Z; tm_speed : option float64; tm_h2 : option float64; tm_fc : option float64;
  tm_soc : option float64; tm_position : option (float64 * float64)
}.

Record IncidentDB : Type := mkIncidentDB {
  incidents : gmap string Incident;
  station_status : gmap string string;      (* infra.stations: id and status *)
  buses : gset string;                      (* fleet.vehicles, by id *)
  dispatch : gmap string DispatchJob;
  telemetry : list Telemetry;
  subscriptions : gmap string Subscription;
  deliveries : gmap string Delivery;
  trail : list Entry                        (* platform.audit_log, in id order *)
}.

Definition set_incidents (m : gmap string Incident) (d : IncidentDB) : IncidentDB :=
  mkIncidentDB m (station_status d) (buses d) (dispatch d) (telemetry d) (subscriptions d) (deliveries d) (trail d).
Definition set_stations (m : gmap string string) (d : IncidentDB) : IncidentDB :=
  mkIncidentDB (incidents d) m (buses d) (dispatch d) (telemetry d) (subscriptions d) (deliveries d) (trail d).
Definition set_subscriptions (m : gmap string Subscription) (d : IncidentDB) : IncidentDB :=
  mkIncidentDB (incidents d) (station_status d) (buses d) (dispatch d) (telemetry d) m (deliveries d) (trail d).
Definition set_deliveries (m : gmap string Delivery) (d : IncidentDB) : IncidentDB :=
  mkIncidentDB (incidents d) (station_status d) (buses d) (dispatch d) (telemetry d) (subscriptions d) m (trail d).

Definition put_incident (i : Incident) (d : IncidentDB) : IncidentDB := set_incidents (<[in_id i := i]> (incidents d)) d.
Definition put_station_status (id st : string) (d : IncidentDB) : IncidentDB := set_stations (<[id := st]> (station_status d)) d.
Definition put_subscription (s : Subscription) (d : IncidentDB) : IncidentDB := set_subscriptions (<[ws_id s := s]> (subscriptions d)) d.
Definition put_delivery (x : Delivery) (d : IncidentDB) : IncidentDB := set_deliveries (<[wd_id x := x]> (deliveries d)) d.

Definition with_state (i : Incident) (sev st : string) (resolved : option Z) (m : meta) : Incident :=
  mkIncident (in_id i) (in_type i) sev (in_bus i) (in_station i) st (in_opened i) m resolved.
Definition with_outcome (x : Delivery) (st : string) (err : option string) (delivered : option Z) : Delivery :=
  mkDelivery (wd_id x) (wd_subscription x) (wd_incident x) (wd_event x) (wd_payload x) st (wd_attempts x + 1) err
    (wd_created x) delivered.

Abbreviation incident_stmt A := (IncidentDB -> result (A * (IncidentDB -> IncidentDB))).

(** Code outside the repository: encoding/json's text of a value and the text
    of a stored jsonb value, net/url's verdict on a URL, a peer's status line. *)
Class WebhookEnv : Type := {
  json_marshal : json -> string;
  jsonb_out : json -> string;
  url_error : string -> option string;
  status_line : Z -> string
}.

Definition test_webhooks : WebhookEnv := {|
  json_marshal := fun _ => "{}";
  jsonb_out := fun _ => "{}";
  url_error := fun u => if decide (u = "") then Some "empty url" else None;
  status_line := fun code => pretty (Z.to_N code)
|}.

(** ** Severities *)

Definition severityRank (sev : string) : option Z :=
  match sev with
  | "low" => Some 0 | "medium" => Some 1 | "high" => Some 2 | "critical" => Some 3
  | _ => None
  end.

(** Indexing a Go map: the zero value for an absent key. *)
Definition rank (sev : string) : Z := default 0 (severityRank sev).

Definition incidentTypeFloor (ty : string) : option string :=
  match ty with
  | "h2_leak" => Some "low" | "collision" => Some "high" | "fire" => Some "critical" | "prd_vent" => Some "high"
  | "evacuation" => Some "high" | "sos" => Some "critical" | "security" => Some "high" | "breakdown" => Some "low"
  | "other" => Some "low"
  | _ => None
  end.

Definition applySeverityFloor (ty sev : string) : string :=
  let sev := match severityRank sev with None => "medium" | Some _ => sev end in
  match incidentTypeFloor ty with
  | Some floor => if rank sev <? rank floor then floor else sev
  | None => sev
  end.

Definition severityFromPpm (ppm : float64) : string :=
  if fle (float_of_Z 20000) ppm then "critical"
  else if fle (float_of_Z 5000) ppm then "high"
  else if fle (float_of_Z 1000) ppm then "medium"
  else "low".

Definition leakSeverity (caller : string) (ppm : option float64) : string :=
  let caller := match severityRank caller with None => "high" | Some _ => caller end in
  match ppm with
  | None => caller
  | Some p => let derived := severityFromPpm p in if rank caller <? rank derived then derived else caller
  end.

(** [EscalateIncident]'s CASE. *)
Definition escalate (sev : string) : string :=
  match sev with "low" => "medium" | "medium" => "high" | "high" => "critical" | _ => sev end.

(** [status IN ('open','in_progress','acknowledged')]. *)
Definition live (st : string) : bool := bool_decide (st ∈ ["open"; "in_progress"; "acknowledged"]).

(** ** Statements *)

Definition insert_incident (i : Incident) : incident_stmt unit := fun d =>
  match incidents d !! in_id i with
  | Some _ => Err (PgError unique_violation)
  | None =>
      if match in_bus i with Some b => bool_decide (b ∈ buses d) | None => true end &&
         match in_station i with Some s => bool_decide (is_Some (station_status d !! s)) | None => true end
      then Ok (tt, put_incident i) else Err (PgError foreign_key_violation)
  end.

(** [UPDATE infra.incidents SET ... WHERE id = $1 AND p RETURNING]. *)
Definition update_incident (id : string) (p : Incident -> bool) (f : Incident -> Incident) : incident_stmt Incident := fun d =>
  match incidents d !! id with
  | None => Err ErrNoRows
  | Some i => if p i then Ok (f i, put_incident (f i)) else Err ErrNoRows
  end.

(** [UPDATE infra.stations SET status = 'emergency' WHERE id AND status != 'emergency']. *)
Definition station_to_emergency (id : string) : incident_stmt unit := fun d =>
  match station_status d !! id with
  | None => Err ErrNoRows
  | Some st => if decide (st = "emergency") then Err ErrNoRows else Ok (tt, put_station_status id "emergency")
  end.

(** The restore: from emergency, with no live critical incident left. *)
Definition critical_at (id : string) (i : Incident) : bool :=
  holds (tri_eq (in_station i) (Some id)) && bool_decide (in_severity i = "critical") && live (in_status i).

Definition station_to_online (id : string) : incident_stmt unit := fun d =>
  match station_status d !! id with
  | None => Err ErrNoRows
  | Some st => if decide (st = "emergency")
               then match find_row (critical_at id) (incidents d) with
                    | Some _ => Err ErrNoRows
                    | None => Ok (tt, put_station_status id "online")
                    end
               else Err ErrNoRows
  end.

(** [array_position(ARRAY['low',...], a) < array_position(ARRAY['low',...], b)]. *)
Definition tri_severity_lt (a b : string) : tri := tri_lt (severityRank a) (severityRank b).

Section Fold.
Context `{WebhookEnv}.

(** [meta->>key]. *)
Definition meta_text (k : string) (m : meta) : option string :=
  match jget k m with
  | None | Some JNull => None
  | Some (JStr s) => Some s
  | Some v => Some (jsonb_out v)
  end.

(** [COALESCE((meta->>'readings')::int, 1) + 1]. *)
Definition next_readings (m : meta) : result Z :=
  let plus1 n := if in_int4 (n + 1) then Ok (n + 1) else Err (PgError numeric_value_out_of_range) in
  match jget "readings" m with
  | None | Some JNull => Ok 2
  | Some (JInt n) => if in_int4 n then plus1 n else Err (PgError numeric_value_out_of_range)
  | Some (JStr s) => match ParseInt (TrimSpace s) with
                     | Some n => if in_int4 n then plus1 n else Err (PgError numeric_value_out_of_range)
                     | None => Err (PgError "22P02")
                     end
  | Some _ => Err (PgError "22P02")
  end.

(** A live leak of the sensor, opened in the last half hour. *)
Definition same_leak (sensor : string) (now : Z) (i : Incident) : bool :=
  bool_decide (in_type i = "h2_leak") && bool_decide (meta_text "sensor_id" (in_meta i) = Some sensor) &&
  live (in_status i) && (now - 1800000 <? in_opened i).

Definition fold_reading (sev : string) (ppm : option float64) (now : Z) (i : Incident) : result Incident :=
  match next_readings (in_meta i) with
  | Err e => Err e
  | Ok n =>
      let h2 := match ppm with Some p => JFloat p | None => default JNull (jget "h2_ppm" (in_meta i)) end in
      let m := jset "last_reading_at" (JTime now) (jset "readings" (JInt n) (jset "h2_ppm" h2 (in_meta i))) in
      let sev := if holds (tri_severity_lt (in_severity i) sev) then sev else in_severity i in
      Ok (with_state i sev (in_status i) (in_resolved i) m)
  end.

(** The UPDATE touches every matching row, or fails on one; the first is scanned. *)
Fixpoint fold_all (f : Incident -> result Incident) (l : list Incident) : result (list Incident) :=
  match l with
  | [] => Ok []
  | i :: l' => match f i, fold_all f l' with
               | Ok i', Ok r => Ok (i' :: r)
               | Err e, _ | _, Err e => Err e
               end
  end.

Definition fold_leak (sensor sev : string) (ppm : option float64) (now : Z) : incident_stmt Incident := fun d =>
  match fold_all (fold_reading sev ppm now) (filter (fun i => same_leak sensor now i = true) (rows (incidents d))) with
  | Err e => Err e
  | Ok [] => Err ErrNoRows
  | Ok (i :: l) => Ok (i, fun d => foldr put_incident d (i :: l))
  end.
End Fold.

(** ** Webhook deliveries *)

(** HMAC-SHA256 on byte lists. *)
Definition hmac_sha256 (key msg : list Z) : list Z :=
  let k := if (64 <? length key)%nat then Sha256.Sum256 key else key in
  let k := k ++ repeat 0 (64 - length k) in
  Sha256.Sum256 (map (fun b => Z.lxor b 92) k ++ Sha256.Sum256 (map (fun b => Z.lxor b 54) k ++ msg)).

#[global] Arguments hmac_sha256 : simpl never.

Definition incident_json (i : Incident) : json :=
  JObj ([("id", JStr (in_id i)); ("type", JStr (in_type i)); ("severity", JStr (in_severity i))]
    ++ jopt_field "bus_id" (in_bus i) ++ jopt_field "station_id" (in_station i)
    ++ [("status", JStr (in_status i)); ("opened_at", JTime (in_opened i))]
    ++ match in_meta i with [] => [] | m => [("meta", JObj m)] end).

Definition subscription_json (s : Subscription) : json :=
  JObj [("id", JStr (ws_id s)); ("url", JStr (ws_url s)); ("min_severity", JStr (ws_min s)); ("active", JBool (ws_active s));
        ("description", JStr (ws_description s)); ("created_at", JTime (ws_created s))].

Section Handlers.
Context `{Runtime} `{PgServer} `{WebhookEnv}.

Abbreviation IM := (M IncidentDB Workflows).

(** The signature header: HMAC-SHA256 over the exact request body. *)
Definition signature (secret payload : string) : string :=
  "sha256=" +:+ hex_encode (hmac_sha256 (string_bytes secret) (string_bytes payload)).

(** A delivery as it goes out: the two headers and the raw body. *)
Definition webhook_request (url secret eventType payload : string) : http_request :=
  mkHttpRequest "POST" url (JObj [("X-H2Fleet-Event", JStr eventType);
                                  ("X-H2Fleet-Signature", JStr (signature secret payload)); ("body", JStr payload)]).

Definition recordDeliveryOutcome (deliveryID : string) (ok : bool) (errText : string) : IM unit :=
  let! now := gets w_now in
  do! db_exec (fun d => match deliveries d !! deliveryID with
                        | None => Ok (tt, fun d => d)
                        | Some x => Ok (tt, put_delivery (if ok then with_outcome x "delivered" None (Some now)
                                                          else with_outcome x "failed" (Some errText) (wd_delivered x)))
                        end) in
  gret tt.

Definition attemptWebhookDelivery (deliveryID url secret eventType payload : string) : IM unit :=
  match url_error url with
  | Some err => recordDeliveryOutcome deliveryID false err
  | None =>
      let! resp := http_do (webhook_request url secret eventType payload) in
      match resp with
      | HttpFail _ _ msg => recordDeliveryOutcome deliveryID false msg
      | HttpReply _ code _ _ =>
          if (200 <=? code) && (code <? 300) then recordDeliveryOutcome deliveryID true ""
          else recordDeliveryOutcome deliveryID false ("receiver returned " +:+ status_line code)
      end
  end.

Definition webhook_payload (i : Incident) (eventType : string) (now : Z) : json :=
  JObj [("event", JStr eventType); ("incident", incident_json i); ("sent_at", JTime now)].

(** The fan-out over the loaded subscriptions. *)
Fixpoint deliver_all (i : Incident) (eventType : string) (payload : json) (subs : list Subscription) : IM unit :=
  match subs with
  | [] => gret tt
  | s :: subs' =>
      if rank (in_severity i) <? rank (ws_min s) then deliver_all i eventType payload subs'
      else
        let! now := gets w_now in
        let! id := new_uuid in
        let! ins := db_exec (fun d => match deliveries d !! id, subscriptions d !! ws_id s with
                      | None, Some _ => Ok (tt, put_delivery (mkDelivery id (ws_id s) (in_id i) eventType payload "pending" 0 None now None))
                      | Some _, _ => Err (PgError unique_violation)
                      | _, None => Err (PgError foreign_key_violation)
                      end) in
        match ins with
        | Err _ => deliver_all i eventType payload subs'
        | Ok _ =>
            do! attemptWebhookDelivery id (ws_url s) (ws_secret s) eventType (json_marshal payload) in
            deliver_all i eventType payload subs'
        end
  end.

Definition dispatchIncidentWebhooks (i : Incident) (eventType : string) : IM unit :=
  let! subs := read_rows (fun d => filter (fun s => ws_active s = true) (rows (subscriptions d))) in
  match subs with
  | Err _ | Ok [] => gret tt
  | Ok subs =>
      let! now := gets w_now in
      deliver_all i eventType (webhook_payload i eventType now) subs
  end.

(** ** Incident handlers *)

Definition setStationEmergency (i : Incident) : IM unit :=
  match in_station i with
  | Some station =>
      if negb (bool_decide (in_severity i = "critical")) then gret tt
      else
        let! r := db_exec (station_to_emergency station) in
        match r with
        | Err _ => gret tt
        | Ok _ =>
            do! publish "station.status.changed"
                  [("station_id", JStr station); ("status", JStr "emergency"); ("reason", JStr ("critical incident " +:+ in_id i))] in
            gret tt
        end
  | None => gret tt
  end.

Definition afterIncidentOpened (i : Incident) : IM unit :=
  do! setStationEmergency i in
  dispatchIncidentWebhooks i "incident.opened".

Definition maybeRestoreStation (station : string) : IM unit :=
  let! r := db_exec (station_to_online station) in
  match r with
  | Err _ => gret tt
  | Ok _ =>
      do! publish "station.status.changed"
            [("station_id", JStr station); ("status", JStr "online"); ("reason", JStr "all critical incidents resolved")] in
      gret tt
  end.

Record createIncidentRequest : Type := mkCreateIncident {
  ci_type : string; ci_severity : string; ci_bus : option string; ci_station : option string;
  ci_description : string; ci_meta : option meta
}.

Definition insertIncident (r : createIncidentRequest) : IM (result Incident) :=
  let! now := gets w_now in
  let! id := new_uuid in
  db_exec (fun d => match uuid_arg (ci_bus r), uuid_arg (ci_station r) with
                    | Ok bus, Ok station =>
                        let i := mkIncident id (ci_type r) (ci_severity r) bus station "open" now (default [] (ci_meta r)) None in
                        result_map (fun x => (i, x.2)) (insert_incident i d)
                    | Err e, _ | _, Err e => Err e
                    end).

(** [strconv.Quote] of a text with no character that needs an escape. *)
Definition unknown_type_error (ty : string) : string :=
  "unknown incident type " +:+ quoted ty +:+ " (allowed: collision, evacuation, fire, h2_leak, breakdown, other, prd_vent, security, sos)".

Definition OpenIncident (req : option createIncidentRequest) : IM response :=
  match req with
  | None => reply_error 400 ("body must include " +:+ quoted "type")
  | Some r =>
      if decide (ci_type r = "") then reply_error 400 ("body must include " +:+ quoted "type")
      else match incidentTypeFloor (ci_type r) with
      | None => reply_error 422 (unknown_type_error (ci_type r))
      | Some _ =>
          let sev := applySeverityFloor (ci_type r) (if decide (ci_severity r = "") then "medium" else ci_severity r) in
          let m := if decide (ci_description r = "") then ci_meta r
                   else Some (jset "description" (JStr (ci_description r)) (default [] (ci_meta r))) in
          try! i := insertIncident (mkCreateIncident (ci_type r) sev (ci_bus r) (ci_station r) (ci_description r) m)
            catch e => infra_internal "open incident" e in
          do! afterIncidentOpened i in
          reply 201 (incident_json i)
      end
  end.

Definition ListIncidents (st : string) : IM response :=
  try! l := db_query (fun d => Ok (take 200 (order_desc in_opened (filter (fun i => st = "" \/ in_status i = st) (rows (incidents d))))))
    catch e => infra_internal "list incidents" e in
  reply 200 (JObj [("incidents", JList (map incident_json l))]).

Definition AckIncident (id : string) : IM response :=
  let! r := db_exec (fun d => match uuid_in id with
                       | Err e => Err e
                       | Ok i => update_incident i (fun x => bool_decide (in_status x ∈ ["open"; "in_progress"]))
                                   (fun x => with_state x (in_severity x) "acknowledged" (in_resolved x) (in_meta x)) d
                       end) in
  match r with
  | Err ErrNoRows => reply_error 409 "incident not found or not in an acknowledgeable status"
  | Err e => infra_internal "ack incident" e
  | Ok i =>
      do! Signal (IncidentWorkflowIDPrefix +:+ id) SignalIncidentAcknowledged [("incident_id", JStr id)] in
      reply 200 (incident_json i)
  end.

Definition ResolveIncident (id : string) : IM response :=
  let! now := gets w_now in
  let! r := db_exec (fun d => match uuid_in id with
                       | Err e => Err e
                       | Ok i => update_incident i (fun x => live (in_status x))
                                   (fun x => with_state x (in_severity x) "resolved" (Some now) (in_meta x)) d
                       end) in
  match r with
  | Err ErrNoRows => reply_error 409 "incident not found or already resolved"
  | Err e => infra_internal "resolve incident" e
  | Ok i =>
      do! Signal (IncidentWorkflowIDPrefix +:+ id) SignalIncidentResolved [("incident_id", JStr id)] in
      do! match in_station i with Some s => maybeRestoreStation s | None => gret tt end in
      do! dispatchIncidentWebhooks i "incident.resolved" in
      reply 200 (incident_json i)
  end.

Record leakEventRequest : Type := mkLeak {
  lk_sensor : string; lk_station : option string; lk_bus : option string; lk_severity : string;
  lk_ppm : option float64; lk_location : string
}.

Definition jopt_float (o : option float64) : json := match o with Some f => JFloat f | None => JNull end.

Definition leak_event (r : leakEventRequest) (i : Incident) : list (string * json) :=
  [("incident_id", JStr (in_id i)); ("sensor_id", JStr (lk_sensor r)); ("severity", JStr (in_severity i));
   ("bus_id", jopt_str (lk_bus r)); ("station_id", jopt_str (lk_station r)); ("h2_ppm", jopt_float (lk_ppm r));
   ("location", JStr (lk_location r))].

Definition leak_meta (r : leakEventRequest) : meta :=
  [("sensor_id", JStr (lk_sensor r)); ("h2_ppm", jopt_float (lk_ppm r)); ("location", JStr (lk_location r)); ("readings", JInt 1)].

Definition IngestLeak (req : option leakEventRequest) : IM response :=
  match req with
  | None => reply_error 400 ("body must include " +:+ quoted "sensor_id")
  | Some r =>
      if decide (lk_sensor r = "") then reply_error 400 ("body must include " +:+ quoted "sensor_id")
      else
        let sev := leakSeverity (lk_severity r) (lk_ppm r) in
        let! now := gets w_now in
        let! existing := db_exec (fold_leak (lk_sensor r) sev (lk_ppm r) now) in
        match existing with
        | Ok i => reply 200 (JObj [("incident", incident_json i); ("deduplicated", JBool true)])
        | Err ErrNoRows =>
            try! i := insertIncident (mkCreateIncident "h2_leak" sev (lk_bus r) (lk_station r) "" (Some (leak_meta r)))
              catch e => infra_internal "ingest leak event" e in
            do! publish "safety.leak.detected" (leak_event r i) in
            do! Signal (IncidentWorkflowIDPrefix +:+ in_id i) SignalLeakDetected (leak_event r i) in
            do! afterIncidentOpened i in
            reply 202 (JObj [("incident", incident_json i)])
        | Err e => infra_internal "dedup leak event" e
        end
  end.

(** The driver's running job, latest first; the route's empty text is null. *)
Definition driver_context (sub : string) (d : IncidentDB) : result (option string * option string) :=
  match order_desc (fun j => default (dj_created j) (dj_starts j))
          (filter (fun j => dj_driver j = sub /\ dj_status j ∈ ["accepted"; "in_progress"]) (rows (dispatch d))) with
  | [] => Err ErrNoRows
  | j :: _ => Ok (dj_vehicle j, if decide (dj_route j = "") then None else Some (dj_route j))
  end.

(** The last position of a bus; a null position does not scan into a [float64]. *)
Definition last_position (bus : string) (d : IncidentDB) : result (float64 * float64) :=
  match order_desc tm_ts (filter (fun t => tm_bus t = bus) (telemetry d)) with
  | [] => Err ErrNoRows
  | t :: _ => match tm_position t with Some p => Ok p | None => Err (ErrMsg "cannot scan NULL into *float64") end
  end.

Definition set_opt (k : string) (o : option string) (m : meta) : meta :=
  match o with Some s => jset k (JStr s) m | None => m end.

(** The incident, its event, the workflow signal and the follow-up. *)
Definition open_sos (subject : string) (vehicle route : option string) (m : meta) : IM response :=
  try! i := insertIncident (mkCreateIncident "sos" "critical" vehicle None "" (Some m)) catch e => infra_internal "open sos incident" e in
  let event := [("incident_id", JStr (in_id i)); ("driver_sub", JStr subject); ("severity", JStr (in_severity i));
                ("vehicle_id", jopt_str vehicle); ("route", jopt_str route)] in
  do! publish "safety.sos" event in
  do! Signal (IncidentWorkflowIDPrefix +:+ in_id i) SignalLeakDetected event in
  do! afterIncidentOpened i in
  reply 201 (JObj [("incident", incident_json i)]).

(** The body is absent, malformed, or its description. *)
Definition TriggerSOS (ctx : claims) (body : option (option string)) : IM response :=
  let subject := Subject ctx in
  if decide (subject = "") then reply_error 401 "authenticated subject required"
  else match body with
  | Some None => reply_error 400 "invalid JSON body"
  | _ =>
      let description := match body with Some (Some s) => s | _ => "" end in
      let m := set_opt "description" (if decide (description = "") then None else Some description)
                 [("driver_sub", JStr subject); ("source", JStr "driver_sos")] in
      let! job := db_query (driver_context subject) in
      match match job with Ok x => Ok x | Err ErrNoRows => Ok (None, None) | Err e => Err e end with
      | Err e => infra_internal "load driver dispatch context" e
      | Ok (vehicle, route) =>
          let m := set_opt "route" route (set_opt "vehicle_id" vehicle m) in
          match vehicle with
          | None => open_sos subject vehicle route m
          | Some bus =>
              let! pos := db_query (last_position bus) in
              match pos with
              | Ok (lat, lon) => open_sos subject vehicle route (jset "lon" (JFloat lon) (jset "lat" (JFloat lat) m))
              | Err ErrNoRows => open_sos subject vehicle route m
              | Err e => infra_internal "load vehicle position" e
              end
          end
      end
  end.

(** ** Subscriptions *)

Definition CreateWebhookSubscription (req : option (string * string * string * string)) : IM response :=
  match req with
  | None => reply_error 400 ("body must include " +:+ quoted "url" +:+ " and " +:+ quoted "secret")
  | Some (url, secret, minSeverity, description) =>
      if decide (url = "" \/ secret = "")
      then reply_error 400 ("body must include " +:+ quoted "url" +:+ " and " +:+ quoted "secret")
      else
        let minSeverity := if decide (minSeverity = "") then "high" else minSeverity in
        match severityRank minSeverity with
        | None => reply_error 400 "min_severity must be low, medium, high or critical"
        | Some _ =>
            let! now := gets w_now in
            let! id := new_uuid in
            let s := mkSubscription id url secret minSeverity true description now in
            try! _ := db_exec (fun d => match subscriptions d !! id with
                                        | Some _ => Err (PgError unique_violation)
                                        | None => Ok (tt, put_subscription s)
                                        end) catch e => infra_internal "create webhook subscription" e in
            reply 201 (subscription_json s)
        end
  end.

Definition ListWebhookSubscriptions : IM response :=
  try! l := db_query (fun d => Ok (order_desc ws_created (rows (subscriptions d))))
    catch e => infra_internal "list webhook subscriptions" e in
  reply 200 (JObj [("subscriptions", JList (map subscription_json l))]).

Definition DeactivateWebhookSubscription (id : string) : IM response :=
  try! n := db_exec (fun d => match uuid_in id with
                      | Err e => Err e
                      | Ok i => match subscriptions d !! i with
                                | None => Ok (0, fun d => d)
                                | Some s => Ok (1, put_subscription (mkSubscription (ws_id s) (ws_url s) (ws_secret s) (ws_min s)
                                                     false (ws_description s) (ws_created s)))
                                end
                      end) catch e => infra_internal "deactivate webhook subscription" e in
  if decide (n = 0) then reply_error 404 "subscription not found"
  else reply 200 (JObj [("active", JBool false)]).

Definition RetryWebhookDelivery (deliveryID : string) : IM response :=
  let! r := db_query (fun d => match uuid_in deliveryID with
                       | Err e => Err e
                       | Ok i => match deliveries d !! i with
                                 | Some x => match subscriptions d !! wd_subscription x with
                                             | Some s => Ok (x, s)
                                             | None => Err ErrNoRows
                                             end
                                 | None => Err ErrNoRows
                                 end
                       end) in
  match r with
  | Err ErrNoRows => reply_error 404 "delivery not found"
  | Err e => infra_internal "load webhook delivery" e
  | Ok (x, s) =>
      if decide (wd_status x = "delivered") then reply_error 409 "delivery already succeeded"
      else
        do! attemptWebhookDelivery (wd_id x) (ws_url s) (ws_secret s) (wd_event x) (jsonb_out (wd_payload x)) in
        try! st := db_query (fun d => match uuid_in deliveryID with
                               | Err e => Err e
                               | Ok i => match deliveries d !! i with Some x => Ok (wd_status x) | None => Err ErrNoRows end
                               end) catch e => infra_internal "reload webhook delivery" e in
        reply 200 (JObj [("delivery_id", JStr deliveryID); ("status", JStr st)])
  end.

(** ** Activities of the incident workflow *)

Definition SetIncidentInProgress (id : string) : IM (result unit) :=
  let! r := db_exec (fun d => match uuid_in id with
                       | Err e => Err e
                       | Ok i => update_incident i (fun x => bool_decide (in_status x ∈ ["open"; "acknowledged"]))
                                   (fun x => with_state x (in_severity x) "in_progress" (in_resolved x) (in_meta x)) d
                       end) in
  match r with Ok _ | Err ErrNoRows => gret (Ok tt) | Err e => gret (Err e) end.

Definition EscalateIncident (id : string) : IM (result unit) :=
  let! r := db_exec (fun d => match uuid_in id with
                       | Err e => Err e
                       | Ok i => update_incident i (fun x => negb (bool_decide (in_status x = "resolved")))
                                   (fun x => with_state x (escalate (in_severity x)) (in_status x) (in_resolved x) (in_meta x)) d
                       end) in
  match r with Ok _ | Err ErrNoRows => gret (Ok tt) | Err e => gret (Err e) end.

Definition MarkIncidentResolved (id : string) : IM (result unit) :=
  let! r := db_exec (fun d => match uuid_in id with
                       | Err e => Err e
                       | Ok i => update_incident i (fun x => negb (bool_decide (in_status x = "resolved")))
                                   (fun x => with_state x (in_severity x) "resolved" (in_resolved x) (in_meta x)) d
                       end) in
  match r with Ok _ | Err ErrNoRows => gret (Ok tt) | Err e => gret (Err e) end.

(** ** The evidence pack *)

(** The first row whose prev_hash is not its predecessor's hash in the slice. *)
Fixpoint slice_break (prev : Entry) (l : list Entry) : option Entry :=
  match l with
  | [] => None
  | e :: l' => if decide (en_prev e = en_hash prev) then slice_break e l' else Some e
  end.

(** The hash of the last row before an id. *)
Definition anchor_hash (id : Z) (log : list Entry) : option string :=
  head (rev (map en_hash (filter (fun e => en_num e < id) log))).

(** The slice-linkage verdict: rows checked, and the id of the break. *)
Definition slice_linkage (log slice : list Entry) : option Z :=
  match slice with
  | [] => None
  | first :: rest =>
      match slice_break first rest with
      | Some e => Some (en_num e)
      | None => if decide (en_prev first = default "" (anchor_hash (en_num first) log)) then None else Some (en_num first)
      end
  end.

Definition linkage_json (checked : Z) (brk : option Z) : json :=
  match brk with
  | None => JObj [("checked_rows", JInt checked); ("intact", JBool true)]
  | Some id => JObj [("checked_rows", JInt checked); ("intact", JBool false); ("break_at_id", JInt id)]
  end.

Definition entry_json (e : Entry) : json :=
  JObj [("id", JInt (en_num e)); ("actor_sub", JStr (en_actor e)); ("actor_roles", JList (map JStr (en_roles e)));
        ("action", JStr (en_action e)); ("entity", JStr (en_entity e)); ("entity_id", JStr (en_entity_id e));
        ("ts", JTime (en_ts e)); ("prev_hash", JStr (en_prev e)); ("hash", JStr (en_hash e))].

(** Every column of the window scans into a [float64]; a null is an error. *)
Fixpoint scan_telemetry (l : list Telemetry) : result (list json) :=
  match l with
  | [] => Ok []
  | t :: l' =>
      match tm_speed t, tm_h2 t, tm_fc t, tm_soc t, tm_position t with
      | Some speed, Some h2, Some fc, Some soc, Some (lat, lon) =>
          result_map (fun r => JObj [("ts", JTime (tm_ts t)); ("speed_kph", JFloat speed); ("h2_level_pct", JFloat h2);
            ("fuel_cell_kw", JFloat fc); ("battery_soc_pct", JFloat soc); ("lat", JFloat lat); ("lon", JFloat lon)] :: r) (scan_telemetry l')
      | _, _, _, _, _ => Err (ErrMsg "cannot scan NULL into *float64")
      end
  end.

Definition delivery_json (x : Delivery * string) : json :=
  JObj [("id", JStr (wd_id x.1)); ("url", JStr x.2); ("event_type", JStr (wd_event x.1)); ("status", JStr (wd_status x.1));
        ("attempts", JInt (wd_attempts x.1)); ("created_at", JTime (wd_created x.1)); ("delivered_at", timeValue (wd_delivered x.1));
        ("last_error", jopt_str (wd_error x.1))].

Definition delivery_rows (incident : string) (d : IncidentDB) : list (Delivery * string) :=
  omap (fun x => match subscriptions d !! wd_subscription x with Some s => Some (x, ws_url s) | None => None end)
    (order_asc wd_created (filter (fun x => wd_incident x = incident) (rows (deliveries d)))).

Definition chain_custody_note : string :=
  "audit rows carry their hash-chain values; slice_linkage verifies the slice is contiguous and unspliced; full-chain proof: GET /v1/audit/verify (audit-log)".

(** The last section of the pack. *)
Definition finish_pack (i : string) (pack : list (string * json)) : IM response :=
  try! ds := db_query (fun d => Ok (delivery_rows i d)) catch e => infra_internal "load webhook deliveries" e in
  reply 200 (JObj (pack ++ [("webhook_deliveries", JList (map delivery_json ds))])).

(** The telemetry of the half hour around the opening, for an incident of a bus. *)
Definition pack_telemetry (i : string) (inc : Incident) (pack : list (string * json)) : IM response :=
  match in_bus inc with
  | None => finish_pack i pack
  | Some bus =>
      try! ts := db_query (fun d => Ok (take 2000 (order_asc tm_ts (filter (fun t =>
                   tm_bus t = bus /\ in_opened inc - 900000 <= tm_ts t /\ tm_ts t <= in_opened inc + 900000) (telemetry d)))))
        catch e => infra_internal "load telemetry window" e in
      match scan_telemetry ts with
      | Err e => infra_internal "scan telemetry window" e
      | Ok rs => finish_pack i (pack ++ [("telemetry_window", JList rs)])
      end
  end.

Definition GetEvidencePack (id : string) : IM response :=
  let! r := db_query (fun d => match uuid_in id with
                       | Err e => Err e
                       | Ok i => match incidents d !! i with Some x => Ok (i, x) | None => Err ErrNoRows end
                       end) in
  match r with
  | Err ErrNoRows => reply_error 404 "incident not found"
  | Err e => infra_internal "load incident for evidence pack" e
  | Ok (i, inc) =>
      let! now := gets w_now in
      try! slice := db_query (fun d => Ok (filter (fun e => en_entity_id e = id) (trail d))) catch e => infra_internal "load audit slice" e in
      let pack brk := [("incident_id", JStr id); ("incident", incident_json inc); ("generated_at", JTime now);
                       ("chain_custody", JStr chain_custody_note); ("audit_slice", JList (map entry_json slice));
                       ("slice_linkage", linkage_json (Z.of_nat (length slice)) brk)] in
      match slice with
      | [] => pack_telemetry i inc (pack None)
      | first :: rest =>
          match slice_break first rest with
          | Some e => pack_telemetry i inc (pack (Some (en_num e)))
          | None =>
              try! brk := db_query (fun d => Ok (slice_linkage (trail d) slice)) catch e => infra_internal "verify slice anchor" e in
              pack_telemetry i inc (pack brk)
          end
      end
  end.
End Handlers.
