(* ===== verification/IncidentTheorems.v ===== *)
(** * Correctness of incidents, webhooks and evidence packs

    Over any sequence of requests, workflow activities and faults: the tables
    keep their types, a severity only rises and a resolution is final; a
    station in emergency stays so while a critical incident is live; every
    partner request is signed with its subscription's secret.  The evidence
    pack's linkage verdict is characterised on an intact audit chain. *)

From Stdlib Require Import String Sorted.
From S2P Require Import Prelude Codec World Float64 Auth CommerceDb InfraDb Dispatch AuditLog Incidents.

Open Scope Z_scope.
Open Scope go_scope.

(** Membership of a concrete text in a concrete list. *)
Ltac mem := lazymatch goal with |- ?P => apply (bool_decide_eq_true_1 P); vm_compute; reflexivity end.

(** ** Severities *)

Lemma severityRank_In sev : is_Some (severityRank sev) <-> sev ∈ ["low"; "medium"; "high"; "critical"].
Proof.
  split.
  - intros [r Hr]. unfold severityRank in Hr. repeat case_match; simplify_eq; set_solver.
  - intros H. repeat (apply elem_of_cons in H as [->|H]; [done|]). by apply not_elem_of_nil in H.
Qed.

Lemma rank_bounds sev : 0 <= rank sev <= 3.
Proof. unfold rank, severityRank. repeat case_match; simpl; lia. Qed.

Lemma escalate_spec sev : is_Some (severityRank sev) -> is_Some (severityRank (escalate sev)) /\ rank sev <= rank (escalate sev).
Proof.
  intros H%severityRank_In. repeat (apply elem_of_cons in H as [->|H]; [by vm_compute; split; [eexists|]|]).
  by apply not_elem_of_nil in H.
Qed.

Lemma severityFromPpm_typed p : is_Some (severityRank (severityFromPpm p)).
Proof. unfold severityFromPpm. repeat case_match; by eexists. Qed.

(** The effective severity of a leak reading is one of the four levels,
    never below the level the caller asked for and never below the band of
    the measured concentration. *)
Theorem leak_severity_floor caller ppm :
  is_Some (severityRank (leakSeverity caller ppm)) /\
  rank caller <= rank (leakSeverity caller ppm) /\
  match ppm with Some p => rank (severityFromPpm p) <= rank (leakSeverity caller ppm) | None => True end.
Proof.
  unfold leakSeverity. pose proof (fun p => severityFromPpm_typed p) as Hp.
  assert (forall c, severityRank c = None -> rank c = 0) as Hz by (intros c E; unfold rank; by rewrite E).
  destruct (severityRank caller) eqn:Ec.
  - destruct ppm as [p|]; [|by rewrite Ec; split_and!; [eexists|lia|]].
    destruct (_ <? _) eqn:El; zbool; rewrite ?Ec; split_and!; try lia; [apply Hp|by eexists].
  - rewrite (Hz caller Ec). destruct ppm as [p|]; [|by vm_compute; split_and!; [eexists| |]].
    destruct (_ <? _) eqn:El; zbool; split_and!; try lia; [apply Hp|apply rank_bounds|by eexists|vm_compute; discriminate].
Qed.

(** ** Types and evolution of the tables *)

Definition status_ok (st : string) : Prop := st ∈ ["open"; "in_progress"; "acknowledged"; "resolved"].

Record typed (d : IncidentDB) : Prop := mkTyped {
  ty_incident : forall k i, incidents d !! k = Some i ->
    in_id i = k /\ is_Some (severityRank (in_severity i)) /\ status_ok (in_status i);
  ty_subscription : forall k s, subscriptions d !! k = Some s -> ws_id s = k /\ is_Some (severityRank (ws_min s));
  ty_delivery : forall k x, deliveries d !! k = Some x ->
    wd_id x = k /\ wd_status x ∈ ["pending"; "delivered"; "failed"] /\ is_Some (subscriptions d !! wd_subscription x) /\
    (wd_status x = "delivered" -> wd_error x = None /\ is_Some (wd_delivered x))
}.

(** What an incident may become: the facts it was opened with stay, the
    severity does not drop, and a resolved incident stays resolved. *)
Definition moves (i i' : Incident) : Prop :=
  in_id i' = in_id i /\ in_type i' = in_type i /\ in_bus i' = in_bus i /\ in_station i' = in_station i /\
  in_opened i' = in_opened i /\ rank (in_severity i) <= rank (in_severity i') /\
  (in_status i = "resolved" -> in_status i' = "resolved").

#[global] Instance moves_preorder : PreOrder moves.
Proof.
  split; [intros i; unfold moves; split_and!; try done; lia|].
  intros i j k (?&?&?&?&?&?&?) (?&?&?&?&?&?&?). unfold moves. split_and!; try congruence; [lia|auto].
Qed.

Definition evolves (d d' : IncidentDB) : Prop :=
  forall k i, incidents d !! k = Some i -> exists i', incidents d' !! k = Some i' /\ moves i i'.

(** Subscriptions are never removed and keep their address and secret. *)
Definition same_subscription (x x' : Subscription) : Prop :=
  ws_id x' = ws_id x /\ ws_url x' = ws_url x /\ ws_secret x' = ws_secret x.

Definition subs_persist (d d' : IncidentDB) : Prop :=
  forall k x, subscriptions d !! k = Some x -> exists x', subscriptions d' !! k = Some x' /\ same_subscription x x'.

Definition sound (v v' : left_behind IncidentDB Workflows) : Prop :=
  typed (lf_db v) -> typed (lf_db v') /\ evolves (lf_db v) (lf_db v') /\ subs_persist (lf_db v) (lf_db v').

#[global] Instance same_subscription_preorder : PreOrder same_subscription.
Proof. split; [done|]. intros x y z (?&?&?) (?&?&?). unfold same_subscription. split_and!; congruence. Qed.

#[global] Instance sound_preorder : PreOrder sound.
Proof.
  split.
  - intros v Ht. split_and!; [done| |]; intros k i Hi; exists i; (split; [done|reflexivity]).
  - intros v1 v2 v3 H1 H2 Ht. destruct (H1 Ht) as (Ht2 & He & Hp). destruct (H2 Ht2) as (Ht3 & He' & Hp'). split_and!; [done| |].
    + intros k i Hi. destruct (He k i Hi) as (i2 & Hi2 & M2). destruct (He' k i2 Hi2) as (i3 & Hi3 & M3).
      exists i3. split; [done|]. by etransitivity.
    + intros k i Hi. destruct (Hp k i Hi) as (i2 & Hi2 & M2). destruct (Hp' k i2 Hi2) as (i3 & Hi3 & M3).
      exists i3. split; [done|]. by etransitivity.
Qed.

Lemma evolves_same d d' : incidents d' = incidents d -> evolves d d'.
Proof. intros E k i Hi. exists i. rewrite E. split; [done|reflexivity]. Qed.

Lemma persist_same d d' : subscriptions d' = subscriptions d -> subs_persist d d'.
Proof. intros E k i Hi. exists i. rewrite E. split; [done|reflexivity]. Qed.

Lemma put_incident_typed i d :
  typed d -> is_Some (severityRank (in_severity i)) -> status_ok (in_status i) -> typed (put_incident i d).
Proof.
  intros [Hi Hs Hd] Hsev Hst. split; simpl; try done.
  intros k x [[<- <-]|[? ?]]%lookup_insert_Some; eauto.
Qed.

Lemma put_incident_evolves i d : (forall o, incidents d !! in_id i = Some o -> moves o i) -> evolves d (put_incident i d).
Proof.
  intros Ho k x Hx. simpl. destruct (decide (k = in_id i)) as [->|Hne].
  - exists i. rewrite lookup_insert_eq. eauto.
  - exists x. rewrite lookup_insert_ne by done. split; [done|reflexivity].
Qed.

(** A conditional update whose rows only move. *)
Lemma update_incident_sound id p f d i g l s :
  update_incident id p f d = Ok (i, g) ->
  (forall x, p x = true -> is_Some (severityRank (in_severity x)) -> status_ok (in_status x) -> moves x (f x) /\ is_Some (severityRank (in_severity (f x))) /\ status_ok (in_status (f x))) ->
  sound (mkLeft d l s) (mkLeft (g d) l s).
Proof.
  unfold update_incident. destruct (incidents d !! id) as [x|] eqn:Ex; [|done]. destruct (p x) eqn:Ep; [|done].
  intros [= <- <-] Hf Ht. destruct (ty_incident d Ht id x Ex) as (Hid & Hsev & Hok). destruct (Hf x Ep Hsev Hok) as (Hm & Hs & Hst).
  split_and!; [by apply put_incident_typed| |by apply persist_same]. apply put_incident_evolves. intros o Ho.
  assert (in_id (f x) = id) as E by (destruct Hm as (-> & _); done). rewrite E in Ho. by simplify_eq.
Qed.

Lemma insert_incident_sound i d u g l s :
  insert_incident i d = Ok (u, g) -> is_Some (severityRank (in_severity i)) -> in_status i = "open" ->
  sound (mkLeft d l s) (mkLeft (g d) l s).
Proof.
  unfold insert_incident. destruct (incidents d !! in_id i) eqn:En; [done|]. destruct (_ && _); [|done].
  intros [= <- <-] Hsev Hst Ht. split_and!; [apply put_incident_typed; try done; rewrite Hst; by left| |by apply persist_same].
  apply put_incident_evolves. by rewrite En.
Qed.

Lemma put_delivery_typed x d :
  typed d -> wd_status x ∈ ["pending"; "delivered"; "failed"] -> is_Some (subscriptions d !! wd_subscription x) ->
  (wd_status x = "delivered" -> wd_error x = None /\ is_Some (wd_delivered x)) -> typed (put_delivery x d).
Proof.
  intros [Hi Hs Hd] Hst Hsub Hdel. split; simpl; try done.
  intros k y [[<- <-]|[? Hy]]%lookup_insert_Some; [done|by apply Hd].
Qed.

Lemma put_subscription_typed x d : typed d -> is_Some (severityRank (ws_min x)) -> typed (put_subscription x d).
Proof.
  intros [Hi Hs Hd] Hm. split; simpl; try done.
  - intros k y [[<- <-]|[? Hy]]%lookup_insert_Some; [done|by apply Hs].
  - intros k y Hy. destruct (Hd k y Hy) as (? & ? & Hsub & ?). split_and!; try done.
    destruct (decide (ws_id x = wd_subscription y)) as [->|]; [by rewrite lookup_insert_eq|by rewrite lookup_insert_ne].
Qed.

(** ** The operations *)

Inductive incident_op : Type :=
| OpOpen (req : option createIncidentRequest)
| OpAck (id : string)
| OpResolve (id : string)
| OpLeak (req : option leakEventRequest)
| OpSOS (ctx : claims) (body : option (option string))
| OpSubscribe (req : option (string * string * string * string))
| OpUnsubscribe (id : string)
| OpRetry (id : string)
| OpInProgress (id : string)
| OpEscalate (id : string)
| OpMarkResolved (id : string).

Section Run.
Context `{Runtime} `{PgServer} `{WebhookEnv}.
Abbreviation IM := (M IncidentDB Workflows).

Definition drop_answer {A} (m : IM A) : IM unit := gbind m (fun _ => gret tt).

Definition run_incident (op : incident_op) : IM unit :=
  match op with
  | OpOpen req => drop_answer (OpenIncident req)
  | OpAck id => drop_answer (AckIncident id)
  | OpResolve id => drop_answer (ResolveIncident id)
  | OpLeak req => drop_answer (IngestLeak req)
  | OpSOS ctx body => drop_answer (TriggerSOS ctx body)
  | OpSubscribe req => drop_answer (CreateWebhookSubscription req)
  | OpUnsubscribe id => drop_answer (DeactivateWebhookSubscription id)
  | OpRetry id => drop_answer (RetryWebhookDelivery id)
  | OpInProgress id => drop_answer (SetIncidentInProgress id)
  | OpEscalate id => drop_answer (EscalateIncident id)
  | OpMarkResolved id => drop_answer (MarkIncidentResolved id)
  end.

(** *** Any preorder the statements keep is kept by every operation *)

Definition deactivated (x : Subscription) : Subscription :=
  mkSubscription (ws_id x) (ws_url x) (ws_secret x) (ws_min x) false (ws_description x) (ws_created x).

Section Generic.
Variable R : left_behind IncidentDB Workflows -> left_behind IncidentDB Workflows -> Prop.
Variable may_resolve : string -> Prop.
Context `{!PreOrder R}.

Abbreviation stays d l s d' := (R (mkLeft d l s) (mkLeft d' l s)).
Abbreviation update_keeps id p f := (forall d l s i g, update_incident id p f d = Ok (i, g) -> stays d l s (g d)).

(** What has to be shown of each statement, signal and request. *)
Record hooks : Prop := mkHooks {
  h_guard : forall v v', (typed (lf_db v) -> R v v') -> R v v';
  h_typed : forall v v', R v v' -> typed (lf_db v) -> typed (lf_db v');
  h_persist : forall v v', R v v' -> typed (lf_db v) -> subs_persist (lf_db v) (lf_db v');
  h_outcome : forall d l s id x st err t, deliveries d !! id = Some x ->
    (st = "delivered" /\ err = None /\ is_Some t \/ st = "failed") -> stays d l s (put_delivery (with_outcome x st err t) d);
  h_delivery : forall d l s x, deliveries d !! wd_id x = None -> is_Some (subscriptions d !! wd_subscription x) ->
    wd_status x = "pending" -> stays d l s (put_delivery x d);
  h_http : forall d l s x ev p, subscriptions d !! ws_id x = Some x ->
    R (mkLeft d l s) (mkLeft d l (s ++ [webhook_request (ws_url x) (ws_secret x) ev p]));
  h_emergency : forall d l s id u g, station_to_emergency id d = Ok (u, g) -> stays d l s (g d);
  h_online : forall d l s id u g, station_to_online id d = Ok (u, g) -> stays d l s (g d);
  h_signal : forall d l s sg, R (mkLeft d l s) (mkLeft d (l ++ [sg]) s);
  h_insert : forall d l s i u g, insert_incident i d = Ok (u, g) -> is_Some (severityRank (in_severity i)) ->
    in_status i = "open" -> stays d l s (g d);
  h_fold : forall d l s sensor sev ppm now i g, fold_leak sensor sev ppm now d = Ok (i, g) ->
    is_Some (severityRank sev) -> stays d l s (g d);
  h_status : forall id p st, (p = fun x => bool_decide (in_status x ∈ ["open"; "in_progress"])) /\ st = "acknowledged" \/
      (p = fun x => bool_decide (in_status x ∈ ["open"; "acknowledged"])) /\ st = "in_progress" ->
    update_keeps id p (fun x => with_state x (in_severity x) st (in_resolved x) (in_meta x));
  h_escalate : forall id, update_keeps id (fun x => negb (bool_decide (in_status x = "resolved")))
    (fun x => with_state x (escalate (in_severity x)) (in_status x) (in_resolved x) (in_meta x));
  h_resolve : forall id p t, may_resolve id -> update_keeps id p (fun x => with_state x (in_severity x) "resolved" (t x) (in_meta x));
  h_subscribe : forall d l s x, subscriptions d !! ws_id x = None -> is_Some (severityRank (ws_min x)) ->
    stays d l s (put_subscription x d);
  h_unsubscribe : forall d l s i x, subscriptions d !! i = Some x -> stays d l s (put_subscription (deactivated x) d)
}.

Hypothesis Hk : hooks.
Implicit Types w : World IncidentDB Workflows.

Lemma recordDeliveryOutcome_keeps id ok err : keeps R (recordDeliveryOutcome id ok err).
Proof using All.
  unfold recordDeliveryOutcome. repeat keep_step. destruct (deliveries d !! id) as [x|] eqn:Ex; simplify_eq; [|reflexivity].
  destruct ok; apply (h_outcome Hk d l s id); eauto.
Qed.

Lemma attempt_keeps id x ev p w : subscriptions (w_db w) !! ws_id x = Some x ->
  R (view w) (view (attemptWebhookDelivery id (ws_url x) (ws_secret x) ev p w).2).
Proof using All.
  intros Hx. unfold attemptWebhookDelivery. destruct (url_error (ws_url x)); [apply recordDeliveryOutcome_keeps|].
  unfold gbind. destruct (http_do _ w) as [o w1] eqn:Eh.
  assert (view w1 = mkLeft (w_db w) (w_led w) (w_sent w ++ [webhook_request (ws_url x) (ws_secret x) ev p])) as Ev.
  { unfold http_do in Eh. destruct w as [d l b n u sc h snt]; simpl in *. destruct h; simplify_eq; done. }
  transitivity (view w1); [rewrite Ev; by apply (h_http Hk)|].
  destruct o as [|? code]; [apply recordDeliveryOutcome_keeps|]. destruct (_ && _); apply recordDeliveryOutcome_keeps.
Qed.

(** The loaded subscriptions, by what is still true of them in the table. *)
Definition loaded w (x : Subscription) : Prop :=
  exists y, subscriptions (w_db w) !! ws_id x = Some y /\ same_subscription x y.

Lemma loaded_later w w' x : R (view w) (view w') -> typed (w_db w) -> loaded w x -> loaded w' x.
Proof using All.
  intros HR Ht (y & Hy & E1 & E2 & E3). destruct (h_persist Hk _ _ HR Ht _ _ Hy) as (z & Hz & F1 & F2 & F3). exists z.
  split; [done|]. unfold same_subscription. split_and!; congruence.
Qed.

Lemma attempt_loaded_keeps id x ev p w : loaded w x ->
  R (view w) (view (attemptWebhookDelivery id (ws_url x) (ws_secret x) ev p w).2).
Proof using All.
  intros (y & Hy & E1 & E2 & E3). rewrite <- E2, <- E3. apply attempt_keeps. by rewrite E1.
Qed.

Lemma deliver_all_keeps i ev p subs w : typed (w_db w) -> Forall (loaded w) subs -> R (view w) (view (deliver_all i ev p subs w).2).
Proof using All.
  revert w. induction subs as [|x subs IH]; intros w Ht Hs; cbn [deliver_all]; [reflexivity|].
  apply Forall_cons_1 in Hs as [Hx Hs]. destruct (_ <? _); [by apply IH|].
  unfold gbind, gets, new_uuid. cbn. set (w1 := with_uuids _ w). set (stmt := fun _ => _).
  assert (R (view w) (view (db_exec stmt w1).2)) as HR1.
  { change (view w) with (view w1). apply keeps_exec; [apply _|]. subst stmt. cbn. intros d l s a g Hg.
    destruct (deliveries d !! _) eqn:Ed; [done|]. destruct (subscriptions d !! _) eqn:Es; [|done]. simplify_eq.
    apply (h_delivery Hk); simpl; [done|by rewrite Es|done]. }
  destruct (db_exec stmt w1) as [r w2]. cbn in HR1.
  pose proof (h_typed Hk _ _ HR1 Ht) as Ht2. cbn in Ht2.
  assert (Forall (loaded w2) subs) as Hs2 by (eapply list.Forall_impl; [exact Hs|]; intros; by eapply loaded_later).
  destruct r as [[]|e]; [|etransitivity; [exact HR1|by apply IH]].
  pose proof (attempt_loaded_keeps (uuid_of (w_uuids w)) x ev (json_marshal p) w2 (loaded_later _ _ _ HR1 Ht Hx)) as HR2.
  destruct (attemptWebhookDelivery _ _ _ _ _ w2) as [u w3]. cbn in HR2.
  etransitivity; [exact HR1|]. etransitivity; [exact HR2|].
  apply IH; [by apply (h_typed Hk _ _ HR2)|]. eapply list.Forall_impl; [exact Hs2|]. intros. by eapply loaded_later.
Qed.

Lemma dispatchIncidentWebhooks_keeps i ev : keeps R (dispatchIncidentWebhooks i ev).
Proof using All.
  intros w. apply (h_guard Hk). intros Ht. unfold dispatchIncidentWebhooks, gbind, gets. unfold read_rows.
  pose proof (pop_view w) as E. destruct (pop w) as [o w1]. cbn in E. rewrite <- E.
  assert (w_db w1 = w_db w) as Ed by (unfold view in E; congruence).
  set (l := filter (fun s => ws_active s = true) (rows (subscriptions (w_db w1)))).
  assert (forall subs, (forall x, x ∈ subs -> x ∈ l) -> R (view w1) (view (deliver_all i ev (webhook_payload i ev (w_now w1)) subs w1).2)) as Hall.
  { intros subs Hsub. apply deliver_all_keeps; [by rewrite Ed|]. apply list.Forall_forall.
    intros y [_ Hy]%Hsub%list_elem_of_filter. apply elem_of_rows in Hy as [k Hk']. rewrite Ed in Hk'.
    destruct (ty_subscription _ Ht k y Hk') as [<- _]. exists y. rewrite Ed. done. }
  destruct o; [| reflexivity |].
  - specialize (Hall l (fun _ Hx => Hx)). by destruct l.
  - assert (forall x, x ∈ take rows_arrived l -> x ∈ l) as Hsub by (intros x; apply subseteq_take).
    specialize (Hall _ Hsub). by destruct (take rows_arrived l).
Qed.

Lemma afterIncidentOpened_keeps i : keeps R (afterIncidentOpened i).
Proof using All.
  unfold afterIncidentOpened, setStationEmergency. repeat keep_step; [by eapply (h_emergency Hk)|].
  apply dispatchIncidentWebhooks_keeps.
Qed.

Lemma insertIncident_keeps r : is_Some (severityRank (ci_severity r)) -> keeps R (insertIncident r).
Proof using All.
  intros Hs. unfold insertIncident. repeat keep_step.
  destruct (uuid_arg (ci_bus r)); [|done]. destruct (uuid_arg (ci_station r)); [|done].
  destruct (insert_incident _ _) as [[u g']|] eqn:Ei; [|done]. simplify_eq/=. by eapply (h_insert Hk).
Qed.

Lemma update_by_uuid_keeps id p f d l s i g :
  match uuid_in id with Ok c => update_incident c p f d | Err e => Err e end = Ok (i, g) ->
  (forall c, uuid_in id = Ok c -> update_incident c p f d = Ok (i, g) -> stays d l s (g d)) -> stays d l s (g d).
Proof using Type. destruct (uuid_in id); [|done]. eauto. Qed.

Lemma applySeverityFloor_typed ty sev : is_Some (severityRank (applySeverityFloor ty sev)).
Proof using Type.
  unfold applySeverityFloor. assert (forall f, incidentTypeFloor ty = Some f -> is_Some (severityRank f)) as Hf.
  { intros f. unfold incidentTypeFloor. repeat case_match; intros; simplify_eq; by eexists. }
  destruct (severityRank sev) eqn:Es; destruct (incidentTypeFloor ty); try (destruct (_ <? _)); rewrite ?Es; eauto; by eexists.
Qed.

Lemma leakSeverity_typed c p : is_Some (severityRank (leakSeverity c p)).
Proof using Type.
  unfold leakSeverity. pose proof severityFromPpm_typed. destruct (severityRank c) eqn:Ec, p; try (destruct (_ <? _)); rewrite ?Ec; eauto; by eexists.
Qed.

Lemma open_sos_keeps sub v r m : keeps R (open_sos sub v r m).
Proof using All.
  unfold open_sos. apply keeps_bind; [apply _|apply insertIncident_keeps; by eexists|intros [i|err]; [|keep_step]].
  repeat keep_step; [apply (h_signal Hk)|apply afterIncidentOpened_keeps].
Qed.

(** The incidents an operation may resolve. *)
Definition resolves_only (op : incident_op) : Prop :=
  match op with OpResolve id | OpMarkResolved id => forall c, uuid_in id = Ok c -> may_resolve c | _ => True end.

Lemma run_incident_keeps op : resolves_only op -> keeps R (run_incident op).
Proof using All.
  intros Hop. destruct op; unfold run_incident, drop_answer; (apply keeps_bind; [apply _| |intros; keep_step]).
  - unfold OpenIncident. destruct req as [r|]; [|keep_step]. keep_step; [keep_step|]. keep_step; [|keep_step].
    apply keeps_bind; [apply _|apply insertIncident_keeps; apply applySeverityFloor_typed|intros [i|err]; [|keep_step]].
    repeat keep_step. apply afterIncidentOpened_keeps.
  - unfold AckIncident. repeat keep_step; [|apply (h_signal Hk)]. eapply update_by_uuid_keeps; [done|]. intros c _ Hu.
    eapply (h_status Hk c); [left; split; reflexivity|exact Hu].
  - unfold ResolveIncident, maybeRestoreStation. repeat keep_step; [|apply (h_signal Hk)|by eapply (h_online Hk)|apply dispatchIncidentWebhooks_keeps..].
    eapply update_by_uuid_keeps; [done|]. intros c Hc Hu. eapply (h_resolve Hk c); [by apply Hop|exact Hu].
  - unfold IngestLeak. destruct req as [r|]; [|keep_step]. keep_step; [keep_step|]. keep_step; [keep_step|].
    keep_step; [keep_step; eapply (h_fold Hk); [done|apply leakSeverity_typed]|].
    keep_step; [keep_step|]. keep_step; [|keep_step..].
    apply keeps_bind; [apply _|apply insertIncident_keeps, leakSeverity_typed|intros [i|err]; [|keep_step]].
    repeat keep_step; [apply (h_signal Hk)|apply afterIncidentOpened_keeps].
  - unfold TriggerSOS. repeat keep_step; apply open_sos_keeps.
  - unfold CreateWebhookSubscription. repeat keep_step.
    destruct (subscriptions d !! _) eqn:Es; [done|]. simplify_eq. apply (h_subscribe Hk); [done|simpl; eexists; eassumption].
  - unfold DeactivateWebhookSubscription. repeat keep_step.
    destruct (uuid_in id) as [c|]; [|done]. destruct (subscriptions d !! c) as [x|] eqn:Es; simplify_eq; [|reflexivity].
    by eapply (h_unsubscribe Hk).
  - intros w. apply (h_guard Hk). intros Ht. unfold RetryWebhookDelivery, gbind, db_query.
    pose proof (pop_view w) as E. destruct (pop w) as [o w1]. cbn in E. rewrite <- E.
    assert (w_db w1 = w_db w) as Ed by (unfold view in E; congruence).
    destruct o; try reflexivity. cbn. destruct (uuid_in id) as [c|e]; [|destruct e; reflexivity].
    destruct (deliveries (w_db w1) !! c) as [x|] eqn:Ex; [|reflexivity].
    destruct (subscriptions (w_db w1) !! wd_subscription x) as [y|] eqn:Ey; [|reflexivity]. case_decide; [reflexivity|].
    assert (ws_id y = wd_subscription x) as Eyk by (rewrite Ed in Ey; by destruct (ty_subscription _ Ht _ _ Ey)).
    pose proof (attempt_keeps (wd_id x) y (wd_event x) (jsonb_out (wd_payload x)) w1) as HR. rewrite Eyk in HR. specialize (HR Ey).
    destruct (attemptWebhookDelivery _ _ _ _ _ w1) as [u w2]. cbn in HR. etransitivity; [exact HR|]. cbn.
    pose proof (pop_view w2) as E2. destruct (pop w2) as [o2 w3]. cbn in E2. rewrite <- E2. destruct o2; try reflexivity. cbn.
    destruct (deliveries (w_db w3) !! c); reflexivity.
  - unfold SetIncidentInProgress. repeat keep_step. eapply update_by_uuid_keeps; [done|]. intros c _ Hu.
    eapply (h_status Hk c); [right; split; reflexivity|exact Hu].
  - unfold EscalateIncident. repeat keep_step. eapply update_by_uuid_keeps; [done|]. intros c _ Hu. by eapply (h_escalate Hk c).
  - unfold MarkIncidentResolved. repeat keep_step. eapply update_by_uuid_keeps; [done|]. intros c Hc Hu.
    eapply (h_resolve Hk c); [by apply Hop|exact Hu].
Qed.
End Generic.

(** *** Types, rising severities, final resolutions *)

Lemma fold_all_In f l r i' : fold_all f l = Ok r -> i' ∈ r -> exists i, i ∈ l /\ f i = Ok i'.
Proof.
  revert r. induction l as [|i l IH]; intros r Hr Hin; cbn in Hr; [simplify_eq; by apply not_elem_of_nil in Hin|].
  destruct (f i) as [x|] eqn:Ef; [|done]. destruct (fold_all f l) as [r'|]; [|done]. simplify_eq.
  apply elem_of_cons in Hin as [->|Hin]; [exists i; split; [left|done]|].
  destruct (IH r' eq_refl Hin) as (j & Hj & Hf). exists j. split; [by right|done].
Qed.

Lemma puts_lookup r d k x : incidents (foldr put_incident d r) !! k = Some x ->
  (incidents d !! k = Some x /\ forall y, y ∈ r -> in_id y <> k) \/ x ∈ r /\ in_id x = k.
Proof.
  induction r as [|y r IH]; cbn; [left; split; [done|]; by intros y ?%not_elem_of_nil|].
  intros [[<- <-]|[Hne Hx]]%lookup_insert_Some; [right; by split; [left|]|].
  destruct (IH Hx) as [[H2 H3]|[? ?]]; [left; split; [done|]|right; by split; [right|]].
  intros z [->|Hz]%elem_of_cons; [done|auto].
Qed.

Lemma puts_other r d : subscriptions (foldr put_incident d r) = subscriptions d /\
  deliveries (foldr put_incident d r) = deliveries d /\ station_status (foldr put_incident d r) = station_status d.
Proof. induction r as [|y r IH]; cbn; [done|exact IH]. Qed.

Lemma puts_defined r d k : is_Some (incidents d !! k) -> is_Some (incidents (foldr put_incident d r) !! k).
Proof.
  induction r as [|y r IH]; cbn; [done|]. intros Hk. destruct (decide (in_id y = k)) as [->|]; [by rewrite lookup_insert_eq|].
  rewrite lookup_insert_ne by done. auto.
Qed.

(** A folded reading moves its incident. *)
Lemma fold_reading_moves sev ppm now i i' :
  is_Some (severityRank (in_severity i)) -> is_Some (severityRank sev) -> fold_reading sev ppm now i = Ok i' ->
  moves i i' /\ is_Some (severityRank (in_severity i')) /\ in_status i' = in_status i.
Proof.
  unfold fold_reading. intros Hi Hs. destruct (next_readings (in_meta i)) as [n|]; [|done]. intros [= <-]. unfold moves. cbn.
  unfold tri_severity_lt, rank. destruct Hi as [a Ha], Hs as [b Hb]. rewrite Ha, Hb. rewrite holds_lt.
  destruct (a <? b) eqn:El; rewrite ?Ha, ?Hb; zbool; split_and!; try done; simpl; try lia; by eexists.
Qed.

Lemma fold_leak_rows sensor sev ppm now d i g : fold_leak sensor sev ppm now d = Ok (i, g) ->
  exists r, i ∈ r /\ (forall d, g d = foldr put_incident d r) /\
    forall i', i' ∈ r -> exists k o, incidents d !! k = Some o /\ same_leak sensor now o = true /\ fold_reading sev ppm now o = Ok i'.
Proof.
  unfold fold_leak. destruct (fold_all _ _) as [[|x r]|] eqn:Ef; [done| |done]. intros [= <- <-]. exists (x :: r).
  split; [left|]. split; [done|]. intros i' Hin. destruct (fold_all_In _ _ _ _ Ef Hin) as (o & Ho & Hf).
  apply list_elem_of_filter in Ho as [Hs Ho]. apply elem_of_rows in Ho as [k Hk]. eauto.
Qed.

Lemma fold_leak_sound sensor sev ppm now d i g l s :
  fold_leak sensor sev ppm now d = Ok (i, g) -> is_Some (severityRank sev) -> sound (mkLeft d l s) (mkLeft (g d) l s).
Proof.
  intros (r & _ & Hg & Hr)%fold_leak_rows Hsev Ht. cbn in *. rewrite Hg. destruct (puts_other r d) as (Es & Ed & _).
  assert (forall i', i' ∈ r -> exists o, incidents d !! in_id i' = Some o /\ moves o i' /\
            is_Some (severityRank (in_severity i')) /\ status_ok (in_status i')) as Hm.
  { intros i' Hin. destruct (Hr i' Hin) as (k & o & Ho & _ & Hf). destruct (ty_incident d Ht k o Ho) as (Hid & Hso & Hst).
    destruct (fold_reading_moves _ _ _ _ _ Hso Hsev Hf) as (M & ? & E). exists o. destruct M as (Eid & M').
    rewrite Eid, Hid, E. by split_and!. }
  split_and!; [|intros k o Ho|by apply persist_same].
  - destruct Ht as [Hi Hsu Hd]. split; rewrite ?Es, ?Ed; [|done|done].
    intros k x [[Hx _]|[Hx <-]]%puts_lookup; [by apply Hi|]. destruct (Hm x Hx) as (o & _ & _ & ? & ?). done.
  - destruct (puts_defined r d k ltac:(by rewrite Ho)) as [x Hx]. exists x. split; [done|].
    apply puts_lookup in Hx as [[Hx _]|[Hx Hid]]; [simplify_eq; reflexivity|].
    destruct (Hm x Hx) as (o' & Ho' & M & _). rewrite Hid in Ho'. by simplify_eq.
Qed.

Lemma typed_tables d d' : incidents d' = incidents d -> subscriptions d' = subscriptions d -> deliveries d' = deliveries d ->
  typed d -> typed d'.
Proof. intros E1 E2 E3 [? ? ?]. by split; rewrite ?E1, ?E2, ?E3. Qed.

Lemma sound_hooks : hooks sound (fun _ => True).
Proof.
  split.
  - intros v v' Hs Ht. by apply Hs.
  - intros v v' Hs Ht. by apply Hs.
  - intros v v' Hs Ht. by apply Hs.
  - intros d l s id x st err t Hx Hst Ht. destruct (ty_delivery d Ht id x Hx) as (Hid & Hs & Hsub & Hdel).
    split_and!; [|by apply evolves_same|by apply persist_same]. apply put_delivery_typed; try done; simpl; destruct Hst as [(-> & -> & ?)| ->];
      first [done | mem | intros; discriminate].
  - intros d l s x Hn Hsub Hst Ht. split_and!; [|by apply evolves_same|by apply persist_same].
    apply put_delivery_typed; rewrite ?Hst; first [done | mem | intros; discriminate].
  - intros d l s x ev p Hx Ht. split_and!; [done|by apply evolves_same|by apply persist_same].
  - unfold station_to_emergency. intros d l s id u g. destruct (station_status d !! id); [|done]. case_decide; [done|].
    intros [= <- <-] Ht. split_and!; [by apply (typed_tables d)|by apply evolves_same|by apply persist_same].
  - unfold station_to_online. intros d l s id u g. destruct (station_status d !! id); [|done]. case_decide; [|done].
    destruct (find_row _ _); [done|]. intros [= <- <-] Ht. split_and!; [by apply (typed_tables d)|by apply evolves_same|by apply persist_same].
  - intros d l s sg Ht. split_and!; [done|by apply evolves_same|by apply persist_same].
  - intros d l s i u g Hi Hs Hst. by eapply insert_incident_sound.
  - intros d l s sensor sev ppm now i g Hf Hs. by eapply fold_leak_sound.
  - intros id p st Hp d l s i g Hu. eapply update_incident_sound; [exact Hu|]. intros x Hx Hsev Hok. cbn.
    destruct Hp as [[-> ->]|[-> ->]]; unfold moves, status_ok; cbn; split_and!; try done; try lia;
      try mem; intros E; cbn beta in Hx; rewrite E in Hx; vm_compute in Hx; discriminate.
  - intros id d l s i g Hu. eapply update_incident_sound; [exact Hu|]. intros x Hx Hsev Hok. cbn.
    destruct (escalate_spec _ Hsev). unfold moves. cbn. by split_and!.
  - intros id p t _ d l s i g Hu. eapply update_incident_sound; [exact Hu|]. intros x Hx Hsev Hok. unfold moves, status_ok. cbn.
    split_and!; try done; try lia. mem.
  - intros d l s x Hn Hm Ht. split_and!; [by apply put_subscription_typed|by apply evolves_same|].
    intros k y Hy. cbn in Hy. exists y. cbn. rewrite lookup_insert_ne; [split; [done|reflexivity]|]. intros <-. by rewrite Hn in Hy.
  - intros d l s i x Hx Ht. destruct (ty_subscription d Ht i x Hx) as [Hid Hm].
    split_and!; [by apply put_subscription_typed|by apply evolves_same|].
    intros k y Hy. cbn in Hy |- *. destruct (decide (ws_id x = k)) as [<-|]; [rewrite lookup_insert_eq|rewrite lookup_insert_ne by done].
    + rewrite Hid in Hy. simplify_eq. by eexists.
    + exists y. split; [done|reflexivity].
Qed.

(** *** A station in emergency *)

(** Incident [k] is live and critical at the station, which is in emergency. *)
Definition emergency_for (k st : string) (d : IncidentDB) : Prop :=
  exists i, incidents d !! k = Some i /\ critical_at st i = true /\ station_status d !! st = Some "emergency".

Definition emergency_lasts (k st : string) (v v' : left_behind IncidentDB Workflows) : Prop :=
  sound v v' /\ (typed (lf_db v) -> emergency_for k st (lf_db v) -> emergency_for k st (lf_db v')).

#[global] Instance emergency_preorder k st : PreOrder (emergency_lasts k st).
Proof.
  split; [intros v; split; [reflexivity|done]|]. intros v1 v2 v3 [S1 E1] [S2 E2]. split; [by etransitivity|].
  intros Ht He. destruct (S1 Ht) as (Ht2 & _). auto.
Qed.

Lemma emergency_same k st d d' l s l' s' : sound (mkLeft d l s) (mkLeft d' l' s') ->
  incidents d' = incidents d -> station_status d' = station_status d -> emergency_lasts k st (mkLeft d l s) (mkLeft d' l' s').
Proof. intros Hs E1 E2. split; [done|]. intros _ (i & ? & ? & ?). exists i. cbn in *. by rewrite E1, E2. Qed.

(** A row that stays live and critical keeps the emergency. *)
Lemma emergency_update k st d f id p i g l s :
  update_incident id p f d = Ok (i, g) -> sound (mkLeft d l s) (mkLeft (g d) l s) ->
  (id = k -> forall x, in_id x = id -> critical_at st x = true -> in_id (f x) = in_id x /\ critical_at st (f x) = true) ->
  (forall x, in_id (f x) = in_id x) ->
  emergency_lasts k st (mkLeft d l s) (mkLeft (g d) l s).
Proof.
  intros Hu Hs Hf Hid. split; [done|]. intros Ht (c & Hc & Hcr & He). unfold update_incident in Hu.
  destruct (incidents d !! id) as [x|] eqn:Ex; [|done]. destruct (p x); [|done]. simplify_eq. cbn in *.
  destruct (ty_incident d Ht id x Ex) as [Exid _]. unfold emergency_for. cbn. rewrite Hid, Exid.
  destruct (decide (id = k)) as [<-|Hne].
  - simplify_eq. exists (f x). rewrite lookup_insert_eq. split_and!; [done| |done]. by apply Hf.
  - exists c. by rewrite lookup_insert_ne.
Qed.

Lemma critical_raise st x sev stt r m : critical_at st x = true -> live stt = true ->
  (in_severity x = "critical" -> sev = "critical") -> critical_at st (with_state x sev stt r m) = true.
Proof.
  unfold critical_at. cbn. rewrite !andb_true_iff. intros [[? Hc%bool_decide_eq_true] _] Hl Hsev. split_and!; try done.
  apply bool_decide_eq_true. auto.
Qed.

Lemma emergency_hooks k st : hooks (emergency_lasts k st) (fun id => id <> k).
Proof.
  pose proof sound_hooks as Hb. split.
  - intros v v' Hs. split; [intros Ht; by apply (Hs Ht)|]. intros Ht. by apply (Hs Ht).
  - intros v v' [Hs _]. by apply (h_typed _ _ Hb).
  - intros v v' [Hs _]. by apply (h_persist _ _ Hb).
  - intros. apply emergency_same; [by eapply (h_outcome _ _ Hb)|done|done].
  - intros. apply emergency_same; [by eapply (h_delivery _ _ Hb)|done|done].
  - intros. apply emergency_same; [by eapply (h_http _ _ Hb)|done|done].
  - intros d l s id u g Hg. split; [by eapply (h_emergency _ _ Hb)|]. unfold station_to_emergency in Hg.
    destruct (station_status d !! id); [|done]. case_decide; [done|]. simplify_eq. intros _ (i & ? & ? & He). exists i. cbn in *.
    split_and!; try done. destruct (decide (id = st)) as [->|]; [by rewrite lookup_insert_eq|by rewrite lookup_insert_ne].
  - intros d l s id u g Hg. split; [by eapply (h_online _ _ Hb)|]. unfold station_to_online in Hg.
    destruct (station_status d !! id); [|done]. case_decide; [|done]. destruct (find_row _ _) eqn:Ef; [done|]. simplify_eq.
    intros _ (i & Hi & Hc & He). exists i. cbn in *. split_and!; try done.
    destruct (decide (id = st)) as [->|]; [|by rewrite lookup_insert_ne].
    by rewrite (proj1 (find_row_None _ _) Ef _ _ Hi) in Hc.
  - intros. apply emergency_same; [by eapply (h_signal _ _ Hb)|done|done].
  - intros d l s i u g Hg Hs Hst. split; [by eapply (h_insert _ _ Hb)|]. unfold insert_incident in Hg.
    destruct (incidents d !! in_id i) eqn:Ei; [done|]. destruct (_ && _); [|done]. simplify_eq.
    intros _ (c & Hc & ? & ?). exists c. cbn in *. rewrite lookup_insert_ne; [done|congruence].
  - intros d l s sensor sev ppm now i g Hg Hs. split; [by eapply (h_fold _ _ Hb)|].
    intros Ht (c & Hc & Hcr & He). cbn in *. destruct (fold_leak_rows _ _ _ _ _ _ _ Hg) as (r & _ & Eg & Hr). rewrite Eg.
    destruct (puts_other r d) as (_ & _ & Est). destruct (puts_defined r d k ltac:(by rewrite Hc)) as [x Hx].
    exists x. rewrite Est. split_and!; [done| |done]. apply puts_lookup in Hx as [[Hx _]|[Hx Hid]]; [by simplify_eq|].
    destruct (Hr x Hx) as (k' & o & Ho & _ & Hf). destruct (ty_incident d Ht k' o Ho) as (Hok & Hso & _).
    destruct (fold_reading_moves _ _ _ _ _ Hso Hs Hf) as ((Eid & _) & _). rewrite Eid, Hok in Hid. subst k'. simplify_eq.
    unfold fold_reading in Hf. destruct (next_readings _); [|done]. simplify_eq.
    apply critical_raise; [done|unfold critical_at in Hcr; by rewrite !andb_true_iff in Hcr; destruct Hcr|].
    intros E. rewrite E. unfold tri_severity_lt. destruct Hs as [rk Hrk]. rewrite Hrk. change (severityRank "critical") with (Some 3).
    rewrite holds_lt. pose proof (rank_bounds sev) as Hb'. unfold rank in Hb'. rewrite Hrk in Hb'. cbn in Hb'.
    destruct (Z.ltb_spec 3 rk); [lia|done].
  - intros id p st' Hp d l s i g Hu. eapply emergency_update; [exact Hu|by eapply (h_status _ _ Hb)| |done].
    intros _ x _ Hc. split; [done|]. apply critical_raise; [done| |done]. by destruct Hp as [[_ ->]|[_ ->]].
  - intros id d l s i g Hu. eapply emergency_update; [exact Hu|by eapply (h_escalate _ _ Hb)| |done].
    intros _ x _ Hc. split; [done|]. apply critical_raise; [done| |by intros ->].
    unfold critical_at in Hc. by rewrite !andb_true_iff in Hc; destruct Hc.
  - intros id p t Hne d l s i g Hu. eapply emergency_update; [exact Hu|by eapply (h_resolve _ _ Hb)| |done]. done.
  - intros. apply emergency_same; [by eapply (h_subscribe _ _ Hb)|done|done].
  - intros. apply emergency_same; [by eapply (h_unsubscribe _ _ Hb)|done|done].
Qed.

(** *** Signed requests *)

Definition signed_for (d : IncidentDB) (rq : http_request) : Prop :=
  exists x ev p, subscriptions d !! ws_id x = Some x /\ rq = webhook_request (ws_url x) (ws_secret x) ev p.

Definition sends_signed (v v' : left_behind IncidentDB Workflows) : Prop :=
  sound v v' /\ (typed (lf_db v) -> exists new, lf_sent v' = lf_sent v ++ new /\ Forall (signed_for (lf_db v')) new).

Lemma signed_later d d' rq : typed d' -> subs_persist d d' -> signed_for d rq -> signed_for d' rq.
Proof.
  intros Ht Hp (x & ev & p & Hx & ->). destruct (Hp _ _ Hx) as (y & Hy & E1 & E2 & E3). exists y, ev, p.
  rewrite E1, E2, E3. split; done.
Qed.

#[global] Instance sends_preorder : PreOrder sends_signed.
Proof.
  split.
  - intros v. split; [reflexivity|]. intros _. exists []. by rewrite app_nil_r.
  - intros v1 v2 v3 [S1 E1] [S2 E2]. split; [by etransitivity|]. intros Ht. destruct (S1 Ht) as (Ht2 & _). destruct (S2 Ht2) as (Ht3 & _ & Hp).
    destruct (E1 Ht) as (n1 & Q1 & F1). destruct (E2 Ht2) as (n2 & Q2 & F2). exists (n1 ++ n2). rewrite Q2, Q1, app_assoc. split; [done|].
    apply Forall_app. split; [|done]. eapply list.Forall_impl; [exact F1|]. intros rq. by apply signed_later.
Qed.

Lemma sends_nothing d d' l l' s : sound (mkLeft d l s) (mkLeft d' l' s) -> sends_signed (mkLeft d l s) (mkLeft d' l' s).
Proof. intros Hs. split; [done|]. intros _. exists []. by rewrite app_nil_r. Qed.

Lemma sends_hooks : hooks sends_signed (fun _ => True).
Proof.
  pose proof sound_hooks as Hb. split.
  - intros v v' Hs. split; [intros Ht; by apply (Hs Ht)|]. intros Ht. by apply (Hs Ht).
  - intros v v' [Hs _]. by apply (h_typed _ _ Hb).
  - intros v v' [Hs _]. by apply (h_persist _ _ Hb).
  - intros. apply sends_nothing. by eapply (h_outcome _ _ Hb).
  - intros. apply sends_nothing. by eapply (h_delivery _ _ Hb).
  - intros d l s x ev p Hx. split; [by eapply (h_http _ _ Hb)|]. intros _. eexists. split; [reflexivity|].
    apply list.Forall_singleton. by exists x, ev, p.
  - intros. apply sends_nothing. by eapply (h_emergency _ _ Hb).
  - intros. apply sends_nothing. by eapply (h_online _ _ Hb).
  - intros. apply sends_nothing. by eapply (h_signal _ _ Hb).
  - intros. apply sends_nothing. by eapply (h_insert _ _ Hb).
  - intros. apply sends_nothing. by eapply (h_fold _ _ Hb).
  - intros id p st Hp d l s i g Hu. apply sends_nothing. by eapply (h_status _ _ Hb).
  - intros id d l s i g Hu. apply sends_nothing. by eapply (h_escalate _ _ Hb).
  - intros id p t Hne d l s i g Hu. apply sends_nothing. by eapply (h_resolve _ _ Hb).
  - intros. apply sends_nothing. by eapply (h_subscribe _ _ Hb).
  - intros. apply sends_nothing. by eapply (h_unsubscribe _ _ Hb).
Qed.

(** ** Runs of the service *)

Inductive incident_trace (w : World IncidentDB Workflows) : World IncidentDB Workflows -> Prop :=
| itrace_refl : incident_trace w w
| itrace_op w1 op : incident_trace w w1 -> incident_trace w (run_incident op w1).2
| itrace_env w1 t s h : incident_trace w w1 -> incident_trace w (with_now t (with_sched s (with_http h w1))).

Lemma trace_keeps (R : left_behind IncidentDB Workflows -> left_behind IncidentDB Workflows -> Prop) `{!PreOrder R} w w' :
  hooks R (fun _ => True) -> incident_trace w w' -> R (view w) (view w').
Proof.
  intros Hk. induction 1 as [|w1 op Ht IH|w1 t s h Ht IH]; [reflexivity| |exact IH].
  etransitivity; [exact IH|]. apply (run_incident_keeps R (fun _ => True)); [done|]. by destruct op.
Qed.
End Run.

(** ** The properties *)

Section Properties.
Context `{Runtime} `{PgServer} `{WebhookEnv}.

(** C28: The tables keep their types over any requests, activities and faults:
    every incident has one of the four severities and one of the four
    statuses, every subscription a threshold severity, and every delivery
    belongs to a subscription, is pending, delivered or failed, and when
    delivered has a time and no error. *)
Theorem incident_tables_typed w w' : typed (w_db w) -> incident_trace w w' -> typed (w_db w').
Proof. intros Ht Htr. by apply (trace_keeps sound w w' sound_hooks Htr). Qed.

(** C29: Over any requests, activities and faults an incident's type, bus,
    station and opening time never change, its severity never falls and a
    resolved incident stays resolved. *)
Theorem severity_rises_and_resolution_is_final w w' k i :
  typed (w_db w) -> incident_trace w w' -> incidents (w_db w) !! k = Some i ->
  exists i', incidents (w_db w') !! k = Some i' /\ moves i i'.
Proof. intros Ht Htr Hi. destruct (trace_keeps sound w w' sound_hooks Htr Ht) as (_ & He & _). by apply He. Qed.

(** While a critical incident at a station is live, no request, activity
    or fault takes the station out of emergency, except the resolution of
    that very incident. *)
Theorem emergency_until_resolved op w k st :
  typed (w_db w) -> emergency_for k st (w_db w) ->
  match op with OpResolve id | OpMarkResolved id => uuid_in id <> Ok k | _ => True end ->
  emergency_for k st (w_db (run_incident op w).2).
Proof.
  intros Ht He Hop. apply (run_incident_keeps (emergency_lasts k st) (fun id => id <> k) (emergency_hooks k st)); [|done|done].
  destruct op; cbn; try done; intros c Hc ->; done.
Qed.

(** Every request sent to a partner is signed: its signature header is
    the HMAC-SHA256 of the exact body under the secret of a registered
    subscription, and it goes to that subscription's URL. *)
Theorem partner_requests_are_signed w w' :
  typed (w_db w) -> incident_trace w w' ->
  exists new, w_sent w' = w_sent w ++ new /\ Forall (signed_for (w_db w')) new.
Proof. intros Ht Htr. by apply (trace_keeps sends_signed w w' sends_hooks Htr). Qed.
End Properties.

(** ** The evidence pack on an intact chain *)

Section Linkage.
Variable P : Entry -> Prop.
Context `{!forall e, Decision (P e)}.

(** An entry's prev_hash is the hash of the entry before it. *)
Lemma chain_prev_in prev l x y : chain_ok prev (x :: l) -> y ∈ l -> en_prev y ∈ map en_hash (x :: l).
Proof using Type.
  revert prev x. induction l as [|z l IH]; intros prev x Hc Hy; [by apply not_elem_of_nil in Hy|].
  destruct Hc as (Hp & Hh & Hc). apply elem_of_cons in Hy as [->|Hy].
  - destruct Hc as (-> & _). left.
  - right. by apply (IH (en_hash x) z).
Qed.

(** The walk over the rest of the slice finds no break exactly when the rest
    of the slice is what follows in the log. *)
Lemma slice_break_prefix e prev rest :
  chain_ok prev (e :: rest) -> NoDup (map en_hash (e :: rest)) ->
  slice_break e (filter P rest) = None <-> filter P rest `prefix_of` rest.
Proof using Type.
  revert e prev. induction rest as [|x rest IH]; intros e prev Hc Hnd; [split; [intros; apply prefix_nil|done]|].
  destruct Hc as (Hp & Hh & Hc). cbn [map] in Hnd. apply list.NoDup_cons in Hnd as [Hni Hnd]. rewrite filter_cons. case_decide as HP.
  - cbn [slice_break]. destruct Hc as (Hpx & Hrest). rewrite decide_True by done.
    rewrite (IH x (en_hash e)) by done. split; [apply prefix_cons|apply prefix_cons_inv_2].
  - destruct (filter P rest) as [|y s] eqn:Ef; [split; [intros; apply prefix_nil|done]|].
    assert (y ∈ filter P rest) as Hy by (rewrite Ef; left). apply list_elem_of_filter in Hy as [Hyp Hy].
    split.
    + cbn [slice_break]. case_decide as E; [|done]. exfalso. apply Hni. rewrite <- E. by eapply chain_prev_in.
    + intros [k Hk]. cbn in Hk. injection Hk as -> _. done.
Qed.

Lemma chain_ok_app prev l1 l2 : chain_ok prev (l1 ++ l2) <-> chain_ok prev l1 /\ chain_ok (foldl (fun _ e => en_hash e) prev l1) l2.
Proof using Type. revert prev. induction l1 as [|e l1 IH]; intros prev; cbn; [tauto|]. rewrite IH. tauto. Qed.

Lemma last_hash_head prev l : foldl (fun _ e => en_hash e) prev l = default prev (head (rev (map en_hash l))).
Proof using Type.
  revert prev. induction l as [|e l IH]; intros prev; [done|]. cbn. rewrite IH. destruct (rev (map en_hash l)); done.
Qed.

(** The first selected entry, and the anchor before it. *)
Lemma first_selected log : filter P log <> [] -> exists pre first rest,
  log = pre ++ first :: rest /\ P first /\ filter P pre = [] /\ filter P log = first :: filter P rest.
Proof using Type.
  induction log as [|e log IH]; [done|]. rewrite filter_cons. case_decide as HP.
  - intros _. exists [], e, log. by rewrite filter_nil.
  - intros Hne. destruct (IH Hne) as (pre & first & rest & -> & Hf & Hpre & Hs). exists (e :: pre), first, rest.
    rewrite filter_cons, decide_False by done. done.
Qed.

Lemma anchor_is_predecessor pre first rest :
  StronglySorted (fun a b => en_num a < en_num b) (pre ++ first :: rest) ->
  anchor_hash (en_num first) (pre ++ first :: rest) = head (rev (map en_hash pre)).
Proof using Type.
  intros Hs. unfold anchor_hash. do 2 f_equal. f_equal. induction pre as [|e pre IH]; cbn [app] in *.
  - rewrite filter_cons, decide_False by lia. apply StronglySorted_inv in Hs as [_ Hs].
    induction rest as [|x rest IHr]; [done|]. apply Forall_cons_1 in Hs as [Hx Hs]. rewrite filter_cons, decide_False by lia. auto.
  - apply StronglySorted_inv in Hs as [Hs He]. rewrite list.Forall_forall in He.
    rewrite filter_cons, decide_True; [by rewrite IH|]. apply He. apply elem_of_app. right. left.
Qed.

Lemma same_split (pre pre' rest rest' : list Entry) first :
  pre ++ first :: rest = pre' ++ first :: rest' -> P first -> filter P pre = [] -> filter P pre' = [] -> rest = rest'.
Proof using Type.
  revert pre'. induction pre as [|a pre IH]; intros [|b pre'] E Hf Hn Hn'; simplify_eq/=; try done.
  - rewrite filter_cons, decide_True in Hn' by done. done.
  - rewrite filter_cons, decide_True in Hn by done. done.
  - rewrite filter_cons in Hn, Hn'. case_decide; [done|]. eauto.
Qed.

Lemma linkage_contiguous log :
  chain_ok "" log -> NoDup (map en_hash log) -> StronglySorted (fun a b => en_num a < en_num b) log ->
  slice_linkage log (filter P log) = None <-> exists pre post, log = pre ++ filter P log ++ post.
Proof using Type.
  intros Hc Hnd Hs. destruct (decide (filter P log = [])) as [E|Hne].
  { rewrite E. split; [intros _; by exists [], log|done]. }
  destruct (first_selected log Hne) as (pre & first & rest & El & Hf & Hpre & Hsl). rewrite Hsl. unfold slice_linkage.
  rewrite El in Hc, Hnd, Hs.
  assert (anchor_hash (en_num first) log = head (rev (map en_hash pre))) as Ea by (rewrite El; by apply anchor_is_predecessor).
  apply chain_ok_app in Hc as [_ Hc]. rewrite map_app in Hnd. apply list.NoDup_app in Hnd as (_ & _ & Hnd).
  pose proof (slice_break_prefix first _ rest Hc Hnd) as Hb. rewrite last_hash_head in Hc. destruct Hc as (Hp & _).
  split.
  - destruct (slice_break first _); [done|]. intros _. destruct (proj1 Hb eq_refl) as [post Hpost]. exists pre, post.
    rewrite El, Hpost at 1. by rewrite <- app_comm_cons.
  - intros (pre' & post & E). assert (filter P pre' = [] /\ filter P post = []) as [Hpre' _].
    { assert (length (filter P log) = length (filter P (pre' ++ (first :: filter P rest) ++ post))) as Elen by by rewrite <- E.
      rewrite !list.filter_app, !length_app in Elen. rewrite Hsl in Elen. rewrite filter_cons, decide_True in Elen by done. cbn in Elen.
      assert (filter P (filter P rest) = filter P rest) as Eff by by apply list_filter_filter_r.
      rewrite Eff in Elen. split; apply length_zero_iff_nil; lia. }
    rewrite El in E. pose proof (same_split pre pre' rest (filter P rest ++ post) first E Hf Hpre Hpre') as Er.
    rewrite (proj2 Hb) by (exists post; exact Er). by rewrite decide_True by by rewrite Ea.
Qed.
End Linkage.

Section Behaviour.
Context `{Runtime} `{PgServer} `{WebhookEnv}.
Implicit Types w : World IncidentDB Workflows.

(** The slice of the audit log an evidence pack shows. *)
Definition incident_slice (id : string) (log : list Entry) : list Entry := filter (fun e => en_entity_id e = id) log.

(** On an intact audit chain the evidence pack calls the incident's slice
    intact exactly when the incident's entries are contiguous in the log: any
    unrelated entry recorded between two of them makes the pack report a
    break, although nothing was tampered with. *)
Theorem evidence_linkage_is_contiguity id log :
  chain_ok "" log -> NoDup (map en_hash log) -> StronglySorted (fun a b => en_num a < en_num b) log ->
  slice_linkage log (incident_slice id log) = None <-> exists pre post, log = pre ++ incident_slice id log ++ post.
Proof. apply (linkage_contiguous (fun e => en_entity_id e = id)). Qed.

Lemma fold_leak_found sensor sev ppm now d k i e :
  incidents d !! k = Some i -> same_leak sensor now i = true -> fold_leak sensor sev ppm now d = Err e -> e <> ErrNoRows.
Proof.
  intros Hi Hs. unfold fold_leak. assert (i ∈ filter (fun i => same_leak sensor now i = true) (rows (incidents d))) as Hin.
  { apply list_elem_of_filter. split; [done|]. apply elem_of_rows. eauto. }
  assert (forall l x, fold_all (fold_reading sev ppm now) l = Err x -> x <> ErrNoRows) as Herr.
  { intros l. induction l as [|y l IH]; intros x; cbn; [done|]. unfold fold_reading at 1.
    destruct (next_readings (in_meta y)) as [n|e'] eqn:En.
    - destruct (fold_all _ l); [done|]. intros [= <-]. by apply IH.
    - intros [= <-] ->. unfold next_readings in En. repeat case_match; simplify_eq. }
  destruct (fold_all _ _) as [[|x l]|x] eqn:Ef; [|done|intros [= <-]; by eapply Herr].
  exfalso. destruct (filter _ _) as [|y l]; [by apply not_elem_of_nil in Hin|]. cbn in Ef. repeat case_match; simplify_eq.
Qed.

(** A repeat reading of a sensor whose leak is still live and less than
    half an hour old opens no incident and changes no station, whatever
    fails: it is folded into the incident already open.  A repeat that raises
    the incident to critical does not put the station in emergency. *)
Theorem repeat_reading_opens_nothing r w k i :
  typed (w_db w) -> incidents (w_db w) !! k = Some i -> same_leak (lk_sensor r) (w_now w) i = true ->
  let d' := w_db (IngestLeak (Some r) w).2 in
  (forall k', incidents d' !! k' = None <-> incidents (w_db w) !! k' = None) /\
  station_status d' = station_status (w_db w).
Proof.
  intros Ht Hi Hs.
  assert (wp (IngestLeak (Some r)) (fun _ w' => (forall k', incidents (w_db w') !! k' = None <-> incidents (w_db w) !! k' = None) /\
            station_status (w_db w') = station_status (w_db w)) w) as Hw; [|exact Hw].
  unfold IngestLeak. case_decide; [by apply wp_ret|]. apply wp_bind, wp_gets, wp_bind.
  assert (forall x g, fold_leak (lk_sensor r) (leakSeverity (lk_severity r) (lk_ppm r)) (lk_ppm r) (w_now w) (w_db w) = Ok (x, g) ->
    (forall k', incidents (g (w_db w)) !! k' = None <-> incidents (w_db w) !! k' = None) /\
    station_status (g (w_db w)) = station_status (w_db w)) as Hok.
  { intros x g (l & _ & Hg & Hl)%fold_leak_rows. rewrite Hg. destruct (puts_other l (w_db w)) as (_ & _ & ->). split; [|done].
    intros k'. rewrite !eq_None_not_Some. split; intros Hn Hsm; apply Hn; [by apply puts_defined|].
    destruct Hsm as [y [[Hy _]|[Hy <-]]%puts_lookup]; [by eexists|]. destruct (Hl y Hy) as (ko & o & Ho & _ & Hf).
    unfold fold_reading in Hf. destruct (next_readings _); [|done]. simplify_eq. cbn.
    destruct (ty_incident _ Ht ko o Ho) as [-> _]. by eexists. }
  apply wp_db_exec; intros s; [intros x g Hg|intros x g Hg|intros e He|].
  - apply wp_ret. by eapply Hok.
  - apply wp_ret. by eapply Hok.
  - destruct e; try (by apply wp_ret). by destruct (fold_leak_found _ _ _ _ _ _ _ _ Hi Hs He).
  - by apply wp_ret.
Qed.

(** Without faults, the follow-up of a critical incident at a known station. *)
Lemma after_opened_emergency i c w :
  typed (w_db w) -> w_sched w = [] -> incidents (w_db w) !! in_id i = Some i -> critical_at c i = true -> in_station i = Some c ->
  is_Some (station_status (w_db w) !! c) ->
  wp (afterIncidentOpened i) (fun _ w' => emergency_for (in_id i) c (w_db w')) w.
Proof using All.
  intros Ht Hs Hi Hc Hst [st Hstat]. unfold afterIncidentOpened. apply wp_bind.
  assert (forall w1, typed (w_db w1) -> emergency_for (in_id i) c (w_db w1) ->
    wp (dispatchIncidentWebhooks i "incident.opened") (fun _ w' => emergency_for (in_id i) c (w_db w')) w1) as Hrest.
  { intros w1 Ht1 He. by apply (dispatchIncidentWebhooks_keeps (emergency_lasts (in_id i) c) _ (emergency_hooks (in_id i) c)). }
  assert (in_severity i = "critical") as Hsev. { unfold critical_at in Hc. rewrite !andb_true_iff in Hc. by destruct Hc as [[_ ?%bool_decide_eq_true] _]. }
  unfold setStationEmergency. rewrite Hst, Hsev, bool_decide_eq_true_2 by done. cbn [negb]. apply wp_bind.
  destruct (decide (st = "emergency")) as [->|Hem].
  - eapply wp_db_exec_err; [done|unfold station_to_emergency; by rewrite Hstat, decide_True|]. apply wp_ret, Hrest; [done|]. by exists i.
  - eapply wp_db_exec_done; [done|unfold station_to_emergency; by rewrite Hstat, decide_False|].
    apply wp_bind, wp_publish_done; [done|]. apply wp_ret, Hrest; cbn; [by apply (typed_tables (w_db w))|].
    exists i. cbn. by rewrite lookup_insert_eq.
Qed.

(** With no fault, a leak reading of critical severity at a known station,
    from a sensor with no live leak, opens a live critical incident and
    leaves the station in emergency. *)
Theorem critical_leak_closes_station r w s c st bus :
  typed (w_db w) -> w_sched w = [] -> lk_sensor r <> "" -> leakSeverity (lk_severity r) (lk_ppm r) = "critical" ->
  lk_station r = Some s -> uuid_in s = Ok c -> station_status (w_db w) !! c = Some st ->
  uuid_arg (lk_bus r) = Ok bus -> match bus with Some b => b ∈ buses (w_db w) | None => True end ->
  (forall k i, incidents (w_db w) !! k = Some i -> same_leak (lk_sensor r) (w_now w) i = false) ->
  incidents (w_db w) !! uuid_of (w_uuids w) = None ->
  emergency_for (uuid_of (w_uuids w)) c (w_db (IngestLeak (Some r) w).2).
Proof.
  intros Ht Hs Hsen Hsev Hst Hc Hstat Hbus Hbk Hno Hfresh.
  assert (wp (IngestLeak (Some r)) (fun _ w' => emergency_for (uuid_of (w_uuids w)) c (w_db w')) w) as Hw; [|exact Hw].
  unfold IngestLeak. rewrite decide_False by done. apply wp_bind, wp_gets, wp_bind.
  assert (fold_leak (lk_sensor r) (leakSeverity (lk_severity r) (lk_ppm r)) (lk_ppm r) (w_now w) (w_db w) = Err ErrNoRows) as Hf.
  { unfold fold_leak. destruct (filter _ _) as [|x l] eqn:Ef; [done|]. exfalso.
    assert (x ∈ filter (fun i => same_leak (lk_sensor r) (w_now w) i = true) (rows (incidents (w_db w)))) as Hx by (rewrite Ef; left).
    apply list_elem_of_filter in Hx as [Hx Hr]. apply elem_of_rows in Hr as [k Hk]. by rewrite (Hno k x Hk) in Hx. }
  eapply wp_db_exec_err; [done|exact Hf|]. cbn beta iota. apply wp_bind.
  unfold insertIncident. apply wp_bind, wp_gets, wp_bind, wp_new_uuid. cbn [ci_bus ci_station ci_type ci_severity ci_meta].
  set (i := mkIncident (uuid_of (w_uuids w)) "h2_leak" (leakSeverity (lk_severity r) (lk_ppm r)) bus (Some c) "open" (w_now w) (leak_meta r) None).
  eapply (wp_db_exec_done _ i (put_incident i)); [done| |].
  { rewrite Hbus, Hst. cbn [uuid_arg]. rewrite Hc. cbn. unfold insert_incident. cbn. rewrite Hfresh.
    rewrite Hstat. destruct bus; [rewrite bool_decide_eq_true_2 by done|]; done. }
  cbn beta iota. apply wp_bind, wp_publish_done; [done|]. apply wp_bind, wp_Signal_done; [done|]. apply wp_bind.
  eapply wp_mono; [|apply (after_opened_emergency i c); cbn].
  - intros u w' He. apply wp_ret. exact He.
  - apply put_incident_typed; [done|subst i; cbn; apply leakSeverity_typed|subst i; cbn; unfold status_ok; mem].
  - done.
  - by rewrite lookup_insert_eq.
  - subst i. unfold critical_at. cbn. rewrite Hsev, !bool_decide_eq_true_2 by done. done.
  - done.
  - by eexists.
Qed.

(** A driver whose bus last reported no position cannot raise an SOS:
    the position is meant as best-effort context, but a null one answers 500
    and no incident is opened. *)
Theorem sos_refused_without_position ctx body w bus route t ts :
  w_sched w = [] -> Subject ctx <> "" -> body <> Some None ->
  driver_context (Subject ctx) (w_db w) = Ok (Some bus, route) ->
  order_desc tm_ts (filter (fun t => tm_bus t = bus) (telemetry (w_db w))) = t :: ts -> tm_position t = None ->
  status (TriggerSOS ctx body w).1 = 500 /\ incidents (w_db (TriggerSOS ctx body w).2) = incidents (w_db w).
Proof.
  intros Hs Hsub Hbody Hctx Htm Hpos.
  assert (wp (TriggerSOS ctx body) (fun a w' => status a = 500 /\ incidents (w_db w') = incidents (w_db w)) w) as Hw; [|exact Hw].
  unfold TriggerSOS. rewrite decide_False by done.
  destruct body as [[desc|]|]; [|done|]; apply wp_bind, wp_db_query_done; rewrite ?Hctx; try done; cbn beta iota;
    apply wp_bind, wp_db_query_done; try done; unfold last_position; rewrite Htm, Hpos; by apply wp_ret.
Qed.
End Behaviour.

(** ** Concrete runs *)

Section Witnesses.
#[local] Existing Instance test_runtime.
#[local] Existing Instance test_server.
#[local] Existing Instance test_webhooks.

Definition demo_incidents : IncidentDB :=
  mkIncidentDB ∅ {["st-1" := "online"]} {["bus-1"]}
    {["job" := mkJob "job" "dan" (Some "bus-1") "R10" None None "accepted" 0 None]}
    [mkTelemetry "bus-1" 500 None None None None None] ∅ ∅ [].

Definition incident_world (d : IncidentDB) (h : list http_outcome) : World IncidentDB Workflows :=
  mkWorld d [] [] 1000000 0 [] h [].

Definition demo_leak (ppm : Z) : leakEventRequest := mkLeak "s-1" (Some "st-1") None "low" (Some (float_of_Z ppm)) "bay 3".

Lemma demo_incidents_typed : typed demo_incidents.
Proof. split; cbn; intros *; rewrite ?lookup_empty; done. Qed.

Definition run_incidents (ops : list incident_op) (w : World IncidentDB Workflows) : World IncidentDB Workflows :=
  foldl (fun w op => (run_incident op w).2) w ops.

Lemma run_incidents_trace ops w w' : incident_trace w w' -> incident_trace w (run_incidents ops w').
Proof. revert w'. induction ops as [|op ops IH]; intros w' Htr; [done|]. apply IH. by constructor. Qed.

Definition start_world : World IncidentDB Workflows := incident_world demo_incidents [HttpReply 1 200 "" None].

(** A partner subscribes, a sensor reads a critical leak, the partner is told. *)
Definition leak_world : World IncidentDB Workflows :=
  run_incidents [OpSubscribe (Some ("https://cad.example", "k", "low", "")); OpLeak (Some (demo_leak 30000))]
    start_world.

Lemma leak_world_trace : incident_trace start_world leak_world.
Proof. apply run_incidents_trace, itrace_refl. Qed.

Lemma leak_world_typed : typed (w_db leak_world).
Proof. by apply (trace_keeps sound start_world leak_world sound_hooks leak_world_trace demo_incidents_typed). Qed.

Lemma incident_tables_typed_witness : typed (w_db leak_world).
Proof. exact (incident_tables_typed start_world leak_world demo_incidents_typed leak_world_trace). Defined.

Definition critical_incident : Incident :=
  mkIncident "uuid-1" "h2_leak" "critical" None (Some "st-1") "open" 1000000 (leak_meta (demo_leak 30000)) None.

Lemma severity_rises_witness :
  exists i', incidents (w_db (run_incident (OpAck "uuid-1") leak_world).2) !! "uuid-1" = Some i' /\ moves critical_incident i'.
Proof.
  apply (severity_rises_and_resolution_is_final leak_world _ "uuid-1" critical_incident);
    [exact leak_world_typed|apply itrace_op, itrace_refl|vm_compute; reflexivity].
Defined.

Lemma emergency_until_resolved_witness :
  emergency_for "uuid-1" "st-1" (w_db (run_incident (OpResolve "uuid-9") leak_world).2).
Proof.
  apply (emergency_until_resolved (OpResolve "uuid-9") leak_world "uuid-1" "st-1");
    [exact leak_world_typed| |discriminate].
  exists critical_incident. split; [vm_compute; reflexivity|]. split; vm_compute; reflexivity.
Defined.

Lemma partner_requests_are_signed_witness :
  exists new, w_sent leak_world = [] ++ new /\ Forall (signed_for (w_db leak_world)) new.
Proof. exact (partner_requests_are_signed start_world leak_world demo_incidents_typed leak_world_trace). Defined.

Lemma repeat_reading_opens_nothing_witness :
  station_status (w_db (IngestLeak (Some (demo_leak 40000)) leak_world).2) = station_status (w_db leak_world).
Proof.
  apply (repeat_reading_opens_nothing (demo_leak 40000) leak_world "uuid-1" critical_incident);
    [exact leak_world_typed|vm_compute; reflexivity..].
Defined.

Lemma critical_leak_closes_station_witness :
  emergency_for (uuid_of 0) "st-1" (w_db (IngestLeak (Some (demo_leak 30000)) (incident_world demo_incidents [])).2).
Proof.
  apply (critical_leak_closes_station (demo_leak 30000) (incident_world demo_incidents []) "st-1" "st-1" "online" None);
    try (vm_compute; reflexivity); [exact demo_incidents_typed|discriminate|].
  intros k i Hi. cbn in Hi. by rewrite lookup_empty in Hi.
Defined.

Lemma sos_refused_without_position_witness :
  status (TriggerSOS (claims_of "dan" ["driver"]) None (incident_world demo_incidents [])).1 = 500.
Proof.
  apply (sos_refused_without_position (claims_of "dan" ["driver"]) None (incident_world demo_incidents []) "bus-1" (Some "R10")
    (mkTelemetry "bus-1" 500 None None None None None) []); try (vm_compute; reflexivity); discriminate.
Defined.

(** Three appended entries; the middle one is about something else. *)
Definition raw_entry (n : Z) (entity : string) : Entry :=
  mkEntry n "op" ["operator"] "incident.ack" "incident" entity None None "" "" 0 "" "".
Definition chained (prev : string) (e : Entry) : Entry := with_chain e None None prev (ChainHash prev e).
Definition demo_trail : list Entry :=
  let e1 := chained "" (raw_entry 1 "inc") in
  let e2 := chained (en_hash e1) (raw_entry 2 "other") in
  let e3 := chained (en_hash e2) (raw_entry 3 "inc") in
  [e1; e2; e3].

Lemma chained_hash prev n entity :
  ChainHash prev (chained prev (raw_entry n entity)) = en_hash (chained prev (raw_entry n entity)).
Proof.
  assert (fields prev (chained prev (raw_entry n entity)) = fields prev (raw_entry n entity)) as E by reflexivity.
  cbn [en_hash chained with_chain]. unfold ChainHash. by rewrite E.
Qed.

Lemma demo_trail_ok : chain_ok "" demo_trail /\ NoDup (map en_hash demo_trail) /\
  StronglySorted (fun a b => en_num a < en_num b) demo_trail.
Proof.
  split; [|split].
  - unfold demo_trail. cbv zeta. split; [reflexivity|]. split; [apply chained_hash|]. split; [reflexivity|].
    split; [apply chained_hash|]. split; [reflexivity|]. split; [apply chained_hash|exact I].
  - apply (bool_decide_eq_true_1 (NoDup (map en_hash demo_trail))). vm_compute. reflexivity.
  - repeat constructor.
Qed.

Lemma evidence_linkage_is_contiguity_witness :
  slice_linkage demo_trail (incident_slice "inc" demo_trail) = Some 3 /\
  ~ exists pre post, demo_trail = pre ++ incident_slice "inc" demo_trail ++ post.
Proof.
  assert (slice_linkage demo_trail (incident_slice "inc" demo_trail) = Some 3) as E by (vm_compute; reflexivity).
  split; [exact E|]. intros Hc.
  rewrite (proj2 (evidence_linkage_is_contiguity "inc" demo_trail (proj1 demo_trail_ok) (proj1 (proj2 demo_trail_ok)) (proj2 (proj2 demo_trail_ok))) Hc) in E.
  discriminate E.
Defined.
End Witnesses.
