(* ===== verification/Temporal.v ===== *)
(** * The incident and dispatch workflows

    Models services/go/infra-api/internal/workflow/workflows.go.  Temporal
    replays a workflow function over its history, so a workflow is a function
    of the events delivered so far: signals (buffered per channel until the
    code receives them), the firing of the timer and the end of an activity.
    [Select] takes the first ready case in the order the cases were added.
    The theorems put the workflows next to the handlers that signal them. *)

From Stdlib Require Import String.
From S2P Require Import Prelude Codec World Float64 Auth CommerceDb InfraDb Dispatch DispatchTheorems Incidents IncidentTheorems.

Open Scope Z_scope.
Open Scope go_scope.

Inductive history_event : Type :=
| Signaled (name : string)
| TimerFired
| ActivityEnded (ok : bool).

(** ** DispatchWorkflow *)

Inductive dispatch_phase : Type :=
| AwaitAssignment
| AwaitAccept
| Requeueing                 (* the RequeueDispatchJob activity is running *)
| DispatchClosed
| DispatchFailed.

Record dispatch_run : Type := mkDispatchRun {
  dr_phase : dispatch_phase; dr_assigned : nat; dr_accepted : nat; dr_cancelled : nat }.

Definition dispatch_start : dispatch_run := mkDispatchRun AwaitAssignment 0 0 0.

(** One passage of the code from a blocking point to the next; [None] when blocked. *)
Definition dispatch_advance (r : dispatch_run) : option dispatch_run :=
  let '(mkDispatchRun ph asg acc can) := r in
  match ph with
  | AwaitAssignment =>
      match asg, can with
      | S asg', _ => Some (mkDispatchRun AwaitAccept asg' acc can)
      | O, S can' => Some (mkDispatchRun DispatchClosed asg acc can')
      | O, O => None
      end
  | AwaitAccept =>
      match acc, can with
      | S acc', _ => Some (mkDispatchRun DispatchClosed asg acc' can)
      | O, S can' => Some (mkDispatchRun DispatchClosed asg acc can')
      | O, O => None
      end
  | _ => None
  end.

(** Each passage consumes a signal, so the buffered signals bound their number. *)
Fixpoint dispatch_settle (fuel : nat) (r : dispatch_run) : dispatch_run :=
  match fuel with
  | O => r
  | S f => match dispatch_advance r with Some r' => dispatch_settle f r' | None => r end
  end.

Definition buffered (r : dispatch_run) : nat := (dr_assigned r + dr_accepted r + dr_cancelled r)%nat.

Definition dispatch_buffer (name : string) (r : dispatch_run) : dispatch_run :=
  let '(mkDispatchRun ph asg acc can) := r in
  if decide (name = SignalJobAssigned) then mkDispatchRun ph (S asg) acc can
  else if decide (name = SignalJobAccepted) then mkDispatchRun ph asg (S acc) can
  else if decide (name = SignalJobCancelled) then mkDispatchRun ph asg acc (S can)
  else r.

Definition dispatch_event_step (r : dispatch_run) (e : history_event) : dispatch_run :=
  let r := match e with
           | Signaled name => dispatch_buffer name r
           | TimerFired => match dr_phase r with
                           | AwaitAccept => mkDispatchRun Requeueing (dr_assigned r) (dr_accepted r) (dr_cancelled r)
                           | _ => r
                           end
           | ActivityEnded ok => match dr_phase r with
                                 | Requeueing => mkDispatchRun (if ok then AwaitAssignment else DispatchFailed)
                                                   (dr_assigned r) (dr_accepted r) (dr_cancelled r)
                                 | _ => r
                                 end
           end in
  dispatch_settle (buffered r) r.

Definition DispatchWorkflow (h : list history_event) : dispatch_run := foldl dispatch_event_step dispatch_start h.

(** ** IncidentResponseWorkflow *)

Inductive incident_phase : Type :=
| AwaitLeak
| SettingInProgress
| Responding (acknowledged escalated : bool)
| Escalating (acknowledged : bool)
| MarkingResolved
| IncidentClosed
| IncidentFailed.

Record incident_run : Type := mkIncidentRun {
  ir_phase : incident_phase; ir_leak : nat; ir_ack : nat; ir_resolve : nat }.

Definition incident_start : incident_run := mkIncidentRun AwaitLeak 0 0 0.

Definition incident_advance (r : incident_run) : option incident_run :=
  let '(mkIncidentRun ph leak ack res) := r in
  match ph with
  | AwaitLeak => match leak with S l => Some (mkIncidentRun SettingInProgress l ack res) | O => None end
  | Responding acked esc =>
      match res with
      | S res' => Some (mkIncidentRun MarkingResolved leak ack res')
      | O => if acked then None
             else match ack with S ack' => Some (mkIncidentRun (Responding true esc) leak ack' res) | O => None end
      end
  | _ => None
  end.

Fixpoint incident_settle (fuel : nat) (r : incident_run) : incident_run :=
  match fuel with
  | O => r
  | S f => match incident_advance r with Some r' => incident_settle f r' | None => r end
  end.

Definition incident_buffer (name : string) (r : incident_run) : incident_run :=
  let '(mkIncidentRun ph leak ack res) := r in
  if decide (name = SignalLeakDetected) then mkIncidentRun ph (S leak) ack res
  else if decide (name = SignalIncidentAcknowledged) then mkIncidentRun ph leak (S ack) res
  else if decide (name = SignalIncidentResolved) then mkIncidentRun ph leak ack (S res)
  else r.

Definition with_phase (ph : incident_phase) (r : incident_run) : incident_run :=
  mkIncidentRun ph (ir_leak r) (ir_ack r) (ir_resolve r).

(** The timer is armed only while the incident is neither acknowledged nor
    escalated; a failed escalation is logged and not repeated. *)
Definition incident_event_step (r : incident_run) (e : history_event) : incident_run :=
  let r := match e with
           | Signaled name => incident_buffer name r
           | TimerFired => match ir_phase r with Responding false false => with_phase (Escalating false) r | _ => r end
           | ActivityEnded ok =>
               match ir_phase r with
               | SettingInProgress => with_phase (if ok then Responding false false else IncidentFailed) r
               | Escalating acked => with_phase (Responding acked true) r
               | MarkingResolved => with_phase (if ok then IncidentClosed else IncidentFailed) r
               | _ => r
               end
           end in
  incident_settle (ir_leak r + ir_ack r + ir_resolve r)%nat r.

Definition IncidentResponseWorkflow (h : list history_event) : incident_run := foldl incident_event_step incident_start h.

(** ** Settling *)

Lemma dispatch_advance_buffered r r' : dispatch_advance r = Some r' -> buffered r = S (buffered r').
Proof. destruct r as [[] asg acc can]; cbn; repeat case_match; intros; simplify_eq; unfold buffered; cbn; lia. Qed.

(** Every history leaves the dispatch workflow at a blocking point: the
    fuel given to a delivered event is enough for all the code it unblocks. *)
Theorem dispatch_workflow_settles h : dispatch_advance (DispatchWorkflow h) = None.
Proof.
  assert (forall n r, (buffered r <= n)%nat -> dispatch_advance (dispatch_settle n r) = None) as Hs.
  { induction n as [|n IH]; intros r Hn; cbn.
    - destruct (dispatch_advance r) as [r'|] eqn:E; [|done]. apply dispatch_advance_buffered in E. lia.
    - destruct (dispatch_advance r) as [r'|] eqn:E; [|done]. apply IH. apply dispatch_advance_buffered in E. lia. }
  unfold DispatchWorkflow. destruct h as [|e h _] using rev_ind; [done|]. rewrite foldl_snoc. unfold dispatch_event_step at 1.
  by apply Hs.
Qed.

(** ** What the incident workflow does, by what it has been told *)

(** The activities by which it changes the incident. *)
Inductive activity : Type := SetInProgress | Escalate | MarkResolved.

#[global] Instance activity_eq_dec : EqDecision activity.
Proof. solve_decision. Defined.

Definition running (ph : incident_phase) : option activity :=
  match ph with
  | SettingInProgress => Some SetInProgress
  | Escalating _ => Some Escalate
  | MarkingResolved => Some MarkResolved
  | _ => None
  end.

(** The activity that delivering an event starts, if it starts one. *)
Definition starts (r r' : incident_run) : list activity :=
  match running (ir_phase r') with
  | Some a => if decide (running (ir_phase r) = Some a) then [] else [a]
  | None => []
  end.

Fixpoint started_from (r : incident_run) (h : list history_event) : list activity :=
  match h with
  | [] => []
  | e :: h => starts r (incident_event_step r e) ++ started_from (incident_event_step r e) h
  end.

(** The activities started over a history, in order. *)
Definition activities (h : list history_event) : list activity := started_from incident_start h.

#[global] Instance history_event_eq_dec : EqDecision history_event.
Proof. solve_decision. Defined.

Definition heard (name : string) (h : list history_event) : bool := bool_decide (Signaled name ∈ h).

(** A deadline that passed with the leak known and nobody reacting. *)
Definition overdue (h : list history_event) : Prop :=
  exists h1 h2, h = h1 ++ TimerFired :: h2 /\ heard SignalLeakDetected h1 = true /\
    heard SignalIncidentAcknowledged h1 = false /\ heard SignalIncidentResolved h1 = false.

(** Where the workflow is at rest, and what it has done, by what was signalled. *)
Definition response (h : list history_event) (ph : incident_phase) : Prop :=
  let leak := heard SignalLeakDetected h in
  let acked := heard SignalIncidentAcknowledged h in
  let resolved := heard SignalIncidentResolved h in
  let escalation (b : bool) := if b then [Escalate] else [] in
  match ph with
  | AwaitLeak => leak = false /\ activities h = []
  | SettingInProgress => leak = true /\ activities h = [SetInProgress]
  | Responding a esc => leak = true /\ resolved = false /\ a = acked /\ activities h = SetInProgress :: escalation esc
  | Escalating a => leak = true /\ a = false /\ activities h = [SetInProgress; Escalate]
  | MarkingResolved | IncidentClosed =>
      leak = true /\ resolved = true /\ exists b, activities h = SetInProgress :: escalation b ++ [MarkResolved]
  | IncidentFailed => leak = true /\ ActivityEnded false ∈ h
  end.

Lemma heard_snoc name h e : heard name (h ++ [e]) = heard name h || bool_decide (e = Signaled name).
Proof.
  unfold heard. rewrite (bool_decide_ext _ (Signaled name ∈ h \/ e = Signaled name)).
  - by rewrite bool_decide_or.
  - rewrite elem_of_app, list_elem_of_singleton. naive_solver.
Qed.

Lemma started_app r h k : started_from r (h ++ k) = started_from r h ++ started_from (foldl incident_event_step r h) k.
Proof. revert r. induction h as [|e h IH]; intros r; [done|]. cbn. by rewrite IH, app_assoc. Qed.

Lemma activities_snoc h e :
  activities (h ++ [e]) = activities h ++ starts (IncidentResponseWorkflow h) (incident_event_step (IncidentResponseWorkflow h) e).
Proof. unfold activities. rewrite started_app. cbn. by rewrite app_nil_r. Qed.

(** Code that is unblocked runs to the next blocking point in one passage. *)
Definition passed (r : incident_run) : incident_run := default r (incident_advance r).

Lemma incident_rest n r : incident_advance r = None -> incident_settle n r = r.
Proof. intros E. destruct n; cbn; [done|]. by rewrite E. Qed.

Lemma incident_settle_passed r : incident_settle (ir_leak r + ir_ack r + ir_resolve r)%nat r = passed r.
Proof.
  destruct r as [[| |[] esc|acked| | |] [|l] [|a] [|s]]; cbn; try done; by rewrite incident_rest.
Qed.

(** What the channels hold that was not received yet. *)
Definition unread (h : list history_event) (r : incident_run) : Prop :=
  let buffered n name := (0 <? n)%nat = heard name h in
  match ir_phase r with
  | AwaitLeak => ir_leak r = 0%nat /\ buffered (ir_ack r) SignalIncidentAcknowledged /\ buffered (ir_resolve r) SignalIncidentResolved
  | SettingInProgress | Escalating _ => buffered (ir_ack r) SignalIncidentAcknowledged /\ buffered (ir_resolve r) SignalIncidentResolved
  | Responding a _ => ir_resolve r = 0%nat /\ if a then True else ir_ack r = 0%nat
  | _ => True
  end.

Lemma said_other n name : n <> name -> bool_decide (Signaled n = Signaled name) = false.
Proof. intros Hn. apply bool_decide_eq_false. congruence. Qed.

(** The cases of a delivered event, its signal by name. *)
Lemma event_cases (P : history_event -> Prop) :
  P (Signaled SignalLeakDetected) -> P (Signaled SignalIncidentAcknowledged) -> P (Signaled SignalIncidentResolved) ->
  (forall n, n <> SignalLeakDetected -> n <> SignalIncidentAcknowledged -> n <> SignalIncidentResolved -> P (Signaled n)) ->
  P TimerFired -> P (ActivityEnded true) -> P (ActivityEnded false) -> forall e, P e.
Proof.
  intros H1 H2 H3 H4 H5 H6 H7 [n| |[]]; try done. destruct (decide (n = SignalLeakDetected)) as [->|]; [done|].
  destruct (decide (n = SignalIncidentAcknowledged)) as [->|]; [done|].
  destruct (decide (n = SignalIncidentResolved)) as [->|]; [done|]. by apply H4.
Qed.

(** The closed tests on signal names, evaluated. *)
Ltac eval_names := repeat match goal with
  | |- context [bool_decide (?x = ?y)] =>
      let b := eval vm_compute in (bool_decide (x = y)) in
      lazymatch b with true => idtac | false => idtac end; change (bool_decide (x = y)) with b
  | |- context [decide (SignalLeakDetected = ?y)] =>
      first [rewrite (decide_True (P := SignalLeakDetected = y)) by done | rewrite (decide_False (P := SignalLeakDetected = y)) by done]
  | |- context [decide (SignalIncidentAcknowledged = ?y)] =>
      first [rewrite (decide_True (P := SignalIncidentAcknowledged = y)) by done | rewrite (decide_False (P := SignalIncidentAcknowledged = y)) by done]
  | |- context [decide (SignalIncidentResolved = ?y)] =>
      first [rewrite (decide_True (P := SignalIncidentResolved = y)) by done | rewrite (decide_False (P := SignalIncidentResolved = y)) by done]
  end.

Ltac settle_case := destruct_and?; split_and!; try done; repeat case_decide; try done; rewrite ?app_nil_r; try done;
  try (match goal with E : exists _, _ |- _ => destruct E as [b ->]; by exists b end);
  try (by exists true); try (by exists false); auto.

Lemma response_step h e :
  let r := IncidentResponseWorkflow h in
  response h (ir_phase r) -> unread h r ->
  response (h ++ [e]) (ir_phase (incident_event_step r e)) /\ unread (h ++ [e]) (incident_event_step r e).
Proof.
  cbv zeta. pose proof (activities_snoc h e) as Ha. revert Ha. destruct (IncidentResponseWorkflow h) as [ph l a s].
  unfold response, unread. rewrite !heard_snoc. intros Ha Hr Hu. rewrite Ha. clear Ha.
  generalize dependent (activities h). intros acts Hr.
  unfold incident_event_step. rewrite incident_settle_passed.
  assert (ActivityEnded false ∈ h -> ActivityEnded false ∈ h ++ [e]) as Hf by (intros; apply elem_of_app; by left).
  assert (e = ActivityEnded false -> ActivityEnded false ∈ h ++ [e]) as Hf' by (intros ->; apply elem_of_app; right; by left).
  generalize dependent (ActivityEnded false ∈ h ++ [e]). intros Failed.
  generalize dependent (heard SignalLeakDetected h). intros L.
  generalize dependent (heard SignalIncidentAcknowledged h). intros A.
  generalize dependent (heard SignalIncidentResolved h). intros R.
  revert e. refine (event_cases _ _ _ _ _ _ _ _); [| | |intros n N1 N2 N3| | |]; intros Hr Hu Hf Hf';
    unfold incident_buffer, starts, passed, with_phase;
    rewrite ?(said_other n), ?(decide_False (P := n = _)) by done; eval_names; rewrite ?orb_true_r, ?orb_false_r;
    destruct ph as [| |[] []|[]| | |], l as [|l], a as [|a], s as [|s]; cbn in Hr, Hu |- *;
    destruct_and?; simplify_eq; try done; settle_case.
Qed.

Lemma response_always h : response h (ir_phase (IncidentResponseWorkflow h)) /\ unread h (IncidentResponseWorkflow h).
Proof.
  induction h as [|e h [Hr Hu]] using rev_ind; [by vm_compute; split_and!|].
  unfold IncidentResponseWorkflow at 1 2. rewrite foldl_snoc. by apply response_step.
Qed.

(** An escalation starts only at a deadline. *)
Lemma starts_escalation r e : Escalate ∈ starts r (incident_event_step r e) -> e = TimerFired /\ ir_phase r = Responding false false.
Proof.
  unfold incident_event_step. rewrite incident_settle_passed. unfold starts, passed, incident_buffer, with_phase.
  destruct r as [[| |[] []|[]| | |] [|l] [|a] [|s]], e as [n| |[]]; cbn; repeat case_decide; cbn; repeat case_decide;
    set_solver.
Qed.

Lemma overdue_snoc h e : overdue h -> overdue (h ++ [e]).
Proof. intros (h1 & h2 & -> & Ho). exists h1, (h2 ++ [e]). by rewrite <- app_assoc. Qed.

(** C30: the response to a leak follows what is signalled.  Over any history
    of signals, deadlines and finished activities, in any order: the workflow
    waits until a leak is signalled, then marks the incident in progress; as
    long as it waits for people no resolution has been signalled and it knows
    of an acknowledgement if and only if one has; it escalates at most once,
    only at a deadline that passed before any acknowledgement or resolution
    was signalled, and always at such a deadline; and it marks the incident
    resolved once, last, after a resolution was signalled.  It fails only when
    an activity has failed. *)
Theorem incident_response_follows_signals (h : list history_event) :
  let wf := IncidentResponseWorkflow in
  response h (ir_phase (wf h)) /\
  (Escalate ∈ activities h -> overdue h) /\
  (forall h1 h2, h = h1 ++ TimerFired :: h2 -> ir_phase (wf h1) = Responding false false -> Escalate ∈ activities h).
Proof.
  cbv zeta. split_and!.
  - apply response_always.
  - induction h as [|e h IH] using rev_ind; [by intros ?%elem_of_nil|]. rewrite activities_snoc.
    intros [Ho|Ho]%elem_of_app; [by apply overdue_snoc, IH|]. apply starts_escalation in Ho as [-> Hp].
    destruct (response_always h) as [Hr Hu]. unfold response, unread in *. rewrite Hp in Hr. destruct Hr as (Hl & Hres & Hack & _).
    exists h, []. by rewrite <- Hack.
  - intros h1 h2 -> Hp. replace (h1 ++ TimerFired :: h2) with ((h1 ++ [TimerFired]) ++ h2) by by rewrite <- app_assoc.
    unfold activities. rewrite started_app. apply elem_of_app. left. fold (activities (h1 ++ [TimerFired])). rewrite activities_snoc.
    apply elem_of_app. right. destruct (IncidentResponseWorkflow h1) as [ph l a s]. cbn in Hp. subst ph.
    unfold incident_event_step. rewrite incident_settle_passed. cbn. case_decide; [done|]. by left.
Qed.

(** ** Signals of the dispatch handlers *)

(** The jobs a signal may be addressed to: a new one, or one that was active. *)
Definition addressable (d : DispatchDB) (sg : signal) : Prop :=
  exists i, sg_workflow sg = DispatchWorkflowIDPrefix +:+ i /\
    (jobs d !! i = None \/ exists j, jobs d !! i = Some j /\ active (dj_status j) = true).

Definition signals_to (d : DispatchDB) (w w' : World DispatchDB Workflows) : Prop :=
  exists new, w_led w' = w_led w ++ new /\ Forall (addressable d) new.

Lemma signals_none d w w' : w_led w' = w_led w -> signals_to d w w'.
Proof. intros E. exists []. by rewrite app_nil_r. Qed.

Lemma signals_one d w w' sg : w_led w' = w_led w ++ [sg] -> addressable d sg -> signals_to d w w'.
Proof. intros E Ha. exists [sg]. split; [done|]. by apply list.Forall_singleton. Qed.

Section Signals.
Context `{Runtime} `{PgNumeric} `{PgServer}.
Implicit Types w : World DispatchDB Workflows.

Ltac quiet := dgo; try dcase; dgo; by apply signals_none.

Lemma insert_phase_signals r w :
  wp (insert_dispatch_job (fun d => d) r) (fun _ w' => signals_to (w_db w) w w') w.
Proof.
  unfold insert_dispatch_job. do 6 wp_step.
  - match goal with H : match uuid_arg _ with _ => _ end = _ |- _ => rename H into Hs end.
    destruct (uuid_arg (jr_vehicle r)) as [v|] eqn:Ev; [|done]. cbn in Hs.
    destruct (insert_job _ _) as [[u g']|] eqn:Ei; [|done]. simplify_eq/=. apply insert_job_ok in Ei as [(Hn & _) ->].
    dgo; try (by apply signals_none); (eapply signals_one; [done|]); exists (uuid_of (w_uuids w)); (split; [done|by left]).
  - destruct e; dgo; try (repeat dcase; dgo); by apply signals_none.
  - dgo; by apply signals_none.
Qed.

Lemma create_signals req w : wp (CreateDispatchJob req) (fun _ w' => signals_to (w_db w) w w') w.
Proof.
  unfold CreateDispatchJob. destruct req as [r|]; [|quiet]. case_decide; [quiet|]. dcase; [quiet|].
  apply wp_bind. eapply wp_mono; [|apply check_hours_wp]. intros [a|] w' ([s ->] & _); [quiet|].
  unfold create_dispatch_tx. dgo; try (by apply signals_none). dcase; [repeat case_decide; quiet|].
  destruct e; try quiet. eapply wp_mono; [|apply insert_phase_signals]. intros a' w2 (new & E & F). by exists new.
Qed.

Lemma update_addressable id p f d j' g :
  match uuid_in id with Ok i => update_job i p f d | Err e => Err e end = Ok (j', g) ->
  (forall i j, jobs d !! i = Some j -> dj_id j = i) -> (forall j, p j = true -> active (dj_status j) = true) -> (forall j, dj_id (f j) = dj_id j) ->
  forall name payload, addressable d (mkSignal (DispatchWorkflowIDPrefix +:+ dj_id j') name payload).
Proof.
  destruct (uuid_in id) as [i|]; [|done]. intros (j & Hj & Hp & -> & _)%update_job_ok Hkey Ha Hf name payload.
  exists i. cbn. rewrite Hf, (Hkey i j Hj). split; [done|]. right. eauto.
Qed.

Lemma accept_signals ctx id w : dispatch_inv (w_db w) ->
  wp (AcceptDispatchJob ctx id) (fun _ w' => signals_to (w_db w) w w') w.
Proof.
  intros Hi. unfold AcceptDispatchJob, accept_job. case_decide; [quiet|]. dgo; [|by apply signals_none].
  destruct (drivers (w_db w) !! Subject ctx) as [x|] eqn:Ex; [|quiet].
  case_bool_decide; [|quiet]. cbn [negb]. dgo; try (by apply signals_none).
  - eapply signals_one; [done|]. eapply update_addressable; [eassumption|apply (inv_key _ Hi)| |done].
    intros j [->%bool_decide_eq_true _]%andb_true_iff. done.
  - destruct e; quiet.
Qed.

Lemma cancel_signals id w : dispatch_inv (w_db w) ->
  wp (CancelDispatchJob id) (fun _ w' => signals_to (w_db w) w w') w.
Proof.
  intros Hi. unfold CancelDispatchJob. dgo; try (by apply signals_none).
  - eapply signals_one; [done|]. eapply update_addressable; [eassumption|apply (inv_key _ Hi)|done|done].
  - destruct e; quiet.
Qed.

Lemma signal_cancelled_signals reference ids d w0 w :
  signals_to d w0 w -> Forall (fun i => jobs d !! i = None \/ exists j, jobs d !! i = Some j /\ active (dj_status j) = true) ids ->
  wp (signal_cancelled reference ids) (fun _ w' => signals_to d w0 w') w.
Proof.
  revert w. induction ids as [|i ids IH]; intros w Hs Hf; cbn [signal_cancelled]; [by apply wp_ret|].
  apply Forall_cons_1 in Hf as [Hi Hf]. destruct Hs as (new & E & F). apply wp_bind, wp_Signal; intros; apply IH; try done.
  - eexists (new ++ [_]). cbn. rewrite E, app_assoc. split; [done|]. apply Forall_app. split; [done|].
    apply list.Forall_singleton. by exists i.
  - by exists new.
Qed.

Lemma unbook_signals id w : dispatch_inv (w_db w) ->
  wp (CancelCharter id) (fun _ w' => signals_to (w_db w) w w') w.
Proof.
  intros Hi. unfold CancelCharter. apply wp_bind, wp_begin; intros s; [|quiet].
  wp_step. wp_step. apply wp_bind, wp_tx_exec; intros s0; [|intros e _; destruct e; quiet|quiet].
  intros b' g Hb. destruct (uuid_in id) as [i|] eqn:Eu; [|done].
  unfold cancel_booking in Hb. cbn in Hb.
  destruct (bookings (w_db w) !! i) as [b|] eqn:Eb; [|done]. case_decide; [|done]. simplify_eq.
  apply wp_bind, wp_tx_exec; intros s1; [|intros e He; unfold cancel_booked_jobs in He; done|quiet]. intros ids g2 Hc. unfold cancel_booked_jobs in Hc. simplify_eq.
  apply wp_bind, wp_commit; intros s2; [|quiet|quiet]. cbn beta iota. apply wp_bind.
  eapply wp_mono; [|apply (signal_cancelled_signals _ _ (w_db w) w)].
  - intros u w' Hs. cbn. dgo; destruct Hs as (new & E & F); by exists new.
  - by apply signals_none.
  - apply list.Forall_forall. intros k Hk. apply list_elem_of_fmap in Hk as (j & -> & Hj).
    apply list_elem_of_filter in Hj as [Hba Hj]. apply elem_of_rows in Hj as [k Hj]. cbn in Hj.
    right. exists j. rewrite (inv_key _ Hi k j Hj). split; [done|]. unfold booked_active in Hba. cbn in Hba. rewrite (inv_key _ Hi k j Hj) in Hba.
    destruct (charter_vehicles (w_db w) !! k); [|done]. by apply andb_true_iff in Hba as [_ ?].
Qed.

(** Handlers that signal nothing. *)
Definition same_signals {D} (v v' : left_behind D Workflows) : Prop := lf_led v' = lf_led v.

#[global] Instance same_signals_preorder {D} : PreOrder (@same_signals D).
Proof. split; [done|]. intros v1 v2 v3 E1 E2. unfold same_signals in *. congruence. Qed.

Lemma reserve_vehicles_silent tx b ref st en vs : keeps same_signals (reserve_vehicles reserve_vehicle tx b ref st en vs).
Proof.
  revert tx. induction vs as [|v vs IH]; intros tx; cbn [reserve_vehicles]; [keep_step|].
  apply keeps_bind; [apply _| |].
  - unfold reserve_vehicle, write_reservation. repeat keep_step.
  - intros [a|[id tx1]]; [keep_step|]. apply keeps_bind; [apply _|apply IH|]. intros. repeat keep_step.
Qed.

Lemma silent_op op w :
  match op with OSwap _ _ | ORequeue _ | ORegister _ _ | OCreateDriver _ | OSetDriverStatus _ _ | OBook _ _ => True | _ => False end ->
  w_led (run op w).2 = w_led w.
Proof.
  assert (forall A (m : M DispatchDB Workflows A), keeps same_signals m -> w_led (quietly m w).2 = w_led w) as Hq.
  { intros A m Hm. assert (keeps same_signals (quietly m)) as Hk by (unfold quietly; keep_step; [done|keep_step]). apply (Hk w). }
  destruct op; intros Hop; try done; unfold run; apply Hq.
  - unfold SwapDispatchVehicle, swap_vehicle_tx. repeat keep_step; done.
  - unfold RequeueDispatchJob. repeat keep_step; done.
  - unfold RegisterDriver. repeat keep_step; done.
  - unfold CreateDriver, upsertDriver. repeat keep_step; done.
  - unfold SetDriverStatus. repeat keep_step; done.
  - unfold CreateCharter. destruct req as [r|]; [|keep_step]. unfold create_charter_tx, replay_charter.
    repeat first [apply reserve_vehicles_silent | keep_step]; done.
Qed.

(** Every signal a request sends goes to a job that was new or active. *)
Lemma run_signals op w : dispatch_inv (w_db w) -> signals_to (w_db w) w (run op w).2.
Proof.
  intros Hi.
  assert (forall A (m : M DispatchDB Workflows A), wp m (fun _ w' => signals_to (w_db w) w w') w -> signals_to (w_db w) w (quietly m w).2) as Hq.
  { intros A m Hm. by apply (quietly_wp m (fun w' => signals_to (w_db w) w w')). }
  destruct op; try (apply signals_none; by apply silent_op); unfold run.
  - apply Hq, create_signals.
  - destruct (window_okb _ _); [apply Hq, insert_phase_signals|by apply signals_none].
  - by apply Hq, accept_signals.
  - by apply Hq, cancel_signals.
  - by apply Hq, unbook_signals.
Qed.

(** ** The journey of a job *)

(** The status changes the requests, the activity and the faults can make. *)
Inductive status_step : string -> string -> Prop :=
| st_accept : status_step "assigned" "accepted"
| st_requeue : status_step "assigned" "requeued"
| st_cancel st : active st = true -> status_step st "cancelled".

Definition journey (j j' : DispatchJob) : Prop :=
  dj_id j' = dj_id j /\ dj_driver j' = dj_driver j /\ dj_route j' = dj_route j /\
  dj_starts j' = dj_starts j /\ dj_ends j' = dj_ends j /\ rtc status_step (dj_status j) (dj_status j').

#[local] Instance journey_preorder : PreOrder journey.
Proof.
  split; [intros j; unfold journey; by split_and!|].
  intros a b c (?&?&?&?&?&R1) (?&?&?&?&?&R2). unfold journey. split_and!; try congruence. by etransitivity.
Qed.

Lemma dstep_journey d l d' id j : dispatch_inv d -> dstep d l d' -> jobs d !! id = Some j ->
  exists j', jobs d' !! id = Some j' /\ journey j j'.
Proof.
  intros Hi Hst Hj. assert (forall n, (dj_id n = id -> journey j n) -> exists j', jobs (put_job n d) !! id = Some j' /\ journey j j') as Hput.
  { intros n Hn. destruct (put_job_lookup n d id j Hj) as (o & Ho & [->|[-> ->]]); eexists; (split; [done|]); [reflexivity|auto]. }
  assert (forall n n', jobs d !! dj_id n = Some n -> dj_id n' = id -> dj_id n' = dj_id n -> n = j) as Heq.
  { intros n n' Hn E1 E2. rewrite E1 in E2. rewrite <- E2 in Hn. by simplify_eq. }
  destruct Hst as [n Ha Hs Hw|n x now Hn Hs Hx Hxa|n Hn Ha|n Hn Hs|n v Hn Ha Hf Hv|x|b now vs d' Hn Hf Hw Hs Hr|b now Hb Hs].
  - apply Hput. intros <-. destruct Ha as [Ha _]. by rewrite Hj in Ha.
  - apply Hput. intros E. assert (n = j) as -> by by eapply Heq. unfold journey. cbn. split_and!; try done.
    rewrite Hs. apply rtc_once, st_accept.
  - apply Hput. intros E. assert (n = j) as -> by by eapply Heq. unfold journey. cbn. split_and!; try done. by apply rtc_once, st_cancel.
  - apply Hput. intros E. assert (n = j) as -> by by eapply Heq. unfold journey. cbn. split_and!; try done.
    rewrite Hs. apply rtc_once, st_requeue.
  - apply Hput. intros E. assert (n = j) as -> by by eapply Heq. unfold journey. cbn. by split_and!.
  - exists j. split; [done|reflexivity].
  - exists j. split; [by eapply reserved_keeps|reflexivity].
  - cbn. rewrite lookup_fmap, Hj. eexists. split; [done|]. destruct (booked_active _ _ _) eqn:Eb; [|reflexivity].
    unfold journey. cbn. split_and!; try done. apply rtc_once, st_cancel. unfold booked_active in Eb. cbn in Eb.
    destruct (charter_vehicles d !! dj_id j); [|done]. by apply andb_true_iff in Eb as [_ ?].
Qed.

Lemma trace_journey w w' id j : trace w w' -> dispatch_inv (w_db w) -> jobs (w_db w) !! id = Some j ->
  exists j', jobs (w_db w') !! id = Some j' /\ journey j j'.
Proof.
  intros Ht Hi Hj. induction Ht as [|w1 op Ht IH|w1 t s Ht IH]; [exists j; split; [done|reflexivity]| |exact IH].
  destruct IH as (j1 & Hj1 & J1). pose proof (trace_inv w w1 Ht Hi) as Hi1.
  destruct (run_refines op w1 Hi1) as [E|(l & _ & Hst)]; [exists j1; by rewrite E|].
  destruct (dstep_journey _ _ _ _ _ Hi1 Hst Hj1) as (j2 & Hj2 & J2). exists j2. split; [done|]. by etransitivity.
Qed.

Lemma requeued_final st : rtc status_step "requeued" st -> st = "requeued".
Proof. intros Hr. inversion Hr as [|x y z Hs]; subst; [done|]. by inversion Hs. Qed.

Lemma append_inj_r (p a b : string) : p +:+ a = p +:+ b -> a = b.
Proof. induction p as [|c p IH]; cbn; [done|]. intros [= E]. auto. Qed.

(** Over any requests, activities and faults a job keeps its driver, route
    and window, and its status only moves from assigned to accepted, requeued
    or cancelled, and from accepted or in progress to cancelled: an accepted
    job is never requeued by a timeout, and requeued and cancelled are final. *)
Theorem job_journey w w' id j :
  dispatch_inv (w_db w) -> trace w w' -> jobs (w_db w) !! id = Some j ->
  exists j', jobs (w_db w') !! id = Some j' /\ journey j j'.
Proof. intros Hi Ht Hj. by apply (trace_journey w). Qed.

(** The signals addressed to one workflow, as history. *)
Definition delivered (wid : string) (l : list signal) : list history_event :=
  map (fun sg => Signaled (sg_name sg)) (filter (fun sg => sg_workflow sg = wid) l).

Lemma trace_silent_for w w' id j : trace w w' -> dispatch_inv (w_db w) -> jobs (w_db w) !! id = Some j -> dj_status j = "requeued" ->
  exists new, w_led w' = w_led w ++ new /\ delivered (DispatchWorkflowIDPrefix +:+ id) new = [].
Proof.
  intros Ht Hi Hj Hs. induction Ht as [|w1 op Ht IH|w1 t s Ht IH]; [exists []; by rewrite app_nil_r| |exact IH].
  destruct IH as (new & E & Hd). pose proof (trace_inv w w1 Ht Hi) as Hi1.
  destruct (trace_journey w w1 id j Ht Hi Hj) as (j1 & Hj1 & (_ & _ & _ & _ & _ & Hr)). rewrite Hs in Hr. apply requeued_final in Hr.
  destruct (run_signals op w1 Hi1) as (new1 & E1 & F1). exists (new ++ new1). split; [by rewrite E1, E, app_assoc|].
  unfold delivered in *. rewrite list.filter_app, map_app, Hd. cbn.
  destruct (filter _ new1) as [|sg l] eqn:Ef; [done|]. exfalso.
  assert (sg ∈ filter (fun sg => sg_workflow sg = DispatchWorkflowIDPrefix +:+ id) new1) as Hin by (rewrite Ef; left).
  apply list_elem_of_filter in Hin as [Hw Hin]. rewrite list.Forall_forall in F1. destruct (F1 sg Hin) as (i & Ei & Ha).
  rewrite Hw in Ei. apply append_inj_r in Ei. subst i. destruct Ha as [Ha|(j' & Hj' & Ha)]; simplify_eq. by rewrite Hr in Ha.
Qed.

(** A requeued job is a dead end: no request reassigns, cancels or
    signals it any more, and its workflow, which went back to await a fresh
    assignment, stays there whatever happens. *)
Theorem requeued_job_is_stuck w w' id j h :
  dispatch_inv (w_db w) -> trace w w' -> jobs (w_db w) !! id = Some j -> dj_status j = "requeued" ->
  DispatchWorkflow h = dispatch_start ->
  (exists j', jobs (w_db w') !! id = Some j' /\ dj_status j' = "requeued") /\
  exists new, w_led w' = w_led w ++ new /\
    DispatchWorkflow (h ++ delivered (DispatchWorkflowIDPrefix +:+ id) new) = dispatch_start.
Proof.
  intros Hi Ht Hj Hs Hw. split.
  - destruct (trace_journey w w' id j Ht Hi Hj) as (j' & Hj' & (_ & _ & _ & _ & _ & Hr)). exists j'. split; [done|].
    rewrite Hs in Hr. by apply requeued_final.
  - destruct (trace_silent_for w w' id j Ht Hi Hj Hs) as (new & E & Hd). exists new. split; [done|]. by rewrite Hd, app_nil_r.
Qed.
End Signals.

(** ** Incidents reported by hand *)

Lemma deliver_all_silent `{Runtime} `{WebhookEnv} i ev p subs : keeps same_signals (deliver_all i ev p subs).
Proof.
  induction subs as [|x subs IH]; cbn [deliver_all]; [keep_step|]. unfold attemptWebhookDelivery, recordDeliveryOutcome.
  repeat first [exact IH | keep_step]; done.
Qed.

Lemma OpenIncident_silent `{Runtime} `{PgServer} `{WebhookEnv} req : keeps same_signals (OpenIncident req).
Proof.
  unfold OpenIncident, insertIncident, afterIncidentOpened, setStationEmergency, dispatchIncidentWebhooks.
  repeat first [apply deliver_all_silent | keep_step]; done.
Qed.

(** The response workflow never starts for an incident reported by hand:
    opening it signals nothing, under any fault, and a workflow started by
    its later acknowledgement and resolution waits for a leak signal for ever,
    so it neither escalates nor closes. *)
Theorem manual_incident_has_no_response `{Runtime} `{PgServer} `{WebhookEnv} req (w : World IncidentDB Workflows) h :
  Forall (fun e => e = Signaled SignalIncidentAcknowledged \/ e = Signaled SignalIncidentResolved \/ e = TimerFired) h ->
  w_led (OpenIncident req w).2 = w_led w /\ ir_phase (IncidentResponseWorkflow h) = AwaitLeak.
Proof.
  intros Hh. split.
  - apply (OpenIncident_silent req w).
  - unfold IncidentResponseWorkflow. assert (ir_phase (foldl incident_event_step incident_start h) = AwaitLeak /\
      ir_leak (foldl incident_event_step incident_start h) = 0%nat) as [E _]; [|exact E].
    induction h as [|e h IH] using rev_ind; [done|]. apply Forall_app in Hh as [Hh He]. apply Forall_cons_1 in He as [He _].
    destruct (IH Hh) as [E1 E2]. rewrite foldl_snoc. destruct (foldl _ _ h) as [ph leak ack res]. cbn in E1, E2. subst.
    assert (forall n r, ir_phase r = AwaitLeak -> ir_leak r = 0%nat -> incident_settle n r = r) as Hset.
    { intros [|n] [p l a s]; cbn; [done|]. by intros -> ->. }
    destruct He as [E | [E | E]]; subst e; unfold incident_event_step; cbn; rewrite Hset; done.
Qed.

(** ** Concrete runs *)

Section Witnesses.
#[local] Existing Instance test_runtime.
#[local] Existing Instance test_numeric.
#[local] Existing Instance test_server.
#[local] Existing Instance test_webhooks.

(** The first job of the demonstration is not accepted in time. *)
Definition requeued_world : World DispatchDB Workflows := (run (ORequeue "uuid-0") demo_world).2.

Lemma requeued_world_inv : dispatch_inv (w_db requeued_world).
Proof. eapply (trace_inv demo_world); [apply trace_op, trace_refl|apply demo_world_inv]. Qed.

Lemma job_journey_witness :
  exists j', jobs (w_db requeued_world) !! "uuid-0" = Some j' /\
    journey (mkJob "uuid-0" "dan" (Some "bus-1") "R10" (Some 3600000) (Some 7200000) "assigned" 1000 None) j'.
Proof.
  apply (job_journey demo_world requeued_world); [apply demo_world_inv|apply trace_op, trace_refl|vm_compute; reflexivity].
Defined.

Lemma requeued_job_is_stuck_witness :
  exists new, w_led (run (OCancel "uuid-0") requeued_world).2 = w_led requeued_world ++ new /\
    DispatchWorkflow ([Signaled SignalJobAssigned; TimerFired; ActivityEnded true] ++
      delivered (DispatchWorkflowIDPrefix +:+ "uuid-0") new) = dispatch_start.
Proof.
  eapply (requeued_job_is_stuck requeued_world (run (OCancel "uuid-0") requeued_world).2 "uuid-0"
    (mkJob "uuid-0" "dan" (Some "bus-1") "R10" (Some 3600000) (Some 7200000) "requeued" 1000 None));
    [apply requeued_world_inv|apply trace_op, trace_refl|vm_compute; reflexivity|reflexivity|reflexivity].
Defined.

(** A leak nobody reacts to in time, acknowledged while it is escalated, and resolved. *)
Definition late_response : list history_event :=
  [Signaled SignalLeakDetected; ActivityEnded true; TimerFired; Signaled SignalIncidentAcknowledged; ActivityEnded true;
   Signaled SignalIncidentResolved; ActivityEnded true].

Lemma incident_response_follows_signals_witness :
  ir_phase (IncidentResponseWorkflow late_response) = IncidentClosed /\
  activities late_response = [SetInProgress; Escalate; MarkResolved] /\ overdue late_response.
Proof.
  split; [vm_compute; reflexivity|]. split; [vm_compute; reflexivity|].
  apply (incident_response_follows_signals late_response).
  apply (incident_response_follows_signals late_response) with
    (h1 := [Signaled SignalLeakDetected; ActivityEnded true])
    (h2 := [Signaled SignalIncidentAcknowledged; ActivityEnded true; Signaled SignalIncidentResolved; ActivityEnded true]);
    vm_compute; reflexivity.
Defined.

Lemma manual_incident_has_no_response_witness :
  ir_phase (IncidentResponseWorkflow [Signaled SignalIncidentAcknowledged; Signaled SignalIncidentResolved]) = AwaitLeak.
Proof.
  apply (manual_incident_has_no_response None (incident_world demo_incidents [])).
  apply Forall_cons_2; [left; reflexivity|]. apply Forall_cons_2; [right; left; reflexivity|apply Forall_nil_2].
Defined.
End Witnesses.
