(* ===== verification/Toggles.v ===== *)
(** * Feature toggles: the service, its cache, the clients and the gates

    Models of services/go/toggle-service/internal/handlers/toggles.go (the
    toggle table, the Redis read-through cache and its refresh), of
    packages/toggle-client/go/toggle.go (the per-module cache of each service)
    and of internal/gate/gate.go (the route gate, one copy per service).

    A read that misses the cache and an update are each cut at the point where
    PostgreSQL has answered and Redis has not been written yet, so that the
    state machine at the end interleaves any number of requests there. *)

From stdpp Require Import gmap strings list.
From S2P Require Import Prelude World.

Open Scope Z_scope.
Open Scope go_scope.

(** ** Redis

    [GET] and [SET key value EX ttl] at an instant.  The laws are the
    documented ones: a key reads as the value last set, not after its time to
    live; other keys and the passing of time bring nothing back.  A key may
    vanish early (eviction, restart), so no law says that a key is found. *)
Class Redis (R : Type) : Type := {
  redis_get : R -> Z -> string -> option string;
  redis_set : string -> string -> Z -> Z -> R -> R;
  redis_get_set r k v ttl t t' v' :
    t <= t' -> redis_get (redis_set k v ttl t r) t' k = Some v' -> v' = v /\ t' < t + ttl;
  redis_get_set_ne r k k' v ttl t t' v' :
    k <> k' -> redis_get (redis_set k v ttl t r) t' k' = Some v' -> redis_get r t' k' = Some v'
}.

(** A server that keeps every key until it expires. *)
Abbreviation plain_store := (gmap string (string * Z)).

Definition plain_get (r : plain_store) (t : Z) (k : string) : option string :=
  match r !! k with Some (v, e) => if t <? e then Some v else None | None => None end.

Definition plain_set (k v : string) (ttl t : Z) (r : plain_store) : plain_store := <[k := (v, t + ttl)]> r.

#[global] Instance plain_redis : Redis plain_store.
Proof.
  refine {| redis_get := plain_get; redis_set := plain_set |}; unfold plain_get, plain_set.
  - intros r k v ttl t t' v' _. rewrite lookup_insert_eq. destruct (Z.ltb_spec t' (t + ttl)); naive_solver.
  - intros r k k' v ttl t t' v' Hne. by rewrite lookup_insert_ne.
Defined.

(** ** The toggle service *)

Definition cacheTTL : Z := 30000.

Definition Modules : gmap string string := list_to_map [
  ("telematics", "fleet"); ("predictive-maintenance", "fleet"); ("digital-twin", "fleet");
  ("fuel-monitoring", "fleet"); ("route-energy-optimizer", "fleet");
  ("refueling-stations", "infra"); ("leak-detection", "infra"); ("dispatch-workforce", "infra");
  ("compliance-reporting", "infra"); ("depot-management", "infra");
  ("passenger-pwa", "citizen"); ("mobile-app", "citizen"); ("demand-responsive", "citizen");
  ("carbon-credits", "citizen"); ("open-data-portal", "citizen");
  ("fare-payments", "commerce"); ("loyalty-marketplace", "commerce"); ("energy-trading", "commerce");
  ("gov-dashboard", "commerce"); ("advertising", "commerce")].

(** A row of [feature_toggles], keyed by module. *)
Record ToggleRow : Type := mkToggle { tg_domain : string; tg_enabled : bool; tg_updated : Z }.

Abbreviation ToggleDB := (gmap string ToggleRow).

Definition cacheKey (module : string) : string := "toggles:" +:+ module.

Definition boolString (b : bool) : string := if b then "true" else "false".

Definition toggle_json (module : string) (enabled : bool) (domain : string) : json :=
  JObj [("module", JStr module); ("enabled", JBool enabled); ("domain", JStr domain)].

(** [INSERT ... ON CONFLICT (module) DO NOTHING]. *)
Definition seed_row (module domain : string) (now : Z) (d : ToggleDB) : ToggleDB :=
  match d !! module with
  | Some _ => d
  | None => <[module := mkToggle domain true now]> d
  end.

(** [UPDATE ... WHERE module = $1], with the number of rows. *)
Definition set_enabled (module : string) (b : bool) (now : Z) (d : ToggleDB) : result (Z * (ToggleDB -> ToggleDB)) :=
  match d !! module with
  | None => Ok (0, fun d => d)
  | Some t => Ok (1, fun d => <[module := mkToggle (tg_domain t) b now]> d)
  end.

Section Service.
Context {R : Type} `{Redis R} (rdb : bool).

Abbreviation TM := (M ToggleDB R).

(** The loop over [Modules] in the order [order] the runtime picks. *)
Fixpoint seed_loop (tx : Tx ToggleDB) (now : Z) (order : list (string * string)) : TM (result (Tx ToggleDB)) :=
  match order with
  | [] => gret (Ok tx)
  | (module, domain) :: rest =>
      try! (_, tx) := tx_exec tx (fun _ => Ok (tt, seed_row module domain now)) catch e => gret (Err e) in
      seed_loop tx now rest
  end.

Definition EnsureSchemaAndSeed (order : list (string * string)) : TM (result unit) :=
  try! _ := db_exec (fun _ => Ok (tt, fun d : ToggleDB => d)) catch e => gret (Err e) in
  try! tx := begin catch e => gret (Err e) in
  let! now := gets w_now in
  try! tx := seed_loop tx now order catch e => gret (Err e) in
  commit tx.

Definition ListToggles : TM response :=
  try! ts := db_query (fun d => Ok (map_to_list d)) catch e => internal "query toggles" e in
  reply 200 (JObj [("toggles", JObj (map (fun p : string * ToggleRow => (p.1, JBool (tg_enabled p.2))) ts))]).

(** [h.rdb.Get]: a value, or nothing for a missing key, an error, or no Redis. *)
Definition cache_read (module : string) : TM (option string) :=
  if rdb then
    let! now := gets w_now in
    let! r := led_call (fun s => (Ok (redis_get s now (cacheKey module)), s)) in
    gret (match r with Ok (Some v) => Some v | _ => None end)
  else gret None.

Definition cache_write (module : string) (b : bool) : TM unit :=
  if rdb then
    let! now := gets w_now in
    do! led_call (fun s => (Ok tt, redis_set (cacheKey module) (boolString b) cacheTTL now s)) in
    gret tt
  else gret tt.

(** [Get] up to the answer of the cache or of the database. *)
Definition get_read (module : string) : TM (response + bool * string) :=
  match Modules !! module with
  | None => gret (inl (json_error 404 "unknown module"))
  | Some domain =>
      let! cached := cache_read module in
      match cached with
      | Some v => gret (inl (mkResponse 200 (toggle_json module (bool_decide (v = "true")) domain)))
      | None =>
          let! row := db_query (fun d => match d !! module with Some t => Ok (tg_enabled t, tg_domain t) | None => Err ErrNoRows end) in
          match row with
          | Ok p => gret (inr p)
          | Err ErrNoRows => gret (inl (json_error 404 "unknown module"))
          | Err _ => gret (inl (json_error 500 "internal error"))
          end
      end
  end.

(** The rest of [Get]: fill the cache and answer. *)
Definition get_fill (module : string) (enabled : bool) (domain : string) : TM response :=
  do! cache_write module enabled in
  reply 200 (toggle_json module enabled domain).

Definition Get (module : string) : TM response :=
  let! r := get_read module in
  match r with
  | inl resp => gret resp
  | inr (enabled, domain) => get_fill module enabled domain
  end.

(** [Put] up to the committed update; the body is unreadable, lacks
    [enabled], or has it. *)
Definition put_write (module : string) (req : option (option bool)) : TM (response + bool * string) :=
  match Modules !! module with
  | None => gret (inl (json_error 404 "unknown module"))
  | Some domain =>
      match req with
      | Some (Some b) =>
          let! now := gets w_now in
          let! n := db_exec (set_enabled module b now) in
          match n with
          | Err _ => gret (inl (json_error 500 "internal error"))
          | Ok n => if n =? 0 then gret (inl (json_error 404 "unknown module")) else gret (inr (b, domain))
          end
      | _ => gret (inl (json_error 400 ("body must be {" +:+ quoted "enabled" +:+ ": bool}")))
      end
  end.

(** The rest of [Put]: refresh the cache, announce the change, answer. *)
Definition put_refresh (module : string) (b : bool) (domain : string) : TM response :=
  do! cache_write module b in
  do! publish "toggle.changed" [("module", JStr module); ("enabled", JBool b); ("domain", JStr domain)] in
  reply 200 (toggle_json module b domain).

Definition Put (module : string) (req : option (option bool)) : TM response :=
  let! r := put_write module req in
  match r with
  | inl resp => gret resp
  | inr (b, domain) => put_refresh module b domain
  end.
End Service.

(** ** The client of each service *)

Definition DefaultTTL : Z := 5000.

(** The timeout of the client's [http.Client]. *)
Definition fetchTimeout : Z := 3000.

Record cacheEntry : Type := mkEntry { ce_enabled : bool; ce_expires : Z }.

Abbreviation Client := (gmap string cacheEntry).

(** The fields of [toggleResponse] the client uses; an absent or null field is
    the zero value, a field of another type fails the decoding. *)
Definition decode_toggle (doc : json) : option (string * bool) :=
  match doc with
  | JNull => Some ("", false)
  | JObj o =>
      match jget "module" o, jget "enabled" o, jget "domain" o with
      | (None | Some JNull | Some (JStr _)) as m, (None | Some JNull | Some (JBool _)) as e,
        (None | Some JNull | Some (JStr _)) =>
          Some (match m with Some (JStr s) => s | _ => "" end, match e with Some (JBool b) => b | _ => false end)
      | _, _, _ => None
      end
  | _ => None
  end.

Definition fetch (module : string) (o : http_outcome) : bool :=
  match o with
  | HttpFail _ _ _ => false
  | HttpReply _ code _ doc =>
      if code =? 200 then
        match doc with
        | None => false
        | Some j =>
            match decode_toggle j with
            | None => false
            | Some (m, enabled) => if bool_decide (m <> "" /\ m <> module) then false else enabled
            end
        end
      else false
  end.

Definition cached (c : Client) (module : string) (now : Z) : option bool :=
  match c !! module with
  | Some e => if now <? ce_expires e then Some (ce_enabled e) else None
  | None => None
  end.

Definition store (c : Client) (module : string) (enabled : bool) (later : Z) : Client :=
  <[module := mkEntry enabled (later + DefaultTTL)]> c.

(** [IsEnabled] called at [now]; on a miss the request ends with [o] at [later]. *)
Definition IsEnabled (c : Client) (module : string) (now later : Z) (o : http_outcome) : bool * Client :=
  match cached c module now with
  | Some b => (b, c)
  | None => let enabled := fetch module o in (enabled, store c module enabled later)
  end.

Definition Invalidate (c : Client) (module : string) : Client := delete module c.

(** The route gate: [None] hands the request to the next handler. *)
Definition Module_gate (c : Client) (module : string) (now later : Z) (o : http_outcome) : option response * Client :=
  let '(enabled, c) := IsEnabled c module now later o in
  (if enabled then None else Some (json_error 404 ("module disabled or unknown: " +:+ module)), c).

(** ** The platform as a state machine

    Requests to the service interleave at the cut points: a [pending] write to
    the cache remembers the value, and when PostgreSQL gave it.  [L] bounds
    the time from there to the cache write.  A client receives an answer at
    most [fetchTimeout] after the service gave it, or a failure. *)

Record pending : Type := mkPending {
  pd_put : bool; pd_module : string; pd_enabled : bool; pd_domain : string; pd_since : Z }.

Record sys (R : Type) : Type := mkSys {
  sy_world : World ToggleDB R;
  sy_pending : list pending;
  sy_replies : list (string * response * Z);
  sy_client : Client
}.
Arguments mkSys {R} _ _ _ _.
Arguments sy_world {R} _.
Arguments sy_pending {R} _.
Arguments sy_replies {R} _.
Arguments sy_client {R} _.

Section Machine.
Context {R : Type} `{Redis R} (rdb : bool) (L : Z).
Implicit Types s : sys R.

Definition sy_now s : Z := w_now (sy_world s).

Definition enabled_in s (module : string) : Prop := exists t, w_db (sy_world s) !! module = Some t /\ tg_enabled t = true.

Definition finish_write (p : pending) : M ToggleDB R response :=
  if pd_put p then put_refresh rdb (pd_module p) (pd_enabled p) (pd_domain p)
  else get_fill rdb (pd_module p) (pd_enabled p) (pd_domain p).

(** A request ends at the client: an answer of the service, or any failure. *)
Inductive received s (module : string) : http_outcome -> Prop :=
| rc_fail e b msg : received s module (HttpFail e b msg)
| rc_error e code raw doc : code <> 200 -> received s module (HttpReply e code raw doc)
| rc_garbled e code raw : received s module (HttpReply e code raw None)
| rc_answer e raw r t : (module, r, t) ∈ sy_replies s -> sy_now s - t <= fetchTimeout ->
    received s module (HttpReply e (status r) raw (Some (body r))).

(** What a request to the service has led to by its cut point. *)
Definition reached s (put : bool) (module : string) (x : (response + bool * string) * World ToggleDB R) : sys R :=
  match x with
  | (inl r, w) => mkSys w (sy_pending s) ((module, r, sy_now s) :: sy_replies s) (sy_client s)
  | (inr (b, d), w) => mkSys w (mkPending put module b d (sy_now s) :: sy_pending s) (sy_replies s) (sy_client s)
  end.

Inductive step : sys R -> sys R -> Prop :=
| st_tick s dt : 0 <= dt ->
    step s (mkSys (with_now (sy_now s + dt) (sy_world s)) (sy_pending s) (sy_replies s) (sy_client s))
| st_faults s l : step s (mkSys (with_sched l (sy_world s)) (sy_pending s) (sy_replies s) (sy_client s))
| st_get s module : step s (reached s false module (get_read rdb module (sy_world s)))
| st_put s module req : step s (reached s true module (put_write module req (sy_world s)))
| st_write s l1 p l2 : sy_pending s = l1 ++ p :: l2 -> sy_now s - pd_since p <= L ->
    step s (mkSys (finish_write p (sy_world s)).2 (l1 ++ l2)
              ((pd_module p, (finish_write p (sy_world s)).1, sy_now s) :: sy_replies s) (sy_client s))
| st_abort s l1 p l2 : sy_pending s = l1 ++ p :: l2 ->
    step s (mkSys (sy_world s) (l1 ++ l2) (sy_replies s) (sy_client s))
| st_store s module o : received s module o ->
    step s (mkSys (sy_world s) (sy_pending s) (sy_replies s) (store (sy_client s) module (fetch module o) (sy_now s)))
| st_invalidate s module :
    step s (mkSys (sy_world s) (sy_pending s) (sy_replies s) (Invalidate (sy_client s) module)).

(** A start: no request under way, nothing cached. *)
Definition starting s : Prop :=
  sy_pending s = [] /\ sy_replies s = [] /\ sy_client s = ∅ /\
  forall module t, redis_get (w_led (sy_world s)) t (cacheKey module) = None.

(** An execution, latest state first. *)
Inductive execution : list (sys R) -> Prop :=
| ex_start s : starting s -> execution [s]
| ex_step s s' tr : execution (s :: tr) -> step s s' -> execution (s' :: s :: tr).

(** The module was enabled in PostgreSQL at [t] or later. *)
Definition enabled_since (tr : list (sys R)) (module : string) (t : Z) : Prop :=
  exists s, s ∈ tr /\ t <= sy_now s /\ enabled_in s module.

Lemma enabled_since_cons s tr module t t' :
  t' <= t -> enabled_since tr module t -> enabled_since (s :: tr) module t'.
Proof. intros Ht (s0 & Hin & ? & ?). exists s0. split_and!; [by right|lia|done]. Qed.

Lemma enabled_since_mono tr module t t' : t' <= t -> enabled_since tr module t -> enabled_since tr module t'.
Proof. intros Ht (s0 & Hin & ? & ?). exists s0. split_and!; [done|lia|done]. Qed.

(** What every cached or travelling [true] goes back to. *)
Record cache_inv (tr : list (sys R)) s : Prop := mkCacheInv {
  ci_redis : forall module t, sy_now s <= t -> redis_get (w_led (sy_world s)) t (cacheKey module) = Some "true" ->
    enabled_since tr module (t - cacheTTL - L);
  ci_pending : forall p, p ∈ sy_pending s -> pd_since p <= sy_now s /\
    (pd_enabled p = true -> enabled_since tr (pd_module p) (pd_since p));
  ci_replies : forall module r t e raw, (module, r, t) ∈ sy_replies s ->
    fetch module (HttpReply e (status r) raw (Some (body r))) = true -> enabled_since tr module (t - cacheTTL - L);
  ci_client : forall module c, sy_client s !! module = Some c -> ce_enabled c = true ->
    enabled_since tr module (ce_expires c - DefaultTTL - fetchTimeout - cacheTTL - L)
}.

(** *** What the pieces of the handlers do *)

Lemma fetch_toggle module m b d e raw : fetch module (HttpReply e 200 raw (Some (toggle_json m b d))) = true -> b = true.
Proof. simpl. by case_bool_decide. Qed.

Definition same_tables (w w' : World ToggleDB R) : Prop := w_db w' = w_db w /\ w_now w' = w_now w.

Lemma wp_cache_read module (w : World ToggleDB R) :
  wp (cache_read rdb module) (fun v w' => same_tables w w' /\ w_led w' = w_led w /\
    (is_Some v -> v = redis_get (w_led w) (w_now w) (cacheKey module))) w.
Proof using All.
  unfold cache_read. destruct rdb; repeat wp_step; simplify_eq/=; repeat split; try done; intros [? ?]; simplify_eq.
  - by destruct (redis_get _ _ _).
Qed.

Lemma wp_cache_write module b (w : World ToggleDB R) :
  wp (cache_write rdb module b) (fun _ w' => same_tables w w' /\
    (w_led w' = w_led w \/ w_led w' = redis_set (cacheKey module) (boolString b) cacheTTL (w_now w) (w_led w))) w.
Proof using All.
  unfold cache_write. destruct rdb; repeat wp_step; simplify_eq/=; repeat split; auto.
Qed.

Lemma wp_get_read module (w : World ToggleDB R) :
  wp (get_read rdb module) (fun x w' => same_tables w w' /\ w_led w' = w_led w /\
    match x with
    | inl r => forall e raw, fetch module (HttpReply e (status r) raw (Some (body r))) = true ->
        redis_get (w_led w) (w_now w) (cacheKey module) = Some "true"
    | inr (b, _) => exists t, w_db w !! module = Some t /\ tg_enabled t = b
    end) w.
Proof using All.
  unfold get_read. destruct (Modules !! module) as [domain|]; [|by repeat wp_step].
  apply wp_bind. eapply wp_mono; [|apply wp_cache_read]. intros v w1 ((Hd & Hn) & Hl & Hv).
  destruct v as [v|].
  - repeat wp_step. repeat split; [done..|]. intros e raw Hf%fetch_toggle. apply bool_decide_eq_true in Hf as ->.
    symmetry. by apply Hv.
  - repeat wp_step; [|done]. rewrite Hd.
    destruct (w_db w !! module) as [t|] eqn:Et; repeat wp_step; repeat split; try done. eauto.
Qed.

Lemma wp_put_write module req (w : World ToggleDB R) :
  wp (put_write module req) (fun x w' => w_now w' = w_now w /\ w_led w' = w_led w /\
    match x with
    | inl r => forall e raw, fetch module (HttpReply e (status r) raw (Some (body r))) = false
    | inr (b, _) => exists t, w_db w' !! module = Some t /\ tg_enabled t = b
    end) w.
Proof using Type.
  unfold put_write. destruct (Modules !! module) as [domain|]; [|by repeat wp_step].
  destruct req as [[b|]|]; [|by repeat wp_step..].
  repeat wp_step; try done. unfold set_enabled in *.
  destruct (w_db w !! module) as [t|] eqn:Et; simplify_eq/=; repeat wp_step; [|done].
  split_and!; [done..|]. simpl. rewrite lookup_insert_eq. eauto.
Qed.

Lemma wp_finish_write p (w : World ToggleDB R) :
  wp (finish_write p) (fun r w' => same_tables w w' /\
    (w_led w' = w_led w \/
     w_led w' = redis_set (cacheKey (pd_module p)) (boolString (pd_enabled p)) cacheTTL (w_now w) (w_led w)) /\
    forall e raw, fetch (pd_module p) (HttpReply e (status r) raw (Some (body r))) = true -> pd_enabled p = true) w.
Proof using All.
  unfold finish_write, put_refresh, get_fill.
  destruct (pd_put p); apply wp_bind; (eapply wp_mono; [|apply wp_cache_write]);
    intros _ w1 ((Hd & Hn) & Hl); repeat wp_step; (split_and!; [done|exact Hl|intros ? ?; apply fetch_toggle]).
Qed.

Lemma cacheKey_inj : Inj (=) (=) cacheKey.
Proof using Type. intros a b. unfold cacheKey. by intros ?%(inj (String.append "toggles:")). Qed.

(** *** The invariant *)

Lemma cache_inv_weaken tr s s' : cache_inv tr s -> cache_inv (s' :: tr) s.
Proof using Type.
  intros [Hr Hp Ha Hc]. split; intros.
  - eapply enabled_since_cons, Hr; eauto; lia.
  - split; [by apply Hp|]. intros. eapply enabled_since_cons, Hp; eauto; lia.
  - eapply enabled_since_cons, Ha; eauto; lia.
  - eapply enabled_since_cons, Hc; eauto; lia.
Qed.

Lemma enabled_since_here s tr module t row :
  w_db (sy_world s) !! module = Some row -> tg_enabled row = true -> t <= sy_now s -> enabled_since (s :: tr) module t.
Proof using Type. intros Hl He Ht. exists s. split_and!; [by left|done|]. by exists row. Qed.

(** Time passing, requests ending and entries dropped from the client cache. *)
Lemma cache_inv_less tr s s' :
  cache_inv tr s -> w_led (sy_world s') = w_led (sy_world s) -> sy_now s <= sy_now s' ->
  (forall p, p ∈ sy_pending s' -> p ∈ sy_pending s) -> sy_replies s' = sy_replies s ->
  (forall m c, sy_client s' !! m = Some c -> sy_client s !! m = Some c) -> cache_inv tr s'.
Proof using Type.
  intros [Hr Hp Ha Hc] El Hn Hps Hrs Hcs. split.
  - intros m t Ht. rewrite El. apply Hr. lia.
  - intros p Hin%Hps%Hp. destruct Hin. split; [lia|done].
  - intros m r t e raw. rewrite Hrs. apply Ha.
  - intros m c Hm%Hcs. by apply Hc.
Qed.

Lemma cache_inv_reply tr s module r t :
  cache_inv tr s ->
  (forall e raw, fetch module (HttpReply e (status r) raw (Some (body r))) = true ->
     enabled_since tr module (t - cacheTTL - L)) ->
  cache_inv tr (mkSys (sy_world s) (sy_pending s) ((module, r, t) :: sy_replies s) (sy_client s)).
Proof using Type.
  intros [Hr Hp Ha Hc] Hnew. split; [done..| |done].
  intros m r0 t0 e raw [[= -> -> ->]|Hin]%elem_of_cons Hf; [by eapply Hnew|by eapply Ha].
Qed.

Lemma cache_inv_pending tr s p :
  cache_inv tr s -> pd_since p <= sy_now s -> (pd_enabled p = true -> enabled_since tr (pd_module p) (pd_since p)) ->
  cache_inv tr (mkSys (sy_world s) (p :: sy_pending s) (sy_replies s) (sy_client s)).
Proof using Type.
  intros [Hr Hp Ha Hc] Ht Hnew. split; [done| |done..].
  intros q [->|Hin]%elem_of_cons; [|by apply Hp]. done.
Qed.

Lemma cache_inv_set tr s w module b :
  cache_inv tr s -> w_now w = sy_now s ->
  w_led w = redis_set (cacheKey module) (boolString b) cacheTTL (sy_now s) (w_led (sy_world s)) ->
  (b = true -> enabled_since tr module (sy_now s - L)) ->
  cache_inv tr (mkSys w (sy_pending s) (sy_replies s) (sy_client s)).
Proof using Type.
  intros [Hr Hp Ha Hc] Hn Hl Hb.
  assert (sy_now (mkSys w (sy_pending s) (sy_replies s) (sy_client s)) = sy_now s) as En by done.
  split; rewrite ?En; simpl; [|done..].
  intros m t Ht. rewrite Hl. destruct (decide (m = module)) as [->|Hne].
  - intros [Hv Hlt]%redis_get_set; [|done]. destruct b; [|done].
    eapply enabled_since_mono, Hb; [lia|done].
  - intros Hg%redis_get_set_ne; [by apply Hr|]. by intros ?%cacheKey_inj.
Qed.

Lemma received_enabled_since tr s module o t0 :
  cache_inv tr s -> received s module o -> fetch module o = true -> t0 <= sy_now s ->
  enabled_since tr module (t0 - fetchTimeout - cacheTTL - L).
Proof using Type.
  intros Hi Ho Hf Ht. destruct Ho as [e b msg|e code raw doc Hcode|e code raw|e raw r t Hin Hle]; simpl in Hf.
  - done.
  - by destruct (Z.eqb_spec code 200).
  - by destruct (_ =? _).
  - eapply enabled_since_mono, (ci_replies _ _ Hi module r t e raw Hin Hf). lia.
Qed.

Lemma step_cache_inv tr s s' : cache_inv tr s -> step s s' -> cache_inv (s' :: tr) s'.
Proof using Type.
  intros Hi Hst. apply (cache_inv_weaken _ _ s') in Hi. revert Hi. destruct Hst as [s dt Hdt|s l|s module|s module req|s l1 p l2 El Ht|s l1 p l2 El|s module o Ho|s module]; intros Hi.
  - eapply cache_inv_less; [exact Hi|done| |done..]. unfold sy_now. simpl. lia.
  - by eapply cache_inv_less.
  - pose proof (wp_get_read module (sy_world s)) as Hw. unfold wp in Hw.
    destruct (get_read rdb module (sy_world s)) as [[r|[b d]] w]; cbn [fst snd] in Hw; destruct Hw as ((Hd & Hn) & Hl & Hx).
    + apply (cache_inv_reply _ (mkSys w (sy_pending s) (sy_replies s) (sy_client s))).
      * eapply cache_inv_less; [exact Hi|done| |done..]. unfold sy_now. simpl. lia.
      * intros e raw Hf%Hx. by apply (ci_redis _ _ Hi).
    + apply (cache_inv_pending _ (mkSys w (sy_pending s) (sy_replies s) (sy_client s))); [|unfold sy_now; simpl; lia|].
      * eapply cache_inv_less; [exact Hi|done| |done..]. unfold sy_now. simpl. lia.
      * simpl. intros ->. destruct Hx as (t & Ht & He). eapply enabled_since_here; [|exact He|]; simpl; [by rewrite Hd|].
        unfold sy_now. simpl. lia.
  - pose proof (wp_put_write module req (sy_world s)) as Hw. unfold wp in Hw.
    destruct (put_write module req (sy_world s)) as [[r|[b d]] w]; cbn [fst snd] in Hw; destruct Hw as (Hn & Hl & Hx).
    + apply (cache_inv_reply _ (mkSys w (sy_pending s) (sy_replies s) (sy_client s))).
      * eapply cache_inv_less; [exact Hi|done| |done..]. unfold sy_now. simpl. lia.
      * intros e raw. by rewrite Hx.
    + apply (cache_inv_pending _ (mkSys w (sy_pending s) (sy_replies s) (sy_client s))); [|unfold sy_now; simpl; lia|].
      * eapply cache_inv_less; [exact Hi|done| |done..]. unfold sy_now. simpl. lia.
      * simpl. intros ->. destruct Hx as (t & Ht & He). eapply enabled_since_here; [exact Ht|exact He|].
        unfold sy_now. simpl. lia.
  - pose proof (wp_finish_write p (sy_world s)) as Hw. unfold wp in Hw.
    destruct (finish_write p (sy_world s)) as [r w]; cbn [fst snd] in *; destruct Hw as ((Hd & Hn) & Hl & Hx).
    destruct (ci_pending _ _ Hi p) as [Hle Hp]; [rewrite El, elem_of_app, elem_of_cons; auto|].
    set (s1 := mkSys w (sy_pending s) (sy_replies s) (sy_client s)).
    assert (cache_inv (mkSys w (l1 ++ l2) ((pd_module p, r, sy_now s) :: sy_replies s) (sy_client s) :: tr) s1) as H1.
    { destruct Hl as [Hl|Hl].
      - eapply cache_inv_less; [exact Hi|done| |done..]. unfold sy_now. simpl. lia.
      - eapply cache_inv_set; [exact Hi|done|exact Hl|]. intros E. eapply enabled_since_mono, Hp; [lia|done]. }
    apply (cache_inv_reply _ (mkSys w (l1 ++ l2) (sy_replies s) (sy_client s))).
    + eapply cache_inv_less; [exact H1|done..| |done|done]. simpl. intros q. rewrite El, !elem_of_app, elem_of_cons. tauto.
    + intros e raw E%Hx. eapply enabled_since_mono, Hp; [|done]. unfold sy_now, cacheTTL in *. simpl in *. lia.
  - eapply cache_inv_less; [exact Hi|done..| |done|done]. simpl. intros q. rewrite El, !elem_of_app, elem_of_cons. tauto.
  - destruct Hi as [Hr Hp Ha Hc]. split; [done..|]. simpl. unfold store. intros m c.
    destruct (decide (m = module)) as [->|Hne]; [|rewrite lookup_insert_ne by done; by apply Hc].
    rewrite lookup_insert_eq. intros [= <-]. simpl. intros Hf.
    assert (cache_inv (mkSys (sy_world s) (sy_pending s) (sy_replies s)
      (<[module:=mkEntry (fetch module o) (sy_now s + DefaultTTL)]> (sy_client s)) :: tr) s) as Hi by done.
    eapply enabled_since_mono, (received_enabled_since _ s module o (sy_now s)); [|done..]. lia.
  - eapply cache_inv_less; [exact Hi|done| |done|done|]; [done|]. simpl. unfold Invalidate.
    intros m c [_ ?]%lookup_delete_Some. done.
Qed.

Lemma execution_inv tr : execution tr -> match tr with s :: _ => cache_inv tr s | [] => True end.
Proof using Type.
  induction 1 as [s (Hp & Hr & Hc & Hg)|s s' tr _ IH Hst].
  - split.
    + intros m t _. by rewrite Hg.
    + intros p. rewrite Hp. by intros ?%not_elem_of_nil.
    + intros m r t e raw. rewrite Hr. by intros ?%not_elem_of_nil.
    + intros m c. by rewrite Hc.
  - by eapply step_cache_inv.
Qed.
End Machine.

(** ** Fault-free runs and seeding *)

Section Quiet.
Context {R : Type} `{Redis R} (rdb : bool).
Implicit Types w : World ToggleDB R.

Lemma wp_cache_write_done module b w : w_sched w = [] ->
  wp (cache_write rdb module b) (fun _ w' => w_sched w' = [] /\ same_tables w w' /\
    (rdb = true -> w_led w' = redis_set (cacheKey module) (boolString b) cacheTTL (w_now w) (w_led w))) w.
Proof using Type.
  intros Hs. unfold cache_write. destruct rdb; [|by apply wp_ret; repeat split].
  apply wp_bind, wp_gets, wp_bind. eapply wp_led_call_done; [done..|]. repeat wp_step. by repeat split.
Qed.

Lemma wp_Put_done module b w domain t :
  w_sched w = [] -> Modules !! module = Some domain -> w_db w !! module = Some t ->
  wp (Put rdb module (Some (Some b))) (fun r w' => r = mkResponse 200 (toggle_json module b domain) /\
    w_sched w' = [] /\ w_now w' = w_now w /\ (exists t', w_db w' !! module = Some t' /\ tg_enabled t' = b) /\
    (rdb = true -> w_led w' = redis_set (cacheKey module) (boolString b) cacheTTL (w_now w) (w_led w))) w.
Proof using Type.
  intros Hs Hm Ht. unfold Put, put_write. apply wp_bind. rewrite Hm. apply wp_bind, wp_gets, wp_bind.
  eapply wp_db_exec_done; [done|by unfold set_enabled; rewrite Ht|]. simpl. repeat wp_step. unfold put_refresh.
  apply wp_bind. eapply wp_mono; [|by apply wp_cache_write_done]. intros _ w1 (Hs1 & (Hd & Hn) & Hl).
  apply wp_bind, wp_publish_done; [done|]. repeat wp_step. split_and!; [done..| |done].
  simpl. rewrite Hd. simpl. rewrite lookup_insert_eq. eauto.
Qed.

Lemma wp_Get_done module b w domain t :
  w_sched w = [] -> Modules !! module = Some domain -> w_db w !! module = Some t -> tg_enabled t = b ->
  (rdb = true -> forall v, redis_get (w_led w) (w_now w) (cacheKey module) = Some v -> v = boolString b) ->
  wp (Get rdb module) (fun r _ => exists domain', r = mkResponse 200 (toggle_json module b domain')) w.
Proof using Type.
  intros Hs Hm Ht <- Hv. unfold Get, get_read, cache_read. apply wp_bind. rewrite Hm. apply wp_bind.
  assert (forall w', w_sched w' = [] -> w_db w' = w_db w -> wp (get_fill rdb module (tg_enabled t) (tg_domain t))
    (fun r _ => exists domain', r = mkResponse 200 (toggle_json module (tg_enabled t) domain')) w') as Hfill.
  { intros w' Hs' Hd'. unfold get_fill. apply wp_bind. eapply wp_mono; [|by apply wp_cache_write_done]. intros _ w1 _. repeat wp_step. eauto. }
  destruct rdb.
  - apply wp_bind, wp_gets, wp_bind. eapply wp_led_call_done; [done..|]. repeat wp_step.
    destruct (redis_get (w_led w) (w_now w) (cacheKey module)) as [v|] eqn:Eg.
    + repeat wp_step. rewrite (Hv eq_refl v eq_refl). exists domain. by destruct (tg_enabled t).
    + apply wp_bind, wp_db_query_done; [done|]. simpl. rewrite Ht. repeat wp_step. by apply Hfill.
  - apply wp_ret, wp_bind, wp_db_query_done; [done|]. simpl. rewrite Ht. repeat wp_step. by apply Hfill.
Qed.

(** What the seeding transaction holds after some of the modules. *)
Definition seeded (now : Z) (order : list (string * string)) (d : ToggleDB) : ToggleDB :=
  foldl (fun d p => seed_row p.1 p.2 now d) d order.

Lemma wp_seed_loop (tx : Tx ToggleDB) now order w :
  wp (seed_loop tx now order) (fun r w' => same_tables w w' /\
    match r with Ok tx' => forall d, tx' d = seeded now order (tx d) | Err _ => True end) w.
Proof using Type.
  revert tx w. induction order as [|[module domain] order IH]; intros tx w; simpl.
  - by repeat wp_step.
  - repeat wp_step; simplify_eq; [|done]. eapply wp_mono; [|apply IH]. intros [tx'|e] w1 (Hw & Htx); [|done].
    split; [done|]. intros d. by rewrite Htx.
Qed.

Lemma seeded_keeps now order d module t : d !! module = Some t -> seeded now order d !! module = Some t.
Proof using Type.
  revert d. induction order as [|[m dom] order IH]; intros d Hd; simpl; [done|]. apply IH. unfold seed_row.
  destruct (d !! m) eqn:Em; [done|]. rewrite lookup_insert_ne; congruence.
Qed.

Lemma seeded_adds now order d module domain :
  NoDup order.*1 -> (module, domain) ∈ order -> d !! module = None ->
  seeded now order d !! module = Some (mkToggle domain true now).
Proof using Type.
  revert d. induction order as [|[m dom] order IH]; intros d Hnd Hin Hd; [by apply not_elem_of_nil in Hin|].
  apply list.NoDup_cons in Hnd as [Hm Hnd]. simpl. apply elem_of_cons in Hin as [[= -> ->]|Hin].
  - apply seeded_keeps. unfold seed_row. simpl. by rewrite Hd, lookup_insert_eq.
  - apply IH; [done..|]. unfold seed_row. destruct (d !! m) eqn:Em; [done|]. rewrite lookup_insert_ne; [done|].
    intros ->. apply Hm. apply list_elem_of_fmap. by exists (module, domain).
Qed.
End Quiet.

(** ** Theorems *)

(** C31: over any interleaving of toggle reads, updates and cache writes, under
    any faults of PostgreSQL, Redis, Kafka and the network, a gate lets a
    request pass only when PostgreSQL had the module enabled at some moment of
    the last 38 seconds (30 of Redis, 3 of the client's timeout, 5 of the
    client's cache) plus the longest delay [L] between a database answer and
    the cache write that follows it. *)
Theorem gate_serves_only_enabled {R} `{Redis R} rdb L (s : sys R) tr module t0 o :
  execution rdb L (s :: tr) -> received s module o -> t0 <= sy_now s ->
  (Module_gate (sy_client s) module t0 (sy_now s) o).1 = None ->
  exists s', s' ∈ s :: tr /\ t0 - 38000 - L <= sy_now s' /\ enabled_in s' module.
Proof.
  intros He%execution_inv Ho Ht. simpl in He. unfold Module_gate, IsEnabled, cached.
  destruct (sy_client s !! module) as [c|] eqn:Ec; [destruct (Z.ltb_spec t0 (ce_expires c))|].
  - simpl. destruct (ce_enabled c) eqn:Een; [intros _|done].
    eapply enabled_since_mono, (ci_client _ _ _ He module c Ec Een).
    unfold DefaultTTL, fetchTimeout, cacheTTL. lia.
  - simpl. destruct (fetch module o) eqn:Ef; [intros _|done].
    eapply enabled_since_mono, received_enabled_since; [|done..]. unfold fetchTimeout, cacheTTL. lia.
  - simpl. destruct (fetch module o) eqn:Ef; [intros _|done].
    eapply enabled_since_mono, received_enabled_since; [|done..]. unfold fetchTimeout, cacheTTL. lia.
Qed.

(** An update reads back.  Without faults, with or without Redis, an
    update of a known module answers 200 and every later read of it, however
    much later, answers the value that was put. *)
Theorem toggle_put_get {R} `{Redis R} rdb (w : World ToggleDB R) module b dt :
  w_sched w = [] -> is_Some (Modules !! module) -> is_Some (w_db w !! module) -> 0 <= dt ->
  let '(answer, w1) := Put rdb module (Some (Some b)) w in
  status answer = 200 /\
  exists domain, (Get rdb module (with_now (w_now w + dt) w1)).1 = mkResponse 200 (toggle_json module b domain).
Proof.
  intros Hs [domain Hm] [t Ht] Hdt. pose proof (wp_Put_done rdb module b w domain t Hs Hm Ht) as Hp. unfold wp in Hp.
  destruct (Put rdb module _ w) as [answer w1]; simpl in Hp. destruct Hp as (-> & Hs1 & Hn & (t' & Ht' & Hb) & Hl).
  split; [done|]. apply (wp_Get_done rdb module b (with_now (w_now w + dt) w1) domain t'); [done..|].
  intros Hr v. simpl. rewrite (Hl Hr). intros [-> _]%redis_get_set; [done|lia].
Qed.

(** Seeding at start-up, in any order of the module map and under any
    fault, changes no row that exists; when it reports success every module
    has a row, a new one enabled. *)
Theorem seeding_keeps_choices {R} `{Redis R} (w : World ToggleDB R) order :
  order ≡ₚ map_to_list Modules ->
  let '(r, w1) := EnsureSchemaAndSeed order w in
  (forall module t, w_db w !! module = Some t -> w_db w1 !! module = Some t) /\
  (r = Ok tt -> forall module domain, Modules !! module = Some domain -> w_db w !! module = None ->
     exists t, w_db w1 !! module = Some t /\ tg_enabled t = true /\ tg_domain t = domain).
Proof.
  intros Hord. assert (NoDup order.*1) as Hnd by (rewrite Hord; apply NoDup_fst_map_to_list).
  enough (wp (EnsureSchemaAndSeed order) (fun r w1 =>
    (forall module t, w_db w !! module = Some t -> w_db w1 !! module = Some t) /\
    (r = Ok tt -> forall module domain, Modules !! module = Some domain -> w_db w !! module = None ->
     exists t, w_db w1 !! module = Some t /\ tg_enabled t = true /\ tg_domain t = domain)) w) as Hw.
  { unfold wp in Hw. by destruct (EnsureSchemaAndSeed order w). }
  unfold EnsureSchemaAndSeed. repeat wp_step; simplify_eq; try done.
  eapply wp_mono; [|apply wp_seed_loop]. intros [tx|e] w1 ((Hd & Hn) & Htx); repeat wp_step; simpl; rewrite ?Htx, ?Hd; simpl.
  - split; [intros; by apply seeded_keeps|]. intros _ module domain Hm Hnone. exists (mkToggle domain true (w_now w)).
    split; [|done]. apply seeded_adds; [done| |done]. rewrite Hord. by apply elem_of_map_to_list.
  - split; [intros; by apply seeded_keeps|done].
  - done.
  - done.
Qed.

(** ** Concrete runs *)

Definition toggle_world (enabled : bool) : World ToggleDB plain_store :=
  mkWorld {["telematics" := mkToggle "fleet" enabled 0]} ∅ [] 0 0 [] [] [].

Definition later {D S} (dt : Z) (w : World D S) : World D S := with_now (w_now w + dt) w.

(** The read of a request that missed the cache, before its cache write. *)
Definition race_read : World ToggleDB plain_store := (get_read true "telematics" (toggle_world true)).2.

(** The cache refresh of an update can be undone by a read that started
    before it.  A read misses the cache and sees the module enabled, an
    operator disables it and is answered 200, the read then fills the cache;
    29 seconds later, past the client's timeout and cache, the service still
    answers that the module is enabled, while the table says it is not. *)
Theorem stale_fill_outlives_update :
  (get_read true "telematics" (toggle_world true)).1 = inr (true, "fleet") /\
  let '(answer, w1) := Put true "telematics" (Some (Some false)) race_read in
  status answer = 200 /\
  let w2 := later 29000 (get_fill true "telematics" true "fleet" w1).2 in
  (Get true "telematics" w2).1 = mkResponse 200 (toggle_json "telematics" true "fleet") /\
  (tg_enabled <$> w_db w2 !! "telematics") = Some false.
Proof. vm_compute. repeat split. Qed.

Definition toggle_start : sys plain_store := mkSys (toggle_world true) [] [] ∅.

Definition after_read : sys plain_store := reached toggle_start false "telematics" (get_read true "telematics" (toggle_world true)).

Definition after_fill : sys plain_store :=
  mkSys (get_fill true "telematics" true "fleet" (toggle_world true)).2 []
    [("telematics", mkResponse 200 (toggle_json "telematics" true "fleet"), 0)] ∅.

Lemma toggle_start_starting : starting toggle_start.
Proof. repeat split. Qed.

Lemma after_read_step : step true 1000 toggle_start after_read.
Proof. exact (st_get true 1000 toggle_start "telematics"). Qed.

Lemma after_fill_step : step true 1000 after_read after_fill.
Proof.
  refine (st_write true 1000 after_read [] (mkPending false "telematics" true "fleet" 0) [] _ _); [by vm_compute|by vm_compute].
Qed.

Lemma gate_serves_only_enabled_witness :
  (Module_gate ∅ "telematics" 0 0 (HttpReply 0 200 "" (Some (toggle_json "telematics" true "fleet")))).1 = None /\
  exists s', s' ∈ [after_fill; after_read; toggle_start] /\ 0 - 38000 - 1000 <= sy_now s' /\ enabled_in s' "telematics".
Proof.
  split; [by vm_compute|].
  apply (gate_serves_only_enabled true 1000 after_fill [after_read; toggle_start] "telematics" 0
           (HttpReply 0 200 "" (Some (toggle_json "telematics" true "fleet")))).
  - eapply ex_step; [eapply ex_step; [apply ex_start, toggle_start_starting|apply after_read_step]|apply after_fill_step].
  - apply (rc_answer after_fill "telematics" 0 "" (mkResponse 200 (toggle_json "telematics" true "fleet")) 0); [by left|by vm_compute].
  - by vm_compute.
  - by vm_compute.
Defined.

Lemma toggle_put_get_witness :
  status (Put true "telematics" (Some (Some false)) (toggle_world true)).1 = 200 /\
  exists domain, (Get true "telematics" (later 40000 (Put true "telematics" (Some (Some false)) (toggle_world true)).2)).1 =
    mkResponse 200 (toggle_json "telematics" false domain).
Proof.
  pose proof (toggle_put_get true (toggle_world true) "telematics" false 40000 eq_refl) as Hp.
  destruct (Put true "telematics" (Some (Some false)) (toggle_world true)) as [a w1] eqn:E.
  assert (w_now w1 = 0) as E0 by (replace w1 with (a, w1).2 by done; rewrite <- E; by vm_compute).
  cbn [fst snd]. unfold later. rewrite E0.
  apply Hp; [by eexists|by eexists|lia].
Defined.

Lemma seeding_keeps_choices_witness :
  let '(r, w1) := EnsureSchemaAndSeed (map_to_list Modules) (toggle_world false) in
  (forall module t, w_db (toggle_world false) !! module = Some t -> w_db w1 !! module = Some t) /\
  (r = Ok tt -> forall module domain, Modules !! module = Some domain -> w_db (toggle_world false) !! module = None ->
     exists t, w_db w1 !! module = Some t /\ tg_enabled t = true /\ tg_domain t = domain).
Proof. apply (seeding_keeps_choices (toggle_world false) (map_to_list Modules)). reflexivity. Defined.
