(* ===== verification/Stations.v ===== *)
(** * Refuelling stations and their queues

    Models of services/go/infra-api/internal/handlers/stations.go and
    queue.go, over infra.stations (migrations 0001 and 0008) and
    infra.station_queue (migrations 0005 and 0007) with the primary keys, the
    CHECK on station_type, the foreign keys and the partial unique index on
    the active entries of a bus.  Inventory is numeric and exact; the code
    reads it as [float64]. *)

From stdpp Require Import gmap sets strings list.
From S2P Require Import Prelude Codec World Float64 CommerceDb InfraDb.

Open Scope Z_scope.
Open Scope go_scope.

(** ** Rows and tables *)

Record StationRow : Type := mkStation {
  st_id : string; st_name : string; st_capacity : option Qc; st_kg : option Qc; st_status : string;
  st_type : string; st_kwh : option Qc; st_chargers : option Z; st_point : option (float64 * float64) }.

Record QueueEntry : Type := mkQueueEntry {
  qe_id : string; qe_station : string; qe_bus : string; qe_joined : Z; qe_status : string; qe_completed : option Z }.

Record StationDB : Type := mkStationDB {
  st_rows : gmap string StationRow;
  st_queue : gmap string QueueEntry;
  st_vehicles : gset string
}.

Definition put_station (s : StationRow) (d : StationDB) : StationDB :=
  mkStationDB (<[st_id s := s]> (st_rows d)) (st_queue d) (st_vehicles d).
Definition put_entry (e : QueueEntry) (d : StationDB) : StationDB :=
  mkStationDB (st_rows d) (<[qe_id e := e]> (st_queue d)) (st_vehicles d).

Definition with_entry_status (e : QueueEntry) (st : string) (completed : option Z) : QueueEntry :=
  mkQueueEntry (qe_id e) (qe_station e) (qe_bus e) (qe_joined e) st completed.

Abbreviation station_stmt A := (StationDB -> result (A * (StationDB -> StationDB))).

(** What the server and the target machine do with [float64]: the casts
    between float8 and numeric, and Go's [int(f)], which the language fixes
    only where the truncated value fits. *)
Class StationEnv : Type := {
  float8_of_numeric : Qc -> result float64;
  numeric_of_float8 : float64 -> Qc;
  int_of_float : float64 -> Z;
  int_of_float_fits f z : trunc_int f = Some z -> int_of_float f = z
}.

Definition test_station_env : StationEnv := {|
  float8_of_numeric := fun q => Ok (nearest_float q);
  numeric_of_float8 := exact_value;
  int_of_float := fun f => default 0 (trunc_int f);
  int_of_float_fits f z E := f_equal (default 0) E
|}.

Definition fmul : float64 -> float64 -> float64 := SFmul 53 1024.

(** ** stations.go *)

Definition stationTypes (t : string) : bool := bool_decide (t ∈ ["h2"; "ev_charger"; "diesel"; "cng"; "mixed"]).

(** A scanned row, as it is rendered. *)
Definition jopt_float_field (k : string) (o : option float64) : list (string * json) :=
  match o with Some f => [(k, JFloat f)] | None => [] end.

Section Handlers.
Context `{Runtime} `{PgServer} `{PgNumeric} `{StationEnv}.

Abbreviation SM := (M StationDB unit).

Definition opt_scan (o : option Qc) : result (option float64) :=
  match o with None => Ok None | Some q => result_map Some (float_of_numeric q) end.

(** The columns of [stationCols] in the driver's types. *)
Record ScannedStation : Type := mkScanned {
  ss_row : StationRow; ss_capacity : float64; ss_kg : float64; ss_kwh : option float64 }.

Definition scanStation (s : StationRow) : result ScannedStation :=
  match float_of_numeric (default 0%Qc (st_capacity s)), float_of_numeric (default 0%Qc (st_kg s)), opt_scan (st_kwh s) with
  | Ok c, Ok k, Ok w => Ok (mkScanned s c k w)
  | Err e, _, _ | _, Err e, _ | _, _, Err e => Err e
  end.

Definition station_json (x : ScannedStation) : json :=
  let s := ss_row x in
  JObj ([("id", JStr (st_id s)); ("name", JStr (st_name s)); ("capacity_kg", JFloat (ss_capacity x));
         ("available_kg", JFloat (ss_kg x)); ("status", JStr (st_status s)); ("station_type", JStr (st_type s))] ++
        jopt_float_field "available_kwh" (ss_kwh x) ++
        match st_chargers s with Some n => [("charger_count", JInt n)] | None => [] end ++
        jopt_float_field "lat" (fst <$> st_point s) ++ jopt_float_field "lon" (snd <$> st_point s)).

Fixpoint scan_station_rows (l : list StationRow) : result (list json) :=
  match l with
  | [] => Ok []
  | s :: l =>
      match scanStation s with
      | Err e => Err e
      | Ok x => result_map (cons (station_json x)) (scan_station_rows l)
      end
  end.

Definition ListStations : SM response :=
  try! js := db_query (fun d => scan_station_rows (take 200 (order_text st_name (rows (st_rows d)))))
    catch e => infra_internal "list stations" e in
  reply 200 (JObj [("stations", JList js)]).

(** [WHERE id = $1] on the uuid key. *)
Definition station_row (id : string) (d : StationDB) : result StationRow :=
  match uuid_in id with
  | Err e => Err e
  | Ok id => match st_rows d !! id with Some s => Ok s | None => Err ErrNoRows end
  end.

Definition GetStation (id : string) : SM response :=
  let! r := db_query (fun d => match station_row id d with Ok s => scanStation s | Err e => Err e end) in
  match r with
  | Err ErrNoRows => reply_error 404 "station not found"
  | Err e => infra_internal "get station" e
  | Ok x => reply 200 (station_json x)
  end.

Record createStationRequest : Type := mkCreateStation {
  sr_name : string; sr_capacity : float64; sr_kg : float64; sr_status : string; sr_type : string;
  sr_kwh : option float64; sr_chargers : option Z; sr_lat : option float64; sr_lon : option float64 }.

Definition insert_station (s : StationRow) : station_stmt StationRow := fun d =>
  match st_rows d !! st_id s with
  | Some _ => Err (PgError unique_violation)
  | None => if stationTypes (st_type s) then
              if match st_chargers s with Some n => in_int4 n | None => true end
              then Ok (s, put_station s) else Err (ErrMsg "int4 parameter out of range")
            else Err (PgError check_violation)
  end.

(** A writing statement whose returned row is scanned: a scan error comes
    after the row has been written. *)
Definition exec_scan (f : station_stmt StationRow) : SM (result ScannedStation) :=
  try! s := db_exec f catch e => gret (Err e) in
  gret (scanStation s).

Definition CreateStation (req : option createStationRequest) : SM response :=
  match req with
  | None => reply_error 400 "invalid JSON body"
  | Some r =>
      if decide (sr_name r = "") then reply_error 400 "name is required"
      else
        let status := if decide (sr_status r = "") then "online" else sr_status r in
        let ty := if decide (sr_type r = "") then "h2" else sr_type r in
        if negb (stationTypes ty) then reply_error 400 "station_type must be one of h2|ev_charger|diesel|cng|mixed"
        else
          let! id := new_uuid in
          let point := match sr_lat r, sr_lon r with Some la, Some lo => Some (la, lo) | _, _ => None end in
          try! x := exec_scan (insert_station (mkStation id (sr_name r) (Some (numeric_of_float (sr_capacity r)))
                      (Some (numeric_of_float (sr_kg r))) status ty (numeric_of_float <$> sr_kwh r) (sr_chargers r) point))
            catch e => infra_internal "create station" e in
          reply 201 (station_json x)
  end.

(** [CASE WHEN $3::float8 IS NULL THEN column ELSE $3::float8 END]: both
    branches have type float8, so an unchanged column takes the round trip. *)
Definition case_float8 (column : option Qc) (arg : option float64) : result (option Qc) :=
  match arg, column with
  | Some f, _ => Ok (Some (numeric_of_float8 f))
  | None, None => Ok None
  | None, Some q => result_map (fun f => Some (numeric_of_float8 f)) (float8_of_numeric q)
  end.

Definition set_station (id st : string) (kg kwh : option float64) : station_stmt StationRow := fun d =>
  match station_row id d with
  | Err e => Err e
  | Ok s =>
      match case_float8 (st_kg s) kg, case_float8 (st_kwh s) kwh with
      | Ok kg, Ok kwh =>
          let s' := mkStation (st_id s) (st_name s) (st_capacity s) kg st (st_type s) kwh (st_chargers s) (st_point s) in
          Ok (s', put_station s')
      | Err e, _ | _, Err e => Err e
      end
  end.

Definition station_event (x : ScannedStation) : list (string * json) :=
  [("station_id", JStr (st_id (ss_row x))); ("status", JStr (st_status (ss_row x)));
   ("available_kg", JFloat (ss_kg x)); ("station_type", JStr (st_type (ss_row x)))] ++
  jopt_float_field "available_kwh" (ss_kwh x).

Definition UpdateStationStatus (id : string) (req : option (string * option float64 * option float64)) : SM response :=
  match req with
  | None => reply_error 400 ("body must include " +:+ quoted "status")
  | Some (st, kg, kwh) =>
      if decide (st = "") then reply_error 400 ("body must include " +:+ quoted "status")
      else
        let! r := exec_scan (set_station id st kg kwh) in
        match r with
        | Err ErrNoRows => reply_error 404 "station not found"
        | Err e => infra_internal "update station status" e
        | Ok x =>
            do! publish "station.status.changed" (station_event x) in
            reply 200 (station_json x)
        end
  end.

(** ** queue.go *)

(** [inventoryColumn]: the column the draw-down applies to, and the unit. *)
Inductive inventory_column : Type := Kg | Kwh.

Definition column_name (c : inventory_column) : string := match c with Kg => "available_kg" | Kwh => "available_kwh" end.

Definition inventoryColumn (stationType : string) : inventory_column * string :=
  if decide (stationType = "ev_charger") then (Kwh, "kwh")
  else if decide (stationType = "diesel") then (Kg, "liters")
  else (Kg, "kg").

Definition column_of (c : inventory_column) (s : StationRow) : option Qc := match c with Kg => st_kg s | Kwh => st_kwh s end.

Definition with_column (c : inventory_column) (q : option Qc) (s : StationRow) : StationRow :=
  match c with
  | Kg => mkStation (st_id s) (st_name s) (st_capacity s) q (st_status s) (st_type s) (st_kwh s) (st_chargers s) (st_point s)
  | Kwh => mkStation (st_id s) (st_name s) (st_capacity s) (st_kg s) (st_status s) (st_type s) q (st_chargers s) (st_point s)
  end.

(** [status IN ('waiting','serving')]. *)
Definition queued (st : string) : bool := bool_decide (st ∈ ["waiting"; "serving"]).

Definition queue_of (station : string) (d : StationDB) : list QueueEntry :=
  filter (fun e => queued (qe_status e) && bool_decide (qe_station e = station) = true) (rows (st_queue d)).

Definition completed_minutes (station : string) (e : QueueEntry) : option Qc :=
  if bool_decide (qe_station e = station) && bool_decide (qe_status e = "completed") then
    match qe_completed e with
    | Some t => Some (numeric_div (Q2Qc (Qmake (t - qe_joined e) 1000)) (Q2Qc (Qmake 60 1)))
    | None => None
    end
  else None.

(** [avg] of the numeric minutes, cast to float8; null without a row. *)
Definition service_history (station : string) (d : StationDB) : result (option float64) :=
  match uuid_in station with
  | Err e => Err e
  | Ok station =>
      match omap (completed_minutes station) (rows (st_queue d)) with
      | [] => Ok None
      | l => result_map Some (float8_of_numeric (numeric_div (foldr Qcplus 0%Qc l) (Q2Qc (Qmake (Z.of_nat (length l)) 1))))
      end
  end.

Definition avgServiceMinutes (station : string) : SM float64 :=
  let! r := db_query (service_history station) in
  gret (match r with
        | Ok (Some m) => if fle m fzero then float_of_Z 15 else m
        | _ => float_of_Z 15
        end).

(** [position] and [est_wait_minutes] are rendered with [omitempty]. *)
Definition jnonzero (k : string) (z : Z) : list (string * json) := if z =? 0 then [] else [(k, JInt z)].

Definition entry_fields (e : QueueEntry) : list (string * json) :=
  [("id", JStr (qe_id e)); ("station_id", JStr (qe_station e)); ("bus_id", JStr (qe_bus e));
   ("joined_at", JTime (qe_joined e)); ("status", JStr (qe_status e))].

Definition queued_json (e : QueueEntry) (position wait : Z) : json :=
  JObj (entry_fields e ++ jnonzero "position" position ++ jnonzero "est_wait_minutes" wait).

(** Primary key, the unique index station_queue_active_uq, the foreign keys. *)
Definition active_clash (e x : QueueEntry) : bool :=
  queued (qe_status e) && queued (qe_status x) &&
  bool_decide (qe_station x = qe_station e) && bool_decide (qe_bus x = qe_bus e).

Definition insert_queue_entry (e : QueueEntry) : station_stmt QueueEntry := fun d =>
  match st_queue d !! qe_id e, find_row (active_clash e) (st_queue d) with
  | None, None =>
      if bool_decide (is_Some (st_rows d !! qe_station e)) && bool_decide (qe_bus e ∈ st_vehicles d)
      then Ok (e, put_entry e) else Err (PgError foreign_key_violation)
  | _, _ => Err (PgError unique_violation)
  end.

(** The insert of the join's transaction, after [active] buses were counted. *)
Definition join_insert (tx : Tx StationDB) (station bus : string) (active : Z) : SM response :=
  let! id := new_uuid in
  let! now := gets w_now in
  let! ins := tx_exec tx (fun d =>
    match uuid_in station, uuid_in bus with
    | Ok station, Ok bus => insert_queue_entry (mkQueueEntry id station bus now (if active =? 0 then "serving" else "waiting") None) d
    | Err e, _ | _, Err e => Err e
    end) in
  match ins with
  | Err (PgError code) =>
      if decide (code = unique_violation) then reply_error 409 "bus already has an active queue entry at this station"
      else if decide (code = foreign_key_violation) then reply_error 422 "bus_id does not reference a known vehicle"
      else infra_internal "join station queue" (PgError code)
  | Err e => infra_internal "join station queue" e
  | Ok (e, tx) =>
      try! _ := commit tx catch e => infra_internal "commit queue join" e in
      if decide (qe_status e = "waiting") then
        let! minutes := avgServiceMinutes station in
        reply 201 (queued_json e (active + 1) (int_of_float (fmul (float_of_Z active) minutes)))
      else reply 201 (queued_json e 0 0)
  end.

Definition JoinStationQueue (station : string) (req : option string) : SM response :=
  match req with
  | None => reply_error 400 ("body must include " +:+ quoted "bus_id")
  | Some bus =>
      if decide (bus = "") then reply_error 400 ("body must include " +:+ quoted "bus_id")
      else
        try! tx := begin catch e => infra_internal "begin queue join" e in
        let! st := tx_query tx (fun d => result_map st_status (station_row station d)) in
        match st with
        | Err ErrNoRows => reply_error 404 "station not found"
        | Err e => infra_internal "load station for queue join" e
        | Ok st =>
            if negb (bool_decide (st = "online")) then reply_error 409 ("station is not online (status " +:+ st +:+ ")")
            else
              try! active := tx_query tx (fun d => result_map (fun s => Z.of_nat (length (queue_of s d))) (uuid_in station))
                catch e => infra_internal "count queue" e in
              join_insert tx station bus active
        end
  end.

(** Positions and waits of the waiting entries, in join order. *)
Fixpoint positions (minutes : float64) (position : Z) (l : list QueueEntry) : list json :=
  match l with
  | [] => []
  | e :: l =>
      if decide (qe_status e = "serving") then queued_json e 0 0 :: positions minutes position l
      else queued_json e (position + 1) (int_of_float (fmul (float_of_Z position) minutes)) :: positions minutes (position + 1) l
  end.

Definition ListStationQueue (station : string) : SM response :=
  try! es := db_query (fun d => result_map (fun s => order_asc qe_joined (queue_of s d)) (uuid_in station))
    catch e => infra_internal "list station queue" e in
  let! minutes := avgServiceMinutes station in
  reply 200 (JObj [("station_id", JStr station); ("queue", JList (positions minutes 0 es)); ("avg_service_minutes", JFloat minutes)]).

(** The entry the subselect of [advanceQueue] picks. *)
Definition longest_waiting (station : string) (d : StationDB) : option QueueEntry :=
  head (order_asc qe_joined (filter (fun e => bool_decide (qe_station e = station) && bool_decide (qe_status e = "waiting") = true)
                               (rows (st_queue d)))).

Definition promote (station : string) : station_stmt Z := fun d =>
  match uuid_in station with
  | Err e => Err e
  | Ok station =>
      match longest_waiting station d with
      | None => Ok (0, fun d => d)
      | Some e => Ok (1, put_entry (with_entry_status e "serving" (qe_completed e)))
      end
  end.

(** Errors are logged. *)
Definition advanceQueue (station : string) : SM unit :=
  do! db_exec (promote station) in gret tt.

(** [UPDATE station_queue SET ... WHERE id AND station_id AND p RETURNING]. *)
Definition update_entry (id station : string) (p : QueueEntry -> bool) (f : QueueEntry -> QueueEntry) : station_stmt QueueEntry := fun d =>
  match uuid_in id, uuid_in station with
  | Ok id, Ok station =>
      match st_queue d !! id with
      | Some e => if bool_decide (qe_station e = station) && p e then Ok (f e, put_entry (f e)) else Err ErrNoRows
      | None => Err ErrNoRows
      end
  | Err e, _ | _, Err e => Err e
  end.

(** The statement of the completion: the entry, the kilograms and the type of
    its station, scanned. *)
Definition complete_stmt (entry station : string) (now : Z) : station_stmt (QueueEntry * result (float64 * string)) := fun d =>
  match update_entry entry station (fun e => bool_decide (qe_status e = "serving"))
          (fun e => with_entry_status e "completed" (Some now)) d with
  | Err e => Err e
  | Ok (e, g) =>
      let seen := match st_rows d !! qe_station e with
                  | Some s => result_map (fun kg => (kg, st_type s)) (float_of_numeric (default 0%Qc (st_kg s)))
                  | None => Err (ErrMsg "cannot scan NULL into *float64")
                  end in
      Ok ((e, seen), g)
  end.

(** [UPDATE stations SET column = column - $2 ... RETURNING COALESCE(column, 0)]. *)
Definition draw_stmt (c : inventory_column) (station : string) (amount : float64) : station_stmt (result float64) := fun d =>
  match station_row station d with
  | Err e => Err e
  | Ok s =>
      let q := (fun q => q - numeric_of_float amount)%Qc <$> column_of c s in
      Ok (float_of_numeric (default 0%Qc q), put_station (with_column c q s))
  end.

Definition dispensed_fields (c : inventory_column) (unit : string) (amount after : float64) : list (string * json) :=
  match c with Kg => [("dispensed_kg", JFloat amount); ("available_after_kg", JFloat after)] | Kwh => [] end ++
  [("dispensed_amount", JFloat amount); ("dispensed_unit", JStr unit); ("available_after", JFloat after)].

(** The end of the completion: commit, promote the next bus, answer. *)
Definition complete_commit (tx : Tx StationDB) (station : string) (e : QueueEntry) (extra : list (string * json)) : SM response :=
  try! _ := commit tx catch e => infra_internal "commit queue complete" e in
  do! advanceQueue station in
  reply 200 (JObj (entry_fields e ++ extra)).

Definition insufficient_inventory (c : inventory_column) (unit : string) (available amount : float64) : response :=
  mkResponse 409 (JObj [
    ("error", JStr "insufficient_inventory");
    ("message", JStr ("dispensed amount exceeds the station's recorded " +:+ column_name c));
    ("available", JFloat available); ("available_field", JStr (column_name c)); ("dispensed", JFloat amount); ("unit", JStr unit)]).

(** The draw-down of a positive amount. *)
Definition draw_down (tx : Tx StationDB) (station : string) (e : QueueEntry) (kg : float64) (stationType : string) (amount : float64)
    : SM response :=
  let '(c, unit) := inventoryColumn stationType in
  let! available :=
    match c with
    | Kwh => tx_query tx (fun d => match station_row station d with
                                   | Ok s => float_of_numeric (default 0%Qc (st_kwh s)) | Err e => Err e end)
    | Kg => gret (Ok kg)
    end in
  match available with
  | Err e => infra_internal "load station kwh inventory" e
  | Ok available =>
      if flt (fadd available f1em9) amount then gret (insufficient_inventory c unit available amount)
      else
        let! drawn := tx_exec tx (draw_stmt c station amount) in
        match drawn with
        | Err e | Ok (Err e, _) => infra_internal "decrement station inventory" e
        | Ok (Ok after, tx) => complete_commit tx station e (dispensed_fields c unit amount after)
        end
  end.

Definition is_positive (amount : option float64) : option float64 :=
  match amount with Some a => if flt fzero a then Some a else None | None => None end.

(** The body is unreadable, or has [dispensed_kg] and [dispensed_amount]. *)
Definition CompleteStationQueueEntry (station entry : string) (req : option (option float64 * option float64)) : SM response :=
  match req with
  | None => reply_error 400 "invalid JSON body"
  | Some (kg, alias) =>
      let amount := match alias with Some _ => alias | None => kg end in
      if match amount with Some a => flt a fzero | None => false end
      then reply_error 400 "dispensed amount must not be negative"
      else
        try! tx := begin catch e => infra_internal "begin queue complete" e in
        let! now := gets w_now in
        let! r := tx_exec tx (complete_stmt entry station now) in
        match r with
        | Err ErrNoRows => reply_error 409 "queue entry not found or not in serving status"
        | Err e | Ok ((_, Err e), _) => infra_internal "complete queue entry" e
        | Ok ((e, Ok (available, stationType)), tx) =>
            match is_positive amount with
            | Some a => draw_down tx station e available stationType a
            | None => complete_commit tx station e []
            end
        end
  end.

Definition LeaveStationQueue (station entry : string) : SM response :=
  let! r := db_exec (update_entry entry station (fun e => queued (qe_status e)) (fun e => with_entry_status e "left" (qe_completed e))) in
  match r with
  | Err ErrNoRows => reply_error 409 "queue entry not found or already inactive"
  | Err e => infra_internal "leave station queue" e
  | Ok e =>
      do! advanceQueue station in
      reply 200 (JObj (entry_fields e))
  end.
End Handlers.
