(* ===== verification/StationTheorems.v ===== *)
(** * What holds of stations and their queues

    The queue of a station as a state machine: the life of an entry, the
    invariant of the tables, one draw-down per completion, the promotion of
    waiting buses, and where the promotion departs from its comment.  Each
    request is one transition, its transaction atomic, under any faults unless
    a theorem says otherwise. *)

From stdpp Require Import gmap sets strings list relations.
From S2P Require Import Prelude Codec World Float64 CommerceDb InfraDb Stations.

Open Scope Z_scope.
Open Scope go_scope.

(** ** The life of a queue entry *)

Inductive entry_step : QueueEntry -> QueueEntry -> Prop :=
| es_promoted e : qe_status e = "waiting" -> entry_step e (with_entry_status e "serving" (qe_completed e))
| es_completed e t : qe_status e = "serving" -> entry_step e (with_entry_status e "completed" (Some t))
| es_left e : queued (qe_status e) = true -> entry_step e (with_entry_status e "left" (qe_completed e)).

Definition entry_life : QueueEntry -> QueueEntry -> Prop := rtc entry_step.

(** A status of the schema, and a completion time exactly on completed entries. *)
Definition entry_ok (e : QueueEntry) : Prop :=
  qe_status e ∈ ["waiting"; "serving"; "completed"; "left"] /\ (qe_status e = "completed" <-> is_Some (qe_completed e)).

Record station_inv (d : StationDB) : Prop := mkStationInv {
  si_stations k s : st_rows d !! k = Some s -> st_id s = k /\ stationTypes (st_type s) = true;
  si_entries k e : st_queue d !! k = Some e -> qe_id e = k /\ entry_ok e /\ is_Some (st_rows d !! qe_station e) /\ qe_bus e ∈ st_vehicles d;
  si_single k1 k2 e1 e2 : st_queue d !! k1 = Some e1 -> st_queue d !! k2 = Some e2 -> active_clash e1 e2 = true -> k1 = k2
}.

(** From well-formed tables to well-formed tables, entries living on. *)
Definition evolves (d d' : StationDB) : Prop :=
  station_inv d -> station_inv d' /\
  forall k e, st_queue d !! k = Some e -> exists e', st_queue d' !! k = Some e' /\ entry_life e e'.

#[global] Instance evolves_preorder : PreOrder evolves.
Proof.
  split.
  - intros d Hd. split; [done|]. intros k e He. exists e. split; [done|]. apply rtc_refl.
  - intros d1 d2 d3 H12 H23 Hd. destruct (H12 Hd) as [Hd2 He2]. destruct (H23 Hd2) as [Hd3 He3].
    split; [done|]. intros k e (e2 & Hk & Hl)%He2. destruct (He3 k e2 Hk) as (e3 & Hk3 & Hl3).
    exists e3. split; [done|]. by etransitivity.
Qed.

(** The queue evolves, the stations do not change. *)
Definition queue_only (d d' : StationDB) : Prop := st_rows d' = st_rows d /\ evolves d d'.

#[global] Instance queue_only_preorder : PreOrder queue_only.
Proof.
  split.
  - intros d. split; [done|reflexivity].
  - intros d1 d2 d3 [E1 V1] [E2 V2]. split; [by rewrite E2|by etransitivity].
Qed.

(** The stations change, the queues do not. *)
Definition stations_only (d d' : StationDB) : Prop := st_queue d' = st_queue d /\ evolves d d'.

(** A changed station row keeps its key and type. *)
Lemma evolves_station k s s' d :
  st_rows d !! k = Some s -> st_id s' = st_id s -> st_type s' = st_type s -> evolves d (put_station s' d).
Proof.
  intros Hs Hid Hty Hd. destruct (si_stations _ Hd _ _ Hs) as [<- _]. split; [|intros k e He; exists e; split; [done|apply rtc_refl]].
  destruct Hd as [H1 H2 H3]. split; simpl.
  - intros k x. rewrite Hid. intros [[<- <-]|[Hne Hk]]%lookup_insert_Some; [|by apply H1].
    split; [done|]. rewrite Hty. by apply (H1 (st_id s)).
  - intros k e He. destruct (H2 k e He) as (? & ? & [x Hx] & ?). split_and!; [done..| |done].
    destruct (decide (qe_station e = st_id s')) as [->|Hne]; [rewrite lookup_insert_eq; eauto|].
    rewrite lookup_insert_ne by done. eauto.
  - exact H3.
Qed.

Lemma evolves_new_station s d :
  st_rows d !! st_id s = None -> stationTypes (st_type s) = true -> evolves d (put_station s d).
Proof.
  intros Hs Hty Hd. split; [|intros k e He; exists e; split; [done|apply rtc_refl]].
  destruct Hd as [H1 H2 H3]. split; simpl.
  - intros k x [[<- <-]|[Hne Hk]]%lookup_insert_Some; [done|by apply H1].
  - intros k e He. destruct (H2 k e He) as (? & ? & [x Hx] & ?). split_and!; [done..| |done].
    rewrite lookup_insert_ne by congruence. eauto.
  - exact H3.
Qed.

(** An entry takes a step of its life; promoted entries stay where they were active. *)
Lemma entry_step_same e e' : entry_step e e' ->
  qe_id e' = qe_id e /\ qe_station e' = qe_station e /\ qe_bus e' = qe_bus e /\ queued (qe_status e) = true.
Proof. destruct 1 as [e E|e t E|e E]; simpl; rewrite ?E; done. Qed.

Lemma entry_step_ok e e' : entry_ok e -> entry_step e e' -> entry_ok e'.
Proof.
  intros [Hs Hc]. destruct 1 as [e E|e t E|e E]; split; simpl; try (rewrite !elem_of_cons; tauto).
  - rewrite <- Hc, E. done.
  - split; [eauto|done].
  - rewrite <- Hc. split; [done|]. intros Eq. rewrite Eq in E. done.
Qed.

Lemma evolves_step k0 e e' d : st_queue d !! k0 = Some e -> entry_step e e' -> evolves d (put_entry e' d).
Proof.
  intros He Hst Hd. destruct (si_entries _ Hd _ _ He) as [<- _]. destruct (entry_step_same e e' Hst) as (Hi & Hs & Hb & Hq). split.
  - destruct Hd as [H1 H2 H3]. destruct (H2 _ _ He) as (_ & Hok & Hstn & Hbus). split; simpl; [exact H1|..].
    + intros k x. rewrite Hi. intros [[<- <-]|[Hne Hk]]%lookup_insert_Some; [|by apply H2].
      rewrite Hs, Hb. split_and!; [done| |done..]. by eapply entry_step_ok.
    + assert (forall k x, st_queue d !! k = Some x -> active_clash e' x = true -> k = qe_id e) as Hclash.
      { intros k x Hk Hcl. eapply (H3 k _ x e Hk He). unfold active_clash in *. rewrite Hs, Hb in Hcl.
        rewrite Hq. destruct (queued (qe_status x)); [|by rewrite andb_false_r in Hcl].
        apply andb_prop in Hcl as [[_ A]%andb_prop B]. simpl.
        apply bool_decide_eq_true in A, B. rewrite A, B. by rewrite !bool_decide_eq_true_2. }
      intros k1 k2 e1 e2. rewrite Hi.
      intros [[<- <-]|[Hn1 Hk1]]%lookup_insert_Some [[<- <-]|[Hn2 Hk2]]%lookup_insert_Some Hcl; [done|..].
      * symmetry. by eapply Hclash.
      * eapply Hclash; [done|]. revert Hcl. unfold active_clash. rewrite (andb_comm (queued (qe_status e'))).
        intros [[? A]%andb_prop B]%andb_prop. apply bool_decide_eq_true in A, B. rewrite A, B, H. by rewrite !bool_decide_eq_true_2.
      * by eapply (H3 _ _ e1 e2).
  - simpl. intros k x Hk. destruct (decide (k = qe_id e)) as [->|Hne].
    + exists e'. rewrite Hi, lookup_insert_eq. split; [done|]. simplify_eq. by apply rtc_once.
    + exists x. rewrite lookup_insert_ne by congruence. split; [done|apply rtc_refl].
Qed.

Lemma evolves_join e d :
  st_queue d !! qe_id e = None -> find_row (active_clash e) (st_queue d) = None ->
  is_Some (st_rows d !! qe_station e) -> qe_bus e ∈ st_vehicles d -> qe_status e ∈ ["waiting"; "serving"] -> qe_completed e = None ->
  evolves d (put_entry e d).
Proof.
  intros Hn Hf Hs Hb Hst Hc Hd. split.
  - destruct Hd as [H1 H2 H3]. split; simpl; [exact H1|..].
    + intros k x [[<- <-]|[Hne Hk]]%lookup_insert_Some; [|by apply H2]. split_and!; [done| |done..].
      rewrite !elem_of_cons, elem_of_nil in Hst. split; [rewrite !elem_of_cons; tauto|]. rewrite Hc.
      split; [|by intros [? ?]]. intros E. rewrite E in Hst. destruct Hst as [|[|]]; done.
    + rewrite find_row_None in Hf.
      intros k1 k2 e1 e2 [[<- <-]|[Hn1 Hk1]]%lookup_insert_Some [[<- <-]|[Hn2 Hk2]]%lookup_insert_Some Hcl; [done|..].
      * by rewrite (Hf _ _ Hk2) in Hcl.
      * pose proof (Hf _ _ Hk1) as Hcl'. revert Hcl Hcl'. unfold active_clash.
        rewrite (andb_comm (queued (qe_status e1))). intros [[-> A]%andb_prop B]%andb_prop.
        apply bool_decide_eq_true in A, B. rewrite A, B. by rewrite !bool_decide_eq_true_2.
      * by eapply (H3 _ _ e1 e2).
  - simpl. intros k x Hk. exists x. rewrite lookup_insert_ne by congruence. split; [done|apply rtc_refl].
Qed.

(** ** Every request, under any faults *)

Section Requests.
Context `{Runtime} `{PgServer} `{PgNumeric} `{StationEnv}.

Lemma station_row_Some id d s : station_row id d = Ok s -> exists k, uuid_in id = Ok k /\ st_rows d !! k = Some s.
Proof.
  unfold station_row. destruct (uuid_in id) as [k|]; [|done]. destruct (st_rows d !! k) as [x|] eqn:E; [|done].
  intros [= <-]. eauto.
Qed.

Lemma insert_station_only s d a g : insert_station s d = Ok (a, g) -> stations_only d (g d).
Proof.
  unfold insert_station. destruct (st_rows d !! st_id s) eqn:E; [done|].
  destruct (stationTypes (st_type s)) eqn:Et; [|done].
  destruct (match st_chargers s with Some n => in_int4 n | None => true end); [|done].
  intros [= _ <-]. split; [done|]. by apply evolves_new_station.
Qed.

Lemma set_station_only id st kg kwh d a g : set_station id st kg kwh d = Ok (a, g) -> stations_only d (g d).
Proof.
  unfold set_station. destruct (station_row id d) as [s|] eqn:Es; [|done].
  destruct (station_row_Some _ _ _ Es) as (k & _ & Hk).
  destruct (case_float8 (st_kg s) kg), (case_float8 (st_kwh s) kwh); intros [= _ <-]; (split; [done|]; by eapply evolves_station).
Qed.

Lemma draw_stmt_spec c id amount d a g : draw_stmt c id amount d = Ok (a, g) ->
  exists k s, uuid_in id = Ok k /\ st_rows d !! k = Some s /\
    g = put_station (with_column c ((fun q => q - numeric_of_float amount)%Qc <$> column_of c s) s).
Proof.
  unfold draw_stmt. destruct (station_row id d) as [s|] eqn:Es; [|done].
  destruct (station_row_Some _ _ _ Es) as (k & Hu & Hk). intros [= _ <-]. by exists k, s.
Qed.

Lemma insert_queue_entry_spec e d a g : insert_queue_entry e d = Ok (a, g) ->
  a = e /\ g = put_entry e /\ st_queue d !! qe_id e = None /\ find_row (active_clash e) (st_queue d) = None /\
  is_Some (st_rows d !! qe_station e) /\ qe_bus e ∈ st_vehicles d.
Proof.
  unfold insert_queue_entry. destruct (st_queue d !! qe_id e) eqn:E1, (find_row _ _) eqn:E2; try done.
  do 2 case_bool_decide; try done. intros [= <- <-]. done.
Qed.

Lemma update_entry_spec id station p f d a g : update_entry id station p f d = Ok (a, g) ->
  exists k e, uuid_in id = Ok k /\ uuid_in station = Ok (qe_station e) /\ st_queue d !! k = Some e /\ p e = true /\
    a = f e /\ g = put_entry (f e).
Proof.
  unfold update_entry. destruct (uuid_in id) as [k|], (uuid_in station) as [st|]; try done.
  destruct (st_queue d !! k) as [e|] eqn:E; [|done]. case_bool_decide as Es; simpl; [|done].
  destruct (p e) eqn:Ep; [|done]. intros [= <- <-]. exists k, e. by rewrite Es.
Qed.

Lemma longest_waiting_spec station d e : longest_waiting station d = Some e ->
  (exists k, st_queue d !! k = Some e) /\ qe_station e = station /\ qe_status e = "waiting".
Proof.
  unfold longest_waiting. intros Hh. destruct (order_asc _ _) as [|x l] eqn:E; simplify_eq/=.
  assert (e ∈ order_asc qe_joined (filter (fun e => bool_decide (qe_station e = station) && bool_decide (qe_status e = "waiting") = true)
    (rows (st_queue d)))) as Hin by (rewrite E; left).
  rewrite order_asc_perm in Hin. apply list_elem_of_filter in Hin as [[Hs Hw]%andb_prop Hr%elem_of_rows].
  apply bool_decide_eq_true in Hs, Hw. done.
Qed.

Lemma promote_spec station d a g : promote station d = Ok (a, g) ->
  (a = 0 /\ forall d', g d' = d') \/
  (a = 1 /\ exists k e, uuid_in station = Ok (qe_station e) /\ st_queue d !! k = Some e /\ longest_waiting (qe_station e) d = Some e /\
     qe_status e = "waiting" /\ g = put_entry (with_entry_status e "serving" (qe_completed e))).
Proof.
  unfold promote. destruct (uuid_in station) as [st|]; [|done].
  destruct (longest_waiting st d) as [e|] eqn:E; intros [= <- <-]; [right|by left].
  destruct (longest_waiting_spec st d e E) as ((k & Hk) & Hs & Hw). split; [done|]. exists k, e. by rewrite Hs.
Qed.

Lemma promote_evolves station d a g : promote station d = Ok (a, g) -> evolves d (g d).
Proof.
  intros [[_ Hg]|(_ & k & e & _ & Hk & _ & Hw & ->)]%promote_spec; [by rewrite Hg|].
  eapply evolves_step; [done|]. by constructor.
Qed.

Lemma wp_advance (R : StationDB -> StationDB -> Prop) `{!PreOrder R} d0 station (w : World StationDB unit) :
  (forall d a g, promote station d = Ok (a, g) -> R d (g d)) -> R d0 (w_db w) ->
  wp (advanceQueue station) (fun _ w' => R d0 (w_db w')) w.
Proof.
  intros HR Hd0. unfold advanceQueue. repeat wp_step; simpl; try done; (etransitivity; [exact Hd0|by eapply HR]).
Qed.

Lemma wp_avg station (w : World StationDB unit) : wp (avgServiceMinutes station) (fun _ w' => w_db w' = w_db w) w.
Proof. unfold avgServiceMinutes. by repeat wp_step. Qed.

(** What a completion commits: the serving entry is completed and, for a
    positive amount, the column of its station goes down by that amount,
    which the recorded inventory covered. *)
Definition drawn_row (a : float64) (s : StationRow) : StationRow :=
  let c := (inventoryColumn (st_type s)).1 in with_column c ((fun q => q - numeric_of_float a)%Qc <$> column_of c s) s.

Definition completes (station entry : string) (amount : option float64) (d d' : StationDB) : Prop :=
  exists k e t, uuid_in entry = Ok k /\ uuid_in station = Ok (qe_station e) /\ st_queue d !! k = Some e /\ qe_status e = "serving" /\
    match amount with
    | None => d' = put_entry (with_entry_status e "completed" (Some t)) d
    | Some a => exists s available, st_rows d !! qe_station e = Some s /\
        float_of_numeric (default 0%Qc (column_of (inventoryColumn (st_type s)).1 s)) = Ok available /\
        flt (fadd available f1em9) a = false /\
        d' = put_station (drawn_row a s) (put_entry (with_entry_status e "completed" (Some t)) d)
    end.

(** The amount a request asks to draw. *)
Definition asked (req : option (option float64 * option float64)) : option float64 :=
  match req with
  | None => None
  | Some (kg, alias) => is_positive (match alias with Some _ => alias | None => kg end)
  end.

Definition promoted (station : string) (d d' : StationDB) : Prop :=
  d' = d \/ exists a g, promote station d = Ok (a, g) /\ d' = g d.

Lemma complete_stmt_spec entry station now d e seen g : complete_stmt entry station now d = Ok ((e, seen), g) ->
  exists k e0, uuid_in entry = Ok k /\ uuid_in station = Ok (qe_station e0) /\ st_queue d !! k = Some e0 /\ qe_status e0 = "serving" /\
    e = with_entry_status e0 "completed" (Some now) /\ g = put_entry e /\
    forall kg ty, seen = Ok (kg, ty) -> exists s, st_rows d !! qe_station e0 = Some s /\ st_type s = ty /\
      float_of_numeric (default 0%Qc (st_kg s)) = Ok kg.
Proof.
  unfold complete_stmt. destruct (update_entry _ _ _ _ d) as [[e1 g1]|] eqn:Eu; [|done].
  apply update_entry_spec in Eu as (k & e0 & Hk & Hs & He & Hp & -> & ->). apply bool_decide_eq_true in Hp.
  intros [= <- <- <-]. exists k, e0. split_and!; [done..|]. intros kg ty. simpl.
  destruct (st_rows d !! qe_station e0) as [s|]; [|done].
  destruct (float_of_numeric _) as [f|] eqn:Ef; simpl; [|done]. intros [= <- <-]. by exists s.
Qed.

Lemma wp_complete_commit tx station e extra (w : World StationDB unit) :
  wp (complete_commit tx station e extra) (fun _ w' => w_db w' = w_db w \/ promoted station (tx (w_db w)) (w_db w')) w.
Proof.
  unfold complete_commit, advanceQueue. repeat infra_step; simpl; unfold promoted; eauto 6.
Qed.

(** The rest of the draw-down once the available amount is known. *)
Lemma wp_draw_down tx station e s kg a (w : World StationDB unit) :
  uuid_in station = Ok (qe_station e) -> st_rows (tx (w_db w)) !! qe_station e = Some s ->
  float_of_numeric (default 0%Qc (st_kg s)) = Ok kg ->
  wp (draw_down tx station e kg (st_type s) a) (fun _ w' => w_db w' = w_db w \/
    exists available, float_of_numeric (default 0%Qc (column_of (inventoryColumn (st_type s)).1 s)) = Ok available /\
      flt (fadd available f1em9) a = false /\ promoted station (put_station (drawn_row a s) (tx (w_db w))) (w_db w')) w.
Proof.
  intros Hu Hs Hkg. unfold draw_down, drawn_row. destruct (inventoryColumn (st_type s)) as [c unit] eqn:Ec. simpl.
  assert (station_row station (tx (w_db w)) = Ok s) as Hrow by (unfold station_row; by rewrite Hu, Hs).
  assert (forall available (w1 : World StationDB ()), w_db w1 = w_db w ->
    float_of_numeric (default 0%Qc (column_of c s)) = Ok available ->
    wp (if flt (fadd available f1em9) a then gret (insufficient_inventory c unit available a)
        else let! drawn := tx_exec tx (draw_stmt c station a) in
             match drawn with
             | Err e | Ok (Err e, _) => infra_internal "decrement station inventory" e
             | Ok (Ok after, tx) => complete_commit tx station e (dispensed_fields c unit a after)
             end) (fun _ w' => w_db w' = w_db w \/
      exists available, float_of_numeric (default 0%Qc (column_of c s)) = Ok available /\ flt (fadd available f1em9) a = false /\
        promoted station (put_station (with_column c ((fun q => q - numeric_of_float a)%Qc <$> column_of c s) s) (tx (w_db w)))
          (w_db w')) w1) as Hrest.
  { intros available w1 Hw1 Hav. destruct (flt _ a) eqn:Ef; [infra_step; by left|].
    repeat infra_step; try (by left). rewrite Hw1 in *. unfold draw_stmt in *. rewrite Hrow in *. simplify_eq.
    destruct (float_of_numeric (default 0%Qc (_ <$> _))) as [after|]; [|infra_step; by left].
    eapply wp_mono; [|apply wp_complete_commit]. simpl. rewrite Hw1. intros _ w' [?|?]; [by left|right]. by exists available. }
  destruct c; simpl in *.
  - apply wp_bind, wp_ret. by apply Hrest.
  - apply wp_bind. infra_step; [|cbn beta iota; infra_step; by left]. cbn beta. rewrite Hrow. cbn beta iota.
    destruct (float_of_numeric (default 0%Qc (st_kwh s))) as [av|]; [by apply Hrest|cbn beta iota; infra_step; by left].
Qed.

Lemma wp_complete station entry req (w : World StationDB unit) :
  wp (CompleteStationQueueEntry station entry req) (fun _ w' => w_db w' = w_db w \/
    exists mid, completes station entry (asked req) (w_db w) mid /\ promoted station mid (w_db w')) w.
Proof.
  unfold CompleteStationQueueEntry, asked. destruct req as [[kg alias]|]; [|by repeat infra_step; left].
  set (amount := match alias with Some _ => alias | None => kg end).
  destruct (match amount with Some a => flt a fzero | None => false end); [by repeat infra_step; left|].
  repeat infra_step; simplify_eq/=; try (by left).
  - destruct a as [e seen]. match goal with Hc : complete_stmt _ _ _ _ = _ |- _ => apply complete_stmt_spec in Hc as (k & e0 & Hk & Hs & He & Hst & -> & -> & Hseen) end.
    destruct seen as [[avail ty]|]; [|repeat infra_step; by left].
    destruct (Hseen avail ty eq_refl) as (st & Hrow & <- & Hav).
    destruct (is_positive amount) as [a|] eqn:Ea.
    + eapply wp_mono; [|eapply (wp_draw_down _ station _ st avail a); [exact Hs|exact Hrow|exact Hav]].
      simpl. intros _ w' [?|(available & Hcol & Hf & Hp)]; [by left|right]. eexists. split; [|exact Hp].
      exists k, e0, (w_now w). split_and!; [done..|]. by exists st, available.
    + eapply wp_mono; [|apply wp_complete_commit]. simpl. intros _ w' [?|?]; [by left|right].
      eexists. split; [|done]. by exists k, e0, (w_now w).
  - destruct e; repeat infra_step; by left.
Qed.

(** ** The machine of requests *)

Inductive station_op : Type :=
| OpCreateStation (r : option createStationRequest)
| OpStationStatus (id : string) (r : option (string * option float64 * option float64))
| OpJoin (station : string) (bus : option string)
| OpComplete (station entry : string) (r : option (option float64 * option float64))
| OpLeave (station entry : string)
| OpListQueue (station : string).

Definition run_station_op (o : station_op) : M StationDB unit response :=
  match o with
  | OpCreateStation r => CreateStation r
  | OpStationStatus id r => UpdateStationStatus id r
  | OpJoin s b => JoinStationQueue s b
  | OpComplete s e r => CompleteStationQueueEntry s e r
  | OpLeave s e => LeaveStationQueue s e
  | OpListQueue s => ListStationQueue s
  end.

(** Requests one after the other; time may pass and faults be scheduled before each. *)
Fixpoint run_station_ops (l : list (Z * list outcome * station_op)) (w : World StationDB unit) : World StationDB unit :=
  match l with
  | [] => w
  | (t, faults, o) :: l => run_station_ops l (run_station_op o (with_sched faults (with_now t w))).2
  end.

Lemma wp_exec_scan (f : station_stmt StationRow) (Q : result ScannedStation -> World StationDB unit -> Prop) w :
  (forall s a g, f (w_db w) = Ok (a, g) -> Q (scanStation a) (with_db (g (w_db w)) (with_sched s w))) ->
  (forall s a g, f (w_db w) = Ok (a, g) -> Q (Err (ErrIO "db")) (with_db (g (w_db w)) (with_sched s w))) ->
  (forall s e, Q (Err e) (with_sched s w)) -> wp (exec_scan f) Q w.
Proof. intros H1' H2' H3'. unfold exec_scan. repeat infra_step; eauto. Qed.

Lemma wp_create_station r (w : World StationDB unit) :
  wp (CreateStation r) (fun _ w' => stations_only (w_db w) (w_db w')) w.
Proof.
  unfold CreateStation. destruct r as [r|]; [|by infra_step].
  destruct (decide _); [by infra_step|]. destruct (negb _); [by infra_step|].
  repeat infra_step. apply wp_exec_scan; intros; cbn beta.
  - destruct (scanStation _); repeat infra_step; by eapply insert_station_only.
  - repeat infra_step. by eapply insert_station_only.
  - by repeat infra_step.
Qed.

Lemma wp_update_station id r (w : World StationDB unit) :
  wp (UpdateStationStatus id r) (fun _ w' => stations_only (w_db w) (w_db w')) w.
Proof.
  unfold UpdateStationStatus. destruct r as [[[st kg] kwh]|]; [|by infra_step].
  destruct (decide _); [by infra_step|].
  infra_step. apply wp_exec_scan; intros; cbn beta.
  - destruct (scanStation _) as [x|[]]; repeat infra_step; by eapply set_station_only.
  - repeat infra_step. by eapply set_station_only.
  - destruct e; by repeat infra_step.
Qed.

(** A join adds at most one entry, to a station that is online. *)
Lemma wp_join station bus (w : World StationDB unit) :
  wp (JoinStationQueue station bus) (fun r w' => (w_db w' = w_db w /\ status r <> 201) \/
    exists k s e, uuid_in station = Ok k /\ st_rows (w_db w) !! k = Some s /\ st_status s = "online" /\ qe_station e = k /\
      insert_queue_entry e (w_db w) = Ok (e, put_entry e) /\ qe_completed e = None /\
      qe_status e = (if Z.of_nat (length (queue_of k (w_db w))) =? 0 then "serving" else "waiting") /\
      w_db w' = put_entry e (w_db w)) w.
Proof.
  unfold JoinStationQueue. destruct bus as [bus|]; [|infra_step; by left].
  destruct (decide _); [infra_step; by left|].
  repeat infra_step; try (by left).
  unfold station_row. simpl. destruct (uuid_in station) as [k|e] eqn:Eu; [|destruct e; repeat infra_step; by left].
  destruct (st_rows (w_db w) !! k) as [row|] eqn:Es; [|repeat infra_step; by left]. simpl.
  case_bool_decide as Hon; simpl; [|repeat infra_step; by left].
  infra_step. infra_step; cbn beta; [|infra_step; by left]. simpl.
  unfold join_insert. infra_step. infra_step. infra_step. infra_step. infra_step.
  infra_step; cbn beta iota; [|destruct e as [|code| | |]; repeat infra_step; repeat (case_decide; repeat infra_step); by left|infra_step; by left].
  simpl in *. rewrite Eu in *. destruct (uuid_in bus) as [b|]; [|done].
  match goal with Hi : insert_queue_entry ?e _ = Ok _ |- _ => pose proof Hi as Hins; apply insert_queue_entry_spec in Hi as (-> & -> & _) end.
  infra_step. infra_step; cbn beta iota; [|infra_step; right|infra_step; by left].
  - destruct (decide _); repeat infra_step.
    + eapply wp_mono; [|apply wp_avg]. simpl. intros ? ? Heq. infra_step. rewrite Heq. right.
      match type of Hins with insert_queue_entry ?x _ = _ => by exists k, row, x end.
    + right. match type of Hins with insert_queue_entry ?x _ = _ => by exists k, row, x end.
  - match type of Hins with insert_queue_entry ?x _ = _ => by exists k, row, x end.
Qed.

Lemma queue_status_in (b : bool) : (if b then "serving" else "waiting") ∈ ["waiting"; "serving"].
Proof. rewrite !elem_of_cons. destruct b; tauto. Qed.

Lemma promote_queue_only station d a g : promote station d = Ok (a, g) -> queue_only d (g d).
Proof.
  intros Hp. split; [|by eapply promote_evolves].
  apply promote_spec in Hp as [[_ Hg]|(_ & k & e & _ & _ & _ & _ & ->)]; [by rewrite Hg|done].
Qed.

Lemma wp_leave station entry (w : World StationDB unit) :
  wp (LeaveStationQueue station entry) (fun _ w' => queue_only (w_db w) (w_db w')) w.
Proof.
  unfold LeaveStationQueue.
  assert (forall d a g, update_entry entry station (fun e => queued (qe_status e)) (fun e => with_entry_status e "left" (qe_completed e)) d = Ok (a, g) ->
    queue_only d (g d)) as Hup.
  { intros d a g (k & e & _ & _ & He & Hq & _ & ->)%update_entry_spec. split; [done|].
    eapply evolves_step; [done|]. by constructor. }
  repeat infra_step; cbn beta iota.
  - eapply wp_mono; [|apply (wp_advance queue_only (w_db w)); [apply promote_queue_only|by eapply Hup]].
    intros ? w' Hw. by infra_step.
  - by eapply Hup.
  - destruct e; by infra_step.
  - done.
Qed.

Lemma completes_evolves station entry amount d d' : completes station entry amount d d' -> evolves d d'.
Proof.
  intros (k & e & t & _ & _ & He & Hst & Hd). destruct amount as [a|].
  - destruct Hd as (s & av & Hs & _ & _ & ->).
    etransitivity; [eapply (evolves_step k e); [done|by apply (es_completed e t)]|].
    eapply (evolves_station (qe_station e) s); [done|..]; unfold drawn_row; by destruct (inventoryColumn (st_type s)).1.
  - subst d'. eapply evolves_step; [done|]. by constructor.
Qed.

Lemma promoted_queue_only station d d' : promoted station d d' -> queue_only d d'.
Proof. intros [->|(a & g & Hp & ->)]; [reflexivity|by eapply promote_queue_only]. Qed.

Lemma wp_op_evolves o (w : World StationDB unit) : wp (run_station_op o) (fun _ w' => evolves (w_db w) (w_db w')) w.
Proof.
  destruct o as [r|id r|st b|st e r|st e|st]; simpl.
  - eapply wp_mono; [|apply wp_create_station]. by intros ? ? [_ ?].
  - eapply wp_mono; [|apply wp_update_station]. by intros ? ? [_ ?].
  - eapply wp_mono; [|apply wp_join]. intros r w' [[-> _]|(k & s & e & _ & Hs & _ & <- & Hi & Hc & Hst & ->)]; [reflexivity|].
    apply insert_queue_entry_spec in Hi as (_ & _ & Hn & Hf & Hex & Hbus).
    apply evolves_join; try done. rewrite Hst. apply queue_status_in.
  - eapply wp_mono; [|apply wp_complete]. intros _ w' [->|(mid & Hc & Hp)]; [reflexivity|].
    etransitivity; [by eapply completes_evolves|by eapply promoted_queue_only].
  - eapply wp_mono; [|apply wp_leave]. by intros _ w' [_ ?].
  - unfold ListStationQueue. infra_step. infra_step; [|by repeat infra_step].
    destruct (result_map _ _); repeat infra_step; [|done].
    eapply wp_mono; [|apply wp_avg]. intros ? w' Hw. infra_step. rewrite Hw. done.
Qed.

Lemma run_evolves l (w : World StationDB unit) : evolves (w_db w) (w_db (run_station_ops l w)).
Proof.
  revert w. induction l as [|[[t fs] o] l IH]; intros w; simpl; [reflexivity|].
  etransitivity; [|apply IH]. apply (wp_op_evolves o (with_sched fs (with_now t w))).
Qed.

(** Over any sequence of station and queue requests under any faults, the
    tables stay well formed (known station types, entries with a status of the
    schema and a completion time exactly when completed, references that
    exist, one active entry per bus and station), and every queue entry lives
    on along waiting, serving, completed or left, its bus and station unchanged. *)
Theorem queue_entries_live_on l (w : World StationDB unit) :
  station_inv (w_db w) ->
  station_inv (w_db (run_station_ops l w)) /\
  forall k e, st_queue (w_db w) !! k = Some e ->
    exists e', st_queue (w_db (run_station_ops l w)) !! k = Some e' /\ entry_life e e' /\ qe_bus e' = qe_bus e /\ qe_station e' = qe_station e.
Proof.
  intros Hinv. destruct (run_evolves l w Hinv) as [Hinv' Hlife]. split; [done|]. intros k e (e' & Hk & Hl)%Hlife.
  exists e'. split_and!; [done..| |]; clear Hk; induction Hl as [|x y z Hst Hl IH]; try done;
    destruct (entry_step_same _ _ Hst) as (_ & Hs & Hb & _); congruence.
Qed.

(** A completed entry is completed for good. *)
Lemma entry_life_completed e e' : entry_life e e' -> qe_status e = "completed" -> e' = e.
Proof. destruct 1 as [|x y z Hst _]; [done|]. intros Hc. destruct Hst as [? E|? ? E|? E]; rewrite Hc in E; done. Qed.

(** The requests of the once-only theorem: completions of one entry, and the
    requests that do not write stations. *)
Definition only_entry (entry : string) (o : station_op) : Prop :=
  match o with
  | OpComplete _ e _ => e = entry
  | OpCreateStation _ | OpStationStatus _ _ => False
  | _ => True
  end.

Lemma wp_op_rows entry o (w : World StationDB unit) : only_entry entry o ->
  wp (run_station_op o) (fun _ w' => st_rows (w_db w') = st_rows (w_db w) \/
    exists station r a mid, o = OpComplete station entry r /\ asked r = Some a /\
      completes station entry (Some a) (w_db w) mid /\ promoted station mid (w_db w')) w.
Proof.
  destruct o as [r|id r|st b|st e r|st e|st]; simpl; intros Ho; try done.
  - eapply wp_mono; [|apply wp_join]. intros r w' [[-> _]|(k & s & e & _ & _ & _ & _ & _ & _ & _ & ->)]; by left.
  - subst e. eapply wp_mono; [|apply wp_complete]. intros _ w' [->|(mid & Hc & Hp)]; [by left|].
    destruct (asked r) as [a|] eqn:Ea; [right; by exists st, r, a, mid|left].
    destruct (promoted_queue_only _ _ _ Hp) as [-> _]. by destruct Hc as (k & e & t & _ & _ & _ & _ & ->).
  - eapply wp_mono; [|apply wp_leave]. intros _ w' [Hr _]. by left.
  - unfold ListStationQueue. infra_step. infra_step; [|repeat infra_step; by left].
    destruct (result_map _ _); repeat infra_step; [|by left].
    eapply wp_mono; [|apply wp_avg]. intros ? w' Hw. infra_step. left. by rewrite Hw.
Qed.

(** Once the entry is completed, nothing of these requests writes a station. *)
Lemma completed_draws_nothing l (w : World StationDB unit) entry k0 e :
  station_inv (w_db w) -> uuid_in entry = Ok k0 -> Forall (fun x => only_entry entry x.2) l ->
  st_queue (w_db w) !! k0 = Some e -> qe_status e = "completed" -> st_rows (w_db (run_station_ops l w)) = st_rows (w_db w).
Proof.
  intros Hinv Hu Hl. revert w Hinv. induction Hl as [|[[t fs] o] l Ho _ IH]; intros w Hinv He Hst; simpl; [done|].
  set (w0 := with_sched fs (with_now t w)). simpl in Ho.
  destruct (wp_op_evolves o w0 Hinv) as [Hinv1 Hlife]. destruct (Hlife k0 e He) as (e1 & He1 & Hl1).
  apply entry_life_completed in Hl1 as ->; [|done].
  destruct (wp_op_rows entry o w0 Ho) as [Hr|(st & r & a & mid & _ & _ & (k & e2 & t2 & Hk & _ & He2 & Hs2 & _) & _)].
  - rewrite IH; done.
  - exfalso. simpl in He2. assert (k = k0) as -> by congruence. assert (e2 = e) as -> by congruence. congruence.
Qed.

(** An entry draws inventory once.  Over any sequence of joins, leaves and
    listings, and of completions of one entry with any amounts, under any
    faults (an acknowledged draw-down, a lost answer, a retry), the station
    rows end as they began or with exactly one of the asked amounts taken from
    the column of its station, which the recorded inventory covered. *)
Theorem entry_draws_once l (w : World StationDB unit) entry k0 :
  station_inv (w_db w) -> uuid_in entry = Ok k0 -> Forall (fun x => only_entry entry x.2) l ->
  let stations' := st_rows (w_db (run_station_ops l w)) in
  stations' = st_rows (w_db w) \/
  exists t fs station r a k1 s available, (t, fs, OpComplete station entry r) ∈ l /\ asked r = Some a /\
    uuid_in station = Ok k1 /\ st_rows (w_db w) !! k1 = Some s /\
    float_of_numeric (default 0%Qc (column_of (inventoryColumn (st_type s)).1 s)) = Ok available /\
    flt (fadd available f1em9) a = false /\ stations' = <[k1 := drawn_row a s]> (st_rows (w_db w)).
Proof.
  intros Hinv Hu Hl. revert w Hinv. induction Hl as [|[[t fs] o] l Ho Hl IH]; intros w Hinv; simpl; [by left|].
  set (w0 := with_sched fs (with_now t w)). simpl in Ho. pose proof (wp_op_evolves o w0 Hinv) as [Hinv1 _].
  destruct (wp_op_rows entry o w0 Ho) as [Hr|(st & r & a & mid & -> & Ha & Hc & Hp)].
  - destruct (IH _ Hinv1) as [->|(t1 & fs1 & st & r & a & k1 & s & av & Hin & Ha & Hk & Hs & Hav & Hf & ->)].
    + left. exact Hr.
    + right. exists t1, fs1, st, r, a, k1, s, av. rewrite Hr in *. split_and!; try done. by right.
  - right. pose proof (completes_evolves _ _ _ _ _ Hc Hinv) as [Hinvm _].
    destruct Hc as (k & e & t2 & Hk & Hst & He & Hse & s & av & Hs & Hav & Hf & Hmid). assert (k = k0) as -> by congruence. simplify_eq.
    destruct (promoted_queue_only _ _ _ Hp) as [Hrows Hlife]. destruct (Hlife Hinvm) as [_ Hlf].
    destruct (si_entries _ Hinv _ _ He) as [Hid _].
    destruct (Hlf k0 (with_entry_status e "completed" (Some t2))) as (e' & He' & Hl').
    { simpl. by rewrite Hid, lookup_insert_eq. }
    apply entry_life_completed in Hl' as ->; [|done].
    exists t, fs, st, r, a, (qe_station e), s, av. split_and!; try done; [by left|].
    rewrite (completed_draws_nothing l _ entry k0 _ Hinv1 Hu Hl He'); [|done].
    rewrite Hrows. simpl. destruct (si_stations _ Hinv _ _ Hs) as [<- _]. f_equal. unfold drawn_row.
    by destruct (inventoryColumn (st_type s)).1.
Qed.

(** ** Queues that move *)

(** Where a bus waits, one is served; [except] names a station left out. *)
Definition served (except : option string) (d : StationDB) : Prop :=
  forall k e, st_queue d !! k = Some e -> qe_status e = "waiting" -> Some (qe_station e) <> except ->
    exists k' e', st_queue d !! k' = Some e' /\ qe_station e' = qe_station e /\ qe_status e' = "serving".

Lemma waiting_promotes station d k e :
  st_queue d !! k = Some e -> qe_status e = "waiting" -> qe_station e = station -> is_Some (longest_waiting station d).
Proof.
  intros He Hw Hs. unfold longest_waiting. destruct (order_asc _ _) as [|x l] eqn:E; [|by eexists].
  assert (e ∈ order_asc qe_joined (filter (fun e => bool_decide (qe_station e = station) && bool_decide (qe_status e = "waiting") = true)
    (rows (st_queue d)))) as Hin.
  { rewrite order_asc_perm. apply list_elem_of_filter. split; [|apply elem_of_rows; eauto].
    by rewrite !bool_decide_eq_true_2. }
  rewrite E in Hin. by apply not_elem_of_nil in Hin.
Qed.

Lemma promote_served station k0 d a g :
  uuid_in station = Ok k0 -> station_inv d -> served (Some k0) d -> promote station d = Ok (a, g) -> served None (g d).
Proof.
  intros Hu Hinv Hsv Hp k e. unfold promote in Hp. rewrite Hu in Hp.
  destruct (longest_waiting k0 d) as [x|] eqn:Ex; simplify_eq.
  - destruct (longest_waiting_spec _ _ _ Ex) as ((kx & Hx) & Hxs & Hxw). simpl.
    destruct (si_entries _ Hinv _ _ Hx) as [<- _].
    assert (forall e', qe_station e' = qe_station x -> exists k' e0,
      <[qe_id x := with_entry_status x "serving" (qe_completed x)]> (st_queue d) !! k' = Some e0 /\
      qe_station e0 = qe_station e' /\ qe_status e0 = "serving") as Hnew.
    { intros e' He'. exists (qe_id x), (with_entry_status x "serving" (qe_completed x)).
      by rewrite lookup_insert_eq. }
    intros [[<- <-]|[Hne He]]%lookup_insert_Some Hw _; [done|].
    destruct (decide (qe_station e = qe_station x)) as [Heq|Hns]; [by apply Hnew|].
    destruct (Hsv k e He Hw) as (k' & e' & He' & Hs' & Hst'); [congruence|].
    exists k', e'. rewrite lookup_insert_ne; [done|]. intros <-. congruence.
  - intros He Hw _. apply (Hsv k e He Hw). intros [= E].
    destruct (waiting_promotes k0 d k e He Hw E) as [? ?]. congruence.
Qed.

(** One entry leaves the active ones: the other stations are as before. *)
Lemma served_without k0 e st c d :
  st_queue d !! k0 = Some e -> qe_id e = k0 -> st <> "waiting" -> served None d ->
  served (Some (qe_station e)) (put_entry (with_entry_status e st c) d).
Proof.
  intros He Hid Hst Hsv k x. simpl. intros [[<- <-]|[Hne Hx]]%lookup_insert_Some Hw Hne'; [done|].
  destruct (Hsv k x Hx Hw) as (k' & e' & He' & Hs' & Hst'); [done|].
  exists k', e'. split; [|done]. rewrite lookup_insert_ne; [done|]. intros <-. simplify_eq. congruence.
Qed.

Lemma quiet_advance station d0 (w : World StationDB unit) :
  w_sched w = [] -> is_ok (uuid_in station) = true -> w_db w = d0 ->
  wp (advanceQueue station) (fun _ w' => exists a g, promote station d0 = Ok (a, g) /\ w_db w' = g d0) w.
Proof.
  intros Hs Hu <-. unfold advanceQueue. repeat quiet_step; [eauto|].
  unfold promote in *. destruct (uuid_in station); [|done]. by destruct (longest_waiting _ _).
Qed.

Lemma quiet_commit tx station e extra (w : World StationDB unit) :
  w_sched w = [] -> is_ok (uuid_in station) = true ->
  wp (complete_commit tx station e extra) (fun _ w' => exists a g, promote station (tx (w_db w)) = Ok (a, g) /\ w_db w' = g (tx (w_db w))) w.
Proof.
  intros Hs Hu. unfold complete_commit. quiet_step. quiet_step. quiet_step.
  eapply wp_mono; [|by apply (quiet_advance station (tx (w_db w)))]. intros ? w' Hw. by quiet_step.
Qed.

(** The tables after a quiet completion: promoted from tables [mid] that hold
    the queue of [d], whatever was drawn. *)
Definition promoted_from (station : string) (d d' : StationDB) : Prop :=
  exists mid a g, st_queue mid = st_queue d /\ (station_inv d -> station_inv mid) /\ promote station mid = Ok (a, g) /\ d' = g mid.

Lemma quiet_draw_down tx station e kg ty amount (w : World StationDB unit) :
  w_sched w = [] -> is_ok (uuid_in station) = true ->
  wp (draw_down tx station e kg ty amount) (fun _ w' => w_db w' = w_db w \/ promoted_from station (tx (w_db w)) (w_db w')) w.
Proof.
  intros Hs Hu. unfold draw_down. destruct (inventoryColumn ty) as [c unit].
  quiet_step. eapply (wp_mono _ (fun _ w1 => w1 = w)); [|by destruct c; repeat quiet_step].
  intros [available|er] ? ->; [|quiet_step; by left].
  destruct (flt _ _); [apply wp_ret; by left|cbn iota].
  quiet_step. quiet_step; cbn beta iota; [|quiet_step; by left].
  destruct a as [after|]; cbn iota; [|quiet_step; by left].
  eapply wp_mono; [|by apply quiet_commit]. simpl. intros _ w' (x & g' & Hp & ->). right.
  match goal with Hd : draw_stmt _ _ _ _ = _ |- _ => apply draw_stmt_spec in Hd as (k & s & _ & Hrow & ->) end.
  eexists _, x, g'. split_and!; [|intros Hinv|exact Hp|done]; [done|].
  refine (proj1 (evolves_station k s _ _ Hrow _ _ Hinv)); by destruct c.
Qed.

Lemma quiet_complete station entry req (w : World StationDB unit) :
  w_sched w = [] ->
  wp (CompleteStationQueueEntry station entry req) (fun _ w' => w_db w' = w_db w \/
    exists k e t, st_queue (w_db w) !! k = Some e /\ uuid_in station = Ok (qe_station e) /\ qe_status e = "serving" /\
      promoted_from station (put_entry (with_entry_status e "completed" (Some t)) (w_db w)) (w_db w')) w.
Proof.
  intros Hs. unfold CompleteStationQueueEntry. destruct req as [[kg alias]|]; [|quiet_step; by left].
  set (amount := match alias with Some _ => alias | None => kg end).
  destruct (match amount with Some a => flt a fzero | None => false end); [quiet_step; by left|].
  repeat quiet_step; cbn beta iota; [|destruct e; repeat quiet_step; by left].
  destruct a as [e seen]. match goal with Hc : complete_stmt _ _ _ _ = _ |- _ => apply complete_stmt_spec in Hc as (k & e0 & _ & Hu & He & Hst & -> & -> & _) end.
  assert (is_ok (uuid_in station) = true) as Hok by by rewrite Hu.
  destruct seen as [[avail ty]|]; [|repeat quiet_step; by left].
  assert (forall m : M StationDB unit response, wp m (fun _ w' => w_db w' = w_db w \/
      promoted_from station (put_entry (with_entry_status e0 "completed" (Some (w_now w))) (w_db w)) (w_db w')) w ->
    wp m (fun _ w' => w_db w' = w_db w \/ exists k e t, st_queue (w_db w) !! k = Some e /\ uuid_in station = Ok (qe_station e) /\
      qe_status e = "serving" /\ promoted_from station (put_entry (with_entry_status e "completed" (Some t)) (w_db w)) (w_db w')) w) as Hwk.
  { intros m. apply wp_mono. intros _ w' [?|?]; [by left|right]. by exists k, e0, (w_now w). }
  apply Hwk. destruct (is_positive amount) as [a|].
  - by apply (quiet_draw_down (put_entry (with_entry_status e0 "completed" (Some (w_now w))))).
  - eapply wp_mono; [|by apply (quiet_commit (put_entry (with_entry_status e0 "completed" (Some (w_now w)))))].
    intros _ w' (x & g & Hp & ->). right. by eexists _, x, g.
Qed.

Lemma quiet_leave station entry (w : World StationDB unit) :
  w_sched w = [] ->
  wp (LeaveStationQueue station entry) (fun _ w' => w_db w' = w_db w \/
    exists k e, st_queue (w_db w) !! k = Some e /\ uuid_in station = Ok (qe_station e) /\ queued (qe_status e) = true /\
      promoted_from station (put_entry (with_entry_status e "left" (qe_completed e)) (w_db w)) (w_db w')) w.
Proof.
  intros Hs. unfold LeaveStationQueue. quiet_step. quiet_step; cbn beta iota; [|destruct e; repeat quiet_step; by left].
  match goal with Hc : update_entry _ _ _ _ _ = _ |- _ => apply update_entry_spec in Hc as (k & e & _ & Hu & He & Hq & -> & ->) end.
  quiet_step. eapply wp_mono; [|apply quiet_advance; [done|by rewrite Hu|done]].
  intros ? w' (x & g & Hp & Hw). quiet_step. right. exists k, e. split_and!; [done..|]. by eexists _, x, g.
Qed.

(** The promotion after an entry stopped being active restores service. *)
Lemma promoted_from_served station k e st c d d' :
  station_inv d -> served None d -> st_queue d !! k = Some e -> uuid_in station = Ok (qe_station e) -> st <> "waiting" ->
  evolves d (put_entry (with_entry_status e st c) d) ->
  promoted_from station (put_entry (with_entry_status e st c) d) d' -> served None d'.
Proof.
  intros Hinv Hsv He Hu Hst Hev (mid & a & g & Hq & Hmid & Hp & ->).
  eapply promote_served; [exact Hu|apply Hmid, Hev, Hinv| |exact Hp].
  destruct (si_entries _ Hinv _ _ He) as [<- _].
  intros k' x. rewrite Hq. exact (served_without (qe_id e) e st c d He eq_refl Hst Hsv k' x).
Qed.

Lemma join_served e d :
  st_queue d !! qe_id e = None -> served None d ->
  qe_status e = (if Z.of_nat (length (queue_of (qe_station e) d)) =? 0 then "serving" else "waiting") ->
  served None (put_entry e d).
Proof.
  intros Hn Hsv Hst.
  assert (forall k x, st_queue d !! k = Some x -> <[qe_id e := e]> (st_queue d) !! k = Some x) as Hold.
  { intros k x Hk. rewrite lookup_insert_ne; [done|]. intros <-. congruence. }
  intros k x. simpl. intros [[<- <-]|[Hne Hx]]%lookup_insert_Some Hw _.
  - destruct (Z.eqb_spec (Z.of_nat (length (queue_of (qe_station e) d))) 0) as [|Hpos]; [congruence|].
    destruct (queue_of (qe_station e) d) as [|y l] eqn:Eq; [done|].
    assert (y ∈ queue_of (qe_station e) d) as Hy by (rewrite Eq; left).
    apply list_elem_of_filter in Hy as [[Hq Hs]%andb_prop (ky & Hky)%elem_of_rows].
    apply bool_decide_eq_true in Hq, Hs. rewrite !elem_of_cons, elem_of_nil in Hq. destruct Hq as [Hwy|[Hsy|[]]].
    + destruct (Hsv ky y Hky Hwy) as (k' & e' & He' & Hs' & Hst'); [done|]. exists k', e'. split_and!; [by apply Hold|congruence|done].
    + exists ky, y. split_and!; [by apply Hold|done|done].
  - destruct (Hsv k x Hx Hw) as (k' & e' & He' & Hs'); [done|]. exists k', e'. split; [by apply Hold|done].
Qed.

(** Without faults a queue never stalls: over any requests, whenever a bus
    waits at a station some bus is being served there, so the operator can
    complete it and the next one moves up. *)
Theorem queue_never_stalls l (w : World StationDB unit) :
  station_inv (w_db w) -> served None (w_db w) -> Forall (fun x => x.1.2 = []) l ->
  served None (w_db (run_station_ops l w)).
Proof.
  intros Hinv Hsv Hl. revert w Hinv Hsv. induction Hl as [|[[t fs] o] l Hfs _ IH]; intros w Hinv Hsv; simpl; [done|].
  simpl in Hfs. subst fs. set (w0 := with_sched [] (with_now t w)).
  apply IH; [exact (proj1 (wp_op_evolves o w0 Hinv))|]. clear IH.
  assert (Hq : wp (run_station_op o) (fun _ w' => served None (w_db w')) w0); [|exact Hq].
  assert (forall d', st_queue d' = st_queue (w_db w0) -> served None d') as Hsame.
  { intros d' E k e. rewrite E. apply Hsv. }
  destruct o as [r|id r|st b|st e r|st e|st]; simpl.
  - eapply wp_mono; [|apply wp_create_station]. intros ? ? [? _]. by apply Hsame.
  - eapply wp_mono; [|apply wp_update_station]. intros ? ? [? _]. by apply Hsame.
  - eapply wp_mono; [|apply wp_join]. intros r w' [[-> _]|(k & s & e & _ & _ & _ & <- & Hi & _ & Hst & ->)]; [done|].
    apply insert_queue_entry_spec in Hi as (_ & _ & Hn & _). by apply join_served.
  - eapply wp_mono; [|by apply quiet_complete]. intros _ w' [->|(k & e0 & t0 & He & Hu & Hs & Hp)]; [done|].
    eapply promoted_from_served; [exact Hinv|exact Hsv|exact He|exact Hu| | |exact Hp]; [done|].
    eapply evolves_step; [exact He|]. by constructor.
  - eapply wp_mono; [|by apply quiet_leave]. intros _ w' [->|(k & e0 & He & Hu & Hs & Hp)]; [done|].
    eapply promoted_from_served; [exact Hinv|exact Hsv|exact He|exact Hu| | |exact Hp]; [done|].
    eapply evolves_step; [exact He|]. by constructor.
  - unfold ListStationQueue. infra_step. infra_step; [|by repeat infra_step].
    destruct (result_map _ _); repeat infra_step; [|done].
    eapply wp_mono; [|apply wp_avg]. intros ? w' Hw. infra_step. rewrite Hw. done.
Qed.
End Requests.

(** ** Concrete runs *)

#[local] Existing Instance test_runtime.
#[local] Existing Instance test_server.
#[local] Existing Instance test_numeric.
#[local] Existing Instance test_station_env.

Definition demo_station : StationRow :=
  mkStation "st-1" "Riverside HRS" (Some (Q2Qc 500)) (Some (Q2Qc 100)) "online" "h2" None None None.

Definition station_db : StationDB := mkStationDB {["st-1" := demo_station]} ∅ {["bus-a"; "bus-b"; "bus-c"]}.

Definition station_world : World StationDB unit := mkWorld station_db tt [] 0 0 [] [] [].

Definition joins : list (Z * list outcome * station_op) :=
  [(0, [], OpJoin "st-1" (Some "bus-a")); (60000, [], OpJoin "st-1" (Some "bus-b")); (120000, [], OpJoin "st-1" (Some "bus-c"))].

(** Bus and status of the entries of the station, in join order. *)
Definition queue_view (w : World StationDB unit) : list (string * string) :=
  map (fun e => (qe_bus e, qe_status e)) (order_asc qe_joined (queue_of "st-1" (w_db w))).

(** A bus that leaves the queue while waiting promotes another one: with
    one bus served and two waiting, the first waiting bus leaves and the second
    is served beside the one at the dispenser, although the comment promotes
    only when the leaving entry was serving. *)
Theorem leaving_waiter_promotes_second :
  queue_view (run_station_ops joins station_world) = [("bus-a", "serving"); ("bus-b", "waiting"); ("bus-c", "waiting")] /\
  queue_view (run_station_ops (joins ++ [(180000, [], OpLeave "st-1" "uuid-1")]) station_world) =
    [("bus-a", "serving"); ("bus-c", "serving")].
Proof. vm_compute. by split. Qed.

Definition kg20 : option (option float64 * option float64) := Some (Some (float_of_Z 20), None).

(** The completion answered 200 whose promotion is lost. *)
Definition stalled_world : World StationDB unit :=
  run_station_ops (joins ++ [(180000, [Done; Done; Done; Done; Lost], OpComplete "st-1" "uuid-0" kg20)]) station_world.

(** A promotion lost after the commit stalls the queue.  The completion is
    answered 200 and the error only logged; nobody is served, waiting buses
    cannot be completed, and a bus that joins waits behind them. *)
Theorem lost_promotion_stalls_queue :
  let before := run_station_ops joins station_world in
  let op := OpComplete "st-1" "uuid-0" kg20 in
  status (run_station_op op (with_sched [Done; Done; Done; Done; Lost] (with_now 180000 before))).1 = 200 /\
  queue_view stalled_world = [("bus-b", "waiting"); ("bus-c", "waiting")] /\
  status (run_station_op (OpComplete "st-1" "uuid-1" kg20) stalled_world).1 = 409 /\
  queue_view (run_station_ops [(240000, [], OpJoin "st-1" (Some "bus-a"))] stalled_world) =
    [("bus-b", "waiting"); ("bus-c", "waiting"); ("bus-a", "waiting")].
Proof. vm_compute. by repeat split. Qed.

Lemma station_db_inv : station_inv station_db.
Proof.
  split; simpl.
  - intros k s [<- <-]%lookup_singleton_Some. by split.
  - intros k e. by rewrite lookup_empty.
  - intros k1 k2 e1 e2. by rewrite lookup_empty.
Qed.

Lemma queue_entries_live_on_witness :
  station_inv (w_db stalled_world) /\
  forall k e, st_queue (w_db station_world) !! k = Some e ->
    exists e', st_queue (w_db stalled_world) !! k = Some e' /\ entry_life e e' /\ qe_bus e' = qe_bus e /\ qe_station e' = qe_station e.
Proof. apply (queue_entries_live_on _ station_world). exact station_db_inv. Defined.

Definition retried_completion : list (Z * list outcome * station_op) :=
  [(0, [], OpJoin "st-1" (Some "bus-a")); (60000, [Done; Done; Done; LostReply], OpComplete "st-1" "uuid-0" kg20);
   (61000, [], OpComplete "st-1" "uuid-0" kg20)].

Lemma entry_draws_once_witness :
  (st_kg <$> st_rows (w_db (run_station_ops retried_completion station_world)) !! "st-1") = Some (Some (Q2Qc 80)) /\
  let stations' := st_rows (w_db (run_station_ops retried_completion station_world)) in
  stations' = st_rows (w_db station_world) \/
  exists t fs station r a k1 s available, (t, fs, OpComplete station "uuid-0" r) ∈ retried_completion /\ asked r = Some a /\
    uuid_in station = Ok k1 /\ st_rows (w_db station_world) !! k1 = Some s /\
    float_of_numeric (default 0%Qc (column_of (inventoryColumn (st_type s)).1 s)) = Ok available /\
    flt (fadd available f1em9) a = false /\ stations' = <[k1 := drawn_row a s]> (st_rows (w_db station_world)).
Proof.
  split; [by vm_compute|].
  apply (entry_draws_once retried_completion station_world "uuid-0" "uuid-0"); [exact station_db_inv|reflexivity|].
  repeat constructor.
Defined.

Lemma queue_never_stalls_witness :
  served None (w_db (run_station_ops (joins ++ [(180000, [], OpComplete "st-1" "uuid-0" kg20)]) station_world)).
Proof.
  apply (queue_never_stalls _ station_world); [exact station_db_inv| |by repeat constructor].
  intros k e. simpl. by rewrite lookup_empty.
Defined.
