(* ===== verification/Depot.v ===== *)
(** * The depot: bays, work orders and the maintenance consumer

    Models services/go/infra-api/internal/handlers/depot.go and
    internal/consumers/maintenance.go over infra.depot_bays (migration 0003)
    and infra.work_orders (migrations 0003, 0005 and 0007: its foreign keys
    and the unique index on the open order of a prediction; depot_bays has
    none).  A transition of a work order reads the status on the pool and
    updates by id alone afterwards, so it is cut in two there. *)

From stdpp Require Import gmap sets strings list relations.
From S2P Require Import Prelude Codec World Float64 CommerceDb InfraDb.

Open Scope Z_scope.
Open Scope go_scope.

(** ** Rows and tables *)

Record DepotBay : Type := mkBay {
  by_id : string; by_depot : string; by_label : string; by_kind : string; by_bus : option string; by_status : string }.

Record WorkOrder : Type := mkOrder {
  wo_id : string; wo_title : string; wo_description : string; wo_asset : string; wo_status : string;
  wo_bus : option string; wo_prediction : option string; wo_assignee : option string;
  wo_started : option Z; wo_opened : Z; wo_closed : option Z }.

Record DepotDB : Type := mkDepotDB {
  dp_bays : gmap string DepotBay;
  dp_orders : gmap string WorkOrder;
  dp_vehicles : gset string;
  dp_predictions : gset string
}.

Definition put_bay (b : DepotBay) (d : DepotDB) : DepotDB :=
  mkDepotDB (<[by_id b := b]> (dp_bays d)) (dp_orders d) (dp_vehicles d) (dp_predictions d).
Definition put_order (o : WorkOrder) (d : DepotDB) : DepotDB :=
  mkDepotDB (dp_bays d) (<[wo_id o := o]> (dp_orders d)) (dp_vehicles d) (dp_predictions d).

Abbreviation depot_stmt A := (DepotDB -> result (A * (DepotDB -> DepotDB))).

(** Rows that satisfy a condition on a text column, when it is asked for. *)
Definition opt_filter {V} (arg : string) (column : V -> option string) (l : list V) : list V :=
  if decide (arg = "") then l else filter (fun v => holds (tri_eq (column v) (Some arg)) = true) l.

Definition bay_json (b : DepotBay) : json :=
  JObj [("id", JStr (by_id b)); ("depot", JStr (by_depot b)); ("label", JStr (by_label b)); ("kind", JStr (by_kind b));
        ("occupied_by", jopt_str (by_bus b)); ("status", JStr (by_status b))].

Definition omit_str (k : string) (o : option string) : list (string * json) :=
  match o with Some s => [(k, JStr s)] | None => [] end.

Definition order_json (o : WorkOrder) : json :=
  JObj ([("id", JStr (wo_id o)); ("title", JStr (wo_title o)); ("description", JStr (wo_description o));
         ("asset_ref", JStr (wo_asset o)); ("status", JStr (wo_status o))] ++
        omit_str "bus_id" (wo_bus o) ++ omit_str "prediction_id" (wo_prediction o) ++ omit_str "assignee" (wo_assignee o) ++
        jopt_time "started_at" (wo_started o) ++ [("opened_at", JTime (wo_opened o))] ++ jopt_time "closed_at" (wo_closed o)).

(** The order work_orders_open_prediction_uq sees beside [o]. *)
Definition open_clash (o x : WorkOrder) : bool :=
  holds (tri_eq (wo_prediction x) (wo_prediction o)) &&
  negb (bool_decide (wo_status o = "closed")) && negb (bool_decide (wo_status x = "closed")).

Definition references_known (o : WorkOrder) (d : DepotDB) : bool :=
  match wo_bus o with Some b => bool_decide (b ∈ dp_vehicles d) | None => true end &&
  match wo_prediction o with Some p => bool_decide (p ∈ dp_predictions d) | None => true end.

Definition insert_order (o : WorkOrder) : depot_stmt WorkOrder := fun d =>
  match dp_orders d !! wo_id o, find_row (open_clash o) (dp_orders d) with
  | None, None => if references_known o d then Ok (o, put_order o) else Err (PgError foreign_key_violation)
  | _, _ => Err (PgError unique_violation)
  end.

(** [INSERT ... ON CONFLICT (prediction_id) WHERE status <> 'closed' DO NOTHING]. *)
Definition insert_order_unless_open (o : WorkOrder) : depot_stmt unit := fun d =>
  match dp_orders d !! wo_id o, find_row (open_clash o) (dp_orders d) with
  | Some _, _ => Err (PgError unique_violation)
  | None, Some _ => Ok (tt, fun d => d)
  | None, None => if references_known o d then Ok (tt, put_order o) else Err (PgError foreign_key_violation)
  end.

(** [workOrderTransitions[current][target]]. *)
Definition workOrderTransitions (current target : string) : bool :=
  bool_decide ((current, target) ∈ [
    ("open", "assigned"); ("open", "in_progress"); ("open", "closed");
    ("assigned", "in_progress"); ("assigned", "on_hold"); ("assigned", "open"); ("assigned", "closed");
    ("in_progress", "on_hold"); ("in_progress", "closed");
    ("on_hold", "in_progress"); ("on_hold", "closed")]).

(** The bookkeeping columns of a transition. *)
Definition with_order_status (target : string) (assignee : option string) (now : Z) (o : WorkOrder) : WorkOrder :=
  mkOrder (wo_id o) (wo_title o) (wo_description o) (wo_asset o) target (wo_bus o) (wo_prediction o)
    (if decide (target = "assigned") then assignee else wo_assignee o)
    (if decide (target = "in_progress") then Some (default now (wo_started o)) else wo_started o)
    (wo_opened o)
    (if decide (target = "closed") then Some now else wo_closed o).

Record createWorkOrderRequest : Type := mkCreateOrder {
  or_title : string; or_description : string; or_asset : string;
  or_bus : option string; or_prediction : option string; or_assignee : option string }.

Record MaintenancePredicted : Type := mkPredicted {
  mp_prediction : string; mp_bus : string; mp_component : string; mp_risk : float64; mp_failure_at : string; mp_model : string }.

Section Handlers.
Context `{Runtime} `{PgServer} {S : Type}.

Abbreviation OM := (M DepotDB S).

(** ** Bays *)

Definition ListDepotBays (depot st : string) : OM response :=
  try! bs := db_query (fun d => Ok (order_text by_depot (order_text by_label
               (opt_filter st (fun b => Some (by_status b)) (opt_filter depot (fun b => Some (by_depot b)) (rows (dp_bays d)))))))
    catch e => infra_internal "list depot bays" e in
  reply 200 (JObj [("bays", JList (map bay_json bs))]).

(** [UPDATE depot_bays SET occupied_by, status WHERE id AND status = from]. *)
Definition update_bay (id from : string) (bus : option string) (st : string) : depot_stmt DepotBay := fun d =>
  match uuid_in id, uuid_arg bus with
  | Ok id, Ok bus =>
      match dp_bays d !! id with
      | Some b => if bool_decide (by_status b = from)
                  then let b' := mkBay (by_id b) (by_depot b) (by_label b) (by_kind b) bus st in Ok (b', put_bay b')
                  else Err ErrNoRows
      | None => Err ErrNoRows
      end
  | Err e, _ | _, Err e => Err e
  end.

Definition AssignDepotBay (id : string) (req : option string) : OM response :=
  match req with
  | None => reply_error 400 ("body must include " +:+ quoted "bus_id")
  | Some bus =>
      if decide (bus = "") then reply_error 400 ("body must include " +:+ quoted "bus_id")
      else
        let! r := db_exec (update_bay id "free" (Some bus) "occupied") in
        match r with
        | Err ErrNoRows => reply_error 409 "bay not found or not free"
        | Err (PgError code) =>
            if decide (code = foreign_key_violation) then reply_error 422 "bus_id does not reference a known vehicle"
            else infra_internal "assign depot bay" (PgError code)
        | Err e => infra_internal "assign depot bay" e
        | Ok b => reply 200 (bay_json b)
        end
  end.

Definition ReleaseDepotBay (id : string) : OM response :=
  let! r := db_exec (update_bay id "occupied" None "free") in
  match r with
  | Err ErrNoRows => reply_error 409 "bay not found or not occupied"
  | Err e => infra_internal "release depot bay" e
  | Ok b => reply 200 (bay_json b)
  end.

(** ** Work orders *)

Definition ListWorkOrders (st bus : string) : OM response :=
  try! os := db_query (fun d => result_map (fun bus => take 200 (order_desc wo_opened
               (opt_filter bus wo_bus (opt_filter st (fun o => Some (wo_status o)) (rows (dp_orders d))))))
               (if decide (bus = "") then Ok "" else uuid_in bus))
    catch e => infra_internal "list work orders" e in
  reply 200 (JObj [("work_orders", JList (map order_json os))]).

(** The uuid arguments of an insert, then the insert. *)
Definition insert_with_links {A} (insert : WorkOrder -> depot_stmt A) (mk : option string -> option string -> WorkOrder)
    (bus prediction : option string) : depot_stmt A := fun d =>
  match uuid_arg bus, uuid_arg prediction with
  | Ok bus, Ok prediction => insert (mk bus prediction) d
  | Err e, _ | _, Err e => Err e
  end.

Definition CreateWorkOrder (req : option createWorkOrderRequest) : OM response :=
  match req with
  | None => reply_error 400 ("body must include " +:+ quoted "title")
  | Some r =>
      if decide (or_title r = "") then reply_error 400 ("body must include " +:+ quoted "title")
      else
        let st := match or_assignee r with Some a => if decide (a = "") then "open" else "assigned" | None => "open" end in
        let! id := new_uuid in
        let! now := gets w_now in
        let! ins := db_exec (insert_with_links insert_order
          (fun bus p => mkOrder id (or_title r) (or_description r) (or_asset r) st bus p (or_assignee r) None now None)
          (or_bus r) (or_prediction r)) in
        match ins with
        | Err (PgError code) =>
            if decide (code = foreign_key_violation)
            then reply_error 422 "bus_id or prediction_id does not reference a known vehicle/prediction"
            else if decide (code = unique_violation) then reply_error 409 "an open work order already exists for this prediction"
            else infra_internal "create work order" (PgError code)
        | Err e => infra_internal "create work order" e
        | Ok o => reply 201 (order_json o)
        end
  end.

(** [UPDATE work_orders SET ... WHERE id = $1 RETURNING]; the unique index is
    checked on the changed row. *)
Definition update_order (id target : string) (assignee : option string) (now : Z) : depot_stmt WorkOrder := fun d =>
  match uuid_in id with
  | Err e => Err e
  | Ok id =>
      match dp_orders d !! id with
      | None => Err ErrNoRows
      | Some o =>
          let o' := with_order_status target assignee now o in
          match find_row (fun x => open_clash o' x && negb (bool_decide (wo_id x = wo_id o'))) (dp_orders d) with
          | Some _ => Err (PgError unique_violation)
          | None => Ok (o', put_order o')
          end
      end
  end.

(** The transition once the current status is known. *)
Definition transition_after_read (id target : string) (assignee : option string) (current : string) : OM response :=
  if decide (current = target) then reply_error 409 ("work order already in status " +:+ target)
  else if negb (workOrderTransitions current target)
  then reply_error 409 ("invalid status transition from " +:+ current +:+ " to " +:+ target)
  else if decide (target = "assigned" /\ default "" assignee = "")
  then reply_error 400 "assignee is required when assigning a work order"
  else
    let! now := gets w_now in
    try! o := db_exec (update_order id target assignee now) catch e => infra_internal "transition work order" e in
    reply 200 (order_json o).

(** [None] is a body that does not decode; only an assignment reads it. *)
Definition transitionWorkOrder (id target : string) (body : option (option string)) : OM response :=
  match (if decide (target = "assigned") then body else Some None) with
  | None => reply_error 400 "invalid JSON body"
  | Some assignee =>
      let! current := db_query (fun d => match uuid_in id with
                                | Err e => Err e
                                | Ok id => match dp_orders d !! id with Some o => Ok (wo_status o) | None => Err ErrNoRows end
                                end) in
      match current with
      | Err ErrNoRows => reply_error 404 "work order not found"
      | Err e => infra_internal "load work order" e
      | Ok current => transition_after_read id target assignee current
      end
  end.

Definition AssignWorkOrder (id : string) (body : option (option string)) : OM response := transitionWorkOrder id "assigned" body.
Definition StartWorkOrder (id : string) : OM response := transitionWorkOrder id "in_progress" None.
Definition HoldWorkOrder (id : string) : OM response := transitionWorkOrder id "on_hold" None.
Definition CloseWorkOrder (id : string) : OM response := transitionWorkOrder id "closed" None.

(** ** The consumer of maintenance.predicted *)

Definition WorkOrderTitle (p : MaintenancePredicted) : string :=
  "Predicted " +:+ mp_component p +:+ " failure risk " +:+ FormatFloat_f 2 (mp_risk p) +:+ " (bus " +:+ mp_bus p +:+ ")".

Definition predicted_description (p : MaintenancePredicted) : string :=
  "Auto-created from maintenance.predicted: component=" +:+ mp_component p +:+ " risk=" +:+ FormatFloat_f 3 (mp_risk p) +:+
  " predicted_failure_at=" +:+ mp_failure_at p +:+ " model=" +:+ mp_model p.

Definition CreateWorkOrderFromPrediction (p : MaintenancePredicted) : OM (result unit) :=
  if decide (mp_prediction p = "" \/ mp_bus p = "" \/ mp_component p = "")
  then gret (Err (ErrMsg "maintenance.predicted payload missing prediction_id/bus_id/component"))
  else
    let! id := new_uuid in
    let! now := gets w_now in
    db_exec (insert_with_links insert_order_unless_open
      (fun bus pr => mkOrder id (WorkOrderTitle p) (predicted_description p) ("fleet:" +:+ mp_bus p) "open" bus pr None None now None)
      (Some (mp_bus p)) (Some (mp_prediction p))).
End Handlers.

(** The group's committed offset is the second state of the world. *)

Inductive maintenance_record : Type :=
| MalformedRecord
| BadPayload
| Predicted (p : MaintenancePredicted).

Section Consumer.
Context `{Runtime} `{PgServer}.

(** [markCommitted]: a failed commit is logged. *)
Definition markCommitted (n : nat) : M DepotDB nat unit :=
  do! led_call (fun _ => (Ok tt, S n)) in gret tt.

Definition consume_prediction (n : nat) (r : maintenance_record) : M DepotDB nat unit :=
  match r with
  | MalformedRecord => markCommitted n
  | BadPayload => markCommitted n
  | Predicted p =>
      let! res := CreateWorkOrderFromPrediction p in
      match res with
      | Err _ => gret tt
      | Ok _ => markCommitted n
      end
  end.

Fixpoint consume_predictions (n : nat) (rs : list maintenance_record) : M DepotDB nat unit :=
  match rs with
  | [] => gret tt
  | r :: rs => do! consume_prediction n r in consume_predictions (S n) rs
  end.
End Consumer.
