(* ===== verification/DepotTheorems.v ===== *)
(** * What holds of the depot

    The invariant of the tables and the life of a work order over any requests
    and consumed predictions under any faults, the reads and updates of the
    transitions interleaved in any order, what the predictions become, and the
    two places where the depot does less than its comments say. *)

From stdpp Require Import gmap sets strings list relations.
From S2P Require Import Prelude Codec World Float64 CommerceDb InfraDb Depot.

Open Scope Z_scope.
Open Scope go_scope.

(** ** The life of a work order *)

Inductive order_step : WorkOrder -> WorkOrder -> Prop :=
| os_step o target assignee now :
    workOrderTransitions (wo_status o) target = true -> ~ (target = "assigned" /\ default "" assignee = "") ->
    order_step o (with_order_status target assignee now o).

Definition order_life : WorkOrder -> WorkOrder -> Prop := rtc order_step.

Record order_ok (o : WorkOrder) : Prop := mkOrderOk {
  ok_status : wo_status o ∈ ["open"; "assigned"; "in_progress"; "on_hold"; "closed"];
  ok_closed : wo_status o = "closed" <-> is_Some (wo_closed o);
  ok_assigned : wo_status o = "assigned" -> exists a, wo_assignee o = Some a /\ a <> ""
}.

(** An update by id alone, on whatever status the order has by then: the target
    was allowed from a status that was read before. *)
Inductive order_move : WorkOrder -> WorkOrder -> Prop :=
| om_step o from target assignee now :
    workOrderTransitions from target = true -> ~ (target = "assigned" /\ default "" assignee = "") ->
    order_move o (with_order_status target assignee now o).

(** What is left of [order_ok] when updates meet another status than was read. *)
Record order_sound (o : WorkOrder) : Prop := mkOrderSound {
  os_status : wo_status o ∈ ["open"; "assigned"; "in_progress"; "on_hold"; "closed"];
  os_closed : wo_status o = "closed" -> is_Some (wo_closed o);
  os_assigned : wo_status o = "assigned" -> exists a, wo_assignee o = Some a /\ a <> ""
}.

(** The tables, for a notion of a good order and of a step of one. *)
Section Tables.
Context (ok : WorkOrder -> Prop) (step : WorkOrder -> WorkOrder -> Prop).

Record depot_inv_of (d : DepotDB) : Prop := mkDepotInv {
  di_bays k b : dp_bays d !! k = Some b -> by_id b = k /\ (by_status b = "free" -> by_bus b = None);
  di_orders k o : dp_orders d !! k = Some o -> wo_id o = k /\ ok o;
  di_single k1 k2 o1 o2 : dp_orders d !! k1 = Some o1 -> dp_orders d !! k2 = Some o2 -> open_clash o1 o2 = true -> k1 = k2
}.

Definition depot_evolves (d d' : DepotDB) : Prop :=
  depot_inv_of d -> depot_inv_of d' /\
  forall k o, dp_orders d !! k = Some o -> exists o', dp_orders d' !! k = Some o' /\ rtc step o o'.

#[global] Instance depot_evolves_preorder : PreOrder depot_evolves.
Proof.
  split.
  - intros d Hd. split; [done|]. intros k o Ho. exists o. split; [done|apply rtc_refl].
  - intros d1 d2 d3 H12 H23 Hd. destruct (H12 Hd) as [Hd2 He2]. destruct (H23 Hd2) as [Hd3 He3].
    split; [done|]. intros k o (o2 & Hk & Hl)%He2. destruct (He3 k o2 Hk) as (o3 & Hk3 & Hl3).
    exists o3. split; [done|]. by etransitivity.
Qed.
End Tables.

Arguments di_bays {ok d}.
Arguments di_orders {ok d}.
Arguments di_single {ok d}.

Abbreviation depot_inv := (depot_inv_of order_ok).
Abbreviation depot_sound := (depot_inv_of order_sound).

(** No transition leaves [closed], and every target is a status. *)
Lemma transition_from s t : workOrderTransitions s t = true ->
  s <> "closed" /\ t ∈ ["open"; "assigned"; "in_progress"; "on_hold"; "closed"].
Proof.
  intros Ht%bool_decide_eq_true. rewrite !elem_of_cons, elem_of_nil in Ht.
  assert (forall a b : string, (s, t) = (a, b) -> s = a /\ t = b) as Hp by (by intros a b [= -> ->]).
  repeat (destruct Ht as [[-> ->]%Hp|Ht]; [split; [done|rewrite !elem_of_cons; tauto]|]). done.
Qed.

Lemma step_same o o' : order_step o o' ->
  wo_id o' = wo_id o /\ wo_bus o' = wo_bus o /\ wo_prediction o' = wo_prediction o /\ wo_status o <> "closed" /\
  (is_Some (wo_started o) -> wo_started o' = wo_started o).
Proof.
  destruct 1 as [o1 target a now Ht _]. destruct (transition_from _ _ Ht) as [Hn _].
  split_and!; try done. intros [t Hs]. simpl. rewrite Hs. by case_decide.
Qed.

Lemma step_ok o o' : order_ok o -> order_step o o' -> order_ok o'.
Proof.
  intros [Hs Hc Ha] Hst. destruct Hst as [o target a now Ht Hass].
  destruct (transition_from _ _ Ht) as [Hn Hin]. split; simpl; [done|..].
  - case_decide as E; [by split; eauto|]. rewrite <- Hc. done.
  - intros ->. simpl. destruct a as [a|]; simpl in *; [exists a; split; [done|tauto]|tauto].
Qed.

Lemma move_sound o o' : order_sound o -> order_move o o' -> order_sound o'.
Proof.
  intros [Hs Hc Ha] Hst. destruct Hst as [o from target a now Ht Hass].
  destruct (transition_from _ _ Ht) as [_ Hin]. split; simpl; [done|..].
  - intros ->. by eexists.
  - intros ->. simpl. destruct a as [a|]; simpl in *; [exists a; split; [done|tauto]|tauto].
Qed.

(** What the operations need of the two notions: their own transitions are
    steps, new orders are good, and steps keep the id and goodness. *)
Class Life (ok : WorkOrder -> Prop) (step : WorkOrder -> WorkOrder -> Prop) : Prop := {
  life_id o o' : step o o' -> wo_id o' = wo_id o;
  life_ok o o' : ok o -> step o o' -> ok o';
  life_new o : order_ok o -> ok o;
  life_step o o' : order_step o o' -> step o o'
}.

#[global] Instance strict_life : Life order_ok order_step.
Proof. split; [by intros o o' Hs%step_same; apply Hs|apply step_ok|done|done]. Qed.

#[global] Instance racing_life : Life order_sound order_move.
Proof.
  split; [by destruct 1|apply move_sound| |].
  - intros o [Hs Hc Ha]. split; [done|by rewrite Hc|done].
  - destruct 1 as [o target a now Ht Ha]. by econstructor.
Qed.

Lemma open_clash_sym o x : open_clash o x = open_clash x o.
Proof.
  unfold open_clash. rewrite <- !andb_assoc, (andb_comm (negb (bool_decide (wo_status x = "closed")))). f_equal.
  destruct (wo_prediction x), (wo_prediction o); simpl; try done. do 2 case_bool_decide; congruence.
Qed.

Section Evolution.
Context {ok : WorkOrder -> Prop} {step : WorkOrder -> WorkOrder -> Prop} `{!Life ok step}.

Lemma evolves_order_step k o o' d :
  dp_orders d !! k = Some o -> step o o' ->
  find_row (fun x => open_clash o' x && negb (bool_decide (wo_id x = wo_id o'))) (dp_orders d) = None ->
  depot_evolves ok step d (put_order o' d).
Proof using All.
  intros Ho Hst Hf Hd. pose proof (life_id _ _ Hst) as Hi. destruct (di_orders Hd _ _ Ho) as [<- Hok].
  rewrite find_row_None in Hf. split.
  - destruct Hd as [H1 H2 H3]. split; simpl; [exact H1|..]; rewrite Hi.
    + intros k x [[<- <-]|[Hne Hx]]%lookup_insert_Some; [split; [done|by eapply life_ok]|by apply H2].
    + assert (forall k x, wo_id o <> k -> dp_orders d !! k = Some x -> open_clash o' x = false) as Hno.
      { intros k x Hne Hx. destruct (H2 _ _ Hx) as [Hid _]. pose proof (Hf k x Hx) as Hc.
        rewrite bool_decide_eq_false_2, andb_true_r in Hc; congruence. }
      intros k1 k2 o1 o2 [[<- <-]|[Hn1 Hk1]]%lookup_insert_Some [[<- <-]|[Hn2 Hk2]]%lookup_insert_Some Hcl; [done|..].
      * by rewrite (Hno _ _ Hn2 Hk2) in Hcl.
      * rewrite open_clash_sym in Hcl. by rewrite (Hno _ _ Hn1 Hk1) in Hcl.
      * by eapply (H3 _ _ o1 o2).
  - simpl. intros k x Hx. destruct (decide (k = wo_id o)) as [->|Hne].
    + exists o'. rewrite Hi, lookup_insert_eq. simplify_eq. split; [done|by apply rtc_once].
    + exists x. rewrite lookup_insert_ne by congruence. split; [done|apply rtc_refl].
Qed.

Lemma evolves_new_order o d :
  dp_orders d !! wo_id o = None -> find_row (open_clash o) (dp_orders d) = None -> order_ok o -> depot_evolves ok step d (put_order o d).
Proof using All.
  intros Hn Hf Hok Hd. rewrite find_row_None in Hf. split.
  - destruct Hd as [H1 H2 H3]. split; simpl; [exact H1|..].
    + intros k x [[<- <-]|[Hne Hx]]%lookup_insert_Some; [split; [done|by apply life_new]|by apply H2].
    + intros k1 k2 o1 o2 [[<- <-]|[Hn1 Hk1]]%lookup_insert_Some [[<- <-]|[Hn2 Hk2]]%lookup_insert_Some Hcl; [done|..].
      * by rewrite (Hf _ _ Hk2) in Hcl.
      * rewrite open_clash_sym in Hcl. by rewrite (Hf _ _ Hk1) in Hcl.
      * by eapply (H3 _ _ o1 o2).
  - simpl. intros k x Hx. exists x. rewrite lookup_insert_ne by congruence. split; [done|apply rtc_refl].
Qed.

Lemma evolves_bay k b b' d :
  dp_bays d !! k = Some b -> by_id b' = by_id b -> (by_status b' = "free" -> by_bus b' = None) -> depot_evolves ok step d (put_bay b' d).
Proof.
  intros Hb Hi Hf Hd. destruct (di_bays Hd _ _ Hb) as [<- _].
  split; [|simpl; intros k o Ho; exists o; split; [done|apply rtc_refl]].
  destruct Hd as [H1 H2 H3]. split; simpl; [|exact H2|exact H3]. rewrite Hi.
  intros k x [[<- <-]|[Hne Hx]]%lookup_insert_Some; [done|by apply H1].
Qed.

End Evolution.

(** ** Every request, under any faults *)

Section Requests.
Context `{Runtime} `{PgServer} {ok : WorkOrder -> Prop} {step : WorkOrder -> WorkOrder -> Prop} `{!Life ok step}.
Abbreviation evolves := (depot_evolves ok step).

Lemma update_bay_evolves id from bus st d a g :
  (st = "free" -> bus = None) -> update_bay id from bus st d = Ok (a, g) -> evolves d (g d).
Proof using All.
  intros Hfree. unfold update_bay. destruct (uuid_in id) as [k|]; [|done].
  destruct (uuid_arg bus) as [bus'|] eqn:Eb; [|done].
  destruct (dp_bays d !! k) as [b|] eqn:Ek; [|done]. case_bool_decide; [|done]. intros [= _ <-].
  eapply evolves_bay; [done..|]. simpl. intros ->. rewrite Hfree in Eb by done. by injection Eb.
Qed.

Lemma insert_order_evolves o d a g : order_ok o -> insert_order o d = Ok (a, g) -> evolves d (g d).
Proof using All.
  intros Hok. unfold insert_order. destruct (dp_orders d !! wo_id o) eqn:E1, (find_row (open_clash o) (dp_orders d)) eqn:E2; try done.
  destruct (references_known o d); [|done]. intros [= _ <-]. by apply evolves_new_order.
Qed.

Lemma insert_unless_open_evolves o d a g : order_ok o -> insert_order_unless_open o d = Ok (a, g) -> evolves d (g d).
Proof using All.
  intros Hok. unfold insert_order_unless_open. destruct (dp_orders d !! wo_id o) eqn:E1, (find_row (open_clash o) (dp_orders d)) eqn:E2; try done.
  - by intros [= _ <-].
  - destruct (references_known o d); [|done]. intros [= _ <-]. by apply evolves_new_order.
Qed.

Lemma insert_with_links_evolves {A} (insert : WorkOrder -> depot_stmt A) mk bus pr d a g :
  (forall o d a g, order_ok o -> insert o d = Ok (a, g) -> evolves d (g d)) ->
  (forall b p, order_ok (mk b p)) -> insert_with_links insert mk bus pr d = Ok (a, g) -> evolves d (g d).
Proof using All.
  intros Hi Hmk. unfold insert_with_links. destruct (uuid_arg bus), (uuid_arg pr); try done. apply Hi, Hmk.
Qed.

Lemma update_order_evolves id target assignee now d a g :
  (forall k o, uuid_in id = Ok k -> dp_orders d !! k = Some o -> step o (with_order_status target assignee now o)) ->
  update_order id target assignee now d = Ok (a, g) -> evolves d (g d).
Proof using All.
  intros Ht. unfold update_order. destruct (uuid_in id) as [k|]; [|done].
  destruct (dp_orders d !! k) as [o|] eqn:Eo; [|done]. destruct (find_row (V:=WorkOrder) _ _) eqn:Ef; [done|]. intros [= _ <-].
  eapply evolves_order_step; [done| |done]. by eapply Ht.
Qed.

Inductive depot_op : Type :=
| OpAssignBay (id : string) (bus : option string)
| OpReleaseBay (id : string)
| OpCreateOrder (r : option createWorkOrderRequest)
| OpAssignOrder (id : string) (body : option (option string))
| OpStartOrder (id : string)
| OpHoldOrder (id : string)
| OpCloseOrder (id : string)
| OpConsume (n : nat) (rs : list maintenance_record).

Definition run_depot_op (o : depot_op) : M DepotDB nat unit :=
  match o with
  | OpAssignBay id bus => do! AssignDepotBay id bus in gret tt
  | OpReleaseBay id => do! ReleaseDepotBay id in gret tt
  | OpCreateOrder r => do! CreateWorkOrder r in gret tt
  | OpAssignOrder id body => do! AssignWorkOrder id body in gret tt
  | OpStartOrder id => do! StartWorkOrder id in gret tt
  | OpHoldOrder id => do! HoldWorkOrder id in gret tt
  | OpCloseOrder id => do! CloseWorkOrder id in gret tt
  | OpConsume n rs => consume_predictions n rs
  end.

Implicit Types w : World DepotDB nat.

(** Every branch of a handler ends in a reply. *)
Ltac answer := repeat (infra_step || case_decide || cbn beta iota); try done.

Lemma wp_bay id from bus st (k : result DepotBay -> M DepotDB nat response) w :
  (st = "free" -> bus = None) -> (forall r w', wp (k r) (fun _ w'' => w_db w'' = w_db w') w') ->
  wp (let! r := db_exec (update_bay id from bus st) in k r) (fun _ w' => evolves (w_db w) (w_db w')) w.
Proof using All.
  intros Hf Hk. repeat infra_step; (eapply wp_mono; [|apply Hk]); simpl; intros ? w' ->; try done; by eapply update_bay_evolves.
Qed.

Lemma wp_create_order r w : wp (CreateWorkOrder r) (fun _ w' => evolves (w_db w) (w_db w')) w.
Proof using All.
  unfold CreateWorkOrder. destruct r as [r|]; [|by answer]. case_decide; [by answer|].
  infra_step. infra_step. infra_step. infra_step. infra_step.
  assert (forall b p, order_ok (mkOrder (uuid_of (w_uuids w)) (or_title r) (or_description r) (or_asset r)
    match or_assignee r with Some a => if decide (a = "") then "open" else "assigned" | None => "open" end
    b p (or_assignee r) None (w_now w) None)) as Hok.
  { intros b p. split; simpl.
    - destruct (or_assignee r); [case_decide|]; rewrite !elem_of_cons; tauto.
    - split; [|by intros [? ?]]. destruct (or_assignee r); [case_decide|]; done.
    - destruct (or_assignee r) as [a|]; [case_decide|]; [done|by eexists|done]. }
  infra_step; cbn beta iota.
  - infra_step. simpl. eapply insert_with_links_evolves; [apply insert_order_evolves|exact Hok|eassumption].
  - infra_step. simpl. eapply insert_with_links_evolves; [apply insert_order_evolves|exact Hok|eassumption].
  - destruct e; answer.
  - by infra_step.
Qed.

Lemma wp_after_read id target assignee current w :
  (workOrderTransitions current target = true -> ~ (target = "assigned" /\ default "" assignee = "") ->
   forall k o, uuid_in id = Ok k -> dp_orders (w_db w) !! k = Some o ->
     step o (with_order_status target assignee (w_now w) o)) ->
  wp (transition_after_read id target assignee current) (fun _ w' => evolves (w_db w) (w_db w')) w.
Proof using All.
  intros Hst. unfold transition_after_read.
  case_decide; [by infra_step|]. destruct (workOrderTransitions current target) eqn:Et; simpl; [|by infra_step].
  case_decide as Ha; [by infra_step|]. repeat infra_step; try done; simpl.
  all: eapply update_order_evolves; [|eassumption]; simpl; eauto.
Qed.

Lemma wp_transition id target body w :
  wp (transitionWorkOrder id target body) (fun _ w' => evolves (w_db w) (w_db w')) w.
Proof using All.
  unfold transitionWorkOrder. destruct (if decide _ then body else _) as [assignee|]; [|by answer].
  infra_step. infra_step; cbn beta; [|by answer].
  destruct (uuid_in id) as [k|e] eqn:Eu; [|destruct e; by answer].
  destruct (dp_orders (w_db w) !! k) as [o|] eqn:Eo; [|by answer].
  change (w_db w) with (w_db (with_sched s w)). apply wp_after_read. simpl. intros Ht Ha k' o' Hk Ho. rewrite Hk in Eu. simplify_eq. apply life_step. by constructor.
Qed.

Lemma wp_prediction p w :
  wp (CreateWorkOrderFromPrediction p) (fun _ w' => evolves (w_db w) (w_db w')) w.
Proof using All.
  unfold CreateWorkOrderFromPrediction. case_decide; [by infra_step|].
  assert (forall b q, order_ok (mkOrder (uuid_of (w_uuids w)) (WorkOrderTitle p) (predicted_description p) ("fleet:" +:+ mp_bus p)
    "open" b q None None (w_now w) None)) as Hok.
  { intros b q. split; simpl; [rewrite !elem_of_cons; tauto| |done]. split; [done|by intros [? ?]]. }
  repeat infra_step; try done; simpl.
  all: eapply insert_with_links_evolves; [apply insert_unless_open_evolves|exact Hok|eassumption].
Qed.

Lemma wp_consume n rs w : wp (consume_predictions n rs) (fun _ w' => evolves (w_db w) (w_db w')) w.
Proof using All.
  revert n w. induction rs as [|r rs IH]; intros n w; simpl; [by infra_step|]. infra_step.
  assert (forall n w', wp (markCommitted n) (fun _ w'' => w_db w'' = w_db w') w') as Hmark.
  { intros m w'. unfold markCommitted. repeat infra_step; simplify_eq/=; done. }
  apply (wp_mono _ (fun _ w' => evolves (w_db w) (w_db w'))).
  { intros ? w' Hw. eapply wp_mono; [|apply IH]. intros ? w'' Hw'. by etransitivity. }
  destruct r as [| |p]; simpl.
  - eapply wp_mono; [|apply Hmark]. by intros _ w' ->.
  - eapply wp_mono; [|apply Hmark]. by intros _ w' ->.
  - infra_step. eapply wp_mono; [|apply wp_prediction]. intros [u|e] w1 Hw1; [|by infra_step].
    eapply wp_mono; [|apply Hmark]. by intros _ w' ->.
Qed.

Lemma wp_depot_op o w : wp (run_depot_op o) (fun _ w' => evolves (w_db w) (w_db w')) w.
Proof using All.
  destruct o as [id bus|id|r|id body|id|id|id|n rs]; simpl; [..|apply wp_consume]; infra_step.
  - unfold AssignDepotBay. destruct bus as [bus|]; [|by answer]. case_decide; [by answer|].
    eapply wp_mono; [|apply wp_bay; [done|]]; [by answer|]. intros [b|[]] w'; by answer.
  - eapply wp_mono; [|apply wp_bay; [done|]]; [by answer|]. intros [b|[]] w'; by answer.
  - eapply wp_mono; [|apply wp_create_order]. by answer.
  - eapply wp_mono; [|apply wp_transition]. by answer.
  - eapply wp_mono; [|apply wp_transition]. by answer.
  - eapply wp_mono; [|apply wp_transition]. by answer.
  - eapply wp_mono; [|apply wp_transition]. by answer.
Qed.

End Requests.

(** *** Interleaving: the check and the update of a transition *)

Section Interleaving.
Context `{Runtime} `{PgServer}.
Implicit Types w : World DepotDB nat.

(** A request run whole, or the rest of a transition that read its order's
    status earlier and found [current]. *)
Inductive depot_phase : Type :=
| Whole (o : depot_op)
| AfterRead (id target : string) (assignee : option string) (current : string).

Definition run_phase (p : depot_phase) : M DepotDB nat unit :=
  match p with
  | Whole o => run_depot_op o
  | AfterRead id target assignee current => do! transition_after_read id target assignee current in gret tt
  end.

Definition phase_step w (x : Z * list outcome * depot_phase) : World DepotDB nat :=
  (run_phase x.2 (with_sched x.1.2 (with_now x.1.1 w))).2.

Definition run_phases (l : list (Z * list outcome * depot_phase)) w : World DepotDB nat := foldl phase_step w l.

(** The order still has the status that was read. *)
Definition up_to_date (p : depot_phase) (d : DepotDB) : Prop :=
  match p with
  | Whole _ => True
  | AfterRead id _ _ current => forall k o, uuid_in id = Ok k -> dp_orders d !! k = Some o -> wo_status o = current
  end.

(** No transition of the run was overtaken between its read and its update. *)
Fixpoint undisturbed (l : list (Z * list outcome * depot_phase)) w : Prop :=
  match l with
  | [] => True
  | x :: l => up_to_date x.2 (w_db w) /\ undisturbed l (phase_step w x)
  end.

Lemma phase_moves x w : depot_evolves order_sound order_move (w_db w) (w_db (phase_step w x)).
Proof.
  destruct x as [[t fs] [o|id target assignee current]]; unfold phase_step; cbn [fst snd run_phase].
  - apply (wp_depot_op o (with_sched fs (with_now t w))).
  - change (wp (do! transition_after_read id target assignee current in gret tt)
      (fun _ w' => depot_evolves order_sound order_move (w_db w) (w_db w')) (with_sched fs (with_now t w))).
    apply wp_bind. eapply wp_mono; [|apply (wp_after_read (step := order_move))]; [by intros ? w' ?; apply wp_ret|].
    intros Ht Ha k o _ _. by econstructor.
Qed.

Lemma phase_steps x w : up_to_date x.2 (w_db w) -> depot_evolves order_ok order_step (w_db w) (w_db (phase_step w x)).
Proof.
  destruct x as [[t fs] [o|id target assignee current]]; unfold phase_step; cbn [fst snd run_phase up_to_date]; intros Hu.
  - apply (wp_depot_op o (with_sched fs (with_now t w))).
  - change (wp (do! transition_after_read id target assignee current in gret tt)
      (fun _ w' => depot_evolves order_ok order_step (w_db w) (w_db w')) (with_sched fs (with_now t w))).
    apply wp_bind. eapply wp_mono; [|apply (wp_after_read (step := order_step))]; [by intros ? w' ?; apply wp_ret|].
    intros Ht Ha k o Hk Ho. constructor; [by rewrite (Hu k o Hk Ho)|done].
Qed.

(** C32: the life of a work order, over any bay and work-order requests and
    consumed predictions in any interleaving of the reads and updates of their
    transitions, under any faults.  Always: a free bay holds no bus, at most
    one order of a prediction is not closed, a closed order has a closing time
    and an assigned one an assignee, and an order keeps its identity and is
    only ever given a status that was allowed from one that was read.  As long
    as no transition is overtaken between its read and its update, every order
    moves along the transition table, has a closing time exactly when it is
    closed, and a closed order stays as it was closed.  (Overtaken, it can be
    reopened: [closed_order_reopened].) *)
Theorem work_orders_follow_lifecycle l w :
  depot_inv (w_db w) ->
  depot_sound (w_db (run_phases l w)) /\
  (forall k o, dp_orders (w_db w) !! k = Some o ->
     exists o', dp_orders (w_db (run_phases l w)) !! k = Some o' /\ rtc order_move o o') /\
  (undisturbed l w -> depot_inv (w_db (run_phases l w)) /\
     forall k o, dp_orders (w_db w) !! k = Some o ->
       exists o', dp_orders (w_db (run_phases l w)) !! k = Some o' /\ order_life o o' /\ (wo_status o = "closed" -> o' = o)).
Proof.
  intros Hinv. assert (depot_sound (w_db w)) as Hsound.
  { destruct Hinv as [H1 H2 H3]. split; [exact H1| |exact H3].
    intros k o Ho. destruct (H2 k o Ho). split; [done|]. by apply (life_new (step := order_move)). }
  assert (depot_evolves order_sound order_move (w_db w) (w_db (run_phases l w))) as Hmv.
  { clear Hinv Hsound. revert w. induction l as [|x l IH]; intros w; simpl; [reflexivity|]. etransitivity; [apply phase_moves|apply IH]. }
  destruct (Hmv Hsound) as [Hs Hmoves]. split_and!; [done|done|].
  intros Hu. assert (depot_evolves order_ok order_step (w_db w) (w_db (run_phases l w))) as Hev.
  { clear Hinv Hsound Hmv Hs Hmoves. revert w Hu. induction l as [|x l IH]; intros w; simpl; [reflexivity|].
    intros [Hx Hu]. etransitivity; [by apply phase_steps|by apply IH]. }
  destruct (Hev Hinv) as [Hinv' Hlife]. split; [done|]. intros k o (o' & Hk & Hl)%Hlife. exists o'. split_and!; [done..|].
  intros Hc. destruct Hl as [|x y z Hst _]; [done|]. by destruct (step_same _ _ Hst) as (_ & _ & _ & ? & _).
Qed.
End Interleaving.

Section Predictions.
Context `{Runtime} `{PgServer}.
Implicit Types w : World DepotDB nat.

(** A prediction gets its order.  Without faults, a well-formed
    prediction about a known bus is consumed, its offset committed, and an order
    of that prediction is open afterwards, whether or not one was before. *)
Theorem prediction_opens_order n p bus pr w :
  w_sched w = [] -> depot_inv (w_db w) -> mp_component p <> "" -> mp_bus p <> "" -> mp_prediction p <> "" ->
  uuid_in (mp_bus p) = Ok bus -> uuid_in (mp_prediction p) = Ok pr ->
  bus ∈ dp_vehicles (w_db w) -> pr ∈ dp_predictions (w_db w) -> dp_orders (w_db w) !! uuid_of (w_uuids w) = None ->
  let w' := (consume_predictions n [Predicted p] w).2 in
  w_led w' = S n /\
  exists k o, dp_orders (w_db w') !! k = Some o /\ wo_prediction o = Some pr /\ wo_status o <> "closed".
Proof.
  intros Hs Hinv Hc Hb Hp Hub Hup Hbus Hpr Hnew.
  enough (wp (consume_predictions n [Predicted p]) (fun _ w' => w_led w' = S n /\
    exists k o, dp_orders (w_db w') !! k = Some o /\ wo_prediction o = Some pr /\ wo_status o <> "closed") w) as Hw by exact Hw.
  simpl. infra_step. infra_step. unfold CreateWorkOrderFromPrediction. case_decide as Hd; [tauto|].
  infra_step. infra_step. infra_step. infra_step.
  set (o := mkOrder (uuid_of (w_uuids w)) (WorkOrderTitle p) (predicted_description p) ("fleet:" +:+ mp_bus p) "open" (Some bus) (Some pr)
              None None (w_now w) None).
  assert (exists g, insert_with_links insert_order_unless_open
    (fun bus pr => mkOrder (uuid_of (w_uuids w)) (WorkOrderTitle p) (predicted_description p) ("fleet:" +:+ mp_bus p) "open" bus pr
      None None (w_now w) None) (Some (mp_bus p)) (Some (mp_prediction p)) (w_db w) = Ok (tt, g) /\
    exists k o', dp_orders (g (w_db w)) !! k = Some o' /\ wo_prediction o' = Some pr /\ wo_status o' <> "closed") as (g & Hg & Hopen).
  { unfold insert_with_links, uuid_arg. rewrite Hub, Hup. simpl. fold o. unfold insert_order_unless_open.
    change (wo_id o) with (uuid_of (w_uuids w)). rewrite Hnew.
    destruct (find_row (open_clash o) (dp_orders (w_db w))) as [x|] eqn:Ef.
    - eexists. split; [done|]. apply find_row_Some in Ef as [Hcl [k Hk]]. exists k, x. split; [done|].
      unfold open_clash in Hcl. simpl in Hcl. destruct (wo_prediction x) as [y|]; [|done]. simpl in Hcl.
      case_bool_decide; simplify_eq. split; [done|]. by case_bool_decide.
    - unfold references_known. simpl. rewrite !bool_decide_eq_true_2 by done. eexists. split; [done|].
      exists (wo_id o), o. simpl. rewrite lookup_insert_eq. done. }
  eapply wp_db_exec_done; [done|exact Hg|]. unfold markCommitted. infra_step. eapply wp_led_call_done; [done|done|].
  repeat infra_step. done.
Qed.
End Predictions.

(** ** Concrete runs *)

#[local] Existing Instance test_runtime.
#[local] Existing Instance test_server.

Definition demo_order : WorkOrder := mkOrder "wo-1" "Brake check" "" "" "open" (Some "bus-a") None None None 0 None.

Definition demo_bay (id label : string) : DepotBay := mkBay id "Riverside Depot" label "parking" None "free".

Definition demo_depot : DepotDB :=
  mkDepotDB {["bay-1" := demo_bay "bay-1" "P-01"; "bay-2" := demo_bay "bay-2" "P-02"]} {["wo-1" := demo_order]}
    {["bus-a"]} {["pred-1"]}.

Definition depot_world : World DepotDB nat := mkWorld demo_depot 0%nat [] 1000 0 [] [] [].

(** A closed order can be reopened.  A start request reads the status
    [open]; the order is closed and the closing answered 200; the start then
    updates by id alone and is answered 200 too: the order is in progress with
    its closing time still on it. *)
Theorem closed_order_reopened :
  let closed := CloseWorkOrder "wo-1" depot_world in
  let started := transition_after_read "wo-1" "in_progress" None "open" closed.2 in
  status closed.1 = 200 /\ status started.1 = 200 /\
  (fun o => (wo_status o, wo_closed o)) <$> dp_orders (w_db started.2) !! "wo-1" = Some ("in_progress", Some 1000).
Proof. vm_compute. by repeat split. Qed.

(** Any uuid parks, any number of times.  A bus that is no known vehicle
    is assigned to two bays, each answered 200; the answer 422 that the handler
    has for an unknown bus needs a foreign key the table does not have. *)
Theorem unknown_bus_parks_twice :
  let first := AssignDepotBay "bay-1" (Some "bus-ghost") depot_world in
  let second := AssignDepotBay "bay-2" (Some "bus-ghost") first.2 in
  ~ "bus-ghost" ∈ dp_vehicles demo_depot /\ status first.1 = 200 /\ status second.1 = 200 /\
  by_bus <$> dp_bays (w_db second.2) !! "bay-1" = Some (Some "bus-ghost") /\
  by_bus <$> dp_bays (w_db second.2) !! "bay-2" = Some (Some "bus-ghost").
Proof. split; [by apply (bool_decide_unpack _)|]. vm_compute. by repeat split. Qed.

Lemma demo_depot_inv : depot_inv demo_depot.
Proof.
  split.
  - intros k b. unfold demo_depot. simpl. intros [[<- <-]|[_ Hk]]%lookup_insert_Some; [done|].
    by apply lookup_singleton_Some in Hk as [<- <-].
  - intros k o. simpl. intros [<- <-]%lookup_singleton_Some. split; [done|].
    split; simpl; [rewrite !elem_of_cons; tauto|split; [done|by intros [? ?]]|done].
  - intros k1 k2 o1 o2. simpl. intros [<- <-]%lookup_singleton_Some [<- <-]%lookup_singleton_Some. done.
Qed.

Definition brake_prediction : MaintenancePredicted := mkPredicted "pred-1" "bus-a" "brakes" (float_of_Z 1) "2026-01-01" "v2".

(** A start that read the order open, held up while the order is assigned and
    closed, and two predictions of the same fault. *)
Definition depot_phases : list (Z * list outcome * depot_phase) :=
  [(0, [], Whole (OpAssignOrder "wo-1" (Some (Some "ann")))); (500, [Done; LostReply], Whole (OpCloseOrder "wo-1"));
   (1000, [], AfterRead "wo-1" "in_progress" None "open");
   (2000, [LostReply], Whole (OpConsume 0 [Predicted brake_prediction; Predicted brake_prediction]))].

Lemma work_orders_follow_lifecycle_witness :
  depot_sound (w_db (run_phases depot_phases depot_world)) /\
  (forall k o, dp_orders (w_db depot_world) !! k = Some o ->
     exists o', dp_orders (w_db (run_phases (take 2 depot_phases) depot_world)) !! k = Some o' /\ order_life o o' /\
       (wo_status o = "closed" -> o' = o)) /\
  map wo_status (rows (dp_orders (w_db (run_phases depot_phases depot_world)))) = ["in_progress"; "open"].
Proof.
  split; [|split; [|vm_compute; reflexivity]].
  - apply (work_orders_follow_lifecycle depot_phases depot_world). exact demo_depot_inv.
  - apply (work_orders_follow_lifecycle (take 2 depot_phases) depot_world); [exact demo_depot_inv|]. repeat split.
Defined.

Lemma prediction_opens_order_witness :
  let w' := (consume_predictions 7 [Predicted brake_prediction] depot_world).2 in
  w_led w' = 8%nat /\
  exists k o, dp_orders (w_db w') !! k = Some o /\ wo_prediction o = Some "pred-1" /\ wo_status o <> "closed".
Proof.
  apply (prediction_opens_order 7 brake_prediction "bus-a" "pred-1" depot_world); try reflexivity; try discriminate.
  exact demo_depot_inv.
Defined.
