(* ===== verification/Keycloak.v ===== *)
(** * The Keycloak admin client

    Models services/go/admin-api/internal/keycloak: the [AdminClient]
    interface of keycloak.go, what it promises ([DirectoryLaws]: how each call
    may change the directory of accounts, whatever fails), and the in-memory
    client of simulated.go with the proof that it keeps the promise.  The HTTP
    client is in [KeycloakHttp]; onboarding and user management are proved
    against the interface. *)

From Stdlib Require Import Ascii String.
From stdpp Require Import gmap strings list.
From S2P Require Import Prelude Codec World InfraDb.

Open Scope Z_scope.
Open Scope go_scope.

(** Unicode case tables: [strings.ToLower], [strings.EqualFold] and
    PostgreSQL's [lower], with what the code relies on. *)
Class Unicode : Type := {
  ToLower : string -> string;
  EqualFold : string -> string -> bool;
  pg_lower : string -> string;
  EqualFold_refl s : EqualFold s s = true;
  EqualFold_sym s t : EqualFold s t = EqualFold t s;
  EqualFold_trans s t u : EqualFold s t = true -> EqualFold t u = true -> EqualFold s u = true
}.

Definition ascii_lower (s : string) : string :=
  string_of_list_ascii (map (fun c =>
    let n := ascii_byte c in if (65 <=? n) && (n <=? 90) then byte_ascii (n + 32) else c)
    (list_ascii_of_string s)).

(** Text in which only ASCII letters have a case, for concrete runs. *)
Definition ascii_case : Unicode.
Proof.
  refine {| ToLower := ascii_lower; EqualFold := fun s t => bool_decide (ascii_lower s = ascii_lower t);
            pg_lower := ascii_lower |}.
  - intros s. by apply bool_decide_eq_true.
  - intros s t. by apply bool_decide_ext.
  - intros s t u. rewrite !bool_decide_eq_true. congruence.
Defined.

(** ** The interface *)

Record User : Type := mkUser {
  us_ID : string; us_Username : string; us_Email : string; us_FirstName : string; us_LastName : string;
  us_Enabled : bool; us_Roles : list string }.

Record CreateUserSpec : Type := mkSpec { cs_Username : string; cs_Email : string; cs_DisplayName : string }.

Class AdminClient (S : Type) : Type := {
  CreateUser {D} : CreateUserSpec -> M D S (result (string * bool));
  SetTemporaryPassword {D} : string -> string -> M D S (result unit);
  AssignRealmRole {D} : string -> string -> M D S (result unit);
  EnsureRealmRole {D} : string -> string -> M D S (result unit);
  RevokeRealmRole {D} : string -> string -> M D S (result unit);
  SendActionsEmail {D} : string -> list string -> M D S (result unit);
  ListUsers {D} : string -> string -> Z -> M D S (result (list User));
  SetEnabled {D} : string -> bool -> M D S (result unit)
}.

(** [strings.Fields]. *)
Fixpoint fields_from (cur l : list ascii) : list string :=
  let word := match cur with [] => [] | _ => [string_of_list_ascii (rev cur)] end in
  match l with
  | [] => word
  | c :: l' => if is_space c then word ++ fields_from [] l' else fields_from (c :: cur) l'
  end.

Definition Fields (s : string) : list string := fields_from [] (list_ascii_of_string s).

Definition splitDisplayName (name : string) : string * string :=
  match rev (Fields name) with
  | [] => ("", "")
  | [w] => (w, "")
  | last :: front => (String.concat " " (rev front), last)
  end.

Example splitDisplayName_example : splitDisplayName " Ada  King Lovelace " = ("Ada King", "Lovelace").
Proof. reflexivity. Qed.

(** [strings.Contains(s, sub)]. *)
Definition Contains (s sub : string) : bool := match String.index 0 sub s with Some _ => true | None => false end.

(** ** What the interface promises

    The directory behind a client: its accounts by id, and how often a
    temporary password was set on each. *)
Record account : Type := mkAccount {
  ac_email : string; ac_enabled : bool; ac_roles : gset string; ac_resets : nat }.

Abbreviation directory := (gmap string account).

Definition add_role (role : string) (a : account) : account :=
  mkAccount (ac_email a) (ac_enabled a) ({[role]} ∪ ac_roles a) (ac_resets a).
Definition drop_role (role : string) (a : account) : account :=
  mkAccount (ac_email a) (ac_enabled a) (ac_roles a ∖ {[role]}) (ac_resets a).
Definition set_active (b : bool) (a : account) : account :=
  mkAccount (ac_email a) b (ac_roles a) (ac_resets a).
Definition reset_credentials (a : account) : account :=
  mkAccount (ac_email a) (ac_enabled a) (ac_roles a) (S (ac_resets a)).

(** The accounts that hold a role. *)
Definition holders (role : string) (d : directory) : directory := filter (fun p => role ∈ ac_roles p.2) d.

(** A call leaves everything outside the client as it was. *)
Record outside {D S} (w w' : World D S) : Prop := mkOutside {
  out_db : w_db w' = w_db w;
  out_bus : w_bus w' = w_bus w;
  out_now : w_now w' = w_now w;
  out_uuids : w_uuids w' = w_uuids w;
  out_http : w_http w' = w_http w;
  out_sent : w_sent w' = w_sent w;
  out_quiet : w_sched w = [] -> w_sched w' = []
}.

#[global] Instance outside_preorder {D S} : PreOrder (@outside D S).
Proof.
  split; [by intros w; split|]. intros w1 w2 w3 [] []. split; congruence || auto.
Qed.

(** [calls ok m P]: under any faults [m] keeps [ok] and changes only the state
    of the client, relating the state before, the result and the state after by [P]. *)
Definition calls {D S A} (ok : S -> Prop) (m : M D S A) (P : S -> A -> S -> Prop) : Prop :=
  forall w, ok (w_led w) ->
    outside w (m w).2 /\ ok (w_led (m w).2) /\ P (w_led w) (m w).1 (w_led (m w).2).

(** [m] makes the change [f] of the directory, or fails and may have made it. *)
Definition changes {S A} (dir : S -> directory) (f : directory -> directory) (s : S) (r : result A) (s' : S) : Prop :=
  dir s' = f (dir s) \/ (dir s' = dir s /\ is_ok r = false).

Definition created `{Unicode} {S} (dir : S -> directory) (defaults : gset string) (spec : CreateUserSpec)
    (s : S) (r : result (string * bool)) (s' : S) : Prop :=
  (dir s' = dir s /\
     match r with
     | Ok (id, existed) => existed = true /\ exists a, dir s !! id = Some a /\ EqualFold (ac_email a) (cs_Email spec) = true
     | Err _ => True
     end) \/
  (exists id a, dir s !! id = None /\ id <> "" /\ dir s' = <[id := a]> (dir s) /\
     EqualFold (ac_email a) (cs_Email spec) = true /\ ac_enabled a = true /\ ac_roles a = defaults /\ ac_resets a = 0%nat /\
     match r with Ok (id', existed) => id' = id /\ existed = false | Err _ => True end).

(** The listing shows each holder of the role once, with its enabled flag. *)
Definition shows (role : string) (d : directory) (us : list User) : Prop :=
  NoDup (us_ID <$> us) /\
  forall id b, (exists u, u ∈ us /\ us_ID u = id /\ us_Enabled u = b) <->
               (exists a, holders role d !! id = Some a /\ ac_enabled a = b).

Class DirectoryLaws (S : Type) `{AdminClient S} `{Unicode} : Type := {
  kc_ok : S -> Prop;
  kc_dir : S -> directory;
  kc_defaults : gset string;
  law_create {D} spec : calls kc_ok (CreateUser (D := D) spec) (created kc_dir kc_defaults spec);
  law_password {D} id pw :
    calls kc_ok (SetTemporaryPassword (D := D) id pw) (changes kc_dir (alter reset_credentials id));
  law_assign {D} id role : calls kc_ok (AssignRealmRole (D := D) id role) (changes kc_dir (alter (add_role role) id));
  law_ensure {D} id role : calls kc_ok (EnsureRealmRole (D := D) id role) (changes kc_dir (alter (add_role role) id));
  law_revoke {D} id role : calls kc_ok (RevokeRealmRole (D := D) id role) (changes kc_dir (alter (drop_role role) id));
  law_email {D} id actions : calls kc_ok (SendActionsEmail (D := D) id actions) (fun s _ s' => kc_dir s' = kc_dir s);
  law_list {D} search role max :
    calls kc_ok (ListUsers (D := D) search role max) (fun s r s' =>
      kc_dir s' = kc_dir s /\
      forall us, r = Ok us -> search = "" -> role <> "" -> 100 <= max -> (size (holders role (kc_dir s)) <= 100)%nat ->
        shows role (kc_dir s) us);
  law_enabled {D} id b : calls kc_ok (SetEnabled (D := D) id b) (changes kc_dir (alter (set_active b) id))
}.

(** When the identity provider is up, calls on accounts it has succeed. *)
Class DirectoryLive (S : Type) `{DirectoryLaws S} : Type := {
  kc_up : S -> Z -> Prop;
  kc_realm : string -> Prop;
  live_create {D} spec (w : World D S) : kc_ok (w_led w) -> kc_up (w_led w) (w_now w) -> w_sched w = [] ->
    is_ok (CreateUser spec w).1 = true /\ kc_up (w_led (CreateUser spec w).2) (w_now w);
  live_password {D} id pw (w : World D S) : kc_ok (w_led w) -> kc_up (w_led w) (w_now w) -> w_sched w = [] ->
    is_Some (kc_dir (w_led w) !! id) ->
    is_ok (SetTemporaryPassword id pw w).1 = true /\ kc_up (w_led (SetTemporaryPassword id pw w).2) (w_now w);
  live_ensure {D} id role (w : World D S) : kc_ok (w_led w) -> kc_up (w_led w) (w_now w) -> w_sched w = [] ->
    is_Some (kc_dir (w_led w) !! id) -> kc_realm role ->
    is_ok (EnsureRealmRole id role w).1 = true /\ kc_up (w_led (EnsureRealmRole id role w).2) (w_now w);
  live_email {D} id actions (w : World D S) : kc_ok (w_led w) -> kc_up (w_led w) (w_now w) -> w_sched w = [] ->
    is_Some (kc_dir (w_led w) !! id) ->
    is_ok (SendActionsEmail id actions w).1 = true /\ kc_up (w_led (SendActionsEmail id actions w).2) (w_now w)
}.

(** ** The in-memory client (simulated.go)

    Its users by id, the warnings it logged, and the number of ids it drew. *)

(** [crypto/rand.Read] of eight bytes, the n-th time. *)
Class Entropy : Type := {
  rand_bytes : nat -> list Z;
  rand_bytes_bytes n : Forall is_byte (rand_bytes n);
  rand_bytes_fresh m n : rand_bytes m = rand_bytes n -> m = n
}.

Record sim_line : Type := mkLine { ln_msg : string; ln_user : string; ln_fields : list (string * json) }.

Record simulated : Type := mkSim { sim_users : gmap string User; sim_log : list sim_line; sim_draws : nat }.

Definition newSimulated : simulated := mkSim ∅ [] 0.

Section Simulated.
Context `{Unicode} `{Entropy}.

Definition simID (n : nat) : string := "sim-" +:+ hex_encode (rand_bytes n).

Definition sim_warn (msg id : string) (fields : list (string * json)) (s : simulated) : simulated :=
  mkSim (sim_users s) (sim_log s ++ [mkLine msg id fields]) (sim_draws s).

Definition sim_put (u : User) (s : simulated) : simulated :=
  mkSim (<[us_ID u := u]> (sim_users s)) (sim_log s) (sim_draws s).

Definition sim_unknown (id : string) : error := ErrMsg ("SIMULATED keycloak: unknown user " +:+ quoted id).

Definition sim_CreateUser (spec : CreateUserSpec) (s : simulated) : result (string * bool) * simulated :=
  match find_row (fun u => EqualFold (us_Email u) (cs_Email spec)) (sim_users s) with
  | Some u => (Ok (us_ID u, true), sim_warn "user already exists, returning existing id" (us_ID u)
                                     [("email", JStr (cs_Email spec))] s)
  | None =>
      let '(first, last) := splitDisplayName (cs_DisplayName spec) in
      let u := mkUser (simID (sim_draws s)) (cs_Username spec) (cs_Email spec) first last true [] in
      (Ok (us_ID u, false),
       sim_warn "created user (no real Keycloak user was provisioned)" (us_ID u)
         [("username", JStr (us_Username u)); ("email", JStr (us_Email u))]
         (sim_put u (mkSim (sim_users s) (sim_log s) (sim_draws s + 1)%nat)))
  end.

Definition sim_SetTemporaryPassword (id : string) (s : simulated) : result unit * simulated :=
  match sim_users s !! id with
  | None => (Err (sim_unknown id), s)
  | Some _ => (Ok tt, sim_warn "temporary password set" id [] s)
  end.

Definition with_roles (u : User) (roles : list string) : User :=
  mkUser (us_ID u) (us_Username u) (us_Email u) (us_FirstName u) (us_LastName u) (us_Enabled u) roles.

Definition contains (xs : list string) (want : string) : bool := existsb (String.eqb want) xs.

Definition sim_AssignRealmRole (id role : string) (s : simulated) : result unit * simulated :=
  match sim_users s !! id with
  | None => (Err (sim_unknown id), s)
  | Some u =>
      if contains (us_Roles u) role then (Ok tt, s)
      else (Ok tt, sim_warn "assigned realm role" id [("role", JStr role)] (sim_put (with_roles u (us_Roles u ++ [role])) s))
  end.

Definition sim_RevokeRealmRole (id role : string) (s : simulated) : result unit * simulated :=
  match sim_users s !! id with
  | None => (Err (sim_unknown id), s)
  | Some u =>
      (Ok tt, sim_warn "revoked realm role" id [("role", JStr role)]
                (sim_put (with_roles u (filter (fun r => r <> role) (us_Roles u))) s))
  end.

Definition sim_SendActionsEmail (id : string) (actions : list string) (s : simulated) : result unit * simulated :=
  match sim_users s !! id with
  | None => (Err (sim_unknown id), s)
  | Some _ => (Ok tt, sim_warn "execute-actions email sent" id [("actions", JList (map JStr actions))] s)
  end.

Definition sim_matches (search role : string) (u : User) : bool :=
  (bool_decide (role = "") || contains (us_Roles u) role) &&
  (bool_decide (search = "") || Contains (ToLower (us_Username u +:+ " " +:+ us_Email u)) (ToLower search)).

Definition sim_ListUsers (search role : string) (max : Z) (s : simulated) : result (list User) * simulated :=
  let out := order_text us_Username (filter (fun u => sim_matches search role u = true) (rows (sim_users s))) in
  (Ok (if (0 <? max) && (max <? Z.of_nat (length out)) then take (Z.to_nat max) out else out), s).

Definition sim_SetEnabled (id : string) (enabled : bool) (s : simulated) : result unit * simulated :=
  match sim_users s !! id with
  | None => (Err (sim_unknown id), s)
  | Some u =>
      (Ok tt, sim_warn "user enabled flag changed" id [("enabled", JBool enabled)]
                (sim_put (mkUser (us_ID u) (us_Username u) (us_Email u) (us_FirstName u) (us_LastName u) enabled (us_Roles u)) s))
  end.

(** A call on memory cannot fail in transport. *)
Definition in_memory {D A} (f : simulated -> A * simulated) : M D simulated A :=
  fun w => let '(r, s) := f (w_led w) in (r, with_led s w).

#[export] Instance simulated_client : AdminClient simulated := {
  CreateUser D spec := in_memory (sim_CreateUser spec);
  SetTemporaryPassword D id _ := in_memory (sim_SetTemporaryPassword id);
  AssignRealmRole D id role := in_memory (sim_AssignRealmRole id role);
  EnsureRealmRole D id role := in_memory (sim_AssignRealmRole id role);
  RevokeRealmRole D id role := in_memory (sim_RevokeRealmRole id role);
  SendActionsEmail D id actions := in_memory (sim_SendActionsEmail id actions);
  ListUsers D search role max := in_memory (sim_ListUsers search role max);
  SetEnabled D id b := in_memory (sim_SetEnabled id b)
}.

(** *** It keeps the promise *)

Definition resets_of (log : list sim_line) (id : string) : nat :=
  length (filter (fun l => ln_msg l = "temporary password set" /\ ln_user l = id) log).

Definition sim_view (log : list sim_line) (u : User) : account :=
  mkAccount (us_Email u) (us_Enabled u) (list_to_set (us_Roles u)) (resets_of log (us_ID u)).

Definition sim_dir (s : simulated) : directory := sim_view (sim_log s) <$> sim_users s.

Record sim_ok (s : simulated) : Prop := mkSimOk {
  so_key id u : sim_users s !! id = Some u -> us_ID u = id;
  so_drawn id : is_Some (sim_users s !! id) -> exists n, (n < sim_draws s)%nat /\ id = simID n;
  so_logged l : l ∈ sim_log s -> is_Some (sim_users s !! ln_user l)
}.

Lemma simID_inj m n : simID m = simID n -> m = n.
Proof.
  unfold simID. intros E. apply rand_bytes_fresh, hex_encode_inj; [apply rand_bytes_bytes..|].
  by injection E.
Qed.

Lemma simID_undrawn s : sim_ok s -> sim_users s !! simID (sim_draws s) = None.
Proof.
  intros [_ Hd _]. apply eq_None_not_Some. intros (n & Hn & E)%Hd. apply simID_inj in E. lia.
Qed.

Lemma resets_of_app log log' id : resets_of (log ++ log') id = (resets_of log id + resets_of log' id)%nat.
Proof. unfold resets_of. by rewrite list.filter_app, length_app. Qed.

Lemma resets_of_other log msg id' fields id :
  msg <> "temporary password set" -> resets_of (log ++ [mkLine msg id' fields]) id = resets_of log id.
Proof. intros Hm. rewrite resets_of_app. unfold resets_of at 2. rewrite filter_cons_False by naive_solver. simpl. lia. Qed.

Lemma contains_spec xs r : contains xs r = true <-> r ∈ xs.
Proof.
  unfold contains. rewrite existsb_exists. setoid_rewrite String.eqb_eq. setoid_rewrite <- list_elem_of_In. naive_solver.
Qed.

Lemma sim_dir_warn msg id fields s : msg <> "temporary password set" -> sim_dir (sim_warn msg id fields s) = sim_dir s.
Proof.
  intros Hm. unfold sim_dir. simpl. apply map_fmap_ext. intros k u _. unfold sim_view. by rewrite resets_of_other.
Qed.

Lemma sim_dir_put (f : account -> account) s id u u' :
  sim_users s !! id = Some u -> us_ID u' = id -> us_ID u = id ->
  (forall log, sim_view log u' = f (sim_view log u)) -> sim_dir (sim_put u' s) = alter f id (sim_dir s).
Proof.
  intros Hu Hid Hid' Hf. unfold sim_dir. simpl. rewrite Hid. apply map_eq. intros k. destruct (decide (k = id)) as [->|Hne].
  - by rewrite lookup_fmap, lookup_insert_eq, lookup_alter_eq, lookup_fmap, Hu; simpl; rewrite Hf.
  - by rewrite lookup_alter_ne, !lookup_fmap, lookup_insert_ne by done.
Qed.

Lemma sim_dir_absent f s id : sim_users s !! id = None -> alter f id (sim_dir s) = sim_dir s.
Proof. intros Hn. apply alter_id. intros a. unfold sim_dir. by rewrite lookup_fmap, Hn. Qed.

Lemma sim_dir_password s id : sim_ok s -> is_Some (sim_users s !! id) ->
  sim_dir (sim_warn "temporary password set" id [] s) = alter reset_credentials id (sim_dir s).
Proof.
  intros [Hk _ _] [u Hu]. unfold sim_dir. simpl. apply map_eq. intros k. destruct (decide (k = id)) as [->|Hne].
  - rewrite lookup_alter_eq, !lookup_fmap, Hu. simpl. unfold sim_view, reset_credentials. simpl. do 2 f_equal.
    rewrite resets_of_app, (Hk _ _ Hu). unfold resets_of at 2. rewrite filter_cons_True by done. simpl. lia.
  - rewrite lookup_alter_ne, !lookup_fmap by done. destruct (sim_users s !! k) as [v|] eqn:E; [|done]. simpl. f_equal.
    unfold sim_view. f_equal. rewrite resets_of_app. unfold resets_of at 2.
    rewrite filter_cons_False by (rewrite (Hk _ _ E); simpl; naive_solver). simpl. lia.
Qed.

Lemma sim_ok_warn msg id fields s : sim_ok s -> is_Some (sim_users s !! id) -> sim_ok (sim_warn msg id fields s).
Proof.
  intros [Hk Hd Hl] Hi. split; simpl; [done|done|]. intros l [Hin| ->%list_elem_of_singleton]%elem_of_app; simpl; auto.
Qed.

Lemma sim_ok_put s id u u' : sim_ok s -> sim_users s !! id = Some u -> us_ID u' = id -> sim_ok (sim_put u' s).
Proof.
  intros [Hk Hd Hl] Hu Hid. split; simpl; rewrite Hid.
  - intros k v [[<- <-]|[? ?]]%lookup_insert_Some; eauto.
  - intros k Hs. destruct (decide (k = id)) as [->|Hne]; [apply Hd; eauto|]. rewrite lookup_insert_ne in Hs by done. auto.
  - intros l Hl'. destruct (decide (ln_user l = id)) as [->|Hne]; [rewrite lookup_insert_eq; eauto|].
    rewrite lookup_insert_ne by done. auto.
Qed.

Lemma calls_memory {D A} (f : simulated -> A * simulated) (P : simulated -> A -> simulated -> Prop) :
  (forall s, sim_ok s -> sim_ok (f s).2 /\ P s (f s).1 (f s).2) -> calls sim_ok (in_memory (D := D) f) P.
Proof.
  intros Hf w Hok. specialize (Hf _ Hok). unfold in_memory. destruct (f (w_led w)) as [r s]. simpl in *.
  split; [by split|done].
Qed.

Lemma memory_ok {A} (f : simulated -> A * simulated) P s : calls sim_ok (in_memory (D := unit) f) P -> sim_ok s -> sim_ok (f s).2.
Proof.
  intros Hc Hs. destruct (Hc (mkWorld tt s [] 0 0 [] [] []) Hs) as (_ & Hok & _). unfold in_memory in Hok. simpl in Hok.
  by destruct (f s).
Qed.

(** The calls that rewrite one user. *)
Lemma sim_update (f : account -> account) s id u u' msg fields :
  sim_ok s -> sim_users s !! id = Some u -> us_ID u' = us_ID u -> msg <> "temporary password set" ->
  (forall log, sim_view log u' = f (sim_view log u)) ->
  sim_ok (sim_warn msg id fields (sim_put u' s)) /\
  sim_dir (sim_warn msg id fields (sim_put u' s)) = alter f id (sim_dir s).
Proof.
  intros Hok Hu Hid Hm Hf. pose proof (so_key _ Hok _ _ Hu) as Hk. split.
  - apply sim_ok_warn; [eapply sim_ok_put; eauto; congruence|]. simpl. rewrite Hid, Hk, lookup_insert_eq. eauto.
  - rewrite sim_dir_warn by done. eapply sim_dir_put; eauto. congruence.
Qed.

Lemma sim_assign_law {D} id role :
  calls sim_ok (in_memory (D := D) (sim_AssignRealmRole id role)) (changes sim_dir (alter (add_role role) id)).
Proof.
  apply calls_memory. intros s Hok. unfold sim_AssignRealmRole, changes.
  destruct (sim_users s !! id) as [u|] eqn:Hu; simpl; [|split; [done|by right]].
  destruct (contains (us_Roles u) role) eqn:Hc; simpl.
  - split; [done|]. left. symmetry. apply alter_id. unfold sim_dir. intros a. rewrite lookup_fmap, Hu. intros [= <-].
    apply contains_spec in Hc. unfold add_role, sim_view. simpl. f_equal. set_solver.
  - destruct (sim_update (add_role role) s id u (with_roles u (us_Roles u ++ [role])) "assigned realm role"
                [("role", JStr role)] Hok Hu eq_refl) as [? ?]; [done| |split; [done|by left]].
    intros log. unfold sim_view, add_role. simpl. f_equal. set_solver.
Qed.

Lemma sim_revoke_law {D} id role :
  calls sim_ok (in_memory (D := D) (sim_RevokeRealmRole id role)) (changes sim_dir (alter (drop_role role) id)).
Proof.
  apply calls_memory. intros s Hok. unfold sim_RevokeRealmRole, changes.
  destruct (sim_users s !! id) as [u|] eqn:Hu; simpl; [|split; [done|by right]].
  destruct (sim_update (drop_role role) s id u (with_roles u (filter (fun r => r <> role) (us_Roles u))) "revoked realm role"
              [("role", JStr role)] Hok Hu eq_refl) as [? ?]; [done| |split; [done|by left]].
  intros log. unfold sim_view, drop_role. simpl. f_equal. apply set_eq. intros r.
  rewrite elem_of_difference, !elem_of_list_to_set, list_elem_of_filter, elem_of_singleton. naive_solver.
Qed.

Lemma sim_enabled_law {D} id b :
  calls sim_ok (in_memory (D := D) (sim_SetEnabled id b)) (changes sim_dir (alter (set_active b) id)).
Proof.
  apply calls_memory. intros s Hok. unfold sim_SetEnabled, changes.
  destruct (sim_users s !! id) as [u|] eqn:Hu; simpl; [|split; [done|by right]].
  destruct (sim_update (set_active b) s id u
              (mkUser (us_ID u) (us_Username u) (us_Email u) (us_FirstName u) (us_LastName u) b (us_Roles u))
              "user enabled flag changed" [("enabled", JBool b)] Hok Hu eq_refl) as [? ?]; [done|done|split; [done|by left]].
Qed.

Lemma sim_create_law {D} spec :
  calls sim_ok (in_memory (D := D) (sim_CreateUser spec)) (created sim_dir ∅ spec).
Proof.
  apply calls_memory. intros s Hok. unfold sim_CreateUser, created.
  destruct (find_row _ _) as [u|] eqn:Hf; [apply (find_row_Some (V := User)) in Hf as [He (k & Hk)]|].
  - pose proof (so_key _ Hok _ _ Hk) as <-. simpl. split; [apply sim_ok_warn; eauto|]. left. rewrite sim_dir_warn by done.
    split; [done|]. split; [done|]. unfold sim_dir. rewrite lookup_fmap, Hk. by eexists.
  - destruct (splitDisplayName _) as [first last]. simpl. set (u := mkUser _ _ _ _ _ _ _).
    pose proof (simID_undrawn _ Hok) as Hn. set (s1 := mkSim (sim_users s) (sim_log s) (sim_draws s + 1)).
    assert (sim_ok (sim_put u s1)) as Hok1.
    { destruct Hok as [Hk Hd Hl]. split; simpl.
      - by intros k v [[<- <-]|[? ?]]%lookup_insert_Some; eauto.
      - intros k Hs. destruct (decide (k = simID (sim_draws s))) as [->|Hne]; [exists (sim_draws s); split; [lia|done]|].
        rewrite lookup_insert_ne in Hs by done. destruct (Hd k Hs) as (n & ? & ?). exists n. split; [lia|done].
      - intros l Hin. destruct (Hl l Hin) as [v Hv]. rewrite lookup_insert_ne by congruence. eauto. }
    split; [apply sim_ok_warn; [done|simpl; rewrite lookup_insert_eq; eauto]|]. right.
    exists (simID (sim_draws s)), (sim_view (sim_log s) u). unfold sim_dir at 1. rewrite lookup_fmap, Hn.
    split; [done|]. split; [done|]. split.
    { rewrite sim_dir_warn by done. unfold sim_dir. simpl. by rewrite fmap_insert. }
    split; [apply EqualFold_refl|]. split; [done|]. split; [done|]. split; [|done].
    unfold sim_view, resets_of. simpl. destruct (filter _ _) as [|l ls] eqn:El; [done|].
    assert (l ∈ sim_log s) as Hin by (eapply (list_elem_of_filter (fun l => ln_msg l = "temporary password set" /\ ln_user l = simID (sim_draws s))); rewrite El; left).
    assert (ln_user l = simID (sim_draws s)) as Hl.
    { eapply (list_elem_of_filter (fun l => ln_msg l = "temporary password set" /\ ln_user l = simID (sim_draws s))). rewrite El. left. }
    apply (so_logged _ Hok) in Hin as [v Hv]. congruence.
Qed.

(** The ids of some rows, each once. *)
Lemma sim_ids_nodup s (P : User -> Prop) `{forall u, Decision (P u)} :
  sim_ok s -> NoDup (us_ID <$> filter P (rows (sim_users s))).
Proof.
  intros Hok. eapply sublist_NoDup; [|apply fmap_sublist, sublist_filter].
  assert (us_ID <$> rows (sim_users s) = (map_to_list (sim_users s)).*1) as ->; [|apply NoDup_fst_map_to_list].
  unfold rows. rewrite <- list_fmap_compose. apply list_fmap_ext. intros i [k u] Hi. simpl.
  apply (so_key _ Hok). apply elem_of_map_to_list. by eapply list_elem_of_lookup_2.
Qed.

Lemma sim_holders s role id :
  holders role (sim_dir s) !! id = match sim_users s !! id with
                                   | Some u => if decide (role ∈ us_Roles u) then Some (sim_view (sim_log s) u) else None
                                   | None => None
                                   end.
Proof.
  unfold holders. rewrite map_lookup_filter. unfold sim_dir. rewrite lookup_fmap.
  destruct (sim_users s !! id) as [u|]; simpl; [|done]. unfold sim_view at 1. simpl.
  case_guard as Hg; case_decide as Hd; simpl; try done; by rewrite elem_of_list_to_set in Hg.
Qed.

Lemma sim_list_law {D} search role max :
  calls sim_ok (in_memory (D := D) (sim_ListUsers search role max)) (fun s r s' =>
    sim_dir s' = sim_dir s /\
    forall us, r = Ok us -> search = "" -> role <> "" -> 100 <= max -> (size (holders role (sim_dir s)) <= 100)%nat ->
      shows role (sim_dir s) us).
Proof.
  apply calls_memory. intros s Hok. unfold sim_ListUsers. split; [done|]. split; [done|]. cbn [fst].
  intros us [= <-] -> Hr Hmax Hsz.
  assert (forall u, sim_matches "" role u = true <-> role ∈ us_Roles u) as Hm.
  { intros u. unfold sim_matches. rewrite bool_decide_false by done. simpl. rewrite andb_true_r. apply contains_spec. }
  set (l := filter _ _).
  assert (forall u, u ∈ l <-> role ∈ us_Roles u /\ sim_users s !! us_ID u = Some u) as Hl.
  { intros u. unfold l. rewrite list_elem_of_filter, Hm, elem_of_rows. split; intros [? Hu]; (split; [done|]); [|eauto].
    destruct Hu as [k Hk]. by rewrite (so_key _ Hok _ _ Hk). }
  pose proof (order_text_perm us_Username l) as Hp. pose proof (sim_ids_nodup s (fun u => sim_matches "" role u = true) Hok) as Hnd.
  fold l in Hnd. assert (length l <= 100)%nat as Hlen.
  { rewrite <- (length_fmap us_ID), <- (size_list_to_set (C := gset string)) by done. etransitivity; [|apply Hsz].
    rewrite <- (size_dom (D := gset string)). apply subseteq_size. intros id (u & -> & Hu)%elem_of_list_to_set%list_elem_of_fmap.
    apply Hl in Hu as [Hr' Hu]. apply elem_of_dom. rewrite sim_holders, Hu, decide_True by done. by eexists. }
  rewrite (proj2 (Z.ltb_ge max (Z.of_nat (length (order_text us_Username l))))) by (rewrite (Permutation_length Hp); lia).
  rewrite andb_false_r.
  split; [by rewrite Hp|]. intros id b. split.
  - intros (u & Hu & <- & <-). rewrite Hp in Hu. apply Hl in Hu as [Hr' Hu].
    exists (sim_view (sim_log s) u). split; [|done]. by rewrite sim_holders, Hu, decide_True by done.
  - intros (a & Ha & <-). rewrite sim_holders in Ha. destruct (sim_users s !! id) as [u|] eqn:Hu; [|done].
    case_decide; [|done]. injection Ha as <-. pose proof (so_key _ Hok _ _ Hu) as Hk. exists u.
    split; [|done]. rewrite Hp. apply Hl. split; [done|congruence].
Qed.

#[export] Instance simulated_laws : DirectoryLaws simulated.
Proof.
  refine {| kc_ok := sim_ok; kc_dir := sim_dir; kc_defaults := ∅ |}.
  - intros D spec. apply sim_create_law.
  - intros D id pw. apply calls_memory. intros s Hok. unfold sim_SetTemporaryPassword, changes.
    destruct (sim_users s !! id) as [u|] eqn:Hu; simpl; [|split; [done|by right]].
    split; [apply sim_ok_warn; eauto|left; apply sim_dir_password; eauto].
  - intros D id role. apply sim_assign_law.
  - intros D id role. apply sim_assign_law.
  - intros D id role. apply sim_revoke_law.
  - intros D id actions. apply calls_memory. intros s Hok. unfold sim_SendActionsEmail.
    destruct (sim_users s !! id) as [u|] eqn:Hu; simpl; [|done].
    split; [apply sim_ok_warn; eauto|by apply sim_dir_warn].
  - intros D search role max. apply sim_list_law.
  - intros D id b. apply sim_enabled_law.
Defined.

(** Memory is always up, and knows every role. *)
#[export] Instance simulated_live : DirectoryLive simulated.
Proof.
  refine {| kc_up := fun _ _ => True; kc_realm := fun _ => True |}.
  - intros D spec w _ _ _. split; [|done]. simpl. unfold in_memory, sim_CreateUser.
    destruct (find_row _ _); [done|]. by destruct (splitDisplayName _).
  - intros D id pw w _ _ _ [a Ha]. split; [|done]. simpl in *. unfold sim_dir in Ha. rewrite lookup_fmap in Ha.
    unfold in_memory, sim_SetTemporaryPassword. by destruct (sim_users _ !! id).
  - intros D id role w _ _ _ [a Ha] _. split; [|done]. simpl in *. unfold sim_dir in Ha. rewrite lookup_fmap in Ha.
    unfold in_memory, sim_AssignRealmRole. destruct (sim_users _ !! id) as [u|]; [|done]. by destruct (contains _ _).
  - intros D id actions w _ _ _ [a Ha]. split; [|done]. simpl in *. unfold sim_dir in Ha. rewrite lookup_fmap in Ha.
    unfold in_memory, sim_SendActionsEmail. by destruct (sim_users _ !! id).
Defined.
End Simulated.
