(* ===== verification/KeycloakHttp.v ===== *)
(** * The HTTP admin client

    Models the client of services/go/admin-api/internal/keycloak/keycloak.go:
    its token cache and its calls on the Keycloak Admin REST API, and proves
    that it keeps the promise of [Keycloak.DirectoryLaws].  The server is a
    parameter ([KeycloakServer]) with the documented behaviour of its
    endpoints ([KeycloakLaws]); any call can fail with or without effect.

    A request is its endpoint with the values the code puts in the path, the
    query and the body; [net/url]'s escaping is not modelled.  The text that
    [fmt.Errorf] wraps around an error is only logged and left out. *)

From Stdlib Require Import Ascii String.
From stdpp Require Import gmap strings list pretty.
From S2P Require Import Prelude Codec World InfraDb Keycloak.

Open Scope Z_scope.
Open Scope go_scope.

Record kcRoleRep : Type := mkRoleRep { rr_id : string; rr_name : string }.

Record kcUserRep : Type := mkUserRep {
  ur_id : string; ur_username : string; ur_email : string; ur_first : string; ur_last : string; ur_enabled : bool }.

Inductive kc_request : Type :=
| PostUsers (rep : list (string * json))                  (* POST /users *)
| GetUsersByEmail (email : string)                        (* GET /users?email=..&exact=true *)
| PutResetPassword (id : string) (cred : list (string * json))
| GetRole (role : string)                                 (* GET /roles/{role} *)
| PostRoleMappings (id : string) (reps : list kcRoleRep)
| DeleteRoleMappings (id : string) (reps : list kcRoleRep)
| GetRoleMappings (id : string)
| PutActionsEmail (id : string) (actions : list string)
| GetRoleUsers (role : string) (max : Z)                  (* GET /roles/{role}/users?first=0&max=.. *)
| GetUsers (search : string) (max : Z)                    (* GET /users?first=0&max=..&search=.. *)
| GetUser (id : string)
| PutUser (id : string) (rep : list (string * json)).

Record kc_reply : Type := mkReply { ry_code : Z; ry_location : string; ry_doc : option json }.

(** The token endpoint and the Admin REST API, at an instant; an admin call
    carries a bearer token. *)
Class KeycloakServer (K : Type) : Type := {
  kc_token : Z -> string -> string -> K -> kc_reply * K;
  kc_serve : Z -> string -> kc_request -> K -> kc_reply * K
}.

(** ** Decoding replies *)

Definition dec_bool (o : list (string * json)) (k : string) : option bool :=
  match jget k o with
  | None | Some JNull => Some false
  | Some (JBool b) => Some b
  | _ => None
  end.

Definition dec_int (o : list (string * json)) (k : string) : option Z :=
  match jget k o with
  | None | Some JNull => Some 0
  | Some (JInt z) => if in_int8 z then Some z else None
  | _ => None
  end.

Fixpoint dec_all {A} (dec : json -> option A) (l : list json) : option (list A) :=
  match l with
  | [] => Some []
  | j :: l' => a ← dec j; rest ← dec_all dec l'; Some (a :: rest)
  end.

Definition dec_array {A} (dec : json -> option A) (doc : option json) : option (list A) :=
  match doc with
  | Some JNull => Some []
  | Some (JList l) => dec_all dec l
  | _ => None
  end.

Definition dec_user (j : json) : option kcUserRep :=
  o ← doc_obj j;
  id ← dec_str o "id"; username ← dec_str o "username"; email ← dec_str o "email";
  first ← dec_str o "firstName"; last ← dec_str o "lastName"; enabled ← dec_bool o "enabled";
  Some (mkUserRep id username email first last enabled).

Definition dec_role (j : json) : option kcRoleRep :=
  o ← doc_obj j; id ← dec_str o "id"; name ← dec_str o "name"; Some (mkRoleRep id name).

Definition dec_users : option json -> option (list kcUserRep) := dec_array dec_user.
Definition dec_roles : option json -> option (list kcRoleRep) := dec_array dec_role.

Definition dec_token (doc : option json) : option (string * Z) :=
  j ← doc; o ← doc_obj j; tok ← dec_str o "access_token"; e ← dec_int o "expires_in"; Some (tok, e).

(** [loc[strings.LastIndex(loc, "/")+1:]]. *)
Definition after_last_slash (loc : string) : string := List.last (Split loc "/") "".

(** ** The client *)

Record httpClient (K : Type) : Type := mkHttpClient {
  hc_clientID : string; hc_clientSecret : string; hc_token : string; hc_tokenExpr : Z; hc_server : K }.
Arguments mkHttpClient {K} _ _ _ _ _.
Arguments hc_clientID {K} _.
Arguments hc_clientSecret {K} _.
Arguments hc_token {K} _.
Arguments hc_tokenExpr {K} _.
Arguments hc_server {K} _.

Definition with_server {K} (k : K) (c : httpClient K) : httpClient K :=
  mkHttpClient (hc_clientID c) (hc_clientSecret c) (hc_token c) (hc_tokenExpr c) k.

Definition with_token {K} (tok : string) (expr : Z) (c : httpClient K) : httpClient K :=
  mkHttpClient (hc_clientID c) (hc_clientSecret c) tok expr (hc_server c).

Section Client.
Context {K D : Type} `{KeycloakServer K}.

Abbreviation HM := (M D (httpClient K)).

(** Send one request to the server. *)
Definition to_server (f : K -> kc_reply * K) : HM (result kc_reply) :=
  led_call (fun c => let '(r, k) := f (hc_server c) in (Ok r, with_server k c)).

Definition status_error (what : string) (r : kc_reply) : error := ErrMsg (what +:+ ": status " +:+ pretty (ry_code r)).

Definition remember_token (tok : string) (expr : Z) : HM unit :=
  fun w => (tt, with_led (with_token tok expr (w_led w)) w).

(** [time.Duration(ExpiresIn-30) * time.Second] in int64 nanoseconds, as milliseconds. *)
Definition token_life (expires_in : Z) : Z := wrap_i64 (wrap_i64 (expires_in - 30) * 1000000000) / 1000000.

Definition accessToken : HM (result string) :=
  let! now := gets w_now in
  let! c := gets w_led in
  if negb (bool_decide (hc_token c = "")) && (now <? hc_tokenExpr c) then gret (Ok (hc_token c))
  else
    try! r := to_server (kc_token now (hc_clientID c) (hc_clientSecret c)) catch e => gret (Err e) in
    if negb (ry_code r =? 200) then gret (Err (status_error "keycloak token request" r))
    else
      match dec_token (ry_doc r) with
      | None => gret (Err (ErrMsg "keycloak token decode"))
      | Some (tok, expires_in) =>
          if bool_decide (tok = "") then gret (Err (ErrMsg "keycloak token response had empty access_token"))
          else
            do! remember_token tok (now + token_life expires_in) in
            gret (Ok tok)
      end.

Definition kc_do (rq : kc_request) : HM (result kc_reply) :=
  try! tok := accessToken catch e => gret (Err e) in
  let! now := gets w_now in
  to_server (kc_serve now tok rq).

Definition findUserIDByEmail (email : string) : HM (result string) :=
  try! r := kc_do (GetUsersByEmail email) catch e => gret (Err e) in
  if negb (ry_code r =? 200) then gret (Err (status_error "lookup user by email" r))
  else
    match dec_users (ry_doc r) with
    | None => gret (Err (ErrMsg "json"))
    | Some [] => gret (Err (ErrMsg ("no user with email " +:+ quoted email)))
    | Some (u :: _) => gret (Ok (ur_id u))
    end.

Definition http_CreateUser (spec : CreateUserSpec) : HM (result (string * bool)) :=
  let '(first, last) := splitDisplayName (cs_DisplayName spec) in
  let rep := [("username", JStr (cs_Username spec)); ("email", JStr (cs_Email spec)); ("firstName", JStr first);
              ("lastName", JStr last); ("enabled", JBool true)] in
  try! r := kc_do (PostUsers rep) catch e => gret (Err e) in
  if ry_code r =? 201 then
    let id := after_last_slash (ry_location r) in
    if bool_decide (id = "") then gret (Err (ErrMsg "create user: 201 without Location header"))
    else gret (Ok (id, false))
  else if ry_code r =? 409 then
    try! id := findUserIDByEmail (cs_Email spec) catch e => gret (Err e) in
    gret (Ok (id, true))
  else gret (Err (status_error "create user" r)).

(** The calls that expect 204. *)
Definition expect_done (what : string) (rq : kc_request) : HM (result unit) :=
  try! r := kc_do rq catch e => gret (Err e) in
  gret (if ry_code r =? 204 then Ok tt else Err (status_error what r)).

Definition http_SetTemporaryPassword (id pw : string) : HM (result unit) :=
  expect_done "reset-password"
    (PutResetPassword id [("type", JStr "password"); ("value", JStr pw); ("temporary", JBool true)]).

Definition roleRep (role : string) : HM (result kcRoleRep) :=
  try! r := kc_do (GetRole role) catch e => gret (Err e) in
  if negb (ry_code r =? 200) then gret (Err (status_error ("get role " +:+ quoted role) r))
  else gret (match j ← ry_doc r; dec_role j with Some rep => Ok rep | None => Err (ErrMsg "json") end).

Definition http_AssignRealmRole (id role : string) : HM (result unit) :=
  try! rep := roleRep role catch e => gret (Err e) in
  expect_done "assign role" (PostRoleMappings id [rep]).

Definition http_RevokeRealmRole (id role : string) : HM (result unit) :=
  try! rep := roleRep role catch e => gret (Err e) in
  expect_done "revoke role" (DeleteRoleMappings id [rep]).

Definition userRoles (id : string) : HM (result (list string)) :=
  try! r := kc_do (GetRoleMappings id) catch e => gret (Err e) in
  if negb (ry_code r =? 200) then gret (Err (status_error "role-mappings" r))
  else gret (match dec_roles (ry_doc r) with Some reps => Ok (map rr_name reps) | None => Err (ErrMsg "json") end).

Definition http_EnsureRealmRole (id role : string) : HM (result unit) :=
  try! roles := userRoles id catch e => gret (Err e) in
  if contains roles role then gret (Ok tt) else http_AssignRealmRole id role.

Definition http_SendActionsEmail (id : string) (actions : list string) : HM (result unit) :=
  expect_done "execute-actions-email" (PutActionsEmail id actions).

(** The loop of [ListUsers] over the representations. *)
Fixpoint list_loop `{Unicode} (search role : string) (reps : list kcUserRep) : HM (list User) :=
  match reps with
  | [] => gret []
  | rep :: rest =>
      if negb (bool_decide (search = "")) && negb (bool_decide (role = "")) &&
         negb (Contains (ToLower (ur_username rep +:+ " " +:+ ur_email rep)) (ToLower search))
      then list_loop search role rest
      else
        let! roles := userRoles (ur_id rep) in
        let roles := match roles with Ok roles => roles | Err _ => [] end in
        let! us := list_loop search role rest in
        gret (mkUser (ur_id rep) (ur_username rep) (ur_email rep) (ur_first rep) (ur_last rep) (ur_enabled rep) roles :: us)
  end.

Definition http_ListUsers `{Unicode} (search role : string) (max : Z) : HM (result (list User)) :=
  let max := if (max <=? 0) || (500 <? max) then 100 else max in
  try! r := kc_do (if bool_decide (role = "") then GetUsers search max else GetRoleUsers role max) catch e => gret (Err e) in
  if negb (ry_code r =? 200) then gret (Err (status_error "list users" r))
  else
    match dec_users (ry_doc r) with
    | None => gret (Err (ErrMsg "list users decode"))
    | Some reps => let! us := list_loop search role reps in gret (Ok us)
    end.

(** Fetch the representation, flip [enabled], put it back.  A null document
    would panic on the assignment; here it is an error. *)
Definition http_SetEnabled (id : string) (enabled : bool) : HM (result unit) :=
  try! r := kc_do (GetUser id) catch e => gret (Err e) in
  if negb (ry_code r =? 200) then gret (Err (status_error "get user" r))
  else
    match ry_doc r with
    | Some (JObj rep) => expect_done "update user" (PutUser id (jset "enabled" (JBool enabled) rep))
    | _ => gret (Err (ErrMsg "get user decode"))
    end.
End Client.

#[export] Instance http_client {K} `{KeycloakServer K} `{Unicode} : AdminClient (httpClient K) := {
  CreateUser D := http_CreateUser;
  SetTemporaryPassword D := http_SetTemporaryPassword;
  AssignRealmRole D := http_AssignRealmRole;
  EnsureRealmRole D := http_EnsureRealmRole;
  RevokeRealmRole D := http_RevokeRealmRole;
  SendActionsEmail D := http_SendActionsEmail;
  ListUsers D := http_ListUsers;
  SetEnabled D := http_SetEnabled
}.

(** [New]: without credentials only the explicit opt-in gives the in-memory client. *)
Definition New {K} (clientID clientSecret h2_simulated_keycloak : string) (k : K) : result (simulated + httpClient K) :=
  if bool_decide (clientID = "") || bool_decide (clientSecret = "") then
    if negb (bool_decide (h2_simulated_keycloak = "true")) then Err (ErrMsg "KEYCLOAK_ADMIN_CLIENT_ID/SECRET are required")
    else Ok (inl newSimulated)
  else Ok (inr (mkHttpClient clientID clientSecret "" 0 k)).

(** ** What the code relies on from Keycloak

    Reads and the actions e-mail change no account; a write either answers its
    success code and took effect, or answers something else and did not; names
    and ids in a reply are those of the realm. *)

Definition reads (rq : kc_request) : bool :=
  match rq with
  | GetUsersByEmail _ | GetRole _ | GetRoleMappings _ | PutActionsEmail _ _ | GetRoleUsers _ _ | GetUsers _ _ | GetUser _ => true
  | _ => false
  end.

(** A write: its success code with the change [f], or another code and no change. *)
Definition written (code : Z) (f : directory -> directory) (r : kc_reply) (d d' : directory) : Prop :=
  d' = f d \/ (d' = d /\ ry_code r <> code).

Class KeycloakLaws (K : Type) `{KeycloakServer K} `{Unicode} : Type := {
  sv_ok : K -> Prop;
  sv_dir : K -> directory;
  sv_defaults : gset string;
  sv_genuine : kcRoleRep -> Prop;
  sv_token_ok now id secret k : sv_ok k -> sv_ok (kc_token now id secret k).2 /\ sv_dir (kc_token now id secret k).2 = sv_dir k;
  sv_serve_ok now tok rq k : sv_ok k -> sv_ok (kc_serve now tok rq k).2;
  sv_reads now tok rq k : sv_ok k -> reads rq = true -> sv_dir (kc_serve now tok rq k).2 = sv_dir k;
  sv_post_users now tok rep email k r k' : sv_ok k -> jget "email" rep = Some (JStr email) -> jget "enabled" rep = Some (JBool true) ->
    kc_serve now tok (PostUsers rep) k = (r, k') ->
    (sv_dir k' = sv_dir k /\ ry_code r <> 201) \/
    (exists id a, sv_dir k !! id = None /\ id <> "" /\ sv_dir k' = <[id := a]> (sv_dir k) /\
       EqualFold (ac_email a) email = true /\ ac_enabled a = true /\ ac_roles a = sv_defaults /\ ac_resets a = 0%nat /\
       ry_code r <> 409 /\ (ry_code r = 201 -> after_last_slash (ry_location r) = id));
  sv_by_email now tok email k us : sv_ok k -> ry_code (kc_serve now tok (GetUsersByEmail email) k).1 = 200 ->
    dec_users (ry_doc (kc_serve now tok (GetUsersByEmail email) k).1) = Some us ->
    forall u, u ∈ us -> exists a, sv_dir k !! ur_id u = Some a /\ EqualFold (ac_email a) email = true;
  sv_reset now tok id cred k r k' : sv_ok k -> kc_serve now tok (PutResetPassword id cred) k = (r, k') ->
    written 204 (alter reset_credentials id) r (sv_dir k) (sv_dir k');
  sv_role now tok role k j rep : sv_ok k -> ry_code (kc_serve now tok (GetRole role) k).1 = 200 ->
    ry_doc (kc_serve now tok (GetRole role) k).1 = Some j -> dec_role j = Some rep -> sv_genuine rep /\ rr_name rep = role;
  sv_grant now tok id rep k r k' : sv_ok k -> sv_genuine rep -> kc_serve now tok (PostRoleMappings id [rep]) k = (r, k') ->
    written 204 (alter (add_role (rr_name rep)) id) r (sv_dir k) (sv_dir k');
  sv_take now tok id rep k r k' : sv_ok k -> sv_genuine rep -> kc_serve now tok (DeleteRoleMappings id [rep]) k = (r, k') ->
    written 204 (alter (drop_role (rr_name rep)) id) r (sv_dir k) (sv_dir k');
  sv_mappings now tok id k reps : sv_ok k -> ry_code (kc_serve now tok (GetRoleMappings id) k).1 = 200 ->
    dec_roles (ry_doc (kc_serve now tok (GetRoleMappings id) k).1) = Some reps ->
    forall a, sv_dir k !! id = Some a -> forall rep, rep ∈ reps -> rr_name rep ∈ ac_roles a;
  sv_role_users now tok role max k us : sv_ok k -> 0 < max -> ry_code (kc_serve now tok (GetRoleUsers role max) k).1 = 200 ->
    dec_users (ry_doc (kc_serve now tok (GetRoleUsers role max) k).1) = Some us ->
    NoDup (ur_id <$> us) /\
    (forall u, u ∈ us -> exists a, holders role (sv_dir k) !! ur_id u = Some a /\ ur_enabled u = ac_enabled a) /\
    (Z.of_nat (size (holders role (sv_dir k))) <= max -> forall id, is_Some (holders role (sv_dir k) !! id) -> id ∈ ur_id <$> us);
  sv_put_user now tok now' tok' id o b k k2 r k' : sv_ok k -> sv_ok k2 ->
    ry_code (kc_serve now tok (GetUser id) k).1 = 200 -> ry_doc (kc_serve now tok (GetUser id) k).1 = Some (JObj o) ->
    sv_dir k2 = sv_dir k -> kc_serve now' tok' (PutUser id (jset "enabled" (JBool b) o)) k2 = (r, k') ->
    written 204 (alter (set_active b) id) r (sv_dir k2) (sv_dir k')
}.

(** ** The promise kept *)

(** A call on the client that does nothing outside it: its result and the
    state it leaves. *)
Definition kwp {D S A} (ok : S -> Prop) (m : M D S A) (Q : A -> S -> Prop) (w : World D S) : Prop :=
  outside w (m w).2 /\ ok (w_led (m w).2) /\ Q (m w).1 (w_led (m w).2).

Section Kwp.
Context {D S : Type} (ok : S -> Prop).

Lemma calls_kwp {A} (m : M D S A) (P : S -> A -> S -> Prop) :
  (forall w, ok (w_led w) -> kwp ok m (P (w_led w)) w) -> calls ok m P.
Proof. done. Qed.

Lemma kwp_ret {A} (a : A) (Q : A -> S -> Prop) (w : World D S) : ok (w_led w) -> Q a (w_led w) -> kwp ok (gret a) Q w.
Proof. intros Hok HQ. split; [reflexivity|done]. Qed.

Lemma kwp_bind {A B} (m : M D S A) (k : A -> M D S B) (Q : B -> S -> Prop) w :
  kwp ok m (fun a s => forall w', w_led w' = s -> w_now w' = w_now w -> kwp ok (k a) Q w') w -> kwp ok (gbind m k) Q w.
Proof.
  intros (Ho & Hok & HQ). unfold kwp, gbind. destruct (m w) as [a w1]. simpl in *.
  destruct (HQ w1 eq_refl (out_now _ _ Ho)) as (Ho' & ? & ?). split; [by etransitivity|done].
Qed.

Lemma kwp_mono {A} (m : M D S A) (Q Q' : A -> S -> Prop) w :
  kwp ok m Q w -> (forall a s, ok s -> Q a s -> Q' a s) -> kwp ok m Q' w.
Proof. intros (? & ? & ?) HQ. split; [done|]. auto. Qed.

Lemma kwp_led {A} (f : S -> result A * S) (Q : result A -> S -> Prop) (w : World D S) :
  ok (w_led w) -> ok (f (w_led w)).2 -> Q (f (w_led w)).1 (f (w_led w)).2 ->
  (forall e, Q (Err e) (f (w_led w)).2) -> (forall e, Q (Err e) (w_led w)) -> kwp ok (led_call f) Q w.
Proof.
  intros Hok Hok' H1 H2 H3. unfold kwp, led_call, pop.
  destruct (w_sched w) as [|[] l] eqn:Es; simpl; destruct (f (w_led w)) as [r s]; simpl in *;
    (split; [by split; simpl; try done; intros E; rewrite E in Es|done]).
Qed.
End Kwp.

Section Laws.
Context {K : Type} `{KeycloakLaws K}.
Implicit Types (c : httpClient K) (k : K).

Definition hc_ok c : Prop := sv_ok (hc_server c).
Definition hc_dir c : directory := sv_dir (hc_server c).

Lemma kwp_accessToken {D} (Q : result string -> httpClient K -> Prop) (w : World D (httpClient K)) :
  hc_ok (w_led w) -> (forall r c, hc_ok c -> hc_dir c = hc_dir (w_led w) -> Q r c) -> kwp hc_ok accessToken Q w.
Proof.
  intros Hok HQ. unfold accessToken, to_server. apply kwp_bind, kwp_ret; [done|]. intros w1 E1 N1.
  apply kwp_bind, kwp_ret; [by rewrite E1|]. intros w2 E2 N2. rewrite E1 in E2. rewrite E1.
  destruct (_ && _); [apply kwp_ret; rewrite E2; auto|]. apply kwp_bind.
  pose proof (sv_token_ok (w_now w) (hc_clientID (w_led w)) (hc_clientSecret (w_led w)) _ Hok) as [Ht Hd].
  apply kwp_led; rewrite E2; destruct (kc_token _ _ _ _) as [r k]; simpl in *; try done.
  - intros w3 E3 N3. destruct (negb _); [apply kwp_ret; rewrite E3; [done|by apply HQ]|].
    destruct (dec_token _) as [[tok e]|]; [|apply kwp_ret; rewrite E3; [done|by apply HQ]].
    destruct (bool_decide _); [apply kwp_ret; rewrite E3; [done|by apply HQ]|].
    apply kwp_bind. unfold remember_token, kwp. simpl. rewrite E3.
    split; [by split|]. split; [done|]. intros w4 E4 N4. apply kwp_ret; rewrite E4; [done|by apply HQ].
  - intros e w3 E3 N3. apply kwp_ret; rewrite E3; [done|by apply HQ].
  - intros e w3 E3 N3. apply kwp_ret; rewrite E3; [done|by apply HQ].
Qed.

Lemma kwp_do {D} rq (Q : result kc_reply -> httpClient K -> Prop) (w : World D (httpClient K)) :
  hc_ok (w_led w) ->
  (forall now tok c r k, hc_ok c -> hc_dir c = hc_dir (w_led w) -> kc_serve now tok rq (hc_server c) = (r, k) ->
     Q (Ok r) (with_server k c) /\ forall e, Q (Err e) (with_server k c)) ->
  (forall e c, hc_ok c -> hc_dir c = hc_dir (w_led w) -> Q (Err e) c) -> kwp hc_ok (kc_do rq) Q w.
Proof.
  intros Hok HQ HE. unfold kc_do, to_server. apply kwp_bind, kwp_accessToken; [done|].
  intros r c Hc Hd w1 E1 N1. destruct r as [tok|e]; [|apply kwp_ret; rewrite E1; auto].
  apply kwp_bind, kwp_ret; [by rewrite E1|]. intros w2 E2 N2. rewrite E1 in E2.
  pose proof (sv_serve_ok (w_now w1) tok rq (hc_server c) Hc) as Hs.
  destruct (kc_serve (w_now w1) tok rq (hc_server c)) as [r k] eqn:Er.
  destruct (HQ _ _ _ _ _ Hc Hd Er) as [Hr1 Hr2].
  apply kwp_led; rewrite ?E2, ?Er; simpl; auto.
Qed.

(** A read: whatever it answers, the directory stays. *)
Lemma kwp_read {D} rq (Q : result kc_reply -> httpClient K -> Prop) (w : World D (httpClient K)) :
  hc_ok (w_led w) -> reads rq = true ->
  (forall now tok c, hc_ok c -> hc_dir c = hc_dir (w_led w) ->
     Q (Ok (kc_serve now tok rq (hc_server c)).1) (with_server (kc_serve now tok rq (hc_server c)).2 c)) ->
  (forall e c, hc_ok c -> hc_dir c = hc_dir (w_led w) -> Q (Err e) c) -> kwp hc_ok (kc_do rq) Q w.
Proof.
  intros Hok Hrd HQ HE. apply kwp_do; [done| |done]. intros now tok c r k Hc Hd Er.
  specialize (HQ now tok c Hc Hd). rewrite Er in HQ. split; [done|]. intros e. apply HE.
  - pose proof (sv_serve_ok now tok rq _ Hc) as Hs. by rewrite Er in Hs.
  - pose proof (sv_reads now tok rq _ Hc Hrd) as Hs. rewrite Er in Hs. unfold hc_dir in *. simpl in *. congruence.
Qed.

(** A write that expects 204. *)
Lemma kwp_write {D} what rq f (w : World D (httpClient K)) :
  hc_ok (w_led w) ->
  (forall now tok k r k', sv_ok k -> sv_dir k = hc_dir (w_led w) -> kc_serve now tok rq k = (r, k') ->
     written 204 f r (sv_dir k) (sv_dir k')) ->
  kwp hc_ok (expect_done what rq) (changes hc_dir f (w_led w)) w.
Proof.
  intros Hok Hw. unfold expect_done. apply kwp_bind, kwp_do; [done| |].
  - intros now tok c r k Hc Hd Er. pose proof (Hw _ _ _ _ _ Hc Hd Er) as Hx.
    assert (hc_ok (with_server k c)) as Hk.
    { unfold hc_ok. simpl. pose proof (sv_serve_ok now tok rq _ Hc) as Hs. by rewrite Er in Hs. }
    split; [|intros e]; intros w1 E1 N1; apply kwp_ret; rewrite E1; try done; unfold changes, hc_dir in *; simpl;
      destruct Hx as [Hx|[Hx Hne]]; rewrite Hx, Hd; try (by left); try (by right).
    right. split; [done|]. by destruct (Z.eqb_spec (ry_code r) 204).
  - intros e c Hc Hd w1 E1 N1. apply kwp_ret; rewrite E1; [done|]. by right.
Qed.

Lemma kwp_roleRep {D} role (Q : result kcRoleRep -> httpClient K -> Prop) (w : World D (httpClient K)) :
  hc_ok (w_led w) ->
  (forall rep c, hc_ok c -> hc_dir c = hc_dir (w_led w) -> sv_genuine rep -> rr_name rep = role -> Q (Ok rep) c) ->
  (forall e c, hc_ok c -> hc_dir c = hc_dir (w_led w) -> Q (Err e) c) -> kwp hc_ok (roleRep role) Q w.
Proof.
  intros Hok HQ HE. unfold roleRep. apply kwp_bind, kwp_read; [done..| |].
  - intros now tok c Hc Hd w1 E1 N1. set (r := (kc_serve now tok _ _).1) in *.
    assert (hc_ok (w_led w1) /\ hc_dir (w_led w1) = hc_dir (w_led w)) as [Hk1 Hd1].
    { rewrite E1. split; [by apply sv_serve_ok|]. unfold hc_dir. simpl. rewrite sv_reads by done. exact Hd. }
    destruct (Z.eqb_spec (ry_code r) 200) as [H200|]; simpl; [|apply kwp_ret; auto].
    destruct (ry_doc r) as [j|] eqn:Ej; simpl; [|apply kwp_ret; auto].
    destruct (dec_role j) as [rep|] eqn:Er; [|apply kwp_ret; auto].
    destruct (sv_role now tok role _ j rep Hc H200 Ej Er) as [Hg Hn]. apply kwp_ret; auto.
  - intros e c Hc Hd w1 E1 N1. apply kwp_ret; rewrite E1; auto.
Qed.
Lemma kwp_changes {D A} (m : M D (httpClient K) (result A)) f c (w : World D (httpClient K)) :
  hc_dir (w_led w) = hc_dir c -> kwp hc_ok m (changes hc_dir f (w_led w)) w -> kwp hc_ok m (changes hc_dir f c) w.
Proof. intros Hd Hm. eapply kwp_mono; [exact Hm|]. unfold changes. intros a s _. by rewrite Hd. Qed.

Lemma http_assign_law {D} id role :
  calls hc_ok (http_AssignRealmRole (D := D) id role) (changes hc_dir (alter (add_role role) id)).
Proof.
  intros w Hok. apply kwp_bind, kwp_roleRep; [done| |].
  - intros rep c Hc Hd Hg <- w1 E1 N1. apply kwp_changes; [congruence|]. apply kwp_write; [by rewrite E1|].
    intros now tok k r k' Hk _. by apply sv_grant.
  - intros e c Hc Hd w1 E1 N1. apply kwp_ret; rewrite E1; [done|by right].
Qed.

Lemma http_revoke_law {D} id role :
  calls hc_ok (http_RevokeRealmRole (D := D) id role) (changes hc_dir (alter (drop_role role) id)).
Proof.
  intros w Hok. apply kwp_bind, kwp_roleRep; [done| |].
  - intros rep c Hc Hd Hg <- w1 E1 N1. apply kwp_changes; [congruence|]. apply kwp_write; [by rewrite E1|].
    intros now tok k r k' Hk _. by apply sv_take.
  - intros e c Hc Hd w1 E1 N1. apply kwp_ret; rewrite E1; [done|by right].
Qed.

Lemma kwp_userRoles {D} id (Q : result (list string) -> httpClient K -> Prop) (w : World D (httpClient K)) :
  hc_ok (w_led w) ->
  (forall r c, hc_ok c -> hc_dir c = hc_dir (w_led w) ->
     (forall roles a, r = Ok roles -> hc_dir c !! id = Some a -> forall role, role ∈ roles -> role ∈ ac_roles a) -> Q r c) ->
  kwp hc_ok (userRoles id) Q w.
Proof.
  intros Hok HQ. unfold userRoles. apply kwp_bind, kwp_read; [done..| |].
  - intros now tok c Hc Hd w1 E1 N1. set (r := (kc_serve now tok _ _).1) in *.
    assert (hc_ok (w_led w1) /\ hc_dir (w_led w1) = hc_dir (w_led w)) as [Hk1 Hd1].
    { rewrite E1. split; [by apply sv_serve_ok|]. unfold hc_dir. simpl. rewrite sv_reads by done. exact Hd. }
    destruct (Z.eqb_spec (ry_code r) 200) as [H200|]; simpl; [|apply kwp_ret; [done|by apply HQ]].
    destruct (dec_roles (ry_doc r)) as [reps|] eqn:Er; [|apply kwp_ret; [done|by apply HQ]].
    apply kwp_ret; [done|]. apply HQ; [done..|]. intros roles a [= <-] Ha role Hin.
    apply list_elem_of_fmap in Hin as (rep & -> & Hin). rewrite Hd1, <- Hd in Ha.
    by eapply (sv_mappings now tok id _ reps Hc H200 Er a Ha).
  - intros e c Hc Hd w1 E1 N1. apply kwp_ret; rewrite E1; [done|by apply HQ].
Qed.

Lemma http_ensure_law {D} id role :
  calls hc_ok (http_EnsureRealmRole (D := D) id role) (changes hc_dir (alter (add_role role) id)).
Proof.
  intros w Hok. apply kwp_bind, kwp_userRoles; [done|]. intros r c Hc Hd Hr w1 E1 N1. destruct r as [roles|e].
  - destruct (contains roles role) eqn:Hm; [|apply kwp_changes; [congruence|apply http_assign_law; by rewrite E1]].
    apply kwp_ret; rewrite E1; [done|]. left. rewrite <- Hd. symmetry. apply alter_id. intros a Ha.
    apply contains_spec in Hm. pose proof (Hr roles a eq_refl Ha role Hm) as Hin.
    destruct a as [e b rs n]. unfold add_role. simpl in *. f_equal. set_solver.
  - apply kwp_ret; rewrite E1; [done|by right].
Qed.

Lemma kwp_findUser {D} email (Q : result string -> httpClient K -> Prop) (w : World D (httpClient K)) :
  hc_ok (w_led w) ->
  (forall r c, hc_ok c -> hc_dir c = hc_dir (w_led w) ->
     (forall id, r = Ok id -> exists a, hc_dir c !! id = Some a /\ EqualFold (ac_email a) email = true) -> Q r c) ->
  kwp hc_ok (findUserIDByEmail email) Q w.
Proof.
  intros Hok HQ. unfold findUserIDByEmail. apply kwp_bind, kwp_read; [done..| |].
  - intros now tok c Hc Hd w1 E1 N1. set (r := (kc_serve now tok _ _).1) in *.
    assert (hc_ok (w_led w1) /\ hc_dir (w_led w1) = hc_dir (w_led w)) as [Hk1 Hd1].
    { rewrite E1. split; [by apply sv_serve_ok|]. unfold hc_dir. simpl. rewrite sv_reads by done. exact Hd. }
    destruct (Z.eqb_spec (ry_code r) 200) as [H200|]; simpl; [|apply kwp_ret; [done|by apply HQ]].
    destruct (dec_users (ry_doc r)) as [[|u us]|] eqn:Eu; (apply kwp_ret; [done|]; apply HQ; [done..|]); try done.
    intros id [= <-]. rewrite Hd1, <- Hd. apply (sv_by_email now tok email _ _ Hc H200 Eu). left.
  - intros e c Hc Hd w1 E1 N1. apply kwp_ret; rewrite E1; [done|by apply HQ].
Qed.

Lemma http_create_law {D} spec :
  calls hc_ok (http_CreateUser (D := D) spec) (created hc_dir sv_defaults spec).
Proof.
  apply calls_kwp. intros w Hok. unfold http_CreateUser. destruct (splitDisplayName _) as [first last]. cbv zeta. set (rep := [_; _; _; _; _]).
  apply kwp_bind, kwp_do; [done| |intros e c Hc Hd w1 E1 N1; apply kwp_ret; rewrite E1; [done|by left]].
  intros now tok c r k Hc Hd Er. assert (hc_ok (with_server k c)) as Hk.
  { unfold hc_ok. simpl. pose proof (sv_serve_ok now tok (PostUsers rep) _ Hc) as Hs. by rewrite Er in Hs. }
  change (sv_dir (hc_server c) = hc_dir (w_led w)) in Hd.
  pose proof (sv_post_users now tok rep (cs_Email spec) _ _ _ Hc eq_refl eq_refl Er) as Hpost. rewrite Hd in Hpost.
  destruct Hpost as [[Hsame Hne]|(id & a & Hnone & Hid & Hins & He & Hb & Hro & Hre & H409 & Hloc)].
  - split; [|intros e w1 E1 N1; apply kwp_ret; rewrite E1; [done|by left]].
    intros w1 E1 N1. destruct (Z.eqb_spec (ry_code r) 201); [done|].
    destruct (ry_code r =? 409); [|apply kwp_ret; rewrite E1; [done|by left]].
    apply kwp_bind, kwp_findUser; [by rewrite E1|]. intros x c' Hc' Hd' Hx w2 E2 N2. rewrite E1 in Hd'.
    change (hc_dir c' = sv_dir k) in Hd'. rewrite Hsame in Hd'.
    destruct x as [id|e]; apply kwp_ret; rewrite E2; try done; left; (split; [done|]); [|done].
    split; [done|]. rewrite <- Hd'. by apply Hx.
  - assert (forall r : result (string * bool), match r with Ok (id', ex) => id' = id /\ ex = false | Err _ => True end ->
      created hc_dir sv_defaults spec (w_led w) r (with_server k c)) as Hnew.
    { intros x Hx. right. exists id, a. done. }
    split; [|intros e w1 E1 N1; apply kwp_ret; rewrite E1; [done|by apply Hnew]].
    intros w1 E1 N1. destruct (Z.eqb_spec (ry_code r) 201) as [H201|].
    + rewrite (Hloc H201), bool_decide_false by done. apply kwp_ret; rewrite E1; [done|by apply Hnew].
    + rewrite (proj2 (Z.eqb_neq _ _) H409). apply kwp_ret; rewrite E1; [done|by apply Hnew].
Qed.

Lemma http_enabled_law {D} id b :
  calls hc_ok (http_SetEnabled (D := D) id b) (changes hc_dir (alter (set_active b) id)).
Proof.
  intros w Hok. apply kwp_bind, kwp_read; [done..| |].
  - intros now tok c Hc Hd w1 E1 N1. set (r := (kc_serve now tok _ _).1) in *.
    assert (hc_ok (w_led w1) /\ hc_dir (w_led w1) = hc_dir (w_led w)) as [Hk1 Hd1].
    { rewrite E1. split; [by apply sv_serve_ok|]. unfold hc_dir. simpl. rewrite sv_reads by done. exact Hd. }
    destruct (Z.eqb_spec (ry_code r) 200) as [H200|]; simpl; [|apply kwp_ret; [done|by right]].
    destruct (ry_doc r) as [[| | | | | | |rep]|] eqn:Ed; try (apply kwp_ret; [done|by right]).
    apply kwp_changes; [done|]. apply kwp_write; [done|]. intros now' tok' k2 r' k' Hk2 Hd2 Er.
    eapply (sv_put_user now tok now' tok' id rep b (hc_server c)); eauto. rewrite Hd2, Hd1. by symmetry.
  - intros e c Hc Hd w1 E1 N1. apply kwp_ret; rewrite E1; [done|by right].
Qed.

(** The listing keeps the ids and flags of the representations. *)
Lemma kwp_list_loop {D} role reps (Q : list User -> httpClient K -> Prop) (w : World D (httpClient K)) :
  hc_ok (w_led w) ->
  (forall us c, hc_ok c -> hc_dir c = hc_dir (w_led w) ->
     map (fun u => (us_ID u, us_Enabled u)) us = map (fun r => (ur_id r, ur_enabled r)) reps -> Q us c) ->
  kwp hc_ok (list_loop "" role reps) Q w.
Proof.
  revert Q w. induction reps as [|rep reps IH]; intros Q w Hok HQ; simpl; [apply kwp_ret; [done|by apply HQ]|].
  apply kwp_bind, kwp_userRoles; [done|]. intros r c Hc Hd _ w1 E1 N1. apply kwp_bind, IH; [by rewrite E1|].
  intros us c2 Hc2 Hd2 Hus w2 E2 N2. apply kwp_ret; rewrite E2; [done|]. apply HQ; [done|congruence|]. simpl. by f_equal.
Qed.

Lemma kwp_list_any {D} search role reps (w : World D (httpClient K)) :
  hc_ok (w_led w) -> kwp hc_ok (list_loop search role reps) (fun _ c => hc_dir c = hc_dir (w_led w)) w.
Proof.
  revert w. induction reps as [|rep reps IH]; intros w Hok; simpl; [by apply kwp_ret|].
  destruct (_ && _); [by apply IH|]. apply kwp_bind, kwp_userRoles; [done|]. intros r c Hc Hd _ w1 E1 N1.
  apply kwp_bind. eapply kwp_mono; [apply IH; by rewrite E1|]. intros us c2 Hc2 Hd2 w2 E2 N2. apply kwp_ret; rewrite E2; congruence.
Qed.

Lemma shows_reps role d reps us :
  NoDup (ur_id <$> reps) ->
  (forall u, u ∈ reps -> exists a, holders role d !! ur_id u = Some a /\ ur_enabled u = ac_enabled a) ->
  (forall id, is_Some (holders role d !! id) -> id ∈ ur_id <$> reps) ->
  map (fun u => (us_ID u, us_Enabled u)) us = map (fun r => (ur_id r, ur_enabled r)) reps -> shows role d us.
Proof.
  intros Hnd Hin Hall Hmap. assert (forall id b, (exists u, u ∈ us /\ us_ID u = id /\ us_Enabled u = b) <->
                                                (exists r, r ∈ reps /\ ur_id r = id /\ ur_enabled r = b)) as Hiff.
  { intros id b. trans ((id, b) ∈ map (fun u => (us_ID u, us_Enabled u)) us).
    - rewrite list_elem_of_In, in_map_iff. setoid_rewrite <- list_elem_of_In. naive_solver.
    - rewrite Hmap, list_elem_of_In, in_map_iff. setoid_rewrite <- list_elem_of_In. naive_solver. }
  split.
  - assert (us_ID <$> us = ur_id <$> reps) as ->; [|done].
    apply (f_equal (map fst)) in Hmap. by rewrite !map_map in Hmap.
  - intros id b. rewrite Hiff. split.
    + intros (r & Hr & <- & <-). destruct (Hin r Hr) as (a & ? & ->). eauto.
    + intros (a & Ha & <-). assert (id ∈ ur_id <$> reps) as (r & -> & Hr)%list_elem_of_fmap by eauto.
      destruct (Hin r Hr) as (a' & Ha' & E). exists r. naive_solver.
Qed.
Lemma http_list_law {D} search role max :
  calls hc_ok (http_ListUsers (D := D) search role max) (fun c r c' =>
    hc_dir c' = hc_dir c /\
    forall us, r = Ok us -> search = "" -> role <> "" -> 100 <= max -> (size (holders role (hc_dir c)) <= 100)%nat ->
      shows role (hc_dir c) us).
Proof.
  apply calls_kwp. intros w Hok. unfold http_ListUsers. set (m := if (_ || _) then 100 else max).
  apply kwp_bind, kwp_read; [done|by case_bool_decide| |intros e c Hc Hd w1 E1 N1; by apply kwp_ret; rewrite E1].
  intros now tok c Hc Hd w1 E1 N1. set (rq := if bool_decide _ then _ else _) in *.
  assert (hc_ok (w_led w1) /\ hc_dir (w_led w1) = hc_dir (w_led w)) as [Hk1 Hd1].
  { rewrite E1. split; [by apply sv_serve_ok|]. unfold hc_dir. simpl. rewrite sv_reads; [exact Hd|done|].
    unfold rq. by case_bool_decide. }
  destruct (Z.eqb_spec (ry_code (kc_serve now tok rq (hc_server c)).1) 200) as [H200|]; simpl; [|by apply kwp_ret].
  destruct (dec_users _) as [reps|] eqn:Er; [|by apply kwp_ret].
  destruct (decide (search = "")) as [->|Hs].
  - apply kwp_bind, kwp_list_loop; [done|]. intros us c2 Hc2 Hd2 Hmap w2 E2 N2. apply kwp_ret; rewrite E2; [done|].
    split; [congruence|]. intros us' [= <-] _ Hr Hmax Hsz. unfold rq in H200, Er.
    rewrite bool_decide_false in H200, Er by done. change (sv_dir (hc_server c) = hc_dir (w_led w)) in Hd.
    assert (100 <= m) as Hm by (unfold m; destruct (Z.leb_spec max 0), (Z.ltb_spec 500 max); simpl; lia).
    destruct (sv_role_users now tok role m _ reps Hc ltac:(lia) H200 Er) as (Hnd & Hin & Hall). rewrite Hd in *.
    apply (shows_reps role _ reps); [done..| |done]. apply Hall. lia.
  - apply kwp_bind. eapply kwp_mono; [by apply kwp_list_any|]. intros us c2 Hc2 Hd2 w2 E2 N2.
    apply kwp_ret; rewrite E2; [done|]. split; [congruence|done].
Qed.

Lemma http_password_law {D} id pw :
  calls (D := D) hc_ok (http_SetTemporaryPassword id pw) (changes hc_dir (alter reset_credentials id)).
Proof using All.
  intros w Hok. apply kwp_write; [done|]. intros now tok k r k' Hk _. by apply sv_reset.
Qed.

#[export] Instance http_laws : DirectoryLaws (httpClient K).
Proof using All.
  refine {| kc_ok := hc_ok; kc_dir := hc_dir; kc_defaults := sv_defaults |}; intros D.
  - apply http_create_law.
  - apply http_password_law.
  - apply http_assign_law.
  - apply http_ensure_law.
  - apply http_revoke_law.
  - intros id actions. apply calls_kwp. intros w Hok. simpl. unfold http_SendActionsEmail, expect_done. apply kwp_bind, kwp_read; [done..| |].
    + intros now tok c Hc Hd w1 E1 N1. apply kwp_ret; rewrite E1; [by apply sv_serve_ok|]. unfold hc_dir. simpl.
      by rewrite sv_reads.
    + intros e c Hc Hd w1 E1 N1. by apply kwp_ret; rewrite E1.
  - apply http_list_law.
  - apply http_enabled_law.
Defined.
End Laws.

(** *** As a refinement

    The calls that can change an account, the change each stands for, and what
    a run of any of them may do to the directory. *)
Inductive admin_call : Type :=
| CallPassword (id pw : string)
| CallAssign (id role : string)
| CallEnsure (id role : string)
| CallRevoke (id role : string)
| CallEnable (id : string) (b : bool).

Definition intended (c : admin_call) : directory -> directory :=
  match c with
  | CallPassword id _ => alter reset_credentials id
  | CallAssign id role | CallEnsure id role => alter (add_role role) id
  | CallRevoke id role => alter (drop_role role) id
  | CallEnable id b => alter (set_active b) id
  end.

Definition http_call {K D} `{KeycloakServer K} (c : admin_call) : M D (httpClient K) (result unit) :=
  match c with
  | CallPassword id pw => http_SetTemporaryPassword id pw
  | CallAssign id role => http_AssignRealmRole id role
  | CallEnsure id role => http_EnsureRealmRole id role
  | CallRevoke id role => http_RevokeRealmRole id role
  | CallEnable id b => http_SetEnabled id b
  end.

(** C13: the HTTP client implements the directory.  Against any Keycloak that
    behaves as documented, whatever state the token cache is in and whichever
    of its requests fail with or without effect, a call makes its one change
    of the directory or none, reports success only when it was made, and
    touches nothing outside the client. *)
Theorem http_client_refines_directory {K D} `{KeycloakLaws K} (c : admin_call) (w : World D (httpClient K)) :
  hc_ok (w_led w) ->
  let '(r, w') := http_call c w in
  (hc_dir (w_led w') = intended c (hc_dir (w_led w)) \/ hc_dir (w_led w') = hc_dir (w_led w)) /\
  (r = Ok tt -> hc_dir (w_led w') = intended c (hc_dir (w_led w))) /\ hc_ok (w_led w') /\ outside w w'.
Proof.
  intros Hok. assert (calls hc_ok (http_call (D := D) c) (changes hc_dir (intended c))) as Hc.
  { destruct c; simpl; [apply http_password_law|apply http_assign_law|apply http_ensure_law|apply http_revoke_law|apply http_enabled_law]. }
  destruct (Hc w Hok) as (Ho & Hk & Hch). destruct (http_call c w) as [r w']. simpl in *.
  destruct Hch as [Hch|[Hch Hr]]; split_and!; auto. by intros ->.
Qed.

(** ** A server for concrete runs

    Accounts by id, every user name the e-mail address, one accepted token. *)

Record plain_kc : Type := mkPlainKc { pk_accounts : directory; pk_next : nat }.

Definition plain_id (n : nat) : string := string_of_list_ascii (replicate (S n) "x"%char).

Definition plain_realm : list string := ["platform-admin"; "operator"; "driver"; "citizen"; "station-staff"].

Definition user_json (p : string * account) : json :=
  JObj [("id", JStr p.1); ("username", JStr (ac_email p.2)); ("email", JStr (ac_email p.2)); ("enabled", JBool (ac_enabled p.2))].

Definition role_json (role : string) : json := JObj [("id", JStr role); ("name", JStr role)].

Definition plain_reply (code : Z) : kc_reply := mkReply code "" None.
Definition plain_doc (j : json) : kc_reply := mkReply 200 "" (Some j).

Definition plain_token (k : plain_kc) : kc_reply * plain_kc :=
  (plain_doc (JObj [("access_token", JStr "bearer"); ("expires_in", JInt 300)]), k).

Definition plain_write (f : account -> account) (id : string) (k : plain_kc) : kc_reply * plain_kc :=
  match pk_accounts k !! id with
  | Some a => (plain_reply 204, mkPlainKc (<[id := f a]> (pk_accounts k)) (pk_next k))
  | None => (plain_reply 404, k)
  end.

Section Plain.
Context `{Unicode}.

Definition plain_serve (tok : string) (rq : kc_request) (k : plain_kc) : kc_reply * plain_kc :=
  if decide (tok <> "bearer") then (plain_reply 401, k)
  else
    match rq with
    | PostUsers rep =>
        match dec_str rep "email", dec_bool rep "enabled" with
        | Some email, Some b =>
            match filter (fun p => EqualFold (ac_email p.2) email = true) (map_to_list (pk_accounts k)) with
            | [] => (mkReply 201 ("http://keycloak/users/" +:+ plain_id (pk_next k)) None,
                     mkPlainKc (<[plain_id (pk_next k) := mkAccount email b ∅ 0]> (pk_accounts k)) (S (pk_next k)))
            | _ => (plain_reply 409, k)
            end
        | _, _ => (plain_reply 400, k)
        end
    | GetUsersByEmail email =>
        (plain_doc (JList (map user_json (filter (fun p => EqualFold (ac_email p.2) email = true) (map_to_list (pk_accounts k))))), k)
    | PutResetPassword id _ => plain_write reset_credentials id k
    | GetRole role => if decide (role ∈ plain_realm) then (plain_doc (role_json role), k) else (plain_reply 404, k)
    | PostRoleMappings id reps => plain_write (fun a => foldr add_role a (map rr_name reps)) id k
    | DeleteRoleMappings id reps => plain_write (fun a => foldr drop_role a (map rr_name reps)) id k
    | GetRoleMappings id =>
        match pk_accounts k !! id with
        | Some a => (plain_doc (JList (map role_json (elements (ac_roles a)))), k)
        | None => (plain_reply 404, k)
        end
    | PutActionsEmail id _ => (plain_reply (match pk_accounts k !! id with Some _ => 204 | None => 404 end), k)
    | GetRoleUsers role max =>
        (plain_doc (JList (map user_json (take (Z.to_nat max) (map_to_list (holders role (pk_accounts k)))))), k)
    | GetUsers _ max => (plain_doc (JList (map user_json (take (Z.to_nat max) (map_to_list (pk_accounts k))))), k)
    | GetUser id =>
        match pk_accounts k !! id with Some a => (plain_doc (user_json (id, a)), k) | None => (plain_reply 404, k) end
    | PutUser id rep =>
        match dec_bool rep "enabled" with
        | Some b => plain_write (set_active b) id k
        | None => (plain_reply 400, k)
        end
    end.

#[export] Instance plain_server : KeycloakServer plain_kc := {
  kc_token now id secret k := plain_token k;
  kc_serve now tok rq k := plain_serve tok rq k
}.

Definition plain_ok (k : plain_kc) : Prop :=
  forall id, is_Some (pk_accounts k !! id) -> exists n, (n < pk_next k)%nat /\ id = plain_id n.

Lemma plain_id_inj m n : plain_id m = plain_id n -> m = n.
Proof.
  intros E. apply (f_equal (fun s => length (list_ascii_of_string s))) in E. unfold plain_id in E.
  rewrite !list_ascii_of_string_of_list_ascii, !length_replicate in E. congruence.
Qed.

Lemma split_no_slash l cur : Forall (fun c => c = "x"%char) l -> split_on "/" l cur = [string_of_list_ascii (rev cur ++ l)].
Proof.
  intros Hl. revert cur. induction Hl as [|c l -> _ IH]; intros cur; simpl; [by rewrite app_nil_r|].
  rewrite IH. simpl. by rewrite <- app_assoc.
Qed.

Lemma plain_location n : after_last_slash ("http://keycloak/users/" +:+ plain_id n) = plain_id n.
Proof.
  unfold after_last_slash, Split.
  assert (list_ascii_of_string (plain_id n) = replicate (S n) "x"%char) as E by apply list_ascii_of_string_of_list_ascii.
  revert E. generalize (plain_id n) as s. intros s E.
  change (split_on "/" (list_ascii_of_string ("http://keycloak/users/" +:+ s)) [])
    with ("http:" :: "" :: "keycloak" :: "users" :: split_on "/" (list_ascii_of_string s) []).
  rewrite split_no_slash by (rewrite E; by apply Forall_replicate). cbn. apply string_of_list_ascii_of_string.
Qed.

Lemma dec_all_map {A B} (dec : json -> option B) (f : A -> json) (g : A -> B) l :
  (forall a, dec (f a) = Some (g a)) -> dec_all dec (map f l) = Some (map g l).
Proof. intros Hd. induction l as [|a l IH]; simpl; [done|]. by rewrite Hd, IH. Qed.

Definition user_rep (p : string * account) : kcUserRep :=
  mkUserRep p.1 (ac_email p.2) (ac_email p.2) "" "" (ac_enabled p.2).

Lemma dec_users_json l : dec_users (Some (JList (map user_json l))) = Some (map user_rep l).
Proof. by apply dec_all_map. Qed.

Lemma plain_write_ok f id k : plain_ok k -> plain_ok (plain_write f id k).2.
Proof.
  intros Hk. unfold plain_write. destruct (pk_accounts k !! id) as [a|] eqn:Ha; [|done]. intros id' Hid'. simpl in *.
  apply Hk. destruct (decide (id' = id)) as [->|Hne]; [by rewrite Ha|]. by rewrite lookup_insert_ne in Hid'.
Qed.

Lemma plain_written f id k r k' : plain_write f id k = (r, k') -> written 204 (alter f id) r (pk_accounts k) (pk_accounts k').
Proof.
  unfold plain_write, written. destruct (pk_accounts k !! id) as [a|] eqn:Ha; intros [= <- <-]; [left|by right].
  simpl. apply map_eq. intros id'. destruct (decide (id' = id)) as [->|Hne].
  - by rewrite lookup_insert_eq, lookup_alter_eq, Ha.
  - by rewrite lookup_insert_ne, lookup_alter_ne.
Qed.

(** The writes of the server, the token checked first. *)
Lemma plain_guarded (tok : string) code f (x : kc_reply * plain_kc) k r k' :
  code <> 401 -> (if decide (tok <> "bearer") then (plain_reply 401, k) else x) = (r, k') ->
  (x = (r, k') -> written code f r (pk_accounts k) (pk_accounts k')) -> written code f r (pk_accounts k) (pk_accounts k').
Proof. intros Hc. case_decide; [|auto]. intros [= <- <-] _. right. split; [done|]. simpl. congruence. Qed.

Lemma plain_fresh k : plain_ok k -> pk_accounts k !! plain_id (pk_next k) = None.
Proof.
  intros Hk. apply eq_None_not_Some. intros (n & Hn & E)%Hk. apply plain_id_inj in E. lia.
Qed.

Lemma plain_serve_ok tok rq k : plain_ok k -> plain_ok (plain_serve tok rq k).2.
Proof.
  intros Hk. unfold plain_serve. case_decide; [done|].
  destruct rq; try done; try (by apply plain_write_ok); try (by repeat case_match).
  - destruct (dec_str rep "email") as [e|]; [|done]. destruct (dec_bool rep "enabled") as [b|]; [|done].
    destruct (filter _ _); [|done]. intros id Hid. simpl in *. destruct (decide (id = plain_id (pk_next k))) as [->|Hne].
    + exists (pk_next k). split; [lia|done].
    + rewrite lookup_insert_ne in Hid by done. destruct (Hk id Hid) as (n & ? & ?). exists n. split; [lia|done].
  - case_match; [by apply plain_write_ok|done].
Qed.

Lemma plain_serve_reads tok rq k : reads rq = true -> pk_accounts (plain_serve tok rq k).2 = pk_accounts k.
Proof. intros Hr. unfold plain_serve. case_decide; [done|]. destruct rq; try done; by case_match. Qed.

Lemma plain_post tok rep email k r k' :
  plain_ok k -> jget "email" rep = Some (JStr email) -> jget "enabled" rep = Some (JBool true) ->
  plain_serve tok (PostUsers rep) k = (r, k') ->
  (pk_accounts k' = pk_accounts k /\ ry_code r <> 201) \/
  (exists id a, pk_accounts k !! id = None /\ id <> "" /\ pk_accounts k' = <[id := a]> (pk_accounts k) /\
     EqualFold (ac_email a) email = true /\ ac_enabled a = true /\ ac_roles a = ∅ /\ ac_resets a = 0%nat /\
     ry_code r <> 409 /\ (ry_code r = 201 -> after_last_slash (ry_location r) = id)).
Proof.
  intros Hk He Hb. unfold plain_serve, dec_str, dec_bool. rewrite He, Hb. case_decide; [intros [= <- <-]; by left|].
  destruct (filter _ _); intros [= <- <-]; [|by left]. right.
  exists (plain_id (pk_next k)), (mkAccount email true ∅ 0). simpl.
  split; [by apply plain_fresh|]. split; [done|]. split; [done|]. split; [apply EqualFold_refl|]. do 4 (split; [done|]).
  intros _. apply plain_location.
Qed.

Lemma plain_role_users tok role max k us :
  0 < max -> ry_code (plain_serve tok (GetRoleUsers role max) k).1 = 200 ->
  dec_users (ry_doc (plain_serve tok (GetRoleUsers role max) k).1) = Some us ->
  NoDup (ur_id <$> us) /\
  (forall u, u ∈ us -> exists a, holders role (pk_accounts k) !! ur_id u = Some a /\ ur_enabled u = ac_enabled a) /\
  (Z.of_nat (size (holders role (pk_accounts k))) <= max ->
     forall id, is_Some (holders role (pk_accounts k) !! id) -> id ∈ ur_id <$> us).
Proof.
  intros Hm. unfold plain_serve. case_decide; [done|]. intros _. cbn [fst ry_doc plain_doc]. rewrite dec_users_json.
  intros [= <-]. set (h := holders role (pk_accounts k)).
  assert (forall l : list (string * account), ur_id <$> map user_rep l = l.*1) as Hids.
  { intros l. induction l as [|p l IH]; simpl; [done|]. f_equal. exact IH. }
  split; [rewrite Hids; eapply sublist_NoDup; [apply (NoDup_fst_map_to_list h)|apply fmap_sublist, sublist_take]|]. split.
  - intros u Hu. apply list_elem_of_In, in_map_iff in Hu as ([id a] & <- & Hin%list_elem_of_In). exists a. split; [|done].
    apply elem_of_map_to_list. eapply elem_of_take in Hin as (i & Hi & _). by eapply list_elem_of_lookup_2.
  - intros Hsz id [a Ha]. rewrite Hids, take_ge by (rewrite length_map_to_list; lia).
    apply elem_of_map_to_list in Ha. apply list_elem_of_fmap. by exists (id, a).
Qed.

#[export] Instance plain_laws : KeycloakLaws plain_kc.
Proof.
  refine {| sv_ok := plain_ok; sv_dir := pk_accounts; sv_defaults := ∅; sv_genuine := fun _ => True |}; simpl.
  - done.
  - intros. by apply plain_serve_ok.
  - intros. by apply plain_serve_reads.
  - intros. by eapply plain_post.
  - intros now tok email k us Hk. unfold plain_serve. case_decide; [done|]. intros _. cbn [fst ry_doc plain_doc].
    rewrite dec_users_json. intros [= <-] u Hu. apply list_elem_of_In, in_map_iff in Hu as ([id a] & <- & Hin%list_elem_of_In).
    apply list_elem_of_filter in Hin as [He Hin]. exists a. split; [by apply elem_of_map_to_list|done].
  - intros now tok id cred k r k' _ E. eapply plain_guarded; [|exact E|apply plain_written]. done.
  - intros now tok role k j rep _. unfold plain_serve. case_decide; [done|]. case_decide; [|done]. by intros _ [= <-] [= <-].
  - intros now tok id rep k r k' _ _ E. eapply plain_guarded; [|exact E|apply plain_written]. done.
  - intros now tok id rep k r k' _ _ E. eapply plain_guarded; [|exact E|apply plain_written]. done.
  - intros now tok id k reps _. unfold plain_serve. case_decide; [done|]. destruct (pk_accounts k !! id) as [a|]; [|done].
    intros _. cbn [fst ry_doc plain_doc]. unfold dec_roles, dec_array.
    rewrite (dec_all_map dec_role role_json (fun r => mkRoleRep r r)) by done. intros [= <-] a' [= <-] rep Hin.
    apply list_elem_of_In, in_map_iff in Hin as (role & <- & Hin%list_elem_of_In). by apply elem_of_elements.
  - intros now tok role max k us _. apply plain_role_users.
  - intros now tok now' tok' id o b k k2 r k' _ _ _ _ _ E. eapply plain_guarded; [|exact E|]; [done|].
    unfold dec_bool. rewrite jget_jset_eq. apply plain_written.
Defined.
End Plain.

(** A client whose token has expired, in front of one account. *)
#[local] Existing Instance ascii_case.

Definition demo_client : httpClient plain_kc :=
  mkHttpClient "admin-api" "secret" "stale" 0
    (mkPlainKc {[plain_id 0 := mkAccount "root@h2.example" true {["platform-admin"]} 0]} 1).

Lemma demo_client_ok : hc_ok demo_client.
Proof. intros id [a Ha]. simpl in Ha. apply lookup_singleton_Some in Ha as [<- _]. exists 0%nat. split; [simpl; lia|done]. Qed.

Lemma http_client_refines_directory_witness :
  let w := mkWorld () demo_client [] 1000 0 [Done; Done; Lost] [] [] in
  let '(r, w') := http_call (CallEnsure (plain_id 0) "operator") w in
  (hc_dir (w_led w') = intended (CallEnsure (plain_id 0) "operator") (hc_dir demo_client) \/ hc_dir (w_led w') = hc_dir demo_client) /\
  (r = Ok tt -> hc_dir (w_led w') = intended (CallEnsure (plain_id 0) "operator") (hc_dir demo_client)) /\
  hc_ok (w_led w') /\ outside w w'.
Proof.
  exact (http_client_refines_directory (CallEnsure (plain_id 0) "operator")
           (mkWorld () demo_client [] 1000 0 [Done; Done; Lost] [] []) demo_client_ok).
Defined.
