(* ===== verification/Onboarding.v ===== *)
(** * Stakeholder onboarding

    Models services/go/admin-api/internal/onboarding (store.go, handlers.go)
    and the pending-TTL sweep of cmd/server/main.go: the table of onboarding
    requests with its constraints, the public intake and citizen self-serve,
    the platform-admin decisions, the reconciliation and the public status.
    The identity provider is any [AdminClient].  The theorems are in
    [OnboardingTheorems]. *)

From Stdlib Require Import Ascii String.
From stdpp Require Import gmap strings list.
From S2P Require Import Prelude Codec World Auth InfraDb Keycloak.

Open Scope Z_scope.
Open Scope go_scope.

(** ** Personas and statuses *)

Definition personaRoles : gmap string string := list_to_map [
  ("citizen", "citizen"); ("driver", "driver"); ("operator", "operator"); ("station-staff", "station-staff");
  ("advertiser", "citizen"); ("data-partner", "citizen"); ("gov-viewer", "citizen")].

(** Indexing the Go map: the empty string for an unknown persona. *)
Definition RealmRole (persona : string) : string := default "" (personaRoles !! persona).

Definition IsIntakePersona (persona : string) : bool :=
  bool_decide (is_Some (personaRoles !! persona)) && negb (bool_decide (persona = "citizen")).

Definition statuses : list string := ["pending"; "approved"; "rejected"; "completed"; "expired"].

(** A row of platform.onboarding_requests. *)
Record Request : Type := mkRequest {
  rq_id : string; rq_persona : string; rq_email : string; rq_name : string; rq_org : string; rq_status : string;
  rq_sub : string; rq_meta : json; rq_created : Z; rq_decided_at : option Z; rq_decided_by : string }.

Abbreviation Requests := (gmap string Request).

Definition request_json (r : Request) : json :=
  JObj [("id", JStr (rq_id r)); ("persona", JStr (rq_persona r)); ("email", JStr (rq_email r));
        ("display_name", JStr (rq_name r)); ("org", JStr (rq_org r)); ("status", JStr (rq_status r));
        ("keycloak_sub", JStr (rq_sub r)); ("meta", rq_meta r); ("created_at", JTime (rq_created r));
        ("decided_at", timeValue (rq_decided_at r)); ("decided_by", JStr (rq_decided_by r))].

(** jsonb's [||]. *)
Definition json_merge (o p : list (string * json)) : list (string * json) := foldl (fun acc kv => jset kv.1 kv.2 acc) o p.

Definition jsonb_concat (a b : json) : json :=
  match a, b with
  | JObj o, JObj p => JObj (json_merge o p)
  | JList l, JList l' => JList (l ++ l')
  | JList l, _ => JList (l ++ [b])
  | _, JList l' => JList (a :: l')
  | _, _ => JList [a; b]
  end.

(** ** The statements of PGStore; [pgx.ErrNoRows] stands for its ErrNotFound *)

Section Store.
Context `{Unicode} `{PgServer}.

(** The partial unique index on (persona, lower(email)) of pending rows. *)
Definition pending_for (persona email : string) (r : Request) : bool :=
  bool_decide (rq_persona r = persona) && bool_decide (pg_lower (rq_email r) = pg_lower email) &&
  bool_decide (rq_status r = "pending").

Definition pending_clash (r x : Request) : bool :=
  bool_decide (rq_status r = "pending") && negb (bool_decide (rq_id x = rq_id r)) &&
  pending_for (rq_persona r) (rq_email r) x.

(** Write a row, if the CHECK on the status and the index allow it. *)
Definition write_request (r : Request) (d : Requests) : result (Request * (Requests -> Requests)) :=
  if bool_decide (rq_status r ∈ statuses) then
    match find_row (pending_clash r) d with
    | Some _ => Err (PgError unique_violation)
    | None => Ok (r, fun d => <[rq_id r := r]> d)
    end
  else Err (PgError check_violation).

Definition insert_request (r : Request) (d : Requests) : result (Request * (Requests -> Requests)) :=
  match d !! rq_id r with
  | Some _ => Err (PgError unique_violation)
  | None => write_request r d
  end.

Definition select_request (id : string) (d : Requests) : result Request :=
  match uuid_in id with
  | Err e => Err e
  | Ok id => match d !! id with Some r => Ok r | None => Err ErrNoRows end
  end.

Definition update_request (id : string) (f : Request -> Request) (d : Requests) : result (Request * (Requests -> Requests)) :=
  match select_request id d with
  | Err e => Err e
  | Ok r => write_request (f r) d
  end.

Definition decided (status sub by_ reason : string) (now : Z) (r : Request) : Request :=
  mkRequest (rq_id r) (rq_persona r) (rq_email r) (rq_name r) (rq_org r) status
    (if bool_decide (sub = "") then rq_sub r else sub)
    (if bool_decide (reason = "") then rq_meta r else jsonb_concat (rq_meta r) (JObj [("reject_reason", JStr reason)]))
    (rq_created r) (Some now) by_.

Definition with_meta (patch : list (string * json)) (r : Request) : Request :=
  mkRequest (rq_id r) (rq_persona r) (rq_email r) (rq_name r) (rq_org r) (rq_status r) (rq_sub r)
    (jsonb_concat (rq_meta r) (JObj patch)) (rq_created r) (rq_decided_at r) (rq_decided_by r).

Definition expire (before now : Z) (r : Request) : Request :=
  if bool_decide (rq_status r = "pending") && (rq_created r <? before) then
    mkRequest (rq_id r) (rq_persona r) (rq_email r) (rq_name r) (rq_org r) "expired" (rq_sub r) (rq_meta r)
      (rq_created r) (Some now) "system:ttl-expiry"
  else r.

Definition listed (status persona : string) (d : Requests) : list Request :=
  let matching := filter (fun r => (status = "" \/ rq_status r = status) /\ (persona = "" \/ rq_persona r = persona)) (rows d) in
  order_asc (fun r => - rq_created r) (rev (order_text rq_id matching)).

Section Ops.
Context {S : Type} `{Runtime}.

Abbreviation OM := (M Requests S).

(** [Create]: the stored row has meta '{}' when the body had none; the
    returned request is the caller's, with the id and creation time. *)
Definition Create (persona email name org : string) (meta : option json) : OM (result Request) :=
  let! id := new_uuid in
  let! now := gets w_now in
  let row m := mkRequest id persona email name org "pending" "" m now None "" in
  try! _ := db_exec (insert_request (row (default (JObj []) meta))) catch e => gret (Err e) in
  gret (Ok (row (default JNull meta))).

Definition GetRequest (id : string) : OM (result Request) := db_query (select_request id).

Definition ListRequests (status persona : string) (limit offset : Z) : OM (result (list Request)) :=
  let limit := if (limit <=? 0) || (500 <? limit) then 100 else limit in
  let offset := if offset <? 0 then 0 else offset in
  db_query (fun d => Ok (take (Z.to_nat limit) (drop (Z.to_nat offset) (listed status persona d)))).

Definition Decide (id status sub decidedBy reason : string) : OM (result Request) :=
  let! now := gets w_now in
  db_exec (update_request id (decided status sub decidedBy reason now)).

Definition FindPending (persona email : string) : OM (result Request) :=
  db_query (fun d => match find_row (pending_for persona email) d with Some r => Ok r | None => Err ErrNoRows end).

Definition CountRecent (email : string) (since : Z) : OM (result Z) :=
  db_query (fun d => Ok (Z.of_nat (length (filter
    (fun r => pg_lower (rq_email r) = pg_lower email /\ since <= rq_created r) (rows d))))).

Definition ExpirePending (before : Z) : OM (result Z) :=
  let! now := gets w_now in
  db_exec (fun d => Ok (Z.of_nat (length (filter (fun r => rq_status r = "pending" /\ rq_created r < before) (rows d))),
                        fun d => expire before now <$> d)).

Definition MergeMeta (id : string) (patch : list (string * json)) : OM (result Request) :=
  db_exec (update_request id (with_meta patch)).
End Ops.
End Store.

(** ** The intake body *)

(** [in_meta]: the length of the raw value and its document, if present. *)
Record intakeBody : Type := mkIntake {
  in_email : string; in_name : string; in_org : string; in_meta : option (Z * json); in_captcha : string }.

(** [[^@\s]] of the e-mail pattern. *)
Definition plain_char (c : ascii) : bool :=
  let n := ascii_byte c in negb ((n =? 64) || (n =? 9) || (n =? 10) || (n =? 12) || (n =? 13) || (n =? 32)).

(** A dot with something before and after it. *)
Fixpoint inner_dot (first : bool) (l : list ascii) : bool :=
  match l with
  | [] => false
  | c :: l' => (negb first && Ascii.eqb c "." && negb (bool_decide (l' = []))) || inner_dot false l'
  end.

(** [emailRe]: ^[^@\s]+@[^@\s]+\.[^@\s]+$ *)
Definition emailRe (s : string) : bool :=
  match split_on "@" (list_ascii_of_string s) [] with
  | [local; domain] =>
      let l := list_ascii_of_string local in
      let d := list_ascii_of_string domain in
      negb (bool_decide (l = [])) && forallb plain_char l && forallb plain_char d && inner_dot true d
  | _ => false
  end.

Definition slen (s : string) : Z := Z.of_nat (String.length s).

Section Body.
Context `{Unicode}.

Definition normalize (b : intakeBody) : intakeBody :=
  mkIntake (ToLower (TrimSpace (in_email b))) (TrimSpace (in_name b)) (TrimSpace (in_org b)) (in_meta b) (in_captcha b).

(** [validate]: the normalised body, and what is wrong with it ("" for nothing).
    The document was decoded, so the raw meta is valid JSON. *)
Definition validate (b : intakeBody) : intakeBody * string :=
  let b := normalize b in
  (b, if negb (emailRe (in_email b)) || (254 <? slen (in_email b)) then "email is missing or malformed"
      else if bool_decide (in_name b = "") || (120 <? slen (in_name b)) then "display_name is required (max 120 chars)"
      else if 200 <? slen (in_org b) then "org too long (max 200 chars)"
      else if match in_meta b with Some (n, _) => 8192 <? n | None => false end then "meta too large (max 8 KiB)"
      else "").

Definition license_no (meta : option (Z * json)) : option string :=
  m ← meta; o ← doc_obj m.2; dec_str o "license_no".

Definition validateForPersona (persona : string) (b : intakeBody) : intakeBody * string :=
  let '(b, msg) := validate b in
  (b, if negb (bool_decide (msg = "")) then msg
      else if bool_decide (persona = "citizen") then ""
      else if bool_decide (in_org b = "") then "org is required for " +:+ persona +:+ " onboarding"
      else if bool_decide (persona = "driver") then
        match license_no (in_meta b) with
        | None => "driver onboarding requires meta.license_no"
        | Some l => let n := slen (TrimSpace l) in
                    if (n <? 4) || (64 <? n) then "meta.license_no is required (4–64 chars)" else ""
        end
      else "").
End Body.

(** ** The handlers *)

Record CaptchaConfig : Type := mkCaptcha { VerifyURL : string; Secret : string }.

(** Durations in milliseconds; the generator of temporary passwords by time. *)
Record Handler : Type := mkHandler { h_password : Z -> string; h_PendingTTL : Z; h_Captcha : option CaptchaConfig }.

Definition maxRequestsPerEmailPerDay : Z := 5.
Definition day_ms : Z := 86400000.
Definition defaultPendingTTL : Z := 30 * day_ms.
Definition welcomeActions : list string := ["VERIFY_EMAIL"; "UPDATE_PASSWORD"].

Definition isUniqueViolation (e : error) : bool := bool_decide (e = PgError unique_violation).

(** The alphabet of temporary passwords, and one of 16 letters: the draw of
    [rand.Int] below the alphabet's length, or the clock when it fails. *)
Definition password_alphabet : list ascii :=
  list_ascii_of_string "abcdefghijkmnpqrstuvwxyzABCDEFGHJKLMNPQRSTUVWXYZ23456789".

Definition generateTempPassword (draws : list (Z + Z)) : string :=
  string_of_list_ascii (map (fun dr =>
    let i := match dr with inl n => n | inr nanos => Z.rem nanos (Z.of_nat (length password_alphabet)) end in
    nth (Z.to_nat i) password_alphabet zero) (take 16 draws)).

Section Handlers.
Context {KC : Type} `{AdminClient KC} `{Unicode} `{PgServer} `{Runtime} (h : Handler).

Abbreviation OM := (M Requests KC).

Definition fail_create : OM response := reply_error 500 "failed to create onboarding request".

(** [None]: go on. *)
Definition verifyCaptcha (token : string) : OM (option response) :=
  match h_Captcha h with
  | None => gret None
  | Some cfg =>
      if bool_decide (token = "") then gret (Some (json_error 400 "captcha_token is required"))
      else
        let! r := http_do (mkHttpRequest "POST" (VerifyURL cfg)
                             (JObj [("secret", JStr (Secret cfg)); ("response", JStr token)])) in
        match r with
        | HttpReply _ _ _ (Some doc) =>
            match doc_obj doc with
            | Some o =>
                match jget "success" o with
                | Some (JBool true) => gret None
                | None | Some JNull | Some (JBool false) => gret (Some (json_error 400 "captcha verification failed"))
                | Some _ => gret (Some (json_error 502 "captcha verification unavailable"))
                end
            | None => gret (Some (json_error 502 "captcha verification unavailable"))
            end
        | _ => gret (Some (json_error 502 "captcha verification unavailable"))
        end
  end.

Definition overVelocity (email : string) : OM (option response) :=
  let! now := gets w_now in
  try! n := CountRecent email (now - day_ms)
  catch e => gret (Some (json_error 500 "failed to create onboarding request")) in
  gret (if maxRequestsPerEmailPerDay <=? n
        then Some (json_error 429 "too many onboarding requests for this email address; try again later") else None).

Definition provision (persona email displayName : string) : OM (result (string * bool)) :=
  try! (userID, existed) := CreateUser (mkSpec email email displayName) catch e => gret (Err e) in
  let! now := gets w_now in
  try! _ := (if existed : bool then gret (Ok tt) else SetTemporaryPassword userID (h_password h now)) catch e => gret (Err e) in
  try! _ := EnsureRealmRole userID (RealmRole persona) catch e => gret (Err e) in
  try! _ := SendActionsEmail userID welcomeActions catch e => gret (Err e) in
  gret (Ok (userID, existed)).

Definition provisionCitizen (req : Request) (retried : bool) : OM response :=
  let! p := provision "citizen" (rq_email req) (rq_name req) in
  match p with
  | Err _ =>
      do! MergeMeta (rq_id req) [("provision_error", JStr "identity provisioning failed; safe to retry")] in
      reply_error 502 "identity provisioning failed"
  | Ok (kcID, _) =>
      try! final := Decide (rq_id req) "completed" kcID "self-service" ""
      catch e => reply_error 500 "failed to finalize onboarding request" in
      reply (if retried then 200 else 201)
        (JObj [("request", request_json final);
               ("message", JStr "account created; check your email to verify the address and set a password")])
  end.

(** A body that cannot be decoded is the decoder's message. *)
Abbreviation decoded A := (string + A)%type.

Definition CitizenSelfServe (b : decoded intakeBody) : OM response :=
  match b with
  | inl msg => reply_error 400 ("invalid JSON body: " +:+ msg)
  | inr b =>
      let '(b, msg) := validate b in
      if negb (bool_decide (msg = "")) then reply_error 400 msg
      else
        let! c := verifyCaptcha (TrimSpace (in_captcha b)) in
        match c with
        | Some r => gret r
        | None =>
            let! existing := FindPending "citizen" (in_email b) in
            match existing with
            | Ok req => provisionCitizen req true
            | Err ErrNoRows =>
                let! v := overVelocity (in_email b) in
                match v with
                | Some r => gret r
                | None =>
                    let! created := Create "citizen" (in_email b) (in_name b) (in_org b) (snd <$> in_meta b) in
                    match created with
                    | Ok req => provisionCitizen req false
                    | Err e =>
                        if isUniqueViolation e then
                          let! existing := FindPending "citizen" (in_email b) in
                          match existing with
                          | Ok req => provisionCitizen req true
                          | Err _ => fail_create
                          end
                        else fail_create
                    end
                end
            | Err _ => fail_create
            end
        end
  end.

Definition deduplicated (req : Request) : OM response :=
  reply 200 (JObj [("request", request_json req); ("deduplicated", JBool true)]).

Definition Intake (persona : string) (b : decoded intakeBody) : OM response :=
  if negb (IsIntakePersona persona) then
    if bool_decide (persona = "citizen") then reply_error 400 "citizens self-serve via POST /v1/onboarding/citizen"
    else reply_error 404 ("unknown onboarding persona: " +:+ persona)
  else
    match b with
    | inl msg => reply_error 400 ("invalid JSON body: " +:+ msg)
    | inr b =>
        let '(b, msg) := validateForPersona persona b in
        if negb (bool_decide (msg = "")) then reply_error 400 msg
        else
          let! c := verifyCaptcha (TrimSpace (in_captcha b)) in
          match c with
          | Some r => gret r
          | None =>
              let! existing := FindPending persona (in_email b) in
              match existing with
              | Ok req => deduplicated req
              | Err ErrNoRows =>
                  let! v := overVelocity (in_email b) in
                  match v with
                  | Some r => gret r
                  | None =>
                      let! created := Create persona (in_email b) (in_name b) (in_org b) (snd <$> in_meta b) in
                      match created with
                      | Ok req => reply 201 (JObj [("request", request_json req)])
                      | Err e =>
                          if isUniqueViolation e then
                            let! existing := FindPending persona (in_email b) in
                            match existing with
                            | Ok req => deduplicated req
                            | Err _ => fail_create
                            end
                          else fail_create
                      end
                  end
              | Err _ => fail_create
              end
          end
    end.

Definition List (status persona : string) : OM response :=
  if negb (bool_decide (status = "")) && negb (bool_decide (status ∈ statuses)) then
    reply_error 400 "invalid status filter (pending|approved|rejected|completed|expired)"
  else if negb (bool_decide (persona = "")) && negb (bool_decide (is_Some (personaRoles !! persona))) then
    reply_error 400 "invalid persona filter"
  else
    try! reqs := ListRequests status persona 100 0 catch e => reply_error 500 "failed to list onboarding requests" in
    reply 200 (JObj [("requests", JList (map request_json reqs))]).

(** The lookup of [Get], [StatusPublic] and [decide]. *)
Definition load (id : string) (k : Request -> OM response) : OM response :=
  let! r := GetRequest id in
  match r with
  | Ok req => k req
  | Err ErrNoRows => reply_error 404 "onboarding request not found"
  | Err _ => reply_error 500 "failed to load onboarding request"
  end.

Definition Get (key : string) : OM response := load key (fun req => reply 200 (JObj [("request", request_json req)])).

(** What the public status shows of a request. *)
Definition status_json (r : Request) : json :=
  JObj [("id", JStr (rq_id r)); ("persona", JStr (rq_persona r)); ("status", JStr (rq_status r));
        ("created_at", JTime (rq_created r)); ("decided_at", timeValue (rq_decided_at r))].

Definition StatusPublic (id : string) : OM response := load id (fun req => reply 200 (status_json req)).

(** *** Decisions: up to the loaded pending request, then the two verdicts *)

Definition decide_load (ctx : claims) (id : string) : OM (response + Request) :=
  if negb (hasRole ctx "platform-admin") then
    gret (inl (json_error 403 "onboarding decisions require the platform-admin role"))
  else
    let! r := GetRequest id in
    match r with
    | Err ErrNoRows => gret (inl (json_error 404 "onboarding request not found"))
    | Err _ => gret (inl (json_error 500 "failed to load onboarding request"))
    | Ok req =>
        let! now := gets w_now in
        if bool_decide (rq_status req = "pending") && (0 <? h_PendingTTL h) && (h_PendingTTL h <? now - rq_created req) then
          do! Decide id "expired" "" "system:ttl-expiry" "" in
          gret (inl (json_error 409 "request expired (pending longer than the onboarding TTL)"))
        else if negb (bool_decide (rq_status req = "pending")) then
          gret (inl (json_error 409 ("request already decided (status=" +:+ rq_status req +:+ ")")))
        else gret (inr req)
    end.

(** The body of a rejection: none, or a document with a reason. *)
Definition decide_reject (ctx : claims) (id : string) (b : option (decoded string)) : OM response :=
  match b with
  | Some (inl msg) => reply_error 400 ("invalid JSON body: " +:+ msg)
  | Some (inr _) | None =>
      let reason := match b with Some (inr reason) => reason | _ => "" end in
      if 500 <? slen reason then reply_error 400 "reason too long (max 500 chars)"
      else
        try! final := Decide id "rejected" "" (Subject ctx) (TrimSpace reason)
        catch e => reply_error 500 "failed to reject onboarding request" in
        reply 200 (JObj [("request", request_json final)])
  end.

Definition decide_approve (ctx : claims) (id : string) (req : Request) : OM response :=
  let! p := provision (rq_persona req) (rq_email req) (rq_name req) in
  match p with
  | Err _ => reply_error 502 "identity provisioning failed"
  | Ok (kcID, existed) =>
      try! final := Decide id "completed" kcID (Subject ctx) "" catch e => reply_error 500 "failed to finalize onboarding request" in
      reply 200 (JObj [("request", request_json final); ("existing_account", JBool existed)])
  end.

Definition Approve (ctx : claims) (id : string) : OM response :=
  let! r := decide_load ctx id in
  match r with inl resp => gret resp | inr req => decide_approve ctx id req end.

Definition Reject (ctx : claims) (id : string) (b : option (decoded string)) : OM response :=
  let! r := decide_load ctx id in
  match r with inl resp => gret resp | inr req => decide_reject ctx id b end.

(** *** Reconciliation *)

Record tally : Type := mkTally { tl_checked : Z; tl_ensured : Z; tl_failed : list string }.

Fixpoint reconcile_page (reqs : list Request) (t : tally) : OM tally :=
  match reqs with
  | [] => gret t
  | req :: rest =>
      let t := mkTally (tl_checked t + 1) (tl_ensured t) (tl_failed t) in
      if bool_decide (rq_sub req = "") then reconcile_page rest t
      else
        let! r := EnsureRealmRole (rq_sub req) (RealmRole (rq_persona req)) in
        reconcile_page rest
          (match r with
           | Err _ => mkTally (tl_checked t) (tl_ensured t) (tl_failed t ++ [rq_id req])
           | Ok _ => mkTally (tl_checked t) (tl_ensured t + 1) (tl_failed t)
           end)
  end.

Definition page : Z := 500.

(** The loop over the pages; [None] when the fuel runs out. *)
Fixpoint reconcile_loop (fuel : nat) (offset : Z) (t : tally) : OM (option (result tally)) :=
  match fuel with
  | O => gret None
  | S fuel =>
      try! reqs := ListRequests "completed" "" page offset catch e => gret (Some (Err e)) in
      let! t := reconcile_page reqs t in
      if Z.of_nat (length reqs) <? page then gret (Some (Ok t)) else reconcile_loop fuel (offset + page) t
  end.

(** Every full page holds 500 rows of the table. *)
Definition reconcile_fuel (d : Requests) : nat := Nat.succ (size d).

Definition tally_json (t : tally) : json :=
  JObj [("checked", JInt (tl_checked t)); ("ensured", JInt (tl_ensured t)); ("failed", JInt (Z.of_nat (length (tl_failed t))));
        ("failed_ids", JList (map JStr (tl_failed t)))].

Definition Reconcile (ctx : claims) : OM (option response) :=
  if negb (hasRole ctx "platform-admin") then
    gret (Some (json_error 403 "onboarding reconcile requires the platform-admin role"))
  else
    let! fuel := gets (fun w => reconcile_fuel (w_db w)) in
    let! r := reconcile_loop fuel 0 (mkTally 0 0 []) in
    gret (match r with
          | None => None
          | Some (Err _) => Some (json_error 500 "failed to list completed requests")
          | Some (Ok t) => Some (mkResponse 200 (tally_json t))
          end).

(** *** The pending-TTL sweep of main.go *)

Definition expireSweep : OM unit :=
  let! now := gets w_now in
  do! ExpirePending (now - h_PendingTTL h) in
  gret tt.
End Handlers.

(** ONBOARDING_PENDING_TTL_DAYS: [time.Duration(days) * 24 * time.Hour] in
    int64 nanoseconds, as milliseconds. *)
Definition pendingTTL (raw : string) : Z :=
  let days := match ParseInt raw with Some n => if n <? 1 then 30 else n | None => 30 end in
  wrap_i64 (wrap_i64 (days * 24) * 3600000000000) / 1000000.

Example pendingTTL_default : pendingTTL "" = defaultPendingTTL.
Proof. reflexivity. Qed.
