(* ===== verification/OnboardingTheorems.v ===== *)
(** * What onboarding guarantees

    Theorems about [Onboarding], for every identity provider that keeps the
    promise of [Keycloak.DirectoryLaws]: the table of requests, the directory
    of accounts, the retries and the reconciliation, under any faults.  The
    requests of a run are executed one after the other; the races of two
    decisions are shown on concrete runs. *)

From Stdlib Require Import String.
From stdpp Require Import gmap strings list.
From S2P Require Import Prelude Codec World Auth InfraDb Keycloak KeycloakHttp Onboarding.

Open Scope Z_scope.
Open Scope go_scope.

(** ** The table *)

(** What never changes of a row. *)
Definition identity (r : Request) : string * string * string * string * string * Z :=
  (rq_id r, rq_persona r, rq_email r, rq_name r, rq_org r, rq_created r).

(** A decided row is final. *)
Definition row_life (r r' : Request) : Prop := identity r' = identity r /\ (rq_status r <> "pending" -> r' = r).

#[global] Instance row_life_preorder : PreOrder row_life.
Proof.
  split; [done|]. intros r1 r2 r3 [H12 E12] [H23 E23]. split; [congruence|]. intros Hs.
  specialize (E12 Hs). subst r2. auto.
Qed.

Record row_ok (r : Request) : Prop := mkRowOk {
  ro_persona : is_Some (personaRoles !! rq_persona r);
  ro_status : rq_status r ∈ ["pending"; "rejected"; "completed"; "expired"];
  ro_decided : rq_status r = "pending" <-> rq_decided_at r = None;
  ro_sub : rq_sub r <> "" -> rq_status r = "completed"
}.

Section Table.
Context `{Unicode} `{PgServer}.

(** A row of an address in the 24 hours up to [t]. *)
Definition recent_for (email : string) (t : Z) (r : Request) : Prop :=
  pg_lower (rq_email r) = pg_lower email /\ t - day_ms <= rq_created r <= t.

#[global] Instance recent_for_dec email t r : Decision (recent_for email t r).
Proof. unfold recent_for. apply _. Defined.

Definition recent (email : string) (t : Z) (d : Requests) : Z := Z.of_nat (length (filter (recent_for email t) (rows d))).

Record table_ok (now : Z) (d : Requests) : Prop := mkTableOk {
  tk_key k r : d !! k = Some r -> rq_id r = k /\ uuid_in k = Ok k;
  tk_row k r : d !! k = Some r -> row_ok r;
  tk_past k r : d !! k = Some r -> rq_created r <= now;
  tk_single k1 k2 r1 r2 : d !! k1 = Some r1 -> d !! k2 = Some r2 -> pending_clash r1 r2 = false;
  tk_velocity email t : recent email t d <= maxRequestsPerEmailPerDay
}.

Definition rows_live (d d' : Requests) : Prop :=
  forall k r, d !! k = Some r -> exists r', d' !! k = Some r' /\ row_life r r'.

#[global] Instance rows_live_preorder : PreOrder rows_live.
Proof.
  split; [by intros d k r; eexists|]. intros d1 d2 d3 H12 H23 k r (r2 & Hk2 & Hl2)%H12.
  destruct (H23 _ _ Hk2) as (r3 & Hk3 & Hl3). exists r3. split; [done|by etransitivity].
Qed.

Lemma identity_fields r r' : identity r' = identity r ->
  rq_id r' = rq_id r /\ rq_persona r' = rq_persona r /\ rq_email r' = rq_email r /\ rq_created r' = rq_created r.
Proof. unfold identity. intros E. by injection E. Qed.

Lemma pending_clash_true r x : pending_clash r x = true <->
  rq_status r = "pending" /\ rq_id x <> rq_id r /\ rq_persona x = rq_persona r /\
  pg_lower (rq_email x) = pg_lower (rq_email r) /\ rq_status x = "pending".
Proof.
  unfold pending_clash, pending_for. rewrite !andb_true_iff, negb_true_iff, bool_decide_eq_false, !bool_decide_eq_true. tauto.
Qed.

Lemma recent_identity email t d d' : identity <$> d' = identity <$> d -> recent email t d' = recent email t d.
Proof.
  intros E. unfold recent. rewrite !count_rows.
  set (F := fun (_ : string) (i : string * string * string * string * string * Z) =>
    if decide (pg_lower i.1.1.1.2 = pg_lower email /\ t - day_ms <= i.2 <= t) then 1 else 0).
  assert (forall d, msum (fun _ v => if decide (recent_for email t v) then 1 else 0) d = msum F (identity <$> d)) as Hm.
  { intros d0. rewrite msum_fmap. apply msum_ext. intros k v _. unfold F, recent_for. simpl. by repeat case_decide. }
  by rewrite !Hm, E.
Qed.

(** Rows that live on in place, well formed, keep the table well formed. *)
Lemma table_evolves now d d' :
  table_ok now d -> identity <$> d' = identity <$> d ->
  (forall k r r', d !! k = Some r -> d' !! k = Some r' -> row_life r r' /\ row_ok r' /\ (rq_status r' = "pending" -> rq_status r = "pending")) ->
  table_ok now d' /\ rows_live d d'.
Proof.
  intros Hok Hid Hrows.
  assert (forall k r', d' !! k = Some r' -> exists r, d !! k = Some r /\ row_life r r' /\ row_ok r' /\
            (rq_status r' = "pending" -> rq_status r = "pending") /\ identity r' = identity r) as Hback.
  { intros k r' Hr'. assert (is_Some ((identity <$> d) !! k)) as [i Hi] by (rewrite <- Hid, lookup_fmap, Hr'; by eexists).
    rewrite lookup_fmap in Hi. destruct (d !! k) as [r|] eqn:Hr; [|done]. exists r. split; [done|].
    destruct (Hrows k r r' Hr Hr') as ([? ?] & ? & ?). done. }
  split.
  - destruct Hok as [Hk Hr Hp Hs Hv]. split.
    + intros k r' (r & Hr0 & _ & _ & _ & (-> & _)%identity_fields)%Hback. eauto.
    + intros k r' (r & _ & _ & ? & _)%Hback. done.
    + intros k r' (r & Hr0 & _ & _ & _ & (_ & _ & _ & ->)%identity_fields)%Hback. eauto.
    + intros k1 k2 r1' r2' (r1 & Hr1 & _ & _ & Hs1 & (Ei1 & Ep1 & Ee1 & _)%identity_fields)%Hback
        (r2 & Hr2 & _ & _ & Hs2 & (Ei2 & Ep2 & Ee2 & _)%identity_fields)%Hback.
      apply not_true_iff_false. rewrite pending_clash_true, Ei1, Ei2, Ep1, Ep2, Ee1, Ee2. intros (? & ? & ? & ? & ?).
      assert (pending_clash r1 r2 = true) as Hc by (apply pending_clash_true; split_and!; auto). by rewrite (Hs k1 k2) in Hc.
    + intros email t. rewrite (recent_identity email t _ _ Hid). apply Hv.
  - intros k r Hr. assert (is_Some ((identity <$> d') !! k)) as [i Hi] by (rewrite Hid, lookup_fmap, Hr; by eexists).
    rewrite lookup_fmap in Hi. destruct (d' !! k) as [r'|] eqn:Hr'; [|done]. exists r'. split; [done|]. by eapply Hrows.
Qed.

(** One row rewritten in place. *)
Lemma table_update now d k r r' :
  table_ok now d -> d !! k = Some r -> row_life r r' -> row_ok r' -> (rq_status r' = "pending" -> rq_status r = "pending") ->
  table_ok now (<[k := r']> d) /\ rows_live d (<[k := r']> d).
Proof.
  intros Hok Hr Hl Ho Hs. apply table_evolves; [done| |].
  - rewrite fmap_insert, (proj1 Hl). apply insert_id. by rewrite lookup_fmap, Hr.
  - intros k' x x' Hx [[<- <-]|[Hne Hx']]%lookup_insert_Some.
    + rewrite Hr in Hx. by injection Hx as <-.
    + rewrite Hx in Hx'. injection Hx' as <-. split; [reflexivity|]. split; [by eapply tk_row|done].
Qed.

Lemma pending_clash_sym r x : pending_clash r x = pending_clash x r.
Proof. apply eq_true_iff_eq. rewrite !pending_clash_true. split; intros (? & ? & ? & ? & ?); split_and!; congruence. Qed.

Lemma recent_insert email t k r d : d !! k = None ->
  recent email t (<[k := r]> d) = (if decide (recent_for email t r) then 1 else 0) + recent email t d.
Proof. intros Hk. unfold recent. rewrite !count_rows. by rewrite msum_insert_new. Qed.

Lemma recent_now email t now d : (forall k r, d !! k = Some r -> rq_created r <= now) -> now <= t ->
  recent email t d <= recent email now d.
Proof.
  intros Hp Ht. unfold recent. rewrite !count_rows. apply msum_le. intros k r Hr. pose proof (Hp k r Hr).
  destruct (decide (recent_for email t r)) as [[He Hb]|]; [rewrite decide_True by (split; [done|lia]); lia|].
  case_decide; lia.
Qed.

Lemma recent_email e e' t d : pg_lower e = pg_lower e' -> recent e t d = recent e' t d.
Proof. intros E. unfold recent. rewrite !count_rows. apply msum_ext. intros k r _.
  do 2 case_decide; unfold recent_for in *; rewrite ?E in *; tauto.
Qed.

(** What [CountRecent] counts at the present. *)
Lemma count_recent now email d : (forall k r, d !! k = Some r -> rq_created r <= now) ->
  Z.of_nat (length (filter (fun r => pg_lower (rq_email r) = pg_lower email /\ now - day_ms <= rq_created r) (rows d))) =
  recent email now d.
Proof.
  intros Hp. unfold recent. rewrite !count_rows. apply msum_ext. intros k r Hr. specialize (Hp k r Hr).
  do 2 case_decide; unfold recent_for in *; try done; exfalso; intuition lia.
Qed.

Lemma table_insert now d r :
  table_ok now d -> d !! rq_id r = None -> uuid_in (rq_id r) = Ok (rq_id r) -> row_ok r -> rq_created r = now ->
  find_row (pending_clash r) d = None -> recent (rq_email r) now d < maxRequestsPerEmailPerDay ->
  table_ok now (<[rq_id r := r]> d) /\ rows_live d (<[rq_id r := r]> d).
Proof.
  intros [Hk Hr Hp Hs Hv] Hn Hu Ho Hc Hf Hcount. split.
  - split.
    + by intros k x [[<- <-]|[_ Hx]]%lookup_insert_Some; eauto.
    + by intros k x [[<- <-]|[_ Hx]]%lookup_insert_Some; eauto.
    + intros k x [[<- <-]|[_ Hx]]%lookup_insert_Some; [lia|eauto].
    + rewrite find_row_None in Hf.
      intros k1 k2 r1 r2 [[<- <-]|[_ H1]]%lookup_insert_Some [[<- <-]|[_ H2]]%lookup_insert_Some; eauto.
      * apply not_true_iff_false. rewrite pending_clash_true. naive_solver.
      * rewrite pending_clash_sym. eauto.
    + intros email t. rewrite recent_insert by done. case_decide as Hd; [|specialize (Hv email t); lia].
      destruct Hd as [He [_ Ht]]. rewrite Hc in Ht. pose proof (recent_now email t now d Hp Ht) as Hle.
      rewrite (recent_email (rq_email r) email now d) in Hcount by done. lia.
  - intros k x Hx. exists x. split; [|reflexivity]. rewrite lookup_insert_ne; [done|congruence].
Qed.

(** The sweep. *)
Lemma table_expire now before d : table_ok now d -> table_ok now (expire before now <$> d) /\ rows_live d (expire before now <$> d).
Proof.
  intros Hok. apply table_evolves; [done| |].
  - apply map_eq. intros k. rewrite !lookup_fmap. destruct (d !! k) as [r|]; simpl; [|done]. f_equal. unfold expire. by case_match.
  - intros k r r' Hr. rewrite lookup_fmap, Hr. simpl. intros [= <-]. pose proof (tk_row _ _ Hok k r Hr) as Ho. unfold expire.
    destruct (bool_decide (rq_status r = "pending")) eqn:Ep; simpl; [|split; [reflexivity|done]].
    apply bool_decide_eq_true in Ep. destruct (rq_created r <? before); [|split; [reflexivity|done]].
    split; [by split|]. split; [|done]. destruct Ho as [Hpe Hst Hde Hsu]. split; simpl; [done|rewrite !elem_of_cons; tauto|done|].
    intros Hne%Hsu. congruence.
Qed.

(** A lookup by a path parameter or by the id of a row. *)
Lemma select_row now d id r : table_ok now d -> select_request id d = Ok r -> d !! rq_id r = Some r.
Proof.
  intros Hok. unfold select_request. destruct (uuid_in id) as [k|]; [|done].
  destruct (d !! k) as [x|] eqn:Hx; [|done]. intros [= <-]. by destruct (tk_key _ _ Hok k x Hx) as [-> _].
Qed.

Lemma select_by_id now d k r : table_ok now d -> d !! k = Some r -> select_request (rq_id r) d = Ok r.
Proof. intros Hok Hr. unfold select_request. destruct (tk_key _ _ Hok k r Hr) as [-> ->]. by rewrite Hr. Qed.

Lemma update_inv now id f d b g : table_ok now d -> update_request id f d = Ok (b, g) ->
  (forall r, identity (f r) = identity r) ->
  exists r, select_request id d = Ok r /\ d !! rq_id r = Some r /\ b = f r /\ g d = <[rq_id r := f r]> d.
Proof.
  intros Hok. unfold update_request. destruct (select_request id d) as [r|] eqn:Hs; [|done]. intros Hw Hid.
  exists r. split; [done|]. split; [by eapply select_row|]. unfold write_request in Hw.
  destruct (bool_decide _); [|done]. destruct (find_row _ _); [done|]. injection Hw as <- <-. split; [done|].
  by destruct (identity_fields _ _ (Hid r)) as [-> _].
Qed.

Lemma decided_ok status sub by_ reason now r : row_ok r -> rq_status r = "pending" ->
  status ∈ ["rejected"; "completed"; "expired"] -> (sub <> "" -> status = "completed") -> row_ok (decided status sub by_ reason now r).
Proof.
  intros [Hpe Hst Hde Hsu] Hp Hs Hc. unfold decided. split; simpl; [done| | |].
  - rewrite !elem_of_cons in *. tauto.
  - split; [intros ->|done]. by rewrite !elem_of_cons, elem_of_nil in Hs; destruct_or?.
  - case_bool_decide; [|auto]. intros Hne%Hsu. congruence.
Qed.
End Table.

(** ** The directory *)

(** An account keeps its address, its enabled flag and its credentials, and
    gains no role outside [G]. *)
Record kept (G : gset string) (a a' : account) : Prop := mkKept {
  kp_email : ac_email a' = ac_email a;
  kp_enabled : ac_enabled a' = ac_enabled a;
  kp_resets : ac_resets a' = ac_resets a;
  kp_roles : ac_roles a ⊆ ac_roles a' /\ ac_roles a' ⊆ ac_roles a ∪ G
}.

(** Accounts are kept; a new one has the default roles and some of [G]. *)
Definition grows (defaults G : gset string) (d d' : directory) : Prop :=
  forall id, match d !! id with
             | Some a => exists a', d' !! id = Some a' /\ kept G a a'
             | None => forall a', d' !! id = Some a' -> ac_roles a' ⊆ defaults ∪ G
             end.

#[global] Instance grows_preorder defaults G : PreOrder (grows defaults G).
Proof.
  split.
  - intros d id. destruct (d !! id) as [a|]; [exists a; split; [done|split; try done; set_solver]|done].
  - intros d1 d2 d3 H12 H23 id. specialize (H12 id). specialize (H23 id). destruct (d1 !! id) as [a1|].
    + destruct H12 as (a2 & E2 & [? ? ? [? ?]]). rewrite E2 in H23. destruct H23 as (a3 & E3 & [? ? ? [? ?]]).
      exists a3. split; [done|]. split; [congruence..|]. split; set_solver.
    + destruct (d2 !! id) as [a2|]; [|done]. intros a3 E3. destruct H23 as (a3' & E3' & [_ _ _ [_ ?]]).
      rewrite E3 in E3'. injection E3' as <-. specialize (H12 a2 eq_refl). set_solver.
Qed.

Lemma grows_mono defaults G G' d d' : G ⊆ G' -> grows defaults G d d' -> grows defaults G' d d'.
Proof.
  intros HG Hg id. specialize (Hg id). destruct (d !! id) as [a|].
  - destruct Hg as (a' & ? & [? ? ? [? ?]]). exists a'. split; [done|]. split; [done..|]. split; [done|set_solver].
  - intros a' Ha'. specialize (Hg a' Ha'). set_solver.
Qed.

Lemma grows_add_role defaults G id role d : role ∈ G -> grows defaults G d (alter (add_role role) id d).
Proof.
  intros HG id'. destruct (decide (id' = id)) as [->|Hne].
  - destruct (d !! id) as [a|] eqn:Ha; rewrite lookup_alter_eq, Ha; simpl; [|done].
    exists (add_role role a). split; [done|]. split; try done. simpl. set_solver.
  - rewrite lookup_alter_ne by done. apply (grows_preorder defaults G).
Qed.

(** An account that was not there before may be created and given credentials. *)
Lemma grows_fresh defaults G id a d : d !! id = None -> ac_roles a ⊆ defaults -> grows defaults G d (<[id := a]> d).
Proof.
  intros Hn Ha id'. destruct (decide (id' = id)) as [->|Hne].
  - rewrite Hn, lookup_insert_eq. intros a' [= <-]. set_solver.
  - rewrite lookup_insert_ne by done. apply (grows_preorder defaults G).
Qed.

Lemma grows_changes {S A} (dir : S -> directory) defaults G f s (r : result A) s' :
  changes dir f s r s' -> grows defaults G (dir s) (f (dir s)) -> grows defaults G (dir s) (dir s').
Proof. unfold changes. intros [->|[-> _]] Hg; [done|reflexivity]. Qed.

Lemma grows_reset_fresh defaults G id d d' : d !! id = None -> grows defaults G d d' -> grows defaults G d (alter reset_credentials id d').
Proof.
  intros Hn Hg id'. specialize (Hg id'). destruct (decide (id' = id)) as [->|Hne]; [|by rewrite lookup_alter_ne].
  rewrite Hn in *. rewrite lookup_alter_eq. destruct (d' !! id) as [a|]; simpl; [|done].
  intros a' [= <-]. by apply (Hg a).
Qed.

(** *** Provisioning *)

Section Provision.
Context {KC D : Type} `{DirectoryLaws KC} (h : Handler).
Implicit Types w : World Requests KC.

Lemma wp_calls {A} (m : M Requests KC A) P (Q : A -> World Requests KC -> Prop) w :
  calls kc_ok m P -> kc_ok (w_led w) ->
  (forall r w', outside w w' -> kc_ok (w_led w') -> P (w_led w) r (w_led w') -> Q r w') -> wp m Q w.
Proof. intros Hm Hok HQ. destruct (Hm w Hok) as (? & ? & ?). by apply HQ. Qed.

Definition dirs w : directory := kc_dir (w_led w).

(** What provisioning leaves: the accounts that were there keep their
    credentials; on success the account has the persona's role. *)
Definition provisioned (persona email : string) w (r : result (string * bool)) w' : Prop :=
  outside w w' /\ kc_ok (w_led w') /\ grows kc_defaults {[RealmRole persona]} (dirs w) (dirs w') /\
  match r with
  | Ok (id, existed) =>
      existed = bool_decide (is_Some (dirs w !! id)) /\
      exists a, dirs w' !! id = Some a /\ EqualFold (ac_email a) email = true /\ RealmRole persona ∈ ac_roles a
  | Err _ => True
  end.

Lemma wp_created spec (Q : result (string * bool) -> World Requests KC -> Prop) w :
  kc_ok (w_led w) ->
  (forall r w', outside w w' -> kc_ok (w_led w') -> created kc_dir kc_defaults spec (w_led w) r (w_led w') -> Q r w') ->
  wp (CreateUser spec) Q w.
Proof. intros Hok HQ. eapply wp_calls; [apply law_create|done|done]. Qed.

Lemma created_grows spec G s r s' : created kc_dir kc_defaults spec s r s' -> grows kc_defaults G (kc_dir s) (kc_dir s').
Proof.
  intros [[-> _]|(id & a & Hn & _ & -> & _ & _ & Hr & _)]; [reflexivity|]. apply grows_fresh; [done|by rewrite Hr].
Qed.

(** The account [CreateUser] answered. *)
Lemma created_account spec s id existed s' : created kc_dir kc_defaults spec s (Ok (id, existed)) s' ->
  existed = bool_decide (is_Some (kc_dir s !! id)) /\
  exists a, kc_dir s' !! id = Some a /\ EqualFold (ac_email a) (cs_Email spec) = true.
Proof.
  intros [[-> (-> & a & Ha & He)]|(id' & a & Hn & _ & -> & He & _ & _ & _ & -> & ->)].
  - split; [|by eauto]. rewrite bool_decide_true; [done|by eexists].
  - split; [rewrite bool_decide_false; [done|by rewrite Hn; intros []]|]. exists a. by rewrite lookup_insert_eq.
Qed.

Lemma lookup_changed f id id' (d d' : directory) a :
  d' = alter f id d \/ d' = d -> (forall b, ac_email (f b) = ac_email b) -> d !! id' = Some a ->
  exists a', d' !! id' = Some a' /\ ac_email a' = ac_email a.
Proof.
  intros Hd Hf Ha. destruct Hd as [->| ->]; [|by eauto]. destruct (decide (id' = id)) as [->|Hne].
  - rewrite lookup_alter_eq, Ha. simpl. eauto.
  - rewrite lookup_alter_ne by done. eauto.
Qed.

Lemma wp_provision persona email name (Q : result (string * bool) -> World Requests KC -> Prop) w :
  kc_ok (w_led w) -> (forall r w', provisioned persona email w r w' -> Q r w') ->
  wp (provision h persona email name) Q w.
Proof.
  intros Hok HQ. unfold provision. apply wp_bind, wp_created; [done|]. intros [[id existed]|e] w1 O1 K1 C1.
  2:{ apply wp_ret, HQ. unfold provisioned. split_and!; try done. by eapply created_grows. }
  pose proof (created_grows _ {[RealmRole persona]} _ _ _ C1) as G1.
  destruct (created_account _ _ _ _ _ C1) as (Ex & a1 & A1 & E1). cbn [cs_Email] in E1.
  assert (forall e w', outside w w' -> kc_ok (w_led w') -> grows kc_defaults {[RealmRole persona]} (dirs w) (dirs w') ->
    Q (Err e) w') as HE by (intros e w' ? ? ?; by apply HQ).
  apply wp_bind, wp_gets, wp_bind.
  apply (wp_mono _ (fun r w2 => outside w w2 /\ kc_ok (w_led w2) /\ grows kc_defaults {[RealmRole persona]} (dirs w) (dirs w2) /\
    exists a, dirs w2 !! id = Some a /\ EqualFold (ac_email a) email = true)).
  - intros r w2 (O2 & K2 & G2 & a2 & A2 & E2). destruct r; [|apply wp_ret; by apply HE].
    apply wp_bind. eapply wp_calls; [apply law_ensure|done|]. intros r3 w3 O3 K3 C3.
    assert (outside w w3) as O3' by (by etransitivity).
    assert (grows kc_defaults {[RealmRole persona]} (dirs w) (dirs w3)) as G3.
    { etransitivity; [exact G2|]. eapply grows_changes; [exact C3|]. apply grows_add_role. set_solver. }
    destruct r3 as [[]|e]; [|apply wp_ret; by apply HE]. destruct C3 as [C3|[_ ?]]; [|done].
    apply wp_bind. eapply wp_calls; [apply law_email|done|]. intros r4 w4 O4 K4 C4.
    assert (outside w w4) as O4' by (by etransitivity). assert (dirs w4 = dirs w3) as D4 by done.
    destruct r4; apply wp_ret; [|apply HE; [done..|by rewrite D4]]. apply HQ. unfold provisioned. rewrite D4.
    split_and!; try done. exists (add_role (RealmRole persona) a2). unfold dirs at 1. rewrite C3, lookup_alter_eq.
    unfold dirs in A2. rewrite A2. split_and!; try done. simpl. set_solver.
  - destruct existed; [apply wp_ret; eauto 10|]. symmetry in Ex. apply bool_decide_eq_false in Ex.
    eapply wp_calls; [apply law_password|done|]. intros r2 w2 O2 K2 C2.
    split_and!; [by etransitivity|done| |].
    + destruct C2 as [C2|[C2 _]]; unfold dirs; rewrite C2; [|done]. apply grows_reset_fresh; [by apply eq_None_not_Some|done].
    + destruct (lookup_changed reset_credentials id id (dirs w1) (dirs w2) a1) as (a2 & A2 & E2); [|done|done|].
      * destruct C2 as [C2|[C2 _]]; auto.
      * exists a2. by rewrite E2.
Qed.
End Provision.

(** ** One request *)

Section Requests.
Context {KC : Type} `{DirectoryLaws KC} `{PgServer} `{Runtime} (h : Handler).
Context (uuid_canonical : forall n, uuid_in (uuid_of n) = Ok (uuid_of n)).
Implicit Types w : World Requests KC.

Definition sound w : Prop := kc_ok (w_led w) /\ table_ok (w_now w) (w_db w).

Definition progress (G : gset string) w w' : Prop :=
  sound w -> sound w' /\ rows_live (w_db w) (w_db w') /\ grows kc_defaults G (dirs w) (dirs w').

#[global] Instance progress_preorder G : PreOrder (progress G).
Proof.
  split.
  - intros w Hw. split_and!; [done|reflexivity|reflexivity].
  - intros w1 w2 w3 H12 H23 Hs. destruct (H12 Hs) as (Hs2 & L2 & G2). destruct (H23 Hs2) as (Hs3 & L3 & G3).
    split_and!; [done|by etransitivity|by etransitivity].
Qed.

(** Only the table may have changed, and as a run of requests may change it. *)
Record tabled w w' : Prop := mkTabled {
  tb_table : table_ok (w_now w') (w_db w');
  tb_live : rows_live (w_db w) (w_db w');
  tb_led : w_led w' = w_led w;
  tb_now : w_now w' = w_now w
}.

Lemma tabled_progress G w w' : kc_ok (w_led w) -> tabled w w' -> sound w' /\ progress G w w'.
Proof.
  intros Hk [Ht Hl Hled Hn]. assert (sound w') as Hs by (split; [by rewrite Hled|done]). split; [done|].
  intros _. split_and!; [done..|]. unfold dirs. by rewrite Hled.
Qed.

Lemma same_tabled w w' : sound w -> w_db w' = w_db w -> w_led w' = w_led w -> w_now w' = w_now w -> tabled w w'.
Proof. intros [_ Ht] Hd Hl Hn. split; try done; rewrite Hd; [by rewrite Hn|reflexivity]. Qed.

Lemma provisioned_progress persona email G w r w' :
  sound w -> RealmRole persona ∈ G -> provisioned persona email w r w' -> sound w' /\ progress G w w'.
Proof.
  intros [_ Ht] HG (Ho & Hk & Hg & _). assert (sound w') as Hs.
  { split; [done|]. by rewrite (out_db _ _ Ho), (out_now _ _ Ho). }
  split; [done|]. intros _. split_and!; [done|by rewrite (out_db _ _ Ho)|]. eapply grows_mono; [|done]. by apply singleton_subseteq_l.
Qed.

Lemma wp_Decide id status sub by_ reason r (Q : result Request -> World Requests KC -> Prop) w :
  sound w -> select_request id (w_db w) = Ok r -> rq_status r = "pending" ->
  status ∈ ["rejected"; "completed"; "expired"] -> (sub <> "" -> status = "completed") ->
  (forall x w', tabled w w' -> Q x w') -> wp (Decide id status sub by_ reason) Q w.
Proof.
  intros Hs Hr Hp Hst Hsub HQ. unfold Decide. apply wp_bind, wp_gets.
  assert (forall s b g, update_request id (decided status sub by_ reason (w_now w)) (w_db w) = Ok (b, g) ->
            tabled w (with_db (g (w_db w)) (with_sched s w))) as Hu.
  { intros s b g Hg. destruct Hs as [_ Ht].
    destruct (update_inv (w_now w) _ _ _ _ _ Ht Hg) as (r' & Hr' & Hl & -> & Hd); [done|].
    rewrite Hr in Hr'. injection Hr' as <-. pose proof (tk_row _ _ Ht _ _ Hl) as Ho.
    assert (row_life r (decided status sub by_ reason (w_now w) r)) as Hlife by (split; [done|intros ?; congruence]).
    pose proof (decided_ok status sub by_ reason (w_now w) r Ho Hp Hst Hsub) as Ho'.
    split; simpl; try done; rewrite Hd; by eapply (table_update (w_now w)). }
  apply wp_db_exec; intros; apply HQ; eauto; by apply same_tabled.
Qed.

Lemma wp_MergeMeta id patch r (Q : result Request -> World Requests KC -> Prop) w :
  sound w -> select_request id (w_db w) = Ok r -> rq_status r = "pending" ->
  (forall x w', tabled w w' -> Q x w') -> wp (MergeMeta id patch) Q w.
Proof.
  intros Hs Hr Hp HQ. unfold MergeMeta.
  assert (forall s b g, update_request id (with_meta patch) (w_db w) = Ok (b, g) ->
            tabled w (with_db (g (w_db w)) (with_sched s w))) as Hu.
  { intros s b g Hg. destruct Hs as [_ Ht].
    destruct (update_inv (w_now w) _ _ _ _ _ Ht Hg) as (r' & Hr' & Hl & -> & Hd); [done|].
    rewrite Hr in Hr'. injection Hr' as <-. pose proof (tk_row _ _ Ht _ _ Hl) as [? ? ? ?].
    assert (row_life r (with_meta patch r)) as Hlife by (split; [done|intros ?; congruence]).
    assert (row_ok (with_meta patch r)) as Ho by by split.
    split; simpl; try done; rewrite Hd; by eapply (table_update (w_now w)). }
  apply wp_db_exec; intros; apply HQ; eauto; by apply same_tabled.
Qed.

Lemma wp_Create persona email name org meta (Q : result Request -> World Requests KC -> Prop) w :
  sound w -> is_Some (personaRoles !! persona) -> recent email (w_now w) (w_db w) < maxRequestsPerEmailPerDay ->
  (forall req w' m, tabled w w' -> rq_email req = email ->
     select_request (rq_id req) (w_db w') = Ok (mkRequest (rq_id req) persona email name org "pending" "" m (w_now w) None "") ->
     Q (Ok req) w') ->
  (forall e w', tabled w w' -> Q (Err e) w') -> wp (Create persona email name org meta) Q w.
Proof using uuid_canonical.
  intros Hs Hp Hc HQ HE. unfold Create. apply wp_bind, wp_new_uuid, wp_bind, wp_gets, wp_bind. simpl w_now.
  set (w1 := with_uuids _ w). set (row := mkRequest _ _ _ _ _ _ _ (default (JObj []) meta) _ _ _).
  assert (tabled w w1) as H01 by by apply same_tabled.
  assert (forall s b g, insert_request row (w_db w1) = Ok (b, g) ->
            tabled w (with_db (g (w_db w1)) (with_sched s w1)) /\
            select_request (rq_id row) (g (w_db w1)) = Ok row) as Hi.
  { intros s b g Hg. destruct Hs as [_ Ht]. unfold insert_request in Hg. change (w_db w1) with (w_db w) in *.
    destruct (w_db w !! rq_id row) eqn:Hn; [done|]. unfold write_request in Hg. destruct (bool_decide _); [|done].
    destruct (find_row _ _) eqn:Hf; [done|]. injection Hg as <- <-.
    assert (row_ok row) as Ho.
    { split; simpl; try done. rewrite elem_of_cons. by left. }
    destruct (table_insert (w_now w) (w_db w) row Ht Hn (uuid_canonical _) Ho eq_refl Hf Hc) as [Ht' Hl].
    split; [by split|]. unfold select_request.
    change (rq_id row) with (uuid_of (w_uuids w)). rewrite uuid_canonical. by rewrite lookup_insert_eq. }
  apply wp_db_exec.
  - intros s b g Hg. destruct (Hi s b g Hg) as [Htab Hsel]. apply wp_ret. eapply HQ; [exact Htab|done|exact Hsel].
  - intros s b g Hg. destruct (Hi s b g Hg) as [Htab _]. apply wp_ret. by apply HE.
  - intros s e _. apply wp_ret, HE. by apply same_tabled.
  - intros s. apply wp_ret, HE. by apply same_tabled.
Qed.

Lemma wp_overVelocity email (Q : option response -> World Requests KC -> Prop) w :
  sound w ->
  (forall r s, (r = None -> recent email (w_now w) (w_db w) < maxRequestsPerEmailPerDay) -> Q r (with_sched s w)) ->
  wp (overVelocity email) Q w.
Proof.
  intros [_ Ht] HQ. unfold overVelocity, CountRecent. apply wp_bind, wp_gets, wp_bind, wp_db_query; intros s; apply wp_ret.
  - apply HQ. rewrite (count_recent (w_now w)) by (intros k r; apply (tk_past _ _ Ht)).
    destruct (Z.leb_spec maxRequestsPerEmailPerDay (recent email (w_now w) (w_db w))); [done|auto].
  - by apply HQ.
Qed.

Lemma wp_verifyCaptcha token (Q : option response -> World Requests KC -> Prop) w :
  (forall r w', w_db w' = w_db w -> w_led w' = w_led w -> w_now w' = w_now w -> Q r w') ->
  wp (verifyCaptcha h token) Q w.
Proof.
  intros HQ. unfold verifyCaptcha. destruct (h_Captcha h); [|apply wp_ret; by apply HQ].
  destruct (bool_decide _); [apply wp_ret; by apply HQ|]. apply wp_bind, wp_http_do. intros o hs.
  repeat case_match; apply wp_ret; by apply HQ.
Qed.

Lemma wp_FindPending persona email (Q : result Request -> World Requests KC -> Prop) w :
  sound w ->
  (forall r s, select_request (rq_id r) (w_db w) = Ok r -> rq_status r = "pending" -> rq_persona r = persona ->
     pg_lower (rq_email r) = pg_lower email -> Q (Ok r) (with_sched s w)) ->
  (forall e s, Q (Err e) (with_sched s w)) -> wp (FindPending persona email) Q w.
Proof.
  intros [_ Ht] HQ HE. unfold FindPending. apply wp_db_query; intros s; [|apply HE].
  destruct (find_row _ _) as [r|] eqn:Hf; [|apply HE]. apply (find_row_Some (V := Request)) in Hf as [Hp (k & Hk)].
  unfold pending_for in Hp. rewrite !andb_true_iff, !bool_decide_eq_true in Hp. destruct Hp as [[? ?] ?].
  apply HQ; try done. by eapply select_by_id.
Qed.

(** *** Each handler, under any faults *)

Definition safe {A} (G : gset string) (m : M Requests KC A) : Prop := forall w, sound w -> wp m (fun _ w' => progress G w w') w.

Lemma wp_after {A} G (m : M Requests KC A) w w1 :
  sound w1 -> progress G w w1 -> wp m (fun _ w' => progress G w1 w') w1 -> wp m (fun _ w' => progress G w w') w1.
Proof using Type. intros Hs Hp Hm. eapply wp_mono; [|exact Hm]. intros ? w' Hw. simpl in Hw. by etransitivity. Qed.

Lemma safe_after {A} G (m : M Requests KC A) w w1 :
  safe G m -> sound w -> tabled w w1 -> wp m (fun _ w' => progress G w w') w1.
Proof using Type.
  intros Hm Hs Ht. destruct (tabled_progress G w w1 (proj1 Hs) Ht) as [Hs1 Hp]. apply wp_after; [done|done|]. by apply Hm.
Qed.

Lemma safe_ret {A} G (a : A) : safe G (gret a).
Proof using Type. intros w Hs. apply wp_ret. reflexivity. Qed.

Lemma ret_tabled {A} G (a : A) w w1 : sound w -> tabled w w1 -> wp (gret a) (fun _ w' => progress G w w') w1.
Proof using Type. intros Hs Ht. apply (safe_after G); [apply safe_ret|done|done]. Qed.

Lemma wp_provisionCitizen G req retried row w :
  "citizen" ∈ G -> sound w -> select_request (rq_id req) (w_db w) = Ok row -> rq_status row = "pending" ->
  wp (provisionCitizen h req retried) (fun _ w' => progress G w w') w.
Proof using Type.
  intros HG Hs Hr Hp. unfold provisionCitizen. apply wp_bind, wp_provision; [apply Hs|]. intros p w1 Hprov.
  destruct (provisioned_progress "citizen" _ G w p w1 Hs HG Hprov) as [Hs1 Hp1].
  assert (select_request (rq_id req) (w_db w1) = Ok row) as Hr1 by by rewrite (out_db _ _ (proj1 Hprov)).
  apply wp_after; [done|done|]. destruct p as [[kcID existed]|e].
  - apply wp_bind. eapply wp_Decide; [done..|rewrite !elem_of_cons; tauto|done|]. intros x w2 Ht.
    destruct x; by apply ret_tabled.
  - apply wp_bind. eapply wp_MergeMeta; [done..|]. intros x w2 Ht. by apply ret_tabled.
Qed.

(** The adopted or fresh row after the statements before it. *)
Lemma citizen_after G req retried row w w1 :
  "citizen" ∈ G -> sound w -> tabled w w1 -> select_request (rq_id req) (w_db w1) = Ok row -> rq_status row = "pending" ->
  wp (provisionCitizen h req retried) (fun _ w' => progress G w w') w1.
Proof using Type.
  intros HG Hs Ht Hr Hp. destruct (tabled_progress G w w1 (proj1 Hs) Ht) as [Hs1 Hp1].
  apply wp_after; [done|done|]. by eapply wp_provisionCitizen.
Qed.

Lemma tabled_trans w w1 w2 : tabled w w1 -> tabled w1 w2 -> tabled w w2.
Proof using Type. intros [] []. split; [done|by etransitivity|congruence|congruence]. Qed.

Lemma tabled_sound w w1 : sound w -> tabled w w1 -> sound w1.
Proof using Type. intros Hs Ht. by apply (tabled_progress ∅ w w1 (proj1 Hs) Ht). Qed.

Lemma tabled_sched w w1 s : sound w -> tabled w w1 -> tabled w (with_sched s w1).
Proof using Type. intros Hs [? ? ? ?]. by split. Qed.

Lemma safe_CitizenSelfServe G b : "citizen" ∈ G -> safe G (CitizenSelfServe h b).
Proof using All.
  intros HG w Hs. unfold CitizenSelfServe. destruct b as [msg|b]; [apply wp_ret; reflexivity|].
  destruct (validate b) as [b' msg]. destruct (negb _); [apply wp_ret; reflexivity|].
  apply wp_bind, wp_verifyCaptcha. intros c w1 D1 L1 N1. pose proof (same_tabled w w1 Hs D1 L1 N1) as T1.
  destruct c; [by apply ret_tabled|]. pose proof (tabled_sound _ _ Hs T1) as Hs1.
  apply wp_bind, wp_FindPending; [done| |].
  { intros r s Hr Hp _ _. by eapply citizen_after; [done|done|by apply tabled_sched|..]. }
  intros e s. destruct e; try by apply ret_tabled, tabled_sched.
  assert (tabled w (with_sched s w1)) as T2 by by apply tabled_sched. pose proof (tabled_sound _ _ Hs T2) as Hs2.
  apply wp_bind, wp_overVelocity; [done|]. intros v s3 Hv. assert (tabled w (with_sched s3 (with_sched s w1))) as T3 by by apply tabled_sched.
  destruct v; [by apply ret_tabled|]. specialize (Hv eq_refl). pose proof (tabled_sound _ _ Hs T3) as Hs3.
  apply wp_bind, wp_Create; [done|by eexists|done| |].
  - intros req w4 m T4 He Hr. eapply citizen_after; [done|done|by eapply tabled_trans|done|done].
  - intros e w4 T4. pose proof (tabled_trans _ _ _ T3 T4) as T5. destruct (isUniqueViolation e); [|by apply ret_tabled].
    apply wp_bind, wp_FindPending; [by eapply tabled_sound| |].
    + intros r s5 Hr Hp _ _. eapply citizen_after; [done|done|by apply tabled_sched|done|done].
    + intros e' s5. by apply ret_tabled, tabled_sched.
Qed.

Lemma safe_Intake G persona b : safe G (Intake h persona b).
Proof using All.
  intros w Hs. unfold Intake. destruct (negb _) eqn:Hi; [destruct (bool_decide _); apply wp_ret; reflexivity|].
  assert (is_Some (personaRoles !! persona)) as Hpe.
  { apply negb_false_iff in Hi. unfold IsIntakePersona in Hi. apply andb_true_iff in Hi as [Hi _]. by apply bool_decide_eq_true in Hi. }
  clear Hi.
  destruct b as [msg|b]; [apply wp_ret; reflexivity|].
  destruct (validateForPersona persona b) as [b' msg]. destruct (negb _); [apply wp_ret; reflexivity|].
  apply wp_bind, wp_verifyCaptcha. intros c w1 D1 L1 N1. pose proof (same_tabled w w1 Hs D1 L1 N1) as T1.
  destruct c; [by apply ret_tabled|]. pose proof (tabled_sound _ _ Hs T1) as Hs1.
  apply wp_bind, wp_FindPending; [done| |].
  { intros r s Hr Hp _ _. by apply ret_tabled, tabled_sched. }
  intros e s. destruct e; try by apply ret_tabled, tabled_sched.
  assert (tabled w (with_sched s w1)) as T2 by by apply tabled_sched. pose proof (tabled_sound _ _ Hs T2) as Hs2.
  apply wp_bind, wp_overVelocity; [done|]. intros v s3 Hv. assert (tabled w (with_sched s3 (with_sched s w1))) as T3 by by apply tabled_sched.
  destruct v; [by apply ret_tabled|]. specialize (Hv eq_refl). pose proof (tabled_sound _ _ Hs T3) as Hs3.
  apply wp_bind, wp_Create; [done|done|done| |].
  - intros req w4 m T4 He Hr. apply ret_tabled; [done|]. by eapply tabled_trans.
  - intros e w4 T4. pose proof (tabled_trans _ _ _ T3 T4) as T5. destruct (isUniqueViolation e); [|by apply ret_tabled].
    apply wp_bind, wp_FindPending; [by eapply tabled_sound| |].
    + intros r s5 Hr Hp _ _. by apply ret_tabled, tabled_sched.
    + intros e' s5. by apply ret_tabled, tabled_sched.
Qed.

(** The roles onboarding can grant. *)
Definition onboarding_roles : gset string := list_to_set ["citizen"; "driver"; "operator"; "station-staff"].

Lemma RealmRole_onboarding persona : is_Some (personaRoles !! persona) -> RealmRole persona ∈ onboarding_roles.
Proof using Type.
  intros [role Hr]. unfold RealmRole. rewrite Hr. simpl.
  assert (map_Forall (fun _ role => role ∈ onboarding_roles) personaRoles) as Hall by (apply (bool_decide_unpack _); by vm_compute).
  by eapply Hall.
Qed.

(** What the caller of a decision may grant. *)
Definition grantable (ctx : claims) : gset string :=
  if hasRole ctx "platform-admin" then onboarding_roles else {["citizen"]}.

Lemma wp_decide_load ctx id (Q : response + Request -> World Requests KC -> Prop) w :
  sound w ->
  (forall resp w', tabled w w' -> Q (inl resp) w') ->
  (forall req w', tabled w w' -> hasRole ctx "platform-admin" = true -> select_request id (w_db w') = Ok req ->
     rq_status req = "pending" -> Q (inr req) w') ->
  wp (decide_load h ctx id) Q w.
Proof using Type.
  intros Hs HL HR. unfold decide_load. destruct (hasRole ctx _) eqn:Hc; simpl; [|apply wp_ret, HL; by apply same_tabled].
  apply wp_bind. unfold GetRequest. apply wp_db_query; intros s; [|apply wp_ret, HL; by apply same_tabled].
  assert (tabled w (with_sched s w)) as T1 by by apply same_tabled.
  destruct (select_request id (w_db w)) as [req|e] eqn:Hr; [|destruct e; apply wp_ret; by apply HL].
  apply wp_bind, wp_gets. destruct (bool_decide _ && _ && _) eqn:Hb.
  - rewrite !andb_true_iff, bool_decide_eq_true in Hb. destruct Hb as [[Hp _] _].
    apply wp_bind. eapply wp_Decide; [by eapply tabled_sound|exact Hr|done|rewrite !elem_of_cons; tauto|done|].
    intros x w' T2. apply wp_ret, HL. by eapply tabled_trans.
  - destruct (bool_decide (rq_status req = "pending")) eqn:Hp; simpl; [|apply wp_ret; by apply HL].
    apply bool_decide_eq_true in Hp. apply wp_ret. by apply HR.
Qed.

Lemma safe_Approve ctx id : safe (grantable ctx) (Approve h ctx id).
Proof using Type.
  intros w Hs. unfold Approve. apply wp_bind, wp_decide_load; [done| |].
  { intros resp w1 T1. by apply ret_tabled. }
  intros req w1 T1 Hc Hr Hp. destruct (tabled_progress (grantable ctx) w w1 (proj1 Hs) T1) as [Hs1 P1].
  apply wp_after; [done..|]. unfold decide_approve. apply wp_bind, wp_provision; [apply Hs1|]. intros p w2 Hprov.
  assert (RealmRole (rq_persona req) ∈ grantable ctx) as HG.
  { unfold grantable. rewrite Hc. apply RealmRole_onboarding. destruct Hs1 as [_ Ht].
    eapply (ro_persona req), (tk_row _ _ Ht). by eapply select_row. }
  destruct (provisioned_progress _ _ (grantable ctx) w1 p w2 Hs1 HG Hprov) as [Hs2 P2]. apply wp_after; [done..|].
  destruct p as [[kcID existed]|e]; [|apply wp_ret; reflexivity]. apply wp_bind.
  eapply (wp_Decide id _ _ _ _ req); [done|by rewrite (out_db _ _ (proj1 Hprov))|done|rewrite !elem_of_cons; tauto|done|].
  intros x w3 T3. destruct x; by apply ret_tabled.
Qed.

Lemma safe_Reject G ctx id b : safe G (Reject h ctx id b).
Proof using Type.
  intros w Hs. unfold Reject. apply wp_bind, wp_decide_load; [done| |].
  { intros resp w1 T1. by apply ret_tabled. }
  intros req w1 T1 Hc Hr Hp. destruct (tabled_progress G w w1 (proj1 Hs) T1) as [Hs1 P1]. apply wp_after; [done..|].
  assert (forall reason, wp (if 500 <? slen reason then reply_error 400 "reason too long (max 500 chars)"
    else try! final := Decide id "rejected" "" (Subject ctx) (TrimSpace reason)
         catch e => reply_error 500 "failed to reject onboarding request" in
         reply 200 (JObj [("request", request_json final)])) (fun _ w' => progress G w1 w') w1) as Hrej.
  { intros reason. destruct (_ <? _); [apply wp_ret; reflexivity|]. apply wp_bind.
    eapply (wp_Decide id _ _ _ _ req); [done..|rewrite !elem_of_cons; tauto|done|].
    intros x w2 T2. destruct x; by apply ret_tabled. }
  unfold decide_reject. destruct b as [[msg|reason]|]; [apply wp_ret; reflexivity|apply Hrej..].
Qed.

Lemma safe_sweep G : safe G (expireSweep (KC := KC) h).
Proof using Type.
  intros w Hs. unfold expireSweep, ExpirePending. apply wp_bind, wp_gets, wp_bind, wp_bind, wp_gets.
  assert (forall s, tabled w (with_db (expire (w_now w - h_PendingTTL h) (w_now w) <$> w_db w) (with_sched s w))) as Ht.
  { intros s. destruct (table_expire (w_now w) (w_now w - h_PendingTTL h) (w_db w) (proj2 Hs)). by split. }
  apply wp_db_exec.
  - intros s a g [= <- <-]. by apply ret_tabled.
  - intros s a g [= <- <-]. by apply ret_tabled.
  - done.
  - intros s. apply ret_tabled; [done|]. by apply same_tabled.
Qed.

(** *** The reads *)

Lemma safe_query {A B} G (f : Requests -> result A) (k : result A -> M Requests KC B) :
  (forall r, safe G (k r)) -> safe G (gbind (db_query f) k).
Proof using Type.
  intros Hk w Hs. apply wp_bind, wp_db_query; intros s; (apply safe_after; [apply Hk|done|by apply same_tabled]).
Qed.

Lemma safe_load G id k : (forall req, safe G (k req)) -> safe G (load (KC := KC) id k).
Proof using Type.
  intros Hk. apply safe_query. intros [req|e]; [apply Hk|destruct e; apply safe_ret].
Qed.

Lemma safe_List G status persona : safe G (List (KC := KC) status persona).
Proof using Type.
  unfold List. destruct (_ && _); [apply safe_ret|]. destruct (_ && _); [apply safe_ret|].
  apply safe_query. intros []; apply safe_ret.
Qed.

(** *** Reconciliation *)

Definition valid_rows (reqs : list Request) : Prop := forall r, r ∈ reqs -> is_Some (personaRoles !! rq_persona r).

Lemma wp_reconcile_page reqs t (Q : tally -> World Requests KC -> Prop) w :
  sound w -> valid_rows reqs ->
  (forall t' w', outside w w' -> sound w' -> progress onboarding_roles w w' -> Q t' w') ->
  wp (reconcile_page reqs t) Q w.
Proof using Type.
  revert t Q w. induction reqs as [|r reqs IH]; intros t Q w Hs Hv HQ; simpl; [apply wp_ret, HQ; [reflexivity|done|reflexivity]|].
  assert (valid_rows reqs) as Hv' by (intros x Hx; apply Hv; by right).
  destruct (bool_decide _); [by apply IH|]. apply wp_bind.
  eapply wp_calls; [apply law_ensure|apply Hs|]. intros res w1 O1 K1 C1.
  assert (sound w1) as Hs1 by (split; [done|]; rewrite (out_db _ _ O1), (out_now _ _ O1); apply Hs).
  assert (progress onboarding_roles w w1) as P1.
  { intros _. split_and!; [done|by rewrite (out_db _ _ O1)|]. eapply grows_changes; [exact C1|].
    apply grows_add_role, RealmRole_onboarding, Hv. left. }
  apply IH; [done..|]. intros t' w' O2 S2 P2. apply HQ; [by etransitivity|done|by etransitivity].
Qed.

Definition completed_rows (d : Requests) : list Request := listed "completed" "" d.

Lemma completed_perm d : completed_rows d ≡ₚ filter (fun r => rq_status r = "completed") (rows d).
Proof using Type.
  unfold completed_rows, listed. rewrite order_asc_perm, <- Permutation_rev, order_text_perm.
  erewrite list_filter_iff; [reflexivity|]. intros r. split; [intros [[?|?] _]; done|naive_solver].
Qed.

Lemma completed_spec d r : r ∈ completed_rows d <-> rq_status r = "completed" /\ r ∈ rows d.
Proof using Type.
  rewrite completed_perm, list_elem_of_filter. tauto.
Qed.

Lemma completed_valid now d : table_ok now d -> valid_rows (completed_rows d).
Proof using Type. intros Ht r [_ (k & Hk)%elem_of_rows]%completed_spec. apply ro_persona. by eapply tk_row. Qed.

Lemma completed_size d : (length (completed_rows d) <= size d)%nat.
Proof using Type.
  rewrite completed_perm. etransitivity; [apply length_filter|]. unfold rows. by rewrite length_fmap, length_map_to_list.
Qed.

Lemma reconcile_page_app l1 l2 t w :
  reconcile_page (l1 ++ l2) t w = gbind (reconcile_page l1 t) (reconcile_page (KC := KC) l2) w.
Proof using Type.
  revert t w. induction l1 as [|r l1 IH]; intros t w; [done|]. simpl. destruct (bool_decide _); [apply IH|].
  unfold gbind at 1 2 3. destruct (EnsureRealmRole _ _ w) as [x w1]. apply IH.
Qed.

(** The loop ends before its fuel, whatever fails. *)
Lemma wp_reconcile_loop fuel off t (Q : option (result tally) -> World Requests KC -> Prop) w :
  sound w -> 0 <= off <= Z.of_nat (length (completed_rows (w_db w))) ->
  Z.of_nat (length (completed_rows (w_db w))) < off + Z.of_nat fuel * page ->
  (forall r w', r <> None -> progress onboarding_roles w w' -> Q r w') -> wp (reconcile_loop fuel off t) Q w.
Proof using Type.
  revert off t Q w. induction fuel as [|fuel IH]; intros off t Q w Hs Hoff Hf HQ; [lia|]. cbn [reconcile_loop].
  apply wp_bind. unfold ListRequests. change ((page <=? 0) || (500 <? page)) with false. cbv iota.
  rewrite (proj2 (Z.ltb_ge off 0)) by lia. fold (completed_rows (w_db w)).
  apply wp_db_query; intros s; [|apply wp_ret, HQ; [done|]; intros ?; split_and!; [done|reflexivity|reflexivity]].
  change (listed "completed" "" (w_db w)) with (completed_rows (w_db w)).
  assert (sound (with_sched s w)) as Hs1 by done. set (reqs := take _ _).
  apply wp_bind, wp_reconcile_page; [done| |].
  { intros r Hr. eapply (completed_valid (w_now w)); [apply Hs|]. unfold reqs in Hr.
    apply elem_of_take in Hr as (i & Hi & _). rewrite lookup_drop in Hi. by eapply list_elem_of_lookup_2. }
  intros t' w' O1 S1 P1. assert (progress onboarding_roles w w') as P0 by exact P1.
  destruct (Z.ltb_spec (Z.of_nat (length reqs)) page) as [|Hfull]; [apply wp_ret; by apply HQ|].
  assert (w_db w' = w_db w) as Hd by apply (out_db _ _ O1). unfold reqs in Hfull. rewrite length_take, length_drop in Hfull.
  unfold page in *. apply IH; rewrite ?Hd; try done; try lia. intros r w2 Hr P2. apply HQ; [done|by etransitivity].
Qed.

Lemma safe_Reconcile ctx : safe (grantable ctx) (Reconcile (KC := KC) ctx).
Proof using Type.
  intros w Hs. unfold Reconcile, grantable. destruct (hasRole ctx _); simpl; [|apply wp_ret; reflexivity].
  apply wp_bind, wp_gets, wp_bind, wp_reconcile_loop; [done|lia| |].
  - pose proof (completed_size (w_db w)) as Hsz. unfold reconcile_fuel, page. rewrite Nat2Z.inj_succ.
    apply inj_le in Hsz. set (n := Z.of_nat (size (w_db w))) in *. lia.
  - intros r w' _ Hp. by apply wp_ret.
Qed.

(** ** Runs *)

Inductive ob_request : Type :=
| RCitizen (b : string + intakeBody)
| RIntake (persona : string) (b : string + intakeBody)
| RList (status persona : string)
| RGet (key : string)
| RStatus (id : string)
| RApprove (ctx : claims) (id : string)
| RReject (ctx : claims) (id : string) (b : option (string + string))
| RReconcile (ctx : claims).

Definition served (q : ob_request) : M Requests KC (option response) :=
  match q with
  | RCitizen b => let! r := CitizenSelfServe h b in gret (Some r)
  | RIntake persona b => let! r := Intake h persona b in gret (Some r)
  | RList status persona => let! r := List status persona in gret (Some r)
  | RGet key => let! r := Get key in gret (Some r)
  | RStatus id => let! r := StatusPublic id in gret (Some r)
  | RApprove ctx id => let! r := Approve h ctx id in gret (Some r)
  | RReject ctx id b => let! r := Reject h ctx id b in gret (Some r)
  | RReconcile ctx => Reconcile ctx
  end.

(** The platform-admin claims a request comes with, if any. *)
Definition by_admin (q : ob_request) : bool :=
  match q with
  | RApprove ctx _ | RReject ctx _ _ | RReconcile ctx => hasRole ctx "platform-admin"
  | _ => false
  end.

Definition grants (q : ob_request) : gset string := if by_admin q then onboarding_roles else {["citizen"]}.

Lemma safe_then {A B} G (m : M Requests KC A) (f : A -> B) : safe G m -> safe G (let! a := m in gret (f a)).
Proof using Type. intros Hm w Hs. apply wp_bind. eapply wp_mono; [|by apply Hm]. intros a w' Hp. by apply wp_ret. Qed.

Lemma safe_served q : safe (grants q) (served q).
Proof using All.
  destruct q; unfold grants; simpl; try apply safe_then.
  - apply safe_CitizenSelfServe. set_solver.
  - apply safe_Intake.
  - apply safe_List.
  - apply safe_load. intros req. apply safe_ret.
  - apply safe_load. intros req. apply safe_ret.
  - apply safe_Approve.
  - apply safe_Reject.
  - apply safe_Reconcile.
Qed.

(** A run: requests, sweeps and the passing of time, one after the other. *)
Inductive ob_event : Type := Served (q : ob_request) | Swept | Passed (dt : N).

Definition happens (e : ob_event) (w : World Requests KC) : World Requests KC :=
  match e with
  | Served q => (served q w).2
  | Swept => (expireSweep h w).2
  | Passed dt => with_now (w_now w + Z.of_N dt) w
  end.

Definition run (es : list ob_event) (w : World Requests KC) : World Requests KC := foldl (fun w e => happens e w) w es.

Definition event_by_admin (e : ob_event) : bool := match e with Served q => by_admin q | _ => false end.

Definition run_grants (es : list ob_event) : gset string :=
  if existsb event_by_admin es then onboarding_roles else {["citizen"]}.

Lemma table_later now dt d : 0 <= dt -> table_ok now d -> table_ok (now + dt) d.
Proof using Type. intros Hd [Hk Hr Hp Hs Hv]. split; try done. intros k r Hl. specialize (Hp k r Hl). lia. Qed.

Lemma event_progress e w : sound w -> progress (if event_by_admin e then onboarding_roles else {["citizen"]}) w (happens e w).
Proof using All.
  intros Hs. destruct e as [q| |dt]; simpl.
  - exact (safe_served q w Hs).
  - exact (safe_sweep {["citizen"]} w Hs).
  - intros _. split_and!; [|reflexivity|reflexivity]. split; [apply Hs|]. simpl. apply table_later; [lia|apply Hs].
Qed.

Lemma progress_mono G G' w w' : G ⊆ G' -> progress G w w' -> progress G' w w'.
Proof using Type. intros HG Hp Hs. destruct (Hp Hs) as (? & ? & ?). split_and!; [done..|]. by eapply grows_mono. Qed.

Lemma citizen_onboarding : {["citizen"]} ⊆ onboarding_roles.
Proof using Type. apply singleton_subseteq_l. by apply (bool_decide_unpack _). Qed.

Lemma run_progress es w : sound w -> sound (run es w) /\ progress (run_grants es) w (run es w).
Proof using All.
  unfold run_grants. revert w. induction es as [|e es IH]; intros w Hs; [split; [done|reflexivity]|].
  cbn [existsb run foldl]. fold (run es (happens e w)).
  pose proof (event_progress e w Hs) as Hp. destruct (IH (happens e w)) as [Hs' Hp']; [by apply Hp|]. split; [done|].
  destruct (event_by_admin e); simpl.
  - etransitivity; [exact Hp|]. eapply progress_mono; [|exact Hp']. destruct (existsb _ es); [done|apply citizen_onboarding].
  - etransitivity; [|exact Hp']. eapply progress_mono; [|exact Hp]. destruct (existsb _ es); [apply citizen_onboarding|done].
Qed.
End Requests.

(** ** What holds of every run *)

Section Theorems.
Context {KC : Type} `{DirectoryLaws KC} `{PgServer} `{Runtime}.
Implicit Types w : World Requests KC.

(** C8: onboarding never takes over an account.  Over any requests, sweeps and
    passing of time, under any faults, an account of the identity provider
    keeps its address, its enabled flag and its credentials (no temporary
    password is set on it), and loses no role. *)
Theorem onboarding_spares_accounts h es w :
  (forall n, uuid_in (uuid_of n) = Ok (uuid_of n)) -> sound w ->
  forall id a, dirs w !! id = Some a ->
  exists a', dirs (run h es w) !! id = Some a' /\ ac_email a' = ac_email a /\ ac_enabled a' = ac_enabled a /\
             ac_resets a' = ac_resets a /\ ac_roles a ⊆ ac_roles a'.
Proof.
  intros Hu Hs id a Ha. destruct (run_progress h Hu es w Hs) as [_ Hp]. destruct (Hp Hs) as (_ & _ & Hg).
  specialize (Hg id). rewrite Ha in Hg. destruct Hg as (a' & Ha' & [? ? ? [? _]]). by exists a'.
Qed.

(** C9: without a platform-admin's decision onboarding hands out the citizen
    role only.  If no request of a run carries the platform-admin role, every
    role an account holds afterwards it held before, or is a default role of
    the realm, or is citizen; with such requests the four persona roles can be
    added, and never platform-admin. *)
Theorem only_admins_grant_roles h es w :
  (forall n, uuid_in (uuid_of n) = Ok (uuid_of n)) -> sound w ->
  forall id a' role, dirs (run h es w) !! id = Some a' -> role ∈ ac_roles a' ->
  (exists a, dirs w !! id = Some a /\ role ∈ ac_roles a) \/ role ∈ kc_defaults \/ role = "citizen" \/
  (existsb event_by_admin es = true /\ role ∈ ["driver"; "operator"; "station-staff"]).
Proof.
  intros Hu Hs id a' role Ha' Hr. destruct (run_progress h Hu es w Hs) as [_ Hp]. destruct (Hp Hs) as (_ & _ & Hg).
  specialize (Hg id). assert (role ∈ run_grants es -> role = "citizen" \/
    (existsb event_by_admin es = true /\ role ∈ ["driver"; "operator"; "station-staff"])) as HG.
  { unfold run_grants, onboarding_roles. destruct (existsb _ es).
    - rewrite elem_of_list_to_set, elem_of_cons. tauto.
    - rewrite elem_of_singleton. tauto. }
  destruct (dirs w !! id) as [a|].
  - destruct Hg as (a2 & Ha2 & [_ _ _ [_ Hsub]]). rewrite Ha' in Ha2. injection Ha2 as <-.
    apply Hsub, elem_of_union in Hr as [Hr|Hr]; [by left; exists a|]. right. right. auto.
  - apply (Hg a' Ha') in Hr. apply elem_of_union in Hr as [Hr|Hr]; [auto|]. right. right. auto.
Qed.

(** The table stays sound.  Over any run under any faults every row has a
    known persona and a status the handlers use, carries a decision time
    exactly when it is decided and an account only when it is completed, and
    at most one request of an address and a persona is pending. *)
Theorem onboarding_rows_sound h es w :
  (forall n, uuid_in (uuid_of n) = Ok (uuid_of n)) -> sound w ->
  (forall k r, w_db (run h es w) !! k = Some r -> rq_id r = k /\ row_ok r) /\
  forall k1 k2 r1 r2, w_db (run h es w) !! k1 = Some r1 -> w_db (run h es w) !! k2 = Some r2 ->
    rq_status r1 = "pending" -> rq_status r2 = "pending" -> rq_persona r1 = rq_persona r2 ->
    pg_lower (rq_email r1) = pg_lower (rq_email r2) -> k1 = k2.
Proof.
  intros Hu Hs. destruct (run_progress h Hu es w Hs) as [[_ Ht] _]. split.
  - intros k r Hr. destruct (tk_key _ _ Ht k r Hr) as [? _]. split; [done|]. by eapply tk_row.
  - intros k1 k2 r1 r2 Hk1 Hk2 Hp1 Hp2 Hpe He. destruct (decide (k1 = k2)) as [|Hne]; [done|]. exfalso.
    destruct (tk_key _ _ Ht _ _ Hk1) as [E1 _]. destruct (tk_key _ _ Ht _ _ Hk2) as [E2 _].
    assert (pending_clash r1 r2 = true) as Hc by (apply pending_clash_true; split_and!; congruence).
    by rewrite (tk_single _ _ Ht _ _ _ _ Hk1 Hk2) in Hc.
Qed.

(** C33: the velocity cap.  Over any run under any faults, no window of 24 hours
    contains more than five requests of one address, whatever their personas,
    outcomes and the case of the address. *)
Theorem onboarding_velocity h es w :
  (forall n, uuid_in (uuid_of n) = Ok (uuid_of n)) -> sound w ->
  forall email t, recent email t (w_db (run h es w)) <= 5.
Proof. intros Hu Hs email t. destruct (run_progress h Hu es w Hs) as [[_ Ht] _]. apply (tk_velocity _ _ Ht). Qed.

(** A decision is final.  Over any run under any faults no request
    disappears or changes applicant, and a request that is no longer pending
    never changes again. *)
Theorem decided_requests_are_final h es w :
  (forall n, uuid_in (uuid_of n) = Ok (uuid_of n)) -> sound w ->
  forall k r, w_db w !! k = Some r ->
  exists r', w_db (run h es w) !! k = Some r' /\ identity r' = identity r /\ (rq_status r <> "pending" -> r' = r).
Proof. intros Hu Hs k r Hr. destruct (run_progress h Hu es w Hs) as [_ Hp]. destruct (Hp Hs) as (_ & Hl & _). exact (Hl k r Hr). Qed.

(** What the public status may depend on. *)
Definition public_part (r : Request) : string * string * string * Z * option Z :=
  (rq_id r, rq_persona r, rq_status r, rq_created r, rq_decided_at r).

(** The public status discloses nothing else.  On two tables that agree on
    id, persona, status and times of every request, and differ as they may in
    addresses, names, organisations, metadata, accounts and deciders, the
    answer is the same, under any faults. *)
Theorem status_hides_applicant id w1 w2 :
  w_sched w1 = w_sched w2 -> public_part <$> w_db w1 = public_part <$> w_db w2 ->
  (StatusPublic id w1).1 = (StatusPublic id w2).1.
Proof.
  intros Hsch Hdb.
  assert (match select_request id (w_db w1), select_request id (w_db w2) with
          | Ok r1, Ok r2 => status_json r1 = status_json r2 | Err e1, Err e2 => e1 = e2 | _, _ => False end) as Hsel.
  { unfold select_request. destruct (uuid_in id) as [k|e]; [|done].
    assert (public_part <$> w_db w1 !! k = public_part <$> w_db w2 !! k) as Hk by by rewrite <- !lookup_fmap, Hdb.
    destruct (w_db w1 !! k), (w_db w2 !! k); simplify_eq/=; [|done].
    unfold status_json. congruence. }
  unfold StatusPublic, load, GetRequest, gbind, db_query, pop. rewrite <- Hsch.
  destruct (w_sched w1) as [|[] l]; cbn [w_db with_sched]; try done;
    destruct (select_request id (w_db w1)), (select_request id (w_db w2)); try done; unfold reply, gret; cbn [fst];
    solve [by rewrite Hsel|subst; by case_match].
Qed.
End Theorems.
