(* ===== verification/OnboardingLive.v ===== *)
(** * What onboarding achieves

    The other half of [OnboardingTheorems]: that sign-up and reconciliation
    get their work done when nothing fails and the identity provider is up,
    that reconciliation ends whatever fails, concrete runs, and the races of
    two decisions on one request. *)

From Stdlib Require Import String.
From stdpp Require Import gmap strings list.
From S2P Require Import Prelude Codec World Auth InfraDb Keycloak KeycloakHttp Onboarding OnboardingTheorems.

Open Scope Z_scope.
Open Scope go_scope.

Section Live.
Context {KC : Type} `{DirectoryLive KC} `{PgServer} `{Runtime} (h : Handler).
Implicit Types w : World Requests KC.

(** Nothing fails: the provider is in order and up, no fault is scheduled. *)
Record healthy w : Prop := mkHealthy {
  hy_ok : kc_ok (w_led w);
  hy_up : kc_up (w_led w) (w_now w);
  hy_quiet : w_sched w = []
}.

(** A call of the client that succeeds when all is well. *)
Lemma wp_live {A} (m : M Requests KC (result A)) P (Q : result A -> World Requests KC -> Prop) w :
  calls kc_ok m P -> healthy w -> (is_ok (m w).1 = true /\ kc_up (w_led (m w).2) (w_now w)) ->
  (forall a w', outside w w' -> healthy w' -> P (w_led w) (Ok a) (w_led w') -> Q (Ok a) w') -> wp m Q w.
Proof.
  intros Hm [Hok Hup Hq] [Hr Hup'] HQ. destruct (Hm w Hok) as (Ho & Hk & HP). unfold wp.
  destruct (m w) as [[a|e] w']; simpl in *; [|done]. apply HQ; [done| |done].
  split; [done|by rewrite (out_now _ _ Ho)|by apply (out_quiet _ _ Ho)].
Qed.

Lemma wp_provision_live persona email name (Q : result (string * bool) -> World Requests KC -> Prop) w :
  healthy w -> kc_realm (RealmRole persona) ->
  (forall id existed w', healthy w' -> provisioned persona email w (Ok (id, existed)) w' -> Q (Ok (id, existed)) w') ->
  wp (provision h persona email name) Q w.
Proof.
  intros Hw Hrole HQ.
  enough (wp (provision h persona email name) (fun r w' => is_ok r = true /\ healthy w') w) as [Hr Hh].
  { assert (wp (provision h persona email name) (provisioned persona email w) w) as Hp.
    { apply wp_provision; [apply Hw|done]. }
    unfold wp in *. destruct (provision h persona email name w) as [[[id existed]|e] w']; [|done]. by apply HQ. }
  unfold provision. apply wp_bind. eapply wp_live; [apply law_create|done|apply live_create; apply Hw|].
  intros [id existed] w1 O1 Hw1 C1. destruct (created_account _ _ _ _ _ C1) as (_ & a1 & A1 & _).
  apply wp_bind, wp_gets, wp_bind.
  apply (wp_mono _ (fun r w2 => is_ok r = true /\ healthy w2 /\ is_Some (dirs w2 !! id))).
  - intros r w2 (Hr & Hw2 & Ha2). destruct r as [[]|]; [|done].
    apply wp_bind. eapply wp_live; [apply law_ensure|done|apply live_ensure; try apply Hw2; done|].
    intros [] w3 O3 Hw3 C3. destruct C3 as [C3|[_ ?]]; [|done].
    assert (is_Some (dirs w3 !! id)) as Ha3 by (unfold dirs; rewrite C3; by apply lookup_alter_is_Some).
    apply wp_bind. eapply wp_live; [apply law_email|done|apply live_email; try apply Hw3; done|].
    intros [] w4 O4 Hw4 C4. by apply wp_ret.
  - destruct existed; [apply wp_ret; split_and!; [done|done|by eexists]|].
    eapply wp_live; [apply law_password|done|apply live_password; try apply Hw1; by eexists|].
    intros [] w2 O2 Hw2 C2. split_and!; [done|done|]. destruct C2 as [C2|[_ ?]]; [|done].
    unfold dirs. rewrite C2. apply lookup_alter_is_Some. by eexists.
Qed.

(** A decision that goes through. *)
Lemma wp_Decide_done id status sub by_ reason r (Q : result Request -> World Requests KC -> Prop) w :
  healthy w -> sound w -> select_request id (w_db w) = Ok r -> status ∈ ["rejected"; "completed"; "expired"] ->
  let r' := decided status sub by_ reason (w_now w) r in
  Q (Ok r') (with_db (<[rq_id r := r']> (w_db w)) w) -> wp (Decide id status sub by_ reason) Q w.
Proof.
  intros Hw [_ Ht] Hr Hst r' HQ. unfold Decide. apply wp_bind, wp_gets.
  assert (update_request id (decided status sub by_ reason (w_now w)) (w_db w) = Ok (r', fun d => <[rq_id r := r']> d)) as Hu.
  { unfold update_request. rewrite Hr. unfold write_request. fold r'.
    rewrite bool_decide_true by (unfold statuses; rewrite !elem_of_cons in *; simpl; tauto).
    assert (find_row (pending_clash r') (w_db w) = None) as ->; [|done].
    apply find_row_None. intros k x _. apply not_true_iff_false. rewrite pending_clash_true. simpl.
    intros (-> & _). rewrite !elem_of_cons, elem_of_nil in Hst. naive_solver. }
  eapply wp_db_exec_done; [apply Hw|exact Hu|done].
Qed.

(** The row is completed and its account holds the persona's role. *)
Definition enrolled (persona email : string) w : Prop :=
  exists r a, w_db w !! rq_id r = Some r /\ rq_persona r = persona /\ rq_status r = "completed" /\
    pg_lower (rq_email r) = pg_lower email /\ dirs w !! rq_sub r = Some a /\
    EqualFold (ac_email a) (rq_email r) = true /\ RealmRole persona ∈ ac_roles a.

Lemma wp_provisionCitizen_live req retried row email w :
  healthy w -> sound w -> kc_realm "citizen" -> select_request (rq_id req) (w_db w) = Ok row -> rq_status row = "pending" ->
  rq_persona row = "citizen" -> rq_email row = rq_email req -> pg_lower (rq_email row) = pg_lower email ->
  wp (provisionCitizen h req retried)
    (fun resp w' => status resp = (if retried then 200 else 201) /\ enrolled "citizen" email w') w.
Proof.
  intros Hw Hs Hrole Hr Hp Hpe Hem Hlow. unfold provisionCitizen. apply wp_bind, wp_provision_live; [done|done|].
  intros id existed w1 Hw1 Hprov.
  assert (sound w1) as Hs1.
  { destruct (provisioned_progress "citizen" _ {[RealmRole "citizen"]} w _ w1 Hs (proj2 (elem_of_singleton _ _) eq_refl) Hprov). done. }
  destruct Hprov as (Ho & _ & _ & _ & a & Ha & He & Hro). pose proof (out_db _ _ Ho) as Hd.
  assert (select_request (rq_id req) (w_db w1) = Ok row) as Hr1 by by rewrite Hd.
  pose proof (select_row _ _ _ _ (proj2 Hs) Hr) as Hrow. pose proof (tk_row _ _ (proj2 Hs) _ _ Hrow) as Hrok.
  apply wp_bind. eapply wp_Decide_done; [done|done|done|rewrite !elem_of_cons; tauto|]. apply wp_ret.
  split; [by destruct retried|]. set (row' := decided _ _ _ _ _ row). exists row', a.
  assert (rq_sub row' = id) as Hsub.
  { unfold row', decided. simpl. case_bool_decide as E; [|done]. subst id.
    destruct (decide (rq_sub row = "")) as [->|Hne]; [done|]. apply (ro_sub _ Hrok) in Hne. congruence. }
  split; [simpl; by rewrite lookup_insert_eq|]. split_and!; try done.
  - rewrite Hsub. exact Ha.
  - unfold row'. simpl. by rewrite Hem.
Qed.

Lemma healthy_uuids n w : healthy w -> healthy (with_uuids n w).
Proof. by intros [? ? ?]. Qed.

Lemma wp_Create_done persona email name org meta (Q : result Request -> World Requests KC -> Prop) w :
  healthy w -> sound w -> is_Some (personaRoles !! persona) ->
  w_db w !! uuid_of (w_uuids w) = None -> (forall n, uuid_in (uuid_of n) = Ok (uuid_of n)) ->
  find_row (pending_for persona email) (w_db w) = None -> recent email (w_now w) (w_db w) < maxRequestsPerEmailPerDay ->
  (forall req w' row, healthy w' -> sound w' -> select_request (rq_id req) (w_db w') = Ok row -> rq_status row = "pending" ->
     rq_persona row = persona -> rq_email row = email -> rq_email req = email -> Q (Ok req) w') ->
  wp (Create persona email name org meta) Q w.
Proof.
  intros Hw Hs Hpe Hnew Hu Hf Hc HQ.
  enough (wp (Create persona email name org meta) (fun r w' => is_ok r = true /\ healthy w') w) as [Hr Hh].
  { assert (wp (Create persona email name org meta) (fun r w' => match r with Err _ => True | Ok req => sound w' /\ rq_email req = email /\
        exists m, select_request (rq_id req) (w_db w') = Ok (mkRequest (rq_id req) persona email name org "pending" "" m (w_now w) None "") end) w) as Hp.
    { apply wp_Create; [exact Hu|done|done|done| |done]. intros req w' m Ht He Hsel. split; [by eapply tabled_sound|]. eauto. }
    unfold wp in *. destruct (Create persona email name org meta w) as [[req|e] w']; [|done].
    destruct Hp as (Hs' & He & m & Hsel). by eapply HQ. }
  unfold Create. apply wp_bind, wp_new_uuid, wp_bind, wp_gets, wp_bind. set (row := mkRequest _ _ _ _ _ _ _ (default (JObj []) meta) _ _ _).
  assert (insert_request row (w_db w) = Ok (row, fun d => <[rq_id row := row]> d)) as Hi.
  { unfold insert_request. change (rq_id row) with (uuid_of (w_uuids w)). rewrite Hnew. unfold write_request.
    rewrite bool_decide_true by (unfold statuses; rewrite elem_of_cons; by left).
    assert (find_row (pending_clash row) (w_db w) = None) as ->; [|done].
    apply find_row_None. intros k x Hx. rewrite find_row_None in Hf. specialize (Hf k x Hx).
    apply not_true_iff_false. intros Hcl. apply pending_clash_true in Hcl as (_ & _ & ? & ? & ?).
    apply not_true_iff_false in Hf. apply Hf. unfold pending_for. rewrite !andb_true_iff, !bool_decide_eq_true. done. }
  destruct Hw. eapply wp_db_exec_done; [done|exact Hi|]. apply wp_ret. by split.
Qed.

(** C34: sign-up converges.  Without faults, with the identity provider up, a
    valid sign-up ends with the citizen enrolled: a completed request of the
    address and an account that holds the citizen role.  A pending request left
    by a failed earlier attempt, at whatever point it failed, is adopted with
    200; otherwise a new one is answered 201 if the velocity cap allows it. *)
Theorem citizen_signup_converges b b' w :
  (forall n, uuid_in (uuid_of n) = Ok (uuid_of n)) -> healthy w -> sound w -> kc_realm "citizen" ->
  validate b = (b', "") -> h_Captcha h = None ->
  let adopted := is_ok (FindPending "citizen" (in_email b') w).1 in
  (adopted = false -> w_db w !! uuid_of (w_uuids w) = None /\ recent (in_email b') (w_now w) (w_db w) < 5) ->
  let '(resp, w') := CitizenSelfServe h (inr b) w in
  status resp = (if adopted then 200 else 201) /\ enrolled "citizen" (in_email b') w'.
Proof.
  intros Hu Hw Hs Hrole Hv Hcap adopted Hnew.
  enough (wp (CitizenSelfServe h (inr b)) (fun resp w' => status resp = (if adopted then 200 else 201) /\
    enrolled "citizen" (in_email b') w') w) as Hgoal by (unfold wp in Hgoal; by destruct (CitizenSelfServe h (inr b) w)).
  unfold adopted, FindPending, db_query in *. clear adopted. rewrite pop_done in * by apply Hw. cbn [fst] in *.
  unfold CitizenSelfServe. rewrite Hv. cbn [bool_decide negb]. unfold verifyCaptcha. rewrite Hcap.
  apply wp_bind, wp_ret, wp_bind. unfold FindPending. apply wp_db_query_done; [apply Hw|].
  destruct (find_row (pending_for "citizen" (in_email b')) (w_db w)) as [r|] eqn:Hf; simpl in *.
  - apply (find_row_Some (V := Request)) in Hf as [Hp (k & Hk)]. unfold pending_for in Hp.
    rewrite !andb_true_iff, !bool_decide_eq_true in Hp. destruct Hp as [[Hpe He] Hst].
    apply (wp_provisionCitizen_live r true r); try done. eapply select_by_id; [apply Hs|done].
  - destruct (Hnew eq_refl) as [Hfresh Hc]. apply wp_bind. unfold overVelocity, CountRecent.
    apply wp_bind, wp_gets, wp_bind, wp_db_query_done; [apply Hw|]. apply wp_ret.
    rewrite (count_recent (w_now w)) by (intros k r; apply (tk_past _ _ (proj2 Hs))).
    destruct (Z.leb_spec maxRequestsPerEmailPerDay (recent (in_email b') (w_now w) (w_db w))) as [Hle|Hlt]; [unfold maxRequestsPerEmailPerDay in Hle; lia|].
    apply wp_bind, wp_Create_done; try done. intros req w1 row Hw1 Hs1 Hsel Hst Hpe He Hreq.
    apply (wp_provisionCitizen_live req false row); try done; congruence.
Qed.

(** *** Reconciliation *)

Lemma reconcile_page_outside reqs t w : sound w -> valid_rows reqs ->
  outside w (reconcile_page reqs t w).2 /\ sound (reconcile_page reqs t w).2 /\
  progress onboarding_roles w (reconcile_page reqs t w).2.
Proof.
  intros Hs Hv. assert (wp (reconcile_page reqs t) (fun _ w' => outside w w' /\ sound w' /\ progress onboarding_roles w w') w) as Hw.
  { by apply wp_reconcile_page. }
  exact Hw.
Qed.

Lemma reconcile_loop_quiet fuel off t w :
  sound w -> w_sched w = [] -> 0 <= off <= Z.of_nat (length (completed_rows (w_db w))) ->
  Z.of_nat (length (completed_rows (w_db w))) < off + Z.of_nat fuel * page ->
  reconcile_loop fuel off t w =
    (let '(t', w') := reconcile_page (drop (Z.to_nat off) (completed_rows (w_db w))) t w in (Some (Ok t'), w')).
Proof.
  revert off t w. induction fuel as [|fuel IH]; intros off t w Hs Hq Hoff Hf; [lia|]. cbn [reconcile_loop].
  set (L := completed_rows (w_db w)) in *. unfold ListRequests. change ((page <=? 0) || (500 <? page)) with false. cbv iota.
  rewrite (proj2 (Z.ltb_ge off 0)) by lia.
  unfold gbind at 1, db_query. rewrite pop_done by done. change (listed "completed" "" (w_db w)) with L.
  set (reqs := take (Z.to_nat page) (drop (Z.to_nat off) L)).
  assert (valid_rows reqs) as Hv.
  { intros r Hr. eapply (completed_valid (w_now w)); [apply Hs|]. unfold reqs in Hr.
    apply elem_of_take in Hr as (i & Hi & _). rewrite lookup_drop in Hi. by eapply list_elem_of_lookup_2. }
  destruct (reconcile_page_outside reqs t w Hs Hv) as (O1 & Hs1 & _).
  pose proof (reconcile_page_app reqs (drop (Z.to_nat page) (drop (Z.to_nat off) L)) t w) as Happ.
  unfold reqs in Happ at 1. rewrite take_drop in Happ. rewrite Happ. unfold gbind.
  destruct (reconcile_page reqs t w) as [t1 w1]. cbn [fst snd] in *. pose proof (out_db _ _ O1) as Hd.
  assert (length reqs = Nat.min (Z.to_nat page) (length L - Z.to_nat off)) as Hlen.
  { unfold reqs. by rewrite length_take, length_drop. }
  destruct (Z.ltb_spec (Z.of_nat (length reqs)) page) as [Hshort|Hfull]; unfold page in *.
  - by rewrite (nil_length_inv (drop (Z.to_nat 500) (drop (Z.to_nat off) L))) by (rewrite !length_drop; lia).
  - rewrite IH; [|done|by apply (out_quiet _ _ O1)|rewrite Hd; fold L; lia|rewrite Hd; fold L; lia].
    rewrite Hd, drop_drop. fold L. by replace (Z.to_nat off + Z.to_nat 500)%nat with (Z.to_nat (off + 500)) by lia.
Qed.

Lemma Reconcile_quiet ctx w : sound w -> w_sched w = [] -> hasRole ctx "platform-admin" = true ->
  Reconcile ctx w = (let '(t, w') := reconcile_page (completed_rows (w_db w)) (mkTally 0 0 []) w in
                     (Some (mkResponse 200 (tally_json t)), w')).
Proof.
  intros Hs Hq Hc. unfold Reconcile. rewrite Hc. cbn [negb]. unfold gbind, gets.
  rewrite reconcile_loop_quiet; [|done|done|lia|].
  - rewrite Z2Nat.inj_0, drop_0. by destruct (reconcile_page _ _ _).
  - pose proof (completed_size (w_db w)) as Hsz. unfold reconcile_fuel, page. rewrite Nat2Z.inj_succ.
    apply inj_le in Hsz. set (n := Z.of_nat (size (w_db w))) in *. lia.
Qed.

(** The rows whose account lacks the persona's role are repaired. *)
Definition repaired (reqs : list Request) w : Prop :=
  forall r, r ∈ reqs -> rq_sub r <> "" -> exists a, dirs w !! rq_sub r = Some a /\ RealmRole (rq_persona r) ∈ ac_roles a.

Lemma reconcile_page_repairs reqs t w :
  healthy w -> sound w -> valid_rows reqs -> (forall role, role ∈ onboarding_roles -> kc_realm role) ->
  (forall r, r ∈ reqs -> rq_sub r <> "" -> is_Some (dirs w !! rq_sub r)) ->
  wp (reconcile_page reqs t) (fun t' w' => tl_failed t' = tl_failed t /\
    tl_checked t' = tl_checked t + Z.of_nat (length reqs) /\ repaired reqs w') w.
Proof.
  intros Hw Hs Hv Hrealm. revert t w Hw Hs. induction reqs as [|r reqs IH]; intros t w Hw Hs Hacc.
  { apply wp_ret. split_and!; [done|simpl; lia|]. by intros r Hr%elem_of_nil. }
  assert (valid_rows reqs) as Hv' by (intros x Hx; apply Hv; by right).
  assert (forall r, r ∈ reqs -> rq_sub r <> "" -> is_Some (dirs w !! rq_sub r)) as Hacc' by (intros x Hx; apply Hacc; by right).
  simpl. case_bool_decide as Hsub.
  - eapply wp_mono; [|by apply IH]. simpl. intros t' w' (-> & -> & Hrep). split_and!; [done|lia|].
    intros x [->|Hx]%elem_of_cons; [done|by apply Hrep].
  - assert (RealmRole (rq_persona r) ∈ onboarding_roles) as Hrole by (apply RealmRole_onboarding, Hv; left).
    assert (is_Some (dirs w !! rq_sub r)) as Ha by (apply Hacc; [left|done]).
    apply wp_bind. eapply wp_live; [apply law_ensure|done|apply live_ensure; try apply Hw; by try apply Hrealm|].
    intros [] w1 O1 Hw1 C1. destruct C1 as [C1|[_ ?]]; [|done].
    assert (sound w1) as Hs1 by (split; [apply Hw1|]; rewrite (out_db _ _ O1), (out_now _ _ O1); apply Hs).
    destruct (reconcile_page_outside reqs (mkTally (tl_checked t + 1) (tl_ensured t + 1) (tl_failed t)) w1 Hs1 Hv') as (_ & _ & Hp).
    destruct (Hp Hs1) as (_ & _ & Hg).
    destruct (IH Hv' (mkTally (tl_checked t + 1) (tl_ensured t + 1) (tl_failed t)) w1 Hw1 Hs1) as (Hf & Hc & Hrep).
    { intros x Hx Hne. unfold dirs. rewrite C1. apply lookup_alter_is_Some. by apply Hacc'. }
    unfold wp. rewrite Hf, Hc. split_and!; [done|simpl; lia|].
    intros x [->|Hx]%elem_of_cons Hne; [|by apply Hrep]. specialize (Hg (rq_sub r)).
    destruct Ha as [a Ha]. unfold dirs in Hg at 1. rewrite C1, lookup_alter_eq in Hg. unfold dirs in Ha. rewrite Ha in Hg. simpl in Hg.
    destruct Hg as (a' & Ha' & [_ _ _ [Hsubset _]]). exists a'. split; [done|]. apply Hsubset. simpl. set_solver.
Qed.

(** Reconciliation ends, whatever fails: the loop over the pages of 500
    comes to its last page within the fuel of one page per 500 rows. *)
Theorem reconcile_terminates ctx w : sound w -> is_Some (Reconcile ctx w).1.
Proof.
  intros Hs. assert (wp (Reconcile ctx) (fun r _ => is_Some r) w) as Hw; [|exact Hw].
  unfold Reconcile. destruct (hasRole ctx _); simpl; [|by apply wp_ret].
  apply wp_bind, wp_gets, wp_bind, wp_reconcile_loop; [done|lia| |].
  - pose proof (completed_size (w_db w)) as Hsz. unfold reconcile_fuel, page. rewrite Nat2Z.inj_succ.
    apply inj_le in Hsz. set (n := Z.of_nat (size (w_db w))) in *. lia.
  - intros [[t|e]|] w' Hr _; [by apply wp_ret..|done].
Qed.

(** The pages are one pass.  Without database or provider faults the
    paged reconciliation is exactly one pass over all completed requests. *)
Theorem reconcile_is_one_pass ctx w :
  sound w -> w_sched w = [] -> hasRole ctx "platform-admin" = true ->
  exists reqs t w', reqs ≡ₚ filter (fun r => rq_status r = "completed") (rows (w_db w)) /\
    reconcile_page reqs (mkTally 0 0 []) w = (t, w') /\ Reconcile ctx w = (Some (mkResponse 200 (tally_json t)), w').
Proof.
  intros Hs Hq Hc. rewrite Reconcile_quiet by done.
  destruct (reconcile_page (completed_rows (w_db w)) (mkTally 0 0 []) w) as [t w'] eqn:E.
  exists (completed_rows (w_db w)), t, w'. split; [apply completed_perm|done].
Qed.

(** Reconciliation repairs.  Without faults, with the provider up, it
    checks every completed request, reports no failure, and afterwards every
    completed request's account holds its persona's role, however the earlier
    provisioning was cut short. *)
Theorem reconcile_repairs ctx w :
  healthy w -> sound w -> hasRole ctx "platform-admin" = true ->
  (forall role, role ∈ onboarding_roles -> kc_realm role) ->
  (forall k r, w_db w !! k = Some r -> rq_status r = "completed" -> rq_sub r <> "" -> is_Some (dirs w !! rq_sub r)) ->
  let '(resp, w') := Reconcile ctx w in
  (exists t, resp = Some (mkResponse 200 (tally_json t)) /\ tl_failed t = [] /\
     tl_checked t = Z.of_nat (length (filter (fun r => rq_status r = "completed") (rows (w_db w))))) /\
  forall k r, w_db w !! k = Some r -> rq_status r = "completed" -> rq_sub r <> "" ->
    exists a, dirs w' !! rq_sub r = Some a /\ RealmRole (rq_persona r) ∈ ac_roles a.
Proof.
  intros Hw Hs Hc Hrealm Hacc. rewrite Reconcile_quiet by (done || apply Hw).
  assert (wp (reconcile_page (completed_rows (w_db w)) (mkTally 0 0 [])) (fun t' w' => tl_failed t' = [] /\
    tl_checked t' = 0 + Z.of_nat (length (completed_rows (w_db w))) /\ repaired (completed_rows (w_db w)) w') w) as Hp.
  { apply reconcile_page_repairs; [done|done|eapply completed_valid; apply Hs|done|].
    intros r [Hst (k & Hk)%elem_of_rows]%completed_spec. by eapply Hacc. }
  unfold wp in Hp. destruct (reconcile_page _ _ w) as [t w']. destruct Hp as (Hf & Hch & Hrep). cbn [fst snd] in *. split.
  - exists t. split_and!; [done|done|]. rewrite Hch, completed_perm. lia.
  - intros k r Hk Hst Hne. apply Hrep; [|done]. apply completed_spec. split; [done|]. apply elem_of_rows. eauto.
Qed.
End Live.

(** ** The captcha *)

(** The verifier did not answer with a success document. *)
Definition not_verified (replies : list http_outcome) : Prop :=
  match replies with
  | HttpReply _ _ _ (Some (JObj o)) :: _ => jget "success" o <> Some (JBool true)
  | _ => True
  end.

(** A refusal that left the requests and the accounts alone. *)
Definition turned_away {D KC : Type} (w : World D KC) (p : response * World D KC) : Prop :=
  status p.1 ∈ [400; 404; 502] /\ w_db p.2 = w_db w /\ w_led p.2 = w_led w.

Section Captcha.
Context {KC : Type} `{AdminClient KC} `{Unicode} `{PgServer} `{Runtime} (h : Handler).

Lemma turned_away_reply (w : World Requests KC) (c : Z) msg : c ∈ [400; 404; 502] -> turned_away w (reply_error c msg w).
Proof. by intros Hc. Qed.

Ltac refused Hi Hi' := eexists _, _; split; [reflexivity|]; split; [first [apply Hi|apply Hi']|done].

Lemma verifyCaptcha_refuses cfg token (w : World Requests KC) :
  h_Captcha h = Some cfg -> not_verified (w_http w) ->
  exists r w', verifyCaptcha h token w = (Some r, w') /\ turned_away w (r, w').
Proof.
  intros Hh Hn.
  assert (forall msg, status (json_error 400 msg) ∈ [400; 404; 502]) as Hi by (intros msg; by repeat constructor).
  assert (forall msg, status (json_error 502 msg) ∈ [400; 404; 502]) as Hi' by (intros msg; by repeat constructor).
  unfold verifyCaptcha, gbind, http_do, not_verified, turned_away in *. rewrite Hh.
  destruct (bool_decide _); [refused Hi Hi'|].
  destruct (w_http w) as [|o rest]; [refused Hi Hi'|].
  destruct o as [|? ? ? [[| | | | | | |o]|]]; simpl; try refused Hi Hi'. simpl in Hn.
  destruct (jget "success" o) as [[|[]| | | | | |]|]; simpl; try done; refused Hi Hi'.
Qed.

(** The captcha fails closed.  With a captcha configured, a public intake
    or sign-up whose verifier is unreachable, unreadable or does not say
    success is refused, and neither a request nor an account comes of it. *)
Theorem captcha_fails_closed cfg persona b (w : World Requests KC) :
  h_Captcha h = Some cfg -> not_verified (w_http w) ->
  turned_away w (CitizenSelfServe h b w) /\ turned_away w (Intake h persona b w).
Proof.
  intros Hh Hn.
  assert (forall k, turned_away w (reply_error 400 k w)) as H400 by (intros; apply turned_away_reply; by repeat constructor).
  assert (forall k, turned_away w (reply_error 404 k w)) as H404 by (intros; apply turned_away_reply; by repeat constructor).
  split.
  - unfold CitizenSelfServe. destruct b as [msg|b]; [done|]. destruct (validate b) as [b' msg]. destruct (negb _); [done|].
    destruct (verifyCaptcha_refuses cfg (TrimSpace (in_captcha b')) w Hh Hn) as (r & w' & E & Ht).
    unfold gbind at 1. by rewrite E.
  - unfold Intake. destruct (negb _); [by destruct (bool_decide _)|]. destruct b as [msg|b]; [done|].
    destruct (validateForPersona persona b) as [b' msg]. destruct (negb _); [done|].
    destruct (verifyCaptcha_refuses cfg (TrimSpace (in_captcha b')) w Hh Hn) as (r & w' & E & Ht).
    unfold gbind at 1. by rewrite E.
Qed.
End Captcha.

(** ** Concrete runs *)

#[local] Existing Instance test_runtime.
#[local] Existing Instance test_server.
#[local] Existing Instance ascii_case.

(** Draws told apart by their length. *)
Definition test_entropy : Entropy.
Proof.
  refine {| rand_bytes := fun n => replicate n 0 |}.
  - intros n. apply Forall_replicate. unfold is_byte. lia.
  - intros m n E. apply (f_equal length) in E. by rewrite !length_replicate in E.
Defined.

#[local] Existing Instance test_entropy.

Definition test_handler : Handler := mkHandler (fun _ => "Temporary23456") defaultPendingTTL None.

(** An identity provider that knows one platform administrator. *)
Definition root_spec : CreateUserSpec := mkSpec "root@h2.example" "root@h2.example" "Root Admin".
Definition root_sim : simulated := (sim_AssignRealmRole (simID 0) "platform-admin" (sim_CreateUser root_spec newSimulated).2).2.

Definition ob_world (d : Requests) (sched : list outcome) : World Requests simulated := mkWorld d root_sim [] 1000 10 sched [] [].

Lemma newSimulated_ok : sim_ok newSimulated.
Proof. split; simpl; try done; [intros id []; done|intros l Hl; by apply elem_of_nil in Hl]. Qed.

Lemma root_sim_ok : sim_ok root_sim.
Proof. eapply memory_ok; [apply sim_assign_law|]. eapply memory_ok; [apply sim_create_law|]. apply newSimulated_ok. Qed.

Lemma test_canonical n : uuid_in (uuid_of n) = Ok (uuid_of n).
Proof. unfold uuid_in, test_server. by case_decide. Qed.

Lemma empty_table now : table_ok now ∅.
Proof. by split. Qed.

Lemma ob_world_sound sched : sound (ob_world ∅ sched).
Proof. split; [exact root_sim_ok|apply empty_table]. Qed.

Lemma ob_world_healthy d : healthy (ob_world d []).
Proof. split; [exact root_sim_ok|done|done]. Qed.

(** A pending request of an operator. *)
Definition applicant : Request :=
  mkRequest "uuid-1" "operator" "op@example.org" "Op Erator" "Depot North" "pending" "" (JObj []) 500 None "".

Definition applicant_world : World Requests simulated := ob_world {["uuid-1" := applicant]} [].

Definition admin1 : claims := claims_of "admin-1" ["platform-admin"].
Definition admin2 : claims := claims_of "admin-2" ["platform-admin"].

Definition row_status (w : World Requests simulated) (id : string) : option string := rq_status <$> w_db w !! id.

(** Roles by address. *)
Definition roles_of (email : string) (w : World Requests simulated) : list string :=
  flat_map (fun u => if decide (us_Email u = email) then us_Roles u else []) (rows (sim_users (w_led w))).

(** A rejection between the check and the provisioning of an approval is
    overwritten: one administrator loads the request, a second rejects it and
    is answered 200, the first is answered 200 too, and the rejected applicant
    holds the operator role with the request marked completed. *)
Theorem approval_overtakes_rejection :
  let '(loaded, w1) := decide_load test_handler admin1 "uuid-1" applicant_world in
  let '(rejected, w2) := Reject test_handler admin2 "uuid-1" None w1 in
  let '(approved, w3) := decide_approve test_handler admin1 "uuid-1" applicant w2 in
  loaded = inr applicant /\ status rejected = 200 /\ row_status w2 "uuid-1" = Some "rejected" /\
  status approved = 200 /\ row_status w3 "uuid-1" = Some "completed" /\ roles_of "op@example.org" w3 = ["operator"].
Proof. vm_compute. repeat split. Qed.

(** The other way round the request ends rejected while the applicant keeps
    the operator role, and reconciliation, which looks at completed requests
    only, does not notice. *)
Theorem rejection_overtakes_approval :
  let '(loaded, w1) := decide_load test_handler admin1 "uuid-1" applicant_world in
  let '(approved, w2) := Approve test_handler admin2 "uuid-1" w1 in
  let '(rejected, w3) := decide_reject admin1 "uuid-1" None w2 in
  let w4 := (Reconcile admin1 w3).2 in
  loaded = inr applicant /\ status approved = 200 /\ status rejected = 200 /\
  row_status w4 "uuid-1" = Some "rejected" /\ roles_of "op@example.org" w4 = ["operator"].
Proof. vm_compute. repeat split. Qed.

(** A configured pending time of 200000 days wraps around to a negative
    duration: the sweep then expires requests the moment they are filed. *)
Theorem long_ttl_expires_at_once :
  pendingTTL "200000" < 0 /\
  let h := mkHandler (fun _ => "") (pendingTTL "200000") None in
  let w := mkWorld {["uuid-1" := mkRequest "uuid-1" "operator" "op@example.org" "Op" "Depot" "pending" "" (JObj []) 1000 None ""]}
             root_sim [] 1000 10 [] [] [] : World Requests simulated in
  row_status (expireSweep h w).2 "uuid-1" = Some "expired".
Proof. vm_compute. split; reflexivity. Qed.

Definition signup (email : string) : intakeBody := mkIntake email "Ada Lovelace" "" None "".

(** A run: an anonymous sign-up with the administrator's address, an
    application, a day passing, an approval. *)
Definition demo_run : list ob_event :=
  [Served (RCitizen (inr (signup "ROOT@h2.example"))); Served (RIntake "operator" (inr (mkIntake "op@example.org" "Op" "Depot" None "")));
   Passed 3600000; Served (RApprove admin1 "uuid-11"); Swept].

Example demo_run_ends :
  let w := run test_handler demo_run (ob_world ∅ []) in
  row_status w "uuid-10" = Some "completed" /\ row_status w "uuid-11" = Some "completed" /\
  roles_of "root@h2.example" w = ["platform-admin"; "citizen"] /\ roles_of "op@example.org" w = ["operator"].
Proof. vm_compute. repeat split. Qed.

(** ** Witnesses *)

Definition demo_end : World Requests simulated := run test_handler demo_run (ob_world ∅ []).

Lemma onboarding_spares_accounts_witness :
  exists a', dirs demo_end !! simID 0 = Some a' /\ ac_email a' = "root@h2.example" /\ ac_enabled a' = true /\
             ac_resets a' = 0%nat /\ {["platform-admin"]} ⊆ ac_roles a'.
Proof.
  pose proof (onboarding_spares_accounts test_handler demo_run (ob_world ∅ []) test_canonical (ob_world_sound []) (simID 0)
    (mkAccount "root@h2.example" true {["platform-admin"]} 0)) as Ht.
  cbn [ac_email ac_enabled ac_resets ac_roles] in Ht. apply Ht. by vm_compute.
Defined.

Definition ada_run : World Requests simulated := run test_handler [Served (RCitizen (inr (signup "ada@example.org")))] (ob_world ∅ []).

Lemma only_admins_grant_roles_witness :
  exists a', dirs ada_run !! simID 1 = Some a' /\ "citizen" ∈ ac_roles a' /\
    ((exists a, dirs (ob_world ∅ []) !! simID 1 = Some a /\ "citizen" ∈ ac_roles a) \/ "citizen" ∈ (∅ : gset string) \/
     "citizen" = "citizen" \/ (false = true /\ "citizen" ∈ ["driver"; "operator"; "station-staff"])).
Proof.
  destruct (dirs ada_run !! simID 1) as [a'|] eqn:Ha'; [|by vm_compute in Ha'].
  assert ("citizen" ∈ ac_roles a') as Hr by by apply (bool_decide_unpack _); vm_compute in Ha'; injection Ha' as <-; vm_compute.
  exists a'. split; [done|]. split; [exact Hr|].
  exact (only_admins_grant_roles test_handler [Served (RCitizen (inr (signup "ada@example.org")))] (ob_world ∅ [])
           test_canonical (ob_world_sound []) (simID 1) a' "citizen" Ha' Hr).
Defined.

Lemma onboarding_rows_sound_witness :
  (forall k r, w_db demo_end !! k = Some r -> rq_id r = k /\ row_ok r) /\
  forall k1 k2 r1 r2, w_db demo_end !! k1 = Some r1 -> w_db demo_end !! k2 = Some r2 ->
    rq_status r1 = "pending" -> rq_status r2 = "pending" -> rq_persona r1 = rq_persona r2 ->
    ascii_lower (rq_email r1) = ascii_lower (rq_email r2) -> k1 = k2.
Proof. exact (onboarding_rows_sound test_handler demo_run (ob_world ∅ []) test_canonical (ob_world_sound [])). Defined.

Lemma onboarding_velocity_witness : recent "op@example.org" 1000 (w_db demo_end) = 1 /\ recent "op@example.org" 1000 (w_db demo_end) <= 5.
Proof.
  split; [by vm_compute|].
  exact (onboarding_velocity test_handler demo_run (ob_world ∅ []) test_canonical (ob_world_sound []) "op@example.org" 1000).
Defined.

Lemma demo_end_sound : sound demo_end.
Proof. exact (proj1 (run_progress test_handler test_canonical demo_run _ (ob_world_sound []))). Qed.

Lemma decided_requests_are_final_witness :
  exists r r', w_db demo_end !! "uuid-11" = Some r /\ w_db (run test_handler [Served (RReject admin2 "uuid-11" None)] demo_end) !! "uuid-11" = Some r' /\
    identity r' = identity r /\ (rq_status r <> "pending" -> r' = r).
Proof.
  destruct (w_db demo_end !! "uuid-11") as [r|] eqn:Hr; [|by vm_compute in Hr].
  destruct (decided_requests_are_final test_handler [Served (RReject admin2 "uuid-11" None)] demo_end test_canonical demo_end_sound "uuid-11" r Hr)
    as (r' & H1 & H2). exists r, r'. exact (conj eq_refl (conj H1 H2)).
Defined.

Lemma status_hides_applicant_witness :
  let other := mkRequest "uuid-1" "operator" "x@y.z" "Somebody Else" "" "pending" "sub" (JInt 7) 500 None "admin" in
  (StatusPublic "uuid-1" applicant_world).1 = (StatusPublic "uuid-1" (ob_world {["uuid-1" := other]} [])).1 /\
  status (StatusPublic "uuid-1" applicant_world).1 = 200.
Proof.
  intros other. split; [|by vm_compute].
  apply (status_hides_applicant "uuid-1" applicant_world (ob_world {["uuid-1" := other]} [])); [done|].
  apply map_eq. intros k. unfold applicant_world, ob_world. cbn [w_db]. rewrite !map_fmap_singleton. done.
Defined.

Definition ada : intakeBody := mkIntake "ada@example.org" "Ada Lovelace" "" None "".

Lemma citizen_signup_converges_witness :
  let '(resp, w') := CitizenSelfServe test_handler (inr (signup " Ada@Example.org ")) (ob_world ∅ []) in
  status resp = 201 /\ enrolled "citizen" "ada@example.org" w'.
Proof.
  apply (citizen_signup_converges test_handler (signup " Ada@Example.org ") ada (ob_world ∅ []) test_canonical
           (ob_world_healthy ∅) (ob_world_sound [])); [done|by vm_compute|done|]. intros _. split; by vm_compute.
Defined.

Lemma reconcile_terminates_witness : is_Some (Reconcile admin1 (ob_world ∅ [Lost])).1.
Proof. apply reconcile_terminates. apply ob_world_sound. Defined.

Lemma reconcile_is_one_pass_witness :
  exists reqs t w', reqs ≡ₚ filter (fun r => rq_status r = "completed") (rows (w_db demo_end)) /\
    reconcile_page reqs (mkTally 0 0 []) demo_end = (t, w') /\ Reconcile admin1 demo_end = (Some (mkResponse 200 (tally_json t)), w').
Proof. apply (reconcile_is_one_pass admin1 demo_end demo_end_sound); by vm_compute. Defined.

(** A completed request whose account never got its role. *)
Definition stranded : Request :=
  mkRequest "uuid-1" "operator" "root@h2.example" "Root Admin" "Depot North" "completed" (simID 0) (JObj []) 1000 (Some 1000) "admin-1".

Definition stranded_world : World Requests simulated := ob_world (<[rq_id stranded := stranded]> ∅) [].

Lemma stranded_sound : sound stranded_world.
Proof.
  split; [exact root_sim_ok|]. apply (table_insert 1000 ∅ stranded (empty_table 1000)); try done.
  split; [by eexists|by apply (bool_decide_unpack _)|done|done].
Qed.

Lemma reconcile_repairs_witness :
  let '(resp, w') := Reconcile admin1 stranded_world in
  ((exists t, resp = Some (mkResponse 200 (tally_json t)) /\ tl_failed t = [] /\
     tl_checked t = Z.of_nat (length (filter (fun r => rq_status r = "completed") (rows (w_db stranded_world))))) /\
  forall k r, w_db stranded_world !! k = Some r -> rq_status r = "completed" -> rq_sub r <> "" ->
    exists a, dirs w' !! rq_sub r = Some a /\ RealmRole (rq_persona r) ∈ ac_roles a) /\
  roles_of "root@h2.example" stranded_world = ["platform-admin"] /\ roles_of "root@h2.example" w' = ["platform-admin"; "operator"].
Proof.
  pose proof (reconcile_repairs admin1 stranded_world (ob_world_healthy _) stranded_sound eq_refl (fun _ _ => I)) as Hrep.
  destruct (Reconcile admin1 stranded_world) as [resp w'] eqn:E. split; [|split; [by vm_compute|]].
  - apply Hrep. intros k r Hk. unfold stranded_world, ob_world in Hk. cbn [w_db] in Hk.
    apply lookup_insert_Some in Hk as [[<- <-]|[_ ?]]; [|done]. intros _ _. apply (bool_decide_unpack _). by vm_compute.
  - replace w' with (Reconcile admin1 stranded_world).2 by by rewrite E. by vm_compute.
Defined.

(** The verifier answers, but not with a success. *)
Definition captcha_handler : Handler := mkHandler (fun _ => "") (30 * day_ms) (Some (mkCaptcha "http://captcha" "secret")).

Definition captcha_world : World Requests simulated :=
  mkWorld ∅ root_sim [] 1000 10 [] [HttpReply 1 200 "" (Some (JObj [("success", JBool false)]))] [].

Lemma captcha_fails_closed_witness :
  turned_away captcha_world (CitizenSelfServe captcha_handler (inr (signup "ada@example.org")) captcha_world) /\
  turned_away captcha_world (Intake captcha_handler "operator" (inr (signup "ada@example.org")) captcha_world).
Proof.
  apply (captcha_fails_closed captcha_handler (mkCaptcha "http://captcha" "secret")); [reflexivity|]. simpl. congruence.
Defined.
