(* ===== verification/Users.v ===== *)
(** * User management of admin-api

    Models services/go/admin-api/internal/users/users.go over any
    [AdminClient], and proves that the guard against locking everybody out of
    the admin plane works: with onboarding and user management running over
    the same directory, one request after the other and under any faults, an
    enabled platform-admin remains.  Concrete runs show where it stops
    working: two requests at once, and more than a hundred administrators. *)

From Stdlib Require Import String.
From stdpp Require Import gmap strings list.
From S2P Require Import Prelude Codec World Auth InfraDb Keycloak KeycloakHttp Onboarding OnboardingTheorems OnboardingLive.

Open Scope Z_scope.
Open Scope go_scope.

Module Users.

Record createBody : Type := mkCreate { cb_email : string; cb_name : string; cb_roles : list string }.
Record rolesBody : Type := mkRoles { rb_add : list string; rb_remove : list string }.

Definition user_json (u : User) : json :=
  JObj [("id", JStr (us_ID u)); ("username", JStr (us_Username u)); ("email", JStr (us_Email u));
        ("first_name", JStr (us_FirstName u)); ("last_name", JStr (us_LastName u)); ("enabled", JBool (us_Enabled u));
        ("roles", JList (map JStr (us_Roles u)))].

Section Handlers.
Context {D KC : Type} `{AdminClient KC}.

Abbreviation UM := (M D KC).
Abbreviation decoded A := (string + A)%type.

Definition bad_body (msg : string) : UM response := reply_error 400 ("invalid JSON body: " +:+ msg).

Definition List (role q : string) : UM response :=
  try! users := ListUsers (TrimSpace q) (TrimSpace role) 100 catch e => reply_error 502 "failed to list users" in
  reply 200 (JObj [("users", JList (map user_json users))]).

(** The loops over role lists stop at the first failure. *)
Fixpoint each_role (call : string -> UM (result unit)) (roles : list string) : UM (option string) :=
  match roles with
  | [] => gret None
  | role :: rest =>
      try! _ := call role catch e => gret (Some role) in
      each_role call rest
  end.

Definition Create (b : decoded createBody) : UM response :=
  match b with
  | inl msg => bad_body msg
  | inr b =>
      let email := TrimSpace (cb_email b) in
      let name := TrimSpace (cb_name b) in
      if bool_decide (email = "") || negb (Contains email "@") then reply_error 400 "email is required"
      else if bool_decide (name = "") then reply_error 400 "display_name is required"
      else
        try! (id, existed) := CreateUser (mkSpec email email name) catch e => reply_error 502 "failed to create user" in
        if existed : bool then
          reply_error 409 ("a user with this email already exists (id=" +:+ id +:+ "); manage roles on the existing account")
        else
          let! failed := each_role (AssignRealmRole id) (cb_roles b) in
          match failed with
          | Some _ => reply_error 502 "user created but role assignment failed"
          | None =>
              do! SendActionsEmail id ["VERIFY_EMAIL"; "UPDATE_PASSWORD"] in
              reply 201 (JObj [("id", JStr id)])
          end
  end.

Definition soleEnabledPlatformAdmin (target : string) : UM (result bool) :=
  try! admins := ListUsers "" "platform-admin" 1000 catch e => gret (Err e) in
  let enabled := length (filter (fun u => us_Enabled u = true) admins) in
  let targetIsEnabledAdmin := existsb (fun u => bool_decide (us_ID u = target) && us_Enabled u) admins in
  gret (Ok (targetIsEnabledAdmin && (enabled <=? 1)%nat)).

(** The check before each removal of platform-admin; [None]: go on. *)
Fixpoint removal_guard (id : string) (remove : list string) : UM (option response) :=
  match remove with
  | [] => gret None
  | role :: rest =>
      if negb (bool_decide (role = "platform-admin")) then removal_guard id rest
      else
        try! sole := soleEnabledPlatformAdmin id
        catch e => gret (Some (json_error 502 "failed to verify platform-admin accounts")) in
        if sole : bool then
          gret (Some (json_error 409 "cannot revoke platform-admin from the last enabled platform-admin account"))
        else removal_guard id rest
  end.

Definition UpdateRoles (id : string) (b : decoded rolesBody) : UM response :=
  match b with
  | inl msg => bad_body msg
  | inr b =>
      if bool_decide (rb_add b = []) && bool_decide (rb_remove b = []) then
        reply_error 400 "provide add and/or remove role lists"
      else
        let! stop := removal_guard id (rb_remove b) in
        match stop with
        | Some r => gret r
        | None =>
            let! failed := each_role (AssignRealmRole id) (rb_add b) in
            match failed with
            | Some role => reply_error 502 ("failed to assign role " +:+ role)
            | None =>
                let! failed := each_role (RevokeRealmRole id) (rb_remove b) in
                match failed with
                | Some role => reply_error 502 ("failed to revoke role " +:+ role)
                | None =>
                    reply 200 (JObj [("id", JStr id); ("added", JList (map JStr (rb_add b)));
                                     ("removed", JList (map JStr (rb_remove b)))])
                end
            end
        end
  end.

(** [setEnabled] in two parts: the lockout guards, and the change. *)
Definition disable_guard (ctx : claims) (id : string) : UM (option response) :=
  if bool_decide (id = Subject ctx) then
    gret (Some (json_error 409 "cannot disable your own account; another platform-admin must do this"))
  else
    try! sole := soleEnabledPlatformAdmin id
    catch e => gret (Some (json_error 502 "failed to verify platform-admin accounts")) in
    gret (if sole : bool then Some (json_error 409 "cannot disable the last enabled platform-admin account") else None).

Definition change_enabled (id : string) (enabled : bool) : UM response :=
  try! _ := SetEnabled id enabled catch e => reply_error 502 "failed to update user" in
  reply 200 (JObj [("id", JStr id); ("enabled", JBool enabled)]).

Definition setEnabled (ctx : claims) (id : string) (enabled : bool) : UM response :=
  let! stop := (if enabled then gret None else disable_guard ctx id) in
  match stop with
  | Some r => gret r
  | None => change_enabled id enabled
  end.

Definition Disable (ctx : claims) (id : string) : UM response := setEnabled ctx id false.
Definition Enable (ctx : claims) (id : string) : UM response := setEnabled ctx id true.

Definition ResetPassword (id : string) : UM response :=
  try! _ := SendActionsEmail id ["UPDATE_PASSWORD"] catch e => reply_error 502 "failed to trigger password reset" in
  reply 200 (JObj [("id", JStr id); ("message", JStr "password-reset email sent")]).
End Handlers.

(** ** The guard *)

(** Some enabled account other than [except] holds platform-admin. *)
Definition admin_besides (except : option string) (d : directory) : Prop :=
  exists id a, Some id <> except /\ d !! id = Some a /\ ac_enabled a = true /\ "platform-admin" ∈ ac_roles a.

Abbreviation admin_alive := (admin_besides None).

Definition enabled_admin (id : string) (d : directory) : Prop :=
  exists a, d !! id = Some a /\ ac_enabled a = true /\ "platform-admin" ∈ ac_roles a.

Lemma admin_besides_iff except d : admin_besides except d <-> exists id, Some id <> except /\ enabled_admin id d.
Proof. unfold admin_besides, enabled_admin. naive_solver. Qed.

Lemma holders_lookup role d id a : holders role d !! id = Some a <-> d !! id = Some a /\ role ∈ ac_roles a.
Proof. unfold holders. rewrite map_lookup_filter_Some. done. Qed.

(** On a listing that shows all holders, the test of the code is exact. *)
Lemma sole_test us d target :
  shows "platform-admin" d us ->
  existsb (fun u => bool_decide (us_ID u = target) && us_Enabled u) us &&
    (length (filter (fun u => us_Enabled u = true) us) <=? 1)%nat = true <->
  enabled_admin target d /\ ~ admin_besides (Some target) d.
Proof.
  intros [Hnd Hsh]. rewrite andb_true_iff, Nat.leb_le, existsb_exists.
  assert (forall id, (exists u, u ∈ us /\ us_ID u = id /\ us_Enabled u = true) <-> enabled_admin id d) as Hen.
  { intros id. rewrite Hsh. unfold enabled_admin. setoid_rewrite holders_lookup. naive_solver. }
  set (en := filter (fun u => us_Enabled u = true) us).
  assert (forall u, u ∈ en <-> u ∈ us /\ us_Enabled u = true) as Hin by (intros u; unfold en; rewrite list_elem_of_filter; tauto).
  assert (NoDup (us_ID <$> en)) as Hnd' by (eapply sublist_NoDup; [exact Hnd|apply fmap_sublist, sublist_filter]).
  rewrite admin_besides_iff, <- (Hen target). split.
  - intros [(u & Hu%list_elem_of_In & [Hid He]%andb_true_iff) Hlen]. apply bool_decide_eq_true in Hid.
    split; [by exists u|]. intros (id & Hne & (u' & Hu' & <- & He')%Hen).
    destruct en as [|x [|y en]]; [|assert (u = x /\ u' = x) as [-> ->]|simpl in Hlen; lia].
    + apply (not_elem_of_nil u). by apply Hin.
    + split; apply list_elem_of_singleton, Hin; done.
    + congruence.
  - intros [(u & Hu & Hid & He) Hno]. split.
    + exists u. split; [by apply list_elem_of_In|]. by rewrite Hid, bool_decide_true, He.
    + destruct en as [|x [|y en']]; [simpl; lia..|]. exfalso.
      assert (x ∈ us /\ us_Enabled x = true) as [Hx Hx'] by (apply Hin; left).
      assert (y ∈ us /\ us_Enabled y = true) as [Hy Hy'] by (apply Hin; right; left).
      destruct (decide (us_ID x = target)) as [Ex|Ex].
      * apply Hno. exists (us_ID y). split; [|apply Hen; eauto]. intros [= Ey].
        rewrite !fmap_cons in Hnd'. apply NoDup_cons_1_1 in Hnd'. apply Hnd'. simpl. rewrite Ex, <- Ey. left.
      * apply Hno. exists (us_ID x). split; [congruence|]. apply Hen; eauto.
Qed.

#[global] Instance admin_besides_dec except d : Decision (admin_besides except d).
Proof.
  refine (cast_if (decide (map_Exists (fun id a => Some id <> except /\ ac_enabled a = true /\ "platform-admin" ∈ ac_roles a) d)));
    unfold map_Exists, admin_besides in *; naive_solver.
Defined.

(** An alive admin plane whose target is not the sole administrator has another. *)
Lemma alive_besides target d : admin_alive d -> ~ (enabled_admin target d /\ ~ admin_besides (Some target) d) ->
  admin_besides (Some target) d.
Proof.
  intros (id & a & _ & Ha & He & Hr) Hno. destruct (decide (admin_besides (Some target) d)) as [|Hb]; [done|].
  destruct (decide (id = target)) as [->|Hne]; [|exists id, a; split_and!; congruence].
  exfalso. apply Hno. split; [by exists a|done].
Qed.

Lemma besides_alive id d : admin_besides (Some id) d -> admin_alive d.
Proof. intros (id' & a & _ & Ha). by exists id', a. Qed.

Lemma besides_alter f id d : admin_besides (Some id) d -> admin_besides (Some id) (alter f id d).
Proof. intros (id' & a & Hne & Ha). exists id', a. rewrite lookup_alter_ne by congruence. done. Qed.

Lemma alive_alter f id d :
  (forall a, ac_enabled a = true -> "platform-admin" ∈ ac_roles a -> ac_enabled (f a) = true /\ "platform-admin" ∈ ac_roles (f a)) ->
  admin_alive d -> admin_alive (alter f id d).
Proof.
  intros Hf (id' & a & _ & Ha & He & Hr). destruct (decide (id' = id)) as [->|Hne].
  - exists id, (f a). rewrite lookup_alter_eq, Ha. destruct (Hf a He Hr). done.
  - exists id', a. by rewrite lookup_alter_ne.
Qed.

Lemma alive_grows defaults G d d' : grows defaults G d d' -> admin_alive d -> admin_alive d'.
Proof.
  intros Hg (id & a & _ & Ha & He & Hr). specialize (Hg id). rewrite Ha in Hg.
  destruct Hg as (a' & Ha' & [_ E _ [Hsub _]]). exists id, a'. split_and!; [done|done|congruence|by apply Hsub].
Qed.

Section Guard.
Context {KC : Type} `{DirectoryLaws KC}.
Implicit Types w : World Requests KC.

(** Calls that fail or change one account, keeping a property of the directory. *)
Lemma wp_changes {A} (m : M Requests KC (result A)) f (P : directory -> Prop) (Q : result A -> World Requests KC -> Prop) w :
  calls kc_ok m (changes kc_dir f) -> kc_ok (w_led w) -> P (dirs w) -> P (f (dirs w)) ->
  (forall r w', outside w w' -> kc_ok (w_led w') -> P (dirs w') -> Q r w') -> wp m Q w.
Proof.
  intros Hm Hok HP Hf HQ. eapply wp_calls; [exact Hm|done|]. intros r w' Ho Hk [Hc|[Hc _]]; apply HQ; try done;
    unfold dirs; by rewrite Hc.
Qed.

Lemma wp_each_role call f id roles (P : directory -> Prop) (Q : option string -> World Requests KC -> Prop) w :
  (forall role, calls kc_ok (call role) (changes kc_dir (alter (f role) id))) ->
  (forall role d, role ∈ roles -> P d -> P (alter (f role) id d)) ->
  kc_ok (w_led w) -> P (dirs w) -> (forall r w', outside w w' -> kc_ok (w_led w') -> P (dirs w') -> Q r w') ->
  wp (each_role call roles) Q w.
Proof.
  intros Hc. revert w. induction roles as [|role roles IH]; intros w Hf Hok HP HQ; simpl; [apply wp_ret; by apply HQ|].
  apply wp_bind. eapply (wp_changes _ _ P); [apply Hc|done|done|by apply Hf; [left|]|]. intros r w1 O1 K1 P1.
  destruct r; [|apply wp_ret; by apply HQ]. apply IH; [|done|done|].
  - intros role' d Hin. apply Hf. by right.
  - intros r w2 O2 K2 P2. apply HQ; [by etransitivity|done|done].
Qed.

Definition few_admins w : Prop := (size (holders "platform-admin" (dirs w)) <= 100)%nat.

Lemma wp_sole target (Q : result bool -> World Requests KC -> Prop) w :
  kc_ok (w_led w) -> few_admins w ->
  (forall r w', outside w w' -> kc_ok (w_led w') -> dirs w' = dirs w ->
     (forall b, r = Ok b -> b = true <-> enabled_admin target (dirs w) /\ ~ admin_besides (Some target) (dirs w)) -> Q r w') ->
  wp (soleEnabledPlatformAdmin target) Q w.
Proof.
  intros Hok Hfew HQ. unfold soleEnabledPlatformAdmin. apply wp_bind. eapply wp_calls; [apply law_list|done|].
  intros r w1 O1 K1 [Hd Hsh]. destruct r as [us|e]; apply wp_ret, HQ; try done.
  intros b [= <-]. apply sole_test, Hsh; done.
Qed.

Lemma wp_removal_guard id remove (Q : option response -> World Requests KC -> Prop) w :
  kc_ok (w_led w) -> few_admins w ->
  (forall r w', outside w w' -> kc_ok (w_led w') -> dirs w' = dirs w ->
     (r = None -> "platform-admin" ∈ remove -> admin_alive (dirs w) -> admin_besides (Some id) (dirs w)) -> Q r w') ->
  wp (removal_guard id remove) Q w.
Proof.
  revert w. induction remove as [|role rest IH]; intros w Hok Hfew HQ; simpl.
  { apply wp_ret, HQ; [reflexivity|done|done|]. by intros _ Hin%elem_of_nil. }
  destruct (bool_decide _) eqn:Hr; simpl.
  - apply wp_bind, wp_sole; [done|done|]. intros r w1 O1 K1 D1 Hb.
    destruct r as [[]|e]; [apply wp_ret; by apply HQ| |apply wp_ret; by apply HQ].
    apply IH; [done|by unfold few_admins; rewrite D1|]. intros r w2 O2 K2 D2 Hn.
    apply HQ; [by etransitivity|done|congruence|]. intros -> _ Halive. apply alive_besides; [done|].
    intros Hs. by apply (Hb false eq_refl) in Hs.
  - apply bool_decide_eq_false in Hr. apply IH; [done|done|]. intros r w2 O2 K2 D2 Hn. apply HQ; try done.
    intros -> [?|Hin]%elem_of_cons; [congruence|]. auto.
Qed.

(** ** Each request *)

(** The admin plane survives a call. *)
Definition survives {A} (m : M Requests KC A) : Prop := forall w, kc_ok (w_led w) -> few_admins w ->
  wp m (fun _ w' => outside w w' /\ kc_ok (w_led w') /\ (admin_alive (dirs w) -> admin_alive (dirs w'))) w.

Lemma survives_UpdateRoles id b : survives (UpdateRoles id b).
Proof.
  intros w Hok Hfew. unfold UpdateRoles. destruct b as [msg|b]; [by apply wp_ret|]. destruct (_ && _); [by apply wp_ret|].
  apply wp_bind, wp_removal_guard; [done|done|]. intros stop w1 O1 K1 D1 Hg.
  destruct stop; [apply wp_ret; by rewrite D1|]. specialize (Hg eq_refl).
  assert (exists P : directory -> Prop, P (dirs w1) /\ (forall role d, P d -> P (alter (add_role role) id d)) /\
    (forall role d, role ∈ rb_remove b -> P d -> P (alter (drop_role role) id d)) /\
    (forall d, P d -> admin_alive (dirs w) -> admin_alive d)) as (P & P1 & Padd & Pdrop & Pend).
  { destruct (decide ("platform-admin" ∈ rb_remove b)) as [Hin|Hnin].
    - exists (fun d => admin_alive (dirs w) -> admin_besides (Some id) d). rewrite D1.
      split_and!; eauto using besides_alter, besides_alive.
    - exists (fun d => admin_alive (dirs w) -> admin_alive d). rewrite D1. split_and!; [done| | |done].
      + intros role d HP Ha. apply alive_alter; [|by apply HP]. intros a He Hr. split; [done|]. simpl. set_solver.
      + intros role d Hin HP Ha. apply alive_alter; [|by apply HP]. intros a He Hr. split; [done|]. simpl.
        apply elem_of_difference. split; [done|]. intros E%elem_of_singleton. by subst role. }
  apply wp_bind, (wp_each_role _ add_role id _ P); [intros; apply law_assign|auto|done|done|]. intros failed w2 O2 K2 P2.
  assert (outside w w2) as O2' by (by etransitivity). destruct failed; [apply wp_ret; split_and!; auto|].
  apply wp_bind, (wp_each_role _ drop_role id _ P); [intros; apply law_revoke|auto|done|done|]. intros failed w3 O3 K3 P3.
  assert (outside w w3) as O3' by (by etransitivity). destruct failed; apply wp_ret; split_and!; auto.
Qed.

Lemma survives_setEnabled ctx id b : survives (setEnabled ctx id b).
Proof.
  intros w Hok Hfew. unfold setEnabled. apply wp_bind.
  apply (wp_mono _ (fun stop w1 => outside w w1 /\ kc_ok (w_led w1) /\ dirs w1 = dirs w /\
    (stop = None -> b = false -> admin_alive (dirs w) -> admin_besides (Some id) (dirs w)))).
  - intros stop w1 (O1 & K1 & D1 & Hg). destruct stop; [apply wp_ret; by rewrite D1|]. specialize (Hg eq_refl).
    unfold change_enabled. apply wp_bind.
    eapply (wp_changes _ _ (fun d => admin_alive (dirs w) -> admin_alive d)); [apply law_enabled|done|by rewrite D1| |].
    + intros Ha. rewrite D1. destruct b.
      * apply alive_alter; [|done]. intros a He Hr. done.
      * eapply besides_alive, besides_alter, Hg; done.
    + intros r w2 O2 K2 P2. assert (outside w w2) as O2' by (by etransitivity).
      destruct r; apply wp_ret; split_and!; auto.
  - destruct b; [apply wp_ret; by split_and!|]. unfold disable_guard.
    destruct (bool_decide _); [apply wp_ret; by split_and!|]. apply wp_bind, wp_sole; [done|done|].
    intros r w1 O1 K1 D1 Hb. destruct r as [[]|e]; apply wp_ret; split_and!; try done.
    intros _ _ Ha. apply alive_besides; [done|]. intros Hs. by apply (Hb false eq_refl) in Hs.
Qed.

Lemma survives_Create b : survives (Create b).
Proof.
  intros w Hok _. unfold Create. destruct b as [msg|b]; [by apply wp_ret|].
  destruct (_ || _); [by apply wp_ret|]. destruct (bool_decide _); [by apply wp_ret|].
  apply wp_bind. eapply wp_calls; [apply law_create|done|]. intros r w1 O1 K1 C1.
  assert (admin_alive (dirs w) -> admin_alive (dirs w1)) as H01 by (apply alive_grows with kc_defaults ∅; by eapply created_grows).
  destruct r as [[id []]|e]; [by apply wp_ret| |by apply wp_ret].
  apply wp_bind, (wp_each_role _ add_role id _ (fun d => admin_alive (dirs w) -> admin_alive d));
    [intros; apply law_assign| |done|done|].
  { intros role d _ HP Ha. apply alive_alter; [|by apply HP]. intros a He Hr. split; [done|]. simpl. set_solver. }
  intros failed w2 O2 K2 P2. assert (outside w w2) as O2' by (by etransitivity).
  destruct failed; [by apply wp_ret|]. apply wp_bind. eapply wp_calls; [apply law_email|done|].
  intros r3 w3 O3 K3 D3. apply wp_ret. split_and!; [by etransitivity|done|]. unfold dirs. by rewrite D3.
Qed.

Lemma survives_reads role q : survives (List role q).
Proof.
  intros w Hok _. unfold List. apply wp_bind. eapply wp_calls; [apply law_list|done|]. intros r w1 O1 K1 [D1 _].
  destruct r; apply wp_ret; split_and!; try done; unfold dirs; by rewrite D1.
Qed.

Lemma survives_ResetPassword id : survives (ResetPassword id).
Proof.
  intros w Hok _. unfold ResetPassword. apply wp_bind. eapply wp_calls; [apply law_email|done|]. intros r w1 O1 K1 D1.
  destruct r; apply wp_ret; split_and!; try done; unfold dirs; by rewrite D1.
Qed.

(** ** The admin plane: onboarding and user management over one directory *)

Inductive user_request : Type :=
| UList (role q : string)
| UCreate (b : string + createBody)
| UUpdateRoles (id : string) (b : string + rolesBody)
| USetEnabled (ctx : claims) (id : string) (enabled : bool)
| UResetPassword (id : string).

Definition managed (q : user_request) : M Requests KC response :=
  match q with
  | UList role q => List role q
  | UCreate b => Create b
  | UUpdateRoles id b => UpdateRoles id b
  | USetEnabled ctx id b => setEnabled ctx id b
  | UResetPassword id => ResetPassword id
  end.

Lemma survives_managed q : survives (managed q).
Proof.
  destruct q; [apply survives_reads|apply survives_Create|apply survives_UpdateRoles|apply survives_setEnabled|apply survives_ResetPassword].
Qed.

Inductive plane_event : Type := Onboarding (e : ob_event) | Managing (q : user_request).

Definition plane_step `{PgServer} `{Runtime} (h : Handler) (w : World Requests KC) (e : plane_event) : World Requests KC :=
  match e with
  | Onboarding e => happens h e w
  | Managing q => (managed q w).2
  end.

Definition plane_run `{PgServer} `{Runtime} (h : Handler) (es : list plane_event) (w : World Requests KC) : World Requests KC :=
  foldl (plane_step h) w es.

(** C15: nobody locks the platform out.  Over any onboarding and user-management
    requests, role changes, disabling and sweeps, one after the other and under
    any faults, an enabled platform-admin account remains, as long as at most
    a hundred accounts hold the role. *)
Theorem admin_plane_survives `{PgServer} `{Runtime} h es w :
  (forall n, uuid_in (uuid_of n) = Ok (uuid_of n)) -> sound w -> admin_alive (dirs w) ->
  (forall es1 es2, es = es1 ++ es2 -> few_admins (plane_run h es1 w)) ->
  admin_alive (dirs (plane_run h es w)).
Proof.
  intros Hu. revert w. induction es as [|e es IH]; intros w Hs Ha Hfew; [done|].
  assert (sound (plane_step h w e) /\ admin_alive (dirs (plane_step h w e))) as [Hs' Ha'].
  { destruct e as [e|q]; simpl.
    - destruct (event_progress h Hu e w Hs Hs) as (? & _ & Hg). split; [done|]. by eapply alive_grows.
    - destruct (survives_managed q w (proj1 Hs) (Hfew [] (Managing q :: es) eq_refl)) as (Ho & Hk & Hal).
      split; [|by apply Hal]. split; [done|]. rewrite (out_db _ _ Ho), (out_now _ _ Ho). apply Hs. }
  change (plane_run h (e :: es) w) with (plane_run h es (plane_step h w e)). apply IH; [done|done|].
  intros es1 es2 ->. by apply (Hfew (e :: es1) es2).
Qed.

(** The lockout test is exact.  When the listing works and shows all
    holders, [soleEnabledPlatformAdmin] answers true exactly if the target is
    an enabled platform-admin and no other account is. *)
Theorem sole_admin_check_exact target w : kc_ok (w_led w) -> few_admins w ->
  forall b, (soleEnabledPlatformAdmin target w).1 = Ok b ->
  b = true <-> enabled_admin target (dirs w) /\ ~ admin_besides (Some target) (dirs w).
Proof.
  intros Hok Hfew b Hb. enough (wp (soleEnabledPlatformAdmin target) (fun r _ => forall b, r = Ok b ->
    b = true <-> enabled_admin target (dirs w) /\ ~ admin_besides (Some target) (dirs w)) w) as Hw by (by apply Hw).
  apply wp_sole; auto.
Qed.

(** Creating a user never adopts an account.  Whatever fails, the accounts
    that were there keep address, enabled flag, credentials and roles, and a
    201 comes with an account that was not there before. *)
Theorem create_user_adopts_nothing b w : kc_ok (w_led w) ->
  let '(resp, w') := Create (inr b) w in
  (forall id a, dirs w !! id = Some a -> dirs w' !! id = Some a) /\
  (status resp = 201 -> exists id, dirs w !! id = None /\ is_Some (dirs w' !! id)).
Proof.
  intros Hok. enough (wp (Create (inr b)) (fun resp w' => (forall id a, dirs w !! id = Some a -> dirs w' !! id = Some a) /\
    (status resp = 201 -> exists id, dirs w !! id = None /\ is_Some (dirs w' !! id))) w) as Hw
    by (unfold wp in Hw; by destruct (Create (inr b) w)).
  unfold Create. destruct (_ || _); [by apply wp_ret|]. destruct (bool_decide _); [by apply wp_ret|].
  apply wp_bind. eapply wp_calls; [apply law_create|done|]. intros r w1 O1 K1 C1.
  assert (forall id a, dirs w !! id = Some a -> dirs w1 !! id = Some a) as Hkeep.
  { destruct C1 as [[Hd _]|(i & x & Hn & _ & Hd & _)]; unfold dirs; rewrite Hd; intros id a Ha; [done|].
    rewrite lookup_insert_ne; [done|congruence]. }
  destruct r as [[id existed]|e]; [|by apply wp_ret]. destruct existed; [by apply wp_ret|].
  assert (dirs w !! id = None /\ is_Some (dirs w1 !! id)) as [Hnew Hid].
  { destruct C1 as [[_ [? _]]|(i & x & Hn & _ & Hd & _ & _ & _ & _ & -> & _)]; [done|]. split; [done|].
    unfold dirs. rewrite Hd, lookup_insert_eq. by eexists. }
  assert (forall d : directory, (forall id a, dirs w !! id = Some a -> d !! id = Some a) -> forall f id' a, dirs w !! id' = Some a -> alter f id d !! id' = Some a) as Hother.
  { intros d Hd f id' a Ha. rewrite lookup_alter_ne by congruence. auto. }
  apply wp_bind, (wp_each_role _ add_role id _ (fun d : directory => (forall id a, dirs w !! id = Some a -> d !! id = Some a) /\ is_Some (d !! id)));
    [intros; apply law_assign| |done|done|].
  { intros role d _ [Hd Hi]. split; [by apply Hother|by apply lookup_alter_is_Some]. }
  intros failed w2 O2 K2 [P2 I2]. destruct failed; [by apply wp_ret|]. apply wp_bind. eapply wp_calls; [apply law_email|done|].
  intros r3 w3 O3 K3 D3. apply wp_ret. unfold dirs at 2 4. rewrite D3. split; [done|]. intros _. by exists id.
Qed.
End Guard.

(** ** Concrete runs *)

#[local] Existing Instance test_runtime.
#[local] Existing Instance test_server.
#[local] Existing Instance ascii_case.
#[local] Existing Instance test_entropy.

(** The administrator of [root_sim], and a second one. *)
Definition two_admins : simulated :=
  (sim_AssignRealmRole (simID 1) "platform-admin" (sim_CreateUser (mkSpec "ops@h2.example" "ops@h2.example" "Ops Admin") root_sim).2).2.

Definition plane_world (s : simulated) : World Requests simulated := mkWorld ∅ s [] 1000 10 [] [] [].

Definition root_claims : claims := claims_of (simID 0) ["platform-admin"].
Definition ops_claims : claims := claims_of (simID 1) ["platform-admin"].

(** Two administrators disable each other at the same time: each check sees
    the other still enabled, both are answered 200 and nobody is left. *)
Theorem mutual_disable_locks_out :
  let w := plane_world two_admins in
  let '(check1, w1) := disable_guard root_claims (simID 1) w in
  let '(check2, w2) := disable_guard ops_claims (simID 0) w1 in
  let '(answer1, w3) := change_enabled (simID 1) false w2 in
  let '(answer2, w4) := change_enabled (simID 0) false w3 in
  check1 = None /\ check2 = None /\ status answer1 = 200 /\ status answer2 = 200 /\
  bool_decide (admin_alive (dirs w)) = true /\ bool_decide (admin_alive (dirs w4)) = false.
Proof. vm_compute. repeat split. Qed.

(** A realm of 101 administrators, all disabled but the one that Keycloak
    lists last. *)
Definition crowd : directory :=
  list_to_map (map (fun n => (plain_id n, mkAccount (plain_id n) false {["platform-admin"]} 0)) (seq 0 101)).

Definition last_listed : string := default "" (head (reverse (map_to_list (holders "platform-admin" crowd)).*1)).

Definition crowd_client : httpClient plain_kc :=
  mkHttpClient "admin-api" "secret" "" 0 (mkPlainKc (alter (set_active true) last_listed crowd) 101).

(** The check asks for a thousand administrators, the client asks Keycloak for
    a hundred: the only enabled one is not among them, so disabling it passes. *)
Theorem hundredth_admin_locks_out :
  let w := mkWorld ∅ crowd_client [] 1000 10 [] [] [] : World Requests (httpClient plain_kc) in
  let '(answer, w') := Disable root_claims last_listed w in
  bool_decide (admin_alive (dirs w)) = true /\ status answer = 200 /\ bool_decide (admin_alive (dirs w')) = false.
Proof. vm_compute. repeat split. Qed.

Lemma two_admins_ok : sim_ok two_admins.
Proof. eapply memory_ok; [apply sim_assign_law|]. eapply memory_ok; [apply sim_create_law|]. apply root_sim_ok. Qed.

(** One after the other, the second disabling is refused. *)
Definition feud : list plane_event :=
  [Managing (USetEnabled root_claims (simID 1) false); Managing (USetEnabled ops_claims (simID 0) false);
   Managing (UUpdateRoles (simID 0) (inr (mkRoles [] ["platform-admin"])))].

Lemma admin_plane_survives_witness :
  admin_alive (dirs (plane_run test_handler feud (plane_world two_admins))).
Proof.
  apply (admin_plane_survives test_handler feud (plane_world two_admins) test_canonical).
  - split; [exact two_admins_ok|apply empty_table].
  - apply (bool_decide_unpack _). by vm_compute.
  - intros es1 es2 He. assert (length es1 <= 3)%nat as Hlen.
    { apply (f_equal length) in He. rewrite length_app in He. simpl in He. lia. }
    assert (es1 = take (length es1) feud) as -> by by rewrite He, take_app_length.
    revert Hlen. generalize (length es1) as n. intros n Hn.
    destruct n as [|[|[|[|n]]]]; [..|lia]; apply Nat.leb_le; by vm_compute.
Defined.

Lemma sole_admin_check_exact_witness :
  true = true <-> enabled_admin (simID 0) (dirs (plane_world root_sim)) /\
                  ~ admin_besides (Some (simID 0)) (dirs (plane_world root_sim)).
Proof.
  apply (sole_admin_check_exact (simID 0) (plane_world root_sim)); [exact root_sim_ok|apply Nat.leb_le|]; by vm_compute.
Defined.

Lemma create_user_adopts_nothing_witness :
  let '(resp, w') := Create (inr (mkCreate "new@h2.example" "New" ["driver"])) (plane_world root_sim) in
  (forall id a, dirs (plane_world root_sim) !! id = Some a -> dirs w' !! id = Some a) /\
  (status resp = 201 -> exists id, dirs (plane_world root_sim) !! id = None /\ is_Some (dirs w' !! id)).
Proof. apply (create_user_adopts_nothing (mkCreate "new@h2.example" "New" ["driver"]) (plane_world root_sim)). exact root_sim_ok. Defined.
End Users.
