(* ===== verification/Passenger.v ===== *)
(** * The passenger network, its timetable and the journey planner

    Models services/go/citizen-api/internal/handlers/passenger.go over the
    tables fleet.stops, fleet.routes and fleet.route_stops of migration 0005:
    loading the network with its fallback, next arrivals, direct and
    one-transfer journeys, service alerts.  The clock and all instants are in
    nanoseconds, as [time.Time] keeps them.

    The departure loop steps by the route's headway and need not end; [None]
    is a run that has not ended within the fuel.  [sort.Slice] leaves the
    order of equal elements open; the model keeps their order. *)

From Stdlib Require Import Ascii String.
From S2P Require Import Prelude Codec World Float64 InfraDb.

Open Scope Z_scope.
Open Scope go_scope.

Definition minute : Z := 60000000000.
Definition day : Z := 1440 * minute.

(** ** Times

    An instant with the location its wall clock is read in. *)

Inductive Location : Type := UTC | Local.

Record time : Type := mkTime { tm_at : Z; tm_loc : Location }.

(** The local time zone: the instant of a minute of the civil day that an
    instant falls on.  The service window of a civil day fits in 24 hours. *)
Class Zone : Type := {
  local_wall : Z -> Z -> Z;
  local_span t : local_wall t 1380 - local_wall t 330 <= day
}.

(** A fixed offset from UTC, in minutes. *)
Definition fixed_zone (offset : Z) : Zone.
Proof.
  refine {| local_wall := fun t m => (t + offset * minute) - (t + offset * minute) mod day + (m - offset) * minute |}.
  intros t. unfold day, minute. lia.
Defined.

(** [time.Date] at a minute of the civil day of [t], in the location of [t]. *)
Definition wall `{Zone} (t : time) (m : Z) : time :=
  mkTime (match tm_loc t with UTC => tm_at t - tm_at t mod day + m * minute | Local => local_wall (tm_at t) m end) (tm_loc t).

Definition Add (t : time) (d : Z) : time := mkTime (tm_at t + d) (tm_loc t).
Definition Utc (t : time) : time := mkTime (tm_at t) UTC.

(** ** The network *)

Record Stop : Type := mkStop { StopID : string; StopName : string; Lat : float64; Lon : float64 }.

Record Route : Type := mkRoute {
  RouteID : string; RouteShortName : string; RouteLongName : string; RouteType : Z; HeadwayMin : Z; StopIDs : list string }.

Definition decimal (s : string) : float64 := default fzero (ParseFloat s).

Definition fallbackStops : list Stop := [
  mkStop "S001" "Central Station" (decimal "52.5200") (decimal "13.4050");
  mkStop "S002" "Museum Island" (decimal "52.5169") (decimal "13.4010");
  mkStop "S003" "City Hall" (decimal "52.5186") (decimal "13.4081");
  mkStop "S004" "Riverside Depot" (decimal "52.5050") (decimal "13.4310");
  mkStop "S005" "North H2 Hub" (decimal "52.5400") (decimal "13.3900");
  mkStop "S006" "University Campus" (decimal "52.5120") (decimal "13.3260");
  mkStop "S007" "Market Square" (decimal "52.5155") (decimal "13.4180");
  mkStop "S008" "Stadium Park" (decimal "52.4990") (decimal "13.3890")].

Definition fallbackRoutes : list Route := [
  mkRoute "R10" "10" "Central Station — North H2 Hub" 3 10 ["S001"; "S002"; "S003"; "S005"];
  mkRoute "R21" "21" "University — Riverside Depot" 3 15 ["S006"; "S001"; "S007"; "S004"];
  mkRoute "R42" "42" "Stadium Park — City Hall" 3 20 ["S008"; "S007"; "S003"; "S001"]].

(** Service from minute 330 (05:30) to minute 1380 (23:00) of the day. *)
Definition serviceStart : Z := 5 * 60 + 30.
Definition serviceEnd : Z := 23 * 60.
Definition minutesPerStop : Z := 4.

(** fleet.stops and fleet.routes by id; fleet.route_stops by its key (route, seq). *)
Record StopRow : Type := mkStopRow { sr_code : string; sr_name : string; sr_lat : float64; sr_lon : float64 }.
Record RouteRow : Type := mkRouteRow {
  ro_code : string; ro_short : string; ro_long : string; ro_headway : option Z; ro_active : bool }.
Record NetworkDB : Type := mkNetworkDB {
  nd_stops : gmap string StopRow; nd_routes : gmap string RouteRow; nd_route_stops : gmap (string * Z) string }.

(** The two queries of [loadNetwork]. *)
Definition stop_rows (d : NetworkDB) : list Stop :=
  map (fun r => mkStop (sr_code r) (sr_name r) (sr_lat r) (sr_lon r)) (order_text sr_code (rows (nd_stops d))).

Definition stop_sequence (d : NetworkDB) (route : string) : list string :=
  omap (fun p => sr_code <$> nd_stops d !! p.2)
    (order_asc (fun p => p.1.2) (filter (fun p => p.1.1 = route) (map_to_list (nd_route_stops d)))).

(** [string_agg(s.code, ',' ORDER BY rs.seq)]. *)
Definition string_agg (codes : list string) : string := String.concat "," codes.

Definition route_rows (d : NetworkDB) : list (RouteRow * string) :=
  map (fun p => (p.2, string_agg (stop_sequence d p.1)))
    (order_text (fun p => ro_code p.2) (filter (fun p => ro_active p.2 = true) (map_to_list (nd_routes d)))).

Fixpoint splitCSV_from (cur l : list ascii) : list string :=
  match l with
  | [] => [string_of_list_ascii (rev cur)]
  | c :: l => if Ascii.eqb c "," then string_of_list_ascii (rev cur) :: splitCSV_from [] l else splitCSV_from (c :: cur) l
  end.

Definition splitCSV (csv : string) : list string := splitCSV_from [] (list_ascii_of_string csv).

Definition scan_route (row : RouteRow * string) : Route :=
  let '(r, stopCSV) := row in
  mkRoute (ro_code r) (ro_short r) (ro_long r) 3 (default 15 (ro_headway r)) (if bool_decide (stopCSV = "") then [] else splitCSV stopCSV).

Definition stopByID (stops : list Stop) (id : string) : option Stop := List.find (fun s => bool_decide (StopID s = id)) stops.

Section Network.
Context {S : Type}.

Abbreviation NM := (M NetworkDB S).

Definition loadNetwork : NM (result (list Stop * list Route)) :=
  try! stops := db_query (fun d => Ok (stop_rows d)) catch e => gret (Err e) in
  try! routes := db_query (fun d => Ok (map scan_route (route_rows d))) catch e => gret (Err e) in
  gret (Ok (stops, routes)).

(** [connected]: the service was started with a database. *)
Definition network (connected : bool) : NM (list Stop * list Route) :=
  if negb connected then gret (fallbackStops, fallbackRoutes)
  else
    let! r := loadNetwork in
    match r with
    | Ok (stops, routes) =>
        if bool_decide (stops = []) || bool_decide (routes = []) then gret (fallbackStops, fallbackRoutes)
        else gret (stops, routes)
    | Err _ => gret (fallbackStops, fallbackRoutes)
    end.
End Network.

(** ** The timetable *)

Record Arrival : Type := mkArrival {
  ar_route : string; ar_short : string; ar_headsign : string; ar_stop : string; ar_at : Z; ar_in : Z }.

(** The loop over departures: [t] steps by the headway until the end of
    service or until [n] departures after [after] are found. *)
Fixpoint departure_loop (fuel : nat) (t headway endt after : Z) (n : nat) (out : list Z) : option (list Z) :=
  match fuel with
  | O => None
  | S fuel =>
      if (t <? endt) && (length out <? n)%nat then
        if negb (after <? t) then departure_loop fuel (t + headway) headway endt after n out
        else departure_loop fuel (t + headway) headway endt after n (out ++ [t])
      else Some out
  end.

(** [time.Duration(minutes) * time.Minute]. *)
Definition duration_minutes (m : Z) : Z := wrap_i64 (m * minute).

Definition headsign (stops : list Stop) (rt : Route) : string :=
  match stopByID stops (List.last (StopIDs rt) "") with Some s => StopName s | None => "" end.

(** The index of the first occurrence, or -1. *)
Fixpoint index_from (i : Z) (l : list string) (id : string) : Z :=
  match l with
  | [] => -1
  | x :: l => if bool_decide (x = id) then i else index_from (i + 1) l id
  end.

Definition stopIndex (rt : Route) (id : string) : Z := index_from 0 (StopIDs rt) id.

Definition stop_at (rt : Route) (i : Z) : string := nth (Z.to_nat i) (StopIDs rt) "".

Section Timetable.
Context `{Zone} (fuel : nat).

Definition stopTime (stopOffset : Z) (after : time) : Z := tm_at (wall after serviceStart) + duration_minutes (stopOffset * minutesPerStop).

(** [now] is the clock that [time.Until] reads. *)
Definition nextArrivalsAfter (stops : list Stop) (rt : Route) (stopOffset : Z) (after : time) (n : nat) (now : Z) : option (list Arrival) :=
  let headway := duration_minutes (HeadwayMin rt) in
  let endt := tm_at (wall after serviceEnd) in
  map (fun t => mkArrival (RouteID rt) (RouteShortName rt) (headsign stops rt) (stop_at rt stopOffset) t (Z.quot (t - now) minute))
    <$> departure_loop fuel (stopTime stopOffset after) headway endt (tm_at after) n [].

Definition nextArrivals (stops : list Stop) (rt : Route) (stopOffset : Z) (now : time) (n : nat) : option (list Arrival) :=
  nextArrivalsAfter stops rt stopOffset (Add now (- minute)) n (tm_at now).

(** The loop of [GetArrivals] over the routes. *)
Fixpoint arrivals_loop (stops : list Stop) (stopID : string) (now : time) (routes : list Route) : option (list Arrival) :=
  match routes with
  | [] => Some []
  | rt :: rest =>
      let offset := stopIndex rt stopID in
      if offset <? 0 then arrivals_loop stops stopID now rest
      else
        match nextArrivals stops rt offset now 3 with
        | None => None
        | Some here => app here <$> arrivals_loop stops stopID now rest
        end
  end.

Definition arrival_json (a : Arrival) : json :=
  JObj [("route_id", JStr (ar_route a)); ("route_short_name", JStr (ar_short a)); ("headsign", JStr (ar_headsign a));
        ("stop_id", JStr (ar_stop a)); ("scheduled_at", JTime (ar_at a)); ("in_minutes", JInt (ar_in a));
        ("schedule_based", JBool true)].

End Timetable.

(** ** Journeys *)

Record JourneyLeg : Type := mkLeg {
  lg_route : string; lg_short : string; lg_from : string; lg_to : string; lg_depart : Z; lg_arrive : Z; lg_minutes : Z }.

Record JourneyTransfer : Type := mkTransfer {
  tf_stop : string; tf_legs : list JourneyLeg; tf_depart : Z; tf_arrive : Z; tf_minutes : Z }.

(** The keys seen and the transfers found. *)
Abbreviation found := (list string * list JourneyTransfer)%type.

Section Journeys.
Context `{Zone} (fuel : nat).

(** [makeLeg]; [Some None] where the code returns nil. *)
Definition makeLeg (stops : list Stop) (now : Z) (rt : Route) (fromIdx toIdx : Z) (after : time) : option (option JourneyLeg) :=
  match nextArrivalsAfter fuel stops rt fromIdx after 1 now with
  | None => None
  | Some [] => Some None
  | Some (d :: _) =>
      let dep := ar_at d in
      let arr := dep + duration_minutes ((toIdx - fromIdx) * minutesPerStop) in
      Some (Some (mkLeg (RouteID rt) (RouteShortName rt) (stop_at rt fromIdx) (stop_at rt toIdx) dep arr (Z.quot (arr - dep) minute)))
  end.

Fixpoint direct_loop (stops : list Stop) (from to : string) (now : time) (routes : list Route) : option (list JourneyLeg) :=
  match routes with
  | [] => Some []
  | rt :: rest =>
      let fromIdx := stopIndex rt from in let toIdx := stopIndex rt to in
      if (fromIdx <? 0) || (toIdx <? 0) || (toIdx <=? fromIdx) then direct_loop stops from to now rest
      else
        match makeLeg stops (tm_at now) rt fromIdx toIdx (Add now (- minute)) with
        | None => None
        | Some None => direct_loop stops from to now rest
        | Some (Some leg) => cons leg <$> direct_loop stops from to now rest
        end
  end.

Definition transfer_key (a b : Route) (x : string) : string := RouteID a +:+ "|" +:+ RouteID b +:+ "|" +:+ x.

(** The body of the innermost loop, for an interchange stop [x]. *)
Definition transfer_at (stops : list Stop) (now : time) (a b : Route) (fromIdx toIdx : Z) (x : string) (st : found) : option found :=
  let '(seen, transfers) := st in
  let aX := stopIndex a x in let bX := stopIndex b x in
  if (aX <=? fromIdx) || (bX <? 0) || (toIdx <=? bX) then Some st
  else
    let key := transfer_key a b x in
    if bool_decide (key ∈ seen) then Some st
    else
      match makeLeg stops (tm_at now) a fromIdx aX (Add now (- minute)) with
      | None => None
      | Some None => Some st
      | Some (Some leg1) =>
          match makeLeg stops (tm_at now) b bX toIdx (mkTime (lg_arrive leg1) UTC) with
          | None => None
          | Some None => Some st
          | Some (Some leg2) =>
              Some (key :: seen,
                    transfers ++ [mkTransfer x [leg1; leg2] (lg_depart leg1) (lg_arrive leg2)
                                    (Z.quot (lg_arrive leg2 - lg_depart leg1) minute)])
          end
      end.

(** A loop whose body may not return. *)
Fixpoint loop_over {A S} (body : A -> S -> option S) (l : list A) (s : S) : option S :=
  match l with
  | [] => Some s
  | a :: l => match body a s with None => None | Some s => loop_over body l s end
  end.

Definition transfers_from (stops : list Stop) (routes : list Route) (from to : string) (now : time) (a : Route) (st : found) : option found :=
  let fromIdx := stopIndex a from in
  if fromIdx <? 0 then Some st
  else
    loop_over (fun b st =>
      if bool_decide (RouteID b = RouteID a) then Some st
      else
        let toIdx := stopIndex b to in
        if toIdx <? 0 then Some st
        else loop_over (transfer_at stops now a b fromIdx toIdx) (StopIDs a) st) routes st.

Definition planJourney (stops : list Stop) (routes : list Route) (from to : string) (now : time)
    : option (list JourneyLeg * list JourneyTransfer) :=
  match direct_loop stops from to now routes with
  | None => None
  | Some direct =>
      match loop_over (transfers_from stops routes from to now) routes ([], []) with
      | None => None
      | Some (_, transfers) => Some (order_asc lg_depart direct, order_asc tf_arrive transfers)
      end
  end.

Definition leg_json (l : JourneyLeg) : json :=
  JObj [("route_id", JStr (lg_route l)); ("route_short_name", JStr (lg_short l)); ("from_stop_id", JStr (lg_from l));
        ("to_stop_id", JStr (lg_to l)); ("depart_at", JTime (lg_depart l)); ("arrive_at", JTime (lg_arrive l));
        ("duration_min", JInt (lg_minutes l))].

Definition transfer_json (t : JourneyTransfer) : json :=
  JObj [("transfer_stop_id", JStr (tf_stop t)); ("legs", JList (map leg_json (tf_legs t))); ("depart_at", JTime (tf_depart t));
        ("arrive_at", JTime (tf_arrive t)); ("duration_min", JInt (tf_minutes t))].

(** ** The handlers; [None] is a request that is never answered *)

Definition stop_json (s : Stop) : json :=
  JObj [("stop_id", JStr (StopID s)); ("stop_name", JStr (StopName s)); ("stop_lat", JFloat (Lat s)); ("stop_lon", JFloat (Lon s))].

Definition route_json (r : Route) : json :=
  JObj [("route_id", JStr (RouteID r)); ("route_short_name", JStr (RouteShortName r)); ("route_long_name", JStr (RouteLongName r));
        ("route_type", JInt (RouteType r)); ("headway_min", JInt (HeadwayMin r)); ("stop_ids", match StopIDs r with [] => JNull | ids => JList (map JStr ids) end)].

Section Handlers.
Context {S : Type} (connected : bool).

Abbreviation NM := (M NetworkDB S).

Definition ListStops : NM response :=
  let! n := network connected in reply 200 (JObj [("stops", JList (map stop_json n.1))]).

Definition ListRoutes : NM response :=
  let! n := network connected in reply 200 (JObj [("routes", JList (map route_json n.2))]).

Definition GetArrivals (stopID : string) : NM (option response) :=
  let! n := network connected in
  let '(stops, routes) := n in
  match stopByID stops stopID with
  | None => gret (Some (json_error 400 "unknown or missing stop_id"))
  | Some _ =>
      let! now := gets w_now in
      match arrivals_loop fuel stops stopID (mkTime now Local) routes with
      | None => gret None
      | Some arrivals =>
          let arrivals := order_asc ar_at arrivals in
          gret (Some (mkResponse 200 (JObj [("stop_id", JStr stopID); ("generated_at", JTime now);
                                            ("arrivals", JList (map arrival_json (take 10 arrivals)))])))
      end
  end.

Definition PlanJourney (from to : string) : NM (option response) :=
  let! n := network connected in
  let '(stops, routes) := n in
  match stopByID stops from, stopByID stops to with
  | None, _ => gret (Some (json_error 400 "unknown or missing from stop_id"))
  | _, None => gret (Some (json_error 400 "unknown or missing to stop_id"))
  | Some _, Some _ =>
      let! now := gets w_now in
      match planJourney stops routes from to (mkTime now Local) with
      | None => gret None
      | Some (direct, transfers) =>
          gret (Some (mkResponse 200 (JObj [("from", JStr from); ("to", JStr to); ("options", JList (map leg_json direct));
                                            ("transfers", JList (map transfer_json transfers))])))
      end
  end.
End Handlers.
End Journeys.

(** ** Service alerts *)

Record ServiceAlert : Type := mkAlert {
  sa_id : string; sa_header : string; sa_description : string; sa_severity : string; sa_routes : list string;
  sa_from : Z; sa_until : Z }.

(** [time.Date(y, m, d, h, mi, s, 0, time.UTC)] by its day number. *)
Definition utc_instant (days h mi s : Z) : Z := days * day + (h * 60 + mi) * minute + s * 1000000000.

(** 2026-06-01, 2026-09-30, 2026-09-01 and 2026-09-17 as days since 1970. *)
Definition serviceAlerts : list ServiceAlert := [
  mkAlert "AL-001" "Route 42 detour via Market Square"
    "Due to roadworks on Museum Island, route 42 operates via Market Square until the end of September 2026." "warning" ["R42"]
    (utc_instant 20605 0 0 0) (utc_instant 20726 23 59 59);
  mkAlert "AL-002" "Free H2 bus rides on Clean Air Day"
    "All hydrogen bus lines are fare-free on the city Clean Air Day, 2026-09-17." "info" []
    (utc_instant 20697 0 0 0) (utc_instant 20713 23 59 59)].

Definition alert_json (a : ServiceAlert) : json :=
  JObj ([("id", JStr (sa_id a)); ("header", JStr (sa_header a)); ("description", JStr (sa_description a)); ("severity", JStr (sa_severity a))] ++
        (if bool_decide (sa_routes a = []) then [] else [("route_ids", JList (map JStr (sa_routes a)))]) ++
        [("active_from", JTime (sa_from a)); ("active_until", JTime (sa_until a))]).

Definition ListAlerts {D S} : M D S response :=
  let! now := gets w_now in
  reply 200 (JObj [("alerts", JList (map alert_json (filter (fun a => sa_from a < now /\ now < sa_until a) serviceAlerts)))]).
