(* ===== verification/PassengerTheorems.v ===== *)
(** * The timetable and the planner: theorems

    The departure loop against the timetable it walks, its termination and
    the headways for which it never ends; the arrivals board and the journey
    planner against a declarative reference; the network that is loaded and
    its fallback. *)

From Stdlib Require Import Ascii String Sorted.
From S2P Require Import Prelude Codec World Float64 InfraDb Passenger.

Open Scope Z_scope.
Open Scope go_scope.

(** ** The timetable *)

Definition departures_count (t headway endt : Z) : nat := Z.to_nat ((endt - t + headway - 1) / headway).

(** The departures from [t] on, every [headway], before [endt]. *)
Definition timetable (t headway endt : Z) : list Z :=
  map (fun i => t + Z.of_nat i * headway) (seq 0 (departures_count t headway endt)).

Lemma departures_count_done t hw endt : 0 < hw -> endt <= t -> departures_count t hw endt = 0%nat.
Proof.
  intros Hh Ht. unfold departures_count. assert ((endt - t + hw - 1) / hw < 1) by (apply Z.div_lt_upper_bound; lia). lia.
Qed.

Lemma departures_count_step t hw endt : 0 < hw -> t < endt -> departures_count t hw endt = S (departures_count (t + hw) hw endt).
Proof.
  intros Hh Ht. unfold departures_count.
  replace (endt - t + hw - 1) with (endt - (t + hw) + hw - 1 + 1 * hw) by lia. rewrite Z.div_add by lia.
  pose proof (Z.div_pos (endt - (t + hw) + hw - 1) hw ltac:(lia) Hh). lia.
Qed.

Lemma timetable_done t hw endt : 0 < hw -> endt <= t -> timetable t hw endt = [].
Proof. intros Hh Ht. unfold timetable. by rewrite departures_count_done. Qed.

Lemma timetable_step t hw endt : 0 < hw -> t < endt -> timetable t hw endt = t :: timetable (t + hw) hw endt.
Proof.
  intros Hh Ht. unfold timetable. rewrite departures_count_step by done. simpl. f_equal; [lia|].
  rewrite <- seq_shift, map_map. apply map_ext. intros i. lia.
Qed.

Lemma elem_of_timetable t hw endt d : 0 < hw -> d ∈ timetable t hw endt <-> exists i, 0 <= i /\ d = t + i * hw /\ d < endt.
Proof.
  intros Hh. unfold timetable, departures_count. rewrite list_elem_of_In, in_map_iff. split.
  - intros (i & <- & Hi%in_seq). exists (Z.of_nat i). split_and!; [lia|done|].
    assert (Z.of_nat i < (endt - t + hw - 1) / hw) as Hd by lia.
    assert (Z.of_nat i * hw + hw <= endt - t + hw - 1); [|lia].
    pose proof (Z.mul_div_le (endt - t + hw - 1) hw Hh). nia.
  - intros (i & Hi & -> & Hlt). exists (Z.to_nat i). split; [lia|]. apply in_seq. split; [lia|]. simpl.
    assert (i < (endt - t + hw - 1) / hw) by (apply Z.le_succ_l, Z.div_le_lower_bound; nia).
    lia.
Qed.

Abbreviation later after := (filter (fun d => after < d)).

(** Within the fuel the loop finds the first departures after [after]. *)
Lemma departure_loop_timetable fuel t hw endt after n out :
  0 < hw -> (departures_count t hw endt < fuel)%nat -> (length out <= n)%nat ->
  departure_loop fuel t hw endt after n out = Some (out ++ take (n - length out) (later after (timetable t hw endt))).
Proof.
  intros Hh. revert t out. induction fuel as [|fuel IH]; intros t out Hf Hn; [lia|]. cbn [departure_loop].
  destruct (Z.ltb_spec t endt) as [Ht|Ht]; [|rewrite timetable_done, filter_nil by done; by rewrite take_nil, app_nil_r].
  rewrite departures_count_step in Hf by done. rewrite timetable_step by done.
  destruct (Nat.ltb_spec (length out) n) as [Hl|Hl]; simpl; [|by replace (n - length out)%nat with 0%nat by lia; rewrite app_nil_r].
  rewrite filter_cons. destruct (Z.ltb_spec after t); simpl.
  - rewrite IH by (rewrite ?length_app; simpl; lia). rewrite decide_True by done. rewrite length_app, <- app_assoc. simpl.
    replace (n - length out)%nat with (S (n - (length out + 1))) by lia. done.
  - rewrite IH by lia. by rewrite decide_False by lia.
Qed.

(** With no headway, or one that is negative, the loop does not get past a
    departure it skips. *)
Lemma departure_loop_stuck fuel t hw endt after n out :
  hw <= 0 -> t <= after -> t < endt -> (length out < n)%nat -> departure_loop fuel t hw endt after n out = None.
Proof.
  intros Hh. revert t. induction fuel as [|fuel IH]; intros t Ha He Hn; [done|]. cbn [departure_loop].
  rewrite (proj2 (Z.ltb_lt t endt) He), (proj2 (Nat.ltb_lt _ _) Hn). simpl.
  rewrite (proj2 (Z.ltb_ge after t) Ha). simpl. apply IH; lia.
Qed.

(** ** Arrivals *)

(** A route the loop can serve: a headway of at least a minute that fits a
    [time.Duration], and fewer than ten million stops. *)
Definition sane (rt : Route) : Prop := 1 <= HeadwayMin rt <= 153722867 /\ Z.of_nat (length (StopIDs rt)) <= 10000000.

(** Every departure of a day of service, with a step to spare. *)
Definition day_fuel : nat := 1442.

Lemma duration_minutes_id m : 0 <= m <= 153722867 -> duration_minutes m = m * minute.
Proof. intros Hm. unfold duration_minutes. apply wrap_i64_id. unfold i64, two63, minute. lia. Qed.

Section Timetable.
Context `{Zone}.

Definition first_at (off : Z) (after : time) : Z := tm_at (wall after serviceStart) + off * minutesPerStop * minute.

(** The departures of a route at its stop of index [off] on the day of
    [after], and those still to come. *)
Definition day_of (rt : Route) (off : Z) (after : time) : list Z :=
  timetable (first_at off after) (HeadwayMin rt * minute) (tm_at (wall after serviceEnd)).

Definition departures (rt : Route) (off : Z) (after : time) : list Z := later (tm_at after) (day_of rt off after).

Definition arrival_of (stops : list Stop) (rt : Route) (off now t : Z) : Arrival :=
  mkArrival (RouteID rt) (RouteShortName rt) (headsign stops rt) (stop_at rt off) t (Z.quot (t - now) minute).

Lemma wall_span t : tm_at (wall t serviceEnd) - tm_at (wall t serviceStart) <= day.
Proof. destruct t as [a []]; simpl; [unfold day, minute, serviceEnd, serviceStart; lia|apply local_span]. Qed.

Lemma nextArrivalsAfter_timetable fuel stops rt off after n now :
  sane rt -> 0 <= off < Z.of_nat (length (StopIDs rt)) -> (day_fuel <= fuel)%nat ->
  nextArrivalsAfter fuel stops rt off after n now = Some (map (arrival_of stops rt off now) (take n (departures rt off after))).
Proof.
  intros [Hh Hl] Ho Hf. unfold nextArrivalsAfter, stopTime. unfold minutesPerStop in *.
  rewrite !duration_minutes_id by lia.
  rewrite departure_loop_timetable; cbn [length app]; [rewrite Nat.sub_0_r; reflexivity|unfold minute; lia| |lia].
  unfold departures_count. pose proof (wall_span after) as Hs.
  assert ((tm_at (wall after serviceEnd) - (tm_at (wall after serviceStart) + off * 4 * minute) + HeadwayMin rt * minute - 1) /
    (HeadwayMin rt * minute) < 1441) as Hd.
  { apply Z.div_lt_upper_bound; unfold day, minute in *; nia. }
  apply (Nat.lt_le_trans _ 1442); [lia|exact Hf].
Qed.

Lemma index_from_bound i l id : 0 <= i -> -1 <= index_from i l id /\ (0 <= index_from i l id -> i <= index_from i l id < i + Z.of_nat (length l)).
Proof.
  revert i. induction l as [|x l IH]; intros i Hi; simpl; [lia|]. destruct (bool_decide _); [lia|].
  destruct (IH (i + 1)) as [H1 H2]; [lia|]. split; [done|]. intros H3. specialize (H2 H3). lia.
Qed.

Lemma index_from_nth i l id : 0 <= index_from i l id -> 0 <= i -> nth (Z.to_nat (index_from i l id - i)) l "" = id.
Proof.
  revert i. induction l as [|x l IH]; intros i H0 Hi; simpl in *; [lia|]. case_bool_decide; [by rewrite Z.sub_diag|].
  destruct (index_from_bound (i + 1) l id) as [_ Hb]; [lia|]. specialize (Hb H0).
  replace (Z.to_nat (index_from (i + 1) l id - i)) with (S (Z.to_nat (index_from (i + 1) l id - (i + 1)))) by lia.
  apply IH; lia.
Qed.

Lemma stopIndex_bound rt id : 0 <= stopIndex rt id -> 0 <= stopIndex rt id < Z.of_nat (length (StopIDs rt)).
Proof. intros Hi. unfold stopIndex in *. destruct (index_from_bound 0 (StopIDs rt) id) as [_ Hb]; lia. Qed.

Lemma stop_at_index rt id : 0 <= stopIndex rt id -> stop_at rt (stopIndex rt id) = id.
Proof. intros Hi. unfold stop_at. rewrite <- (Z.sub_0_r (stopIndex rt id)). by apply index_from_nth. Qed.

(** The board of a stop: of every route that calls there, the first three
    departures later than a minute ago. *)
Definition board (stops : list Stop) (routes : list Route) (id : string) (now : time) : list Arrival :=
  flat_map (fun rt =>
    let off := stopIndex rt id in
    if off <? 0 then []
    else map (arrival_of stops rt off (tm_at now)) (take 3 (departures rt off (Add now (- minute))))) routes.

Lemma arrivals_loop_board fuel stops routes id now :
  Forall sane routes -> (day_fuel <= fuel)%nat -> arrivals_loop fuel stops id now routes = Some (board stops routes id now).
Proof.
  intros Hs Hf. induction Hs as [|rt routes Hrt _ IH]; [done|]. cbn [arrivals_loop board flat_map].
  destruct (Z.ltb_spec (stopIndex rt id) 0) as [|Hi]; [exact IH|].
  unfold nextArrivals. rewrite nextArrivalsAfter_timetable by (done || by apply stopIndex_bound). by rewrite IH.
Qed.

(** ** Journeys *)

(** The ride of a route between two of its stops on its next departure. *)
Definition leg_at (rt : Route) (i j dep : Z) : JourneyLeg :=
  let arr := dep + (j - i) * minutesPerStop * minute in
  mkLeg (RouteID rt) (RouteShortName rt) (stop_at rt i) (stop_at rt j) dep arr (Z.quot (arr - dep) minute).

Definition next_leg (rt : Route) (i j : Z) (after : time) : option JourneyLeg := leg_at rt i j <$> head (departures rt i after).

Lemma makeLeg_next fuel stops now rt i j after :
  sane rt -> 0 <= i < j -> j < Z.of_nat (length (StopIDs rt)) -> (day_fuel <= fuel)%nat ->
  makeLeg fuel stops now rt i j after = Some (next_leg rt i j after).
Proof.
  intros Hs Hij Hj Hf. unfold makeLeg, next_leg. rewrite nextArrivalsAfter_timetable by (done || lia).
  destruct (departures rt i after) as [|d l]; [done|]. simpl. unfold leg_at. destruct Hs as [_ Hs].
  rewrite duration_minutes_id by (unfold minutesPerStop; lia). reflexivity.
Qed.

(** A route that calls at [from] and later at [to], without a change. *)
Definition serves (rt : Route) (from to : string) : bool := (0 <=? stopIndex rt from) && (stopIndex rt from <? stopIndex rt to).

Definition ride (rt : Route) (from to : string) (after : time) : option JourneyLeg :=
  if serves rt from to then next_leg rt (stopIndex rt from) (stopIndex rt to) after else None.

Lemma makeLeg_ride fuel stops now rt from to after :
  sane rt -> serves rt from to = true -> (day_fuel <= fuel)%nat ->
  makeLeg fuel stops now rt (stopIndex rt from) (stopIndex rt to) after = Some (ride rt from to after).
Proof.
  intros Hs Hv Hf. unfold ride. rewrite Hv. apply andb_true_iff in Hv as [H1%Z.leb_le H2%Z.ltb_lt].
  apply makeLeg_next; [done|lia| |done]. apply stopIndex_bound. lia.
Qed.

(** The change at [x] from [a] to [b], boarding [b] after [a] arrives. *)
Definition change (a b : Route) (from to : string) (now : time) (x : string) : option (string * JourneyTransfer) :=
  if bool_decide (RouteID b = RouteID a) then None
  else
    match ride a from x (Add now (- minute)) with
    | None => None
    | Some l1 =>
        match ride b x to (mkTime (lg_arrive l1) UTC) with
        | None => None
        | Some l2 => Some (transfer_key a b x,
                           mkTransfer x [l1; l2] (lg_depart l1) (lg_arrive l2) (Z.quot (lg_arrive l2 - lg_depart l1) minute))
        end
    end.

Definition changes (routes : list Route) (from to : string) (now : time) : list (string * JourneyTransfer) :=
  flat_map (fun a => flat_map (fun b => omap (change a b from to now) (StopIDs a)) routes) routes.

(** Keep the first transfer of each key. *)
Definition absorb (st : found) (c : string * JourneyTransfer) : found :=
  if bool_decide (c.1 ∈ st.1) then st else (c.1 :: st.1, app st.2 [c.2]).

(** The journey options as comprehensions over the network. *)
Definition plan (routes : list Route) (from to : string) (now : time) : list JourneyLeg * list JourneyTransfer :=
  (order_asc lg_depart (omap (fun rt => ride rt from to (Add now (- minute))) routes),
   order_asc tf_arrive (foldl absorb ([], []) (changes routes from to now)).2).

Lemma direct_loop_rides fuel stops from to now routes :
  Forall sane routes -> (day_fuel <= fuel)%nat ->
  direct_loop fuel stops from to now routes = Some (omap (fun rt => ride rt from to (Add now (- minute))) routes).
Proof.
  intros Hs Hf. induction Hs as [|rt routes Hrt _ IH]; [done|]. cbn [direct_loop omap list_omap].
  destruct (serves rt from to) eqn:Hv.
  - assert ((stopIndex rt from <? 0) || (stopIndex rt to <? 0) || (stopIndex rt to <=? stopIndex rt from) = false) as ->.
    { apply andb_true_iff in Hv as [H1%Z.leb_le H2%Z.ltb_lt]. rewrite !orb_false_iff, !Z.ltb_ge, Z.leb_gt. lia. }
    rewrite makeLeg_ride by done. destruct (ride _ _ _ _); by rewrite IH.
  - assert ((stopIndex rt from <? 0) || (stopIndex rt to <? 0) || (stopIndex rt to <=? stopIndex rt from) = true) as ->.
    { apply andb_false_iff in Hv as [H1%Z.leb_gt|H2%Z.ltb_ge]; rewrite !orb_true_iff, !Z.ltb_lt, Z.leb_le; lia. }
    rewrite IH. unfold ride. by rewrite Hv.
Qed.

Lemma loop_over_foldl {A} (body : A -> found -> option found) (f : A -> list (string * JourneyTransfer)) (l : list A) st :
  (forall a st, a ∈ l -> body a st = Some (foldl absorb st (f a))) ->
  loop_over body l st = Some (foldl absorb st (flat_map f l)).
Proof.
  revert st. induction l as [|a l IH]; intros st Hb; simpl; [done|].
  rewrite Hb by left. rewrite foldl_app. apply IH. intros a' st' Ha'. apply Hb. by right.
Qed.

Lemma transfer_at_absorb fuel stops now a b from to x st :
  sane a -> sane b -> (day_fuel <= fuel)%nat -> 0 <= stopIndex a from -> RouteID b <> RouteID a ->
  transfer_at fuel stops now a b (stopIndex a from) (stopIndex b to) x st =
  Some (foldl absorb st (match change a b from to now x with Some c => [c] | None => [] end)).
Proof.
  intros Ha Hb Hf Hi Hne. destruct st as [seen found]. unfold transfer_at, change.
  rewrite (bool_decide_false (RouteID b = RouteID a)) by done.
  destruct (serves a from x) eqn:Hva; [destruct (serves b x to) eqn:Hvb|].
  - assert ((stopIndex a x <=? stopIndex a from) || (stopIndex b x <? 0) || (stopIndex b to <=? stopIndex b x) = false) as ->.
    { apply andb_true_iff in Hva as [_ H1%Z.ltb_lt]. apply andb_true_iff in Hvb as [H2%Z.leb_le H3%Z.ltb_lt].
      rewrite !orb_false_iff, Z.ltb_ge, !Z.leb_gt. lia. }
    rewrite makeLeg_ride by done. destruct (ride a from x _) as [l1|]; [|by case_bool_decide].
    rewrite makeLeg_ride by done. destruct (ride b x to _) as [l2|]; [|by case_bool_decide].
    simpl. unfold absorb. simpl. by case_bool_decide.
  - assert ((stopIndex a x <=? stopIndex a from) || (stopIndex b x <? 0) || (stopIndex b to <=? stopIndex b x) = true) as ->.
    { apply andb_false_iff in Hvb as [H1%Z.leb_gt|H2%Z.ltb_ge]; rewrite !orb_true_iff, Z.ltb_lt, !Z.leb_le; lia. }
    destruct (ride a from x _) as [l1|]; [|done]. unfold ride. by rewrite Hvb.
  - assert ((stopIndex a x <=? stopIndex a from) || (stopIndex b x <? 0) || (stopIndex b to <=? stopIndex b x) = true) as ->.
    { apply andb_false_iff in Hva as [H1%Z.leb_gt|H2%Z.ltb_ge]; rewrite !orb_true_iff, Z.ltb_lt, !Z.leb_le; lia. }
    unfold ride at 1. by rewrite Hva.
Qed.

Lemma flat_map_nil {A B} (f : A -> list B) (l : list A) : (forall a, a ∈ l -> f a = []) -> flat_map f l = [].
Proof.
  induction l as [|a l IH]; intros Hf; [done|]. cbn [flat_map].
  rewrite (Hf a) by (apply elem_of_cons; by left). apply IH. intros a' Ha. apply Hf, elem_of_cons. by right.
Qed.

Lemma omap_flat_map {A B} (f : A -> option B) (l : list A) : omap f l = flat_map (fun a => match f a with Some b => [b] | None => [] end) l.
Proof. induction l as [|a l IH]; simpl; [done|]. rewrite <- IH. by destruct (f a). Qed.

(** The planner computes the reference. *)
Lemma planJourney_plan fuel stops routes from to now :
  Forall sane routes -> (day_fuel <= fuel)%nat ->
  planJourney fuel stops routes from to now = Some (plan routes from to now).
Proof.
  intros Hs Hf. unfold planJourney, plan. rewrite direct_loop_rides by done.
  assert (forall a, a ∈ routes -> sane a) as Hsane by (intros a; by apply list.Forall_forall).
  rewrite (loop_over_foldl (transfers_from fuel stops routes from to now)
    (fun a => flat_map (fun b => omap (change a b from to now) (StopIDs a)) routes)); [unfold changes; by destruct (foldl _ _ _)|].
  intros a st Ha. unfold transfers_from. destruct (Z.ltb_spec (stopIndex a from) 0) as [Hn|Hi].
  { assert (flat_map (fun b => omap (change a b from to now) (StopIDs a)) routes = []) as ->; [|done].
    apply flat_map_nil. intros b _. rewrite omap_flat_map. apply flat_map_nil. intros x _. unfold change, ride, serves.
    rewrite (proj2 (Z.leb_gt _ _) Hn). by case_bool_decide. }
  apply loop_over_foldl. intros b st' Hb. case_bool_decide as Heq.
  { assert (omap (change a b from to now) (StopIDs a) = []) as ->; [|done].
    rewrite omap_flat_map. apply flat_map_nil. intros x _. unfold change. by rewrite bool_decide_true. }
  destruct (Z.ltb_spec (stopIndex b to) 0) as [Hn|Hj].
  { assert (omap (change a b from to now) (StopIDs a) = []) as ->; [|done].
    rewrite omap_flat_map. apply flat_map_nil. intros x _. unfold change. rewrite bool_decide_false by done.
    destruct (ride a from x _); [|done]. unfold ride, serves.
    assert ((0 <=? stopIndex b x) && (stopIndex b x <? stopIndex b to) = false) as ->; [|done].
    apply andb_false_iff. rewrite Z.leb_gt, Z.ltb_ge. lia. }
  rewrite omap_flat_map. apply loop_over_foldl. intros x st'' _. apply transfer_at_absorb; auto.
Qed.

Lemma absorb_sound (cs : list (string * JourneyTransfer)) st t : t ∈ (foldl absorb st cs).2 -> t ∈ st.2 \/ exists k, (k, t) ∈ cs.
Proof.
  revert st. induction cs as [|[k t'] cs IH]; intros st Ht; simpl in *; [by left|].
  destruct (IH _ Ht) as [Hin|(k' & Hin)]; [|right; exists k'; by apply elem_of_cons; right].
  unfold absorb in Hin. simpl in Hin. case_bool_decide; simpl in Hin; [by left|].
  apply elem_of_app in Hin as [Hin|Hin%list_elem_of_singleton]; [by left|subst]. right. exists k. apply elem_of_cons. by left.
Qed.

(** What a ride is: the earliest departure of the route at [from] later than
    [after] on the day of [after], and the arrival four minutes per stop on. *)
Lemma ride_spec rt from to after leg :
  sane rt -> ride rt from to after = Some leg ->
  lg_route leg = RouteID rt /\ lg_from leg = from /\ lg_to leg = to /\ serves rt from to = true /\
  tm_at after < lg_depart leg < tm_at (wall after serviceEnd) /\ lg_depart leg ∈ day_of rt (stopIndex rt from) after /\
  lg_arrive leg = lg_depart leg + (stopIndex rt to - stopIndex rt from) * minutesPerStop * minute /\ lg_depart leg < lg_arrive leg.
Proof.
  intros Hs. unfold ride. destruct (serves rt from to) eqn:Hv; [|done]. unfold next_leg.
  destruct (departures rt (stopIndex rt from) after) as [|d ds] eqn:E; [done|]. intros [= <-].
  assert (d ∈ departures rt (stopIndex rt from) after) as Hd by (rewrite E; apply elem_of_cons; by left).
  apply list_elem_of_filter in Hd as [Hlate Hd]. pose proof Hv as Hv'. apply andb_true_iff in Hv' as [H1%Z.leb_le H2%Z.ltb_lt].
  unfold leg_at; simpl. rewrite !stop_at_index by lia. split_and!; try done.
  - unfold day_of in Hd. apply elem_of_timetable in Hd as (i & _ & _ & Hlt); [done|]. destruct Hs as [Hh _]. unfold minute. lia.
  - unfold minutesPerStop, minute. nia.
Qed.

(** *** Keys *)

Definition barless (s : string) : Prop := "|"%char ∉ list_ascii_of_string s.

Lemma cut_at_bar (s s' t t' : string) : barless s -> barless s' -> s +:+ "|" +:+ t = s' +:+ "|" +:+ t' -> s = s' /\ t = t'.
Proof.
  unfold barless. revert s'. induction s as [|c s IH]; intros [|c' s'] Hs Hs' E; simpl in *.
  - by injection E.
  - injection E as <- _. exfalso. apply Hs', elem_of_cons. by left.
  - injection E as -> _. exfalso. apply Hs, elem_of_cons. by left.
  - injection E as -> E. rewrite elem_of_cons in Hs, Hs'. destruct (IH s') as [-> ->]; tauto.
Qed.

(** Route codes are unique (a column constraint) and have no bar. *)
Definition plain_codes (routes : list Route) : Prop := NoDup (RouteID <$> routes) /\ Forall (fun rt => barless (RouteID rt)) routes.

Lemma same_route routes a b : NoDup (RouteID <$> routes) -> a ∈ routes -> b ∈ routes -> RouteID a = RouteID b -> a = b.
Proof.
  induction routes as [|r routes IH]; intros Hn Ha Hb E; [by apply elem_of_nil in Ha|].
  simpl in Hn. apply list.NoDup_cons in Hn as [Hr Hn].
  apply elem_of_cons in Ha as [->|Ha], Hb as [->|Hb]; [done| | |by apply IH].
  - exfalso. apply Hr. rewrite E. by apply list_elem_of_fmap_2.
  - exfalso. apply Hr. rewrite <- E. by apply list_elem_of_fmap_2.
Qed.

Lemma transfer_key_inj routes a b x a' b' x' :
  plain_codes routes -> a ∈ routes -> b ∈ routes -> a' ∈ routes -> b' ∈ routes ->
  transfer_key a b x = transfer_key a' b' x' -> a = a' /\ b = b' /\ x = x'.
Proof.
  intros [Hn Hb] Ha1 Hb1 Ha2 Hb2 E. rewrite list.Forall_forall in Hb. unfold transfer_key in E.
  apply cut_at_bar in E as [E1 E]; [|by apply Hb..]. apply cut_at_bar in E as [E2 E]; [|by apply Hb..].
  split_and!; [by eapply same_route|by eapply same_route|done].
Qed.

Lemma elem_of_changes routes from to now k t :
  (k, t) ∈ changes routes from to now <->
  exists a b x, a ∈ routes /\ b ∈ routes /\ x ∈ StopIDs a /\ change a b from to now x = Some (k, t).
Proof.
  unfold changes. rewrite list_elem_of_In, in_flat_map. split.
  - intros (a & Ha & Hin). apply in_flat_map in Hin as (b & Hb & Hin%list_elem_of_In).
    apply list_elem_of_omap in Hin as (x & Hx & E). exists a, b, x. by rewrite !list_elem_of_In in *.
  - intros (a & b & x & Ha & Hb & Hx & E). exists a. split; [by apply list_elem_of_In|]. apply in_flat_map. exists b.
    split; [by apply list_elem_of_In|]. apply list_elem_of_In, list_elem_of_omap. eauto.
Qed.

(** *** One option per pair of routes and interchange *)

(** Absorbing keeps the first transfer of every key. *)
Lemma absorb_kept cs st : exists kept, (foldl absorb st cs).2 = app st.2 (map snd kept) /\ NoDup (map fst kept) /\
  (forall c, c ∈ kept -> c ∈ cs /\ c.1 ∉ st.1) /\ (forall c, c ∈ cs -> c.1 ∈ st.1 \/ exists t, (c.1, t) ∈ kept).
Proof.
  revert st. induction cs as [|[k t] cs IH]; intros st.
  { exists []. rewrite app_nil_r. split_and!; [done|constructor|by intros c Hc%elem_of_nil..]. }
  cbn [foldl]. unfold absorb at 2. cbn [fst snd]. case_bool_decide as Hk.
  - destruct (IH st) as (kept & E & Hn & Hin & Hall). exists kept. split_and!; [done|done| |].
    + intros c Hc. destruct (Hin c Hc). split; [by apply elem_of_cons; right|done].
    + intros c [->|Hc]%elem_of_cons; [by left|auto].
  - destruct (IH (k :: st.1, app st.2 [t])) as (kept & E & Hn & Hin & Hall). exists ((k, t) :: kept).
    cbn [fst snd map] in *. split_and!.
    + by rewrite E, <- app_assoc.
    + apply list.NoDup_cons. split; [|done]. intros (c & Ec & Hc)%list_elem_of_fmap. destruct (Hin c Hc) as [_ Hnot].
      apply Hnot, elem_of_cons. left. done.
    + intros c [->|Hc]%elem_of_cons; [split; [by apply elem_of_cons; left|done]|]. destruct (Hin c Hc) as [H1 H2].
      split; [by apply elem_of_cons; right|]. intros H3. apply H2, elem_of_cons. by right.
    + intros c [->|Hc]%elem_of_cons; [right; exists t; by apply elem_of_cons; left|].
      destruct (Hall c Hc) as [[->|?]%elem_of_cons|[t' ?]]; [right; exists t; by apply elem_of_cons; left|by left|].
      right. exists t'. by apply elem_of_cons; right.
Qed.

(** The ways to change: a pair of routes and a stop of the first, each once. *)
Definition interchanges (routes : list Route) : list (Route * Route * string) :=
  a ← routes; b ← routes; x ← remove_dups (StopIDs a); [(a, b, x)].

(** The option of a change, the second ride looked up on the wall clock of [second]. *)
Definition option_via (second : Location) (from to : string) (now : time) (c : Route * Route * string) : option JourneyTransfer :=
  let '(a, b, x) := c in
  if bool_decide (RouteID b = RouteID a) then None
  else
    l1 ← ride a from x (Add now (- minute));
    l2 ← ride b x to (mkTime (lg_arrive l1) second);
    Some (mkTransfer x [l1; l2] (lg_depart l1) (lg_arrive l2) (Z.quot (lg_arrive l2 - lg_depart l1) minute)).

Definition itineraries (second : Location) (routes : list Route) (from to : string) (now : time) : list JourneyTransfer :=
  omap (option_via second from to now) (interchanges routes).

Lemma elem_of_interchanges routes a b x :
  (a, b, x) ∈ interchanges routes <-> a ∈ routes /\ b ∈ routes /\ x ∈ StopIDs a.
Proof.
  unfold interchanges. rewrite list_elem_of_bind. split.
  - intros (a1 & (b1 & (x1 & E%list_elem_of_singleton & Hx)%list_elem_of_bind & Hb)%list_elem_of_bind & Ha). rewrite elem_of_remove_dups in Hx. injection E as -> -> ->. done.
  - intros (Ha & Hb & Hx). exists a. split; [|done]. apply list_elem_of_bind. exists b. split; [|done].
    apply list_elem_of_bind. exists x. split; [by apply list_elem_of_singleton|by apply elem_of_remove_dups].
Qed.

Lemma NoDup_omap_inj {A B} (f : A -> option B) (l : list A) :
  NoDup l -> (forall x y z, x ∈ l -> y ∈ l -> f x = Some z -> f y = Some z -> x = y) -> NoDup (omap f l).
Proof.
  induction 1 as [|a l Ha Hl IH]; intros Hinj; [constructor|]. cbn [omap list_omap].
  assert (NoDup (omap f l)) as Hr by (apply IH; intros x y z Hx Hy; apply Hinj; by apply elem_of_cons; right).
  destruct (f a) as [b|] eqn:Eb; [|done]. apply list.NoDup_cons. split; [|done].
  intros (y & Hy & Ey)%list_elem_of_omap. apply Ha.
  rewrite (Hinj a y b); [done|by apply elem_of_cons; left|by apply elem_of_cons; right|done..].
Qed.

Lemma NoDup_interchanges routes : NoDup (RouteID <$> routes) -> NoDup (interchanges routes).
Proof.
  intros Hn. assert (NoDup routes) as Hr by by eapply NoDup_fmap_1. unfold interchanges.
  apply NoDup_bind; [|intros a _; apply NoDup_bind|done].
  - intros a1 a2 c _ _ (b1 & (x1 & ->%list_elem_of_singleton & _)%list_elem_of_bind & _)%list_elem_of_bind
      (b2 & (x2 & E%list_elem_of_singleton & _)%list_elem_of_bind & _)%list_elem_of_bind. congruence.
  - intros b1 b2 c _ _ (x1 & ->%list_elem_of_singleton & _)%list_elem_of_bind (x2 & E%list_elem_of_singleton & _)%list_elem_of_bind. congruence.
  - intros b _. apply NoDup_bind; [|intros; apply NoDup_singleton|apply NoDup_remove_dups].
    intros x1 x2 c _ _ ->%list_elem_of_singleton E%list_elem_of_singleton. congruence.
  - done.
Qed.

(** [change] is the option under its key. *)
Lemma change_option a b from to now x :
  change a b from to now x = (fun t => (transfer_key a b x, t)) <$> option_via UTC from to now (a, b, x).
Proof.
  unfold change, option_via. case_bool_decide; [done|]. destruct (ride a from x _) as [l1|]; [|done]. cbn. by destruct (ride b x to _).
Qed.

Lemma absorbed_itineraries routes from to now : plain_codes routes ->
  (foldl absorb ([], []) (changes routes from to now)).2 ≡ₚ itineraries UTC routes from to now.
Proof.
  intros Hp. destruct (absorb_kept (changes routes from to now) ([], [])) as (kept & E & Hn & Hin & Hall).
  rewrite E. cbn [app fst snd].
  set (keyed := fun c : Route * Route * string => (fun t => (transfer_key c.1.1 c.1.2 c.2, t)) <$> option_via UTC from to now c).
  assert (forall c d p, c ∈ interchanges routes -> d ∈ interchanges routes -> keyed c = Some p -> keyed d = Some p -> c = d) as Hinj.
  { intros [[a b] x] [[a' b'] x'] p (Ha & Hb & _)%elem_of_interchanges (Ha' & Hb' & _)%elem_of_interchanges
      (t & _ & E1)%fmap_Some (t' & _ & E2)%fmap_Some. rewrite E1 in E2. injection E2 as Ek _.
    apply (transfer_key_inj routes) in Ek as (-> & -> & ->); done. }
  assert (itineraries UTC routes from to now = map snd (omap keyed (interchanges routes))) as ->.
  { unfold itineraries. clear Hinj. induction (interchanges routes) as [|[[a b] x] l IH]; [done|]. cbn [omap list_omap]. rewrite IH.
    assert (keyed (a, b, x) = (fun t => (transfer_key a b x, t)) <$> option_via UTC from to now (a, b, x)) as -> by done.
    by destruct (option_via _ _ _ _ _). }
  apply fmap_Permutation, NoDup_Permutation.
  - by eapply NoDup_fmap_1.
  - apply NoDup_omap_inj; [apply NoDup_interchanges, Hp|done].
  - intros [k t]. rewrite list_elem_of_omap.
    assert ((k, t) ∈ changes routes from to now <-> exists c, c ∈ interchanges routes /\ keyed c = Some (k, t)) as Hc.
    { rewrite elem_of_changes. split.
      - intros (a & b & x & Ha & Hb & Hx & Ec). exists (a, b, x). rewrite elem_of_interchanges. rewrite change_option in Ec. done.
      - intros ([[a b] x] & (Ha & Hb & Hx)%elem_of_interchanges & Ec). exists a, b, x. rewrite change_option. done. }
    rewrite <- Hc. split; [intros Hk; by apply Hin|]. intros Hk. destruct (Hall _ Hk) as [Hk'%elem_of_nil|[t' Ht']]; [done|].
    destruct (Hin _ Ht') as [Hk2 _]. cbn [fst] in *. pose proof Hk as Hk1. apply Hc in Hk as (c & Hci & Ec).
    rewrite elem_of_changes in Hk2. destruct Hk2 as (a & b & x & Ha & Hb & Hx & Ed). rewrite change_option in Ed.
    assert (c = (a, b, x)) as ->.
    { destruct c as [[a' b'] x']. apply elem_of_interchanges in Hci as (? & ? & ?). apply fmap_Some in Ec as (? & _ & Ek).
      apply fmap_Some in Ed as (? & _ & Ek'). injection Ek as -> ->. injection Ek' as Ek' _. cbn [fst snd] in Ek'.
      apply (transfer_key_inj routes) in Ek' as (-> & -> & ->); done. }
    unfold keyed in Ec. cbn [fst snd] in Ec. rewrite Ed in Ec. by injection Ec as <-.
Qed.

(** A server whose wall clock is UTC. *)
Definition zone_is_utc : Prop := forall t m, local_wall t m = t - t mod day + m * minute.

Lemma itineraries_local routes from to now : zone_is_utc -> itineraries Local routes from to now = itineraries UTC routes from to now.
Proof.
  intros Hz. unfold itineraries. induction (interchanges routes) as [|[[a b] x] l IH]; [done|]. cbn [omap list_omap]. rewrite IH.
  replace (option_via Local from to now (a, b, x)) with (option_via UTC from to now (a, b, x)); [done|].
  assert (forall rt f g t, ride rt f g (mkTime t Local) = ride rt f g (mkTime t UTC)) as Hr.
  { intros rt f g t. unfold ride, next_leg, departures, day_of, first_at. simpl. by rewrite !Hz. }
  unfold option_via. case_bool_decide; [done|]. destruct (ride a from x _) as [l1|]; [|done]. cbn. by rewrite Hr.
Qed.

(** C21: the planner finds exactly the journeys, each once.  On a network of
    routes with headways of a minute or more, whose codes are distinct and
    hold no bar, it answers.  The direct options are, up to order, the next
    ride of every route that calls at both stops in order; the transfers, also
    beside direct options, are one for every ordered pair of routes and every
    stop of the first where the ride of the first can be left for a later one
    of the second.  Both lists are in time order.  The second ride is looked up
    on the timetable of the UTC day; on a server that runs in UTC that is the
    timetable on which the first is looked up. *)
Theorem journey_options fuel stops routes from to now :
  Forall sane routes -> plain_codes routes -> (day_fuel <= fuel)%nat ->
  exists direct transfers, planJourney fuel stops routes from to now = Some (direct, transfers) /\
  direct ≡ₚ omap (fun rt => ride rt from to (Add now (- minute))) routes /\
  transfers ≡ₚ itineraries UTC routes from to now /\
  (zone_is_utc -> transfers ≡ₚ itineraries Local routes from to now) /\
  StronglySorted (fun x y => lg_depart x <= lg_depart y) direct /\ StronglySorted (fun x y => tf_arrive x <= tf_arrive y) transfers.
Proof.
  intros Hs Hp Hf. rewrite planJourney_plan by done. eexists _, _. split; [reflexivity|].
  split_and!; [apply order_asc_perm| | |apply order_asc_sorted..].
  - by rewrite order_asc_perm, absorbed_itineraries.
  - intros Hz. by rewrite order_asc_perm, absorbed_itineraries, itineraries_local.
Qed.

(** The offered changes can be caught.  Every leg leaves within the hours of
    service later than a minute ago and arrives later than it leaves, and the
    second leg of a transfer leaves later than the first arrives. *)
Theorem journeys_are_catchable fuel stops routes from to now direct transfers :
  Forall sane routes -> (day_fuel <= fuel)%nat -> planJourney fuel stops routes from to now = Some (direct, transfers) ->
  (forall leg, leg ∈ direct -> tm_at now - minute < lg_depart leg < lg_arrive leg /\ lg_from leg = from /\ lg_to leg = to) /\
  (forall t, t ∈ transfers -> exists l1 l2, tf_legs t = [l1; l2] /\ lg_from l1 = from /\ lg_to l1 = tf_stop t /\
     lg_from l2 = tf_stop t /\ lg_to l2 = to /\ lg_route l1 <> lg_route l2 /\
     tm_at now - minute < lg_depart l1 < lg_arrive l1 /\ lg_arrive l1 < lg_depart l2 < lg_arrive l2 /\
     tf_depart t = lg_depart l1 /\ tf_arrive t = lg_arrive l2).
Proof.
  intros Hs Hf. rewrite planJourney_plan by done. intros [= <- <-].
  assert (forall a, a ∈ routes -> sane a) as Hsane by (intros a; by apply list.Forall_forall). split.
  - intros leg. rewrite order_asc_perm, list_elem_of_omap. intros (rt & Hrt & Hr).
    apply ride_spec in Hr as (_ & ? & ? & _ & Hd & _ & _ & Hlt); [|by apply Hsane]. simpl in Hd. split_and!; [lia|done..].
  - intros t. rewrite order_asc_perm. intros [Ht%elem_of_nil|(k & Hk)]%absorb_sound; [done|].
    apply elem_of_changes in Hk as (a & b & x & Ha & Hb & Hx & E). unfold change in E. case_bool_decide as Hne; [done|].
    destruct (ride a from x _) as [l1|] eqn:E1; [|done]. destruct (ride b x to _) as [l2|] eqn:E2; [|done]. injection E as _ <-.
    apply ride_spec in E1 as (R1 & ? & ? & _ & D1 & _ & _ & L1); [|by apply Hsane].
    apply ride_spec in E2 as (R2 & ? & ? & _ & D2 & _ & _ & L2); [|by apply Hsane].
    simpl in *. exists l1, l2. split_and!; try done; try lia. congruence.
Qed.
End Timetable.

(** ** The network *)

Lemma network_reads {S} connected (w : World NetworkDB S) :
  exists s, (network connected w).2 = with_sched s w.
Proof.
  unfold network, loadNetwork, gbind, db_query, pop. destruct connected; simpl; [|exists (w_sched w); by destruct w].
  destruct w as [d l b n u sc ht st]; simpl. destruct sc as [|[] [|[] sc]]; simpl; try (by eexists); by case_match; eexists.
Qed.

(** The passenger API never goes blank.  Whatever the tables hold and
    whichever query fails, there are stops and routes to serve. *)
Theorem network_never_blank {S} connected (w : World NetworkDB S) :
  (network connected w).1.1 <> [] /\ (network connected w).1.2 <> [].
Proof.
  unfold network. destruct (negb connected); [done|]. unfold gbind. destruct (loadNetwork w) as [[[stops routes]|e] w']; [|done].
  destruct (bool_decide _ || bool_decide _) eqn:E; [done|]. simpl.
  apply orb_false_iff in E as [E1%bool_decide_eq_false E2%bool_decide_eq_false]. done.
Qed.

Lemma splitCSV_from_char c s cur l : ","%char ∉ s -> splitCSV_from cur (app s (c :: l)) =
  if Ascii.eqb c "," then string_of_list_ascii (app (rev cur) s) :: splitCSV_from [] l else splitCSV_from (c :: app (rev s) cur) l.
Proof.
  revert cur. induction s as [|x s IH]; intros cur Hs; cbn [app splitCSV_from rev]; [by rewrite app_nil_r|].
  apply not_elem_of_cons in Hs as [Hx Hs]. rewrite (proj2 (Ascii.eqb_neq x ",")) by congruence.
  rewrite IH by done. simpl. by rewrite <- !app_assoc.
Qed.

Lemma splitCSV_from_end s cur : ","%char ∉ s -> splitCSV_from cur s = [string_of_list_ascii (app (rev cur) s)].
Proof.
  revert cur. induction s as [|x s IH]; intros cur Hs; cbn [splitCSV_from]; [by rewrite app_nil_r|].
  apply not_elem_of_cons in Hs as [Hx Hs]. rewrite (proj2 (Ascii.eqb_neq x ",")) by congruence.
  rewrite IH by done. simpl. by rewrite <- app_assoc.
Qed.

Definition comma_free (s : string) : Prop := ","%char ∉ list_ascii_of_string s.

Lemma list_ascii_of_string_app s t : list_ascii_of_string (s +:+ t) = app (list_ascii_of_string s) (list_ascii_of_string t).
Proof. induction s as [|c s IH]; simpl; [done|]. by rewrite IH. Qed.

(** [splitCSV] undoes [string_agg]. *)
Lemma splitCSV_string_agg codes : codes <> [] -> Forall comma_free codes -> splitCSV (string_agg codes) = codes.
Proof.
  intros Hne Hc. unfold splitCSV, string_agg. induction Hc as [|c codes Hc _ IH]; [done|]. destruct codes as [|c' codes].
  - simpl. rewrite splitCSV_from_end by done. simpl. by rewrite string_of_list_ascii_of_string.
  - change (String.concat "," (c :: c' :: codes)) with (c +:+ "," +:+ String.concat "," (c' :: codes)).
    rewrite list_ascii_of_string_app. change (list_ascii_of_string ("," +:+ String.concat "," (c' :: codes)))
      with (","%char :: list_ascii_of_string (String.concat "," (c' :: codes))).
    rewrite splitCSV_from_char by done. simpl Ascii.eqb. cbv iota. rewrite IH by done. simpl.
    by rewrite string_of_list_ascii_of_string.
Qed.

(** Routes survive the query.  When stop codes are not empty and have no
    comma, a loaded route calls at exactly the codes of its stops in the order
    of their sequence numbers. *)
Theorem routes_keep_their_stops (d : NetworkDB) :
  (forall id r, nd_stops d !! id = Some r -> comma_free (sr_code r) /\ sr_code r <> "") ->
  forall id r, nd_routes d !! id = Some r ->
  StopIDs (scan_route (r, string_agg (stop_sequence d id))) = stop_sequence d id.
Proof.
  intros Hd id r _.
  assert (Forall comma_free (stop_sequence d id) /\ "" ∉ stop_sequence d id) as [Hc He].
  { split; [apply list.Forall_forall; intros c Hc|intros Hc]; unfold stop_sequence in Hc;
      apply list_elem_of_omap in Hc as (p & _ & Hp); apply fmap_Some in Hp as (row & Hrow & E);
      destruct (Hd _ _ Hrow) as [? ?]; congruence. }
  simpl. destruct (stop_sequence d id) as [|c codes] eqn:E; [done|]. rewrite bool_decide_false.
  - by apply splitCSV_string_agg.
  - intros Hs. apply He, elem_of_cons. left. destruct codes; simpl in Hs; [done|]. by destruct c.
Qed.

(** ** The handlers *)

Section Answers.
Context `{Zone} {S : Type}.
Implicit Types w : World NetworkDB S.

(** C35: the passenger queries end.  On a network whose routes have headways
    of a minute or more, the arrivals board and the planner answer, with the
    timetable's board and the planner's reference, for every fuel from one
    step per minute of a day on. *)
Theorem passenger_queries_answered connected w stops routes :
  (network connected w).1 = (stops, routes) -> Forall sane routes ->
  forall fuel, (day_fuel <= fuel)%nat ->
  (forall id s, stopByID stops id = Some s ->
     (GetArrivals fuel connected id w).1 = Some (mkResponse 200 (JObj [("stop_id", JStr id); ("generated_at", JTime (w_now w));
       ("arrivals", JList (map arrival_json (take 10 (order_asc ar_at (board stops routes id (mkTime (w_now w) Local))))))]))) /\
  (forall from to s1 s2, stopByID stops from = Some s1 -> stopByID stops to = Some s2 ->
     let '(direct, transfers) := plan routes from to (mkTime (w_now w) Local) in
     (PlanJourney fuel connected from to w).1 = Some (mkResponse 200 (JObj [("from", JStr from); ("to", JStr to);
       ("options", JList (map leg_json direct)); ("transfers", JList (map transfer_json transfers))]))).
Proof.
  intros Hn Hs fuel Hf. destruct (network_reads connected w) as (s & Hw).
  assert (network connected w = ((stops, routes), with_sched s w)) as E by (rewrite (surjective_pairing (network connected w)); congruence).
  split.
  - intros id st Hst. unfold GetArrivals, gbind. rewrite E, Hst. unfold gets. cbn [w_now with_sched].
    by rewrite arrivals_loop_board.
  - intros from to s1 s2 H1 H2. destruct (plan routes from to _) as [direct transfers] eqn:Ep.
    unfold PlanJourney, gbind. rewrite E, H1, H2. unfold gets. cbn [w_now with_sched]. by rewrite planJourney_plan, Ep.
Qed.
End Answers.

(** ** Concrete runs *)

Definition midnight : Z := 20605 * day.

Definition demo_network : World NetworkDB unit := mkWorld (mkNetworkDB ∅ ∅ ∅) tt [] (midnight + 420 * minute) 0 [] [] [].

(** A network whose only route has a headway of zero, which the column
    allows, at 07:00. *)
Definition idle_network : World NetworkDB unit :=
  mkWorld (mkNetworkDB {["s1" := mkStopRow "S1" "Depot" fzero fzero; "s2" := mkStopRow "S2" "Market" fzero fzero]}
             {["r1" := mkRouteRow "R1" "1" "Shuttle" (Some 0) true]} {[("r1", 1) := "s1"; ("r1", 2) := "s2"]})
    tt [] (midnight + 420 * minute) 0 [] [] [].

Lemma nextArrivalsAfter_stuck `{Zone} fuel stops rt off after n now :
  duration_minutes (HeadwayMin rt) <= 0 -> stopTime off after <= tm_at after -> tm_at after < tm_at (wall after serviceEnd) ->
  (0 < n)%nat -> nextArrivalsAfter fuel stops rt off after n now = None.
Proof. intros Hh H1 H2 Hn. unfold nextArrivalsAfter. rewrite departure_loop_stuck; simpl in *; (done || lia). Qed.

(** A route without headway hangs the public endpoints: whatever the fuel, the
    arrivals board and the planner do not answer. *)
Theorem zero_headway_never_answered fuel :
  (GetArrivals (H := fixed_zone 0) fuel true "S1" idle_network).1 = None /\
  (PlanJourney (H := fixed_zone 0) fuel true "S1" "S2" idle_network).1 = None.
Proof.
  assert (exists stops rt, (network true idle_network).1 = (stops, [rt]) /\ is_Some (stopByID stops "S1") /\ is_Some (stopByID stops "S2") /\
    HeadwayMin rt = 0 /\ stopIndex rt "S1" = 0 /\ stopIndex rt "S2" = 1) as (stops & rt & Hn & [s1 H1] & [s2 H2] & Hh & I1 & I2).
  { eexists _, _. split; [vm_compute; reflexivity|]. vm_compute. split_and!; eauto. }
  assert (forall n, (0 < n)%nat -> nextArrivalsAfter (H := fixed_zone 0) fuel stops rt 0
            (Add (mkTime (w_now idle_network) Local) (- minute)) n (w_now idle_network) = None) as Hstuck.
  { intros n Hlt. apply (nextArrivalsAfter_stuck (H := fixed_zone 0)); [rewrite Hh; by vm_compute|..|done]; by vm_compute. }
  destruct (network_reads true idle_network) as (s & Hw).
  assert (network true idle_network = ((stops, [rt]), with_sched s idle_network)) as E
    by (rewrite (surjective_pairing (network true idle_network)); congruence).
  split.
  - unfold GetArrivals, gbind. rewrite E, H1. unfold gets. cbn [arrivals_loop w_now with_sched]. rewrite I1. simpl Z.ltb. cbv iota.
    unfold nextArrivals. by rewrite Hstuck by lia.
  - unfold PlanJourney, gbind. rewrite E, H1, H2. unfold gets, planJourney. cbn [direct_loop w_now with_sched].
    rewrite I1, I2. simpl orb. cbv iota. unfold makeLeg. by rewrite Hstuck by lia.
Qed.

(** The clock of [JourneyLeg] in minutes of the local day, in a zone two hours
    ahead of UTC. *)
Definition local_minute (t : Z) : Z := (t - midnight) / minute + 120.

Definition planned (m : Z) : list (list Z) :=
  match planJourney (H := fixed_zone 120) day_fuel fallbackStops fallbackRoutes "S002" "S001" (mkTime (midnight + (m - 120) * minute) Local) with
  | Some (_, transfers) => map (fun t => map (fun l => local_minute (lg_depart l)) (tf_legs t)) transfers
  | None => []
  end.

(** The second leg is looked up in UTC, because the first leg's arrival is a UTC
    time: outside UTC the planner misses the 07:18 connection that the
    timetable of the same route has at that stop and offers the one at 07:38,
    and after 22:52 it offers a ride at 23:18, when service has ended. *)
Theorem second_leg_read_in_utc :
  planned 420 = [[424; 458]] /\
  lg_depart <$> ride (H := fixed_zone 120) (mkRoute "R42" "42" "" 3 20 ["S008"; "S007"; "S003"; "S001"]) "S003" "S001"
    (mkTime (midnight + (428 - 120) * minute) Local) = Some (midnight + (438 - 120) * minute) /\
  planned 1372 = [[1374; 1398]].
Proof. vm_compute. repeat split. Qed.

(** A departure of up to a minute ago is listed as an upcoming one. *)
Theorem departed_bus_listed :
  let now := midnight + 420 * minute + 30000000000 in
  ar_at <$> board (H := fixed_zone 0) fallbackStops (take 1 fallbackRoutes) "S001" (mkTime now Local) =
    [midnight + 420 * minute; midnight + 430 * minute; midnight + 440 * minute].
Proof. vm_compute. reflexivity. Qed.

(** ** Witnesses *)

Lemma fallback_sane : Forall sane fallbackRoutes.
Proof. repeat constructor; simpl; lia. Qed.

Lemma fallback_plain : plain_codes fallbackRoutes.
Proof. split; [apply (bool_decide_unpack _); by vm_compute|]. repeat constructor; unfold barless; apply (bool_decide_unpack _); by vm_compute. Qed.

Definition at_seven : time := mkTime (midnight + 420 * minute) Local.

(** A route that calls twice at the market, and the route it meets there. *)
Definition loop_routes : list Route :=
  [mkRoute "L1" "1" "Loop" 3 10 ["A"; "M"; "B"; "M"]; mkRoute "L2" "2" "Line" 3 10 ["M"; "C"]].

Lemma journey_options_witness :
  exists direct transfers, planJourney (H := fixed_zone 0) day_fuel [] loop_routes "A" "C" at_seven = Some (direct, transfers) /\
  transfers ≡ₚ itineraries (H := fixed_zone 0) Local loop_routes "A" "C" at_seven /\ direct = [] /\ map tf_stop transfers = ["M"].
Proof.
  destruct (journey_options (H := fixed_zone 0) day_fuel [] loop_routes "A" "C" at_seven) as (direct & transfers & E & _ & _ & Ht & _).
  - repeat constructor; simpl; lia.
  - split; [apply (bool_decide_unpack _); by vm_compute|]. repeat constructor; unfold barless; apply (bool_decide_unpack _); by vm_compute.
  - apply le_n.
  - exists direct, transfers. split; [exact E|]. split.
    + apply Ht. intros t m. unfold local_wall. simpl. rewrite !Z.add_0_r, Z.sub_0_r. reflexivity.
    + vm_compute in E. injection E as <- <-. split; reflexivity.
Defined.

Lemma journeys_are_catchable_witness :
  exists direct transfers, planJourney (H := fixed_zone 0) day_fuel fallbackStops fallbackRoutes "S002" "S001" at_seven = Some (direct, transfers) /\
  length transfers = 1%nat /\
  forall t, t ∈ transfers -> exists l1 l2, tf_legs t = [l1; l2] /\ lg_from l1 = "S002" /\ lg_to l1 = tf_stop t /\
     lg_from l2 = tf_stop t /\ lg_to l2 = "S001" /\ lg_route l1 <> lg_route l2 /\
     tm_at at_seven - minute < lg_depart l1 < lg_arrive l1 /\ lg_arrive l1 < lg_depart l2 < lg_arrive l2 /\
     tf_depart t = lg_depart l1 /\ tf_arrive t = lg_arrive l2.
Proof.
  destruct (planJourney (H := fixed_zone 0) day_fuel fallbackStops fallbackRoutes "S002" "S001" at_seven) as [[direct transfers]|] eqn:E;
    [|by vm_compute in E].
  exists direct, transfers. split; [done|]. split.
  - vm_compute in E. injection E as _ <-. reflexivity.
  - exact (proj2 (journeys_are_catchable (H := fixed_zone 0) day_fuel fallbackStops fallbackRoutes "S002" "S001" at_seven direct transfers
      fallback_sane (le_n _) E)).
Defined.

Lemma passenger_queries_answered_witness :
  (GetArrivals (H := fixed_zone 0) day_fuel true "S003" demo_network).1 = Some (mkResponse 200 (JObj [("stop_id", JStr "S003");
    ("generated_at", JTime (w_now demo_network)); ("arrivals", JList (map arrival_json (take 10 (order_asc ar_at
       (board (H := fixed_zone 0) fallbackStops fallbackRoutes "S003" (mkTime (w_now demo_network) Local))))))])).
Proof.
  assert ((network true demo_network).1 = (fallbackStops, fallbackRoutes)) as Hn by (vm_compute; reflexivity).
  destruct (passenger_queries_answered (H := fixed_zone 0) true demo_network fallbackStops fallbackRoutes Hn fallback_sane day_fuel (le_n _)) as [Ha _].
  apply (Ha "S003" (mkStop "S003" "City Hall" (decimal "52.5186") (decimal "13.4081"))). reflexivity.
Defined.

Definition demo_stops : NetworkDB :=
  mkNetworkDB {["s1" := mkStopRow "S001" "Central" fzero fzero; "s2" := mkStopRow "S002" "Museum" fzero fzero]}
    {["r1" := mkRouteRow "R1" "1" "Line" None true]} {[("r1", 2) := "s1"; ("r1", 1) := "s2"]}.

Lemma routes_keep_their_stops_witness :
  StopIDs (scan_route (mkRouteRow "R1" "1" "Line" None true, string_agg (stop_sequence demo_stops "r1"))) = stop_sequence demo_stops "r1" /\
  stop_sequence demo_stops "r1" = ["S002"; "S001"].
Proof.
  split; [|by vm_compute]. apply (routes_keep_their_stops demo_stops) with (id := "r1"); [|by vm_compute].
  intros id r Hr. unfold demo_stops in Hr. cbn [nd_stops] in Hr. apply lookup_insert_Some in Hr as [[_ <-]|[_ Hr]].
  - split; [|done]. unfold comma_free. apply (bool_decide_unpack _). by vm_compute.
  - apply lookup_singleton_Some in Hr as [_ <-]. split; [|done]. unfold comma_free. apply (bool_decide_unpack _). by vm_compute.
Defined.
