(* ===== verification/Gtfs.v ===== *)
(** * The GTFS feed

    Models services/go/citizen-api/internal/handlers/gtfs.go: the five CSV
    files rendered from the network that the passenger API serves, with
    [encoding/csv]'s quoting, and the endpoint that serves one of them (the
    zip archive of all five is a container of the same texts).  Shows that
    the texts parse back to the records they were written from and that the
    feed's departures are those of the arrivals board, followed by those the
    last trips make after service has ended. *)

From Stdlib Require Import Ascii String.
From S2P Require Import Prelude Codec World Float64 InfraDb Passenger PassengerTheorems.

Open Scope Z_scope.
Open Scope go_scope.

(** ** encoding/csv's Writer *)

Definition quote_char : ascii := ascii_of_nat 34.
Definition newline : ascii := ascii_of_nat 10.
Definition carriage_return : ascii := ascii_of_nat 13.

Definition special (c : ascii) : bool := bool_decide (c ∈ [","%char; quote_char; newline; carriage_return]).

Definition fieldNeedsQuotes (field : list ascii) : bool :=
  match field with
  | [] => false
  | c :: _ => bool_decide (string_of_list_ascii field = "\.") || existsb special field || is_space c
  end.

Definition quote_field (field : list ascii) : list ascii :=
  quote_char :: app (flat_map (fun c => if Ascii.eqb c quote_char then [quote_char; quote_char] else [c]) field) [quote_char].

Definition csv_field (field : string) : list ascii :=
  let l := list_ascii_of_string field in if fieldNeedsQuotes l then quote_field l else l.

Fixpoint csv_record (record : list string) : list ascii :=
  match record with
  | [] => [newline]
  | [f] => app (csv_field f) [newline]
  | f :: rest => app (csv_field f) (","%char :: csv_record rest)
  end.

Definition csv_text (records : list (list string)) : string := string_of_list_ascii (flat_map csv_record records).

(** ** The files *)

Record trip : Type := mkTrip { tp_route : string; tp_id : string; tp_headsign : string }.
Record frequency : Type := mkFrequency { fq_trip : string; fq_start : Z; fq_end : Z; fq_headway : Z }.  (* minutes; seconds *)
Record stop_time : Type := mkStopTime { sm_trip : string; sm_at : Z; sm_stop : string; sm_seq : Z }.    (* minute of the day *)

Definition trip_id (rt : Route) : string := RouteID rt +:+ "-anchor".

Definition running (routes : list Route) : list Route := filter (fun rt => StopIDs rt <> []) routes.

Definition trips (stops : list Stop) (routes : list Route) : list trip :=
  map (fun rt => mkTrip (RouteID rt) (trip_id rt) (headsign stops rt)) (running routes).

Definition frequencies (routes : list Route) : list frequency :=
  map (fun rt => mkFrequency (trip_id rt) serviceStart serviceEnd (wrap_i64 (HeadwayMin rt * 60))) (running routes).

(** [anchor.Add(i*minutesPerStop minutes)] as a time of day. *)
Definition anchor_time (i : nat) : Z := (serviceStart + Z.of_nat i * minutesPerStop) mod 1440.

Definition route_stop_times (rt : Route) : list stop_time :=
  imap (fun i id => mkStopTime (trip_id rt) (anchor_time i) id (Z.of_nat i + 1)) (StopIDs rt).

Definition stop_times (routes : list Route) : list stop_time := flat_map route_stop_times (running routes).

(** [Format("15:04:05")] of a whole minute of the day. *)
Definition hms (m : Z) : string := digits 2 (m / 60) +:+ ":" +:+ digits 2 (m mod 60) +:+ ":00".

Definition gtfs_records (stops : list Stop) (routes : list Route) : list (string * list (list string)) := [
  ("stops.txt", ["stop_id"; "stop_name"; "stop_lat"; "stop_lon"] ::
     map (fun s => [StopID s; StopName s; FormatFloat_f 6 (Lat s); FormatFloat_f 6 (Lon s)]) stops);
  ("routes.txt", ["route_id"; "route_short_name"; "route_long_name"; "route_type"] ::
     map (fun rt => [RouteID rt; RouteShortName rt; RouteLongName rt; "3"]) routes);
  ("trips.txt", ["route_id"; "service_id"; "trip_id"; "trip_headsign"] ::
     map (fun t => [tp_route t; "daily"; tp_id t; tp_headsign t]) (trips stops routes));
  ("frequencies.txt", ["trip_id"; "start_time"; "end_time"; "headway_secs"] ::
     map (fun f => [fq_trip f; hms (fq_start f); hms (fq_end f); pretty (fq_headway f)]) (frequencies routes));
  ("stop_times.txt", ["trip_id"; "arrival_time"; "departure_time"; "stop_id"; "stop_sequence"] ::
     map (fun s => [sm_trip s; hms (sm_at s); hms (sm_at s); sm_stop s; pretty (sm_seq s)]) (stop_times routes))].

Definition gtfsFiles (stops : list Stop) (routes : list Route) : list (string * string) :=
  map (fun f => (f.1, csv_text f.2)) (gtfs_records stops routes).

Definition GTFSFile {S} (connected : bool) (name : string) : M NetworkDB S response :=
  let! n := network connected in
  match List.find (fun f => bool_decide (f.1 = name)) (gtfsFiles n.1 n.2) with
  | None => reply_error 404 ("unknown GTFS file " +:+ name +:+ " (available: stops.txt, routes.txt, trips.txt, stop_times.txt, frequencies.txt)")
  | Some f => reply 200 (JStr f.2)
  end.

(** ** The texts parse back

    A reader of RFC 4180. *)

Inductive csv_mode : Type := FieldStart | Plain | Quoted | QuoteSeen.

Fixpoint csv_read (l : list ascii) (mode : csv_mode) (cur : list ascii) (rec : list string) : list (list string) :=
  match l with
  | [] => []
  | c :: l =>
      let field := string_of_list_ascii (rev cur) in
      match mode, Ascii.eqb c quote_char with
      | Quoted, true => csv_read l QuoteSeen cur rec
      | Quoted, false => csv_read l Quoted (c :: cur) rec
      | QuoteSeen, true => csv_read l Quoted (c :: cur) rec
      | FieldStart, true => csv_read l Quoted [] rec
      | _, _ =>
          if Ascii.eqb c "," then csv_read l FieldStart [] (field :: rec)
          else if Ascii.eqb c newline then rev (field :: rec) :: csv_read l FieldStart [] []
          else csv_read l Plain (c :: cur) rec
      end
  end.

Definition csv_parse (text : string) : list (list string) := csv_read (list_ascii_of_string text) FieldStart [] [].

Definition separator (c : ascii) : Prop := c = ","%char \/ c = newline.

(** What the reader does when a field ends. *)
Definition field_done (c : ascii) (field : string) (rec : list string) (l : list ascii) : list (list string) :=
  if Ascii.eqb c "," then csv_read l FieldStart [] (field :: rec) else rev (field :: rec) :: csv_read l FieldStart [] [].

Lemma special_false c : special c = false -> Ascii.eqb c quote_char = false /\ Ascii.eqb c "," = false /\ Ascii.eqb c newline = false.
Proof.
  unfold special. intros Hc%bool_decide_eq_false. rewrite !elem_of_cons in Hc. rewrite !Ascii.eqb_neq. tauto.
Qed.

Lemma read_separator c mode cur rec l :
  separator c -> mode <> Quoted -> csv_read (c :: l) mode cur rec = field_done c (string_of_list_ascii (rev cur)) rec l.
Proof. intros [-> | ->] Hm; destruct mode; try done. Qed.

Lemma read_plain f c cur rec l :
  separator c -> existsb special f = false -> csv_read (app f (c :: l)) Plain cur rec = field_done c (string_of_list_ascii (app (rev cur) f)) rec l.
Proof.
  intros Hc. revert cur. induction f as [|x f IH]; intros cur Hf; simpl in Hf.
  - cbn [app]. rewrite read_separator by done. by rewrite app_nil_r.
  - apply orb_false_iff in Hf as [Hx Hf]. destruct (special_false _ Hx) as (E1 & E2 & E3).
    cbn [app csv_read]. rewrite E2, E3, IH by done. simpl. by rewrite <- app_assoc.
Qed.

Lemma read_quoted f c cur rec l :
  separator c ->
  csv_read (app (flat_map (fun c => if Ascii.eqb c quote_char then [quote_char; quote_char] else [c]) f) (quote_char :: c :: l)) Quoted cur rec =
  field_done c (string_of_list_ascii (app (rev cur) f)) rec l.
Proof.
  intros Hc. revert cur. induction f as [|x f IH]; intros cur.
  - change (csv_read (c :: l) QuoteSeen cur rec = field_done c (string_of_list_ascii (app (rev cur) [])) rec l).
    rewrite read_separator by done. by rewrite app_nil_r.
  - cbn [flat_map]. destruct (Ascii.eqb x quote_char) eqn:E.
    + apply Ascii.eqb_eq in E as ->. etransitivity; [exact (IH (quote_char :: cur))|]. simpl. by rewrite <- app_assoc.
    + cbn [app csv_read]. rewrite E, IH. simpl. by rewrite <- app_assoc.
Qed.

Lemma read_field f c rec l : separator c -> csv_read (app (csv_field f) (c :: l)) FieldStart [] rec = field_done c f rec l.
Proof.
  intros Hc. unfold csv_field.
  assert (forall s, csv_read (app (if fieldNeedsQuotes s then quote_field s else s) (c :: l)) FieldStart [] rec =
    field_done c (string_of_list_ascii s) rec l) as Hs.
  { intros s. destruct (fieldNeedsQuotes s) eqn:Hq.
    - unfold quote_field. etransitivity; [|apply (read_quoted s c [] rec l Hc)].
      cbn [app]. rewrite <- app_assoc. reflexivity.
    - destruct s as [|x s]; [by apply (read_separator c FieldStart [])|]. unfold fieldNeedsQuotes in Hq.
      rewrite !orb_false_iff in Hq. destruct Hq as [[_ Hs] _]. simpl in Hs. apply orb_false_iff in Hs as [Hx Hf].
      destruct (special_false _ Hx) as (E1 & E2 & E3). cbn [app csv_read]. rewrite E1, E2, E3. by apply (read_plain s c [x]). }
  specialize (Hs (list_ascii_of_string f)). by rewrite string_of_list_ascii_of_string in Hs.
Qed.

Lemma read_record record rec l : record <> [] -> csv_read (app (csv_record record) l) FieldStart [] rec = app (rev rec) record :: csv_read l FieldStart [] [].
Proof.
  revert rec. induction record as [|f record IH]; intros rec Hne; [done|]. destruct record as [|g record].
  - cbn [csv_record]. rewrite <- app_assoc. cbn [app]. rewrite read_field by by right. reflexivity.
  - change (csv_record (f :: g :: record)) with (app (csv_field f) (","%char :: csv_record (g :: record))).
    rewrite <- app_assoc. cbn [app]. rewrite read_field by by left. unfold field_done. simpl Ascii.eqb. cbv iota.
    rewrite IH by done. simpl. by rewrite <- app_assoc.
Qed.

(** Every file of the feed parses back to its records, whatever quotes,
    commas and line ends the names of stops and routes contain. *)
Theorem gtfs_files_parse_back stops routes name text :
  (name, text) ∈ gtfsFiles stops routes -> exists records, (name, records) ∈ gtfs_records stops routes /\ csv_parse text = records.
Proof.
  unfold gtfsFiles. intros Hin. apply list_elem_of_In, in_map_iff in Hin as ([n records] & [= <- <-] & Hin%list_elem_of_In).
  exists records. split; [done|]. assert (Forall (fun r => r <> []) records) as Hne.
  { unfold gtfs_records in Hin. rewrite !elem_of_cons in Hin.
    destruct Hin as [[= -> ->]|[[= -> ->]|[[= -> ->]|[[= -> ->]|[[= -> ->]|Hin%elem_of_nil]]]]]; [..|done];
      (constructor; [done|]; apply list.Forall_forall; intros r Hr; apply list_elem_of_In, in_map_iff in Hr as (? & <- & _); done). }
  unfold csv_parse, csv_text. cbn [snd]. rewrite list_ascii_of_string_of_list_ascii. clear Hin.
  induction Hne as [|r records Hr _ IH]; [done|]. cbn [flat_map]. rewrite read_record by done. cbn [rev app]. by rewrite IH.
Qed.

(** ** The feed and the arrivals board *)

(** The departures a frequency-based trip has at one of its stops, in seconds
    of the day: the trip starts every headway from the start of the frequency
    to before its end, and calls at the stop the anchor trip's offset later. *)
Definition feed_departures (f : frequency) (start stop : stop_time) : list Z :=
  map (fun t => t + 60 * (sm_at stop - sm_at start)) (timetable (60 * fq_start f) (fq_headway f) (60 * fq_end f)).

(** Induction along a timetable. *)
Lemma timetable_ind (P : Z -> Prop) hw endt :
  0 < hw -> (forall t, endt <= t -> P t) -> (forall t, t < endt -> P (t + hw) -> P t) -> forall t, P t.
Proof.
  intros Hh Hdone Hstep t. remember (departures_count t hw endt) as n eqn:En. revert t En.
  induction n as [|n IH]; intros t En; (destruct (Z_lt_le_dec t endt) as [Hlt|Hle]; [|by apply Hdone]);
    rewrite departures_count_step in En by done; [done|]. apply Hstep; [done|]. apply IH. lia.
Qed.

Lemma timetable_affine a b t hw endt :
  0 < hw -> 0 < a -> map (fun d => a * d + b) (timetable t hw endt) = timetable (a * t + b) (a * hw) (a * endt + b).
Proof.
  intros Hh Ha. revert t. apply (timetable_ind _ hw endt); [done| |]; intros t Ht.
  - rewrite !timetable_done; (done || nia).
  - intros IH. rewrite (timetable_step t) by done. rewrite (timetable_step (a * t + b)) by nia. simpl. f_equal.
    rewrite IH. f_equal; lia.
Qed.

Lemma route_stop_times_lookup rt i id :
  StopIDs rt !! i = Some id -> route_stop_times rt !! i = Some (mkStopTime (trip_id rt) (anchor_time i) id (Z.of_nat i + 1)).
Proof. intros Hi. unfold route_stop_times. by rewrite list_lookup_imap, Hi. Qed.

Lemma timetable_split t hw endt endt' :
  0 < hw -> endt' <= endt ->
  exists rest, timetable t hw endt = app (timetable t hw endt') rest /\ Forall (fun d => endt' <= d < endt) rest.
Proof.
  intros Hh He. revert t. apply (timetable_ind _ hw endt); [done| |]; intros t Ht.
  - exists []. by rewrite !timetable_done by lia.
  - intros (rest & E & Hr). destruct (Z_lt_le_dec t endt') as [Hlt|Hle].
    + exists rest. by rewrite (timetable_step t hw endt), (timetable_step t hw endt'), E by done.
    + exists (timetable t hw endt). rewrite (timetable_done t hw endt') by done. split; [done|].
      rewrite (timetable_step t hw endt) by done. constructor; [done|].
      rewrite (timetable_done _ hw endt') in E by lia. cbn [app] in E. by rewrite E.
Qed.

(** No change of the clocks between midnight and the end of service: the
    wall-clock times of the day are as far apart as the clock says. *)
Definition steady_day `{Zone} (t : time) : Prop :=
  forall m, m ∈ [serviceStart; serviceEnd] -> tm_at (wall t m) = tm_at (wall t 0) + m * minute.

Lemma utc_steady `{Zone} (t : time) : tm_loc t = UTC -> steady_day t.
Proof. intros Hloc m _. unfold wall, minute. rewrite !Hloc. cbn [tm_at]. lia. Qed.

(** C36: the feed is the board's timetable.  Take a route of the network with
    a headway of a minute or more and one of its first 278 stops (whose times
    lie before midnight), on a day without a change of the clocks.  The feed
    has a frequency for the route and a time for its first stop and for this
    one on the same trip; and the departures that a reader of the feed computes
    from them are those of the arrivals board at that stop, in order, followed
    only by departures from the end of service on, of the trips then under way. *)
Theorem feed_agrees_with_board `{Zone} routes rt i id (t : time) :
  rt ∈ routes -> sane rt -> StopIDs rt !! i = Some id -> (i <= 277)%nat -> steady_day t ->
  exists f s0 s after,
    f ∈ frequencies routes /\ s0 ∈ stop_times routes /\ s ∈ stop_times routes /\
    [fq_trip f; sm_trip s0; sm_trip s] = [trip_id rt; trip_id rt; trip_id rt] /\
    [sm_seq s0; sm_seq s] = [1; Z.of_nat i + 1] /\ sm_stop s = id /\
    map (fun d => 1000000000 * d + tm_at (wall t 0)) (feed_departures f s0 s) = app (day_of rt (Z.of_nat i) t) after /\
    Forall (fun d => tm_at (wall t serviceEnd) <= d < tm_at (wall t serviceEnd) + Z.of_nat i * minutesPerStop * minute) after.
Proof.
  intros Hin [Hh Hl] Ei Hi Hday.
  destruct (StopIDs rt !! 0%nat) as [id0|] eqn:E0; [|by destruct (StopIDs rt); simplify_eq].
  assert (rt ∈ running routes) as Hrun by (apply list_elem_of_filter; split; [by intros E; rewrite E in E0|done]).
  assert (forall j x, StopIDs rt !! j = Some x ->
    mkStopTime (trip_id rt) (anchor_time j) x (Z.of_nat j + 1) ∈ stop_times routes) as Htimes.
  { intros j x Hj. apply list_elem_of_In, in_flat_map. exists rt. split; [by apply list_elem_of_In|].
    apply list_elem_of_In, list_elem_of_lookup. exists j. by apply route_stop_times_lookup. }
  destruct (timetable_split (first_at (Z.of_nat i) t) (HeadwayMin rt * minute)
    (tm_at (wall t serviceEnd) + Z.of_nat i * minutesPerStop * minute) (tm_at (wall t serviceEnd))) as (after & E & Hafter);
    [unfold minute; lia|unfold minute, minutesPerStop; lia|].
  exists (mkFrequency (trip_id rt) serviceStart serviceEnd (wrap_i64 (HeadwayMin rt * 60))),
    (mkStopTime (trip_id rt) (anchor_time 0) id0 (Z.of_nat 0 + 1)), (mkStopTime (trip_id rt) (anchor_time i) id (Z.of_nat i + 1)), after.
  split; [apply list_elem_of_In, in_map_iff; exists rt; split; [done|by apply list_elem_of_In]|]. split; [by apply Htimes|]. split; [by apply Htimes|].
  split_and!; [done..| |exact Hafter]. unfold day_of. rewrite <- E. clear E.
  pose proof (Hday serviceStart ltac:(set_solver)) as Hs. pose proof (Hday serviceEnd ltac:(set_solver)) as He.
  unfold first_at, feed_departures. rewrite He. cbn [fq_start fq_end fq_headway sm_at]. unfold anchor_time.
  rewrite wrap_i64_id by (unfold i64, two63; lia). unfold serviceStart, serviceEnd, minutesPerStop in *. rewrite !Z.mod_small by lia.
  match goal with |- map _ (map ?g _) = _ => rewrite map_map; rewrite (map_ext _ (fun d => 1000000000 * d +
    (240000000000 * Z.of_nat i + tm_at (wall t 0)))) by (intros d; lia) end.
  rewrite timetable_affine by lia. unfold minute in *. f_equal; lia.
Qed.

(** Outside the hours of the board the feed goes on: the last trips are under
    way when service ends. *)
Theorem feed_outlives_board :
  let rt := mkRoute "R10" "10" "" 3 10 ["S001"; "S002"; "S003"; "S005"] in
  let last := mkStopTime (trip_id rt) (anchor_time 3) "S005" 4 in
  let first := mkStopTime (trip_id rt) (anchor_time 0) "S001" 1 in
  List.last (feed_departures (mkFrequency (trip_id rt) serviceStart serviceEnd 600) first last) 0 = 60 * (23 * 60 + 2) /\
  List.last (day_of (H := fixed_zone 0) rt 3 (mkTime 0 UTC)) 0 = (22 * 60 + 52) * minute.
Proof. vm_compute. split; reflexivity. Qed.

(** ** Witnesses *)

Lemma gtfs_files_parse_back_witness :
  exists records text, ("stops.txt", text) ∈ gtfsFiles [mkStop "S1" (quoted "A, B") fzero fzero] fallbackRoutes /\
    ("stops.txt", records) ∈ gtfs_records [mkStop "S1" (quoted "A, B") fzero fzero] fallbackRoutes /\ csv_parse text = records.
Proof.
  destruct (gtfs_files_parse_back [mkStop "S1" (quoted "A, B") fzero fzero] fallbackRoutes "stops.txt"
    (csv_text [["stop_id"; "stop_name"; "stop_lat"; "stop_lon"]; ["S1"; quoted "A, B"; FormatFloat_f 6 fzero; FormatFloat_f 6 fzero]]))
    as (records & H1 & H2); [apply elem_of_cons; by left|].
  exists records, (csv_text [["stop_id"; "stop_name"; "stop_lat"; "stop_lon"]; ["S1"; quoted "A, B"; FormatFloat_f 6 fzero; FormatFloat_f 6 fzero]]).
  split; [apply elem_of_cons; by left|]. exact (conj H1 H2).
Defined.

Lemma feed_agrees_with_board_witness :
  exists f s0 s after,
    f ∈ frequencies fallbackRoutes /\ s0 ∈ stop_times fallbackRoutes /\ s ∈ stop_times fallbackRoutes /\
    [fq_trip f; sm_trip s0; sm_trip s] = ["R10-anchor"; "R10-anchor"; "R10-anchor"] /\
    [sm_seq s0; sm_seq s] = [1; 4] /\ sm_stop s = "S005" /\
    map (fun d => 1000000000 * d + tm_at (wall (H := fixed_zone 0) (mkTime 0 UTC) 0)) (feed_departures f s0 s) =
      app (day_of (H := fixed_zone 0) (mkRoute "R10" "10" "" 3 10 ["S001"; "S002"; "S003"; "S005"]) 3 (mkTime 0 UTC)) after /\
    Forall (fun d => tm_at (wall (H := fixed_zone 0) (mkTime 0 UTC) serviceEnd) <= d <
      tm_at (wall (H := fixed_zone 0) (mkTime 0 UTC) serviceEnd) + 3 * minutesPerStop * minute) after.
Proof.
  destruct (feed_agrees_with_board (H := fixed_zone 0) fallbackRoutes
    (nth 0 fallbackRoutes (mkRoute "" "" "" 3 1 [])) 3 "S005" (mkTime 0 UTC)) as (f & s0 & s & after & Hall);
    [apply elem_of_cons; by left|split; simpl; lia|done|lia|by apply utc_steady|].
  exists f, s0, s, after. exact Hall.
Defined.
