(* ===== verification/Drt.v ===== *)
(** * Demand-responsive transport

    Models services/go/citizen-api/internal/handlers/drt.go and the
    auto-assignment consumer internal/consumers/drt.go over
    citizen.drt_requests, fleet.vehicles, the latest telemetry positions and
    the dispatch jobs of infra-api ([Dispatch.DispatchJob]).  An assignment is
    two statements, the check of the vehicle and the update of the request;
    they are definitions of their own, so that other requests can be run
    between them.  The theorems are in [DrtTheorems.v]. *)

From S2P Require Import Prelude Codec World Float64 Auth InfraDb Dispatch.

Open Scope Z_scope.
Open Scope go_scope.

(** ** Rows and tables *)

Abbreviation point := (float64 * float64)%type.   (* latitude, longitude *)

Record DRTRequest : Type := mkDrt {
  dr_id : string; dr_user : string; dr_pickup : point; dr_dropoff : point; dr_pickup_label : string;
  dr_dropoff_label : string; dr_passengers : Z; dr_wheelchair : bool; dr_vehicle : option string;
  dr_driver : option string; dr_assigned : option Z; dr_status : string; dr_requested : Z }.

(** fleet.vehicles as far as assignment looks at it. *)
Record Vehicle : Type := mkVehicle { ve_status : string; ve_wheelchair : bool }.

Record DrtDB : Type := mkDrtDB {
  drt : gmap string DRTRequest;
  fleet : gmap string Vehicle;
  latest : gmap string point;          (* the position in the newest telemetry row of a vehicle, when it has one *)
  dispatch : gmap string DispatchJob
}.

Definition put_drt (r : DRTRequest) (d : DrtDB) : DrtDB := mkDrtDB (<[dr_id r := r]> (drt d)) (fleet d) (latest d) (dispatch d).

Definition with_drt_status (st : string) (r : DRTRequest) : DRTRequest :=
  mkDrt (dr_id r) (dr_user r) (dr_pickup r) (dr_dropoff r) (dr_pickup_label r) (dr_dropoff_label r) (dr_passengers r)
    (dr_wheelchair r) (dr_vehicle r) (dr_driver r) (dr_assigned r) st (dr_requested r).

Definition with_assignment (vehicle : string) (driver : option string) (now : Z) (r : DRTRequest) : DRTRequest :=
  mkDrt (dr_id r) (dr_user r) (dr_pickup r) (dr_dropoff r) (dr_pickup_label r) (dr_dropoff_label r) (dr_passengers r)
    (dr_wheelchair r) (Some vehicle) driver (Some now) "assigned" (dr_requested r).

Abbreviation drt_stmt A := (DrtDB -> result (A * (DrtDB -> DrtDB))).

(** PostGIS: the distance between two positions, by its place in the order of
    the double precision values. *)
Class PostGis : Type := { st_distance : point -> point -> Z }.

Definition jopt (k : string) (o : option json) : list (string * json) := match o with Some j => [(k, j)] | None => [] end.

Definition nonempty (s : string) : option json := if bool_decide (s = "") then None else Some (JStr s).

Definition drt_json (r : DRTRequest) : json :=
  JObj ([("id", JStr (dr_id r)); ("user_sub", JStr (dr_user r));
         ("pickup_lat", JFloat (dr_pickup r).1); ("pickup_lon", JFloat (dr_pickup r).2);
         ("dropoff_lat", JFloat (dr_dropoff r).1); ("dropoff_lon", JFloat (dr_dropoff r).2)] ++
        jopt "pickup_label" (nonempty (dr_pickup_label r)) ++ jopt "dropoff_label" (nonempty (dr_dropoff_label r)) ++
        [("passengers", JInt (dr_passengers r)); ("requires_wheelchair", JBool (dr_wheelchair r))] ++
        jopt "vehicle_id" (JStr <$> dr_vehicle r) ++ jopt "driver_sub" (JStr <$> dr_driver r) ++ jopt "assigned_at" (JTime <$> dr_assigned r) ++
        [("status", JStr (dr_status r)); ("requested_at", JTime (dr_requested r))]).

Section Statements.
Context `{PgServer}.

Definition drt_by_id (id : string) (d : DrtDB) : result DRTRequest :=
  match uuid_in id with
  | Err e => Err e
  | Ok id => match drt d !! id with Some r => Ok r | None => Err ErrNoRows end
  end.

(** [UPDATE ... SET status WHERE id = $1 AND p RETURNING]. *)
Definition move_drt (id : string) (p : string -> bool) (st : string) : drt_stmt DRTRequest := fun d =>
  match drt_by_id id d with
  | Err e => Err e
  | Ok r => if p (dr_status r) then Ok (with_drt_status st r, put_drt (with_drt_status st r)) else Err ErrNoRows
  end.

(** [dispatchBusyWindowMinutes], in milliseconds. *)
Definition busy_window : Z := 30 * 60000.

(** An active dispatch job that runs now or starts within the window. *)
Definition job_blocks (vehicle : string) (now : Z) (j : DispatchJob) : bool :=
  holds (tri_and (tri_eq (dj_vehicle j) (Some vehicle))
        (tri_and (Some (active (dj_status j)))
        (tri_and (tri_or (is_null (dj_starts j)) (tri_lt (dj_starts j) (Some (now + busy_window))))
                 (tri_or (is_null (dj_ends j)) (tri_lt (Some now) (dj_ends j)))))).

Definition dispatch_busy (vehicle : string) (now : Z) (d : DrtDB) : bool :=
  match find_row (job_blocks vehicle now) (dispatch d) with Some _ => true | None => false end.

(** The CASE of [validateAssignVehicle]. *)
Definition assign_reason (request vehicle : string) (now : Z) (d : DrtDB) : result string :=
  match uuid_in request, uuid_in vehicle with
  | Err e, _ | _, Err e => Err e
  | Ok request, Ok vehicle =>
      Ok (match drt d !! request, fleet d !! vehicle with
          | None, _ => "no_request"
          | _, None => "no_vehicle"
          | Some r, Some v =>
              if dr_wheelchair r && negb (ve_wheelchair v) then "wheelchair"
              else if dispatch_busy vehicle now d then "dispatch" else ""
          end)
  end.

(** The update of [AssignDRT], with its number of rows. *)
Definition assign_stmt (request vehicle : string) (driver : option string) (now : Z) : drt_stmt Z := fun d =>
  match uuid_in request, uuid_in vehicle with
  | Err e, _ | _, Err e => Err e
  | Ok request, Ok vehicle =>
      match drt d !! request with
      | Some r =>
          if bool_decide (dr_status r = "requested") then
            match fleet d !! vehicle with
            | Some _ => Ok (1, put_drt (with_assignment vehicle driver now r))
            | None => Err (PgError foreign_key_violation)
            end
          else Ok (0, fun d => d)
      | None => Ok (0, fun d => d)
      end
  end.
End Statements.

(** ** The handlers *)

Record latLon : Type := mkLatLon { ll_lat : float64; ll_lon : float64 }.

Record createDRTRequest : Type := mkCreateDrt {
  cd_pickup : latLon; cd_dropoff : latLon; cd_pickup_label : string; cd_dropoff_label : string; cd_passengers : Z; cd_wheelchair : bool }.

Definition is_zero (f : float64) : bool := match f with SpecFloat.S754_zero _ => true | _ => false end.

(** The error values of drt.go. *)
Definition ErrDRTNotAssignable : error := ErrMsg "drt request not assignable".
Definition ErrDRTVehicleBusy : error := ErrMsg "vehicle has an overlapping active dispatch job".
Definition ErrDRTWheelchairMismatch : error := ErrMsg "request requires a wheelchair-accessible vehicle".
Definition ErrDRTUnknownVehicle : error := ErrMsg "vehicle_id does not reference a known vehicle".

Section Handlers.
Context `{Runtime} `{PgServer} {S : Type}.

Abbreviation CM := (M DrtDB S).

(** [requireDB]: without a database every endpoint answers 503. *)
Definition requireDB {D} (connected : bool) (k : M D S response) : M D S response :=
  if connected then k else reply_error 503 "database not configured (DATABASE_URL unset)".

Definition requested_event (r : DRTRequest) : list (string * json) :=
  [("request_id", JStr (dr_id r)); ("user_sub", JStr (dr_user r));
   ("pickup", JObj [("lat", JFloat (dr_pickup r).1); ("lon", JFloat (dr_pickup r).2)]);
   ("dropoff", JObj [("lat", JFloat (dr_dropoff r).1); ("lon", JFloat (dr_dropoff r).2)]);
   ("requested_at", JTime (dr_requested r))].

(** The insert: id and time of the database; the generated id is new. *)
Definition insert_drt (r : DRTRequest) : drt_stmt DRTRequest := fun d =>
  match drt d !! dr_id r with
  | Some _ => Err (PgError unique_violation)
  | None => Ok (r, put_drt r)
  end.

Definition create_drt (ctx : claims) (req : option createDRTRequest) : CM response :=
  match req with
  | None => reply_error 400 "invalid JSON body"
  | Some b =>
      if is_zero (ll_lat (cd_pickup b)) && is_zero (ll_lon (cd_pickup b)) then reply_error 400 "pickup {lat,lon} is required"
      else if (cd_passengers b <? 0) || (20 <? cd_passengers b) then reply_error 400 "passengers must be between 1 and 20"
      else
        let passengers := if cd_passengers b =? 0 then 1 else cd_passengers b in
        let sub := Subject ctx in
        if bool_decide (sub = "") then reply_error 401 "authenticated subject required"
        else
          let! id := new_uuid in
          let! now := gets w_now in
          try! r := db_exec (insert_drt (mkDrt id sub (ll_lat (cd_pickup b), ll_lon (cd_pickup b))
                               (ll_lat (cd_dropoff b), ll_lon (cd_dropoff b)) (cd_pickup_label b) (cd_dropoff_label b)
                               passengers (cd_wheelchair b) None None None "requested" now))
          catch e => infra_internal "create drt request" e in
          do! publish "drt.requested" (requested_event r) in
          reply 201 (drt_json r)
  end.

Definition CreateDRTRequest (connected : bool) (ctx : claims) (req : option createDRTRequest) : CM response :=
  requireDB connected (create_drt ctx req).

Definition ListDRTRequests (connected : bool) (ctx : claims) (user_sub : string) : CM response :=
  requireDB connected (
    let userSub := if bool_decide (user_sub = "") || negb (hasRole ctx "operator") then Subject ctx else user_sub in
    if bool_decide (userSub = "") then reply_error 400 "user_sub required"
    else
      try! rs := db_query (fun d => Ok (take 100 (order_asc (fun r => - dr_requested r) (filter (fun r => dr_user r = userSub) (rows (drt d))))))
      catch e => infra_internal "list drt requests" e in
      reply 200 (JObj [("requests", JList (map drt_json rs))])).

(** The caller created the request, or is operator or platform-admin. *)
Definition may_see (ctx : claims) (r : DRTRequest) : bool := bool_decide (dr_user r = Subject ctx) || staff ctx.

Definition cancellable (st : string) : bool := bool_decide (st ∈ ["requested"; "assigned"]).

(** [CancelDRTRequest] from the read of the request on. *)
Definition cancel_drt (id : string) : CM response :=
  try! r := db_exec (move_drt id cancellable "cancelled") catch e => infra_internal "cancel drt request" e in
  reply 200 (drt_json r).

Definition CancelDRTRequest (connected : bool) (ctx : claims) (id : string) : CM response :=
  requireDB connected (
    let! r := db_query (drt_by_id id) in
    match r with
    | Err ErrNoRows => reply_error 404 "request not found"
    | Err e => infra_internal "load drt request" e
    | Ok r =>
        if negb (may_see ctx r) then reply_error 404 "request not found"
        else if negb (cancellable (dr_status r)) then reply_error 409 ("request cannot be cancelled in status " +:+ dr_status r)
        else cancel_drt id
    end).

Definition GetDRTRequest (connected : bool) (ctx : claims) (id : string) : CM response :=
  requireDB connected (
    let! r := db_query (drt_by_id id) in
    match r with
    | Err ErrNoRows => reply_error 404 "request not found"
    | Err e => infra_internal "get drt request" e
    | Ok r => if negb (may_see ctx r) then reply_error 404 "request not found" else reply 200 (drt_json r)
    end).

Definition validateAssignVehicle (request vehicle : string) : CM (result unit) :=
  let! now := gets w_now in
  try! reason := db_query (assign_reason request vehicle now) catch e => gret (Err e) in
  gret (if bool_decide (reason = "no_request") then Err ErrDRTNotAssignable
        else if bool_decide (reason = "no_vehicle") then Err ErrDRTUnknownVehicle
        else if bool_decide (reason = "wheelchair") then Err ErrDRTWheelchairMismatch
        else if bool_decide (reason = "dispatch") then Err ErrDRTVehicleBusy
        else Ok tt).

(** [AssignDRT] after the check. *)
Definition assign_update (request vehicle driver : string) : CM (result unit) :=
  let! now := gets w_now in
  try! n := db_exec (assign_stmt request vehicle (if bool_decide (driver = "") then None else Some driver) now) catch e => gret (Err e) in
  gret (if n =? 0 then Err ErrDRTNotAssignable else Ok tt).

Definition AssignDRT (request vehicle driver : string) : CM (result unit) :=
  try! _ := validateAssignVehicle request vehicle catch e => gret (Err e) in
  assign_update request vehicle driver.

(** [AssignDRTRequest] after the assignment: reload and announce. *)
Definition announce_assigned (id : string) : CM response :=
  try! r := db_query (drt_by_id id) catch e => infra_internal "reload drt request" e in
  let! now := gets w_now in
  do! publish "drt.assigned" [("request_id", JStr (dr_id r)); ("user_sub", JStr (dr_user r)); ("vehicle_id", jopt_str (dr_vehicle r));
                              ("driver_sub", jopt_str (dr_driver r)); ("assigned_at", JTime now)] in
  reply 200 (drt_json r).

(** The answer to a failed assignment. *)
Definition assign_failed (e : error) : CM response :=
  if bool_decide (e = ErrDRTNotAssignable) then reply_error 409 "request not found or not in requested status"
  else if bool_decide (e = ErrDRTWheelchairMismatch) then reply_error 422 "request requires a wheelchair-accessible vehicle"
  else if bool_decide (e = ErrDRTVehicleBusy) then reply_error 409 "vehicle has an overlapping active dispatch job"
  else if bool_decide (e = ErrDRTUnknownVehicle) || bool_decide (e = PgError foreign_key_violation)
  then reply_error 422 "vehicle_id does not reference a known vehicle"
  else infra_internal "assign drt request" e.

(** [None] is a body that does not decode; otherwise vehicle and driver. *)
Definition AssignDRTRequest (connected : bool) (id : string) (req : option (string * string)) : CM response :=
  requireDB connected (
    match req with
    | None => reply_error 400 ("body must include " +:+ quoted "vehicle_id")
    | Some (vehicle, driver) =>
        if bool_decide (vehicle = "") then reply_error 400 ("body must include " +:+ quoted "vehicle_id")
        else
          try! _ := AssignDRT id vehicle driver catch e => assign_failed e in
          announce_assigned id
    end).

Definition progress_drt (id from to : string) : CM response :=
  let! r := db_exec (move_drt id (fun st => bool_decide (st = from)) to) in
  match r with
  | Err ErrNoRows => reply_error 409 ("request not found or not in " +:+ from +:+ " status")
  | Err e => infra_internal "progress drt request" e
  | Ok r => reply 200 (drt_json r)
  end.

Definition ProgressDRTRequest (connected : bool) (path id : string) : CM response :=
  requireDB connected (
    if HasSuffix path "/start" then progress_drt id "assigned" "enroute"
    else if HasSuffix path "/complete" then progress_drt id "enroute" "completed"
    else reply_error 404 "unknown DRT progression").

(** ** Automatic assignment *)

Record DRTRequested : Type := mkRequested { rd_request : string; rd_user : string; rd_lat : float64; rd_lon : float64 }.

(** Vehicles [PickVehicle] may take. *)
Definition available (wheelchair : bool) (now : Z) (d : DrtDB) (p : string * Vehicle) : Prop :=
  ve_status p.2 = "active" /\ (wheelchair = true -> ve_wheelchair p.2 = true) /\
  find_row (fun r => bool_decide (dr_vehicle r = Some p.1) && bool_decide (dr_status r ∈ ["assigned"; "enroute"])) (drt d) = None /\
  dispatch_busy p.1 now d = false.

#[global] Instance available_dec wheelchair now d p : Decision (available wheelchair now d p).
Proof. unfold available. apply _. Defined.

(** [ORDER BY distance NULLS LAST LIMIT 1]. *)
Definition nearest `{PostGis} (at_ : point) (d : DrtDB) (vs : list string) : option string :=
  let distance v := st_distance at_ <$> latest d !! v in
  head (app (map fst (order_asc snd (omap (fun v => pair v <$> distance v) vs)))
            (filter (fun v => distance v = None) vs)).

Definition pick_vehicle `{PostGis} (lat lon : float64) (wheelchair : bool) (now : Z) (d : DrtDB) : result string :=
  match nearest (lat, lon) d (map fst (filter (available wheelchair now d) (map_to_list (fleet d)))) with
  | Some v => Ok v
  | None => Err ErrNoRows
  end.

Definition PickVehicle `{PostGis} (lat lon : float64) (wheelchair : bool) : CM (result string) :=
  let! now := gets w_now in db_query (pick_vehicle lat lon wheelchair now).

Definition auto_event (e : DRTRequested) (vehicle : string) (now : Z) : list (string * json) :=
  [("request_id", JStr (rd_request e)); ("user_sub", JStr (rd_user e)); ("vehicle_id", JStr vehicle); ("assigned_at", JTime now); ("auto", JBool true)].

(** [AutoAssign] from the assignment on. *)
Definition auto_finish (e : DRTRequested) (vehicle : string) : CM (result unit) :=
  let! a := AssignDRT (rd_request e) vehicle "" in
  match a with
  | Err err =>
      gret (if bool_decide (err = ErrDRTNotAssignable) || bool_decide (err = ErrDRTVehicleBusy) || bool_decide (err = ErrDRTWheelchairMismatch)
            then Ok tt else Err err)
  | Ok _ =>
      let! now := gets w_now in
      do! publish "drt.assigned" (auto_event e vehicle now) in
      gret (Ok tt)
  end.

Definition AutoAssign `{PostGis} (e : DRTRequested) : CM (result unit) :=
  if bool_decide (rd_request e = "") then gret (Err (ErrMsg "drt.requested payload missing request_id"))
  else
    let! r := db_query (drt_by_id (rd_request e)) in
    match r with
    | Err ErrNoRows => gret (Ok tt)
    | Err err => gret (Err err)
    | Ok r =>
        let! v := PickVehicle (rd_lat e) (rd_lon e) (dr_wheelchair r) in
        match v with
        | Err ErrNoRows => gret (Ok tt)
        | Err err => gret (Err err)
        | Ok vehicle => auto_finish e vehicle
        end
    end.
End Handlers.

(** ** The consumer of drt.requested; the group's offset is the second state *)

Inductive drt_record : Type := DrtMalformed | DrtBadPayload | DrtRequested (e : DRTRequested).

Section Consumer.
Context `{Runtime} `{PgServer} `{PostGis}.

(** [commit]: the record's offset; a failure is logged. *)
Definition commit_drt (n : nat) : M DrtDB nat unit := do! led_call (fun _ => (Ok tt, S n)) in gret tt.

Definition consume_drt (n : nat) (r : drt_record) : M DrtDB nat unit :=
  match r with
  | DrtMalformed | DrtBadPayload => commit_drt n
  | DrtRequested e =>
      let! res := AutoAssign e in
      match res with Err _ => gret tt | Ok _ => commit_drt n end
  end.

(** [EachRecord] over one fetch. *)
Fixpoint consume_drts (n : nat) (rs : list drt_record) : M DrtDB nat unit :=
  match rs with
  | [] => gret tt
  | r :: rs => do! consume_drt n r in consume_drts (S n) rs
  end.
End Consumer.
