(* ===== verification/DrtTheorems.v ===== *)
(** * Demand-responsive transport: theorems

    The life of a ride and its vehicle over every interleaving of the
    requests' statements, the check of a vehicle, who sees a request, and what
    automatic assignment achieves; then concrete runs of the races. *)

From S2P Require Import Prelude Codec World Float64 Auth InfraDb Dispatch Drt.

Open Scope Z_scope.
Open Scope go_scope.

(** ** The life of a ride *)

(** requested, assigned, enroute, completed, with cancellation before the ride. *)
Definition later_statuses : list (string * string) := [
  ("requested", "assigned"); ("requested", "enroute"); ("requested", "completed"); ("requested", "cancelled");
  ("assigned", "enroute"); ("assigned", "completed"); ("assigned", "cancelled"); ("enroute", "completed")].

Definition onward (s s' : string) : Prop := s = s' \/ (s, s') ∈ later_statuses.

#[global] Instance onward_dec s s' : Decision (onward s s').
Proof. unfold onward. apply _. Defined.

Lemma onward_trans s1 s2 s3 : onward s1 s2 -> onward s2 s3 -> onward s1 s3.
Proof.
  intros [-> |H1]; [done|]. intros [<- |H2]; [by right|].
  right. unfold later_statuses in *. rewrite !elem_of_cons, elem_of_nil in H1, H2. rewrite !elem_of_cons. naive_solver.
Qed.

Lemma onward_left s s' : onward s s' -> s <> "requested" -> s' <> "requested".
Proof. intros [-> |H1]; [done|]. unfold later_statuses in H1. rewrite !elem_of_cons, elem_of_nil in H1. naive_solver. Qed.

(** What never changes, and what changes only at the assignment. *)
Definition ride_identity (r : DRTRequest) :=
  (dr_id r, dr_user r, dr_pickup r, dr_dropoff r, dr_passengers r, dr_wheelchair r, dr_requested r).

Definition ride_service (r : DRTRequest) := (dr_vehicle r, dr_driver r, dr_assigned r).

Record ride_le (r r' : DRTRequest) : Prop := mkRideLe {
  rl_identity : ride_identity r' = ride_identity r;
  rl_onward : onward (dr_status r) (dr_status r');
  rl_service : dr_status r <> "requested" -> ride_service r' = ride_service r }.

#[global] Instance ride_le_preorder : PreOrder ride_le.
Proof.
  split; [intros r; split; [done|by left|done]|]. intros a b c [I1 O1 S1] [I2 O2 S2]. split; [congruence|by eapply onward_trans|].
  intros Ha. rewrite S2 by (by eapply onward_left). by apply S1.
Qed.

Definition ride_statuses : list string := ["requested"; "assigned"; "enroute"; "completed"; "cancelled"].
Definition served (st : string) : Prop := st ∈ ["assigned"; "enroute"; "completed"].

(** A request is well formed in a fleet: once it has a vehicle the vehicle
    exists, and is accessible if the rider needs it. *)
Record ride_ok (vs : gmap string Vehicle) (r : DRTRequest) : Prop := mkRideOk {
  rk_status : dr_status r ∈ ride_statuses;
  rk_user : dr_user r <> "";
  rk_passengers : 1 <= dr_passengers r <= 20;
  rk_unserved : dr_status r = "requested" -> ride_service r = (None, None, None);
  rk_served : served (dr_status r) -> is_Some (dr_vehicle r);
  rk_vehicle v : dr_vehicle r = Some v ->
    is_Some (dr_assigned r) /\ exists x, vs !! v = Some x /\ (dr_wheelchair r = true -> ve_wheelchair x = true) }.

Definition rides_ok (d : DrtDB) : Prop := forall id r, drt d !! id = Some r -> dr_id r = id /\ ride_ok (fleet d) r.

(** Vehicles persist and stay as accessible as they were. *)
Definition fleet_le (vs vs' : gmap string Vehicle) : Prop :=
  forall v x, vs !! v = Some x -> exists x', vs' !! v = Some x' /\ ve_wheelchair x' = ve_wheelchair x.

Lemma ride_ok_fleet vs vs' r : fleet_le vs vs' -> ride_ok vs r -> ride_ok vs' r.
Proof.
  intros Hv [? ? ? ? ? Hveh]. split; try done. intros v E. destruct (Hveh v E) as (? & x & Hx & Hw). split; [done|].
  destruct (Hv v x Hx) as (x' & Hx' & E'). exists x'. split; [done|]. by rewrite E'.
Qed.

(** The rides live on; the other tables of a request handler are as before. *)
Definition rides_le (d d' : DrtDB) : Prop := forall id r, drt d !! id = Some r -> exists r', drt d' !! id = Some r' /\ ride_le r r'.

Definition advances (d d' : DrtDB) : Prop :=
  rides_ok d -> rides_ok d' /\ rides_le d d' /\ fleet d' = fleet d /\ latest d' = latest d /\ dispatch d' = dispatch d.

Lemma rides_le_trans d1 d2 d3 : rides_le d1 d2 -> rides_le d2 d3 -> rides_le d1 d3.
Proof. intros H1 H2 id r Hr. destruct (H1 id r Hr) as (r2 & H & L). destruct (H2 id r2 H) as (r3 & ? & ?). exists r3. split; [done|]. by etrans. Qed.

Lemma rides_le_refl d : rides_le d d.
Proof. intros id r Hr. exists r. split; [done|]. reflexivity. Qed.

#[global] Instance advances_preorder : PreOrder advances.
Proof.
  split; [intros d Hd; split_and!; auto using rides_le_refl|]. intros a b c H1 H2 Ha. destruct (H1 Ha) as (Hb & L1 & ? & ? & ?).
  destruct (H2 Hb) as (Hc & L2 & ? & ? & ?). split_and!; try congruence; eauto using rides_le_trans.
Qed.

Definition advances_view {S} (l l' : left_behind DrtDB S) : Prop := advances (lf_db l) (lf_db l').

#[global] Instance advances_view_preorder {S} : PreOrder (@advances_view S).
Proof. split; [intros l; unfold advances_view; reflexivity|]. intros a b c. unfold advances_view. by apply transitivity. Qed.

(** *** Statements *)

Lemma put_advances d id r r' : drt d !! id = Some r -> ride_le r r' -> ride_ok (fleet d) r' -> advances d (put_drt r' d).
Proof.
  intros Hr Hle Hok Hd. destruct (Hd id r Hr) as [Eid _]. assert (dr_id r' = id) as Eid' by (pose proof (rl_identity _ _ Hle) as E; injection E; congruence).
  split_and!; try done.
  - intros k x Hx. simpl in Hx. apply lookup_insert_Some in Hx as [[<- <-]|[Hne Hx]]; [done|by apply Hd].
  - intros k x Hx. simpl. rewrite Eid'. destruct (decide (id = k)) as [<-|Hne].
    + exists r'. rewrite lookup_insert_eq. split; [done|]. congruence.
    + exists x. rewrite lookup_insert_ne by done. split; [done|]. reflexivity.
Qed.

Section Rides.
Context `{Runtime} `{PgServer}.

Lemma drt_by_id_Some id d r : drt_by_id id d = Ok r -> exists k, uuid_in id = Ok k /\ drt d !! k = Some r.
Proof. unfold drt_by_id. destruct (uuid_in id) as [k|]; [|done]. destruct (drt d !! k) eqn:E; [|done]. intros [= <-]. eauto. Qed.

Lemma insert_drt_advances r d a g :
  insert_drt r d = Ok (a, g) -> ride_ok (fleet d) r -> advances d (g d).
Proof.
  unfold insert_drt. destruct (drt d !! dr_id r) eqn:E; [done|]. intros [= <- <-] Hok Hd. split_and!; try done.
  - intros k x Hx. simpl in Hx. apply lookup_insert_Some in Hx as [[<- <-]|[_ Hx]]; [done|by apply Hd].
  - intros k x Hx. simpl. exists x. rewrite lookup_insert_ne by congruence. split; [done|]. reflexivity.
Qed.

(** The moves the handlers make with [move_drt]. *)
Definition moves : list (string * string) :=
  [("requested", "cancelled"); ("assigned", "cancelled"); ("assigned", "enroute"); ("enroute", "completed")].

Lemma move_ok vs r st : ride_ok vs r -> (dr_status r, st) ∈ moves -> ride_ok vs (with_drt_status st r) /\ ride_le r (with_drt_status st r).
Proof.
  intros [? ? ? H1 H2 H3] Hm.
  assert (onward (dr_status r) st /\ st ∈ ride_statuses /\ st <> "requested" /\ (served st -> served (dr_status r))) as (Ho & Hs & Hr & Hv).
  { unfold moves in Hm. rewrite !elem_of_cons, elem_of_nil in Hm.
    destruct Hm as [[= -> ->]|[[= -> ->]|[[= -> ->]|[[= -> ->]|[]]]]]; (split_and!; [by apply (bool_decide_unpack _)|by apply (bool_decide_unpack _)|done|]);
      unfold served; rewrite !elem_of_cons, elem_of_nil; naive_solver. }
  split; split; simpl; try done; auto.
Qed.

Lemma move_advances id p st d a g :
  (forall s, p s = true -> (s, st) ∈ moves) -> move_drt id p st d = Ok (a, g) -> advances d (g d).
Proof.
  intros Hp. unfold move_drt. destruct (drt_by_id id d) as [r|] eqn:E; [|done]. destruct (p (dr_status r)) eqn:Ep; [|done].
  intros [= <- <-] Hd. apply drt_by_id_Some in E as (k & _ & Hr). destruct (Hd k r Hr) as [_ Hok].
  destruct (move_ok _ _ _ Hok (Hp _ Ep)) as [Hok' Hle]. by apply (put_advances d k r).
Qed.

(** What the check of a vehicle establishes and the update relies on. *)
Definition eligible (d : DrtDB) (request vehicle : string) : Prop :=
  forall q v, uuid_in request = Ok q -> uuid_in vehicle = Ok v ->
  exists r x, drt d !! q = Some r /\ fleet d !! v = Some x /\ (dr_wheelchair r = true -> ve_wheelchair x = true).

Lemma assign_advances request vehicle driver now d a g :
  eligible d request vehicle -> assign_stmt request vehicle driver now d = Ok (a, g) -> advances d (g d).
Proof.
  intros He. unfold assign_stmt. destruct (uuid_in request) as [q|] eqn:Eq; [|done]. destruct (uuid_in vehicle) as [v|] eqn:Ev; [|done].
  destruct (He q v) as (r & x & Hr & Hx & Hw); [done..|]. rewrite Hr, Hx. case_bool_decide as Hst; intros [= _ <-]; [|reflexivity].
  intros Hd. destruct (Hd q r Hr) as [_ [? ? ? _ _ _]]. apply (put_advances d q r); [done| | |done].
  - split; [done| |done]. rewrite Hst. by apply (bool_decide_unpack (onward "requested" "assigned")).
  - split; simpl; try done; [by apply (bool_decide_unpack _)|].
    intros v' [= <-]. split; [by eexists|]. by exists x.
Qed.

(** *** Handlers *)

Section Handlers.
Context {S : Type}.
Implicit Types w : World DrtDB S.

Lemma create_advances connected ctx req : keeps (@advances_view S) (CreateDRTRequest connected ctx req).
Proof.
  unfold CreateDRTRequest, requireDB. destruct connected; [|keep_step]. unfold create_drt. destruct req as [b|]; [|keep_step].
  destruct (_ && _); [keep_step|]. destruct ((cd_passengers b <? 0) || (20 <? cd_passengers b)) eqn:Hp; [keep_step|].
  case_bool_decide as Hu; [keep_step|]. repeat keep_step.
  unfold advances_view. cbn [lf_db]. eapply insert_drt_advances; [eassumption|]. apply orb_false_iff in Hp as [Hp1%Z.ltb_ge Hp2%Z.ltb_ge].
  split; simpl; try done.
  - by apply (bool_decide_unpack _).
  - destruct (Z.eqb_spec (cd_passengers b) 0); lia.
  - unfold served. rewrite !elem_of_cons, elem_of_nil. naive_solver.
Qed.

Lemma move_keeps id p st : (forall s, p s = true -> (s, st) ∈ moves) -> keeps (@advances_view S) (db_exec (move_drt id p st)).
Proof. intros Hp. apply keeps_exec; [apply _|]. intros d l s a g Hm. by apply (move_advances id p st d a g). Qed.

Lemma cancellable_moves s : cancellable s = true -> (s, "cancelled") ∈ moves.
Proof.
  unfold cancellable. intros Hs%bool_decide_eq_true. rewrite !elem_of_cons, elem_of_nil in Hs.
  destruct Hs as [-> |[-> |[]]]; by apply (bool_decide_unpack _).
Qed.

Lemma cancel_advances id : keeps (@advances_view S) (cancel_drt id).
Proof. unfold cancel_drt. apply keeps_bind; [apply _|apply move_keeps, cancellable_moves|]. intros []; repeat keep_step. Qed.

Lemma CancelDRTRequest_advances connected ctx id : keeps (@advances_view S) (CancelDRTRequest connected ctx id).
Proof.
  unfold CancelDRTRequest, requireDB. destruct connected; [|keep_step]. apply keeps_bind; [apply _|keep_step|].
  intros [r|[]]; repeat first [keep_step|apply cancel_advances].
Qed.

Lemma progress_advances connected path id : keeps (@advances_view S) (ProgressDRTRequest connected path id).
Proof.
  unfold ProgressDRTRequest, requireDB. destruct connected; [|keep_step].
  assert (forall from to, (from, to) ∈ moves -> keeps (@advances_view S) (progress_drt id from to)) as Hp.
  { intros from to Hm. unfold progress_drt. apply keeps_bind; [apply _| |intros [|[]]; repeat keep_step].
    apply move_keeps. by intros s ->%bool_decide_eq_true. }
  destruct (HasSuffix path _); [apply Hp; by apply (bool_decide_unpack _)|].
  destruct (HasSuffix path _); [apply Hp; by apply (bool_decide_unpack _)|]. keep_step.
Qed.

(** The check changes nothing, and a positive verdict is kept by any step. *)
Lemma check_eligible request vehicle now d : assign_reason request vehicle now d = Ok "" -> eligible d request vehicle.
Proof.
  unfold assign_reason, eligible. intros Hr q v Eq Ev. rewrite Eq, Ev in Hr.
  destruct (drt d !! q) as [r|]; [|done]. destruct (fleet d !! v) as [x|]; [|done]. exists r, x. split_and!; [done..|].
  destruct (dr_wheelchair r && negb (ve_wheelchair x)) eqn:E; [done|]. intros Hw. rewrite Hw in E. by destruct (ve_wheelchair x).
Qed.

Lemma reason_cases request vehicle now d reason : assign_reason request vehicle now d = Ok reason ->
  reason ∈ ["no_request"; "no_vehicle"; "wheelchair"; "dispatch"; ""].
Proof.
  unfold assign_reason. destruct (uuid_in request); [|done]. destruct (uuid_in vehicle); [|done]. intros [= <-].
  repeat case_match; by apply (bool_decide_unpack _).
Qed.

Lemma validate_spec request vehicle w :
  let '(r, w') := validateAssignVehicle request vehicle w in
  w_db w' = w_db w /\ w_led w' = w_led w /\ w_now w' = w_now w /\
  (r = Ok tt -> assign_reason request vehicle (w_now w) (w_db w) = Ok "").
Proof.
  enough (wp (validateAssignVehicle request vehicle) (fun r w' => w_db w' = w_db w /\ w_led w' = w_led w /\ w_now w' = w_now w /\
    (r = Ok tt -> assign_reason request vehicle (w_now w) (w_db w) = Ok "")) w) as Hw
    by (unfold wp in Hw; by destruct (validateAssignVehicle request vehicle w)).
  unfold validateAssignVehicle. apply wp_bind, wp_gets, wp_bind, wp_db_query; intros s; [|by apply wp_ret].
  destruct (assign_reason request vehicle (w_now w) (w_db w)) as [reason|e] eqn:E; apply wp_ret; [|done].
  split_and!; [done..|]. apply reason_cases in E. rewrite !elem_of_cons, elem_of_nil in E.
  destruct E as [-> |[-> |[-> |[-> |[-> |[]]]]]]; done.
Qed.

Lemma assign_update_advances request vehicle driver w :
  eligible (w_db w) request vehicle -> advances (w_db w) (w_db (assign_update request vehicle driver w).2).
Proof.
  intros He. enough (wp (assign_update request vehicle driver) (fun _ w' => advances (w_db w) (w_db w')) w) as Hw by exact Hw.
  unfold assign_update. apply wp_bind, wp_gets, wp_bind, wp_db_exec; intros; apply wp_ret; cbn [w_db with_db with_sched];
    try reflexivity; by eapply assign_advances.
Qed.

Lemma AssignDRT_keeps request vehicle driver : keeps (@advances_view S) (AssignDRT request vehicle driver).
Proof.
  intros w. unfold AssignDRT, gbind, advances_view, view. cbn [lf_db].
  pose proof (validate_spec request vehicle w) as Hv. destruct (validateAssignVehicle request vehicle w) as [[[]|e] w1].
  - destruct Hv as (E & _ & _ & Hr). rewrite <- E. apply assign_update_advances. rewrite E. by apply (check_eligible _ _ (w_now w)), Hr.
  - destruct Hv as (E & _). cbn [snd gret]. rewrite E. reflexivity.
Qed.

Lemma AssignDRTRequest_advances connected id req : keeps (@advances_view S) (AssignDRTRequest connected id req).
Proof.
  unfold AssignDRTRequest, requireDB. destruct connected; [|keep_step]. destruct req as [[vehicle driver]|]; [|keep_step].
  case_bool_decide; [keep_step|]. apply keeps_bind; [apply _|apply AssignDRT_keeps|]. intros [[]|e].
  - unfold announce_assigned. repeat keep_step.
  - unfold assign_failed. repeat keep_step.
Qed.

Lemma AutoAssign_advances `{PostGis} e : keeps (@advances_view S) (AutoAssign e).
Proof.
  unfold AutoAssign. case_bool_decide; [keep_step|]. apply keeps_bind; [apply _|keep_step|]. intros [r|[]]; try (by repeat keep_step).
  apply keeps_bind; [apply _|unfold PickVehicle; repeat keep_step|]. intros [v|[]]; try (by repeat keep_step).
  unfold auto_finish. apply keeps_bind; [apply _|apply AssignDRT_keeps|]. intros []; repeat keep_step.
Qed.
End Handlers.
End Rides.

(** ** The service over every interleaving

    The handlers whole, the two statements of an assignment and the update of
    a cancellation on their own, interleaved in any order; a vehicle passes
    its check at some moment and may be assigned at any later one.  Dispatch
    jobs, telemetry and vehicle statuses change as they like; vehicles stay
    and keep their accessibility. *)

Section Reach.
Context `{Runtime} `{PgServer} `{PostGis} {S : Type}.

Record sys : Type := mkSys { sy_world : World DrtDB S; sy_checked : list (string * string) }.

Inductive drt_step : sys -> sys -> Prop :=
| StCreate connected ctx req s : drt_step s (mkSys (CreateDRTRequest connected ctx req (sy_world s)).2 (sy_checked s))
| StCancel connected ctx id s : drt_step s (mkSys (CancelDRTRequest connected ctx id (sy_world s)).2 (sy_checked s))
| StCancelUpdate id s : drt_step s (mkSys (cancel_drt id (sy_world s)).2 (sy_checked s))
| StProgress connected path id s : drt_step s (mkSys (ProgressDRTRequest connected path id (sy_world s)).2 (sy_checked s))
| StAssign connected id req s : drt_step s (mkSys (AssignDRTRequest connected id req (sy_world s)).2 (sy_checked s))
| StAuto e s : drt_step s (mkSys (AutoAssign e (sy_world s)).2 (sy_checked s))
| StCheck request vehicle s w' :
    validateAssignVehicle request vehicle (sy_world s) = (Ok tt, w') -> drt_step s (mkSys w' ((request, vehicle) :: sy_checked s))
| StUpdate request vehicle driver s : (request, vehicle) ∈ sy_checked s ->
    drt_step s (mkSys (assign_update request vehicle driver (sy_world s)).2 (sy_checked s))
| StOutside s d' dt sched : drt d' = drt (w_db (sy_world s)) -> fleet_le (fleet (w_db (sy_world s))) (fleet d') -> 0 <= dt ->
    drt_step s (mkSys (with_sched sched (with_now (w_now (sy_world s) + dt) (with_db d' (sy_world s)))) (sy_checked s)).

Definition sys_ok (s : sys) : Prop :=
  rides_ok (w_db (sy_world s)) /\ forall q v, (q, v) ∈ sy_checked s -> eligible (w_db (sy_world s)) q v.

Lemma eligible_mono d d' q v : rides_le d d' -> fleet_le (fleet d) (fleet d') -> eligible d q v -> eligible d' q v.
Proof.
  intros Hr Hf He q' v' Eq Ev. destruct (He q' v' Eq Ev) as (r & x & Hr1 & Hx & Hw).
  destruct (Hr _ _ Hr1) as (r' & Hr' & Hle). destruct (Hf _ _ Hx) as (x' & Hx' & E). exists r', x'. split_and!; [done..|].
  pose proof (rl_identity _ _ Hle) as Ei. unfold ride_identity in Ei. rewrite E. intros Hw'. apply Hw. congruence.
Qed.

Lemma fleet_le_refl vs : fleet_le vs vs.
Proof. intros v x Hx. by exists x. Qed.

Lemma sys_advance s w' checked : sys_ok s -> advances (w_db (sy_world s)) (w_db w') ->
  (forall q v, (q, v) ∈ checked -> (q, v) ∈ sy_checked s \/ eligible (w_db w') q v) ->
  sys_ok (mkSys w' checked) /\ rides_le (w_db (sy_world s)) (w_db w').
Proof.
  intros [Hd Hc] Ha Hch. destruct (Ha Hd) as (Hd' & Hle & Hf & _). split; [|done]. split; [done|]. intros q v Hin.
  destruct (Hch q v Hin) as [Hin'|]; [|done]. cbn [sy_world]. apply (eligible_mono (w_db (sy_world s))); [done| |by apply Hc].
  rewrite Hf. apply fleet_le_refl.
Qed.

Lemma step_sound s s' : sys_ok s -> drt_step s s' -> sys_ok s' /\ rides_le (w_db (sy_world s)) (w_db (sy_world s')).
Proof.
  intros Hs Hst.
  assert (forall A (m : M DrtDB S A), keeps (@advances_view S) m -> sys_ok (mkSys (m (sy_world s)).2 (sy_checked s)) /\
    rides_le (w_db (sy_world s)) (w_db (m (sy_world s)).2)) as Hkeep.
  { intros A m Hm. apply sys_advance; [done|apply (Hm (sy_world s))|by left]. }
  destruct Hst as [| | | | | |request vehicle s w' Hv|request vehicle driver s Hin|s d' dt sched Hdrt Hf Hdt].
  - apply Hkeep, create_advances.
  - apply Hkeep, CancelDRTRequest_advances.
  - apply Hkeep, cancel_advances.
  - apply Hkeep, progress_advances.
  - apply Hkeep, AssignDRTRequest_advances.
  - apply Hkeep, AutoAssign_advances.
  - pose proof (validate_spec request vehicle (sy_world s)) as Hspec. rewrite Hv in Hspec. destruct Hspec as (E & _ & _ & Hok).
    cbn [sy_world] in *. apply sys_advance; [done|rewrite E; reflexivity|]. intros q v [[= -> ->]|Hin]%elem_of_cons; [right|by left].
    rewrite E. by eapply check_eligible, Hok.
  - apply sys_advance; [done| |by left]. apply assign_update_advances, (proj2 Hs), Hin.
  - cbn [sy_world w_db with_sched with_now with_db]. destruct Hs as [Hd Hc].
    assert (rides_le (w_db (sy_world s)) d') as Hle by (intros id r Hr; exists r; rewrite Hdrt; split; [done|reflexivity]).
    split; [|done]. split; cbn [sy_world w_db with_sched with_now with_db sy_checked].
    + intros id r Hr. rewrite Hdrt in Hr. destruct (Hd id r Hr). split; [done|]. by eapply ride_ok_fleet.
    + intros q v Hin. by eapply eligible_mono, Hc.
Qed.

(** C17: the life of a ride.  Over any interleaving of requests, statements of
    assignments and outside changes, under any faults, every ride goes on
    from requested over assigned and enroute to completed, or is cancelled
    before it starts; its rider, places, passengers and needs never change;
    vehicle, driver and time of assignment are set once; and a ride that has
    a vehicle has one that exists and is accessible when the rider needs it. *)
Theorem rides_live_on s s' : sys_ok s -> rtc drt_step s s' ->
  (forall id r, drt (w_db (sy_world s)) !! id = Some r -> exists r', drt (w_db (sy_world s')) !! id = Some r' /\ ride_le r r') /\
  (forall id r, drt (w_db (sy_world s')) !! id = Some r -> dr_id r = id /\ ride_ok (fleet (w_db (sy_world s'))) r).
Proof.
  intros Hs Hst. enough (sys_ok s' /\ rides_le (w_db (sy_world s)) (w_db (sy_world s'))) as [[Hd _] Hle] by done.
  induction Hst as [s|s s1 s2 Hstep _ IH]; [split; [done|apply rides_le_refl]|]. destruct (step_sound _ _ Hs Hstep) as [Hs1 Hle1].
  destruct (IH Hs1) as [Hs2 Hle2]. split; [done|]. by eapply rides_le_trans.
Qed.
End Reach.
Arguments sys S : clear implicits.

(** ** The check *)

Section Facts.
Context `{Runtime} `{PgServer} {S : Type}.
Implicit Types w : World DrtDB S.

(** An active job of the vehicle overlaps the next half hour. *)
Definition occupied (v : string) (now : Z) (d : DrtDB) : Prop :=
  exists id j, dispatch d !! id = Some j /\ dj_vehicle j = Some v /\ active (dj_status j) = true /\
    (forall t, dj_starts j = Some t -> t < now + 1800000) /\ (forall t, dj_ends j = Some t -> now < t).

Lemma job_blocks_spec v now j : job_blocks v now j = true <->
  dj_vehicle j = Some v /\ active (dj_status j) = true /\ (forall t, dj_starts j = Some t -> t < now + 1800000) /\ (forall t, dj_ends j = Some t -> now < t).
Proof.
  unfold job_blocks, busy_window. rewrite !holds_and, !holds_or, !andb_true_iff, !orb_true_iff, !holds_null.
  change (30 * 60000) with 1800000.
  assert (holds (tri_eq (dj_vehicle j) (Some v)) = true <-> dj_vehicle j = Some v) as ->.
  { destruct (dj_vehicle j); simpl; [|by split]. case_bool_decide; simpl; naive_solver. }
  assert (holds (Some (active (dj_status j))) = true <-> active (dj_status j) = true) as -> by (simpl; by destruct (active _)).
  assert ((match dj_starts j with None => true | Some _ => false end = true \/ holds (tri_lt (dj_starts j) (Some (now + 1800000))) = true) <->
    (forall t, dj_starts j = Some t -> t < now + 1800000)) as ->.
  { destruct (dj_starts j) as [t|]; [rewrite holds_lt, Z.ltb_lt|]; naive_solver. }
  assert ((match dj_ends j with None => true | Some _ => false end = true \/ holds (tri_lt (Some now) (dj_ends j)) = true) <->
    (forall t, dj_ends j = Some t -> now < t)) as ->; [|done].
  destruct (dj_ends j) as [t|]; [rewrite holds_lt, Z.ltb_lt|]; naive_solver.
Qed.

Lemma dispatch_busy_spec v now d : dispatch_busy v now d = true <-> occupied v now d.
Proof.
  unfold dispatch_busy. destruct (find_row (job_blocks v now) (dispatch d)) as [j|] eqn:E; split; try done.
  - intros _. apply (find_row_Some (V := DispatchJob)) in E as [Hb (id & Hj)]. apply job_blocks_spec in Hb. exists id, j. tauto.
  - intros (id & j & Hj & Hb). rewrite find_row_None in E. specialize (E id j Hj).
    assert (job_blocks v now j = true) by (apply job_blocks_spec; tauto). congruence.
Qed.

(** The check of a vehicle is exact.  Without a database fault, and for
    well-formed ids, an assignment is let through exactly when the request and
    the vehicle exist, the vehicle is accessible if the rider needs it, and no
    active dispatch job of the vehicle overlaps the next half hour. *)
Theorem assign_check_exact request vehicle q v w :
  w_sched w = [] -> uuid_in request = Ok q -> uuid_in vehicle = Ok v ->
  (validateAssignVehicle request vehicle w).1 = Ok tt <->
  exists r x, drt (w_db w) !! q = Some r /\ fleet (w_db w) !! v = Some x /\
    (dr_wheelchair r = true -> ve_wheelchair x = true) /\ ~ occupied v (w_now w) (w_db w).
Proof.
  intros Hq Eq Ev. setoid_rewrite <- dispatch_busy_spec. unfold validateAssignVehicle, gbind, gets, db_query. rewrite pop_done by done.
  unfold assign_reason. rewrite Eq, Ev.
  destruct (drt (w_db w) !! q) as [r|]; [destruct (fleet (w_db w) !! v) as [x|]|]; [|simpl; naive_solver..].
  destruct (dr_wheelchair r) eqn:E1, (ve_wheelchair x) eqn:E2, (dispatch_busy v (w_now w) (w_db w)) eqn:E3; simpl; split; try done;
    try (intros (r' & x' & [= <-] & [= <-] & ? & ?); naive_solver congruence); intros _; exists r, x; split_and!; (done || congruence).
Qed.

(** ** Who sees a request *)

(** Requests are private.  To a caller who neither made the request nor is
    operator or platform-admin, reading and cancelling answer exactly as if
    the request did not exist, and change nothing; and his list holds his own
    requests only. *)
Theorem drt_requests_hidden connected ctx id r w :
  drt_by_id id (w_db w) = Ok r -> may_see ctx r = false ->
  let absent := with_db (mkDrtDB (delete (dr_id r) (drt (w_db w))) (fleet (w_db w)) (latest (w_db w)) (dispatch (w_db w))) w in
  rides_ok (w_db w) ->
  (GetDRTRequest connected ctx id w).1 = (GetDRTRequest connected ctx id absent).1 /\
  (CancelDRTRequest connected ctx id w).1 = (CancelDRTRequest connected ctx id absent).1 /\
  w_db (CancelDRTRequest connected ctx id w).2 = w_db w.
Proof.
  intros Hr Hsee absent Hd. pose proof Hr as Hr'. apply drt_by_id_Some in Hr' as (k & Ek & Hk). destruct (Hd k r Hk) as [Eid _].
  assert (drt_by_id id (w_db absent) = Err ErrNoRows) as Habs.
  { unfold drt_by_id, absent. cbn [w_db with_db drt]. rewrite Ek, Eid, lookup_delete_eq. done. }
  assert (w_sched absent = w_sched w) as Esch by done.
  unfold GetDRTRequest, CancelDRTRequest, requireDB. destruct connected; [|done].
  unfold gbind, db_query, pop. rewrite Esch. destruct (w_sched w) as [|[] l]; cbn [w_db with_sched]; rewrite ?Hr, ?Habs; cbn [fst snd];
    rewrite ?Hsee; done.
Qed.

Theorem drt_list_own connected ctx user_sub w :
  hasRole ctx "operator" = false -> w_sched w = [] -> Subject ctx <> "" -> connected = true ->
  exists rs, (ListDRTRequests connected ctx user_sub w).1 = mkResponse 200 (JObj [("requests", JList (map drt_json rs))]) /\
    forall r, r ∈ rs -> dr_user r = Subject ctx.
Proof.
  intros Hop Hq Hsub ->. unfold ListDRTRequests, requireDB. rewrite Hop, orb_true_r. rewrite (bool_decide_false (Subject ctx = "")) by done.
  unfold gbind, db_query. rewrite pop_done by done. eexists. split; [reflexivity|]. intros r Hr.
  apply elem_of_take in Hr as (i & Hi & _). apply list_elem_of_lookup_2 in Hi. rewrite order_asc_perm in Hi.
  by apply list_elem_of_filter in Hi as [? _].
Qed.
End Facts.

(** ** Automatic assignment *)

Section Auto.
Context `{Runtime} `{PgServer} `{PostGis} {S : Type}.
Implicit Types w : World DrtDB S.

(** [v] is at least as near as [v']; a vehicle without a position is last. *)
Definition closer (at_ : point) (d : DrtDB) (v v' : string) : Prop :=
  match latest d !! v, latest d !! v' with
  | Some p, Some p' => st_distance at_ p <= st_distance at_ p'
  | None, Some _ => False
  | _, None => True
  end.

Lemma nearest_spec at_ d vs : vs <> [] -> exists v, nearest at_ d vs = Some v /\ v ∈ vs /\ forall v', v' ∈ vs -> closer at_ d v v'.
Proof.
  intros Hne. unfold nearest. set (pairs := omap _ vs). pose proof (order_asc_sorted snd pairs) as Hsort.
  pose proof (order_asc_perm snd pairs) as Hperm.
  assert (forall v z, (v, z) ∈ pairs <-> v ∈ vs /\ exists p, latest d !! v = Some p /\ z = st_distance at_ p) as Hp.
  { intros v z. unfold pairs. rewrite list_elem_of_omap. split.
    - intros (v1 & Hv1 & E). destruct (latest d !! v1) as [p|] eqn:El; [|done]. injection E as <- <-. eauto.
    - intros (Hv & p & El & ->). exists v. split; [done|]. by rewrite El. }
  destruct (order_asc snd pairs) as [|[v z] rest] eqn:Eo; simpl.
  - assert (forall v, v ∈ vs -> latest d !! v = None) as Hnone.
    { intros v Hv. destruct (latest d !! v) as [p|] eqn:El; [|done]. exfalso.
      assert ((v, st_distance at_ p) ∈ pairs) as Hin by (apply Hp; eauto). rewrite <- Hperm in Hin. by apply elem_of_nil in Hin. }
    destruct (filter (fun v => (st_distance at_ <$> latest d !! v) = None) vs) as [|v l] eqn:Ef.
    + exfalso. destruct vs as [|v vs]; [done|]. assert (v ∈ (@nil string)) as Hin; [|by apply elem_of_nil in Hin].
      rewrite <- Ef. apply list_elem_of_filter. split; [|apply elem_of_cons; by left]. rewrite Hnone by (apply elem_of_cons; by left). done.
    + exists v. split; [done|]. assert (v ∈ vs) as Hv.
      { assert (v ∈ v :: l) as Hin by (apply elem_of_cons; by left). rewrite <- Ef in Hin. by apply list_elem_of_filter in Hin as [_ ?]. }
      split; [done|]. intros v' Hv'. unfold closer. by rewrite !Hnone.
  - assert ((v, z) ∈ pairs) as Hin by (rewrite <- Hperm; apply elem_of_cons; by left).
    apply Hp in Hin as (Hv & p & El & ->). exists v. split_and!; [done..|]. intros v' Hv'. unfold closer. rewrite El.
    destruct (latest d !! v') as [p'|] eqn:El'; [|done].
    assert ((v', st_distance at_ p') ∈ pairs) as Hin' by (apply Hp; eauto). rewrite <- Hperm in Hin'.
    apply elem_of_cons in Hin' as [[= -> E]|Hin']; [lia|].
    apply Sorted.StronglySorted_inv in Hsort as [_ Hall]. rewrite list.Forall_forall in Hall. by apply (Hall (v', st_distance at_ p')).
Qed.

Definition candidates (wheelchair : bool) (now : Z) (d : DrtDB) : list string :=
  map fst (filter (available wheelchair now d) (map_to_list (fleet d))).

Lemma elem_of_candidates wheelchair now d v :
  v ∈ candidates wheelchair now d <-> exists x, fleet d !! v = Some x /\ available wheelchair now d (v, x).
Proof.
  unfold candidates. rewrite list_elem_of_In, in_map_iff. split.
  - intros ([v' x] & <- & Hin%list_elem_of_In). apply list_elem_of_filter in Hin as [Ha Hin%elem_of_map_to_list]. eauto.
  - intros (x & Hx & Ha). exists (v, x). split; [done|]. apply list_elem_of_In, list_elem_of_filter. split; [done|]. by apply elem_of_map_to_list.
Qed.

Lemma pick_vehicle_spec lat lon wheelchair now d v : pick_vehicle lat lon wheelchair now d = Ok v ->
  (exists x, fleet d !! v = Some x /\ available wheelchair now d (v, x)) /\
  forall v', v' ∈ candidates wheelchair now d -> closer (lat, lon) d v v'.
Proof.
  unfold pick_vehicle. fold (candidates wheelchair now d). destruct (decide (candidates wheelchair now d = [])) as [E|Hne]; [by rewrite E|].
  destruct (nearest_spec (lat, lon) d _ Hne) as (v0 & E & Hin & Hc). rewrite E. intros [= ->]. split; [|done]. by apply elem_of_candidates.
Qed.

(** The spelling of stored ids. *)
Definition canonical (d : DrtDB) : Prop := forall v, is_Some (fleet d !! v) -> uuid_in v = Ok v.

(** What an automatic assignment does to the tables. *)
Definition auto_assigned (e : DRTRequested) (now : Z) (d d' : DrtDB) : Prop :=
  exists r v, drt_by_id (rd_request e) d = Ok r /\ dr_status r = "requested" /\ v ∈ candidates (dr_wheelchair r) now d /\
    (forall v', v' ∈ candidates (dr_wheelchair r) now d -> closer (rd_lat e, rd_lon e) d v v') /\
    d' = put_drt (with_assignment v None now r) d.

Lemma wp_AssignDRT request vehicle driver (Q : result unit -> World DrtDB S -> Prop) w :
  (forall r w', w_db w' = w_db w -> w_bus w' = w_bus w -> w_now w' = w_now w -> r <> Ok tt -> Q r w') ->
  (forall r w' q v row, w_bus w' = w_bus w -> w_now w' = w_now w -> uuid_in request = Ok q -> uuid_in vehicle = Ok v ->
     drt (w_db w) !! q = Some row -> dr_status row = "requested" ->
     w_db w' = put_drt (with_assignment v (if bool_decide (driver = "") then None else Some driver) (w_now w) row) (w_db w) -> Q r w') ->
  wp (AssignDRT request vehicle driver) Q w.
Proof.
  intros Hno Hyes. unfold AssignDRT, validateAssignVehicle, assign_update.
  apply wp_bind, wp_bind, wp_gets, wp_bind, wp_db_query; intros s; [|by apply wp_ret, wp_ret, Hno].
  destruct (assign_reason _ _ _ _) as [reason|e]; [|by apply wp_ret, wp_ret, Hno]. apply wp_ret.
  destruct (bool_decide (reason = "no_request")); [by apply wp_ret, Hno|].
  destruct (bool_decide (reason = "no_vehicle")); [by apply wp_ret, Hno|].
  destruct (bool_decide (reason = "wheelchair")); [by apply wp_ret, Hno|].
  destruct (bool_decide (reason = "dispatch")); [by apply wp_ret, Hno|].
  apply wp_bind, wp_gets, wp_bind. cbn [w_now with_sched].
  apply wp_db_exec; cbn [w_db with_sched]; [intros s1 n g Hs|intros s1 n g Hs|intros s1 e Hs|intros s1];
    apply wp_ret; [| |by apply Hno|by apply Hno]; unfold assign_stmt in Hs;
    (destruct (uuid_in request) as [q|] eqn:Eq; [|done]); (destruct (uuid_in vehicle) as [v|] eqn:Ev; [|done]);
    (destruct (drt (w_db w) !! q) as [row|] eqn:Er; [|injection Hs as <- <-; by apply Hno]);
    (case_bool_decide as Hst; [|injection Hs as <- <-; by apply Hno]); (destruct (fleet (w_db w) !! v); [|done]); injection Hs as <- <-;
    by eapply Hyes.
Qed.

Lemma auto_assign_cases e w :
  canonical (w_db w) ->
  w_db (AutoAssign e w).2 = w_db w \/ auto_assigned e (w_now w) (w_db w) (w_db (AutoAssign e w).2).
Proof.
  intros Hcan. enough (wp (AutoAssign e) (fun _ w' => w_db w' = w_db w \/ auto_assigned e (w_now w) (w_db w) (w_db w')) w) as Hw by exact Hw.
  unfold AutoAssign. case_bool_decide; [apply wp_ret; by left|]. apply wp_bind, wp_db_query; intros s; [|apply wp_ret; by left].
  destruct (drt_by_id (rd_request e) (w_db w)) as [r|[]] eqn:Er; try (apply wp_ret; by left).
  unfold PickVehicle. apply wp_bind, wp_bind, wp_gets, wp_db_query; intros s1; [|apply wp_ret; by left]. cbn [w_db w_now with_sched].
  destruct (pick_vehicle _ _ _ _ _) as [v|[]] eqn:Ep; try (apply wp_ret; by left).
  apply pick_vehicle_spec in Ep as [(x & Hx & Ha) Hc]. unfold auto_finish. apply wp_bind, wp_AssignDRT; cbn [w_db w_now with_sched].
  - intros a w' E _ _ Hr. destruct a as [[]|err]; [done|]. apply wp_ret. by left.
  - intros a w' q v' row _ _ Eq Ev Hrow Hst E.
    assert (v' = v) as -> by (pose proof (Hcan v (ex_intro _ x Hx)); congruence).
    pose proof Er as Er'. unfold drt_by_id in Er'. rewrite Eq, Hrow in Er'. injection Er' as ->.
    assert (auto_assigned e (w_now w) (w_db w) (w_db w')) as Hd.
    { exists r, v. split_and!; [done|done|by apply elem_of_candidates; eauto|done|exact E]. }
    destruct a as [[]|err]; [|apply wp_ret; by right]. apply wp_bind, wp_gets, wp_bind, wp_publish; intros; apply wp_ret; by right.
Qed.

(** Automatic assignment is all or nothing.  Whatever fails, an event leaves
    the tables alone or assigns its ride, still requested, to the nearest of
    the active vehicles that are free of rides and of dispatch for the next
    half hour and accessible if needed. *)
Theorem auto_assign_all_or_nothing e w :
  canonical (w_db w) ->
  w_db (AutoAssign e w).2 = w_db w \/ auto_assigned e (w_now w) (w_db w) (w_db (AutoAssign e w).2).
Proof. apply auto_assign_cases. Qed.

(** A ride finds a vehicle.  Without faults, when a requested ride has a
    vehicle it could take, its event is consumed with the ride assigned to a
    nearest one and announced. *)
Theorem auto_assign_finds_vehicle e r w :
  canonical (w_db w) -> w_sched w = [] -> drt_by_id (rd_request e) (w_db w) = Ok r -> rd_request e <> "" -> dr_status r = "requested" ->
  candidates (dr_wheelchair r) (w_now w) (w_db w) <> [] ->
  let '(res, w') := AutoAssign e w in
  res = Ok tt /\ exists v, v ∈ candidates (dr_wheelchair r) (w_now w) (w_db w) /\
    (forall v', v' ∈ candidates (dr_wheelchair r) (w_now w) (w_db w) -> closer (rd_lat e, rd_lon e) (w_db w) v v') /\
    w_db w' = put_drt (with_assignment v None (w_now w) r) (w_db w) /\
    w_bus w' = app (w_bus w) [mkEvent "drt.assigned" (auto_event e v (w_now w))].
Proof.
  intros Hcan Hq Hr Hne Hst Hc.
  enough (wp (AutoAssign e) (fun res w' => res = Ok tt /\ exists v, v ∈ candidates (dr_wheelchair r) (w_now w) (w_db w) /\
    (forall v', v' ∈ candidates (dr_wheelchair r) (w_now w) (w_db w) -> closer (rd_lat e, rd_lon e) (w_db w) v v') /\
    w_db w' = put_drt (with_assignment v None (w_now w) r) (w_db w) /\
    w_bus w' = app (w_bus w) [mkEvent "drt.assigned" (auto_event e v (w_now w))]) w) as Hw by (unfold wp in Hw; by destruct (AutoAssign e w)).
  unfold AutoAssign. rewrite bool_decide_false by done. apply wp_bind, wp_db_query_done; [done|]. rewrite Hr.
  unfold PickVehicle. apply wp_bind, wp_bind, wp_gets, wp_db_query_done; [done|].
  destruct (nearest_spec (rd_lat e, rd_lon e) (w_db w) _ Hc) as (v & En & Hin & Hnear).
  unfold pick_vehicle. fold (candidates (dr_wheelchair r) (w_now w) (w_db w)). rewrite En.
  pose proof Hin as Hin'. apply elem_of_candidates in Hin' as (x & Hx & _ & Hacc & _ & Hbusy). cbn [fst snd] in *.
  pose proof Hr as Hr'. apply drt_by_id_Some in Hr' as (q & Eq & Hrow). assert (uuid_in v = Ok v) as Ev by (apply Hcan; by eexists).
  unfold auto_finish, AssignDRT, validateAssignVehicle, assign_update.
  apply wp_bind, wp_bind, wp_bind, wp_gets, wp_bind, wp_db_query_done; [done|].
  assert (assign_reason (rd_request e) v (w_now w) (w_db w) = Ok "") as ->.
  { unfold assign_reason. rewrite Eq, Ev, Hrow, Hx, Hbusy. destruct (dr_wheelchair r); [|done]. by rewrite Hacc. }
  apply wp_ret. cbn [bool_decide]. apply wp_bind, wp_gets, wp_bind.
  eapply wp_db_exec_done; [done| |].
  { unfold assign_stmt. rewrite Eq, Ev, Hrow, Hx, bool_decide_true by done. reflexivity. }
  apply wp_ret. cbn [Z.eqb]. apply wp_bind, wp_gets, wp_bind, wp_publish_done; [done|]. apply wp_ret. split; [done|]. exists v. done.
Qed.

(** *** Rides apart *)

Definition riding (r : DRTRequest) : bool := bool_decide (dr_status r ∈ ["assigned"; "enroute"]).

(** No vehicle serves two rides. *)
Definition apart (d : DrtDB) : Prop := forall i1 i2 r1 r2, drt d !! i1 = Some r1 -> drt d !! i2 = Some r2 ->
  riding r1 = true -> riding r2 = true -> dr_vehicle r1 = dr_vehicle r2 -> is_Some (dr_vehicle r1) -> i1 = i2.

(** Whatever rides in [d'] rode in [d], with the same vehicle. *)
Definition no_new_rides (d d' : DrtDB) : Prop :=
  advances d d' /\ (rides_ok d -> forall i r', drt d' !! i = Some r' -> riding r' = true ->
    exists r, drt d !! i = Some r /\ riding r = true /\ dr_vehicle r = dr_vehicle r').

Definition no_new_rides_view (l l' : left_behind DrtDB S) : Prop := no_new_rides (lf_db l) (lf_db l').

#[local] Instance no_new_rides_preorder : PreOrder no_new_rides_view.
Proof.
  split; [intros l; split; [reflexivity|]; intros _ i r' ? ?; by exists r'|].
  intros a b c [A1 N1] [A2 N2]. split; [by etrans|]. intros Ha i r' Hi Hr. destruct (A1 Ha) as [Hb _].
  destruct (N2 Hb i r' Hi Hr) as (r1 & Hi1 & Hr1 & E1). destruct (N1 Ha i r1 Hi1 Hr1) as (r0 & ? & ? & E0). exists r0. by rewrite E0, E1.
Qed.

Lemma no_new_rides_apart d d' : rides_ok d -> no_new_rides d d' -> apart d -> apart d'.
Proof.
  intros Hd [_ Hn] Ha i1 i2 r1 r2 H1' H2' R1 R2 Ev Hs. destruct (Hn Hd i1 r1 H1' R1) as (q1 & ? & ? & E1).
  destruct (Hn Hd i2 r2 H2' R2) as (q2 & ? & ? & E2). apply (Ha i1 i2 q1 q2); congruence.
Qed.

Lemma put_no_new_rides d id r r' : rides_ok d -> drt d !! id = Some r -> dr_id r' = id ->
  (riding r' = true -> riding r = true /\ dr_vehicle r = dr_vehicle r') ->
  forall i x, drt (put_drt r' d) !! i = Some x -> riding x = true ->
    exists x0, drt d !! i = Some x0 /\ riding x0 = true /\ dr_vehicle x0 = dr_vehicle x.
Proof.
  intros _ Hr <- Hnew i x Hx Hri. simpl in Hx. apply lookup_insert_Some in Hx as [[<- <-]|[_ Hx]]; [|by exists x].
  exists r. split; [done|]. by apply Hnew.
Qed.

Lemma move_no_new_rides id p st : (forall s, p s = true -> (s, st) ∈ moves) -> keeps no_new_rides_view (db_exec (S := S) (move_drt id p st)).
Proof.
  intros Hp. apply keeps_exec; [apply _|]. intros d l s a g Hm. split; [by apply (move_advances id p st d a g)|]. intros Hd.
  cbn [lf_db]. unfold move_drt in Hm. destruct (drt_by_id id d) as [r|] eqn:E; [|done]. destruct (p (dr_status r)) eqn:Ep; [|done].
  injection Hm as _ <-. apply drt_by_id_Some in E as (k & _ & Hr). destruct (Hd k r Hr) as [Eid _].
  apply (put_no_new_rides d k r); [done..|]. specialize (Hp _ Ep). unfold moves in Hp. rewrite !elem_of_cons, elem_of_nil in Hp.
  unfold riding. cbn [dr_status dr_vehicle with_drt_status].
  destruct Hp as [[= -> ->]|[[= -> ->]|[[= -> ->]|[[= -> ->]|[]]]]]; done.
Qed.

Lemma create_no_new_rides connected ctx req : keeps no_new_rides_view (CreateDRTRequest connected ctx req).
Proof.
  intros w. pose proof (create_advances (S := S) connected ctx req w) as Ha. split; [exact Ha|].
  enough (keeps (fun l l' : left_behind DrtDB S => forall i r', drt (lf_db l') !! i = Some r' -> riding r' = true ->
    drt (lf_db l) !! i = Some r') (CreateDRTRequest connected ctx req)) as Hk.
  { intros _ i r' Hi Hr. exists r'. split; [by apply (Hk w)|done]. }
  assert (PreOrder (fun l l' : left_behind DrtDB S => forall i r', drt (lf_db l') !! i = Some r' -> riding r' = true ->
    drt (lf_db l) !! i = Some r')) by (split; [by intros l i r'|intros a b c H1' H2' i r' Hi Hr; auto]).
  unfold CreateDRTRequest, requireDB. destruct connected; [|keep_step]. unfold create_drt. destruct req as [b|]; [|keep_step].
  repeat keep_step. cbn [lf_db] in *.
  match goal with Hins : insert_drt ?row _ = Ok _ |- _ => unfold insert_drt in Hins; case_match; [done|]; injection Hins as <- <- end.
  match goal with Hi : drt _ !! _ = Some _ |- _ => simpl in Hi; by apply lookup_insert_Some in Hi as [[<- <-]|[_ ?]] end.
Qed.

Lemma cancel_no_new_rides connected ctx id : keeps no_new_rides_view (CancelDRTRequest connected ctx id).
Proof.
  unfold CancelDRTRequest, requireDB. destruct connected; [|keep_step]. apply keeps_bind; [apply _|keep_step|].
  intros [r|[]]; repeat first [keep_step|apply move_no_new_rides, cancellable_moves].
  unfold cancel_drt. apply keeps_bind; [apply _|apply move_no_new_rides, cancellable_moves|]. intros []; repeat keep_step.
Qed.

Lemma progress_no_new_rides connected path id : keeps no_new_rides_view (ProgressDRTRequest connected path id).
Proof.
  unfold ProgressDRTRequest, requireDB. destruct connected; [|keep_step].
  assert (forall from to, (from, to) ∈ moves -> keeps no_new_rides_view (progress_drt (S := S) id from to)) as Hp.
  { intros from to Hm. unfold progress_drt. apply keeps_bind; [apply _| |intros [|[]]; repeat keep_step].
    apply move_no_new_rides. by intros s ->%bool_decide_eq_true. }
  destruct (HasSuffix path _); [apply Hp; by apply (bool_decide_unpack _)|].
  destruct (HasSuffix path _); [apply Hp; by apply (bool_decide_unpack _)|]. keep_step.
Qed.

(** A free vehicle's new ride is its only one. *)
Lemma auto_assigned_apart e now d d' : rides_ok d -> auto_assigned e now d d' -> apart d -> apart d'.
Proof.
  intros Hd (r & v & Hr & _ & Hv & _ & ->) Ha. apply elem_of_candidates in Hv as (x & _ & _ & _ & Hfree & _). cbn [fst] in Hfree.
  rewrite find_row_None in Hfree. apply drt_by_id_Some in Hr as (k & _ & Hk). destruct (Hd k r Hk) as [Eid _].
  assert (forall i y, i <> k -> drt d !! i = Some y -> riding y = true -> dr_vehicle y <> Some v) as Hother.
  { intros i y _ Hy Hri Ev. specialize (Hfree i y Hy). cbn beta in Hfree. unfold riding in Hri.
    rewrite Hri, bool_decide_true in Hfree by done. done. }
  intros i1 i2 r1 r2 H1' H2' R1 R2 Ev Hs. simpl in H1', H2'. rewrite Eid in H1', H2'.
  apply lookup_insert_Some in H1' as [[<- <-]|[Hn1 H1']], H2' as [[<- <-]|[Hn2 H2']]; [done| | |by eapply Ha].
  - exfalso. by apply (Hother i2 r2).
  - exfalso. by apply (Hother i1 r1).
Qed.

(** Requests one after another, events one at a time, no manual assignment. *)
Inductive auto_step : World DrtDB S -> World DrtDB S -> Prop :=
| AsCreate connected ctx req w : auto_step w (CreateDRTRequest connected ctx req w).2
| AsCancel connected ctx id w : auto_step w (CancelDRTRequest connected ctx id w).2
| AsProgress connected path id w : auto_step w (ProgressDRTRequest connected path id w).2
| AsEvent e w : auto_step w (AutoAssign e w).2
| AsOutside d' dt sched w : drt d' = drt (w_db w) -> fleet_le (fleet (w_db w)) (fleet d') -> canonical d' -> 0 <= dt ->
    auto_step w (with_sched sched (with_now (w_now w + dt) (with_db d' w))).

(** Automatic assignment keeps rides apart.  As long as events are handled
    one at a time and no ride is assigned by hand, no vehicle ever serves two
    rides at once, whatever the riders, drivers and the fleet do and whatever
    fails. *)
Theorem auto_rides_apart w w' : rides_ok (w_db w) -> canonical (w_db w) -> apart (w_db w) -> rtc auto_step w w' -> apart (w_db w').
Proof.
  intros Hd Hcan Ha Hst. induction Hst as [w|w w1 w2 Hstep _ IH]; [done|].
  enough (rides_ok (w_db w1) /\ canonical (w_db w1) /\ apart (w_db w1)) as (? & ? & ?) by auto. clear IH.
  assert (forall A (m : M DrtDB S A), keeps no_new_rides_view m ->
    rides_ok (w_db (m w).2) /\ canonical (w_db (m w).2) /\ apart (w_db (m w).2)) as Hkeep.
  { intros A m Hm. pose proof (Hm w) as Hn. destruct (proj1 Hn Hd) as (Hd' & _ & Hf & _). split_and!; [done| |eapply (no_new_rides_apart (w_db w)); [exact Hd|exact Hn|exact Ha]].
    unfold canonical in *. cbn [view lf_db] in Hf. by rewrite Hf. }
  destruct Hstep as [connected ctx req w|connected ctx id w|connected path id w|e w|d' dt sched w Hdrt Hf Hc Hdt].
  - apply Hkeep, create_no_new_rides.
  - apply Hkeep, cancel_no_new_rides.
  - apply Hkeep, progress_no_new_rides.
  - destruct (AutoAssign_advances (S := S) e w Hd) as (Hd' & _ & Hf & _). cbn [view lf_db] in Hd', Hf. split_and!; [done| |].
    + unfold canonical. by rewrite Hf.
    + destruct (auto_assign_cases e w Hcan) as [->|Haa]; [done|]. by apply (auto_assigned_apart e (w_now w) (w_db w)).
  - cbn [w_db with_sched with_now with_db]. split_and!; [|done|].
    + intros id r Hr. rewrite Hdrt in Hr. destruct (Hd id r Hr). split; [done|]. by eapply ride_ok_fleet.
    + intros i1 i2 r1 r2. rewrite Hdrt. apply Ha.
Qed.
End Auto.

(** ** Concrete runs *)

Section Witnesses.
#[local] Existing Instance test_runtime.
#[local] Existing Instance test_server.

Definition whole (f : float64) : Z := match trunc_int f with Some z => z | None => 0 end.

(** A taxicab distance in whole degrees. *)
#[local] Instance test_gis : PostGis := {| st_distance := fun p q => Z.abs (whole p.1 - whole q.1) + Z.abs (whole p.2 - whole q.2) |}.

Definition at_ (x y : Z) : point := (float_of_Z x, float_of_Z y).

Definition ride (id user : string) (wheelchair : bool) : DRTRequest :=
  mkDrt id user (at_ 50 4) (at_ 51 4) "" "" 2 wheelchair None None None "requested" 5.

Definition ride_db : DrtDB := mkDrtDB
  (<["q1" := ride "q1" "ann" false]> (<["q2" := ride "q2" "bob" true]> ∅))
  (<["v1" := mkVehicle "active" false]> (<["v2" := mkVehicle "active" true]> (<["v3" := mkVehicle "maintenance" true]> ∅)))
  (<["v1" := at_ 51 4]> (<["v2" := at_ 60 4]> ∅))
  (<["j" := mkJob "j" "dan" (Some "v3") "R10" None None "assigned" 0 None]> ∅).

Definition ride_world : World DrtDB nat := mkWorld ride_db 0%nat [] 1000 0 [] [] [].

Lemma ride_db_ok : rides_ok ride_db.
Proof.
  intros id r Hr. unfold ride_db in Hr. cbn [drt] in Hr.
  apply lookup_insert_Some in Hr as [[<- <-]|[_ Hr]]; [|apply lookup_insert_Some in Hr as [[<- <-]|[_ Hr]]; [|by rewrite lookup_empty in Hr]];
    (split; [done|]); split; simpl; (done || lia || (by apply (bool_decide_unpack _)) || (unfold served; rewrite !elem_of_cons, elem_of_nil; naive_solver)).
Qed.

Lemma ride_db_canonical : canonical ride_db.
Proof.
  intros v [x Hx]. unfold ride_db in Hx. cbn [fleet] in Hx.
  repeat (apply lookup_insert_Some in Hx as [[<- _]|[_ Hx]]; [done|]). by rewrite lookup_empty in Hx.
Qed.

Lemma ride_db_apart : apart ride_db.
Proof.
  intros i1 i2 r1 r2 Hr1 Hr2 R1. unfold ride_db in Hr1. cbn [drt] in Hr1.
  apply lookup_insert_Some in Hr1 as [[_ <-]|[_ Hr1]]; [done|]. apply lookup_insert_Some in Hr1 as [[_ <-]|[_ Hr1]]; [done|].
  by rewrite lookup_empty in Hr1.
Qed.

Definition event_of (id user : string) : DRTRequested := mkRequested id user (float_of_Z 50) (float_of_Z 4).
Definition after_auto : World DrtDB nat := (AutoAssign (event_of "q1" "ann") ride_world).2.

Lemma rides_live_on_witness :
  exists r, drt (w_db after_auto) !! "q1" = Some r /\ dr_status r = "assigned" /\ ride_ok (fleet (w_db after_auto)) r.
Proof.
  destruct (rides_live_on (mkSys ride_world []) (mkSys after_auto [])) as [_ Hok].
  - split; [apply ride_db_ok|]. intros q v Hin. exfalso. by apply elem_of_nil in Hin.
  - apply rtc_once. apply (StAuto (event_of "q1" "ann") (mkSys ride_world [])).
  - exists (with_assignment "v1" None 1000 (ride "q1" "ann" false)). split; [vm_compute; reflexivity|]. split; [reflexivity|].
    apply (Hok "q1"). vm_compute. reflexivity.
Defined.

Lemma assign_check_exact_witness : ~ occupied "v2" 1000 ride_db.
Proof.
  destruct (assign_check_exact "q2" "v2" "q2" "v2" ride_world) as [Hok _]; [reflexivity..|].
  destruct Hok as (r & x & _ & _ & _ & Hfree); [vm_compute; reflexivity|exact Hfree].
Defined.

Lemma drt_requests_hidden_witness :
  w_db (CancelDRTRequest true (claims_of "eve" []) "q1" ride_world).2 = ride_db.
Proof.
  apply (drt_requests_hidden true (claims_of "eve" []) "q1" (ride "q1" "ann" false) ride_world); [vm_compute; reflexivity..|apply ride_db_ok].
Defined.

Lemma drt_list_own_witness :
  exists rs, (ListDRTRequests true (claims_of "ann" []) "bob" ride_world).1 = mkResponse 200 (JObj [("requests", JList (map drt_json rs))]) /\
    forall r, r ∈ rs -> dr_user r = "ann".
Proof. apply (drt_list_own true (claims_of "ann" []) "bob" ride_world); [vm_compute; reflexivity|reflexivity|discriminate|reflexivity]. Defined.

Lemma auto_assign_all_or_nothing_witness :
  w_db after_auto = ride_db \/ auto_assigned (event_of "q1" "ann") 1000 ride_db (w_db after_auto).
Proof. apply (auto_assign_all_or_nothing (event_of "q1" "ann") ride_world), ride_db_canonical. Defined.

Lemma auto_assign_finds_vehicle_witness : (AutoAssign (event_of "q2" "bob") ride_world).1 = Ok tt.
Proof.
  pose proof (auto_assign_finds_vehicle (event_of "q2" "bob") (ride "q2" "bob" true) ride_world) as Hf.
  destruct (AutoAssign (event_of "q2" "bob") ride_world) as [res w'].
  apply Hf; [apply ride_db_canonical|reflexivity|vm_compute; reflexivity|discriminate|reflexivity|vm_compute; discriminate].
Defined.

Lemma auto_rides_apart_witness : apart (w_db after_auto).
Proof.
  apply (auto_rides_apart ride_world); [apply ride_db_ok|apply ride_db_canonical|apply ride_db_apart|].
  apply rtc_once. apply (AsEvent (event_of "q1" "ann") ride_world).
Defined.

(** *** What the code allows *)

Definition both_assigned (d : DrtDB) : Prop :=
  exists r1 r2 v, drt d !! "q1" = Some r1 /\ drt d !! "q2" = Some r2 /\ riding r1 = true /\ riding r2 = true /\
    dr_vehicle r1 = Some v /\ dr_vehicle r2 = Some v.

(** Two events whose picks both run before either assignment book one vehicle:
    the assignment does not look at other rides. *)
Theorem racing_events_share_vehicle :
  (PickVehicle (S := nat) (float_of_Z 60) (float_of_Z 4) false ride_world).1 = Ok "v2" /\
  both_assigned (w_db (auto_finish (event_of "q2" "bob") "v2" (auto_finish (event_of "q1" "ann") "v2" ride_world).2).2).
Proof.
  split; [vm_compute; reflexivity|].
  exists (with_assignment "v2" None 1000 (ride "q1" "ann" false)), (with_assignment "v2" None 1000 (ride "q2" "bob" true)), "v2".
  vm_compute. auto 10.
Qed.

(** Manual assignment takes a vehicle that is on a ride, or out of service. *)
Theorem manual_assignment_unchecked :
  let w1 := (AssignDRTRequest true "q1" (Some ("v2", "")) ride_world).2 in
  status (AssignDRTRequest true "q2" (Some ("v2", "")) w1).1 = 200 /\
  both_assigned (w_db (AssignDRTRequest true "q2" (Some ("v2", "")) w1).2) /\
  status (AssignDRTRequest true "q1" (Some ("v4", ""))
    (with_db (mkDrtDB (drt ride_db) (<["v4" := mkVehicle "maintenance" true]> (fleet ride_db)) (latest ride_db) ∅) ride_world)).1 = 200.
Proof.
  split; [vm_compute; reflexivity|]. split; [|vm_compute; reflexivity].
  exists (with_assignment "v2" None 1000 (ride "q1" "ann" false)), (with_assignment "v2" None 1000 (ride "q2" "bob" true)), "v2".
  vm_compute. auto 10.
Qed.

(** A cancellation whose ride starts between its read and its update answers
    500, not 409. *)
Theorem cancel_race_is_500 :
  let w1 := (AssignDRTRequest true "q1" (Some ("v2", "")) ride_world).2 in
  let w2 := (ProgressDRTRequest true "/v1/drt/requests/q1/start" "q1" w1).2 in
  cancellable "assigned" = true /\ status (cancel_drt "q1" w2).1 = 500 /\
  status (CancelDRTRequest true (claims_of "ann" []) "q1" w2).1 = 409.
Proof. vm_compute. auto. Qed.

(** A failed event is left uncommitted, but the next event's commit passes it:
    the ride stays unassigned. *)
Theorem failed_event_skipped :
  let w := (consume_drts 0 [DrtRequested (event_of "q1" "ann"); DrtRequested (event_of "q2" "bob")] (with_sched [Lost] ride_world)).2 in
  w_led w = 2%nat /\ drt (w_db w) !! "q1" = Some (ride "q1" "ann" false) /\ (dr_status <$> drt (w_db w) !! "q2") = Some "assigned".
Proof. vm_compute. auto. Qed.
End Witnesses.
