(* ===== verification/Gdpr.v ===== *)
(** * Data-subject rights

    Models services/go/citizen-api/internal/handlers/me.go: the export of a
    rider's rows and their erasure, over the tables of the ride requests
    ([Drt.DrtDB]) and of the commerce service ([CommerceDb.DB]).  The theorems
    say that an erasure is one change of all seven tables or none, what it
    leaves of the rider, and that it disturbs no other rider and none of the
    invariants the commerce handlers rely on. *)

From S2P Require Import Prelude Codec World Float64 Auth Ledger CommerceDb Payments PaymentTheorems.
From S2P Require Import LoyaltyTheorems Refunds Billing Entitlements System InfraDb Dispatch Drt.

Open Scope Z_scope.
Open Scope go_scope.

Record RiderDB : Type := mkRiderDB { rides : gmap string DRTRequest; commerce : DB }.

Abbreviation rider_stmt A := (RiderDB -> result (A * (RiderDB -> RiderDB))).

(** [erasureMarker]. *)
Definition erasureMarker (sub salt : string) : string :=
  "erased:" +:+ hex_encode (take 8 (Sha256.Sum256 (string_bytes (salt +:+ "|" +:+ sub)))).

(** ** The export *)

Definition ride_export (r : DRTRequest) : json :=
  JObj [("id", JStr (dr_id r)); ("status", JStr (dr_status r)); ("pickup_label", JStr (dr_pickup_label r));
        ("dropoff_label", JStr (dr_dropoff_label r)); ("passengers", JFloat (float_of_Z (dr_passengers r)));
        ("requires_wheelchair", JBool (dr_wheelchair r)); ("vehicle_id", jopt_str (dr_vehicle r));
        ("requested_at", JTime (dr_requested r)); ("assigned_at", match dr_assigned r with Some t => JTime t | None => JNull end)].

(** A JSON number decodes to a float64. *)
Definition jopt_int (o : option Z) : json := match o with Some z => JFloat (float_of_Z z) | None => JNull end.

Definition payment_export (p : Payment) : json :=
  JObj [("id", JStr (p_id p)); ("amount_minor", JFloat (float_of_Z (p_amount p))); ("charged_minor", jopt_int (p_charged p));
        ("refunded_minor", JFloat (float_of_Z (p_refunded p))); ("currency", JStr (p_currency p)); ("status", JStr (p_status p));
        ("created_at", JTime (p_created p)); ("refunded_at", match p_refunded_at p with Some t => JTime t | None => JNull end)].

Definition account_export (b : LoyaltyBalance) : json :=
  JObj [("points", JFloat (float_of_Z (lb_points b))); ("updated_at", JTime (lb_updated b))].

Definition entry_export (e : LoyaltyEntry) : json :=
  JObj [("delta", JFloat (float_of_Z (le_delta e))); ("reason", JStr (le_reason e)); ("created_at", JTime (le_created e))].

Definition redemption_export (r : Redemption) : json :=
  JObj [("offer_id", JStr (rd_offer r)); ("points_spent", JFloat (float_of_Z (rd_points r))); ("status", JStr (rd_status r));
        ("created_at", JTime (rd_created r))].

Definition entitlement_export (e : Entitlement) : json :=
  JObj [("product_id", JStr (en_product e)); ("valid_from", JTime (en_from e)); ("valid_to", JTime (en_to e)); ("created_at", JTime (en_created e))].

(** [SELECT jsonb_agg(...) FROM (... WHERE rider = $1 ORDER BY at DESC)],
    decoded, with no rows as the empty list. *)
Definition section {V} (rider : V -> string) (at_ : V -> Z) (f : V -> json) (sub : string) (m : gmap string V) : json :=
  JList (map f (order_asc (fun v => - at_ v) (filter (fun v => rider v = sub) (rows m)))).

Definition sections : list (string * (string -> RiderDB -> json)) := [
  ("drt_requests", fun sub d => section dr_user dr_requested ride_export sub (rides d));
  ("fare_payments", fun sub d => section p_rider p_created payment_export sub (fare_payments (commerce d)));
  ("loyalty_account", fun sub d => section lb_rider lb_updated account_export sub (loyalty_accounts (commerce d)));
  ("loyalty_ledger", fun sub d => section le_rider le_created entry_export sub (loyalty_ledger (commerce d)));
  ("loyalty_redemptions", fun sub d => section rd_rider rd_created redemption_export sub (loyalty_redemptions (commerce d)));
  ("entitlements", fun sub d => section en_rider en_to entitlement_export sub (rider_entitlements (commerce d)))].

(** ** The updates of an erasure *)

Definition ride_to (sub : string) (r : DRTRequest) : DRTRequest :=
  mkDrt (dr_id r) sub (dr_pickup r) (dr_dropoff r) (dr_pickup_label r) (dr_dropoff_label r) (dr_passengers r)
    (dr_wheelchair r) (dr_vehicle r) (dr_driver r) (dr_assigned r) (dr_status r) (dr_requested r).
Definition payment_to (sub : string) (p : Payment) : Payment :=
  mkPayment (p_id p) sub (p_amount p) (p_charged p) (p_currency p) (p_mojaloop p) (p_tb p) (p_key p) (p_status p)
    (p_refunded p) (p_refunded_at p) (p_created p).
Definition account_to (sub : string) (b : LoyaltyBalance) : LoyaltyBalance := mkLoyaltyBalance sub (lb_points b) (lb_updated b).
Definition entry_to (sub : string) (e : LoyaltyEntry) : LoyaltyEntry :=
  mkLoyaltyEntry (le_id e) sub (le_delta e) (le_reason e) (le_ref e) (le_created e).
Definition redemption_to (sub : string) (r : Redemption) : Redemption :=
  mkRedemption (rd_id r) sub (rd_offer r) (rd_points r) (rd_key r) (rd_status r) (rd_created r).
Definition entitlement_to (sub : string) (e : Entitlement) : Entitlement :=
  mkEntitlement (en_id e) sub (en_product e) (en_from e) (en_to e) (en_payer e) (en_created_by e) (en_created e).

Section Tables.
Context {V : Type} (rider : V -> string) (to : string -> V -> V).

(** [SET rider = $2 WHERE rider = $1] on one row, and on a table whose key is
    the row's id. *)
Definition relabel_row (sub marker : string) (v : V) : V := if decide (rider v = sub) then to marker v else v.
Definition relabel (sub marker : string) (m : gmap string V) : gmap string V := relabel_row sub marker <$> m.
Definition labelled (sub : string) (m : gmap string V) : Z := Z.of_nat (length (filter (fun v => rider v = sub) (rows m))).
End Tables.

(** The same where the rider is the primary key. *)
Definition rekey {V} (f : V -> V) (sub marker : string) (m : gmap string V) : result (Z * gmap string V) :=
  match m !! sub with
  | None => Ok (0, m)
  | Some v =>
      if decide (marker = sub) then Ok (1, <[sub := f v]> m)
      else match m !! marker with
           | Some _ => Err (PgError unique_violation)
           | None => Ok (1, <[marker := f v]> (delete sub m))
           end
  end.

Definition rekeyed {V} (f : V -> V) (sub marker : string) (m : gmap string V) : gmap string V :=
  match rekey f sub marker m with Ok (_, m') => m' | Err _ => m end.

Definition set_tables (f : DB -> DB) (d : RiderDB) : RiderDB := mkRiderDB (rides d) (f (commerce d)).

Definition with_payments (m : gmap string Payment) (d : DB) : DB :=
  mkDB m (rider_accounts d) (fare_products d) (rider_entitlements d) (loyalty_accounts d) (loyalty_ledger d)
    (marketplace_offers d) (loyalty_redemptions d) (billing_accounts d) (billing_charges d) (invoices d).
Definition with_wallets (m : gmap string Z) (d : DB) : DB :=
  mkDB (fare_payments d) m (fare_products d) (rider_entitlements d) (loyalty_accounts d) (loyalty_ledger d)
    (marketplace_offers d) (loyalty_redemptions d) (billing_accounts d) (billing_charges d) (invoices d).
Definition with_entitlements (m : gmap string Entitlement) (d : DB) : DB :=
  mkDB (fare_payments d) (rider_accounts d) (fare_products d) m (loyalty_accounts d) (loyalty_ledger d)
    (marketplace_offers d) (loyalty_redemptions d) (billing_accounts d) (billing_charges d) (invoices d).
Definition with_points (m : gmap string LoyaltyBalance) (d : DB) : DB :=
  mkDB (fare_payments d) (rider_accounts d) (fare_products d) (rider_entitlements d) m (loyalty_ledger d)
    (marketplace_offers d) (loyalty_redemptions d) (billing_accounts d) (billing_charges d) (invoices d).
Definition with_entries (m : gmap string LoyaltyEntry) (d : DB) : DB :=
  mkDB (fare_payments d) (rider_accounts d) (fare_products d) (rider_entitlements d) (loyalty_accounts d) m
    (marketplace_offers d) (loyalty_redemptions d) (billing_accounts d) (billing_charges d) (invoices d).
Definition with_redemptions (m : gmap string Redemption) (d : DB) : DB :=
  mkDB (fare_payments d) (rider_accounts d) (fare_products d) (rider_entitlements d) (loyalty_accounts d) (loyalty_ledger d)
    (marketplace_offers d) m (billing_accounts d) (billing_charges d) (invoices d).

Section Updates.
Variables (sub marker : string).

Definition erase_rides : rider_stmt Z := fun d =>
  Ok (labelled dr_user sub (rides d), fun d => mkRiderDB (relabel dr_user ride_to sub marker (rides d)) (commerce d)).
Definition erase_payments : rider_stmt Z := fun d =>
  Ok (labelled p_rider sub (fare_payments (commerce d)),
      set_tables (fun c => with_payments (relabel p_rider payment_to sub marker (fare_payments c)) c)).
Definition erase_points : rider_stmt Z := fun d =>
  match rekey (account_to marker) sub marker (loyalty_accounts (commerce d)) with
  | Err e => Err e
  | Ok (n, _) => Ok (n, set_tables (fun c => with_points (rekeyed (account_to marker) sub marker (loyalty_accounts c)) c))
  end.
Definition erase_entries : rider_stmt Z := fun d =>
  Ok (labelled le_rider sub (loyalty_ledger (commerce d)),
      set_tables (fun c => with_entries (relabel le_rider entry_to sub marker (loyalty_ledger c)) c)).
Definition erase_redemptions : rider_stmt Z := fun d =>
  Ok (labelled rd_rider sub (loyalty_redemptions (commerce d)),
      set_tables (fun c => with_redemptions (relabel rd_rider redemption_to sub marker (loyalty_redemptions c)) c)).
Definition erase_wallet : rider_stmt Z := fun d =>
  match rekey id sub marker (rider_accounts (commerce d)) with
  | Err e => Err e
  | Ok (n, _) => Ok (n, set_tables (fun c => with_wallets (rekeyed id sub marker (rider_accounts c)) c))
  end.
Definition erase_entitlements : rider_stmt Z := fun d =>
  Ok (labelled en_rider sub (rider_entitlements (commerce d)),
      set_tables (fun c => with_entitlements (relabel en_rider entitlement_to sub marker (rider_entitlements c)) c)).

Definition updates : list (string * rider_stmt Z) := [
  ("drt_requests", erase_rides); ("fare_payments", erase_payments); ("loyalty_accounts", erase_points);
  ("loyalty_ledger", erase_entries); ("loyalty_redemptions", erase_redemptions); ("rider_accounts", erase_wallet);
  ("entitlements", erase_entitlements)].
End Updates.

(** ** The handlers *)

Section Handlers.
Context `{Runtime} {S : Type}.

Abbreviation GM := (M RiderDB S).

Definition needs_db (connected : bool) (k : GM response) : GM response :=
  if connected then k else reply_error 503 "database not configured (DATABASE_URL unset)".

Fixpoint export_loop (sub : string) (ss : list (string * (string -> RiderDB -> json))) (export : list (string * json)) : GM response :=
  match ss with
  | [] => reply 200 (JObj export)
  | (name, query) :: ss =>
      try! v := db_query (fun d => Ok (query sub d)) catch e => infra_internal ("export section " +:+ name) e in
      export_loop sub ss (app export [(name, v)])
  end.

Definition ExportMyData (connected : bool) (ctx : claims) : GM response :=
  needs_db connected (
    let sub := Subject ctx in
    if bool_decide (sub = "") then reply_error 401 "authenticated subject required"
    else
      let! now := gets w_now in
      export_loop sub sections [("subject", JStr sub); ("generated_at", JTime now)]).

(** The updates in one transaction, then the commit. *)
Fixpoint erase_loop (us : list (string * rider_stmt Z)) (tx : Tx RiderDB) (affected : list (string * json)) : GM (result (list (string * json))) :=
  match us with
  | [] =>
      try! _ := commit tx catch e => gret (Err e) in
      gret (Ok affected)
  | (name, u) :: us =>
      try! (n, tx) := tx_exec tx u catch e => gret (Err e) in
      erase_loop us tx (app affected [(name, JInt n)])
  end.

Definition EraseMyData (connected : bool) (ctx : claims) : GM response :=
  needs_db connected (
    let sub := Subject ctx in
    if bool_decide (sub = "") then reply_error 401 "authenticated subject required"
    else if bool_decide (getenv "GDPR_ERASURE_SALT" = "") then reply_error 503 "erasure is not configured on this deployment"
    else
      let marker := erasureMarker sub (getenv "GDPR_ERASURE_SALT") in
      try! tx := begin catch e => infra_internal "begin erasure transaction" e in
      try! affected := erase_loop (updates sub marker) tx [] catch e => infra_internal "erase" e in
      let! now := gets w_now in
      do! publish "gdpr.erasure.completed" [("marker", JStr marker); ("erased_at", JTime now); ("row_counts", JObj affected)] in
      reply 200 (JObj [("erased", JBool true); ("marker", JStr marker); ("row_counts", JObj affected)])).
End Handlers.

(** ** What an erasure does *)

Section Erased.
Variables (sub marker : string).

(** All seven tables at once. *)
Definition erased (d : RiderDB) : RiderDB :=
  let c := commerce d in
  mkRiderDB (relabel dr_user ride_to sub marker (rides d))
    (mkDB (relabel p_rider payment_to sub marker (fare_payments c)) (rekeyed id sub marker (rider_accounts c)) (fare_products c)
      (relabel en_rider entitlement_to sub marker (rider_entitlements c)) (rekeyed (account_to marker) sub marker (loyalty_accounts c))
      (relabel le_rider entry_to sub marker (loyalty_ledger c)) (marketplace_offers c)
      (relabel rd_rider redemption_to sub marker (loyalty_redemptions c)) (billing_accounts c) (billing_charges c) (invoices c)).

(** The marker is free, or there is nothing to move to it. *)
Definition vacant {V} (m : gmap string V) : Prop := m !! sub = None \/ m !! marker = None \/ marker = sub.
Definition erasable (d : RiderDB) : Prop := vacant (loyalty_accounts (commerce d)) /\ vacant (rider_accounts (commerce d)).

Lemma rekey_cases {V} (f : V -> V) (m : gmap string V) :
  (vacant m /\ exists n, rekey f sub marker m = Ok (n, rekeyed f sub marker m)) \/ (~ vacant m /\ rekey f sub marker m = Err (PgError unique_violation)).
Proof.
  unfold rekeyed, vacant, rekey. destruct (m !! sub) as [v|] eqn:E1; [|left; split; [by left|by eexists]].
  destruct (decide (marker = sub)); [left; split; [by do 2 right|by eexists]|].
  destruct (m !! marker) eqn:E2; [right; split; [naive_solver|done]|left; split; [by right; left|by eexists]].
Qed.

(** The updates one after another on a state. *)
Fixpoint apply_all (us : list (string * rider_stmt Z)) (d : RiderDB) : option RiderDB :=
  match us with
  | [] => Some d
  | (_, u) :: us => match u d with Ok (_, g) => apply_all us (g d) | Err _ => None end
  end.

Lemma apply_updates d :
  (erasable d /\ apply_all (updates sub marker) d = Some (erased d)) \/ (~ erasable d /\ apply_all (updates sub marker) d = None).
Proof.
  unfold updates, erasable. cbn [apply_all erase_rides erase_payments]. unfold erase_points. cbn [commerce rides set_tables with_payments loyalty_accounts].
  destruct (rekey_cases (account_to marker) (loyalty_accounts (commerce d))) as [[H1 [n E]]|[H1 E]]; rewrite E; [|right; split; [tauto|done]].
  cbn [apply_all erase_entries erase_redemptions]. unfold erase_wallet.
  cbn [commerce rides set_tables with_payments with_points with_entries with_redemptions rider_accounts].
  destruct (rekey_cases id (rider_accounts (commerce d))) as [[H2 [n' E']]|[H2 E']]; rewrite E'; [left; split; [done|reflexivity]|right; split; [tauto|done]].
Qed.
End Erased.

Section Proofs.
Context `{Runtime} {S : Type}.
Implicit Types w : World RiderDB S.

(** The loop applies every update or none. *)
Lemma wp_erase_loop us tx affected w :
  wp (erase_loop us tx affected) (fun r w' =>
    (w_db w' = w_db w /\ (exists e, r = Err e) \/ apply_all us (tx (w_db w)) = Some (w_db w')) /\ w_led w' = w_led w) w.
Proof.
  revert tx affected w. induction us as [|[name u] us IH]; intros tx affected w; cbn [erase_loop apply_all].
  - apply wp_bind, wp_commit; intros; apply wp_ret; split; cbn [w_db with_db with_sched]; try done; [by right|by right|left; split; [done|by eexists]].
  - apply wp_bind, wp_tx_exec; intros s.
    + intros n g E. cbn [w_db with_sched] in *. rewrite E. eapply wp_mono; [|apply IH]. intros r w' Hr. exact Hr.
    + intros e E. apply wp_ret. split; [left; split; [done|by eexists]|done].
    + apply wp_ret. split; [left; split; [done|by eexists]|done].
Qed.

Lemma wp_erase connected ctx w :
  let sub := Subject ctx in let marker := erasureMarker sub (getenv "GDPR_ERASURE_SALT") in
  wp (EraseMyData connected ctx) (fun r w' =>
    w_led w' = w_led w /\ (w_db w' = w_db w /\ status r <> 200 \/
    erasable sub marker (w_db w) /\ w_db w' = erased sub marker (w_db w))) w.
Proof.
  intros sub marker. unfold EraseMyData, needs_db. destruct connected; [|apply wp_ret; split; [done|by left]]. fold sub. fold marker.
  case_bool_decide; [apply wp_ret; split; [done|by left]|]. case_bool_decide; [apply wp_ret; split; [done|by left]|].
  apply wp_bind, wp_begin; intros s; [|apply wp_ret; split; [done|by left]]. apply wp_bind.
  eapply wp_mono; [|apply wp_erase_loop]. intros r w' [Hw Hl]. cbn [w_db w_led with_sched] in Hw, Hl.
  assert (w_db w' = w_db w /\ (exists e, r = Err e) \/ erasable sub marker (w_db w) /\ w_db w' = erased sub marker (w_db w)) as Hw'.
  { destruct Hw as [Hw|Hw]; [by left|right]. destruct (apply_updates sub marker (w_db w)) as [[He E]|[_ E]]; rewrite E in Hw; [|done].
    by injection Hw as <-. }
  clear Hw. destruct r as [affected|e].
  - destruct Hw' as [[_ [e [=]]]|Hw']. apply wp_bind, wp_gets, wp_bind, wp_publish; intros; apply wp_ret; (split; [exact Hl|]); right; exact Hw'.
  - apply wp_ret. split; [done|]. destruct Hw' as [[E _]|?]; [by left|by right].
Qed.
End Proofs.

(** *** What is left of a rider *)

(** A row or a key of one of the seven tables carries the subject. *)
Definition linked (sub : string) (d : RiderDB) : Prop :=
  let c := commerce d in
  (exists k r, rides d !! k = Some r /\ dr_user r = sub) \/ (exists k p, fare_payments c !! k = Some p /\ p_rider p = sub) \/
  (exists k b, loyalty_accounts c !! k = Some b /\ (k = sub \/ lb_rider b = sub)) \/ (exists k e, loyalty_ledger c !! k = Some e /\ le_rider e = sub) \/
  (exists k r, loyalty_redemptions c !! k = Some r /\ rd_rider r = sub) \/ is_Some (rider_accounts c !! sub) \/
  (exists k e, rider_entitlements c !! k = Some e /\ en_rider e = sub).

(** Everything the tables hold of a rider. *)
Definition holdings (rider : string) (d : RiderDB) :=
  let c := commerce d in
  (filter (fun kv => dr_user kv.2 = rider) (rides d), filter (fun kv => p_rider kv.2 = rider) (fare_payments c),
   loyalty_accounts c !! rider, filter (fun kv => le_rider kv.2 = rider) (loyalty_ledger c),
   filter (fun kv => rd_rider kv.2 = rider) (loyalty_redemptions c), rider_accounts c !! rider,
   filter (fun kv => en_rider kv.2 = rider) (rider_entitlements c)).

(** The key of a balance is its rider. *)
Definition balances_keyed (d : RiderDB) : Prop := map_Forall (fun k b => lb_rider b = k) (loyalty_accounts (commerce d)).

Section Relabel.
Context {V : Type} (rider : V -> string) (to : string -> V -> V) (Hto : forall s v, rider (to s v) = s) (sub marker : string).

Lemma relabel_lookup (m : gmap string V) k v' :
  relabel rider to sub marker m !! k = Some v' <-> exists v, m !! k = Some v /\ v' = relabel_row rider to sub marker v.
Proof. unfold relabel. rewrite lookup_fmap_Some. naive_solver. Qed.

Lemma relabel_unlinked (m : gmap string V) k v : marker <> sub -> relabel rider to sub marker m !! k = Some v -> rider v <> sub.
Proof using Hto.
  intros Hne (v0 & _ & ->)%relabel_lookup. unfold relabel_row. case_decide; [by rewrite Hto|done].
Qed.

Lemma relabel_other (m : gmap string V) r : r <> sub -> r <> marker ->
  filter (fun kv => rider kv.2 = r) (relabel rider to sub marker m) = filter (fun kv => rider kv.2 = r) m.
Proof using Hto.
  intros H1 H2. apply map_eq. intros k. apply option_eq. intros v. rewrite !map_lookup_filter_Some. cbn [snd]. rewrite relabel_lookup.
  unfold relabel_row. split.
  - intros [(v0 & Hv & ->) Hr]. case_decide; [rewrite Hto in Hr; congruence|done].
  - intros [Hv Hr]. split; [|done]. exists v. split; [done|]. by rewrite decide_False by congruence.
Qed.
End Relabel.

Section Rekey.
Context {V : Type} (f : V -> V) (sub marker : string).

Lemma rekeyed_other (m : gmap string V) r : r <> sub -> r <> marker -> rekeyed f sub marker m !! r = m !! r.
Proof.
  intros H1 H2. unfold rekeyed, rekey. destruct (m !! sub); [|done]. case_decide; [by rewrite lookup_insert_ne|].
  destruct (m !! marker); [done|]. by rewrite lookup_insert_ne, lookup_delete_ne.
Qed.

Lemma rekeyed_sub (m : gmap string V) : marker <> sub -> vacant sub marker m -> rekeyed f sub marker m !! sub = None.
Proof.
  intros Hne Hv. unfold rekeyed, rekey. destruct (m !! sub) as [v|] eqn:E; [|done]. rewrite decide_False by done.
  destruct Hv as [?|[Hm|?]]; [congruence| |done]. by rewrite Hm, lookup_insert_ne, lookup_delete_eq.
Qed.

Lemma rekeyed_Some (m : gmap string V) k v : marker <> sub -> vacant sub marker m -> rekeyed f sub marker m !! k = Some v ->
  m !! k = Some v /\ k <> sub \/ k = marker /\ exists v0, m !! sub = Some v0 /\ v = f v0.
Proof.
  intros Hne Hv Hk. assert (k <> sub) by (intros ->; by rewrite rekeyed_sub in Hk).
  unfold rekeyed, rekey in Hk. destruct (m !! sub) as [v0|] eqn:E; [|by left]. rewrite decide_False in Hk by done.
  destruct Hv as [?|[Hm|?]]; [congruence| |done]. rewrite Hm in Hk. apply lookup_insert_Some in Hk as [[<- <-]|[_ Hk]]; [right; eauto|left].
  by rewrite lookup_delete_ne in Hk.
Qed.
End Rekey.

Lemma erased_unlinked sub marker d : marker <> sub -> balances_keyed d -> erasable sub marker d -> ~ linked sub (erased sub marker d).
Proof.
  intros Hne Hkey [Hv1 Hv2] Hl. unfold erased in Hl. cbn [rides commerce] in Hl. unfold linked in Hl. cbv zeta in Hl.
  cbn [rides commerce fare_payments loyalty_accounts loyalty_ledger loyalty_redemptions rider_accounts rider_entitlements] in Hl.
  destruct Hl as [(k & r & Hr & E)|[(k & r & Hr & E)|[(k & r & Hr & E)|[(k & r & Hr & E)|[(k & r & Hr & E)|[[a Hr]|(k & r & Hr & E)]]]]]].
  - by apply relabel_unlinked in Hr.
  - by apply relabel_unlinked in Hr.
  - destruct (rekeyed_Some _ _ _ _ _ _ Hne Hv1 Hr) as [[Hr' Hk]|(-> & v0 & Hr' & ->)].
    + destruct E as [?|E]; [done|]. specialize (Hkey k r Hr'). cbn beta in Hkey. congruence.
    + destruct E as [?|E]; [done|]. cbn in E. done.
  - by apply relabel_unlinked in Hr.
  - by apply relabel_unlinked in Hr.
  - by rewrite rekeyed_sub in Hr.
  - by apply relabel_unlinked in Hr.
Qed.

Lemma erased_holdings sub marker d r : r <> sub -> r <> marker -> holdings r (erased sub marker d) = holdings r d.
Proof.
  intros H1 H2. unfold holdings, erased. cbn [rides commerce fare_payments loyalty_accounts loyalty_ledger loyalty_redemptions rider_accounts rider_entitlements].
  rewrite !relabel_other, !rekeyed_other by done. done.
Qed.

(** *** The books under an erasure *)

Lemma relabel_fmap {V} (rider : V -> string) to sub marker (P : string -> V -> Prop) (m : gmap string V) :
  (forall k v, P k v -> P k (to marker v)) -> map_Forall P m -> map_Forall P (relabel rider to sub marker m).
Proof.
  intros Hp Hm k v' (v & Hv & ->)%relabel_lookup. specialize (Hm k v Hv). unfold relabel_row. case_decide; auto.
Qed.

Lemma erased_wallets sub marker d : marker <> sub -> erasable sub marker d ->
  wallets_ok (commerce d) -> wallets_ok (commerce (erased sub marker d)).
Proof.
  intros Hne [_ Hv] Hok s a Hs. cbn [commerce erased rider_accounts] in Hs.
  assert (forall s a, rekeyed id sub marker (rider_accounts (commerce d)) !! s = Some a ->
    exists s0, rider_accounts (commerce d) !! s0 = Some a /\ (s0 = s /\ s <> sub \/ s = marker /\ s0 = sub)) as Hfrom.
  { intros s1 a1 Hs1. destruct (rekeyed_Some _ _ _ _ _ _ Hne Hv Hs1) as [[? ?]|(-> & v0 & ? & ->)]; eauto 10. }
  destruct (Hfrom s a Hs) as (s0 & Hs0 & Hc). destruct (Hok s0 a Hs0) as [Hge Huniq]. split; [done|]. intros s' Hs'.
  cbn [commerce erased rider_accounts] in Hs'. destruct (Hfrom s' a Hs') as (s1 & Hs1 & Hc1). specialize (Huniq s1 Hs1). naive_solver congruence.
Qed.

Lemma msum_relabel {V} (rider : V -> string) to sub marker (f : string -> V -> Z) (m : gmap string V) :
  msum f (relabel rider to sub marker m) = msum (fun k v => f k (relabel_row rider to sub marker v)) m.
Proof. apply msum_fmap. Qed.

Lemma erased_audited sub marker d r : marker <> sub ->
  audited r (commerce (erased sub marker d)) =
    if decide (r = sub) then 0 else if decide (r = marker) then audited marker (commerce d) + audited sub (commerce d) else audited r (commerce d).
Proof.
  intros Hne. unfold audited. cbn [commerce erased loyalty_ledger]. rewrite msum_relabel. unfold audit_share, relabel_row.
  repeat case_decide; subst; [apply msum_zero; intros|rewrite <- msum_add; apply msum_ext; intros|apply msum_ext; intros];
    repeat first [case_decide|case_bool_decide]; simpl in *; subst; (done || lia || congruence).
Qed.

Lemma erased_points sub marker d r : marker <> sub -> vacant sub marker (loyalty_accounts (commerce d)) ->
  points r (commerce (erased sub marker d)) =
    if decide (r = sub) then 0 else if decide (r = marker) then points marker (commerce d) + points sub (commerce d) else points r (commerce d).
Proof.
  intros Hne Hv. unfold points. cbn [commerce erased loyalty_accounts]. case_decide; [subst; by rewrite rekeyed_sub|].
  case_decide; [subst|by rewrite rekeyed_other]. unfold rekeyed, rekey.
  destruct (loyalty_accounts (commerce d) !! sub) as [b|] eqn:E; [|destruct (loyalty_accounts (commerce d) !! marker); lia].
  rewrite decide_False by done. destruct Hv as [?|[Hm|?]]; [congruence| |done]. rewrite Hm, lookup_insert_eq. simpl. lia.
Qed.

Lemma key_redeemed_relabel sub marker key d :
  key_redeemed key (commerce d) = true -> key_redeemed key (commerce (erased sub marker d)) = true.
Proof.
  unfold key_redeemed. cbn [commerce erased loyalty_redemptions]. intros Hk.
  destruct (find_row (fun r => bool_decide (rd_key r = key)) (loyalty_redemptions (commerce d))) as [r|] eqn:E; [|done].
  apply (find_row_Some (V := Redemption)) in E as [Hr (k & Hrow)].
  destruct (find_row (fun r => bool_decide (rd_key r = key)) (relabel _ _ _ _ _)) eqn:E'; [done|]. exfalso.
  rewrite find_row_None in E'. specialize (E' k (relabel_row rd_rider redemption_to sub marker r)).
  enough (bool_decide (rd_key (relabel_row rd_rider redemption_to sub marker r) = key) = true) as Ht.
  { assert (relabel rd_rider redemption_to sub marker (loyalty_redemptions (commerce d)) !! k =
      Some (relabel_row rd_rider redemption_to sub marker r)) as Hin by (apply relabel_lookup; by exists r).
    specialize (E' Hin). cbn beta in E'. congruence. }
  unfold relabel_row. destruct (decide (rd_rider r = sub)); exact Hr.
Qed.

Lemma erased_loyalty sub marker d : marker <> sub -> erasable sub marker d ->
  loyalty_inv (commerce d) -> loyalty_inv (commerce (erased sub marker d)).
Proof.
  intros Hne [Hv _] (Hp & Ha & Hk). split_and!.
  - intros r. rewrite erased_points by done. repeat case_decide; [lia| |done]. pose proof (Hp marker). pose proof (Hp sub). lia.
  - intros r. rewrite erased_points, erased_audited by done. repeat case_decide; [lia| |done]. pose proof (Ha marker). pose proof (Ha sub). lia.
  - intros k e key He Href. apply key_redeemed_relabel. cbn [commerce erased loyalty_ledger] in He.
    apply relabel_lookup in He as (e0 & He0 & ->). apply (Hk k e0 key He0). revert Href. unfold relabel_row. by case_decide.
Qed.

Section Theorems.
Context `{Runtime}.

Abbreviation marker_of sub := (erasureMarker sub (getenv "GDPR_ERASURE_SALT")).

(** C19: erasure is complete or does not happen.  Whatever fails, the seven
    tables are changed together or not at all; if they are changed, and in
    particular whenever the answer is 200, no row and no key of theirs carries
    the rider's subject any more; and all that the tables hold of any other
    rider is untouched. *)
Theorem erasure_all_or_nothing {S} connected ctx (w : World RiderDB S) :
  marker_of (Subject ctx) <> Subject ctx -> balances_keyed (w_db w) ->
  let '(r, w') := EraseMyData connected ctx w in
  (w_db w' = w_db w /\ status r <> 200 \/ ~ linked (Subject ctx) (w_db w')) /\
  forall rider, rider <> Subject ctx -> rider <> marker_of (Subject ctx) -> holdings rider (w_db w') = holdings rider (w_db w).
Proof.
  intros Hne Hkey. pose proof (wp_erase connected ctx w) as Hw. unfold wp in Hw. cbv zeta in Hw.
  destruct (EraseMyData connected ctx w) as [r w']. cbn [fst snd] in Hw. destruct Hw as [_ [[E Hs]|[He E]]]; rewrite E.
  - split; [by left|done].
  - split; [right; by apply erased_unlinked|]. intros rider H1 H2. by apply erased_holdings.
Qed.

(** The commerce service's part of the world. *)
Definition commerce_view {L} (w : World RiderDB L) : World DB L :=
  mkWorld (commerce (w_db w)) (w_led w) (w_bus w) (w_now w) (w_uuids w) (w_sched w) (w_http w) (w_sent w).

(** C20: erasure keeps the commerce service's books: under any faults, payments
    and their refunds, wallets, invoices, the catalogue, the postings of
    settled fares and the loyalty balances stay consistent, although another
    service rewrites the tables underneath. *)
Theorem erasure_keeps_books `{LedgerSpec L} connected ctx (w : World RiderDB L) :
  marker_of (Subject ctx) <> Subject ctx -> books_ok (commerce_view w) -> loyalty_inv (commerce (w_db w)) ->
  books_ok (commerce_view (EraseMyData connected ctx w).2) /\ loyalty_inv (commerce (w_db (EraseMyData connected ctx w).2)).
Proof.
  intros Hne Hb Hl. pose proof (wp_erase connected ctx w) as Hw. unfold wp in Hw. cbv zeta in Hw. destruct Hw as [El [[E _]|[He E]]].
  { rewrite E. split; [|done]. unfold books_ok, commerce_view in *. cbn [w_db w_led] in *. by rewrite E, El. }
  split; [|rewrite E; by apply erased_loyalty]. unfold books_ok, commerce_view in *. cbn [w_db w_led] in *. rewrite E, El.
  destruct Hb as (Hok & Hp & Hw & Hbill & Ha & [Hc1 Hc2] & Hpost & Hinv). split_and!; try done.
  - by apply relabel_fmap.
  - by apply erased_wallets.
  - split; [done|]. by apply relabel_fmap.
  - split; [|done]. by apply relabel_fmap.
Qed.

Lemma wp_export_loop {S} sub ss export (w : World RiderDB S) :
  wp (export_loop sub ss export) (fun r w' => w_db w' = w_db w /\
    (status r = 200 -> body r = JObj (app export (map (fun q => (q.1, q.2 sub (w_db w))) ss)))) w.
Proof.
  revert export w. induction ss as [|[name query] ss IH]; intros export w; cbn [export_loop map].
  - apply wp_ret. split; [done|]. intros _. by rewrite app_nil_r.
  - apply wp_bind, wp_db_query; intros s; [|by apply wp_ret]. eapply wp_mono; [|apply IH]. cbn [w_db with_sched fst snd].
    intros r w' [Hdb Hr]. split; [done|]. intros Hst. rewrite (Hr Hst), <- app_assoc. done.
Qed.

Lemma section_empty {V} (rider : V -> string) at_ f sub (m : gmap string V) :
  (forall k v, m !! k = Some v -> rider v <> sub) -> section rider at_ f sub m = JList [].
Proof.
  intros Hn. unfold section. destruct (filter (fun v => rider v = sub) (rows m)) as [|v l] eqn:E; [done|].
  assert (v ∈ v :: l) as Hin by (apply elem_of_cons; by left). rewrite <- E in Hin. apply list_elem_of_filter in Hin as [Hr Hin].
  apply elem_of_rows in Hin as [k Hk]. by destruct (Hn k v Hk).
Qed.

(** An export is whole: an answer of 200 holds the six sections as the
    tables have them, whatever fails, and the export changes nothing. *)
Theorem export_never_partial {S} ctx (w : World RiderDB S) :
  let '(r, w') := ExportMyData true ctx w in
  w_db w' = w_db w /\ (status r = 200 -> body r = JObj (("subject", JStr (Subject ctx)) :: ("generated_at", JTime (w_now w)) ::
    map (fun q => (q.1, q.2 (Subject ctx) (w_db w))) sections)).
Proof.
  enough (wp (ExportMyData true ctx) (fun r w' => w_db w' = w_db w /\
    (status r = 200 -> body r = JObj (("subject", JStr (Subject ctx)) :: ("generated_at", JTime (w_now w)) ::
    map (fun q => (q.1, q.2 (Subject ctx) (w_db w))) sections))) w) as Hw by (unfold wp in Hw; by destruct (ExportMyData true ctx w)).
  unfold ExportMyData, needs_db. case_bool_decide; [by apply wp_ret|]. apply wp_bind, wp_gets. eapply wp_mono; [|apply wp_export_loop].
  intros r w' Hr. exact Hr.
Qed.

(** After an erasure there is nothing to export: over the tables an
    answered erasure left, every export that answers 200 has six empty
    sections. *)
Theorem nothing_to_export {S} ctx (w w2 : World RiderDB S) :
  marker_of (Subject ctx) <> Subject ctx -> balances_keyed (w_db w) -> status (EraseMyData true ctx w).1 = 200 ->
  w_db w2 = w_db (EraseMyData true ctx w).2 -> status (ExportMyData true ctx w2).1 = 200 ->
  body (ExportMyData true ctx w2).1 = JObj (("subject", JStr (Subject ctx)) :: ("generated_at", JTime (w_now w2)) ::
    map (fun q => (q.1, JList [])) sections).
Proof.
  intros Hne Hkey Hst Hdb Hst2. pose proof (wp_erase true ctx w) as He. unfold wp in He. cbv zeta in He.
  destruct He as [_ [[_ Hs]|[He E]]]; [done|]. pose proof (erased_unlinked _ _ _ Hne Hkey He) as Hu. rewrite <- E, <- Hdb in Hu.
  unfold ExportMyData, needs_db in *. case_bool_decide as Hsub; [done|]. unfold gbind, gets in *.
  pose proof (wp_export_loop (Subject ctx) sections [("subject", JStr (Subject ctx)); ("generated_at", JTime (w_now w2))] w2) as Hx.
  destruct Hx as [_ Hx]. rewrite (Hx Hst2). unfold linked in Hu. cbv zeta in Hu. cbn [map sections fst snd app].
  rewrite !section_empty; [done|naive_solver..].
Qed.

(** A rider who comes back cannot be erased again.  Once the subject has a
    loyalty or wallet row beside the one an earlier erasure left under his
    marker, every erasure fails and changes nothing, whatever happens. *)
Theorem returning_rider_not_erased {S} connected ctx (w : World RiderDB S) :
  marker_of (Subject ctx) <> Subject ctx ->
  (is_Some (loyalty_accounts (commerce (w_db w)) !! Subject ctx) /\ is_Some (loyalty_accounts (commerce (w_db w)) !! marker_of (Subject ctx)) \/
   is_Some (rider_accounts (commerce (w_db w)) !! Subject ctx) /\ is_Some (rider_accounts (commerce (w_db w)) !! marker_of (Subject ctx))) ->
  let '(r, w') := EraseMyData connected ctx w in status r <> 200 /\ w_db w' = w_db w.
Proof.
  intros Hne Hboth. pose proof (wp_erase connected ctx w) as Hw. unfold wp in Hw. cbv zeta in Hw.
  destruct (EraseMyData connected ctx w) as [r w']. cbn [fst snd] in Hw. destruct Hw as [_ [[? ?]|[[He1 He2] _]]]; [done|exfalso].
  unfold vacant in *. destruct Hboth as [[[? E1] [? E2]]|[[? E1] [? E2]]]; naive_solver congruence.
Qed.
End Theorems.

(** ** Concrete runs *)

Section Witnesses.

Definition salted_runtime : Runtime := {|
  getenv := fun k => if bool_decide (k = "GDPR_ERASURE_SALT") then "pepper" else "";
  uuid_of := uuid_of (Runtime := test_runtime); day_start := day_start (Runtime := test_runtime);
  uint128_string := uint128_string (Runtime := test_runtime) |}.
#[local] Existing Instance salted_runtime.

Definition ann : claims := claims_of "ann" [].
Definition rider_tables : DB :=
  put_rider_account "ann" 1001 (put_loyalty_account (mkLoyaltyBalance "ann" 7 5) (put_loyalty_account (mkLoyaltyBalance "bob" 3 5)
    (put_loyalty_entry (mkLoyaltyEntry "e" "ann" 7 "fare" "fare:p" 5)
      (put_payment (mkPayment "p" "ann" 700 (Some 700) "EUR" None None None "failed" 0 None 5) empty_db)))).

Definition rider_world : World RiderDB simulated := mkWorld (mkRiderDB ∅ rider_tables) (mkSimulated ∅ ∅) [] 1000 0 [] [] [].

Lemma ann_marker_ne : erasureMarker (Subject ann) (getenv "GDPR_ERASURE_SALT") <> Subject ann.
Proof. vm_compute. discriminate. Qed.

Lemma rider_tables_keyed : balances_keyed (w_db rider_world).
Proof. apply (bool_decide_unpack _). vm_compute. exact I. Qed.

Definition erased_world : World RiderDB simulated := (EraseMyData true ann rider_world).2.

Lemma erasure_all_or_nothing_witness : ~ linked "ann" (w_db erased_world).
Proof.
  pose proof (erasure_all_or_nothing true ann rider_world ann_marker_ne rider_tables_keyed) as Hw.
  assert (status (EraseMyData true ann rider_world).1 = 200) as Hs by (vm_compute; reflexivity). unfold erased_world.
  destruct (EraseMyData true ann rider_world) as [r w']. destruct Hw as [[[_ Hn]|Hu] _]; [by destruct Hn|exact Hu].
Defined.

Lemma nothing_to_export_witness :
  body (ExportMyData true ann erased_world).1 = JObj (("subject", JStr "ann") :: ("generated_at", JTime 1000) :: map (fun q => (q.1, JList [])) sections).
Proof. apply (nothing_to_export ann rider_world erased_world ann_marker_ne rider_tables_keyed);
  [vm_compute; reflexivity|reflexivity|vm_compute; reflexivity].
Defined.

(** Ann's balance is read again after her erasure, which opens an account. *)
Definition back_world : World RiderDB simulated :=
  with_db (mkRiderDB ∅ (put_loyalty_account (mkLoyaltyBalance "ann" 0 9) (commerce (w_db erased_world)))) erased_world.

Lemma returning_rider_not_erased_witness : status (EraseMyData true ann back_world).1 = 500 /\ w_db (EraseMyData true ann back_world).2 = w_db back_world.
Proof.
  pose proof (returning_rider_not_erased true ann back_world ann_marker_ne) as Hw.
  assert (status (EraseMyData true ann back_world).1 = 500) as Hs by (vm_compute; reflexivity).
  destruct (EraseMyData true ann back_world) as [r w']. split; [exact Hs|]. apply Hw. left. split; apply (bool_decide_unpack _); vm_compute; exact I.
Defined.

Lemma one_row {V} (k : string) (v : V) (P : string -> V -> Prop) : P k v -> map_Forall P (<[k := v]> (∅ : gmap string V)).
Proof. intros Hp. by apply map_Forall_insert_2, map_Forall_empty. Qed.

Lemma rider_tables_sound : books_ok (commerce_view rider_world) /\ loyalty_inv rider_tables.
Proof.
  split; split_and!.
  - split_and!; simpl.
    + intros k v. by rewrite lookup_empty.
    + vm_compute. done.
    + intros id h. by rewrite lookup_empty.
  - apply one_row. split; [done|]. unfold payment_sound, i64, two63. simpl. split_and!; (lia || done).
  - intros sub a Hs. cbn in Hs. apply lookup_insert_Some in Hs as [[<- <-]|[_ Hs]]; [|by rewrite lookup_empty in Hs].
    split; [lia|]. intros sub' Hs'. cbn in Hs'. apply lookup_insert_Some in Hs' as [[? _]|[_ Hs']]; [done|by rewrite lookup_empty in Hs'].
  - split; apply map_Forall_empty.
  - intros k a Hk. cbn in Hk. by rewrite lookup_empty in Hk.
  - split; apply map_Forall_empty.
  - split; [|apply map_Forall_empty]. apply one_row. intros Hst. unfold paid_status in Hst. naive_solver.
  - intros r. unfold points. cbn. rewrite !lookup_insert, lookup_empty. repeat case_decide; subst; cbn; lia.
  - intros r. unfold points, audited. cbn [loyalty_accounts loyalty_ledger rider_tables put_rider_account put_loyalty_account put_loyalty_entry put_payment empty_db].
    rewrite msum_insert_new, msum_empty by apply lookup_empty. unfold audit_share. cbn. rewrite !lookup_insert, lookup_empty.
    repeat first [case_decide|case_bool_decide]; subst; cbn; (lia || done).
  - intros k e key He. cbn in He. apply lookup_insert_Some in He as [[<- <-]|[_ He]]; [done|by rewrite lookup_empty in He].
Qed.

Lemma erasure_keeps_books_witness : books_ok (commerce_view erased_world) /\ loyalty_inv (commerce (w_db erased_world)).
Proof. apply (erasure_keeps_books true ann rider_world ann_marker_ne); apply rider_tables_sound. Defined.
End Witnesses.
