(* ===== verification/Permify.v ===== *)
(** * Permify authorization checks

    Models src/packages/go-auth/permify.go: the hand-written protobuf encoding
    of permify.v1 CheckRequest and the parser of CheckResponse, on bytes and
    uint64 arithmetic, and the [Require] middleware with its fail-closed
    answers.  The Permify server is a parameter ([GrpcServer]): it answers a
    request it can decode, by the reference decoder of the protobuf wire
    format, according to its relationships, or fails. *)

From Stdlib Require Import Ascii String.
From S2P Require Import Prelude Codec World Auth.

Open Scope Z_scope.
Open Scope go_scope.

(** ** Varints *)

(** [appendVarint]: seven bits a byte, ten bytes for a uint64. *)
Fixpoint varint_loop (fuel : nat) (v : Z) : list Z :=
  match fuel with
  | O => [v mod 256]
  | S fuel => if 128 <=? v then Z.lor (v mod 256) 128 :: varint_loop fuel (Z.shiftr v 7) else [v mod 256]
  end.

Definition appendVarint (b : list Z) (v : Z) : list Z := app b (varint_loop 10 v).

(** [consumeVarint]: the value and the number of bytes. *)
Fixpoint consume_loop (fuel : nat) (i v : Z) (b : list Z) : option (Z * Z) :=
  match fuel, b with
  | S fuel, c :: b =>
      let v := Z.lor v (wrap_u64 (Z.shiftl (Z.land c 127) (7 * i))) in
      if c <? 128 then Some (v, i + 1) else consume_loop fuel (i + 1) v b
  | _, _ => None
  end.

Definition consumeVarint (b : list Z) : result (Z * Z) :=
  match consume_loop 10 0 0 b with Some r => Ok r | None => Err (ErrMsg "invalid varint") end.

Definition consumeTag (b : list Z) : result (Z * Z * Z) :=
  match consumeVarint b with
  | Ok (v, n) => Ok (Z.shiftr v 3, Z.land v 7, n)
  | Err e => Err e
  end.

(** ** The messages *)

Definition pbBytes (field : Z) (b : list Z) : list Z :=
  app (appendVarint (appendVarint [] (Z.lor (Z.shiftl field 3) 2)) (Z.of_nat (length b))) b.
Definition pbString (field : Z) (s : string) : list Z := pbBytes field (string_bytes s).
Definition pbVarint (field v : Z) : list Z := appendVarint (appendVarint [] (Z.shiftl field 3)) v.

Definition permifyCheckDepth : Z := 20.

Definition marshalCheckRequest (tenant entityType entityID permission subjectID : string) : list Z :=
  let entity := app (pbString 1 entityType) (pbString 2 entityID) in
  let subject := app (pbString 1 "user") (pbString 2 subjectID) in
  let metadata := pbVarint 3 permifyCheckDepth in
  app (pbString 1 tenant) (app (pbBytes 2 metadata) (app (pbBytes 3 entity) (app (pbString 4 permission) (pbBytes 5 subject)))).

(** The loop of [parseCheckResponse]; [None] is a loop that did not end. *)
Fixpoint parse_loop (fuel : nat) (b : list Z) : option (result Z) :=
  match fuel with
  | O => None
  | S fuel =>
      match b with
      | [] => Some (Err (ErrMsg "missing `can` field"))
      | _ =>
          match consumeTag b with
          | Err e => Some (Err e)
          | Ok (field, wire, n) =>
              let b := drop (Z.to_nat n) b in
              if wire =? 0 then
                match consumeVarint b with
                | Err e => Some (Err e)
                | Ok (v, m) => if field =? 1 then Some (Ok (wrap_i64 v)) else parse_loop fuel (drop (Z.to_nat m) b)
                end
              else if wire =? 2 then
                match consumeVarint b with
                | Err e => Some (Err e)
                | Ok (l, m) =>
                    let b := drop (Z.to_nat m) b in
                    if Z.of_nat (length b) <? l then Some (Err (ErrMsg "truncated length-delimited field"))
                    else parse_loop fuel (drop (Z.to_nat l) b)
                end
              else Some (Err (ErrMsg ("unsupported wire type " +:+ pretty wire)))
          end
      end
  end.

Definition parseCheckResponse (b : list Z) : result Z :=
  match parse_loop (S (length b)) b with Some r => r | None => Err (ErrMsg "unreachable") end.

(** ** The protobuf wire format, for reference *)

Inductive pb_value : Type := PbVarint (v : Z) | PbBytes (b : list Z).

Fixpoint decode_loop (fuel : nat) (b : list Z) : option (list (Z * pb_value)) :=
  match fuel, b with
  | _, [] => Some []
  | O, _ => None
  | S fuel, _ =>
      match consume_loop 10 0 0 b with
      | None => None
      | Some (tag, n) =>
          let b := drop (Z.to_nat n) b in
          match consume_loop 10 0 0 b with
          | None => None
          | Some (v, m) =>
              let b := drop (Z.to_nat m) b in
              match Z.land tag 7 with
              | 0 => (cons (Z.shiftr tag 3, PbVarint v)) <$> decode_loop fuel b
              | 2 => if Z.of_nat (length b) <? v then None
                     else (cons (Z.shiftr tag 3, PbBytes (take (Z.to_nat v) b))) <$> decode_loop fuel (drop (Z.to_nat v) b)
              | _ => None
              end
          end
      end
  end.

(** The fields of a message, in order. *)
Definition pb_fields (b : list Z) : option (list (Z * pb_value)) := decode_loop (length b) b.

Record check : Type := mkCheck { ck_tenant : string; ck_type : string; ck_id : string; ck_permission : string; ck_subject : string }.

(** What a CheckRequest asks: tenant, depth 20, entity, permission and a
    subject of type user. *)
Definition decode_request (b : list Z) : option check :=
  match pb_fields b with
  | Some [(1, PbBytes tenant); (2, PbBytes metadata); (3, PbBytes entity); (4, PbBytes permission); (5, PbBytes subject)] =>
      match pb_fields metadata, pb_fields entity, pb_fields subject with
      | Some [(3, PbVarint 20)], Some [(1, PbBytes etype); (2, PbBytes eid)], Some [(1, PbBytes user); (2, PbBytes sub)] =>
          if bool_decide (user = string_bytes "user")
          then Some (mkCheck (bytes_string tenant) (bytes_string etype) (bytes_string eid) (bytes_string permission) (bytes_string sub))
          else None
      | _, _, _ => None
      end
  | _ => None
  end.

(** The value of the first varint field 1. *)
Fixpoint can_field (fs : list (Z * pb_value)) : option Z :=
  match fs with
  | [] => None
  | (f, PbVarint v) :: fs => if f =? 1 then Some v else can_field fs
  | _ :: fs => can_field fs
  end.

(** The Permify server: [P] its relationships, [invoke] one unary call.  A call
    it answers is answered as documented: field 1 of the response is ALLOWED
    (1) exactly when the relationships grant what the request asks. *)
Class GrpcServer (P : Type) : Type := {
  invoke : P -> list Z -> result (list Z);
  granted : P -> check -> bool;
  invoke_decides p req ck b : decode_request req = Some ck -> invoke p req = Ok b ->
    exists fs, pb_fields b = Some fs /\ can_field fs = Some (if granted p ck then 1 else 2)
}.

(** ** The client and its middleware *)

Record PermifyClient : Type := mkPermify { pc_conn : bool; pc_tenant : string }.

(** [NewPermify]; [dial] says whether grpc.NewClient takes the target. *)
Definition NewPermify (dial : string -> bool) (addr tenant : string) : option PermifyClient :=
  let addr := TrimSpace addr in
  if bool_decide (addr = "") then None
  else
    let tenant := if bool_decide (tenant = "") then "t1" else tenant in
    if dial addr then Some (mkPermify true tenant) else None.

Section Middleware.
Context {D P : Type} `{GrpcServer P}.

(** [Check] on a client that is not nil; the five second timeout is a lost call. *)
Definition Check_ (c : PermifyClient) (entityType entityID permission subjectID : string) : M D P (result bool) :=
  if negb (pc_conn c) then gret (Err (ErrMsg "permify client not configured"))
  else
    try! b := led_call (fun p => (invoke p (marshalCheckRequest (pc_tenant c) entityType entityID permission subjectID), p))
    catch e => gret (Err e) in
    gret (match parseCheckResponse b with Err e => Err e | Ok can => Ok (can =? 1) end).

(** The handler that [Require] builds from a client that is not nil. *)
Definition require_handler (c : PermifyClient) (entityType permission entityID : string) (next : claims -> M D P response)
    (ctx : claims) : M D P response :=
  if negb (pc_conn c) then next ctx
  else
    let sub := Subject ctx in
    if bool_decide (sub = "") then reply_error 401 "authenticated subject required for authorization check"
    else
      try! allowed := Check_ c entityType entityID permission sub
      catch e => reply_error 502 "authorization check unavailable" in
      if allowed then next ctx
      else reply_error 403 ("permify denied " +:+ entityType +:+ ":" +:+ entityID +:+ "#" +:+ permission).

(** [Require] reads [c.log] before it returns the middleware: on a nil client
    that is a panic, here [None]. *)
Definition Require (c : option PermifyClient) (entityType permission : string) (idFrom : option string)
    : option ((claims -> M D P response) -> claims -> M D P response) :=
  match c with
  | None => None
  | Some c => Some (require_handler c entityType permission (default "" idFrom))
  end.
End Middleware.

(** ** Varints, proved *)

(** One continuation byte. *)
Lemma continuation_byte x : 0 <= x < 256 -> 128 <= Z.lor x 128 /\ Z.land (Z.lor x 128) 127 = x mod 128.
Proof.
  intros Hx. assert (forallb (fun k => let x := Z.of_nat k in (128 <=? Z.lor x 128) && (Z.land (Z.lor x 128) 127 =? x mod 128)) (seq 0 256) = true) as Hall
    by (vm_compute; reflexivity).
  rewrite forallb_forall in Hall. specialize (Hall (Z.to_nat x)). rewrite Z2Nat.id in Hall by lia.
  assert (In (Z.to_nat x) (seq 0 256)) as Hin by (apply in_seq; lia). apply Hall, andb_true_iff in Hin as [H1 H2]. lia.
Qed.

Lemma low_bits v : 0 <= v -> Z.lor (v mod 128) (Z.shiftl (Z.shiftr v 7) 7) = v.
Proof.
  intros Hv. apply Z.bits_inj'. intros n Hn. rewrite Z.lor_spec, Z.shiftl_spec by lia. change 128 with (2 ^ 7).
  destruct (Z.ltb_spec n 7).
  - rewrite Z.mod_pow2_bits_low by lia. rewrite (Z.testbit_neg_r _ (n - 7)) by lia. by rewrite orb_false_r.
  - rewrite Z.mod_pow2_bits_high by lia. rewrite Z.shiftr_spec by lia. simpl. f_equal. lia.
Qed.

Lemma wrap_shift v i x : 0 <= i -> v * 2 ^ (7 * i) < two64 -> 0 <= x <= v -> wrap_u64 (Z.shiftl x (7 * i)) = Z.shiftl x (7 * i).
Proof.
  intros Hi Hw Hx. assert (0 < 2 ^ (7 * i)) by lia. apply wrap_u64_id. unfold u64. rewrite Z.shiftl_mul_pow2 by lia. nia.
Qed.

Lemma consume_small fuel f i acc v rest : 0 <= i -> 0 <= v < 128 -> v * 2 ^ (7 * i) < two64 ->
  consume_loop (S fuel) i acc (app (varint_loop f v) rest) = Some (Z.lor acc (Z.shiftl v (7 * i)), i + Z.of_nat (length (varint_loop f v))).
Proof.
  intros Hi Hv Hw. assert (varint_loop f v = [v]) as ->.
  { destruct f; cbn [varint_loop]; [|rewrite (proj2 (Z.leb_gt 128 v)) by lia]; by rewrite Z.mod_small by lia. }
  cbn [app consume_loop]. assert (Z.land v 127 = v) as -> by (change 127 with (Z.ones 7); rewrite Z.land_ones by lia; apply Z.mod_small; lia).
  rewrite (wrap_shift v) by lia. by rewrite (proj2 (Z.ltb_lt v 128)) by lia.
Qed.

Lemma consume_varint fuel : forall f i acc v rest, 0 <= i -> 0 <= v < 2 ^ (7 * (Z.of_nat fuel + 1)) -> v < 2 ^ (7 * (Z.of_nat f + 1)) ->
  v * 2 ^ (7 * i) < two64 ->
  consume_loop (S fuel) i acc (app (varint_loop f v) rest) = Some (Z.lor acc (Z.shiftl v (7 * i)), i + Z.of_nat (length (varint_loop f v))).
Proof.
  induction fuel as [|fuel IH]; intros f i acc v rest Hi Hv Hf Hw; (destruct (Z.leb_spec 128 v) as [Hge|Hlt]; [|apply consume_small; lia]).
  { simpl in Hv. lia. }
  destruct f as [|f]; [simpl in Hf; lia|]. cbn [varint_loop]. rewrite (proj2 (Z.leb_le 128 v)) by done.
  assert (0 < 2 ^ (7 * i)) as Hpow by lia.
  destruct (continuation_byte (v mod 256)) as [Hc1 Hc2]; [apply Z.mod_pos_bound; lia|].
  assert (consume_loop (S (S fuel)) i acc ((Z.lor (v mod 256) 128 :: varint_loop f (Z.shiftr v 7)) ++ rest) =
    consume_loop (S fuel) (i + 1) (Z.lor acc (Z.shiftl (v mod 128) (7 * i))) (varint_loop f (Z.shiftr v 7) ++ rest)) as ->.
  { change (consume_loop (S (S fuel)) i acc ((Z.lor (v mod 256) 128 :: varint_loop f (Z.shiftr v 7)) ++ rest)) with
      (let v' := Z.lor acc (wrap_u64 (Z.shiftl (Z.land (Z.lor (v mod 256) 128) 127) (7 * i))) in
       if Z.lor (v mod 256) 128 <? 128 then Some (v', i + 1) else consume_loop (S fuel) (i + 1) v' (varint_loop f (Z.shiftr v 7) ++ rest)).
    cbv zeta. rewrite Hc2, (proj2 (Z.ltb_ge _ 128)) by done.
    replace ((v mod 256) mod 128) with (v mod 128) by (Z.to_euclidean_division_equations; lia).
    rewrite (wrap_shift v); [done|lia|lia|]. split; [apply Z.mod_pos_bound; lia|apply Z.mod_le; lia]. }
  assert (Z.shiftr v 7 = v / 128) as Hdiv by (by rewrite Z.shiftr_div_pow2). rewrite IH.
  - f_equal. f_equal; [|cbn [length]; lia]. rewrite <- Z.lor_assoc. f_equal. replace (7 * (i + 1)) with (7 + 7 * i) by lia.
    rewrite <- Z.shiftl_shiftl by lia. rewrite <- Z.shiftl_lor. f_equal. apply low_bits. lia.
  - lia.
  - rewrite Hdiv. split; [apply Z.div_pos; lia|]. apply Z.div_lt_upper_bound; [lia|].
    replace (7 * (Z.of_nat (S fuel) + 1)) with (7 + 7 * (Z.of_nat fuel + 1)) in Hv by lia. rewrite Z.pow_add_r in Hv by lia. lia.
  - rewrite Hdiv. apply Z.div_lt_upper_bound; [lia|].
    replace (7 * (Z.of_nat (S f) + 1)) with (7 + 7 * (Z.of_nat f + 1)) in Hf by lia. rewrite Z.pow_add_r in Hf by lia. lia.
  - replace (7 * (i + 1)) with (7 + 7 * i) by lia. rewrite Z.pow_add_r by lia. rewrite Hdiv.
    assert (v / 128 * 128 <= v) by (Z.to_euclidean_division_equations; lia). change (2 ^ 7) with 128. nia.
Qed.

(** The encoder's output decodes to its input, byte for byte. *)
Lemma varint_roundtrip v rest : 0 <= v < two64 ->
  consume_loop 10 0 0 (app (appendVarint [] v) rest) = Some (v, Z.of_nat (length (appendVarint [] v))).
Proof.
  intros Hv. unfold appendVarint. rewrite app_nil_l. rewrite (consume_varint 9 10 0 0 v rest).
  - rewrite Z.lor_0_l, Z.mul_0_r, Z.shiftl_0_r, Z.add_0_l. reflexivity.
  - lia.
  - change (2 ^ (7 * (Z.of_nat 9 + 1))) with 1180591620717411303424. unfold two64 in Hv. lia.
  - change (2 ^ (7 * (Z.of_nat 10 + 1))) with 151115727451828646838272. unfold two64 in Hv. lia.
  - rewrite Z.mul_0_r, Z.pow_0_r. lia.
Qed.

(** ** The request, proved *)

Lemma drop_prefix (n : nat) (a b : list Z) : Z.of_nat (length a) = Z.of_nat n -> drop (Z.to_nat (Z.of_nat n)) (app a b) = b.
Proof. intros Hn. rewrite Nat2Z.id. apply Nat2Z.inj in Hn as <-. apply drop_app_length. Qed.

(** The tags in use. *)
Lemma tag_bits field wire : 0 <= field < 16 -> 0 <= wire < 8 ->
  let tag := Z.lor (Z.shiftl field 3) wire in Z.shiftr tag 3 = field /\ Z.land tag 7 = wire /\ 0 <= tag < 128.
Proof.
  intros Hf Hw.
  assert (forallb (fun f => forallb (fun k => let tag := Z.lor (Z.shiftl (Z.of_nat f) 3) (Z.of_nat k) in
    (Z.shiftr tag 3 =? Z.of_nat f) && (Z.land tag 7 =? Z.of_nat k) && (0 <=? tag) && (tag <? 128)) (seq 0 8)) (seq 0 16) = true) as Hall
    by (vm_compute; reflexivity).
  rewrite forallb_forall in Hall. specialize (Hall (Z.to_nat field) ltac:(apply in_seq; lia)). rewrite forallb_forall in Hall.
  specialize (Hall (Z.to_nat wire) ltac:(apply in_seq; lia)). cbv zeta in *. rewrite !Z2Nat.id in Hall by lia. lia.
Qed.

Lemma varint_nonempty f v : (1 <= length (varint_loop f v))%nat.
Proof. destruct f; cbn [varint_loop]; [|case_match]; simpl; lia. Qed.

Lemma decode_nil fuel : decode_loop fuel [] = Some [].
Proof. by destruct fuel. Qed.

Lemma decode_step fuel b : b <> [] -> decode_loop (S fuel) b =
  match consume_loop 10 0 0 b with
  | None => None
  | Some (tag, n) =>
      match consume_loop 10 0 0 (drop (Z.to_nat n) b) with
      | None => None
      | Some (v, m) =>
          let b := drop (Z.to_nat m) (drop (Z.to_nat n) b) in
          match Z.land tag 7 with
          | 0 => (cons (Z.shiftr tag 3, PbVarint v)) <$> decode_loop fuel b
          | 2 => if Z.of_nat (length b) <? v then None
                 else (cons (Z.shiftr tag 3, PbBytes (take (Z.to_nat v) b))) <$> decode_loop fuel (drop (Z.to_nat v) b)
          | _ => None
          end
      end
  end.
Proof. by destruct b. Qed.

(** One field of a message. *)
Lemma decode_bytes fuel field b rest : 0 <= field < 16 -> Z.of_nat (length b) < two64 ->
  decode_loop (S fuel) (app (pbBytes field b) rest) = (cons (field, PbBytes b)) <$> decode_loop fuel rest.
Proof.
  intros Hf Hb. destruct (tag_bits field 2 Hf) as (H1 & H2 & H3); [lia|]. cbv zeta in *. unfold pbBytes.
  set (tag := Z.lor (Z.shiftl field 3) 2) in *. set (n := Z.of_nat (length b)) in *.
  assert (appendVarint (appendVarint [] tag) n = app (appendVarint [] tag) (appendVarint [] n)) as -> by done.
  rewrite <- !app_assoc. set (t := appendVarint [] tag). set (l := appendVarint [] n).
  assert (t <> []) as Ht by (pose proof (varint_nonempty 10 tag); unfold t, appendVarint; rewrite app_nil_l; destruct (varint_loop 10 tag); [simpl in *; lia|done]).
  rewrite decode_step by (by destruct t).
  unfold t at 1. rewrite varint_roundtrip by (unfold two64; lia). rewrite (drop_prefix (length t)) by done.
  unfold l at 1. rewrite varint_roundtrip by (unfold n; lia). rewrite (drop_prefix (length l)) by done. rewrite H2, H1.
  rewrite (proj2 (Z.ltb_ge _ n)) by (rewrite length_app; unfold n; lia). unfold n. rewrite Nat2Z.id, drop_app_length, take_app_length. done.
Qed.

Lemma string_bytes_string s : bytes_string (string_bytes s) = s.
Proof.
  unfold bytes_string, string_bytes. rewrite map_map. rewrite (map_ext _ id) by apply byte_ascii_byte. rewrite map_id.
  apply string_of_list_ascii_of_string.
Qed.

Lemma pbBytes_length field b : (2 + length b <= length (pbBytes field b))%nat.
Proof.
  unfold pbBytes. rewrite length_app. unfold appendVarint. rewrite length_app. cbn [app].
  pose proof (varint_nonempty 10 (Z.lor (Z.shiftl field 3) 2)). pose proof (varint_nonempty 10 (Z.of_nat (length b))). lia.
Qed.

(** The message of two strings. *)
Lemma pair_fields a b : Z.of_nat (length a) < two64 -> Z.of_nat (length b) < two64 ->
  pb_fields (app (pbBytes 1 a) (pbBytes 2 b)) = Some [(1, PbBytes a); (2, PbBytes b)].
Proof.
  intros Ha Hb. unfold pb_fields. pose proof (pbBytes_length 1 a). pose proof (pbBytes_length 2 b).
  rewrite length_app. destruct (length (pbBytes 1 a) + length (pbBytes 2 b))%nat as [|[|n]] eqn:En; [lia..|].
  rewrite decode_bytes by lia. rewrite <- (app_nil_r (pbBytes 2 b)). rewrite decode_bytes by lia. by rewrite decode_nil.
Qed.

Section Request.
Variables (tenant entityType entityID permission subjectID : string).
Let request := marshalCheckRequest tenant entityType entityID permission subjectID.

Lemma request_decodes : Z.of_nat (length request) < two63 ->
  decode_request request = Some (mkCheck tenant entityType entityID permission subjectID).
Proof.
  unfold request, marshalCheckRequest. cbv zeta. unfold pbString. intros Hlen. rewrite !length_app in Hlen.
  set (e1 := string_bytes entityType) in *. set (e2 := string_bytes entityID) in *. set (s2 := string_bytes subjectID) in *.
  set (p := string_bytes permission) in *. set (t := string_bytes tenant) in *. set (u := string_bytes "user") in *.
  pose proof (pbBytes_length 1 t). pose proof (pbBytes_length 4 p).
  pose proof (pbBytes_length 3 (app (pbBytes 1 e1) (pbBytes 2 e2))) as Hle. pose proof (pbBytes_length 5 (app (pbBytes 1 u) (pbBytes 2 s2))) as Hlu.
  pose proof (pbBytes_length 1 e1). pose proof (pbBytes_length 2 e2). pose proof (pbBytes_length 2 s2). pose proof (pbBytes_length 1 u).
  rewrite length_app in Hle, Hlu.
  unfold decode_request. assert (forall fuel, (5 <= fuel)%nat -> decode_loop fuel (app (pbBytes 1 t) (app (pbBytes 2 (pbVarint 3 permifyCheckDepth))
    (app (pbBytes 3 (app (pbBytes 1 e1) (pbBytes 2 e2))) (app (pbBytes 4 p) (pbBytes 5 (app (pbBytes 1 u) (pbBytes 2 s2))))))) =
    Some [(1, PbBytes t); (2, PbBytes (pbVarint 3 permifyCheckDepth)); (3, PbBytes (app (pbBytes 1 e1) (pbBytes 2 e2)));
          (4, PbBytes p); (5, PbBytes (app (pbBytes 1 u) (pbBytes 2 s2)))]) as Hdec.
  { intros fuel Hfuel. do 5 (destruct fuel as [|fuel]; [lia|]). rewrite <- (app_nil_r (pbBytes 5 _)).
    rewrite !decode_bytes; rewrite ?length_app; unfold two63, two64 in *; try lia; [by rewrite decode_nil|].
    change (length (pbVarint 3 permifyCheckDepth)) with 2%nat. lia. }
  unfold pb_fields at 1. rewrite Hdec.
  2: { rewrite !length_app. lia. }
  rewrite !pair_fields by (unfold two63, two64 in *; lia). change (pb_fields (pbVarint 3 permifyCheckDepth)) with (Some [(3, PbVarint 20)]).
  cbv match. unfold t, e1, e2, p, s2. by rewrite !string_bytes_string.
Qed.

(** C37: a check asks exactly what it means.  Any CheckRequest that fits in
    memory decodes, by the protobuf wire format, to its tenant, depth 20,
    entity, permission and a subject of type user; so distinct checks never
    have the same bytes. *)
Theorem check_request_decodes : Z.of_nat (length request) < two63 ->
  decode_request request = Some (mkCheck tenant entityType entityID permission subjectID).
Proof. apply request_decodes. Qed.
End Request.

(** ** The response, proved *)

Lemma consume_bytes fuel i acc b v n : consume_loop fuel i acc b = Some (v, n) -> i + 1 <= n /\ n - i <= Z.of_nat (length b).
Proof.
  revert i acc b. induction fuel as [|fuel IH]; intros i acc [|c b] Hc; try done. cbn [consume_loop] in Hc.
  destruct (c <? 128); [injection Hc as <- <-; simpl; lia|]. apply IH in Hc. simpl. lia.
Qed.

Lemma consume_shorter b v n : consume_loop 10 0 0 b = Some (v, n) -> (length (drop (Z.to_nat n) b) < length b)%nat.
Proof. intros Hc. apply consume_bytes in Hc. rewrite length_drop. lia. Qed.

Lemma parse_step fuel b : b <> [] -> parse_loop (S fuel) b =
  match consumeTag b with
  | Err e => Some (Err e)
  | Ok (field, wire, n) =>
      let b := drop (Z.to_nat n) b in
      if wire =? 0 then
        match consumeVarint b with
        | Err e => Some (Err e)
        | Ok (v, m) => if field =? 1 then Some (Ok (wrap_i64 v)) else parse_loop fuel (drop (Z.to_nat m) b)
        end
      else if wire =? 2 then
        match consumeVarint b with
        | Err e => Some (Err e)
        | Ok (l, m) =>
            let b := drop (Z.to_nat m) b in
            if Z.of_nat (length b) <? l then Some (Err (ErrMsg "truncated length-delimited field"))
            else parse_loop fuel (drop (Z.to_nat l) b)
        end
      else Some (Err (ErrMsg ("unsupported wire type " +:+ pretty wire)))
  end.
Proof. by destruct b. Qed.

Lemma parse_ends fuel b : (length b < fuel)%nat -> parse_loop fuel b <> None.
Proof.
  revert b. induction fuel as [|fuel IH]; intros b Hb; [lia|]. destruct (decide (b = [])) as [->|Hne]; [done|]. rewrite parse_step by done.
  unfold consumeTag, consumeVarint. destruct (consume_loop 10 0 0 b) as [[tag n]|] eqn:E1; [|done]. apply consume_shorter in E1. cbv zeta.
  destruct (Z.land tag 7 =? 0).
  - destruct (consume_loop 10 0 0 (drop (Z.to_nat n) b)) as [[v m]|] eqn:E2; [|done]. apply consume_shorter in E2.
    destruct (Z.shiftr tag 3 =? 1); [done|]. apply IH. lia.
  - destruct (Z.land tag 7 =? 2); [|done]. destruct (consume_loop 10 0 0 (drop (Z.to_nat n) b)) as [[v m]|] eqn:E2; [|done]. apply consume_shorter in E2.
    destruct (_ <? v); [done|]. apply IH. rewrite length_drop. lia.
Qed.

(** The response parser always ends: every pass of its loop consumes a
    byte, on any bytes at all. *)
Theorem response_parser_ends b : exists r, parse_loop (S (length b)) b = Some r.
Proof. destruct (parse_loop (S (length b)) b) eqn:E; [by eexists|]. exfalso. by apply (parse_ends (S (length b)) b); [lia|]. Qed.

Lemma parse_fields fuel : forall b fs fuel', decode_loop fuel b = Some fs -> (length b < fuel')%nat ->
  parse_loop fuel' b = Some (match can_field fs with Some v => Ok (wrap_i64 v) | None => Err (ErrMsg "missing `can` field") end).
Proof.
  induction fuel as [|fuel IH]; intros b fs fuel' Hd Hf; (destruct (decide (b = [])) as [->|Hne];
    [rewrite decode_nil in Hd; injection Hd as <-; destruct fuel'; [simpl in Hf; lia|done]|]); [by destruct b|].
  rewrite decode_step in Hd by done. destruct fuel' as [|fuel']; [lia|]. rewrite parse_step by done. unfold consumeTag, consumeVarint.
  destruct (consume_loop 10 0 0 b) as [[tag n]|] eqn:E1; [|done]. apply consume_shorter in E1. cbv zeta in *.
  destruct (consume_loop 10 0 0 (drop (Z.to_nat n) b)) as [[v m]|] eqn:E2; [|done]. apply consume_shorter in E2.
  destruct (Z.land tag 7) as [|[?|[?|?|]|]|] eqn:Ew; try done; cbn [Z.eqb] in *.
  - apply fmap_Some in Hd as (fs' & Hd & ->). cbn [can_field]. destruct (Z.shiftr tag 3 =? 1); [done|]. apply (IH _ fs'); [done|lia].
  - change (2 =? 2) with true. cbv match. destruct (_ <? v); [done|]. apply fmap_Some in Hd as (fs' & Hd & ->). cbn [can_field].
    apply (IH _ fs'); [done|]. rewrite length_drop. lia.
Qed.

Lemma parse_exact b fs : pb_fields b = Some fs ->
  parseCheckResponse b = match can_field fs with Some v => Ok (wrap_i64 v) | None => Err (ErrMsg "missing `can` field") end.
Proof. intros Hb. unfold parseCheckResponse. by rewrite (parse_fields (length b) b fs) by (done || lia). Qed.

(** The hand-written parser agrees with the wire format: on every message
    of varint and length-delimited fields it returns the first varint of field
    1, whatever fields surround it, and refuses the message if it has none. *)
Theorem response_parser_exact b fs : pb_fields b = Some fs ->
  parseCheckResponse b = match can_field fs with Some v => Ok (wrap_i64 v) | None => Err (ErrMsg "missing `can` field") end.
Proof. apply parse_exact. Qed.

(** ** The middleware, proved *)

Section Guarding.
Context {D P : Type} `{GrpcServer P}.
Implicit Types w : World D P.

Definition asked (c : PermifyClient) (entityType entityID permission : string) (ctx : claims) : check :=
  mkCheck (pc_tenant c) entityType entityID permission (Subject ctx).

Definition fits (c : PermifyClient) (entityType entityID permission : string) (ctx : claims) : Prop :=
  Z.of_nat (length (marshalCheckRequest (pc_tenant c) entityType entityID permission (Subject ctx))) < two63.

Lemma wp_Check c entityType entityID permission ctx (Q : result bool -> World D P -> Prop) w :
  pc_conn c = true -> fits c entityType entityID permission ctx ->
  (forall s, Q (Ok (granted (w_led w) (asked c entityType entityID permission ctx))) (with_sched s w)) ->
  (forall s e, Q (Err e) (with_sched s w)) ->
  wp (Check_ c entityType entityID permission (Subject ctx)) Q w.
Proof.
  intros Hc Hfit Hok Herr. unfold Check_. rewrite Hc. cbn [negb].
  assert (forall s l, l = w_led w -> with_led l (with_sched s w) = with_sched s w) as Hsame by (intros s l ->; by destruct w).
  apply wp_bind, wp_led_call; intros s.
  - intros r l E. injection E as Er <-. rewrite Hsame by done. destruct r as [b|e]; [|by apply wp_ret]. apply wp_ret.
    pose proof (request_decodes _ _ _ _ _ Hfit) as Hdec. destruct (invoke_decides _ _ _ _ Hdec Er) as (fs & Hfs & Hcan).
    rewrite (parse_exact b fs Hfs), Hcan. specialize (Hok s). unfold asked in Hok. by destruct (granted (w_led w) _).
  - intros r l E. injection E as Er <-. rewrite Hsame by done. by apply wp_ret.
  - by apply wp_ret.
Qed.

(** C18: the middleware fails closed.  With a configured client, whatever fails,
    a guarded handler runs, in the world as it was but for the coming faults,
    only if the relationships grant the caller's subject the permission on the
    entity; every other request is answered 401, 403 or 502 and changes
    nothing; and a caller with the permission is never answered 403. *)
Theorem permify_fails_closed c entityType entityID permission next ctx w :
  pc_conn c = true -> fits c entityType entityID permission ctx ->
  let ok := granted (w_led w) (asked c entityType entityID permission ctx) in
  (Subject ctx <> "" /\ ok = true /\ exists s, require_handler c entityType permission entityID next ctx w = next ctx (with_sched s w)) \/
  (let '(r, w') := require_handler c entityType permission entityID next ctx w in
   (exists s, w' = with_sched s w) /\ (status r = 401 /\ Subject ctx = "" \/ status r = 403 /\ ok = false \/ status r = 502)).
Proof.
  intros Hc Hfit ok. set (run := require_handler c entityType permission entityID next ctx).
  enough (wp run (fun r w' => (Subject ctx <> "" /\ ok = true /\ exists s, (r, w') = next ctx (with_sched s w)) \/
    ((exists s, w' = with_sched s w) /\ (status r = 401 /\ Subject ctx = "" \/ status r = 403 /\ ok = false \/ status r = 502))) w) as Hw.
  { unfold wp in Hw. destruct (run w) as [r w']. exact Hw. }
  unfold run, require_handler. rewrite Hc. cbn [negb]. assert (exists s, w = with_sched s w) as Hself by (exists (w_sched w); by destruct w).
  case_bool_decide as Hsub; [apply wp_ret; right; auto|]. apply wp_bind, wp_Check; [done|done| |].
  - intros s. fold ok. destruct ok eqn:Ho; [|apply wp_ret; right; eauto 10]. left. split_and!; [done|done|]. exists s. by destruct (next ctx (with_sched s w)).
  - intros s e. apply wp_ret. right. eauto 10.
Qed.
End Guarding.

(** *** An unset PERMIFY_GRPC

    The package comment and [NewPermify] promise a nil client whose middleware
    passes every request through; building that middleware panics. *)
Theorem unset_address_panics {D P} `{GrpcServer P} dial tenant entityType permission idFrom :
  Require (D := D) (NewPermify dial "" tenant) entityType permission idFrom = None.
Proof. reflexivity. Qed.

(** ** Concrete runs *)

Section Witnesses.

#[local] Instance check_eq_dec : EqDecision check.
Proof. solve_decision. Defined.

(** A server whose relationships are a list of checks. *)
#[local] Program Instance list_server : GrpcServer (list check) := {
  invoke p req := match decode_request req with
                  | Some ck => Ok [8; if bool_decide (ck ∈ p) then 1 else 2; 18; 0]
                  | None => Err (ErrMsg "invalid argument") end;
  granted p ck := bool_decide (ck ∈ p) }.
Next Obligation.
  intros p req ck b Hd Hi. cbv beta in Hi. rewrite Hd in Hi. injection Hi as <-.
  exists [(1, PbVarint (if bool_decide (ck ∈ p) then 1 else 2)); (2, PbBytes [])]. split; [|done]. by destruct (bool_decide (ck ∈ p)).
Qed.

Definition relations : list check := [mkCheck "t1" "report" "compliance" "generate" "ann"].
Definition permify_world : World unit (list check) := mkWorld tt relations [] 0 0 [] [] [].
Definition the_client : PermifyClient := mkPermify true "t1".
Definition done_handler : claims -> M unit (list check) response := fun _ => reply 201 JNull.

Lemma check_request_decodes_witness :
  decode_request (marshalCheckRequest "t1" "report" "compliance" "generate" "ann") = Some (mkCheck "t1" "report" "compliance" "generate" "ann").
Proof. apply check_request_decodes. vm_compute. reflexivity. Defined.

(** An unknown length-delimited field before the result. *)
Lemma response_parser_exact_witness : parseCheckResponse [18; 2; 255; 7; 8; 2] = Ok 2.
Proof. apply (response_parser_exact [18; 2; 255; 7; 8; 2] [(2, PbBytes [255; 7]); (1, PbVarint 2)]). vm_compute. reflexivity. Defined.

(** Ann may generate; Bob gets 403, and 502 when the call fails. *)
Lemma permify_fails_closed_witness :
  let run ctx w := require_handler the_client "report" "generate" "compliance" done_handler ctx w in
  status (run (claims_of "ann" []) permify_world).1 = 201 /\
  status (run (claims_of "ann" []) (with_sched [Lost] permify_world)).1 = 502 /\
  (status (run (claims_of "bob" []) permify_world).1 = 401 \/ status (run (claims_of "bob" []) permify_world).1 = 403 \/
   status (run (claims_of "bob" []) permify_world).1 = 502).
Proof.
  cbv zeta beta. split; [vm_compute; reflexivity|]. split; [vm_compute; reflexivity|].
  pose proof (permify_fails_closed the_client "report" "compliance" "generate" done_handler (claims_of "bob" []) permify_world) as Hf.
  destruct Hf as [(_ & Hok & _)|Hr]; [reflexivity|vm_compute; reflexivity|vm_compute in Hok; discriminate|].
  destruct (require_handler _ _ _ _ _ _ permify_world) as [r w']. cbn [fst]. destruct Hr as [_ [[? _]|[[? _]|?]]]; auto.
Defined.
End Witnesses.
