(* ===== verification/Compliance.v ===== *)
(** * Compliance reports and chargers

    Models services/go/infra-api/internal/handlers/compliance.go, the report
    over the incidents, work orders, stations, predictions, vehicles and
    telemetry of the other components, and the listings of chargers.go.  A
    query of several rows may be cut off while it is read: the loops of the
    report do not ask [rows.Err()], so they go on with the rows that arrived.
    Times are in milliseconds; an interval of days is 24 hours each, as in a
    session in UTC. *)

From stdpp Require Import gmap sets strings list.
From Stdlib Require Import Floats.SpecFloat.
From S2P Require Import Prelude Codec World Float64 CommerceDb InfraDb Dispatch AuditLog Incidents Stations Depot.

Open Scope Z_scope.
Open Scope go_scope.

(** ** Rows *)

Record ComplianceReport : Type := mkReport { cr_id : string; cr_generated : Z; cr_report : json }.

Record Prediction : Type := mkPrediction { mp_risk : Qc; mp_created : Z }.

Record ReportDB : Type := mkReportDB {
  rp_incidents : gmap string Incident;
  rp_orders : gmap string WorkOrder;
  rp_vehicles : gset string;
  rp_telemetry : list Telemetry;
  rp_predictions : gmap string Prediction;
  rp_stations : gmap string StationRow;
  rp_reports : gmap string ComplianceReport
}.

Definition put_report (r : ComplianceReport) (d : ReportDB) : ReportDB :=
  mkReportDB (rp_incidents d) (rp_orders d) (rp_vehicles d) (rp_telemetry d) (rp_predictions d) (rp_stations d)
    (<[cr_id r := r]> (rp_reports d)).

Definition report_json (r : ComplianceReport) : json :=
  JObj [("id", JStr (cr_id r)); ("generated_at", JTime (cr_generated r)); ("report", cr_report r)].

Record compliancePack : Type := mkPack { LeakAging : bool; LeakTypes : list string; BatteryThermal : bool }.

Definition compliancePacks (domain : string) : option compliancePack :=
  if bool_decide (domain = "h2") then Some (mkPack true ["h2_leak"] false)
  else if bool_decide (domain = "battery") then Some (mkPack false [] true)
  else if bool_decide (domain = "diesel") then Some (mkPack false [] false)
  else if bool_decide (domain = "cng") then Some (mkPack true ["cng_leak"] false)
  else None.

Definition defaultReportDays : Z := 30.
Definition maxReportDays : Z := 365.

(** An interval of one day. *)
Definition day : Z := 86400000.

Section Queries.
Context `{PgServer} `{StationEnv} `{PgNumeric}.

(** [SELECT f, count( * ) ... GROUP BY f]. *)
Definition group_count {V} (f : V -> string) (vs : list V) : list (string * Z) :=
  map (fun k => (k, Z.of_nat (length (filter (fun v => f v = k) vs)))) (remove_dups (map f vs)).

Definition by_status (d : ReportDB) : list (string * Z) := group_count in_status (rows (rp_incidents d)).

Definition by_severity (days now : Z) (d : ReportDB) : list (string * Z) :=
  group_count in_severity (filter (fun i => now - days * day < in_opened i) (rows (rp_incidents d))).

(** [EXTRACT(EPOCH FROM (t2 - t1)) / 3600]. *)
Definition hours_between (t1 t2 : Z) : Qc := numeric_div (Q2Qc (Qmake (t2 - t1) 1000)) (Q2Qc (Qmake 3600 1)).

(** [avg] and [max] over a column, cast to float8. *)
Definition float8_col (o : option Qc) : result json :=
  match o with None => Ok JNull | Some q => result_map JFloat (float8_of_numeric q) end.

Definition avg_col (l : list Qc) : option Qc :=
  match l with [] => None | _ => Some (numeric_div (foldr Qcplus 0%Qc l) (Q2Qc (Qmake (Z.of_nat (length l)) 1))) end.

Definition Qcmax (a b : Qc) : Qc := if Qle_bool (this a) (this b) then b else a.

Definition max_col (l : list Qc) : option Qc :=
  match l with [] => None | q :: l => Some (foldr Qcmax q l) end.

Definition unresolved (types : list string) (i : Incident) : Prop :=
  in_type i ∈ types /\ in_status i ∈ ["open"; "acknowledged"; "in_progress"].

#[global] Instance unresolved_dec types i : Decision (unresolved types i).
Proof. unfold unresolved. apply _. Defined.

(** The aging of the open incidents of some types. *)
Definition aging (types : list string) (now : Z) (d : ReportDB) : result json :=
  let ages := map (fun i => hours_between (in_opened i) now) (filter (unresolved types) (rows (rp_incidents d))) in
  match float8_col (avg_col ages), float8_col (max_col ages) with
  | Err e, _ | _, Err e => Err e
  | Ok avg, Ok oldest => Ok (JObj [("open", JInt (Z.of_nat (length ages))); ("avg_age_hours", avg); ("oldest_age_hours", oldest)])
  end.

(** Time to resolve, of the incidents opened in the window. *)
Definition resolution_hours (since : Z) (i : Incident) : option Qc :=
  if bool_decide (in_status i = "resolved") && (since <? in_opened i)
  then (fun t => hours_between (in_opened i) t) <$> in_resolved i else None.

Definition mttr (days now : Z) (d : ReportDB) : result json :=
  let hours := omap (resolution_hours (now - days * day)) (rows (rp_incidents d)) in
  result_map (fun avg => JObj [("resolved_in_period", JInt (Z.of_nat (length hours))); ("avg_hours", avg)]) (float8_col (avg_col hours)).

Definition high_risk (p : Prediction) : bool := Qle_bool (7 # 10) (this (mp_risk p)).

Definition predictions (days now : Z) (d : ReportDB) : result json :=
  let ps := filter (fun p => now - days * day < mp_created p) (rows (rp_predictions d)) in
  Ok (JObj [("total", JInt (Z.of_nat (length ps))); ("high_risk", JInt (Z.of_nat (length (filter (fun p => high_risk p = true) ps))))]).

Definition open_orders (d : ReportDB) : result json :=
  Ok (JInt (Z.of_nat (length (filter (fun o => wo_status o <> "closed") (rows (rp_orders d)))))).

Definition vehicles_total (d : ReportDB) : result Z := Ok (Z.of_nat (size (rp_vehicles d))).

(** [count(DISTINCT bus_id)] of the last 24 hours. *)
Definition reporting (now : Z) (d : ReportDB) : result Z :=
  Ok (Z.of_nat (length (remove_dups (map tm_bus (filter (fun t => now - day < tm_ts t) (rp_telemetry d)))))).

Definition fdiv : float64 -> float64 -> float64 := SFdiv 53 1024.

Definition availability (total reporting : Z) : json :=
  JObj [("vehicles_total", JInt total); ("reporting_last_24h", JInt reporting);
        ("availability_pct", if 0 <? total then JFloat (fmul (fdiv (float_of_Z reporting) (float_of_Z total)) (float_of_Z 100)) else JNull)].

Definition inventory (d : ReportDB) : result json :=
  let total f := float_of_numeric (foldr Qcplus 0%Qc (omap f (rows (rp_stations d)))) in
  match total st_capacity, total st_kg with
  | Err e, _ | _, Err e => Err e
  | Ok capacity, Ok available =>
      Ok (JObj [("count", JInt (Z.of_nat (size (rp_stations d)))); ("total_capacity_kg", JFloat capacity); ("total_available_kg", JFloat available)])
  end.
End Queries.

(** ** The handlers *)

(** The report so far, and [degraded]. *)
Definition draft : Type := list (string * json) * list string.

(** A section that was read is set; one that failed is named. *)
Definition fill (name field : string) (r : result json) (b : draft) : draft :=
  match r with Ok v => (jset field v b.1, b.2) | Err _ => (b.1, app b.2 [name]) end.

(** A Go map of counters, from its rows. *)
Definition counters (l : list (string * Z)) : json := JObj (fold_left (fun o kn => jset kn.1 (JInt kn.2) o) l []).

(** [json.Marshal] refuses infinities and NaN. *)
Definition finite (f : float64) : bool := match f with S754_infinity _ | S754_nan => false | _ => true end.

Fixpoint encodable (j : json) : bool :=
  match j with
  | JFloat f => finite f
  | JList l => forallb encodable l
  | JObj fs => forallb (fun kv => encodable kv.2) fs
  | _ => true
  end.

Section Handlers.
Context `{Runtime} `{PgServer} `{StationEnv} `{PgNumeric} {S : Type}.
Abbreviation CM := (M ReportDB S).

Definition defaultComplianceDomain : string :=
  let d := getenv "COMPLIANCE_DOMAIN" in
  if bool_decide (d = "") then "h2" else match compliancePacks d with Some _ => d | None => "h2" end.

Definition ListComplianceReports : CM response :=
  try! rs := db_query (fun d => Ok (take 100 (order_asc (fun r => - cr_generated r) (rows (rp_reports d)))))
  catch e => infra_internal "list compliance reports" e in
  reply 200 (JObj [("reports", JList (map report_json rs))]).

Definition GetComplianceReport (id : string) : CM response :=
  let! r := db_query (fun d => match uuid_in id with
                               | Err e => Err e
                               | Ok id => match rp_reports d !! id with Some r => Ok r | None => Err ErrNoRows end end) in
  match r with
  | Ok r => reply 200 (report_json r)
  | Err ErrNoRows => reply_error 404 "report not found"
  | Err e => infra_internal "get compliance report" e
  end.

Definition section (name field : string) (f : ReportDB -> result json) (b : draft) : CM draft :=
  let! r := db_query f in gret (fill name field r b).

Definition count_section (name field : string) (f : ReportDB -> list (string * Z)) (b : draft) : CM draft :=
  let! r := read_rows f in gret (fill name field (result_map counters r) b).

Definition fleet_section (now : Z) (b : draft) : CM draft :=
  let! total := db_query vehicles_total in
  match total with
  | Err e => gret (fill "fleet" "fleet_availability" (Err e) b)
  | Ok total =>
      let! n := db_query (reporting now) in
      gret (fill "fleet" "fleet_availability" (result_map (availability total) n) b)
  end.

Definition buildReport (days : Z) (domain : string) : CM json :=
  let! now := gets w_now in
  let '(pack, domain) := match compliancePacks domain with
                         | Some p => (p, domain)
                         | None => (mkPack true ["h2_leak"] false, "h2")
                         end in
  let b := ([("generated_at", JTime now); ("standard", JStr "H2Fleet safety & compliance (SPEC §3.4 infra schema)");
             ("domain", JStr domain); ("period_days", JInt days); ("period_start", JTime (now - days * day))], []) in
  let! b := count_section "incidents_by_status" "incidents_by_status" by_status b in
  let! b := count_section "incidents_by_severity" "incidents_by_severity_period" (by_severity days now) b in
  let! b := (if LeakAging pack then section "leak_aging" "unresolved_leaks" (aging (LeakTypes pack) now) b else gret b) in
  let! b := (if BatteryThermal pack then section "battery_thermal" "battery_thermal_incidents" (aging ["battery_thermal"] now) b else gret b) in
  let! b := section "mttr" "mttr" (mttr days now) b in
  let! b := section "maintenance_predictions" "maintenance_predictions_period" (predictions days now) b in
  let! b := section "work_orders" "work_orders_open" open_orders b in
  let! b := fleet_section now b in
  let! b := section "stations" "stations" inventory b in
  gret (JObj (if bool_decide (b.2 = []) then b.1 else jset "degraded" (JList (map JStr b.2)) b.1)).

Definition insert_report (r : ComplianceReport) : ReportDB -> result (ComplianceReport * (ReportDB -> ReportDB)) := fun d =>
  match rp_reports d !! cr_id r with Some _ => Err (PgError unique_violation) | None => Ok (r, put_report r) end.

Definition generateAndStore (days : Z) (domain : string) : CM (result ComplianceReport) :=
  let! report := buildReport days domain in
  if negb (encodable report) then gret (Err (ErrMsg "marshal compliance report"))
  else
    let! id := new_uuid in
    let! now := gets w_now in
    db_exec (insert_report (mkReport id now report)).

Definition GenerateScheduled : CM (result unit) :=
  let! r := generateAndStore defaultReportDays defaultComplianceDomain in
  gret (result_map (fun _ => tt) r).

Definition GenerateComplianceReport (days domain : string) : CM response :=
  let n := if bool_decide (days = "") then Some defaultReportDays
           else match ParseInt days with
                | Some n => if (n <? 1) || (maxReportDays <? n) then None else Some n
                | None => None
                end in
  match n with
  | None => reply_error 400 ("days must be an integer between 1 and " +:+ pretty maxReportDays)
  | Some n =>
      let d := if bool_decide (domain = "") then Some defaultComplianceDomain
               else match compliancePacks domain with Some _ => Some domain | None => None end in
      match d with
      | None => reply_error 400 "domain must be one of h2|battery|diesel|cng"
      | Some d =>
          try! stored := generateAndStore n d catch e => infra_internal "generate compliance report" e in
          reply 201 (report_json stored)
      end
  end.
End Handlers.

(** ** What a report says *)

Section Report.
Context `{Runtime} `{PgServer} `{StationEnv} `{PgNumeric} {S : Type}.
Implicit Types w : World ReportDB S.

(** The sections of a domain: name, field and figure, given the rows of the two
    counts by group. *)
Definition report_table (statuses severities : list (string * Z)) (pack : compliancePack) (days now : Z) (d : ReportDB) :
    list (string * string * result json) :=
  app [("incidents_by_status", "incidents_by_status", Ok (counters statuses));
       ("incidents_by_severity", "incidents_by_severity_period", Ok (counters severities))]
  (app (if LeakAging pack then [("leak_aging", "unresolved_leaks", aging (LeakTypes pack) now d)] else [])
  (app (if BatteryThermal pack then [("battery_thermal", "battery_thermal_incidents", aging ["battery_thermal"] now d)] else [])
  [("mttr", "mttr", mttr days now d); ("maintenance_predictions", "maintenance_predictions_period", predictions days now d);
   ("work_orders", "work_orders_open", open_orders d);
   ("fleet", "fleet_availability", match vehicles_total d, reporting now d with
                                   | Ok t, Ok n => Ok (availability t n) | Err e, _ | _, Err e => Err e end);
   ("stations", "stations", inventory d)])).

(** The draft after some sections, each read or named. *)
Inductive drafted : list (string * string * result json) -> draft -> draft -> Prop :=
| DraftNil b : drafted [] b b
| DraftRead n f v l b b' : drafted l (jset f v b.1, b.2) b' -> drafted ((n, f, Ok v) :: l) b b'
| DraftNamed n f r l b b' : drafted l (b.1, app b.2 [n]) b' -> drafted ((n, f, r) :: l) b b'.

Lemma drafted_app l1 l2 b1 b2 b3 : drafted l1 b1 b2 -> drafted l2 b2 b3 -> drafted (app l1 l2) b1 b3.
Proof. intros Hd1 Hd2. induction Hd1; cbn [app]; [done|by apply DraftRead, IHHd1|by apply DraftNamed, IHHd1]. Qed.

Lemma drafted_fill n f r r0 b : r = r0 \/ (exists e, r = Err e) -> drafted [(n, f, r0)] b (fill n f r b).
Proof.
  intros [-> |[e ->]].
  - destruct r0 as [v|e]; [apply DraftRead|apply DraftNamed]; apply DraftNil.
  - apply DraftNamed, DraftNil.
Qed.

(** Untouched fields and the names so far stay. *)
Lemma drafted_frame l b b' : drafted l b b' ->
  (forall k, k ∉ map (fun s => s.1.2) l -> jget k b'.1 = jget k b.1) /\ (forall n, n ∈ b'.2 <-> n ∈ b.2 \/ n ∈ b'.2 /\ n ∈ map (fun s => s.1.1) l).
Proof.
  induction 1 as [b|n f v l b b' Hd [IHf IHn]|n f r l b b' Hd [IHf IHn]]; cbn [map fst snd].
  - split; [done|]. intros n. rewrite elem_of_nil. tauto.
  - split.
    + intros k [Hk Hl]%not_elem_of_cons. rewrite IHf by done. cbn [fst]. by rewrite jget_jset_ne.
    + intros k. rewrite elem_of_cons. rewrite IHn at 1. cbn [snd]. rewrite (IHn k). cbn [snd]. tauto.
  - split.
    + intros k [Hk Hl]%not_elem_of_cons. by rewrite IHf.
    + intros k. rewrite elem_of_cons. pose proof (IHn k) as E. cbn [snd] in E. rewrite elem_of_app, elem_of_cons, elem_of_nil in E.
      assert (n ∈ b'.2) by (apply IHn; left; cbn [snd]; rewrite elem_of_app, elem_of_cons; auto). naive_solver.
Qed.

Definition read_or_named (b : draft) (s : string * string * result json) : Prop :=
  (s.1.1 ∈ b.2 /\ jget s.1.2 b.1 = None) \/ ((s.1.1 ∉ b.2) /\ exists v, s.2 = Ok v /\ jget s.1.2 b.1 = Some v).

Lemma drafted_sections l b b' : drafted l b b' -> NoDup (map (fun s => s.1.1) l) -> NoDup (map (fun s => s.1.2) l) ->
  (forall s, s ∈ l -> (s.1.1 ∉ b.2) /\ jget s.1.2 b.1 = None) -> forall s, s ∈ l -> read_or_named b' s.
Proof.
  induction 1 as [b|n f v l b b' Hd IH|n f r l b b' Hd IH]; cbn [map fst snd]; intros Hn Hf Hb s Hs; [by apply elem_of_nil in Hs| |].
  - apply list.NoDup_cons in Hn as [Hn1 Hn2], Hf as [Hf1 Hf2]. destruct (drafted_frame _ _ _ Hd) as [Hfr Hnm].
    destruct (Hb (n, f, Ok v)) as [Hnb _]; [apply elem_of_cons; by left|]. cbn [fst snd] in *.
    apply elem_of_cons in Hs as [-> |Hs].
    + right. cbn [fst snd]. split; [rewrite Hnm; naive_solver|]. exists v. split; [done|]. rewrite Hfr by done. apply jget_jset_eq.
    + apply IH; try done. intros s' Hs'. cbn [fst snd]. destruct (Hb s') as [H1' H2']; [apply elem_of_cons; by right|]. split; [done|].
      rewrite jget_jset_ne; [done|]. intros <-. apply Hf1. by apply (list_elem_of_fmap_2 (fun s => s.1.2)).
  - apply list.NoDup_cons in Hn as [Hn1 Hn2], Hf as [Hf1 Hf2]. destruct (drafted_frame _ _ _ Hd) as [Hfr Hnm].
    destruct (Hb (n, f, r)) as [Hnb Hfb]; [apply elem_of_cons; by left|]. cbn [fst snd] in *.
    apply elem_of_cons in Hs as [-> |Hs].
    + left. cbn [fst snd]. split; [apply Hnm; left; rewrite elem_of_app, elem_of_cons; auto|]. by rewrite Hfr.
    + apply IH; try done. intros s' Hs'. cbn [fst snd]. destruct (Hb s') as [H1' H2']; [apply elem_of_cons; by right|]. split; [|done].
      rewrite elem_of_app, elem_of_cons, elem_of_nil. intros [?|[E|[]]]; [done|]. apply Hn1. rewrite <- E. by apply (list_elem_of_fmap_2 (fun s => s.1.1)).
Qed.

(** *** The sections *)

(** No result is cut off while it is read. *)
Definition uncut w : Prop := LostReply ∉ w_sched w.

Lemma uncut_pop w : uncut w -> uncut (pop w).2 /\ (pop w).1 <> LostReply.
Proof.
  unfold uncut, pop. destruct w as [d l b n u [|o s] h snt]; cbn [w_sched]; intros Hu; [done|].
  apply not_elem_of_cons in Hu as [Ho Hs]. by split.
Qed.

(** A section reads its figure or is named, and leaves the tables; its figures
    are as [figures] says, which is told whether no result is cut off. *)
Definition one_section (m : draft -> M ReportDB S draft) (figures : Prop -> list (string * string * result json) -> Prop) w : Prop :=
  forall b s, wp (m b) (fun b' w' => exists s' l, w' = with_sched s' w /\ figures (LostReply ∉ s) l /\ drafted l b b' /\
    ((LostReply ∉ s) -> LostReply ∉ s')) (with_sched s w).

Abbreviation exact_section m l := (one_section m (fun _ l' => l' = l)).

Lemma query_section {A} (f : ReportDB -> result A) (Q : result A -> World ReportDB S -> Prop) s w :
  (forall s' r, r = f (w_db w) \/ r = Err (ErrIO "db") -> ((LostReply ∉ s) -> LostReply ∉ s') -> Q r (with_sched s' w)) ->
  wp (db_query f) Q (with_sched s w).
Proof.
  intros HQ. unfold wp, db_query. pose proof (uncut_pop (with_sched s w)) as Hu.
  destruct (pop_sched (with_sched s w)) as (o & s' & E). rewrite E in *. unfold uncut in Hu. cbn [fst snd w_sched with_sched w_db] in *.
  destruct o; apply HQ; auto; tauto.
Qed.

Lemma section_ok n f q w : exact_section (section n f q) [(n, f, q (w_db w))] w.
Proof.
  intros b s. unfold section. apply wp_bind, query_section. intros s' r Hr Hs. apply wp_ret. exists s', [(n, f, q (w_db w))].
  split_and!; try done. apply drafted_fill. destruct Hr as [-> | ->]; eauto.
Qed.

Lemma count_section_ok n f q w : one_section (count_section n f q) 
  (fun U t => exists l, l `prefix_of` q (w_db w) /\ (U -> l = q (w_db w)) /\ t = [(n, f, Ok (counters l))]) w.
Proof.
  intros b s. unfold count_section. apply wp_bind. unfold wp, read_rows. pose proof (uncut_pop (with_sched s w)) as Hu.
  destruct (pop_sched (with_sched s w)) as (o & s' & E). rewrite E in *. unfold uncut in Hu. cbn [fst snd w_sched with_sched w_db] in *.
  assert (forall l r, l `prefix_of` q (w_db w) -> (o <> LostReply -> l = q (w_db w)) -> r = Ok l \/ (exists e, r = Err e) ->
    exists s'' t, with_sched s' w = with_sched s'' w /\
      (exists l, l `prefix_of` q (w_db w) /\ ((LostReply ∉ s) -> l = q (w_db w)) /\ t = [(n, f, Ok (counters l))]) /\
      drafted t b (fill n f (result_map counters r) b) /\ ((LostReply ∉ s) -> LostReply ∉ s'')) as Hl.
  { intros l r Hp Hw Hr. exists s', [(n, f, Ok (counters l))]. split_and!; [done| | |by intros [? _]%Hu].
    - exists l. split_and!; [done|by intros [_ Ho]%Hu; apply Hw|done].
    - apply drafted_fill. destruct Hr as [-> |[e ->]]; eauto. }
  destruct o; cbn [gret].
  - by apply (Hl (q (w_db w))); [| |left].
  - by apply (Hl (q (w_db w))); [| |right; eexists].
  - apply (Hl (take rows_arrived (q (w_db w)))); [apply prefix_take|done|by left].
Qed.

Lemma fleet_section_ok now w : exact_section (fleet_section now) [("fleet", "fleet_availability",
  match vehicles_total (w_db w), reporting now (w_db w) with Ok t, Ok n => Ok (availability t n) | Err e, _ | _, Err e => Err e end)] w.
Proof.
  intros b s. unfold fleet_section. apply wp_bind, query_section. intros s1 r1 Hr1 Hs1.
  assert (forall s' r, r = Ok (availability (Z.of_nat (size (rp_vehicles (w_db w))))
      (Z.of_nat (length (remove_dups (map tm_bus (filter (fun t => now - day < tm_ts t) (rp_telemetry (w_db w)))))))) \/ (exists e, r = Err e) ->
    ((LostReply ∉ s) -> LostReply ∉ s') ->
    wp (gret (fill "fleet" "fleet_availability" r b)) (fun b' w' => exists s' t, w' = with_sched s' w /\
      t = [("fleet", "fleet_availability", match vehicles_total (w_db w), reporting now (w_db w) with
                                            | Ok t, Ok n => Ok (availability t n) | Err e, _ | _, Err e => Err e end)] /\ drafted t b b' /\
      ((LostReply ∉ s) -> LostReply ∉ s'))
      (with_sched s' w)) as Hend.
  { intros s' r Hr Hs. apply wp_ret. eexists s', _. split_and!; [done|reflexivity|by apply drafted_fill|done]. }
  destruct Hr1 as [-> | ->]; [|apply Hend; eauto]. unfold vehicles_total at 1. cbn iota.
  apply wp_bind, query_section. intros s2 r2 Hr2 Hs2. apply Hend; [|tauto]. destruct Hr2 as [-> | ->]; [by left|right; by eexists].
Qed.

Lemma no_section w : exact_section gret [] w.
Proof. intros b s. apply wp_ret. exists s, []. split_and!; try done. apply DraftNil. Qed.

Lemma one_section_bind {A} (m : draft -> M ReportDB S draft) figures w b (k : draft -> M ReportDB S A) (Q : A -> World ReportDB S -> Prop) s
    (U : Prop) :
  one_section m figures w -> (U -> LostReply ∉ s) ->
  (forall b' s' l, (U -> LostReply ∉ s') -> figures (LostReply ∉ s) l -> drafted l b b' -> wp (k b') Q (with_sched s' w)) ->
  wp (gbind (m b) k) Q (with_sched s w).
Proof.
  intros Hm Hs Hk. apply wp_bind. eapply wp_mono; [|by apply Hm]. intros b' w' (s' & l & -> & Hp & Hd & Hu).
  apply (Hk b' s' l); [by intros ?%Hs%Hu|done|done].
Qed.
End Report.

(** ** The report is exact *)

Section Exact.
Context `{Runtime} `{PgServer} `{StationEnv} `{PgNumeric} {S : Type}.
Implicit Types w : World ReportDB S.

Definition pack_of (domain : string) : compliancePack * string :=
  match compliancePacks domain with Some p => (p, domain) | None => (mkPack true ["h2_leak"] false, "h2") end.

(** The head of every report. *)
Definition report_head (days now : Z) (domain : string) : list (string * json) :=
  [("generated_at", JTime now); ("standard", JStr "H2Fleet safety & compliance (SPEC §3.4 infra schema)");
   ("domain", JStr domain); ("period_days", JInt days); ("period_start", JTime (now - days * day))].

(** The groups that were read are among those there are, all of them if no
    result is cut off. *)
Definition groups_read (days : Z) w (statuses severities : list (string * Z)) : Prop :=
  statuses `prefix_of` by_status (w_db w) /\ severities `prefix_of` by_severity days (w_now w) (w_db w) /\
  (uncut w -> statuses = by_status (w_db w) /\ severities = by_severity days (w_now w) (w_db w)).

Lemma buildReport_drafted days domain w :
  wp (buildReport days domain) (fun j w' => (exists s, w' = with_sched s w) /\ exists statuses severities b,
    groups_read days w statuses severities /\
    drafted (report_table statuses severities (pack_of domain).1 days (w_now w) (w_db w)) (report_head days (w_now w) (pack_of domain).2, []) b /\
    j = JObj (if bool_decide (b.2 = []) then b.1 else jset "degraded" (JList (map JStr b.2)) b.1)) w.
Proof.
  unfold buildReport. apply wp_bind, wp_gets. fold (pack_of domain). destruct (pack_of domain) as [pack dom] eqn:Ep.
  cbn [fst snd]. fold (report_head days (w_now w) dom). set (b0 := (report_head days (w_now w) dom, [])).
  match goal with |- wp ?m ?Q w => enough (forall s, (uncut w -> LostReply ∉ s) -> wp m Q (with_sched s w)) as Hgen by
    (specialize (Hgen (w_sched w) (fun Hu => Hu)); replace (with_sched (w_sched w) w) with w in Hgen by (by destruct w); exact Hgen) end.
  intros s Hs.
  eapply one_section_bind; [apply count_section_ok|exact Hs|]. intros b1 s1 t1 Hs1 (statuses & Hp1 & Hw1 & ->) D1.
  eapply one_section_bind; [apply count_section_ok|exact Hs1|]. intros b2 s2 t2 Hs2 (severities & Hp2 & Hw2 & ->) D2.
  eapply (one_section_bind (fun b => if LeakAging pack then section "leak_aging" "unresolved_leaks" (aging (LeakTypes pack) (w_now w)) b else gret b)
      (fun _ l => l = if LeakAging pack then [("leak_aging", "unresolved_leaks", aging (LeakTypes pack) (w_now w) (w_db w))] else []));
    [destruct (LeakAging pack); [apply section_ok|apply no_section]|exact Hs2|]. intros b3 s3 t3 Hs3 Ht3 D3.
  eapply (one_section_bind (fun b => if BatteryThermal pack then section "battery_thermal" "battery_thermal_incidents" (aging ["battery_thermal"] (w_now w)) b else gret b)
      (fun _ l => l = if BatteryThermal pack then [("battery_thermal", "battery_thermal_incidents", aging ["battery_thermal"] (w_now w) (w_db w))] else []));
    [destruct (BatteryThermal pack); [apply section_ok|apply no_section]|exact Hs3|]. intros b4 s4 t4 Hs4 Ht4 D4.
  eapply one_section_bind; [apply section_ok|exact Hs4|]. intros b5 s5 t5 Hs5 -> D5.
  eapply one_section_bind; [apply section_ok|exact Hs5|]. intros b6 s6 t6 Hs6 -> D6.
  eapply one_section_bind; [apply section_ok|exact Hs6|]. intros b7 s7 t7 Hs7 -> D7.
  eapply one_section_bind; [apply fleet_section_ok|exact Hs7|]. intros b8 s8 t8 Hs8 -> D8.
  eapply one_section_bind; [apply section_ok|exact Hs8|]. intros b9 s9 t9 Hs9 -> D9.
  apply wp_ret. split; [by exists s9|]. exists statuses, severities, b9. split_and!; [| |done].
  { split_and!; [done|done|]. intros Hu. split; [by apply Hw1, Hs|by apply Hw2, Hs1]. }
  subst t3 t4. unfold report_table.
  eapply drafted_app; [eapply (drafted_app [_] [_]); eassumption|]. eapply drafted_app; [exact D3|]. eapply drafted_app; [exact D4|].
  eapply (drafted_app [_] [_; _; _; _]); [exact D5|]. eapply (drafted_app [_] [_; _; _]); [exact D6|]. eapply (drafted_app [_] [_; _]); [exact D7|].
  eapply (drafted_app [_] [_]); [exact D8|exact D9].
Qed.

Lemma report_table_names ss vs pack days now d :
  NoDup (map (fun s => s.1.1) (report_table ss vs pack days now d)) /\ NoDup (map (fun s => s.1.2) (report_table ss vs pack days now d)).
Proof.
  unfold report_table. destruct (LeakAging pack), (BatteryThermal pack); cbn [map app fst snd];
    split; apply (bool_decide_unpack _); vm_compute; exact I.
Qed.

Definition section_fields : list string := ["incidents_by_status"; "incidents_by_severity_period"; "unresolved_leaks"; "battery_thermal_incidents";
  "mttr"; "maintenance_predictions_period"; "work_orders_open"; "fleet_availability"; "stations"].

Lemma report_table_fields ss vs pack days now d s : s ∈ report_table ss vs pack days now d -> s.1.2 ∈ section_fields.
Proof.
  unfold report_table. intros Hs. assert (s.1.2 ∈ map (fun s => s.1.2) (report_table ss vs pack days now d)) as Hin
    by (by apply (list_elem_of_fmap_2 (fun s => s.1.2))). revert Hin. clear Hs. unfold report_table.
  destruct (LeakAging pack), (BatteryThermal pack); cbn [map app fst snd]; rewrite !elem_of_cons, elem_of_nil; intros Hin;
    repeat destruct Hin as [-> |Hin]; try done; by apply (bool_decide_unpack _).
Qed.

(** C38: a compliance report is exact or says what it lacks.  Whatever queries
    fail, every section of the domain's template either holds exactly the figure
    its query has over the tables, or is absent and named in degraded; and
    building it changes nothing.  Of the two sections that count by group only
    some groups may be there, when their result was cut off while it was read
    (the loops do not ask; see [cut_result_reported]); a group that is there has
    its exact count, and all are there if no result is cut off.  The figure of
    mttr is the query's, over incidents opened in the window (its comment says
    closed; see [mttr_by_opening]). *)
Theorem report_exact_or_degraded days domain w :
  let '(j, w') := buildReport days domain w in
  w_db w' = w_db w /\ exists fields degraded statuses severities, j = JObj fields /\ groups_read days w statuses severities /\
    (degraded = [] /\ jget "degraded" fields = None \/ degraded <> [] /\ jget "degraded" fields = Some (JList (map JStr degraded))) /\
    forall name field figure, (name, field, figure) ∈ report_table statuses severities (pack_of domain).1 days (w_now w) (w_db w) ->
      (name ∈ degraded /\ jget field fields = None) \/ ((name ∉ degraded) /\ exists v, figure = Ok v /\ jget field fields = Some v).
Proof.
  pose proof (buildReport_drafted days domain w) as Hw. unfold wp in Hw.
  destruct (buildReport days domain w) as [j w']. cbn [fst snd] in Hw. destruct Hw as [(s & ->) (ss & vs & b & Hg & Hd & ->)].
  split; [done|]. set (t := report_table _ _ _ _ _ _) in *.
  destruct (report_table_names ss vs (pack_of domain).1 days (w_now w) (w_db w)) as [Hn Hf].
  assert (forall f, f ∈ section_fields -> jget f (report_head days (w_now w) (pack_of domain).2) = None /\ f <> "degraded") as Hhead.
  { intros f Hin. unfold section_fields in Hin. rewrite !elem_of_cons, elem_of_nil in Hin. repeat destruct Hin as [-> |Hin]; done. }
  assert (forall s0, s0 ∈ t -> read_or_named b s0) as Hs0.
  { apply (drafted_sections _ _ _ Hd Hn Hf). intros s0 Hin. cbn [fst snd]. split; [by intros ?%elem_of_nil|]. by apply report_table_fields, Hhead in Hin as [? _]. }
  assert (jget "degraded" b.1 = None) as Hdeg.
  { rewrite (proj1 (drafted_frame _ _ _ Hd)); [done|]. intros (s0 & E & Hin)%list_elem_of_fmap. by apply report_table_fields, Hhead in Hin as [_ ?]. }
  case_bool_decide as Hb.
  - exists b.1, b.2, ss, vs. split_and!; [done|done|by left|]. intros name field figure Hin. exact (Hs0 _ Hin).
  - exists (jset "degraded" (JList (map JStr b.2)) b.1), b.2, ss, vs. split_and!; [done|done|right; split; [done|apply jget_jset_eq]|].
    intros name field figure Hin. pose proof (report_table_fields _ _ _ _ _ _ _ Hin) as Hfld. cbn [fst snd] in Hfld. apply Hhead in Hfld as [_ Hne].
    rewrite jget_jset_ne by done. exact (Hs0 _ Hin).
Qed.

(** *** Storing *)

Definition same_tables (l l' : left_behind ReportDB S) : Prop := lf_db l' = lf_db l.

#[local] Instance same_tables_preorder : PreOrder same_tables.
Proof. split; [done|]. intros a b c. unfold same_tables. congruence. Qed.

Lemma keeps_count n f q b : keeps same_tables (count_section (S := S) n f q b).
Proof.
  unfold count_section. repeat keep_step.
Qed.

Lemma buildReport_keeps days domain : keeps same_tables (buildReport (S := S) days domain).
Proof.
  unfold buildReport, section, fleet_section. apply keeps_bind; [apply _|keep_step|]. intros now.
  destruct (match compliancePacks domain with Some p => _ | None => _ end) as [pack dom].
  repeat first [apply keeps_count|case_match|keep_step].
Qed.

(** Generating stores one report or none.  An answer of 201 means a window
    of 1 to 365 days, a known domain, and exactly one new row, which is the
    answer; a refusal of the parameters (400) changes nothing; any other
    answer is 500, and then a row may have been stored only if the reply to
    its insertion was lost. *)
Theorem generate_stores_one days domain w :
  let '(r, w') := GenerateComplianceReport days domain w in
  (status r = 201 /\ (exists x, rp_reports (w_db w) !! cr_id x = None /\ w_db w' = put_report x (w_db w) /\ body r = report_json x) /\
     (days = "" \/ exists n, ParseInt days = Some n /\ 1 <= n <= maxReportDays) /\ (domain = "" \/ is_Some (compliancePacks domain))) \/
  (status r = 400 /\ w' = w) \/
  (status r = 500 /\ (w_db w' = w_db w \/ exists x, rp_reports (w_db w) !! cr_id x = None /\ w_db w' = put_report x (w_db w))).
Proof.
  assert (forall n d w, wp (generateAndStore (S := S) n d) (fun res w' =>
    (exists x, rp_reports (w_db w) !! cr_id x = None /\ w_db w' = put_report x (w_db w) /\ (res = Ok x \/ exists e, res = Err e)) \/
    (w_db w' = w_db w /\ exists e, res = Err e)) w) as Hgen.
  { intros n d w0. unfold generateAndStore. apply wp_bind. unfold wp at 1. pose proof (buildReport_keeps n d w0) as Hk.
    destruct (buildReport n d w0) as [j w1]. unfold same_tables, view in Hk. cbn [fst snd lf_db] in *. destruct (encodable j); cbn [negb].
    - apply wp_bind, wp_new_uuid, wp_bind, wp_gets. cbn [w_now w_db with_uuids]. apply wp_db_exec; cbn [w_db with_sched with_db with_uuids]; rewrite Hk; intros s.
      + intros x g Hi. unfold insert_report in Hi. destruct (rp_reports (w_db w0) !! _) eqn:E; [done|]. injection Hi as <- <-. left. eauto 10.
      + intros x g Hi. unfold insert_report in Hi. destruct (rp_reports (w_db w0) !! _) eqn:E; [done|]. injection Hi as <- <-. left. eauto 10.
      + intros e _. right. eauto.
      + right. eauto.
    - apply wp_ret. right. eauto. }
  unfold GenerateComplianceReport. set (n := if bool_decide (days = "") then _ else _).
  assert (n = None \/ exists k, n = Some k /\ (days = "" \/ exists z, ParseInt days = Some z /\ 1 <= z <= maxReportDays)) as Hn.
  { unfold n. case_bool_decide; [right; eauto|]. destruct (ParseInt days) as [z|]; [|by left].
    destruct ((z <? 1) || (maxReportDays <? z)) eqn:Ez; [by left|right]. apply orb_false_iff in Ez as [H1'%Z.ltb_ge H2'%Z.ltb_ge].
    exists z. split; [done|]. right. exists z. split; [done|lia]. }
  destruct Hn as [-> |(k & -> & Hdays)]; [right; by left|].
  set (dom := if bool_decide (domain = "") then _ else _).
  assert (dom = None \/ exists d, dom = Some d /\ (domain = "" \/ is_Some (compliancePacks domain))) as Hd.
  { unfold dom. case_bool_decide; [right; eauto|]. destruct (compliancePacks domain); [right; eauto|by left]. }
  destruct Hd as [-> |(d & -> & Hdom)]; [right; by left|].
  specialize (Hgen k d w). unfold wp in Hgen. unfold gbind. destruct (generateAndStore k d w) as [res w'].
  cbn [fst snd] in Hgen. destruct Hgen as [(x & Hx & E & [-> |[e ->]])|[E [e ->]]]; cbn [gret reply infra_internal reply_error].
  - left. split_and!; eauto.
  - right. right. split; [done|]. right. eauto.
  - right. right. auto.
Qed.

(** The buses that report are vehicles of the fleet, so the share is at most
    the whole. *)
Lemma reporting_bounded now (d : ReportDB) n t : (forall x, x ∈ rp_telemetry d -> tm_bus x ∈ rp_vehicles d) ->
  reporting now d = Ok n -> vehicles_total d = Ok t -> 0 <= n <= t.
Proof.
  intros Hfk Hn Ht. injection Hn as <-. injection Ht as <-. split; [lia|]. apply Nat2Z.inj_le.
  set (l := remove_dups _). rewrite <- (size_list_to_set (C := gset string) l) by apply NoDup_remove_dups.
  apply subseteq_size. intros b Hb. apply elem_of_list_to_set in Hb. unfold l in Hb. rewrite elem_of_remove_dups in Hb.
  apply list_elem_of_fmap in Hb as (x & -> & Hx). apply list_elem_of_filter in Hx as [_ Hx]. by apply Hfk.
Qed.
End Exact.

(** ** Concrete runs *)

Section Witnesses.
#[local] Existing Instance test_runtime.
#[local] Existing Instance test_server.
#[local] Existing Instance test_station_env.
#[local] Existing Instance test_numeric.

(** A leak opened 40 days ago and resolved an hour ago, and an open one; one
    of two buses reports. *)
Definition report_db : ReportDB := mkReportDB
  (<["i1" := mkIncident "i1" "h2_leak" "high" None None "resolved" 0 [] (Some (40 * day - 3600000))]>
    (<["i2" := mkIncident "i2" "h2_leak" "low" None None "open" (40 * day - 7200000) [] None]> ∅))
  ∅ {["b1"; "b2"]} [mkTelemetry "b1" (40 * day - 5000) None None None None None] ∅
  (<["s" := mkStation "s" "Depot" (Some (Q2Qc 100)) (Some (Q2Qc 40)) "online" "h2" None None None]> ∅) ∅.

Definition report_world : World ReportDB unit := mkWorld report_db tt [] (40 * day) 0 [] [] [].

Definition field_of (r : response) (k : string) : option json :=
  match body r with JObj fs => match jget "report" fs with Some (JObj rs) => jget k rs | _ => None end | _ => None end.

Lemma report_exact_or_degraded_witness :
  exists fields (degraded : list string), (buildReport 30 "h2" (with_sched [Done; Lost] report_world)).1 = JObj fields /\
    ("incidents_by_severity" ∈ degraded /\ jget "incidents_by_severity_period" fields = None \/
     jget "incidents_by_severity_period" fields = Some (counters [("low", 1)])).
Proof.
  pose proof (report_exact_or_degraded 30 "h2" (with_sched [Done; Lost] report_world)) as Hr.
  destruct (buildReport 30 "h2" (with_sched [Done; Lost] report_world)) as [j w'].
  destruct Hr as (_ & fields & degraded & ss & vs & -> & (_ & _ & Hu) & _ & Hs). exists fields, degraded. split; [done|].
  destruct Hu as [-> ->]; [unfold uncut; cbn; rewrite !elem_of_cons, elem_of_nil; naive_solver|].
  destruct (Hs "incidents_by_severity" "incidents_by_severity_period" (Ok (counters (by_severity 30 (40 * day) report_db)))) as [Hl|(_ & v & E & Hv)].
  - apply elem_of_cons. right. apply elem_of_cons. by left.
  - by left.
  - right. injection E as <-. rewrite Hv. vm_compute. reflexivity.
Defined.

(** The mean time to resolve is documented over incidents closed inside the
    window; the query asks when they were opened, so the leak resolved an hour
    ago is not counted. *)
Theorem mttr_by_opening : mttr 30 (40 * day) report_db = Ok (JObj [("resolved_in_period", JInt 0); ("avg_hours", JNull)]).
Proof. vm_compute. reflexivity. Qed.

(** A result cut off after its first rows is reported as the whole, and the
    report does not say so. *)
Theorem cut_result_reported :
  let r := (GenerateComplianceReport "" "" (with_sched [LostReply] report_world)).1 in
  status r = 201 /\ field_of r "incidents_by_status" = Some (JObj []) /\ field_of r "degraded" = None.
Proof. vm_compute. auto. Qed.
End Witnesses.
