(* ===== verification/AuditClient.v ===== *)
(** * The audit client

    Models services/go/audit-log/pkg/auditclient/client.go: the entry a
    service emits, its JSON, the POST to audit-log, and the middleware that
    emits one entry for every mutation that succeeds.  What the client needs
    of the service at the other end is the interface [AuditPeer]; the
    handlers of [AuditLog] behind their token guard implement it, so that the
    last theorems follow a request from the middleware into the hash chain. *)

From Stdlib Require Import Ascii.
From S2P Require Import Prelude Codec Json World Auth AuthGuard AuditLog.

Open Scope go_scope.

(** What the handlers behind a route are given of a request: the body, the
    peer's address and agent, the URL parameters. *)
Record request : Type := mkRequest {
  rq_body : list Z; rq_remote : string; rq_agent : string; rq_params : list (string * string)
}.

Definition with_body (b : list Z) (q : request) : request :=
  mkRequest b (rq_remote q) (rq_agent q) (rq_params q).

(** [chi.URLParam]: the last parameter of that name, empty without one. *)
Definition URLParam (q : request) (k : string) : string :=
  foldl (fun acc p => if decide (p.1 = k) then p.2 else acc) "" (rq_params q).

(** The service at AUDIT_LOG_URL: whether net/url takes the address, and what
    a POST to it answers, given the X-Audit-Token header (empty for none) and
    the JSON body. *)
Class AuditPeer (S : Type) : Type := {
  url_parses : string -> bool;
  post_audit : string -> string -> list (string * json) -> S -> Z * S
}.

(** ** Client *)

Record Client : Type := mkClient { cl_base : string; cl_token : string; cl_service : string }.

Definition New (baseURL token service : string) : Client :=
  mkClient (TrimSuffix1 baseURL "/") token service.

Definition FromEnv (service : string) (env : string -> string) : Client :=
  New (env "AUDIT_LOG_URL") (env "AUDIT_INGEST_TOKEN") service.

(** A nil client is [None]. *)
Definition Enabled (c : option Client) : bool :=
  match c with Some c => negb (bool_decide (cl_base c = "")) | None => false end.

(** The payload; [Before] and [After] are raw JSON. *)
Record Entry : Type := mkEntry {
  e_actor : string; e_roles : list string; e_action : string; e_entity : string; e_entity_id : string;
  e_before : option (list Z); e_after : option (list Z); e_ip : string; e_ua : string
}.

(** A raw member: [json.Marshal] checks and compacts it. *)
Definition raw_member (k : string) (o : option (list Z)) : option (list (string * json)) :=
  match o with
  | None => Some []
  | Some raw => if Valid raw then Some [(k, JStr (bytes_string (compact raw)))] else None
  end.

(** [json.Marshal] of an entry.  As in [AuditLog.entry_json], a raw member
    stands in the document as its text. *)
Definition Marshal (e : Entry) : option (list (string * json)) :=
  before ← raw_member "before" (e_before e);
  after ← raw_member "after" (e_after e);
  Some ([("actor_sub", JStr (e_actor e))]
    ++ (if decide (e_roles e = []) then [] else [("actor_roles", JList (map JStr (e_roles e)))])
    ++ [("action", JStr (e_action e)); ("entity", JStr (e_entity e))]
    ++ jnonempty "entity_id" (e_entity_id e) ++ before ++ after
    ++ jnonempty "ip" (e_ip e) ++ jnonempty "ua" (e_ua e)).

(** [RolesFromContext]. *)
Definition RolesFromContext (ctx : claims) : list string :=
  match ctx with
  | None => []
  | Some c =>
      let ra := match jget "realm_access" c with Some (JObj f) => f | _ => [] end in
      let raw := match jget "roles" ra with Some (JList l) => l | _ => [] end in
      omap (fun v => match v with JStr s => Some s | _ => None end) raw
  end.

(** What the middleware reads of a body at most: [64<<10] bytes. *)
Definition captureLimit : nat := Z.to_nat 65536.

Section Client.
Context {D S : Type} `{AuditPeer S}.

(** [Emit]: failures are logged and counted, never returned. *)
Definition Emit (c : option Client) (e : Entry) : M D S unit :=
  match c with
  | None => gret tt
  | Some cl =>
      if negb (Enabled c) then gret tt
      else
        match Marshal e with
        | None => gret tt
        | Some doc =>
            let url := cl_base cl +:+ "/v1/audit" in
            if negb (url_parses url) then gret tt
            else
              let! _ := led_call (fun s => let '(st, s) := post_audit url (cl_token cl) doc s in (Ok st, s)) in
              gret tt
        end
  end.

(** The entry for a request that was served. *)
Definition entry_of (action entity idParam : string) (captureBody : bool) (bodyCopy : list Z)
    (q : request) (ctx : claims) : Entry :=
  mkEntry (Subject ctx) (RolesFromContext ctx) action entity
    (if decide (idParam = "") then "" else URLParam q idParam) None
    (if captureBody && negb (bool_decide (bodyCopy = [])) && Valid bodyCopy then Some bodyCopy else None)
    (rq_remote q) (rq_agent q).

(** [Middleware]: the handler runs on what was read of the body. *)
Definition Middleware (c : option Client) (action entity idParam : string) (captureBody : bool)
    (next : request -> claims -> M D S response) (q : request) (ctx : claims) : M D S response :=
  if negb (Enabled c) then next q ctx
  else
    let bodyCopy := if captureBody then take captureLimit (rq_body q) else [] in
    let q := if captureBody then with_body bodyCopy q else q in
    let! r := next q ctx in
    if 400 <=? status r then gret r
    else do! Emit c (entry_of action entity idParam captureBody bodyCopy q ctx) in gret r.

(** ** What the middleware leaves alone *)

(** Everything but the schedule and the peer. *)
Definition same_service (w w' : World D S) : Prop :=
  w_db w' = w_db w /\ w_bus w' = w_bus w /\ w_now w' = w_now w /\ w_uuids w' = w_uuids w /\
  w_http w' = w_http w /\ w_sent w' = w_sent w.

Lemma emit_same_service c e (w : World D S) : wp (Emit c e) (fun _ w' => same_service w w') w.
Proof.
  assert (forall w0 : World D S, same_service w0 w0) as Hrefl by (intros; by split_and!).
  unfold Emit. destruct c as [cl|]; [|by apply wp_ret]. destruct (negb _); [by apply wp_ret|].
  destruct (Marshal e) as [doc|]; [|by apply wp_ret]. cbv zeta. destruct (negb _); [by apply wp_ret|].
  apply wp_bind, wp_led_call; intros; by apply wp_ret.
Qed.

(** The request the handler is given: with a live client that captures bodies
    only the first 64 KiB of the body are left. *)
Definition handed_on (c : option Client) (captureBody : bool) (q : request) : request :=
  if Enabled c && captureBody then with_body (take captureLimit (rq_body q)) q else q.



Lemma entry_handed_on c action entity idParam captureBody b q ctx :
  entry_of action entity idParam captureBody b (handed_on c captureBody q) ctx = entry_of action entity idParam captureBody b q ctx.
Proof. unfold entry_of, handed_on. by destruct (_ && _). Qed.

Lemma middleware_transparent c action entity idParam captureBody next q ctx (w : World D S) :
  let out := next (handed_on c captureBody q) ctx w in
  wp (Middleware c action entity idParam captureBody next q ctx) (fun r w' => r = out.1 /\ same_service out.2 w') w.
Proof.
  cbv zeta. assert (forall w0 : World D S, same_service w0 w0) as Hrefl by (intros; by split_and!).
  unfold Middleware, handed_on. destruct (Enabled c) eqn:Ec; [|by split]. cbn [negb andb].
  assert ((if captureBody then with_body (if captureBody then take captureLimit (rq_body q) else []) q else q)
    = (if captureBody then with_body (take captureLimit (rq_body q)) q else q)) as -> by by destruct captureBody.
  apply wp_bind. unfold wp at 1. destruct (next _ ctx w) as [r w1]. simpl.
  destruct (400 <=? status r); [by apply wp_ret|]. apply wp_bind.
  eapply wp_mono; [|apply emit_same_service]. intros [] w2 Hs. by apply wp_ret.
Qed.
End Client.

(** ** The service at the other end *)

(** A raw member as [*json.RawMessage] takes it: null is the nil pointer. *)
Definition raw_field (doc : list (string * json)) (k : string) : option string :=
  match jget k doc with
  | Some (JStr s) => if decide (s = "null") then None else Some s
  | _ => None
  end.

Fixpoint all_strings (l : list json) : option (list string) :=
  match l with
  | [] => Some []
  | JStr s :: l' => r ← all_strings l'; Some (s :: r)
  | _ => None
  end.

Definition dec_strings (doc : list (string * json)) (k : string) : option (list string) :=
  match jget k doc with
  | None | Some JNull => Some []
  | Some (JList l) => all_strings l
  | _ => None
  end.

Definition dec_time (doc : list (string * json)) (k : string) : option (option Z) :=
  match jget k doc with
  | None | Some JNull => Some None
  | Some (JTime t) => Some (Some t)
  | _ => None
  end.

(** [Decode] of the body into audit-log's [ingestRequest]. *)
Definition decode_ingest (doc : list (string * json)) : option ingestRequest :=
  actor ← dec_str doc "actor_sub";
  roles ← dec_strings doc "actor_roles";
  action ← dec_str doc "action";
  entity ← dec_str doc "entity";
  entity_id ← dec_str doc "entity_id";
  ip ← dec_str doc "ip";
  ua ← dec_str doc "ua";
  ts ← dec_time doc "ts";
  Some (mkIngest actor roles action entity entity_id (raw_field doc "before") (raw_field doc "after") ip ua ts).

(** A raw member as it arrives. *)
Definition arrived (o : option (list Z)) : option string :=
  raw ← o; let s := bytes_string (compact raw) in if decide (s = "null") then None else Some s.

Definition valid_raw (o : option (list Z)) : Prop :=
  match o with Some raw => Valid raw = true | None => True end.

Lemma all_strings_map l : all_strings (map JStr l) = Some l.
Proof. induction l as [|s l IH]; simpl; [done|]. by rewrite IH. Qed.

Lemma raw_member_valid k o : valid_raw o ->
  raw_member k o = Some (match o with Some raw => [(k, JStr (bytes_string (compact raw)))] | None => [] end).
Proof. unfold raw_member. destruct o as [raw|]; simpl; [|done]. by intros ->. Qed.

Ltac empty_or_not s := destruct (decide (s = "")) as [->|?].

(** What is sent is what arrives. *)
Lemma entry_roundtrip e : valid_raw (e_before e) -> valid_raw (e_after e) ->
  exists doc, Marshal e = Some doc /\
    decode_ingest doc = Some (mkIngest (e_actor e) (e_roles e) (e_action e) (e_entity e) (e_entity_id e)
      (arrived (e_before e)) (arrived (e_after e)) (e_ip e) (e_ua e) None).
Proof.
  intros Hb Ha. destruct e as [actor roles action entity id before after ip ua]; simpl in *.
  unfold Marshal; simpl. rewrite !raw_member_valid by done. simpl. eexists. split; [done|].
  unfold jnonempty, arrived. pose proof (all_strings_map roles) as Hroles.
  destruct (decide (roles = [])) as [->|?]; empty_or_not id; empty_or_not ip; empty_or_not ua;
    destruct before as [b|], after as [a|];
    cbv -[map all_strings bytes_string compact]; rewrite ?Hroles; done.
Qed.

(** A deployed audit-log: its address, whether the client's net/url takes that
    address, its configuration and its JWT middleware. *)
Record AuditServer : Type := mkAuditServer {
  as_host : string;
  as_parses : string -> bool;
  as_detector : Detector;
  as_ingestToken : string;
  as_jwt : AuthGuard.Middleware
}.

Section Service.
Context `{Jsonb} `{TokenLib}.

(** The route POST /v1/audit: the shared token, or else the JWT guard, whose
    verdict on the request is given. *)
Definition audit_endpoint (sv : AuditServer) (tok : string) (verdict : response + list (string * json))
    (doc : list (string * json)) : M Audit unit response :=
  let ingest := Ingest (as_detector sv) (decode_ingest doc) in
  RequireIngestAuth (as_ingestToken sv) tok ingest (RequireAuth verdict (fun _ => ingest)).

(** The guard's verdict on a request without an Authorization header, which
    is what [Emit] sends; it asks neither the clock nor the realm. *)
Definition no_bearer (sv : AuditServer) : response + list (string * json) :=
  (guard (as_jwt sv) 0 JwksUnreachable "").1.

Definition audit_peer (sv : AuditServer) : AuditPeer (World Audit unit) := {|
  url_parses := as_parses sv;
  post_audit := fun url tok doc s =>
    if decide (url = as_host sv +:+ "/v1/audit")
    then let '(r, s) := audit_endpoint sv tok (no_bearer sv) doc s in (status r, s)
    else (404, s)
|}.

(** What a row says of the request it records. *)
Definition records (row : AuditLog.Entry) (r : ingestRequest) : Prop :=
  en_actor row = ig_actor r /\ en_roles row = ig_roles r /\ en_action row = ig_action r /\
  en_entity row = ig_entity r /\ en_entity_id row = ig_entity_id r /\ to_jsonb (ig_before r) = Ok (en_before row) /\
  to_jsonb (ig_after r) = Ok (en_after row) /\ en_ip row = ig_ip r /\ en_ua row = ig_ua r.

(** The log after one request: as before, or one row more that records it. *)
Definition at_most_recorded (r : ingestRequest) (s s' : World Audit unit) : Prop :=
  audit_log (w_db s') = audit_log (w_db s) \/
  exists row, records row r /\ audit_log (w_db s') = audit_log (w_db s) ++ [row].

Context `{!JsonbLaws}.

(** The entry the handler builds of a request. *)
Definition ingested (r : ingestRequest) : AuditLog.Entry :=
  AuditLog.mkEntry 0 (ig_actor r) (ig_roles r) (ig_action r) (ig_entity r) (ig_entity_id r)
    (ig_before r) (ig_after r) (ig_ip r) (ig_ua r) (default zero_time (ig_ts r)) "" "".

Lemma stored_records s r b a n :
  to_jsonb (ig_before r) = Ok b -> to_jsonb (ig_after r) = Ok a ->
  records (as_stored (hashed s (ingested r) b a n)) r.
Proof. intros Hb Ha. unfold records, as_stored, hashed. simpl. by destruct (_ =? _). Qed.

Lemma ingest_at_most dt r s : wp (Ingest dt (Some r)) (fun _ s' => at_most_recorded r s s') s.
Proof using All.
  unfold Ingest. case_decide; [apply wp_ret; by left|]. apply wp_bind.
  eapply wp_mono; [|apply append_row]. intros res s1 (_ & _ & _ & Hlog).
  assert (at_most_recorded r s s1) as Hs1.
  { destruct Hlog as [[? _]|(b & a & n & Hb & Ha & Hlog & _)]; [by left|right].
    eexists. split; [|exact Hlog]. by apply stored_records. }
  destruct res as [x|x]; [|by apply wp_ret]. apply wp_bind. eapply wp_mono; [|apply observe_log].
  intros [] s2 E2. apply wp_ret. unfold at_most_recorded in *. by rewrite E2.
Qed.

Lemma endpoint_at_most sv tok verdict doc r s : decode_ingest doc = Some r ->
  wp (audit_endpoint sv tok verdict doc) (fun _ s' => at_most_recorded r s s') s.
Proof using All.
  intros Hd. unfold audit_endpoint, RequireIngestAuth, RequireAuth. rewrite Hd.
  case_decide; [apply ingest_at_most|]. destruct verdict; [apply wp_ret; by left|apply ingest_at_most].
Qed.

(** ** Freshness of a hash *)

Lemma chain_prev_hash l e : chain_ok "" l -> e ∈ l -> en_prev e = "" \/ en_prev e ∈ map en_hash (removelast l).
Proof.
  induction l as [|x l IH] using rev_ind; [by intros _ []%elem_of_nil|]. intros [Hc [Hp _]]%chain_ok_snoc.
  rewrite removelast_last. intros [He|He]%elem_of_app.
  - destruct (IH Hc He) as [?|Hin]; [by left|right]. destruct l as [|y l _] using rev_ind; [done|].
    rewrite removelast_last in Hin. rewrite map_app. apply elem_of_app. by left.
  - apply list_elem_of_singleton in He as ->. simpl in Hp.
    destruct l as [|y l _] using rev_ind; [by left|right]. rewrite foldl_snoc in Hp. simpl in Hp.
    rewrite Hp, map_app. apply elem_of_app. right. by left.
Qed.

(** In an intact chain without repeated hashes the next hash is new. *)
Lemma next_hash_fresh l e : chain_ok "" l -> List.NoDup (map en_hash l) ->
  en_prev e = last_hash l -> ChainHash (en_prev e) e ∈ map en_hash l -> collide l [e].
Proof.
  intros Hc Hn He (x & Hx & Hin)%list_elem_of_fmap.
  assert (ChainHash (en_prev x) x = en_hash x) as Hxh.
  { clear Hn Hx He. induction l as [|y l IH] using rev_ind; [by apply elem_of_nil in Hin|].
    apply chain_ok_snoc in Hc as [Hc [Hp Hh]]. apply elem_of_app in Hin as [Hin|Hin]; [by apply IH|].
    apply list_elem_of_singleton in Hin as ->. by rewrite Hp. }
  rewrite <- Hxh in Hx. apply eq_sym, ChainHash_binds in Hx as [[Hp _]|(y & y' & Hy & Hy' & Hxy)].
  2: { apply list_elem_of_singleton in Hy as ->. by exists x, y'. }
  exfalso. rewrite He in Hp.
  destruct (chain_prev_hash l x Hc Hin) as [E|E]; rewrite Hp in E;
    (destruct l as [|y l _] using rev_ind; [by apply elem_of_nil in Hin|]); unfold last_hash in E; rewrite foldl_snoc in E.
  - apply chain_ok_snoc in Hc as [_ [_ Hh]]. rewrite E in Hh. by destruct (ChainHash_nonempty _ _ Hh).
  - rewrite removelast_last in E. rewrite map_app in Hn. simpl in Hn. apply NoDup_remove_2 in Hn.
    apply Hn. rewrite app_nil_r. by apply list_elem_of_In.
Qed.

(** ** Without faults the entry is recorded *)

Lemma normalize_done tx o msg (s : World Audit unit) b : w_sched s = [] -> to_jsonb o = Ok b ->
  normalize tx o msg s = (Ok b, s).
Proof.
  intros Hs Ho. unfold normalize. destruct o as [x|]; simpl in Ho; [|by simplify_eq].
  unfold gbind, tx_query. rewrite pop_done by done. destruct (jsonb_text x) as [t|]; by simplify_eq.
Qed.

Lemma append_fault_free e (s : World Audit unit) b a :
  w_sched s = [] -> to_jsonb (en_before e) = Ok b -> to_jsonb (en_after e) = Ok a ->
  en_hash (hashed s e b a 0) ∉ map en_hash (audit_log (w_db s)) -> is_ok (Append e s).1 = true.
Proof using All.
  intros Hs Hb Ha Hfresh. change (wp (Append e) (fun r _ => is_ok r = true) s). unfold Append.
  apply wp_bind, wp_gets. cbv zeta. apply wp_bind, wp_begin_done; [done|].
  apply wp_bind, wp_tx_query_done; [done|]. apply wp_bind, wp_tx_query_done; [done|].
  set (e1 := if en_ts e =? zero_time then with_ts e (w_now s) else e).
  assert (en_before e1 = en_before e /\ en_after e1 = en_after e) as [Eb Ea] by (unfold e1; by destruct (_ =? _)).
  rewrite Eb, Ea. apply wp_bind. unfold wp at 1. rewrite (normalize_done _ _ _ s b) by done. simpl.
  apply wp_bind. unfold wp at 1. rewrite (normalize_done _ _ _ s a) by done. simpl.
  apply wp_bind. unfold wp at 1. simpl. apply wp_bind.
  assert (forall o t, to_jsonb o = Ok t -> to_jsonb t = Ok t) as Hcan.
  { intros [x|] t; simpl; [|intros; by simplify_eq]. destruct (jsonb_text x) as [y|] eqn:E; [|done].
    intros; simplify_eq. simpl. by rewrite (jsonb_canonical x y E). }
  eapply wp_tx_exec_done; [done| |].
  - unfold insert_entry. cbn [en_before en_after with_num with_chain]. rewrite (Hcan _ _ Hb), (Hcan _ _ Ha).
    rewrite decide_False; [done|]. exact Hfresh.
  - apply wp_bind, wp_commit_done; [done|]. by apply wp_ret.
Qed.

(** A request with the three required fields. *)
Definition complete (r : ingestRequest) : Prop := ig_actor r <> "" /\ ig_action r <> "" /\ ig_entity r <> "".

(** The time an entry is given: its own, or the clock's when it has none. *)
Definition received_at (r : ingestRequest) (s : World Audit unit) : Z :=
  let t := default zero_time (ig_ts r) in if t =? zero_time then w_now s else t.

(** The entry that records the request at the end of the chain has been added
    to it, with its time cut to microseconds; only if the digest of its text is
    that of another text in the chain has it not. *)
Definition recorded_or_collides (r : ingestRequest) (s s' : World Audit unit) : Prop :=
  exists e, records e r /\ en_prev e = last_hash (audit_log (w_db s)) /\ en_ts e = received_at r s /\
    (audit_log (w_db s') = audit_log (w_db s) ++ [as_stored e] \/ collide (audit_log (w_db s)) [e]).

Lemma ingest_recorded dt r s b a :
  w_sched s = [] -> complete r -> to_jsonb (ig_before r) = Ok b -> to_jsonb (ig_after r) = Ok a ->
  chain_ok "" (audit_log (w_db s)) -> List.NoDup (map en_hash (audit_log (w_db s))) ->
  recorded_or_collides r s (Ingest dt (Some r) s).2.
Proof using All.
  intros Hs (Hr1 & Hr2 & Hr3) Hb Ha Hc Hn. set (e := hashed s (ingested r) b a 0).
  assert (forall n, records (hashed s (ingested r) b a n) r /\ en_prev (hashed s (ingested r) b a n) = last_hash (audit_log (w_db s)) /\
    en_ts (hashed s (ingested r) b a n) = received_at r s) as He.
  { intros n. unfold records, hashed, received_at, ingested. cbn -[ChainHash last_hash]. by destruct (_ =? zero_time). }
  destruct (decide (en_hash e ∈ map en_hash (audit_log (w_db s)))) as [Hin|Hfresh].
  { exists e. split_and!; try apply He. right. by apply (next_hash_fresh _ _ Hc Hn). }
  pose proof (append_fault_free (ingested r) s b a Hs Hb Ha Hfresh) as Hok.
  change (wp (Ingest dt (Some r)) (fun _ => recorded_or_collides r s) s).
  unfold Ingest. rewrite decide_False by tauto. apply wp_bind. unfold wp at 1.
  pose proof (append_row (ingested r) s) as Hrow. unfold wp in Hrow.
  change (AuditLog.mkEntry 0 (ig_actor r) _ _ _ _ _ _ _ _ _ "" "") with (ingested r).
  destruct (Append (ingested r) s) as [[x|x] s1]; [|done]. cbn [fst snd] in Hrow |- *.
  destruct Hrow as (_ & _ & _ & [[_ ?]|(b' & a' & n & Hb' & Ha' & Hlog & _)]); [done|].
  apply wp_bind. eapply wp_mono; [|apply observe_log]. intros [] s2 E2. apply wp_ret.
  simpl in Hb', Ha'. replace b' with b in * by congruence. replace a' with a in * by congruence.
  exists (hashed s (ingested r) b a n). split_and!; try apply He. left. by rewrite E2.
Qed.

(** ** From the middleware to the chain *)

Section EndToEnd.
Context {D : Type} (sv : AuditServer).
#[local] Instance peer : AuditPeer (World Audit unit) := audit_peer sv.

(** The entry that a served request arrives as. *)
Definition request_of (action entity idParam : string) (captureBody : bool) (q : request) (ctx : claims) : ingestRequest :=
  let e := entry_of action entity idParam captureBody (if captureBody then take captureLimit (rq_body q) else []) q ctx in
  mkIngest (e_actor e) (e_roles e) action entity (e_entity_id e) None (arrived (e_after e)) (e_ip e) (e_ua e) None.

Lemma marshal_entry action entity idParam captureBody q ctx :
  exists doc, Marshal (entry_of action entity idParam captureBody
      (if captureBody then take captureLimit (rq_body q) else []) q ctx) = Some doc /\
    decode_ingest doc = Some (request_of action entity idParam captureBody q ctx).
Proof.
  apply (entry_roundtrip (entry_of action entity idParam captureBody _ q ctx)); [done|].
  unfold entry_of, valid_raw; simpl. destruct (_ && _) eqn:E; [|done]. by apply andb_true_iff in E as [_ ?].
Qed.

(** The middleware once the handler has answered. *)
Lemma wp_middleware c action entity idParam captureBody (next : request -> claims -> M D (World Audit unit) response) q ctx w
    (Q : response -> World D (World Audit unit) -> Prop) :
  (let '(r, w1) := next (handed_on c captureBody q) ctx w in
   if Enabled c && (status r <? 400)
   then wp (Emit c (entry_of action entity idParam captureBody
              (if captureBody then take captureLimit (rq_body q) else []) q ctx)) (fun _ => Q r) w1
   else Q r w1) ->
  wp (Middleware c action entity idParam captureBody next q ctx) Q w.
Proof.
  intros HQ. unfold Middleware, handed_on in *. destruct (Enabled c) eqn:Ec.
  2: { cbn [negb andb] in *. unfold wp. by destruct (next q ctx w). }
  cbn [negb andb] in *. cbv zeta.
  assert ((if captureBody then with_body (if captureBody then take captureLimit (rq_body q) else []) q else q)
    = (if captureBody then with_body (take captureLimit (rq_body q)) q else q)) as -> by by destruct captureBody.
  pose proof (entry_handed_on c action entity idParam captureBody (if captureBody then take captureLimit (rq_body q) else []) q ctx) as Ee.
  unfold handed_on in Ee. rewrite Ec in Ee. cbn [andb] in Ee. rewrite Ee.
  apply wp_bind. unfold wp at 1. destruct (next _ ctx w) as [r w1]. cbn [fst snd] in *.
  destruct (Z.leb_spec 400 (status r)), (Z.ltb_spec (status r) 400); try lia; [by apply wp_ret|].
  apply wp_bind. eapply wp_mono; [|exact HQ]. intros [] w2 Hw2. by apply wp_ret.
Qed.

Lemma emit_at_most c e doc r (w : World D (World Audit unit)) :
  Marshal e = Some doc -> decode_ingest doc = Some r ->
  wp (Emit c e) (fun _ w' => at_most_recorded r (w_led w) (w_led w')) w.
Proof using All.
  intros Hm Hd. unfold Emit. destruct c as [cl|]; [|apply wp_ret; by left]. destruct (negb _); [apply wp_ret; by left|].
  rewrite Hm. cbv zeta. destruct (negb _); [apply wp_ret; by left|].
  assert (forall st s', post_audit (cl_base cl +:+ "/v1/audit") (cl_token cl) doc (w_led w) = (st, s') ->
    at_most_recorded r (w_led w) s') as Hpost.
  { simpl. case_decide; [|intros; simplify_eq; by left].
    pose proof (endpoint_at_most sv (cl_token cl) (no_bearer sv) doc r (w_led w) Hd) as Hep. unfold wp in Hep.
    destruct (audit_endpoint _ _ _ _ _). intros. by simplify_eq. }
  apply wp_bind, wp_led_call; [intros s1 x l Hx|intros s1 x l Hx|intros s1]; apply wp_ret; simpl.
  - destruct (post_audit _ _ _ _) as [st s'] eqn:Ep; simplify_eq. by eapply Hpost.
  - destruct (post_audit _ _ _ _) as [st s'] eqn:Ep; simplify_eq. by eapply Hpost.
  - by left.
Qed.


(** What a working deployment needs: the client posts to the service, with one
    of its tokens, and no call fails on the way. *)
Record connected (c : Client) (w : World D (World Audit unit)) : Prop := {
  cn_host : cl_base c = as_host sv;
  cn_set : as_host sv <> "";
  cn_parses : as_parses sv (as_host sv +:+ "/v1/audit") = true;
  cn_token : cl_token c ∈ accepted_tokens (as_ingestToken sv);
  cn_sched : w_sched w = [];
  cn_peer_sched : w_sched (w_led w) = [];
  cn_chain : chain_ok "" (audit_log (w_db (w_led w)));
  cn_hashes : List.NoDup (map en_hash (audit_log (w_db (w_led w))))
}.

(** C40: success is audited: in a deployment that is connected (the client posts
    to the service with one of its tokens, the chain there is intact) and meets
    no fault, every request a named caller makes with success adds one row to
    the chain, the last one, and the row records it with the time it was
    received; provided the database takes the captured body as jsonb, and save
    that the new entry and a row already there were hashed from different texts
    to one SHA-256 digest. *)
Theorem success_is_audited cl action entity idParam captureBody
    (next : request -> claims -> M D (World Audit unit) response) q ctx w :
  let out := next (handed_on (Some cl) captureBody q) ctx w in
  let r := request_of action entity idParam captureBody q ctx in
  forall (Hconn : connected cl out.2) (Hcomplete : complete r) (Hjson : exists a, to_jsonb (ig_after r) = Ok a)
    (Hok : status out.1 < 400),
  recorded_or_collides r (w_led out.2) (w_led (Middleware (Some cl) action entity idParam captureBody next q ctx w).2).
Proof using All.
  cbv zeta. intros Hconn Hcomplete Hjson Hok.
  change (wp (Middleware (Some cl) action entity idParam captureBody next q ctx)
    (fun _ w' => recorded_or_collides (request_of action entity idParam captureBody q ctx)
      (w_led (next (handed_on (Some cl) captureBody q) ctx w).2) (w_led w')) w).
  apply wp_middleware. destruct (next _ ctx w) as [r w1]. simpl in Hconn, Hok. destruct Hconn.
  unfold Enabled. rewrite cn_host0, bool_decide_false by done. simpl. destruct (Z.ltb_spec (status r) 400); [|lia].
  destruct (marshal_entry action entity idParam captureBody q ctx) as (doc & Hm & Hd). destruct Hjson as [a Ha].
  unfold Emit, Enabled. rewrite Hm, cn_host0, bool_decide_false by done. simpl. rewrite cn_parses0. simpl.
  destruct (audit_endpoint sv (cl_token cl) (no_bearer sv) doc (w_led w1)) as [r2 s2] eqn:Ei.
  apply wp_bind. eapply wp_led_call_done; [done|rewrite decide_True, Ei by done; reflexivity|]. apply wp_ret. simpl.
  unfold audit_endpoint, RequireIngestAuth in Ei. rewrite decide_True, Hd in Ei by done.
  pose proof (ingest_recorded (as_detector sv) _ (w_led w1) None a cn_peer_sched0 Hcomplete eq_refl Ha cn_chain0 cn_hashes0) as Hrec.
  by rewrite Ei in Hrec.
Qed.

(** ** What escapes the trail *)

(** A body the database does not take as jsonb is not audited: whatever the
    handler did with it, no row is added. *)
Lemma unstorable_body_unaudited c action entity idParam captureBody
    (next : request -> claims -> M D (World Audit unit) response) q ctx w x :
  to_jsonb (ig_after (request_of action entity idParam captureBody q ctx)) = Err x ->
  let out := next (handed_on c captureBody q) ctx w in
  let run := Middleware c action entity idParam captureBody next q ctx w in
  run.1 = out.1 /\ audit_log (w_db (w_led run.2)) = audit_log (w_db (w_led out.2)).
Proof using All.
  intros Hx. cbv zeta.
  destruct (middleware_transparent c action entity idParam captureBody next q ctx w) as [Hr _]. split; [done|].
  change (wp (Middleware c action entity idParam captureBody next q ctx)
    (fun _ w' => audit_log (w_db (w_led w')) = audit_log (w_db (w_led (next (handed_on c captureBody q) ctx w).2))) w).
  apply wp_middleware. destruct (next _ ctx w) as [r w1].
  destruct (_ && _); [|done]. destruct (marshal_entry action entity idParam captureBody q ctx) as (doc & Hm & Hd).
  eapply wp_mono; [|by eapply emit_at_most]. intros [] w2 [?|(row & Hrec & _)]; [done|].
  destruct Hrec as (_ & _ & _ & _ & _ & _ & Ha & _). by rewrite Ha in Hx.
Qed.

End EndToEnd.

(** Any account can write the trail: a caller who passes the JWT guard, with
    whatever claims, has an entry about any actor recorded. *)
Lemma any_account_can_forge sv tok (c : list (string * json)) doc r s b a :
  decode_ingest doc = Some r -> w_sched s = [] -> complete r ->
  to_jsonb (ig_before r) = Ok b -> to_jsonb (ig_after r) = Ok a ->
  chain_ok "" (audit_log (w_db s)) -> List.NoDup (map en_hash (audit_log (w_db s))) ->
  recorded_or_collides r s (audit_endpoint sv tok (inr c) doc s).2.
Proof using All.
  intros Hd Hs Hr Hb Ha Hc Hn. unfold audit_endpoint, RequireIngestAuth, RequireAuth. rewrite Hd.
  case_decide; by eapply ingest_recorded.
Qed.
End Service.

(** ** Runs *)

Section Runs.
#[local] Existing Instance plain_jsonb.

#[local] Instance plain_laws : JsonbLaws.
Proof. split. intros s t Hs. by simplify_eq. Qed.

(** Tokens are not needed: the client sends none. *)
#[local] Instance no_tokens : TokenLib := {|
  token_kid := fun _ => None; token_claims := fun _ => None; token_accepted := fun _ _ _ => false
|}.

Definition audit_host : string := "http://audit-log:8086".

Definition the_server : AuditServer :=
  mkAuditServer audit_host (fun _ => true) default_detector "s3cret, other" (AuthGuard.New (fun _ => "") "").

Definition emitter : Client := New (audit_host +:+ "/") "s3cret" "toggle-service".

Definition switched_off : request :=
  mkRequest (text "{ 'enabled' : false }") "10.0.0.7" "curl" [("module", "leak-detection")].

Definition root : claims := claims_of "root" ["platform-admin"].

Definition emitting_world : World unit (World Audit unit) := mkWorld tt audit_world [] 0 0 [] [] [].

Definition accepting : request -> claims -> M unit (World Audit unit) response := fun _ _ => reply 200 JNull.


Lemma success_is_audited_witness :
  let run := Middleware (H := audit_peer the_server) (Some emitter) "toggle.update" "feature_toggle" "module" true
               accepting switched_off root emitting_world in
  recorded_or_collides (request_of "toggle.update" "feature_toggle" "module" true switched_off root) audit_world (w_led run.2).
Proof.
  apply (success_is_audited the_server emitter "toggle.update" "feature_toggle" "module" true
           accepting switched_off root emitting_world).
  - split; try reflexivity; try discriminate; [|apply List.NoDup_nil]. vm_compute. left.
  - split_and!; vm_compute; discriminate.
  - eexists. vm_compute. reflexivity.
  - reflexivity.
Defined.
End Runs.

(** PostgreSQL refuses the escape [\u0000] in jsonb, which [json.Valid] takes. *)
Definition nul_escape : string := "\u0000".

Fixpoint contains (p s : string) : bool :=
  String.prefix p s || match s with EmptyString => false | String _ s' => contains p s' end.

Definition pg_jsonb : Jsonb := {|
  jsonb_text := fun s => if contains nul_escape s then Err (PgError "22P05") else Ok s
|}.

(** A module is switched off with such an escape in a field the handler
    ignores: the answer is 200 and the trail is empty. *)
Definition unseen : request :=
  mkRequest (text "{'enabled':false,'note':'\u0000'}") "10.0.0.7" "curl" [("module", "leak-detection")].

Lemma nul_escape_evades_audit :
  let run := Middleware (H := @audit_peer pg_jsonb no_tokens the_server) (Some emitter) "toggle.update" "feature_toggle"
               "module" true accepting unseen root emitting_world in
  Valid (rq_body unseen) = true /\ status run.1 = 200 /\ audit_log (w_db (w_led run.2)) = [].
Proof. vm_compute. split_and!; reflexivity. Qed.

(** A body the handler reads up to its first value, with something after it,
    is recorded without its content. *)
Lemma trailing_text_hides_body :
  let q := with_body (rq_body switched_off ++ text " x") switched_off in
  let run := Middleware (H := @audit_peer plain_jsonb no_tokens the_server) (Some emitter) "toggle.update" "feature_toggle"
               "module" true accepting q root emitting_world in
  map (fun row => (en_actor row, en_after row)) (audit_log (w_db (w_led run.2))) = [("root", None)].
Proof. vm_compute. reflexivity. Qed.

(** A valid document of 65537 bytes is none when the handler sees it. *)
Definition long_document : list Z := text "['" ++ repeat 97 (Z.to_nat 65533) ++ text "']".

Lemma long_document_cut :
  Z.of_nat (length long_document) = 65537 /\ Valid long_document = true /\ Valid (take captureLimit long_document) = false.
Proof. split_and!; vm_compute; reflexivity. Qed.
