(* ===== verification/Routes.v ===== *)
(** * The route tables of the services

    Models the assembly in cmd/server/main.go of the seven Go services and
    admin-api's server.NewRouter: which middlewares stand in front of which
    handler, in which order, and what a request has to bring to reach it.  A
    table is data; [serve] composes the middlewares of one of its rows from
    the definitions of [Toggles], [AuthGuard], [Permify], [AuditLog] and
    [AuditClient].  The state of the process, the key cache and the toggle
    cache, stands next to the database.

    Routing itself is chi's: [matches] is its documented pattern syntax, and
    the tables are shown to leave it a choice only where a fixed segment and
    a parameter compete, which chi decides for the fixed one. *)

From Stdlib Require Import Ascii.
From S2P Require Import Prelude Codec World Auth AuthGuard Toggles AuditLog Permify.
From S2P Require AuditClient.

Open Scope go_scope.

Abbreviation request := AuditClient.request.

(** ** Middlewares and routes *)

(** Where [perm.Require] takes the entity's id from. *)
Inductive id_source : Type := Fixed (id : string) | Param (name : string).

Inductive middleware : Type :=
| Gate (module : string)                                          (* gate.Module(tc, module) *)
| Auth                                                            (* jwtmw.RequireAuth *)
| Role (role : string)                                            (* jwtmw.RequireRole *)
| AnyRole (roles : list string)                                   (* jwtmw.RequireAnyRole *)
| HasRole (roles : list string)                                   (* httpx.RequireAnyRole *)
| Permit (entityType permission : string) (idFrom : id_source)    (* perm.Require *)
| Audit (action entity idParam : string) (captureBody : bool)     (* audit.Middleware *)
| SensorOrAuth                                                    (* leakAuth *)
| IngestAuth.                                                     (* handlers.RequireIngestAuth *)

#[global] Instance id_source_eq_dec : EqDecision id_source.
Proof. solve_decision. Defined.
#[global] Instance middleware_eq_dec : EqDecision middleware.
Proof. solve_decision. Defined.

Record route : Type := mkRoute {
  rt_method : string; rt_pattern : string; rt_chain : list middleware; rt_handler : string
}.

#[global] Instance route_eq_dec : EqDecision route.
Proof. solve_decision. Defined.

(** [r.With(ms...).Method(pattern, handler)]; [Handle] takes every method. *)
Definition Get_ (ms : list middleware) (pattern handler : string) : route := mkRoute "GET" pattern ms handler.
Definition Post (ms : list middleware) (pattern handler : string) : route := mkRoute "POST" pattern ms handler.
Definition Put_ (ms : list middleware) (pattern handler : string) : route := mkRoute "PUT" pattern ms handler.
Definition Patch (ms : list middleware) (pattern handler : string) : route := mkRoute "PATCH" pattern ms handler.
Definition Delete (ms : list middleware) (pattern handler : string) : route := mkRoute "DELETE" pattern ms handler.
Definition Handle (pattern handler : string) : route := mkRoute "*" pattern [] handler.

(** [r.Group] with [r.Use(ms...)]. *)
Definition Group (ms : list middleware) (rs : list route) : list route :=
  map (fun r => mkRoute (rt_method r) (rt_pattern r) (ms ++ rt_chain r) (rt_handler r)) rs.

Definition common_routes : list route := [Get_ [] "/healthz" "Healthz"; Handle "/metrics" "metrics"].

(** ** The tables *)

Definition fleet_routes : list route :=
  common_routes ++
  Group [Gate "telematics"] [
    Get_ [] "/v1/vehicles" "ListVehicles";
    Get_ [] "/v1/telemetry/latest" "LatestTelemetry"] ++
  [Get_ [Gate "predictive-maintenance"] "/v1/maintenance/predictions" "ListPredictions";
   Get_ [Gate "fuel-monitoring"] "/v1/fuel/levels" "ListFuelLevels"].

Definition citizen_routes : list route :=
  common_routes ++
  Group [Gate "passenger-pwa"] [
    Get_ [] "/v1/passenger/stops" "ListStops";
    Get_ [] "/v1/passenger/routes" "ListRoutes";
    Get_ [] "/v1/passenger/arrivals" "GetArrivals";
    Get_ [] "/v1/passenger/journey" "PlanJourney";
    Get_ [] "/v1/passenger/alerts" "ListAlerts"] ++
  [Get_ [Gate "mobile-app"] "/v1/mobile/config" "MobileConfig"] ++
  Group [Gate "demand-responsive"] [
    Post [Auth] "/v1/drt/requests" "CreateDRTRequest";
    Get_ [Auth] "/v1/drt/requests" "ListDRTRequests";
    Get_ [Auth] "/v1/drt/requests/{id}" "GetDRTRequest";
    Post [Auth] "/v1/drt/requests/{id}/cancel" "CancelDRTRequest";
    Post [Role "operator"] "/v1/drt/requests/{id}/assign" "AssignDRTRequest";
    Post [AnyRole ["driver"; "operator"]] "/v1/drt/requests/{id}/start" "ProgressDRTRequest";
    Post [AnyRole ["driver"; "operator"]] "/v1/drt/requests/{id}/complete" "ProgressDRTRequest"] ++
  [Get_ [Auth] "/v1/me/data-export" "ExportMyData";
   Post [Auth] "/v1/me/erasure" "EraseMyData"] ++
  Group [Gate "carbon-credits"] [
    Get_ [] "/v1/carbon/credits" "ListCarbonCredits";
    Get_ [] "/v1/carbon/credits/summary" "CarbonSummary"] ++
  Group [Gate "open-data-portal"] [
    Get_ [] "/v1/opendata/datasets" "ListDatasets";
    Get_ [] "/v1/opendata/search" "Search";
    Get_ [] "/v1/opendata/gtfs" "GTFSZip";
    Get_ [] "/v1/opendata/gtfs/{file}" "GTFSFile"].

Definition commerce_routes : list route :=
  common_routes ++
  Group [Gate "fare-payments"] [
    Post [Auth; Audit "payment.create" "fare_payment" "" true] "/v1/payments" "CreatePayment";
    Get_ [Auth] "/v1/payments" "ListPayments";
    Get_ [Auth] "/v1/payments/{id}" "GetPayment";
    Post [Role "operator"; Audit "payment.refund" "fare_payment" "" true] "/v1/payments/{id}/refund" "RefundPayment";
    Post [Auth] "/v1/wallets/topup" "TopUpWallet";
    Get_ [Auth] "/v1/fare-products" "ListFareProducts";
    Post [Role "operator"; Audit "fare_product.create" "fare_product" "" true] "/v1/fare-products" "CreateFareProduct";
    Get_ [Auth] "/v1/entitlements" "ListEntitlements";
    Post [Role "operator"; Audit "entitlement.grant" "rider_entitlement" "" true] "/v1/entitlements" "GrantEntitlement";
    Post [Role "operator"; Audit "billing_account.create" "billing_account" "" true] "/v1/billing/accounts" "CreateBillingAccount";
    Get_ [Role "operator"] "/v1/billing/accounts" "ListBillingAccounts";
    Get_ [Role "operator"] "/v1/billing/accounts/{id}" "GetBillingAccount";
    Post [Role "operator"; Audit "billing_invoice.generate" "invoice" "" true] "/v1/billing/accounts/{id}/invoices" "GenerateInvoice";
    Get_ [Role "operator"] "/v1/billing/invoices" "ListInvoices";
    Get_ [Role "operator"] "/v1/billing/invoices/{id}" "GetInvoice";
    Post [Role "operator"; Audit "billing_invoice.pay" "invoice" "" true] "/v1/billing/invoices/{id}/pay" "PayInvoice"] ++
  Group [Gate "loyalty-marketplace"] [
    Get_ [Auth] "/v1/loyalty/balance" "GetLoyaltyBalance";
    Post [Auth] "/v1/loyalty/redeem" "RedeemOffer";
    Get_ [] "/v1/marketplace/offers" "ListOffers";
    Post [Role "operator"] "/v1/marketplace/offers" "CreateOffer"] ++
  Group [Gate "energy-trading"] [
    Get_ [] "/v1/energy/trades" "ListTrades";
    Post [Role "operator"; Audit "trade.create" "energy_trade" "" true] "/v1/energy/trades" "CreateTrade";
    Post [Role "operator"] "/v1/energy/trades/{id}/cancel" "CancelTrade"] ++
  [Get_ [Gate "gov-dashboard"] "/v1/gov/kpis" "GetGovKPIs"] ++
  Group [Gate "advertising"] [
    Get_ [] "/v1/ads/campaigns" "ListCampaigns";
    Get_ [] "/v1/ads/campaigns/{id}" "GetCampaign";
    Post [Role "operator"; Audit "campaign.create" "ad_campaign" "" true] "/v1/ads/campaigns" "CreateCampaign";
    Patch [Role "operator"] "/v1/ads/campaigns/{id}" "UpdateCampaign";
    Get_ [] "/v1/ads/inventory" "ListAdInventory";
    Post [Role "operator"] "/v1/ads/inventory" "CreateAdInventory";
    Get_ [] "/v1/ads/placements" "ListAdPlacements";
    Post [Role "operator"] "/v1/ads/placements" "CreateAdPlacement"].

Definition infra_routes : list route :=
  common_routes ++
  Group [Gate "refueling-stations"] [
    Get_ [] "/v1/stations" "ListStations";
    Get_ [] "/v1/stations/{id}" "GetStation";
    Post [AnyRole ["operator"; "station-staff"]] "/v1/stations" "CreateStation";
    Patch [AnyRole ["operator"; "station-staff"]] "/v1/stations/{id}/status" "UpdateStationStatus";
    Get_ [] "/v1/stations/{id}/chargers" "ListStationChargers";
    Get_ [] "/v1/chargers" "ListChargers";
    Get_ [] "/v1/chargers/{ocpp_id}/sessions" "ListChargerSessions";
    Get_ [] "/v1/stations/{id}/queue" "ListStationQueue";
    Post [Auth] "/v1/stations/{id}/queue" "JoinStationQueue";
    Post [AnyRole ["operator"; "station-staff"]] "/v1/stations/{id}/queue/{entry}/complete" "CompleteStationQueueEntry";
    Post [Auth] "/v1/stations/{id}/queue/{entry}/leave" "LeaveStationQueue"] ++
  Group [Gate "leak-detection"] [
    Get_ [AnyRole ["operator"; "platform-admin"; "station-staff"; "auditor"]] "/v1/incidents" "ListIncidents";
    Post [Auth] "/v1/incidents" "OpenIncident";
    Post [Role "operator"] "/v1/incidents/{id}/ack" "AckIncident";
    Post [Role "operator"] "/v1/incidents/{id}/resolve" "ResolveIncident";
    Post [SensorOrAuth] "/v1/safety/leak" "IngestLeak";
    Post [Role "driver"] "/v1/safety/sos" "TriggerSOS";
    Get_ [AnyRole ["platform-admin"; "auditor"]] "/v1/incidents/{id}/evidence-pack" "GetEvidencePack";
    Post [Role "platform-admin"] "/v1/webhooks/subscriptions" "CreateWebhookSubscription";
    Get_ [Role "platform-admin"] "/v1/webhooks/subscriptions" "ListWebhookSubscriptions";
    Delete [Role "platform-admin"] "/v1/webhooks/subscriptions/{id}" "DeactivateWebhookSubscription";
    Post [AnyRole ["operator"; "platform-admin"]] "/v1/webhooks/deliveries/{id}/retry" "RetryWebhookDelivery"] ++
  Group [Gate "dispatch-workforce"] [
    Post [Role "driver"] "/v1/drivers/register" "RegisterDriver";
    Post [Role "operator"] "/v1/drivers" "CreateDriver";
    Post [Role "operator"] "/v1/drivers/{sub}/status" "SetDriverStatus";
    Get_ [] "/v1/dispatch/jobs" "ListDispatchJobs";
    Post [Role "operator"] "/v1/dispatch/jobs" "CreateDispatchJob";
    Post [Role "driver"] "/v1/dispatch/jobs/{id}/accept" "AcceptDispatchJob";
    Post [Role "operator"] "/v1/dispatch/jobs/{id}/cancel" "CancelDispatchJob";
    Post [Role "operator"] "/v1/dispatch/jobs/{id}/swap-vehicle" "SwapDispatchVehicle";
    Post [Role "operator"] "/v1/charters" "CreateCharter";
    Get_ [Role "operator"] "/v1/charters" "ListCharters";
    Get_ [Role "operator"] "/v1/charters/{id}" "GetCharter";
    Post [Role "operator"] "/v1/charters/{id}/cancel" "CancelCharter"] ++
  Group [Gate "compliance-reporting"] [
    Get_ [] "/v1/compliance/reports" "ListComplianceReports";
    Get_ [] "/v1/compliance/reports/{id}" "GetComplianceReport";
    Post [Role "operator"; Permit "report" "generate" (Fixed "compliance")]
      "/v1/compliance/reports/generate" "GenerateComplianceReport"] ++
  Group [Gate "depot-management"] [
    Get_ [] "/v1/depot/bays" "ListDepotBays";
    Post [Role "operator"] "/v1/depot/bays/{id}/assign" "AssignDepotBay";
    Post [Role "operator"] "/v1/depot/bays/{id}/release" "ReleaseDepotBay";
    Get_ [] "/v1/depot/work-orders" "ListWorkOrders";
    Post [Role "operator"] "/v1/depot/work-orders" "CreateWorkOrder";
    Post [Role "operator"] "/v1/depot/work-orders/{id}/assign" "AssignWorkOrder";
    Post [Role "operator"] "/v1/depot/work-orders/{id}/start" "StartWorkOrder";
    Post [Role "operator"] "/v1/depot/work-orders/{id}/hold" "HoldWorkOrder";
    Post [Role "operator"] "/v1/depot/work-orders/{id}/close" "CloseWorkOrder"].

(** [r.Route("/v1/toggles", ...)]: chi mounts a subrouter, whose pattern [/]
    answers both with and without the final slash. *)
Definition toggle_routes : list route :=
  common_routes ++
  [Get_ [] "/v1/toggles" "List";
   Get_ [] "/v1/toggles/{module}" "Get";
   Put_ [Role "platform-admin"; Permit "module" "manage" (Param "module"); Audit "toggle.update" "feature_toggle" "module" true]
     "/v1/toggles/{module}" "Put"].

Definition audit_routes : list route :=
  common_routes ++
  [Post [IngestAuth] "/v1/audit" "Ingest"] ++
  Group [AnyRole ["platform-admin"; "auditor"]] [
    Get_ [] "/v1/audit" "List";
    Get_ [] "/v1/audit/verify" "Verify"].

Definition operatorOrAdmin : middleware := HasRole ["operator"; "platform-admin"].

Definition admin_routes : list route :=
  common_routes ++
  [Post [] "/v1/onboarding/citizen" "Onboarding.CitizenSelfServe";
   Post [] "/v1/onboarding/{key}" "Onboarding.Intake";
   Get_ [] "/v1/onboarding/status/{id}" "Onboarding.StatusPublic"] ++
  Group [Auth; operatorOrAdmin] [
    Get_ [] "/v1/onboarding" "Onboarding.List";
    Get_ [] "/v1/onboarding/{key}" "Onboarding.Get"] ++
  Group [Role "platform-admin"] [
    Post [Audit "onboarding.approve" "onboarding_request" "key" false] "/v1/onboarding/{key}/approve" "Onboarding.Approve";
    Post [Audit "onboarding.reject" "onboarding_request" "key" false] "/v1/onboarding/{key}/reject" "Onboarding.Reject";
    Post [Audit "onboarding.reconcile" "onboarding_request" "" false] "/v1/onboarding/reconcile" "Onboarding.Reconcile"] ++
  Group [Role "platform-admin"] [
    Get_ [] "/v1/users" "Users.List";
    Post [Audit "user.create" "user" "" true] "/v1/users" "Users.Create";
    Put_ [Audit "user.update_roles" "user" "id" true] "/v1/users/{id}/roles" "Users.UpdateRoles";
    Post [Audit "user.disable" "user" "id" false] "/v1/users/{id}/disable" "Users.Disable";
    Post [Audit "user.enable" "user" "id" false] "/v1/users/{id}/enable" "Users.Enable";
    Post [Audit "user.reset_password" "user" "id" false] "/v1/users/{id}/reset-password" "Users.ResetPassword"] ++
  Group [Auth; operatorOrAdmin] [
    Get_ [] "/v1/admin/kpis" "kpiHandler";
    Get_ [] "/v1/admin/health" "Ops.Health";
    Get_ [] "/v1/admin/alerts" "Ops.Alerts";
    Get_ [] "/v1/admin/toggles" "Ops.ListToggles"] ++
  [Put_ [Role "platform-admin"; Audit "toggle.update" "feature_toggle" "module" true]
     "/v1/admin/toggles/{module}" "Ops.UpdateToggle"].

(** The seven services. *)
Definition services : list (string * list route) :=
  [("toggle-service", toggle_routes); ("fleet-api", fleet_routes); ("infra-api", infra_routes);
   ("citizen-api", citizen_routes); ("commerce-api", commerce_routes); ("admin-api", admin_routes); ("audit-log", audit_routes)].

(** ** Patterns *)

Definition segments (p : string) : list string := Split p "/".

(** A segment [{name}]. *)
Definition is_param (s : string) : bool := String.prefix "{" s.

Fixpoint matches_segs (pat path : list string) : bool :=
  match pat, path with
  | [], [] => true
  | s :: pat, x :: path => (is_param s || bool_decide (s = x)) && matches_segs pat path
  | _, _ => false
  end.

(** A parameter stands for any segment, a fixed segment for itself. *)
Definition matches (pattern path : string) : bool := matches_segs (segments pattern) (segments path).

Fixpoint overlap_segs (p p' : list string) : bool :=
  match p, p' with
  | [], [] => true
  | s :: p, s' :: p' => (is_param s || is_param s' || bool_decide (s = s')) && overlap_segs p p'
  | _, _ => false
  end.

(** Fixed segments where the other has parameters, and the same otherwise. *)
Fixpoint narrower_segs (p p' : list string) : bool :=
  match p, p' with
  | [], [] => true
  | s :: p, s' :: p' => (is_param s' || bool_decide (s = s')) && narrower_segs p p'
  | _, _ => false
  end.

Definition narrower (r r' : route) : bool := narrower_segs (segments (rt_pattern r)) (segments (rt_pattern r')).

Definition same_method (r r' : route) : bool :=
  bool_decide (rt_method r = "*") || bool_decide (rt_method r' = "*") || bool_decide (rt_method r = rt_method r').

(** ** A request's way to the handler *)

(** The memory of the process: the key cache and the toggle cache. *)
Record process : Type := mkProcess { pr_jwt : Middleware; pr_toggles : Client }.

(** What main reads from the environment.  The Permify client is one that
    [NewPermify] connected: with a nil one registering its routes panics
    ([unset_address_panics]) and there is no server. *)
Record config : Type := mkConfig {
  cf_permify : PermifyClient; cf_audit : option AuditClient.Client; cf_leakToken : string; cf_ingestToken : string
}.

(** What a request carries besides [request], and what the realm and
    toggle-service answer if they are asked on its way. *)
Record arrival : Type := mkArrival {
  ar_authorization : string; ar_sensorToken : string; ar_auditToken : string;
  ar_jwks : jwks_reply; ar_toggle : http_outcome; ar_later : Z
}.

Section Server.
Context {D S : Type} `{TokenLib} `{GrpcServer S} `{AuditClient.AuditPeer S}.

(** The server's world: its memory beside the database. *)
Abbreviation SM := (M (process * D) S).
Abbreviation handler := (request -> claims -> SM response).

(** A handler of the service, which sees the database only. *)
Definition inner (w : World (process * D) S) : World D S :=
  mkWorld (w_db w).2 (w_led w) (w_bus w) (w_now w) (w_uuids w) (w_sched w) (w_http w) (w_sent w).

Definition outer (p : process) (w : World D S) : World (process * D) S :=
  mkWorld (p, w_db w) (w_led w) (w_bus w) (w_now w) (w_uuids w) (w_sched w) (w_http w) (w_sent w).

Definition lift {A} (m : M D S A) : SM A :=
  fun w => let '(a, w') := m (inner w) in (a, outer (w_db w).1 w').

Definition set_process (f : process -> process) : SM unit :=
  fun w => (tt, with_db (f (w_db w).1, (w_db w).2) w).

(** [gate.Module]. *)
Definition gate (a : arrival) (module : string) (next : handler) : handler := fun q ctx =>
  let! now := gets w_now in
  let! p := gets (fun w => (w_db w).1) in
  let '(refusal, toggles) := Module_gate (pr_toggles p) module now (ar_later a) (ar_toggle a) in
  do! set_process (fun p => mkProcess (pr_jwt p) toggles) in
  match refusal with Some r => gret r | None => next q ctx end.

(** The JWT middleware [m.guard], then what runs on its verdict. *)
Definition guarded (a : arrival) (k : response + list (string * json) -> SM response) : SM response :=
  let! now := gets w_now in
  let! p := gets (fun w => (w_db w).1) in
  let '(verdict, jwt) := guard (pr_jwt p) now (ar_jwks a) (ar_authorization a) in
  do! set_process (fun p => mkProcess jwt (pr_toggles p)) in
  k verdict.

(** [httpx.RequireAnyRole], on the claims of the context. *)
Definition httpx_RequireAnyRole (roles : list string) (next : handler) : handler := fun q ctx =>
  if HasAnyRole ctx roles then next q ctx
  else reply_error 403 ("missing required realm role (any of): " +:+ join_roles roles).

(** [leakAuth]: the sensors' token, if one is configured, or a JWT. *)
Definition leakAuth (cf : config) (a : arrival) (next : handler) : handler := fun q ctx =>
  let jwt := guarded a (fun v => RequireAuth v (next q)) in
  if decide (cf_leakToken cf = "") then jwt
  else if decide (ar_sensorToken a = cf_leakToken cf) then next q ctx
  else jwt.

Definition entity_id (q : request) (src : id_source) : string :=
  match src with Fixed id => id | Param name => AuditClient.URLParam q name end.

Definition apply (cf : config) (a : arrival) (mw : middleware) (next : handler) : handler :=
  match mw with
  | Gate module => gate a module next
  | Auth => fun q _ => guarded a (fun v => RequireAuth v (next q))
  | Role role => fun q _ => guarded a (fun v => RequireRole role v (next q))
  | AnyRole roles => fun q _ => guarded a (fun v => RequireAnyRole roles v (next q))
  | HasRole roles => httpx_RequireAnyRole roles next
  | Permit entityType permission idFrom => fun q ctx =>
      require_handler (cf_permify cf) entityType permission (entity_id q idFrom) (next q) ctx
  | Audit action entity idParam captureBody =>
      AuditClient.Middleware (cf_audit cf) action entity idParam captureBody next
  | SensorOrAuth => leakAuth cf a next
  | IngestAuth => fun q ctx =>
      RequireIngestAuth (cf_ingestToken cf) (ar_auditToken a) (next q ctx) (guarded a (fun v => RequireAuth v (next q)))
  end.

(** The chain in front of a handler, outermost first. *)
Definition serve (cf : config) (a : arrival) (chain : list middleware) (next : request -> claims -> M D S response) : handler :=
  foldr (apply cf a) (fun q ctx => lift (next q ctx)) chain.

(** ** What a chain demands *)

(** The process after a middleware let a request through. *)
Definition after (cf : config) (a : arrival) (now : Z) (mw : middleware) (p : process) : process :=
  let p' := mkProcess (guard (pr_jwt p) now (ar_jwks a) (ar_authorization a)).2 (pr_toggles p) in
  match mw with
  | Gate module => mkProcess (pr_jwt p) (Module_gate (pr_toggles p) module now (ar_later a) (ar_toggle a)).2
  | Auth | Role _ | AnyRole _ => p'
  | SensorOrAuth => if decide (cf_leakToken cf <> "" /\ ar_sensorToken a = cf_leakToken cf) then p else p'
  | IngestAuth => if decide (ar_auditToken a ∈ accepted_tokens (cf_ingestToken cf)) then p else p'
  | _ => p
  end.

(** The claims are those of the request's bearer token, and the guard vouches for it. *)
Definition verified (a : arrival) (now : Z) (p : process) (c : claims) : Prop :=
  let token := bearerToken (ar_authorization a) in
  token <> "" /\ exists cl, c = Some cl /\
    vouched (pr_jwt p) (guard (pr_jwt p) now (ar_jwks a) (ar_authorization a)).2 now token cl.

Definition demand (cf : config) (a : arrival) (now : Z) (peer : S) (q : request) (mw : middleware) (p : process) (c : claims) : Prop :=
  match mw with
  | Gate module => (Module_gate (pr_toggles p) module now (ar_later a) (ar_toggle a)).1 = None
  | Auth => verified a now p c
  | Role role => verified a now p c /\ hasRole c role = true
  | AnyRole roles => verified a now p c /\ HasAnyRole c roles = true
  | HasRole roles => HasAnyRole c roles = true
  | Permit entityType permission idFrom =>
      pc_conn (cf_permify cf) = true ->
      Subject c <> "" /\
      (fits (cf_permify cf) entityType (entity_id q idFrom) permission c ->
       granted peer (asked (cf_permify cf) entityType (entity_id q idFrom) permission c) = true)
  | Audit _ _ _ _ => True
  | SensorOrAuth => (cf_leakToken cf <> "" /\ ar_sensorToken a = cf_leakToken cf) \/ verified a now p c
  | IngestAuth => ar_auditToken a ∈ accepted_tokens (cf_ingestToken cf) \/ verified a now p c
  end.

Fixpoint demands (cf : config) (a : arrival) (now : Z) (peer : S) (q : request) (chain : list middleware) (p : process) (c : claims) : Prop :=
  match chain with
  | [] => True
  | mw :: rest => demand cf a now peer q mw p c /\ demands cf a now peer q rest (after cf a now mw p) c
  end.

(** The handler gets the request, or with an audit client that records bodies
    the request with the part of the body that was read. *)
Definition served_as (q q' : request) : Prop :=
  q' = q \/ q' = AuditClient.with_body (take AuditClient.captureLimit (AuditClient.rq_body q)) q.

(** Nothing but the caches and the schedule. *)
Definition untouched (w w' : World (process * D) S) : Prop :=
  exists p s, w' = with_db (p, (w_db w).2) (with_sched s w).

Definition refusal (r : response) : Prop := status r ∈ [401; 403; 404; 502; 503].

(** The answer is the handler's, run with claims [c] in the service's own
    world, and so is every change but the audit entry. *)
Definition served (next : request -> claims -> M D S response) (q : request) (c : claims)
    (w : World (process * D) S) (r : response) (w' : World (process * D) S) : Prop :=
  exists q' s, served_as q q' /\
    let '(r1, w1) := next q' c (with_sched s (inner w)) in r = r1 /\ AuditClient.same_service w1 (inner w').

(** Claims in the context are the token's. *)
Definition of_token (a : arrival) (c : claims) : Prop :=
  match c with Some cl => token_claims (bearerToken (ar_authorization a)) = Some cl | None => True end.

(** ** Each middleware lets through what it demands *)

(** What [serve] does with a request: it refuses and changes nothing, or the
    demands hold of the claims the handler ran with. *)
Definition outcome_of (cf : config) (a : arrival) (chain : list middleware) (next : request -> claims -> M D S response)
    (q : request) (ctx : claims) (w : World (process * D) S) (r : response) (w' : World (process * D) S) : Prop :=
  (refusal r /\ untouched w w') \/
  exists c, of_token a c /\ (forall cl, ctx = Some cl -> c = Some cl) /\
    demands cf a (w_now w) (w_led w) q chain (w_db w).1 c /\ served next q c w r w'.

(** The world after some middlewares, the caches of the process being [p]. *)
Definition moved (p : process) (s : list outcome) (w : World (process * D) S) : World (process * D) S :=
  with_db (p, (w_db w).2) (with_sched s w).

Lemma moved_self w : moved (w_db w).1 (w_sched w) w = w.
Proof. by destruct w as [[]]. Qed.

Lemma untouched_refl w : untouched w w.
Proof. exists (w_db w).1, (w_sched w). by destruct w as [[]]. Qed.

Lemma refused r p s w : refusal r -> refusal r /\ untouched w (moved p s w).
Proof. intros Hr. split; [done|]. by exists p, s. Qed.

Lemma outcome_step cf a mw chain next q ctx c1 w s r w' :
  (forall cl, ctx = Some cl -> c1 = Some cl) ->
  (forall c, of_token a c -> (forall cl, c1 = Some cl -> c = Some cl) -> demand cf a (w_now w) (w_led w) q mw (w_db w).1 c) ->
  outcome_of cf a chain next q c1 (moved (after cf a (w_now w) mw (w_db w).1) s w) r w' ->
  outcome_of cf a (mw :: chain) next q ctx w r w'.
Proof.
  intros Hctx Hd [[Hr (p' & s' & ->)]|(c & Ht & Hc & Hds & Hsv)]; [left|right].
  - split; [done|]. by exists p', s'.
  - exists c. split_and!; [done|by intros cl ?%Hctx%Hc| |done]. split; [by apply Hd|done].
Qed.

Lemma guard_answer m now rep authz :
  match guard m now rep authz with
  | (inl r, _) => refusal r
  | (inr cl, m') => bearerToken authz <> "" /\ vouched m m' now (bearerToken authz) cl
  end.
Proof.
  unfold guard, refusal. case_decide; [simpl; set_solver|]. case_decide; [simpl; set_solver|].
  destruct (verify m now rep (bearerToken authz)) as [[c|e] m'] eqn:Ev; [|simpl; set_solver].
  split; [done|]. by eapply verify_spec.
Qed.

Lemma wp_guarded a k (Q : response -> World (process * D) S -> Prop) w :
  let w1 := moved (mkProcess (guard (pr_jwt (w_db w).1) (w_now w) (ar_jwks a) (ar_authorization a)).2 (pr_toggles (w_db w).1)) (w_sched w) w in
  (forall r, refusal r -> wp (k (inl r)) Q w1) ->
  (forall cl, verified a (w_now w) (w_db w).1 (Some cl) -> wp (k (inr cl)) Q w1) ->
  wp (guarded a k) Q w.
Proof.
  cbv zeta. intros Hno Hyes. unfold guarded. apply wp_bind, wp_gets, wp_bind, wp_gets.
  pose proof (guard_answer (pr_jwt (w_db w).1) (w_now w) (ar_jwks a) (ar_authorization a)) as Hg.
  unfold verified in Hyes. destruct (guard _ _ _ _) as [v jwt]. cbn [snd] in *. apply wp_bind.
  assert (with_db (mkProcess jwt (pr_toggles (w_db w).1), (w_db w).2) w = moved (mkProcess jwt (pr_toggles (w_db w).1)) (w_sched w) w) as Ew
    by by destruct w.
  change (wp (k v) Q (with_db (mkProcess jwt (pr_toggles (w_db w).1), (w_db w).2) w)). rewrite Ew.
  destruct v as [r|cl]; [by apply Hno|]. apply Hyes. destruct Hg as [? ?]. split; [done|]. by exists cl.
Qed.

Lemma verified_token a now p cl : verified a now p (Some cl) -> of_token a (Some cl).
Proof. intros (_ & cl' & E & Hv & _). by simplify_eq. Qed.

(** Behind a verified token the rest of the chain runs with its claims. *)
Lemma verified_step cf a mw chain next q ctx cl w r w' :
  of_token a ctx -> verified a (w_now w) (w_db w).1 (Some cl) ->
  (forall c, c = Some cl -> demand cf a (w_now w) (w_led w) q mw (w_db w).1 c) ->
  outcome_of cf a chain next q (Some cl) (moved (after cf a (w_now w) mw (w_db w).1) (w_sched w) w) r w' ->
  outcome_of cf a (mw :: chain) next q ctx w r w'.
Proof.
  intros Hctx Hv Hd. apply outcome_step.
  - intros cl' ->. apply verified_token in Hv. simpl in *. by rewrite Hctx in Hv.
  - intros c _ Hc. by apply Hd, Hc.
Qed.

Lemma wp_Check_any {E} c entityType entityID permission subjectID (Q : result bool -> World E S -> Prop) w :
  (forall s r, Q r (with_sched s w)) -> wp (Check_ c entityType entityID permission subjectID) Q w.
Proof.
  intros HQ. assert (forall s l, l = w_led w -> with_led l (with_sched s w) = with_sched s w) as Hsame by (intros s l ->; by destruct w).
  assert (Q (Err (ErrMsg "permify client not configured")) w) as Hnone by (specialize (HQ (w_sched w)); by destruct w).
  unfold Check_. destruct (negb _); [by apply wp_ret|].
  apply wp_bind, wp_led_call; intros s; [intros r l Er; injection Er as Er <-; rewrite Hsame by done|intros r l Er; injection Er as Er <-; rewrite Hsame by done|].
  - destruct r; by apply wp_ret.
  - by apply wp_ret.
  - by apply wp_ret.
Qed.

Lemma permit_step cf a entityType permission idFrom chain next q ctx w :
  (forall s, wp (serve cf a chain next q ctx) (outcome_of cf a chain next q ctx (moved (w_db w).1 s w)) (moved (w_db w).1 s w)) ->
  wp (require_handler (cf_permify cf) entityType permission (entity_id q idFrom) (serve cf a chain next q) ctx)
    (outcome_of cf a (Permit entityType permission idFrom :: chain) next q ctx w) w.
Proof.
  intros IH. set (mw := Permit entityType permission idFrom).
  assert (forall s, with_sched s w = moved (w_db w).1 s w) as Em by (intros; by destruct w as [[]]).
  assert (forall s, (forall c, (forall cl, ctx = Some cl -> c = Some cl) -> demand cf a (w_now w) (w_led w) q mw (w_db w).1 c) ->
    wp (serve cf a chain next q ctx) (outcome_of cf a (mw :: chain) next q ctx w) (moved (w_db w).1 s w)) as Hstep.
  { intros s Hd. eapply wp_mono; [|apply (IH s)]. intros r w' Ho.
    apply (outcome_step cf a mw chain next q ctx ctx w s r w'); [done|intros c _; apply Hd|exact Ho]. }
  unfold require_handler. destruct (pc_conn (cf_permify cf)) eqn:Ec; cbn [negb].
  2: { rewrite <- (moved_self w) at 2. apply Hstep. intros c _. unfold demand, mw. by rewrite Ec. }
  assert (forall s r, refusal r -> outcome_of cf a (mw :: chain) next q ctx w r (with_sched s w)) as Hno.
  { intros s r Hr. left. rewrite Em. by apply refused. }
  case_bool_decide as Hsub; [apply wp_ret; left; split; [unfold refusal; simpl; set_solver|apply untouched_refl]|].
  assert (forall s r, (r = Ok true -> fits (cf_permify cf) entityType (entity_id q idFrom) permission ctx ->
      granted (w_led w) (asked (cf_permify cf) entityType (entity_id q idFrom) permission ctx) = true) ->
    wp (match r with Ok allowed => if allowed then serve cf a chain next q ctx
          else reply_error 403 ("permify denied " +:+ entityType +:+ ":" +:+ entity_id q idFrom +:+ "#" +:+ permission)
        | Err _ => reply_error 502 "authorization check unavailable" end)
      (outcome_of cf a (mw :: chain) next q ctx w) (with_sched s w)) as Hk.
  { intros s [[]|e] Hr; [|apply wp_ret, Hno; unfold refusal; simpl; set_solver..]. rewrite Em. apply Hstep.
    intros c Hc _. destruct ctx as [cl|]; [|done]. rewrite (Hc cl eq_refl). auto. }
  assert (Decision (fits (cf_permify cf) entityType (entity_id q idFrom) permission ctx)) as Hdec by (unfold fits; apply _).
  apply wp_bind. destruct Hdec as [Hf|Hf].
  - apply wp_Check; [done|done| |].
    + intros s. apply (Hk s (Ok _)). intros E _. by injection E.
    + intros s e. by apply (Hk s (Err e)).
  - apply wp_Check_any. intros s r. by apply (Hk s r).
Qed.

Lemma demands_same_params cf a now peer q q' chain p c :
  AuditClient.rq_params q' = AuditClient.rq_params q ->
  demands cf a now peer q' chain p c -> demands cf a now peer q chain p c.
Proof.
  intros Hq. revert p. induction chain as [|mw chain IH]; intros p; simpl; [done|]. intros [Hd Hds]. split; [|by apply IH].
  assert (forall src, entity_id q' src = entity_id q src) as He.
  { intros []; [done|]. unfold entity_id, AuditClient.URLParam. by rewrite Hq. }
  clear IH Hds. destruct mw as [| | | | |t pm src| | |]; [exact Hd..| |exact Hd|exact Hd|exact Hd].
  cbn [demand] in Hd |- *. rewrite He in Hd. exact Hd.
Qed.

Lemma refusal_high r : refusal r -> 400 <= status r.
Proof. unfold refusal. rewrite !elem_of_cons, elem_of_nil. lia. Qed.

Lemma audit_step cf a action entity idParam captureBody chain next q ctx w :
  (forall q, wp (serve cf a chain next q ctx) (outcome_of cf a chain next q ctx w) w) ->
  wp (AuditClient.Middleware (cf_audit cf) action entity idParam captureBody (serve cf a chain next) q ctx)
    (outcome_of cf a (Audit action entity idParam captureBody :: chain) next q ctx w) w.
Proof.
  intros IH. set (mw := Audit action entity idParam captureBody).
  assert (forall q r w', outcome_of cf a chain next q ctx w r w' -> outcome_of cf a (mw :: chain) next q ctx w r w') as Hstep.
  { intros q' r w' Ho. apply (outcome_step cf a mw chain next q' ctx ctx w (w_sched w)); [done..|].
    change (after cf a (w_now w) mw (w_db w).1) with (w_db w).1. by rewrite moved_self. }
  unfold AuditClient.Middleware. destruct (negb _); [eapply wp_mono; [|apply IH]; apply Hstep|]. cbv zeta.
  set (b := if captureBody then take _ _ else []). set (q' := if captureBody then AuditClient.with_body b q else q).
  assert (served_as q q' /\ AuditClient.rq_params q' = AuditClient.rq_params q) as [Hq Hp].
  { unfold q', b, served_as. destruct captureBody; split; auto. }
  assert (forall r w', outcome_of cf a chain next q' ctx w r w' -> outcome_of cf a (mw :: chain) next q ctx w r w') as Hq'.
  { intros r w' [?|(c & Ht & Hc & Hds & q'' & s & Hsq & Hs)]; [by left|right]. exists c. split_and!; [done|done| |].
    - split; [done|]. by apply (demands_same_params _ _ _ _ q q').
    - exists q'', s. split; [|done]. destruct Hsq as [->| ->]; [done|right]. destruct Hq as [-> | ->]; [done|].
      unfold AuditClient.with_body. simpl. by rewrite take_idemp. }
  apply wp_bind. eapply wp_mono; [|apply IH]. intros r w1 Ho.
  destruct (Z.leb_spec 400 (status r)); [apply wp_ret; by apply Hq'|].
  apply wp_bind. eapply wp_mono; [|apply AuditClient.emit_same_service]. intros [] w2 Hs2. apply wp_ret.
  apply Hq'. destruct Ho as [[Hr%refusal_high _]|(c & Ht & Hc & Hds & q'' & s & Hsq & Hs)]; [lia|right].
  exists c. split_and!; [done..|]. exists q'', s. split; [done|].
  destruct (next q'' c _) as [r1 w3]. destruct Hs as [-> Hs]. split; [done|].
  destruct Hs as (E1 & E2 & E3 & E4 & E5 & E6), Hs2 as (F1 & F2 & F3 & F4 & F5 & F6).
  unfold AuditClient.same_service, inner in *; simpl in *. split_and!; congruence.
Qed.

Lemma gate_step cf a module chain next q ctx w :
  (forall p, wp (serve cf a chain next q ctx) (outcome_of cf a chain next q ctx (moved p (w_sched w) w)) (moved p (w_sched w) w)) ->
  wp (gate a module (serve cf a chain next) q ctx) (outcome_of cf a (Gate module :: chain) next q ctx w) w.
Proof.
  intros IH. unfold gate. apply wp_bind, wp_gets, wp_bind, wp_gets.
  destruct (Module_gate (pr_toggles (w_db w).1) module (w_now w) (ar_later a) (ar_toggle a)) as [o toggles] eqn:Eg.
  set (p := mkProcess (pr_jwt (w_db w).1) toggles). apply wp_bind.
  assert (with_db (p, (w_db w).2) w = moved p (w_sched w) w) as Ew by by destruct w.
  change (wp (match o with Some r => gret r | None => serve cf a chain next q ctx end)
    (outcome_of cf a (Gate module :: chain) next q ctx w) (with_db (p, (w_db w).2) w)). rewrite Ew.
  destruct o as [r|].
  - apply wp_ret. left. apply refused. unfold Module_gate in Eg. destruct (IsEnabled _ _ _ _ _) as [[] ?]; simplify_eq.
    unfold refusal. simpl. set_solver.
  - eapply wp_mono; [|apply (IH p)]. intros r w' Ho.
    apply (outcome_step cf a (Gate module) chain next q ctx ctx w (w_sched w)); [done| |].
    + intros c _ _. cbn [demand]. by rewrite Eg.
    + cbn [after]. by rewrite Eg.
Qed.

(** The guard in front of a check of the claims. *)
Lemma guarded_step cf a mw chain next q ctx w (check : claims -> bool) k :
  of_token a ctx ->
  (forall p cl, of_token a (Some cl) -> wp (serve cf a chain next q (Some cl))
     (outcome_of cf a chain next q (Some cl) (moved p (w_sched w) w)) (moved p (w_sched w) w)) ->
  after cf a (w_now w) mw (w_db w).1
    = mkProcess (guard (pr_jwt (w_db w).1) (w_now w) (ar_jwks a) (ar_authorization a)).2 (pr_toggles (w_db w).1) ->
  (forall c, verified a (w_now w) (w_db w).1 c -> check c = true -> demand cf a (w_now w) (w_led w) q mw (w_db w).1 c) ->
  (forall r, k (inl r) = gret r) ->
  (forall cl, k (inr cl) = if check (Some cl) then serve cf a chain next q (Some cl) else
     k (inr cl)) ->
  (forall cl, check (Some cl) = false -> exists msg, k (inr cl) = reply_error 403 msg) ->
  wp (guarded a k) (outcome_of cf a (mw :: chain) next q ctx w) w.
Proof.
  intros Hctx IH Hafter Hd Hno Hyes Hbad. apply wp_guarded.
  - intros r Hr. rewrite Hno. apply wp_ret. left. by apply refused.
  - intros cl Hv. destruct (check (Some cl)) eqn:Ec.
    + rewrite Hyes, Ec. eapply wp_mono; [|apply IH; by eapply verified_token]. intros r w' Ho.
      eapply verified_step; [done|exact Hv| |by rewrite Hafter]. intros c ->. by apply Hd.
    + destruct (Hbad cl Ec) as [msg ->]. apply wp_ret. left. apply refused. unfold refusal. simpl. set_solver.
Qed.

Lemma serve_spec cf a chain next : forall q ctx w,
  of_token a ctx -> wp (serve cf a chain next q ctx) (outcome_of cf a chain next q ctx w) w.
Proof.
  induction chain as [|mw chain IH]; intros q ctx w Hctx.
  { unfold wp, serve, lift; simpl. destruct (next q ctx (inner w)) as [r w1] eqn:En. right. exists ctx.
    split_and!; [done|done|done|]. exists q, (w_sched w). split; [by left|].
    replace (with_sched (w_sched w) (inner w)) with (inner w) by by destruct w as [[]]. rewrite En. split; [done|]. by split_and!. }
  change (serve cf a (mw :: chain) next) with (apply cf a mw (serve cf a chain next)).
  assert (forall mw', after cf a (w_now w) mw' (w_db w).1 = mkProcess (guard (pr_jwt (w_db w).1) (w_now w) (ar_jwks a) (ar_authorization a)).2 (pr_toggles (w_db w).1) ->
    (forall c, verified a (w_now w) (w_db w).1 c -> demand cf a (w_now w) (w_led w) q mw' (w_db w).1 c) ->
    wp (guarded a (fun v => RequireAuth v (serve cf a chain next q))) (outcome_of cf a (mw' :: chain) next q ctx w) w) as Hjwt.
  { intros mw' Ha Hd. apply (guarded_step _ _ _ _ _ _ _ _ (fun _ => true)); auto. by intros cl. }
  destruct mw as [module| |role|roles|roles|entityType permission idFrom|action entity idParam captureBody| |]; cbn [apply].
  - apply gate_step. auto.
  - by apply Hjwt.
  - apply (guarded_step _ _ _ _ _ _ _ _ (fun c => hasRole c role)); auto; unfold RequireRole, RequireAuth.
    + by split.
    + intros cl. by destruct (hasRole (Some cl) role).
    + intros cl ->. by eexists.
  - apply (guarded_step _ _ _ _ _ _ _ _ (fun c => HasAnyRole c roles)); auto; unfold RequireAnyRole, RequireAuth.
    + by split.
    + intros cl. by destruct (HasAnyRole (Some cl) roles).
    + intros cl ->. by eexists.
  - unfold httpx_RequireAnyRole. destruct (HasAnyRole ctx roles) eqn:Er.
    + eapply wp_mono; [|by apply IH]. intros r w' Ho. apply (outcome_step _ _ _ _ _ _ _ ctx _ (w_sched w)); [done| |].
      * intros c _ Hc. cbn [demand]. destruct ctx as [cl|]; [by rewrite (Hc cl eq_refl)|]. exfalso. clear -Er. by induction roles.
      * cbn [after]. by rewrite moved_self.
    + apply wp_ret. left. split; [unfold refusal; simpl; set_solver|apply untouched_refl].
  - apply permit_step. auto.
  - apply audit_step. auto.
  - unfold leakAuth. case_decide as Hl; [apply Hjwt; [cbn [after]; by rewrite decide_False by tauto|intros c Hc; by right]|].
    case_decide as Ht; [|apply Hjwt; [cbn [after]; by rewrite decide_False by tauto|intros c Hc; by right]].
    eapply wp_mono; [|by apply IH]. intros r w' Ho. apply (outcome_step _ _ _ _ _ _ _ ctx _ (w_sched w)); [done|by left|].
    cbn [after]. rewrite decide_True by done. by rewrite moved_self.
  - unfold RequireIngestAuth. case_decide as Ht; [|apply Hjwt; [cbn [after]; by rewrite decide_False|intros c Hc; by right]].
    eapply wp_mono; [|by apply IH]. intros r w' Ho. apply (outcome_step _ _ _ _ _ _ _ ctx _ (w_sched w)); [done|by left|].
    cbn [after]. rewrite decide_True by done. by rewrite moved_self.
Qed.

Lemma demands_in cf a now peer q chain mw p c : mw ∈ chain -> demands cf a now peer q chain p c ->
  exists p', demand cf a now peer q mw p' c.
Proof.
  intros Hin. revert p. induction Hin as [mw chain|mw mw' chain Hin IH]; intros p [Hd Hds]; [by exists p|by eapply IH].
Qed.

(** A handler runs only when its chain admits the request, for every route of
    every service, every handler, every request and every fault: either the
    answer is 401, 403, 404, 502 or 503 and nothing but the caches changed, or
    the answer and the change are the handler's, run on the request with
    claims for which all that the middlewares in front of it demand holds:
    the module's gate open, the token vouched for, the roles in the token, the
    permission granted to its subject. *)
Theorem handler_runs_only_when_admitted cf a (r : route) (next : request -> claims -> M D S response) q w :
  outcome_of cf a (rt_chain r) next q None w (serve cf a (rt_chain r) next q None w).1 (serve cf a (rt_chain r) next q None w).2.
Proof. by apply serve_spec. Qed.
End Server.

(** ** What the tables say *)

Definition is_write (r : route) : bool := negb (bool_decide (rt_method r ∈ ["GET"; "*"])).

(** Admin-api's two intake endpoints, which are public by design. *)
Definition public_write (r : route) : bool :=
  bool_decide (rt_handler r ∈ ["Onboarding.CitizenSelfServe"; "Onboarding.Intake"]).

Definition authenticates (mw : middleware) : bool :=
  match mw with Auth | Role _ | AnyRole _ => true | _ => false end.

Definition machine_route (r : route) : bool :=
  bool_decide (rt_handler r = "IngestLeak" /\ rt_chain r = [Gate "leak-detection"; SensorOrAuth]) ||
  bool_decide (rt_handler r = "Ingest" /\ rt_chain r = [IngestAuth]).

(** The middlewares that read the claims stand behind one that sets them. *)
Fixpoint claims_set_first (chain : list middleware) : bool :=
  match chain with
  | [] => true
  | mw :: rest =>
      if authenticates mw then true
      else match mw with HasRole _ | Permit _ _ _ | Audit _ _ _ _ => false | _ => claims_set_first rest end
  end.

Definition every_route (f : string -> route -> bool) : bool :=
  forallb (fun sv => forallb (f sv.1) sv.2) services.

Lemma every_route_spec f sv rs r : every_route f = true -> (sv, rs) ∈ services -> r ∈ rs -> f sv r = true.
Proof.
  unfold every_route. rewrite forallb_forall. intros Hf Hs Hr. apply list_elem_of_In in Hs. specialize (Hf _ Hs).
  rewrite forallb_forall in Hf. apply Hf. by apply list_elem_of_In.
Qed.

Lemma checks_behind_guard : every_route (fun _ r => claims_set_first (rt_chain r)) = true.
Proof. vm_compute. reflexivity. Qed.

(** The first middleware that sets claims asks for a bearer token. *)
Fixpoint bearer_first (chain : list middleware) : bool :=
  match chain with
  | [] => false
  | mw :: rest => authenticates mw || (match mw with SensorOrAuth | IngestAuth => false | _ => bearer_first rest end)
  end.

Lemma writes_authenticated :
  every_route (fun _ r => negb (is_write r) || public_write r || bearer_first (rt_chain r) || machine_route r) = true.
Proof. vm_compute. reflexivity. Qed.

(** The services behind module gates, and their routes outside of them. *)
Definition gated_services : list string := ["fleet-api"; "infra-api"; "citizen-api"; "commerce-api"].

Definition ungated (r : route) : bool :=
  bool_decide (rt_handler r ∈ ["Healthz"; "metrics"; "ExportMyData"; "EraseMyData"]).

Definition gate_first (r : route) : bool := match rt_chain r with Gate _ :: _ => true | _ => false end.

Lemma modules_gated :
  every_route (fun sv r => negb (bool_decide (sv ∈ gated_services)) || ungated r || gate_first r) = true.
Proof. vm_compute. reflexivity. Qed.

(** Two routes of a service that some request could both match, the one more
    fixed than the other. *)
Definition ordered (r r' : route) : bool :=
  negb (same_method r r') || negb (overlap_segs (segments (rt_pattern r)) (segments (rt_pattern r'))) ||
  bool_decide (r = r') || (narrower r r' && negb (narrower r' r)) || (narrower r' r && negb (narrower r r')).

Lemma routes_ordered : forallb (fun sv => forallb (fun r => forallb (ordered r) sv.2) sv.2) services = true.
Proof. vm_compute. reflexivity. Qed.

(** The pairs chi decides by preferring the fixed segment. *)
Definition contested (rs : list route) : list (string * string) :=
  flat_map (fun r => omap (fun r' =>
    if same_method r r' && overlap_segs (segments (rt_pattern r)) (segments (rt_pattern r')) && negb (bool_decide (r = r')) && narrower r r'
    then Some (rt_handler r, rt_handler r') else None) rs) rs.

Lemma contested_routes : map (fun sv => (sv.1, contested sv.2)) (filter (fun sv => contested sv.2 <> []) services) =
  [("admin-api"%string, [("Onboarding.CitizenSelfServe", "Onboarding.Intake"); ("Onboarding.Reconcile", "Onboarding.Intake")]%string)].
Proof. vm_compute. reflexivity. Qed.

Lemma matches_overlap p p' path : matches_segs p path = true -> matches_segs p' path = true -> overlap_segs p p' = true.
Proof.
  revert p p'. induction path as [|x path IH]; intros [|s p] [|s' p']; simpl; try done.
  rewrite !andb_true_iff, !orb_true_iff, !bool_decide_eq_true. intros [Hs Hp] [Hs' Hp']. split; [|by apply IH].
  destruct Hs as [?| ->]; [auto|]. destruct Hs' as [?| ->]; auto.
Qed.

(** No route is shadowed or ambiguous: two routes of a service that match the
    same method and path are the same route, or exactly one of them is the
    other with parameters replaced by fixed segments. *)
Theorem requests_have_one_route sv rs r r' path
    (Hsv : (sv, rs) ∈ services) (Hr : r ∈ rs) (Hr' : r' ∈ rs) (Hm : same_method r r' = true)
    (Hp : matches (rt_pattern r) path = true) (Hp' : matches (rt_pattern r') path = true) :
  r = r' \/ (narrower r r' = true /\ narrower r' r = false) \/ (narrower r' r = true /\ narrower r r' = false).
Proof.
  pose proof routes_ordered as Ho. rewrite forallb_forall in Ho. specialize (Ho (sv, rs) (proj1 (list_elem_of_In _ _) Hsv)).
  rewrite forallb_forall in Ho. specialize (Ho r (proj1 (list_elem_of_In _ _) Hr)). rewrite forallb_forall in Ho.
  specialize (Ho r' (proj1 (list_elem_of_In _ _) Hr')). unfold ordered in Ho.
  rewrite Hm, (matches_overlap _ _ _ Hp Hp') in Ho. simpl in Ho.
  rewrite !orb_true_iff, !andb_true_iff, !negb_true_iff, bool_decide_eq_true in Ho. tauto.
Qed.

Section Tables.
Context {D S : Type} `{TokenLib} `{GrpcServer S} `{AuditClient.AuditPeer S}.

Lemma bearer_verified cf a now (peer : S) q chain p c :
  bearer_first chain = true -> demands cf a now peer q chain p c -> verified a now p c.
Proof.
  revert p. induction chain as [|mw chain IH]; intros p; [done|]. simpl. intros Hb [Hd Hds].
  destruct mw; cbn [authenticates orb] in Hb; try done; cbn [demand] in Hd; try tauto; by apply IH in Hds.
Qed.

(** C5: no write without a credential: a POST, PUT, PATCH or DELETE route of any
    service, the two public intake endpoints apart, runs its handler only for
    a request whose bearer token the guard vouches for at that moment, with
    that token's claims; the leak webhook also for the sensors' token and the
    audit ingest for a shared token, if one is configured.  Every other
    request is refused and changes nothing but the caches. *)
Theorem writes_need_credentials cf a sv rs r (next : request -> claims -> M D S response) q w
    (Hsv : (sv, rs) ∈ services) (Hr : r ∈ rs) (Hw : is_write r = true) (Hpub : public_write r = false) :
  let '(resp, w') := serve cf a (rt_chain r) next q None w in
  (refusal resp /\ untouched w w') \/
  exists c, served next q c w resp w' /\
    (verified a (w_now w) (w_db w).1 c \/
     (rt_handler r = "IngestLeak" /\ cf_leakToken cf <> "" /\ ar_sensorToken a = cf_leakToken cf) \/
     (rt_handler r = "Ingest" /\ ar_auditToken a ∈ accepted_tokens (cf_ingestToken cf))).
Proof.
  pose proof (serve_spec cf a (rt_chain r) next q None w I) as Ho. unfold wp in Ho.
  destruct (serve cf a (rt_chain r) next q None w) as [resp w']. simpl in Ho.
  destruct Ho as [?|(c & _ & _ & Hd & Hs)]; [by left|right]. exists c. split; [done|].
  pose proof (every_route_spec _ _ _ _ writes_authenticated Hsv Hr) as Ht. cbv beta in Ht. rewrite Hw, Hpub in Ht. simpl in Ht.
  apply orb_true_iff in Ht as [Hb|Hm]; [left; by eapply bearer_verified|].
  unfold machine_route in Hm. rewrite orb_true_iff, !bool_decide_eq_true in Hm.
  destruct Hm as [[Hh Hc]|[Hh Hc]]; rewrite Hc in Hd; simpl in Hd.
  - destruct Hd as (_ & [Ht|Hv] & _); [tauto|left]. exact Hv.
  - destruct Hd as ([Ht|Hv] & _); tauto.
Qed.

(** C39: a module that is off serves nothing.  In the four services that are
    divided into modules (fleet-api, infra-api, citizen-api and commerce-api;
    admin-api, toggle-service and audit-log are not), every route but health,
    metrics and the data-subject rights stands behind a module, and while the
    gate finds the module off, by its cache or by the answer of toggle-service,
    every request to it is answered 404 and changes nothing but the cached
    toggles: not the tables, the partners, the clock, the keys of the token
    middleware, nor a message sent. *)
Theorem disabled_module_serves_nothing cf a sv rs r (next : request -> claims -> M D S response) q w
    (Hsv : (sv, rs) ∈ services) (Hgated : sv ∈ gated_services) (Hr : r ∈ rs) (Hun : ungated r = false) :
  exists module rest, rt_chain r = Gate module :: rest /\
    ((IsEnabled (pr_toggles (w_db w).1) module (w_now w) (ar_later a) (ar_toggle a)).1 = false ->
     let '(resp, w') := serve cf a (rt_chain r) next q None w in status resp = 404 /\
     w' = with_db (mkProcess (pr_jwt (w_db w).1)
       (IsEnabled (pr_toggles (w_db w).1) module (w_now w) (ar_later a) (ar_toggle a)).2, (w_db w).2) w).
Proof.
  pose proof (every_route_spec _ _ _ _ modules_gated Hsv Hr) as Ht. cbv beta in Ht.
  rewrite (bool_decide_true _ Hgated), Hun in Ht. simpl in Ht. unfold gate_first in Ht.
  destruct (rt_chain r) as [|[module| | | | | | | |] rest] eqn:Ec; try done. exists module, rest. split; [done|]. intros Hoff.
  enough (wp (serve cf a (Gate module :: rest) next q None) (fun resp w' => status resp = 404 /\
    w' = with_db (mkProcess (pr_jwt (w_db w).1)
      (IsEnabled (pr_toggles (w_db w).1) module (w_now w) (ar_later a) (ar_toggle a)).2, (w_db w).2) w) w) as Hwp.
  { unfold wp in Hwp. by destruct (serve _ _ _ _ _ _ w). }
  change (serve cf a (Gate module :: rest) next) with (gate a module (serve cf a rest next)).
  unfold gate. apply wp_bind, wp_gets, wp_bind, wp_gets. unfold Module_gate.
  destruct (IsEnabled _ _ _ _ _) as [b toggles]. simpl in Hoff. subst b. apply wp_bind.
  unfold wp at 1. simpl. apply wp_ret. split; [done|]. by destruct w.
Qed.
End Tables.

(** Audited routes whose pattern names an entity that the entry leaves out. *)
Definition unnamed_entries : list (string * string) :=
  flat_map (fun sv => omap (fun r =>
    if existsb is_param (segments (rt_pattern r)) &&
       existsb (fun mw => match mw with Audit _ _ "" _ => true | _ => false end) (rt_chain r)
    then Some (sv.1, rt_handler r) else None) sv.2) services.

Lemma money_entries_unnamed : unnamed_entries =
  [("commerce-api", "RefundPayment"); ("commerce-api", "GenerateInvoice"); ("commerce-api", "PayInvoice")]%string.
Proof. vm_compute. reflexivity. Qed.

(** Every id an entry is to carry is a parameter of its route. *)
Lemma entry_ids_exist :
  every_route (fun _ r => forallb (fun mw => match mw with
    | Audit _ _ id _ => bool_decide (id = "") || bool_decide (("{" +:+ id +:+ "}") ∈ segments (rt_pattern r))
    | Permit _ _ (Param id) => bool_decide (("{" +:+ id +:+ "}") ∈ segments (rt_pattern r))
    | _ => true end) (rt_chain r)) = true.
Proof. vm_compute. reflexivity. Qed.

(** ** Runs *)

Section Runs.
#[local] Existing Instance test_tokens.
#[local] Existing Instance list_server.

(** An audit-log that is unreachable. *)
#[local] Instance deaf_peer : AuditClient.AuditPeer (list check) := {|
  AuditClient.url_parses := fun _ => true;
  AuditClient.post_audit := fun _ _ _ s => (503, s)
|}.

(** The process of a service that knows key k1, with one module on and one off. *)
Definition running_process : process :=
  mkProcess rotated_mw {[ "compliance-reporting" := Toggles.mkEntry true 500000; "depot-management" := Toggles.mkEntry false 500000 ]}.

Definition server_world (rels : list check) : World (process * nat) (list check) :=
  mkWorld (running_process, 0%nat) rels [] 2000 0 [] [] [].

Definition the_config : config := mkConfig the_client None "" "".

Definition bearing (token : string) : arrival :=
  mkArrival ("Bearer " +:+ token) "" "" JwksUnreachable (HttpFail 0 false "") 2000.

Definition a_request : request := AuditClient.mkRequest [] "10.0.0.7" "curl" [].

(** A handler that counts its runs. *)
Definition counting : request -> claims -> M nat (list check) response :=
  fun _ ctx => fun w => (mkResponse 201 (JStr (Subject ctx)), with_db (S (w_db w)) w).

Definition generate_route : route :=
  Post [Gate "compliance-reporting"; Role "operator"; Permit "report" "generate" (Fixed "compliance")]
    "/v1/compliance/reports/generate" "GenerateComplianceReport".

Definition granting : list check := [mkCheck "t1" "report" "compliance" "generate" "alice"].

Example generate_runs :
  map (fun x => let '(rels, tok) := x in
    let '(r, w) := serve the_config (bearing tok) (rt_chain generate_route) counting a_request None (server_world rels) in
    (status r, (w_db w).2))
    [(granting, "t1"); ([], "t1"); (granting, "t2"); (granting, "")]%string
  = [(201, 1%nat); (403, 0%nat); (401, 0%nat); (401, 0%nat)].
Proof. vm_compute. reflexivity. Qed.

Lemma writes_need_credentials_witness :
  let '(resp, w') := serve the_config (bearing "t1") (rt_chain generate_route) counting a_request None (server_world granting) in
  status resp = 201 /\
  ((refusal resp /\ untouched (server_world granting) w') \/
   exists c, served counting a_request c (server_world granting) resp w' /\
    (verified (bearing "t1") 2000 running_process c \/
     ("GenerateComplianceReport" = "IngestLeak" /\ "" <> "" /\ "" = "") \/
     ("GenerateComplianceReport" = "Ingest" /\ "" ∈ accepted_tokens "")))%string.
Proof.
  pose proof (writes_need_credentials the_config (bearing "t1") "infra-api" infra_routes generate_route counting a_request
    (server_world granting)) as Hc.
  assert (status (serve the_config (bearing "t1") (rt_chain generate_route) counting a_request None (server_world granting)).1 = 201)
    as Hs by (vm_compute; reflexivity).
  destruct (serve _ _ _ _ _ _ _) as [resp w']. split; [exact Hs|]. apply Hc.
  - apply (bool_decide_unpack _). vm_compute. exact I.
  - apply (bool_decide_unpack _). vm_compute. exact I.
  - reflexivity.
  - reflexivity.
Defined.

Lemma disabled_module_serves_nothing_witness :
  let r := Post [Gate "depot-management"; Role "operator"] "/v1/depot/work-orders/{id}/close" "CloseWorkOrder" in
  exists module rest, rt_chain r = Gate module :: rest /\
    ((IsEnabled (pr_toggles running_process) module 2000 2000 (HttpFail 0 false "")).1 = false ->
     let '(resp, w') := serve the_config (bearing "t1") (rt_chain r) counting a_request None (server_world []) in
     status resp = 404 /\
     w' = with_db (mkProcess rotated_mw (IsEnabled (pr_toggles running_process) module 2000 2000 (HttpFail 0 false "")).2, 0%nat)
            (server_world [])).
Proof.
  apply (disabled_module_serves_nothing the_config (bearing "t1") "infra-api" infra_routes
    (Post [Gate "depot-management"; Role "operator"] "/v1/depot/work-orders/{id}/close" "CloseWorkOrder") counting a_request (server_world [])).
  - apply (bool_decide_unpack _). vm_compute. exact I.
  - apply (bool_decide_unpack _). vm_compute. exact I.
  - apply (bool_decide_unpack _). vm_compute. exact I.
  - reflexivity.
Defined.

Lemma requests_have_one_route_witness :
  let r := Post [Role "platform-admin"; Audit "onboarding.reconcile" "onboarding_request" "" false]
             "/v1/onboarding/reconcile" "Onboarding.Reconcile" in
  let r' := Post [] "/v1/onboarding/{key}" "Onboarding.Intake" in
  r = r' \/ (narrower r r' = true /\ narrower r' r = false) \/ (narrower r' r = true /\ narrower r r' = false).
Proof.
  apply (requests_have_one_route "admin-api" admin_routes _ _ "/v1/onboarding/reconcile").
  - apply (bool_decide_unpack _). vm_compute. exact I.
  - apply (bool_decide_unpack _). vm_compute. exact I.
  - apply (bool_decide_unpack _). vm_compute. exact I.
  - reflexivity.
  - reflexivity.
  - reflexivity.
Defined.
End Runs.
