(* ===== verification/Dashboards.v ===== *)
(** * The dashboards

    Models admin-api's internal/kpi (the KPI aggregation over five sources),
    its internal/modules registry, and commerce-api's GET /v1/gov/kpis.  Both
    promise honesty: a section is what the tables say, or null and named as
    degraded.  The sources of the first run concurrently; their statements
    only read, so what concurrency leaves open is the order in which the
    results arrive, which is an argument here.

    The state holds the columns the queries read.  The conversions of numeric
    columns are [PgNumeric]'s and [StationEnv]'s. *)

From S2P Require Import Prelude Codec World Float64 InfraDb.
From S2P Require Import Stations.
From S2P Require Compliance.

Open Scope Z_scope.
Open Scope go_scope.

(** ** The tables *)

Record FarePayment : Type := mkFare {
  fa_amount : Z; fa_charged : option Z; fa_currency : string; fa_status : string; fa_created : Z
}.

Record CarbonRow : Type := mkCarbonRow { cb_kg : Qc; cb_credits : Qc }.

Record KpiDB : Type := mkKpiDB {
  kd_vehicles : gmap string string;             (* id, status *)
  kd_telemetry : list (string * Z);             (* bus_id, ts *)
  kd_incidents : gmap string string;            (* id, status *)
  kd_drt : list Z;                              (* requested_at *)
  kd_carbon : list CarbonRow;
  kd_payments : list FarePayment;
  kd_stations : gmap string (option Qc)         (* id, available_kg *)
}.

Definition minutes (n : Z) : Z := n * 60000.
Definition days30 : Z := 30 * 86400000.

(** ** Queries *)

(** [count( * ) FILTER (WHERE status = s)] and the like. *)
Definition count_status (ss : list string) (m : gmap string string) : Z :=
  Z.of_nat (length (filter (fun s => s ∈ ss) (rows m))).

Definition vehicle_counts (d : KpiDB) : result (Z * Z) :=
  Ok (Z.of_nat (size (kd_vehicles d)), count_status ["active"] (kd_vehicles d)).

Definition sumQ (l : list Qc) : Qc := foldr Qcplus 0%Qc l.

(** A [sum] of bigint is numeric; it is scanned into an int64. *)
Definition int8_sum (l : list Z) : result Z :=
  let s := foldr Z.add 0 l in if in_int8 s then Ok s else Err (PgError numeric_value_out_of_range).

Definition settled_amounts (l : list FarePayment) : list Z := map fa_amount (filter (fun p => fa_status p = "settled") l).

(** ** admin-api: the sources *)

Section Kpi.
Context `{Runtime} `{StationEnv}.
Context {S : Type}.

Abbreviation KM := (M KpiDB S).

(** [count(ts >= now - 5 minutes) / 5.0]. *)
Definition points_per_min (now : Z) (d : KpiDB) : result float64 :=
  Ok (Compliance.fdiv (float_of_Z (Z.of_nat (length (filter (fun t => now - minutes 5 <= t.2) (kd_telemetry d))))) (float_of_Z 5)).

Definition FleetSource : KM (result json) :=
  let! now := gets w_now in
  try! (total, available) := db_query vehicle_counts catch _e => gret (Err (ErrMsg "fleet availability")) in
  try! rate := db_query (points_per_min now) catch _e => gret (Err (ErrMsg "telemetry rate")) in
  gret (Ok (JObj [("vehicles_total", JInt total); ("vehicles_available", JInt available); ("telemetry_points_per_min", JFloat rate)])).

Definition InfraSource : KM (result json) :=
  try! n := db_query (fun d => Ok (count_status ["open"; "acknowledged"] (kd_incidents d)))
    catch _e => gret (Err (ErrMsg "open incidents")) in
  gret (Ok (JObj [("open_incidents", JInt n)])).

(** [date_trunc('day', now())] is in the session's zone. *)
Definition drt_today (now : Z) (d : KpiDB) : Z :=
  Z.of_nat (length (filter (fun t => day_start "" now <= t) (kd_drt d))).

Definition CitizenSource : KM (result json) :=
  let! now := gets w_now in
  try! n := db_query (fun d => Ok (drt_today now d)) catch _e => gret (Err (ErrMsg "drt requests today")) in
  try! kg := db_query (fun d => float8_of_numeric (sumQ (map cb_kg (kd_carbon d))))
    catch _e => gret (Err (ErrMsg "carbon total")) in
  gret (Ok (JObj [("drt_requests_today", JInt n); ("carbon_kg_co2_total", JFloat kg)])).

Definition recent_payments (now : Z) (d : KpiDB) : list FarePayment :=
  filter (fun p => now - days30 <= fa_created p) (kd_payments d).

Definition payment_totals (now : Z) (d : KpiDB) : result (Z * Z) :=
  result_map (fun s => (Z.of_nat (length (recent_payments now d)), s)) (int8_sum (settled_amounts (recent_payments now d))).

(** [ORDER BY created_at DESC LIMIT 1]. *)
Definition latest_currency (now : Z) (d : KpiDB) : result string :=
  match order_asc (fun p => - fa_created p) (recent_payments now d) with
  | [] => Err ErrNoRows
  | p :: _ => Ok (fa_currency p)
  end.

Definition CommerceSource : KM (result json) :=
  let! now := gets w_now in
  try! (n, revenue) := db_query (payment_totals now) catch _e => gret (Err (ErrMsg "payments 30d")) in
  let! c := db_query (latest_currency now) in
  match c with
  | Err ErrNoRows => gret (Ok (JObj [("payments_30d", JInt n); ("revenue_30d_minor", JInt revenue); ("currency", JStr "")]))
  | Err _ => gret (Err (ErrMsg "payments currency"))
  | Ok c => gret (Ok (JObj [("payments_30d", JInt n); ("revenue_30d_minor", JInt revenue); ("currency", JStr c)]))
  end.

(** *** modules.go *)

Record Info : Type := mkInfo { in_domain : string; in_owners : list string }.

Definition Registry : list (string * Info) :=
  [("telematics", mkInfo "fleet" ["fleet-api"; "telemetry-ingest"]);
   ("predictive-maintenance", mkInfo "fleet" ["fleet-api"; "predictive-maintenance"]);
   ("digital-twin", mkInfo "fleet" ["fleet-api"; "digital-twin"]);
   ("fuel-monitoring", mkInfo "fleet" ["fleet-api"; "telemetry-ingest"]);
   ("route-energy-optimizer", mkInfo "fleet" ["fleet-api"; "route-optimizer"]);
   ("refueling-stations", mkInfo "infra" ["infra-api"]);
   ("leak-detection", mkInfo "infra" ["infra-api"]);
   ("dispatch-workforce", mkInfo "infra" ["infra-api"]);
   ("compliance-reporting", mkInfo "infra" ["infra-api"]);
   ("depot-management", mkInfo "infra" ["infra-api"]);
   ("passenger-pwa", mkInfo "citizen" ["citizen-api"; "pwa"]);
   ("mobile-app", mkInfo "citizen" ["citizen-api"; "mobile-app"]);
   ("demand-responsive", mkInfo "citizen" ["citizen-api"]);
   ("carbon-credits", mkInfo "citizen" ["citizen-api"; "carbon-analytics"]);
   ("open-data-portal", mkInfo "citizen" ["citizen-api"]);
   ("fare-payments", mkInfo "commerce" ["commerce-api"]);
   ("loyalty-marketplace", mkInfo "commerce" ["commerce-api"]);
   ("energy-trading", mkInfo "commerce" ["commerce-api"]);
   ("gov-dashboard", mkInfo "commerce" ["commerce-api"; "pwa"]);
   ("advertising", mkInfo "commerce" ["commerce-api"])].

Definition Domains : list string := ["fleet"; "infra"; "citizen"; "commerce"].

Definition registered (module : string) : option Info :=
  snd <$> List.find (fun mi => bool_decide (mi.1 = module)) Registry.

Definition DomainOf (module : string) : string :=
  match registered module with Some info => in_domain info | None => "unknown" end.

(** *** The toggle counts *)

Record ToggleKPIs : Type := mkToggleKPIs {
  tk_enabled : Z; tk_total : Z; tk_domains : gmap string (Z * Z)     (* enabled, total *)
}.

Definition no_toggles : ToggleKPIs :=
  mkToggleKPIs 0 0 (list_to_map (map (fun dom => (dom, (0, 0))) Domains)).

(** The body of the loop over the toggles. *)
Definition count_toggle (k : ToggleKPIs) (t : string * bool) : ToggleKPIs :=
  let dom := DomainOf t.1 in
  let '(en, tot) := default (0, 0) (tk_domains k !! dom) in
  let one := if t.2 : bool then 1 else 0 in
  mkToggleKPIs (tk_enabled k + one) (tk_total k + 1) (<[dom := (en + one, tot + 1)]> (tk_domains k)).

(** Over the modules in whatever order the map yields them. *)
Definition count_toggles (l : list (string * bool)) : ToggleKPIs := foldl count_toggle no_toggles l.

(** The [toggles] member: a null or absent map is empty, a later duplicate wins. *)
Fixpoint dec_bools (fs : list (string * json)) : option (gmap string bool) :=
  match fs with
  | [] => Some ∅
  | (k, v) :: fs =>
      m ← dec_bools fs;
      match v with
      | JBool b => Some (match m !! k with Some _ => m | None => <[k := b]> m end)
      | JNull => Some (match m !! k with Some _ => m | None => <[k := false]> m end)
      | _ => None
      end
  end.

Definition dec_toggles (doc : json) : option (gmap string bool) :=
  o ← doc_obj doc; fs ← dec_obj o "toggles"; dec_bools fs.

(** Go's JSON writes a map by its sorted keys. *)
Definition toggle_kpis_json (k : ToggleKPIs) : json :=
  JObj [("modules_enabled", JInt (tk_enabled k)); ("modules_total", JInt (tk_total k));
        ("domains", JObj (map (fun e => (e.1, JObj [("enabled", JInt e.2.1); ("total", JInt e.2.2)]))
                           (order_text fst (map_to_list (tk_domains k)))))].

Definition toggle_figure (h : http_outcome) : result json :=
  match h with
  | HttpFail _ _ _ => Err (ErrMsg "toggle-service")
  | HttpReply _ code _ doc =>
      if negb (code =? 200) then Err (ErrMsg ("toggle-service: status " +:+ pretty code))
      else match doc with
           | None => Err (ErrMsg "toggle-service decode")
           | Some doc => match dec_toggles doc with
                         | None => Err (ErrMsg "toggle-service decode")
                         | Some m => Ok (toggle_kpis_json (count_toggles (map_to_list m)))
                         end
           end
  end.

Definition ToggleSource (baseURL : string) : KM (result json) :=
  let! h := http_do (mkHttpRequest "GET" (baseURL +:+ "/v1/toggles") JNull) in
  gret (toggle_figure h).

(** *** The aggregator *)

Record Response : Type := mkResponseK {
  rs_generated : Z; rs_fleet : option json; rs_infra : option json; rs_citizen : option json;
  rs_commerce : option json; rs_toggles : option json; rs_degraded : list string
}.

Definition empty_response (now : Z) : Response := mkResponseK now None None None None None [].

(** One turn of the loop over the results. *)
Definition place_result (b : Response) (r : string * result json) : Response :=
  match b, r with
  | mkResponseK t f i c m g dg, (name, Err _) => mkResponseK t f i c m g (dg ++ [name])
  | mkResponseK t f i c m g dg, (name, Ok v) =>
      if decide (name = "fleet") then mkResponseK t (Some v) i c m g dg
      else if decide (name = "infra") then mkResponseK t f (Some v) c m g dg
      else if decide (name = "citizen") then mkResponseK t f i (Some v) m g dg
      else if decide (name = "commerce") then mkResponseK t f i c (Some v) g dg
      else if decide (name = "toggles") then mkResponseK t f i c m (Some v) dg
      else b
  end.

Definition assemble (now : Z) (results : list (string * result json)) : Response :=
  match foldl place_result (empty_response now) results with
  | mkResponseK t f i c m g dg => mkResponseK t f i c m g (order_text (fun s => s) dg)
  end.

Definition kpi_sources (toggleURL : string) : list (string * KM (result json)) :=
  [("fleet", FleetSource); ("infra", InfraSource); ("citizen", CitizenSource); ("commerce", CommerceSource);
   ("toggles", ToggleSource toggleURL)].

(** The results of the sources in the order in which they end. *)
Fixpoint collect_all (order : list (string * KM (result json))) : KM (list (string * result json)) :=
  match order with
  | [] => gret []
  | (name, m) :: order => let! r := m in let! rs := collect_all order in gret ((name, r) :: rs)
  end.

Definition Collect (order : list (string * KM (result json))) : KM Response :=
  let! rs := collect_all order in
  let! now := gets w_now in
  gret (assemble now rs).

Definition jopt (o : option json) : json := default JNull o.

Definition response_json (r : Response) : json :=
  JObj [("generated_at", JTime (rs_generated r)); ("fleet", jopt (rs_fleet r)); ("infra", jopt (rs_infra r));
        ("citizen", jopt (rs_citizen r)); ("commerce", jopt (rs_commerce r)); ("toggles", jopt (rs_toggles r));
        ("meta", JObj [("partial", JBool (negb (bool_decide (rs_degraded r = [])))); ("degraded", JList (map JStr (rs_degraded r)))])].

Definition kpiHandler (order : list (string * KM (result json))) : KM response :=
  let! r := Collect order in reply 200 (response_json r).
End Kpi.

(** ** What the aggregate says *)

Section Aggregate.
Context `{Runtime} `{StationEnv} {S : Type}.
Implicit Types w : World KpiDB S.

Definition section_names : list string := ["fleet"; "infra"; "citizen"; "commerce"; "toggles"].

Definition section_of (name : string) (r : Response) : option json :=
  if decide (name = "fleet") then rs_fleet r
  else if decide (name = "infra") then rs_infra r
  else if decide (name = "citizen") then rs_citizen r
  else if decide (name = "commerce") then rs_commerce r
  else rs_toggles r.

Lemma in_section_names n : n ∈ section_names ->
  n = "fleet" \/ n = "infra" \/ n = "citizen" \/ n = "commerce" \/ n = "toggles".
Proof. unfold section_names. rewrite !elem_of_cons, elem_of_nil. tauto. Qed.

Lemma place_result_section b n m r : n ∈ section_names -> m ∈ section_names ->
  section_of n (place_result b (m, r)) = if decide (n = m) then match r with Ok v => Some v | Err _ => section_of n b end else section_of n b.
Proof.
  intros Hn%in_section_names Hm%in_section_names. destruct b, r;
    repeat destruct Hn as [-> |Hn]; subst; repeat destruct Hm as [-> |Hm]; subst; reflexivity.
Qed.

Lemma place_result_degraded b n r : n ∈ section_names ->
  rs_degraded (place_result b (n, r)) = match r with Ok _ => rs_degraded b | Err _ => rs_degraded b ++ [n] end.
Proof. intros Hn%in_section_names. destruct b, r; repeat destruct Hn as [-> |Hn]; subst; reflexivity. Qed.

(** The names of the results that failed. *)
Definition failed (rs : list (string * result json)) : list string :=
  omap (fun r => match r.2 with Err _ => Some r.1 | Ok _ => None end) rs.

Lemma fold_degraded rs b : Forall (fun r => r.1 ∈ section_names) rs ->
  rs_degraded (foldl place_result b rs) = rs_degraded b ++ failed rs.
Proof.
  intros Hrs. revert b. induction Hrs as [|[n r] rs Hn Hrs IH]; intros b; simpl; [by rewrite app_nil_r|].
  rewrite IH, place_result_degraded by done. unfold failed at 2. simpl. destruct r; simpl; [done|]. by rewrite <- app_assoc.
Qed.

Lemma fold_section rs b n : n ∈ section_names -> Forall (fun r => r.1 ∈ section_names) rs -> NoDup rs.*1 ->
  section_of n (foldl place_result b rs) =
    match List.find (fun r => bool_decide (r.1 = n)) rs with
    | Some (_, Ok v) => Some v
    | _ => section_of n b
    end.
Proof.
  intros Hn Hrs. revert b. induction Hrs as [|[m r] rs Hm Hrs IH]; intros b; simpl; [done|].
  intros [Hnin Hnd]%list.NoDup_cons. rewrite IH, place_result_section by done. case_bool_decide as Hmn; simpl in Hmn.
  - subst m. rewrite decide_True by done. destruct (List.find _ rs) as [[m' r']|] eqn:Ef; [|done].
    apply List.find_some in Ef as [Hin Hm'%bool_decide_eq_true]. simpl in Hm'. subst m'. exfalso. apply Hnin.
    apply list_elem_of_fmap. exists (n, r'). split; [done|]. by apply list_elem_of_In.
  - by rewrite decide_False by done.
Qed.

Lemma assemble_section now rs n : n ∈ section_names -> Forall (fun r => r.1 ∈ section_names) rs -> NoDup rs.*1 ->
  section_of n (assemble now rs) =
    match List.find (fun r => bool_decide (r.1 = n)) rs with Some (_, Ok v) => Some v | _ => None end.
Proof.
  intros Hn Hrs Hnd. pose proof (fold_section rs (empty_response now) n Hn Hrs Hnd) as Hf. unfold assemble.
  assert (section_of n (empty_response now) = None) as E by (apply in_section_names in Hn; repeat destruct Hn as [-> |Hn]; by subst).
  rewrite E in Hf. rewrite <- Hf. destruct (foldl place_result _ rs). reflexivity.
Qed.

Lemma assemble_degraded now rs : Forall (fun r => r.1 ∈ section_names) rs -> rs_degraded (assemble now rs) ≡ₚ failed rs.
Proof.
  intros Hrs. pose proof (fold_degraded rs (empty_response now) Hrs) as Hf. unfold assemble.
  destruct (foldl place_result _ rs). simpl in *. rewrite Hf. apply order_text_perm.
Qed.

Lemma assemble_generated now rs : rs_generated (assemble now rs) = now.
Proof.
  unfold assemble. assert (forall b, rs_generated (foldl place_result b rs) = rs_generated b) as Hg.
  { induction rs as [|[n r] rs IH]; intros b; simpl; [done|]. rewrite IH. destruct b, r; simpl; [|done]. by repeat case_decide. }
  specialize (Hg (empty_response now)). by destruct (foldl place_result _ rs).
Qed.

(** *** The sources *)

(** What a source may answer on tables [d] at [now]: its figure, or an error
    of its own; for the toggles, what some answer of toggle-service amounts to. *)
Definition figure_of (now : Z) (d : KpiDB) (name : string) (r : result json) : Prop :=
  if decide (name = "fleet") then
    r = match vehicle_counts d, points_per_min now d with
        | Ok (total, available), Ok rate =>
            Ok (JObj [("vehicles_total", JInt total); ("vehicles_available", JInt available); ("telemetry_points_per_min", JFloat rate)])
        | _, _ => Err (ErrMsg "fleet availability")
        end
  else if decide (name = "infra") then
    r = Ok (JObj [("open_incidents", JInt (count_status ["open"; "acknowledged"] (kd_incidents d)))])
  else if decide (name = "citizen") then
    r = match float8_of_numeric (sumQ (map cb_kg (kd_carbon d))) with
        | Ok kg => Ok (JObj [("drt_requests_today", JInt (drt_today now d)); ("carbon_kg_co2_total", JFloat kg)])
        | Err _ => Err (ErrMsg "carbon total")
        end
  else if decide (name = "commerce") then
    r = match payment_totals now d with
        | Ok (n, revenue) => Ok (JObj [("payments_30d", JInt n); ("revenue_30d_minor", JInt revenue);
              ("currency", JStr (match latest_currency now d with Ok c => c | Err _ => "" end))])
        | Err _ => Err (ErrMsg "payments 30d")
        end
  else exists h, r = toggle_figure h.

(** A source reads only; it answers its figure or, when a call fails, an error. *)
Definition source_ok (name : string) (m : M KpiDB S (result json)) : Prop := forall w,
  wp m (fun r w' => w_db w' = w_db w /\ w_now w' = w_now w /\
    (figure_of (w_now w) (w_db w) name r \/ (w_sched w <> [] /\ exists e, r = Err e)) /\ (w_sched w = [] -> w_sched w' = [])) w.

Lemma wp_query_ok {A} (f : KpiDB -> result A) (Q : result A -> World KpiDB S -> Prop) w :
  (forall s, (w_sched w = [] -> s = []) -> Q (f (w_db w)) (with_sched s w)) ->
  (forall s, w_sched w <> [] -> Q (Err (ErrIO "db")) (with_sched s w)) ->
  wp (db_query f) Q w.
Proof.
  intros Hok Herr. unfold wp, db_query, pop. destruct (w_sched w) as [|o s] eqn:Es.
  - simpl. specialize (Hok [] (fun _ => eq_refl)). destruct w; simpl in *. by subst.
  - destruct o; simpl; [apply Hok; done|apply Herr; done|apply Herr; done].
Qed.

Ltac source_step :=
  first [apply wp_bind, wp_gets|apply wp_bind, wp_query_ok; [intros ?s ?Hs|intros ?s ?Hs]|apply wp_ret].
Ltac source_end := simpl in *; split_and!; [done|done|left; unfold figure_of; simpl|naive_solver].
Ltac source_fails := apply wp_ret; simpl in *; split_and!; [done|done|right; split; [naive_solver|by eexists]|naive_solver].

Lemma fleet_source_ok : source_ok "fleet" FleetSource.
Proof.
  intros w. unfold FleetSource. source_step. source_step; [|source_fails]. simpl. source_step; [|source_fails].
  source_step. by source_end.
Qed.

Lemma infra_source_ok : source_ok "infra" InfraSource.
Proof. intros w. unfold InfraSource. source_step; [|source_fails]. source_step. by source_end. Qed.

Lemma citizen_source_ok : source_ok "citizen" CitizenSource.
Proof.
  intros w. unfold CitizenSource. source_step. source_step; [|source_fails]. simpl. source_step; [|source_fails]. simpl.
  destruct (float8_of_numeric (sumQ (map cb_kg (kd_carbon (w_db w))))) eqn:Ek; source_step; source_end; by rewrite Ek.
Qed.

Lemma commerce_source_ok : source_ok "commerce" CommerceSource.
Proof.
  intros w. unfold CommerceSource. source_step. source_step; [|source_fails]. simpl.
  destruct (payment_totals (w_now w) (w_db w)) as [[n revenue]|] eqn:Ep; [|source_step; source_end; by rewrite Ep].
  source_step; [|source_fails]. simpl.
  assert (latest_currency (w_now w) (w_db w) = Err ErrNoRows \/ exists c, latest_currency (w_now w) (w_db w) = Ok c) as Hc
    by (unfold latest_currency; destruct (order_asc _ _); eauto).
  destruct Hc as [Ec|[c Ec]]; rewrite Ec; source_step; source_end; by rewrite Ep, Ec.
Qed.

Lemma toggle_source_ok url : source_ok "toggles" (ToggleSource url).
Proof.
  intros w. unfold ToggleSource. apply wp_bind, wp_http_do. intros o h. apply wp_ret. simpl. split_and!; [done|done| |done].
  left. unfold figure_of. simpl. by exists o.
Qed.

Lemma kpi_sources_ok url : Forall (fun s => source_ok s.1 s.2) (kpi_sources url).
Proof.
  repeat apply Forall_cons_2; [apply fleet_source_ok|apply infra_source_ok|apply citizen_source_ok|apply commerce_source_ok|
    apply toggle_source_ok|apply Forall_nil_2].
Qed.

(** A result is the source's figure, or the error of a call that failed. *)
Definition answered (now : Z) (d : KpiDB) (faults : Prop) (r : string * result json) : Prop :=
  figure_of now d r.1 r.2 \/ (faults /\ exists e, r.2 = Err e).

Lemma collect_all_ok order w : Forall (fun s => source_ok s.1 s.2) order ->
  wp (collect_all order) (fun rs w' => w_db w' = w_db w /\ w_now w' = w_now w /\ rs.*1 = order.*1 /\
    Forall (answered (w_now w) (w_db w) (w_sched w <> [])) rs) w.
Proof.
  intros Hok. revert w. induction Hok as [|[n m] order Hm Hok IH]; intros w; simpl; [apply wp_ret; by split_and!|].
  apply wp_bind. eapply wp_mono; [|apply (Hm w)]. intros r w1 (Ed & En & Hr & Hs). apply wp_bind.
  eapply wp_mono; [|apply (IH w1)]. intros rs w2 (Ed2 & En2 & Hn & Hrs). apply wp_ret. rewrite Ed2, En2, Ed, En.
  split_and!; [done|done|by rewrite !fmap_cons, Hn|]. apply Forall_cons_2; [exact Hr|].
  eapply Forall_impl; [|exact Hrs]. rewrite Ed, En. intros x [?|[Hne ?]]; [by left|right]. split; [naive_solver|done].
Qed.

(** The KPIs are exact or named, in whatever order the sources end and
    whatever calls fail: each of the five sections holds exactly what its
    queries give on the tables (for the toggles, what some answer of
    toggle-service amounts to), or it is null and named in degraded; without
    faults that happens only to a figure that cannot be represented.
    Collecting them changes nothing. *)
Theorem kpis_exact_or_degraded url order w (Horder : order ≡ₚ kpi_sources url) :
  let '(r, w') := Collect order w in
  w_db w' = w_db w /\ rs_generated r = w_now w /\
  forall n, n ∈ section_names ->
    (n ∈ rs_degraded r /\ section_of n r = None /\ (w_sched w = [] -> exists e, figure_of (w_now w) (w_db w) n (Err e))) \/
    ((n ∉ rs_degraded r) /\ exists v, section_of n r = Some v /\ figure_of (w_now w) (w_db w) n (Ok v)).
Proof.
  assert (Forall (fun s => source_ok s.1 s.2) order) as Hok by (rewrite Horder; apply kpi_sources_ok).
  assert (order.*1 ≡ₚ section_names) as Hnames by (rewrite Horder; reflexivity).
  pose proof (collect_all_ok order w Hok) as Hc. unfold wp in Hc. unfold Collect, gbind.
  destruct (collect_all order w) as [rs w']. simpl in *. destruct Hc as (Ed & En & Hn & Hrs).
  split; [done|]. split; [by rewrite assemble_generated|]. intros n Hin. rewrite <- Hn in Hnames.
  assert (NoDup rs.*1) as Hnd by (rewrite Hnames; apply (bool_decide_unpack _); vm_compute; exact I).
  assert (Forall (fun r => r.1 ∈ section_names) rs) as Hsec.
  { apply list.Forall_forall. intros x Hx. rewrite <- Hnames. apply list_elem_of_fmap. exists x. done. }
  rewrite assemble_section by done.
  pose proof Hin as Hx. rewrite <- Hnames in Hx. apply list_elem_of_fmap in Hx as ([m r] & Em & Hx). simpl in Em. subst m.
  assert (forall r', (n, r') ∈ rs -> r' = r) as Huniq.
  { intros r' Hr'. clear -Hnd Hx Hr'. induction rs as [|[m s] rs IH]; [by apply elem_of_nil in Hx|].
    simpl in Hnd. apply list.NoDup_cons in Hnd as [Hni Hnd].
    assert (forall s', (n, s') ∈ rs -> n <> m) as Hne by (intros s' Hin' ->; apply Hni, list_elem_of_fmap; by exists (m, s')).
    apply elem_of_cons in Hx as [Hx|Hx], Hr' as [Hr'|Hr']; simplify_eq; auto; exfalso; naive_solver. }
  assert (List.find (fun r0 => bool_decide (r0.1 = n)) rs = Some (n, r)) as ->.
  { destruct (List.find _ rs) as [[m s]|] eqn:Ef.
    - apply List.find_some in Ef as [Hi Hm%bool_decide_eq_true]. simpl in Hm. subst m. f_equal. f_equal. apply Huniq. by apply list_elem_of_In.
    - pose proof (List.find_none _ _ Ef (n, r) (proj1 (list_elem_of_In _ _) Hx)) as Hf. by apply bool_decide_eq_false in Hf. }
  assert (n ∈ rs_degraded (assemble (w_now w') rs) <-> exists e, r = Err e) as Hdeg.
  { rewrite (assemble_degraded _ rs Hsec). unfold failed. rewrite list_elem_of_omap. split.
    - intros ([m s] & Hi & Hs). simpl in Hs. destruct s; simplify_eq. apply Huniq in Hi. eauto.
    - intros [e ->]. by exists (n, Err e). }
  rewrite list.Forall_forall in Hrs. specialize (Hrs _ Hx). unfold answered in Hrs. simpl in Hrs. destruct r as [v|e].
  - right. split; [rewrite Hdeg; naive_solver|]. exists v. split; [done|]. destruct Hrs as [?|[_ [e He]]]; [done|discriminate].
  - left. split; [rewrite Hdeg; by eexists|]. split; [done|]. intros Hs. destruct Hrs as [?|[Hne _]]; [by eexists|done].
Qed.
End Aggregate.

(** ** commerce-api: the city's rollup *)

Section Gov.
Context `{PgNumeric} {S : Type}.

Definition fleetUptimeNote : string :=
  "share of the fleet with telemetry in the last 15 minutes (time-based availability); fleet_active_ratio_pct is the static status mix, reported separately".

(** The fields so far, and the sources that failed. *)
Definition gov_draft : Type := list (string * json) * list string.

Definition gov_null : list (string * json) :=
  map (fun k => (k, JNull)) ["revenue_30d_minor"; "settled_payments_30d"; "ridership_estimate_30d"; "kg_co2_avoided_total";
    "carbon_credits_total"; "vehicles_total"; "vehicles_active"; "fleet_active_ratio_pct"; "fleet_uptime_pct"]
  ++ [("fleet_uptime_note", JStr fleetUptimeNote); ("stations_available_kg", JNull); ("open_incidents", JNull)].

Definition sets (fs o : list (string * json)) : list (string * json) := foldl (fun o kv => jset kv.1 kv.2 o) o fs.

(** A rollup that was read sets its fields; one that failed is named. *)
Definition rollup (source : string) (r : result (list (string * json))) (b : gov_draft) : gov_draft :=
  match r with Ok fs => (sets fs b.1, b.2) | Err _ => (b.1, b.2 ++ [source]) end.

Definition percent (n total : Z) : json :=
  if 0 <? total then JFloat (fmul (Compliance.fdiv (float_of_Z n) (float_of_Z total)) (float_of_Z 100)) else JNull.

Definition settled_recent (now : Z) (d : KpiDB) : list FarePayment :=
  filter (fun p => fa_status p = "settled" /\ now - days30 < fa_created p) (kd_payments d).

Definition revenue_figure (now : Z) (d : KpiDB) : result (list (string * json)) :=
  result_map (fun revenue =>
    let count := JInt (Z.of_nat (length (settled_recent now d))) in
    [("revenue_30d_minor", JInt revenue); ("settled_payments_30d", count); ("ridership_estimate_30d", count)])
    (int8_sum (map fa_amount (settled_recent now d))).

Definition carbon_figure (d : KpiDB) : result (list (string * json)) :=
  match float_of_numeric (sumQ (map cb_kg (kd_carbon d))), float_of_numeric (sumQ (map cb_credits (kd_carbon d))) with
  | Err e, _ | _, Err e => Err e
  | Ok kg, Ok credits => Ok [("kg_co2_avoided_total", JFloat kg); ("carbon_credits_total", JFloat credits)]
  end.

Definition fleet_figure (d : KpiDB) : result (list (string * json)) :=
  result_map (fun ta => [("vehicles_total", JInt ta.1); ("vehicles_active", JInt ta.2); ("fleet_active_ratio_pct", percent ta.2 ta.1)])
    (vehicle_counts d).

(** [count(DISTINCT bus_id)] of the last 15 minutes. *)
Definition reporting_buses (now : Z) (d : KpiDB) : Z :=
  Z.of_nat (length (remove_dups (map fst (filter (fun t => now - minutes 15 < t.2) (kd_telemetry d))))).

Definition uptime_figure (now : Z) (d : KpiDB) : result (list (string * json)) :=
  Ok [("fleet_uptime_pct", percent (reporting_buses now d) (Z.of_nat (size (kd_vehicles d))))].

Definition stations_figure (d : KpiDB) : result (list (string * json)) :=
  result_map (fun kg => [("stations_available_kg", JFloat kg)]) (float_of_numeric (sumQ (omap id (rows (kd_stations d))))).

Definition incidents_figure (d : KpiDB) : result (list (string * json)) :=
  Ok [("open_incidents", JInt (count_status ["open"; "acknowledged"; "in_progress"] (kd_incidents d)))].

Abbreviation GM := (M KpiDB S).

Definition run_rollup (source : string) (f : KpiDB -> result (list (string * json))) (b : gov_draft) : GM gov_draft :=
  let! r := db_query f in gret (rollup source r b).

Definition fleet_rollup (now : Z) (b : gov_draft) : GM gov_draft :=
  let! r := db_query vehicle_counts in
  match r with
  | Err e => gret (rollup "fleet" (Err e) b)
  | Ok (total, active) =>
      let b := (sets [("vehicles_total", JInt total); ("vehicles_active", JInt active); ("fleet_active_ratio_pct", percent active total)] b.1, b.2) in
      let! n := db_query (fun d => Ok (reporting_buses now d)) in
      gret (rollup "fleet-telemetry" (result_map (fun n => [("fleet_uptime_pct", percent n total)]) n) b)
  end.

Definition gov_json (b : gov_draft) : json :=
  JObj (b.1 ++ [("partial", JBool (negb (bool_decide (b.2 = []))))]
        ++ (if bool_decide (b.2 = []) then [] else [("degraded", JList (map JStr b.2))])).

Definition rollups (now : Z) : GM gov_draft :=
  let! b := run_rollup "fare-payments" (revenue_figure now) (gov_null, []) in
  let! b := run_rollup "carbon" carbon_figure b in
  let! b := fleet_rollup now b in
  let! b := run_rollup "stations" stations_figure b in
  run_rollup "incidents" incidents_figure b.

Definition GetGovKPIs : GM response :=
  let! now := gets w_now in
  let! b := rollups now in
  reply 200 (gov_json b).

(** ** What the rollup says *)

Implicit Types w : World KpiDB S.

(** The rollups: source, fields and figure. *)
Definition gov_table (now : Z) (d : KpiDB) : list (string * list string * result (list (string * json))) :=
  [("fare-payments", ["revenue_30d_minor"; "settled_payments_30d"; "ridership_estimate_30d"], revenue_figure now d);
   ("carbon", ["kg_co2_avoided_total"; "carbon_credits_total"], carbon_figure d);
   ("fleet", ["vehicles_total"; "vehicles_active"; "fleet_active_ratio_pct"], fleet_figure d);
   ("fleet-telemetry", ["fleet_uptime_pct"], uptime_figure now d);
   ("stations", ["stations_available_kg"], stations_figure d);
   ("incidents", ["open_incidents"], incidents_figure d)].

(** The draft after some rollups, each read, named because a call failed or
    there is no figure, or left out because the fleet's failed. *)
Inductive filled (faults : Prop) : list (string * list string * result (list (string * json))) -> gov_draft -> gov_draft -> Prop :=
| FilledNil b : filled faults [] b b
| FilledRead src keys fs l b b' : fs.*1 = keys -> filled faults l (sets fs b.1, b.2) b' -> filled faults ((src, keys, Ok fs) :: l) b b'
| FilledNamed src keys fig l b b' : faults \/ (exists e, fig = Err e) -> filled faults l (b.1, b.2 ++ [src]) b' -> filled faults ((src, keys, fig) :: l) b b'
| FilledSkip keys fig l b b' : faults -> "fleet" ∈ b.2 -> filled faults l b b' -> filled faults (("fleet-telemetry", keys, fig) :: l) b b'.

Lemma sets_other k fs o : k ∉ fs.*1 -> jget k (sets fs o) = jget k o.
Proof.
  revert o. unfold sets. induction fs as [|[k' v] fs IH]; intros o Hk; simpl in *; [done|].
  rewrite IH, jget_jset_ne; set_solver.
Qed.

Lemma sets_get k v fs o : NoDup fs.*1 -> (k, v) ∈ fs -> jget k (sets fs o) = Some v.
Proof.
  revert o. unfold sets. induction fs as [|[k' v'] fs IH]; intros o; simpl; [intros _ []%elem_of_nil|].
  intros [Hk Hn]%list.NoDup_cons [E|Hin]%elem_of_cons; [|by apply IH]. simplify_eq.
  pose proof (sets_other k' fs (jset k' v' o) Hk) as Ho. unfold sets in Ho. rewrite Ho. apply jget_jset_eq.
Qed.

Definition keys_of (l : list (string * list string * result (list (string * json)))) : list string := mjoin (map (fun e => e.1.2) l).

Lemma filled_frame F l b b' : filled F l b b' ->
  (forall k, k ∉ keys_of l -> jget k b'.1 = jget k b.1) /\ (forall s, s ∉ map (fun e => e.1.1) l -> (s ∈ b'.2 <-> s ∈ b.2)) /\ b.2 ⊆ b'.2.
Proof.
  unfold keys_of. induction 1 as [b|src keys fs l b b' Hk Hf (IH1 & IH2 & IH3)|src keys fig l b b' HF Hf (IH1 & IH2 & IH3)|keys fig l b b' HF Hfl Hf (IH1 & IH2 & IH3)]; simpl in *.
  - done.
  - split_and!; [|set_solver|done]. intros k Hn. rewrite IH1 by set_solver. apply sets_other. set_solver.
  - split_and!; [set_solver| |set_solver]. intros s Hs. rewrite IH2 by set_solver. set_solver.
  - split_and!; [set_solver|set_solver|done].
Qed.

(** What holds of a rollup in the end. *)
Definition exact_or_null (faults : Prop) (b : gov_draft) (e : string * list string * result (list (string * json))) : Prop :=
  ((e.1.1 ∈ b.2 \/ (e.1.1 = "fleet-telemetry" /\ "fleet" ∈ b.2)) /\ (faults \/ exists x, e.2 = Err x) /\ forall k, k ∈ e.1.2 -> jget k b.1 = Some JNull) \/
  ((e.1.1 ∉ b.2) /\ exists fs, e.2 = Ok fs /\ forall k v, (k, v) ∈ fs -> jget k b.1 = Some v).

Lemma filled_exact F l b b' : filled F l b b' -> NoDup (map (fun e => e.1.1) l) -> NoDup (keys_of l) ->
  (forall e, e ∈ l -> (e.1.1 ∉ b.2) /\ forall k, k ∈ e.1.2 -> jget k b.1 = Some JNull) ->
  forall e, e ∈ l -> exact_or_null F b' e.
Proof.
  unfold keys_of. induction 1 as [b|src keys fs l b b' Hk Hf IH|src keys fig l b b' HF Hf IH|keys fig l b b' HF Hfl Hf IH];
    intros Hn Hks Hb e He; [by apply elem_of_nil in He|..]; simpl in *;
    apply list.NoDup_cons in Hn as [Hn1 Hn2]; apply list.NoDup_app in Hks as (Hk1 & Hk2 & Hk3);
    pose proof (filled_frame _ _ _ _ Hf) as (F1 & F2 & F3); unfold keys_of in F1; simpl in *;
    (apply elem_of_cons in He as [-> |He]; [|apply IH; [done..| |done]; intros e' He'; split]).
  - right. simpl. split; [rewrite F2 by done; apply (Hb _ (list_elem_of_here _ _))|]. exists fs. split; [done|].
    intros k v Hkv. assert (k ∈ keys) as Hin by (rewrite <- Hk; apply list_elem_of_fmap; by exists (k, v)).
    rewrite F1 by by apply Hk2. apply sets_get; [by rewrite Hk|done].
  - by apply Hb; right.
  - intros k Hin. rewrite sets_other; [by eapply (proj2 (Hb e' ltac:(by right)))|]. rewrite Hk. intros Hx. apply (Hk2 k Hx).
    apply list_elem_of_join. exists e'.1.2. split; [done|]. apply list_elem_of_fmap. by exists e'.
  - left. simpl. split; [left; apply F3; set_solver|]. split; [done|]. intros k Hin. rewrite F1 by by apply Hk2.
    apply (Hb _ (list_elem_of_here _ _)). done.
  - rewrite elem_of_app, list_elem_of_singleton. intros [Hx|Hx]; [by apply Hb in Hx; [|right]|].
    apply Hn1. rewrite <- Hx. apply list_elem_of_fmap. by exists e'.
  - apply Hb. by right.
  - left. simpl. split; [right; split; [done|by apply F3]|]. split; [by left|]. intros k Hin. rewrite F1 by by apply Hk2.
    apply (Hb _ (list_elem_of_here _ _)). done.
  - by apply Hb; right.
  - apply Hb. by right.
Qed.

Lemma filled_app F l1 l2 b1 b2 b3 : filled F l1 b1 b2 -> filled F l2 b2 b3 -> filled F (l1 ++ l2) b1 b3.
Proof.
  intros H1 H2. induction H1; simpl; [done|by apply FilledRead, IHfilled|by apply FilledNamed, IHfilled|by apply FilledSkip, IHfilled].
Qed.

(** A step of the handler that fills some rollups. *)
Definition fills (m : gov_draft -> GM gov_draft) (now : Z) (d : KpiDB) (l : list (string * list string * result (list (string * json)))) : Prop :=
  forall (F : Prop) b w, w_db w = d -> w_now w = now -> (w_sched w <> [] -> F) ->
    wp (m b) (fun b' w' => w_db w' = d /\ w_now w' = now /\ (w_sched w' <> [] -> F) /\ filled F l b b') w.

Lemma run_rollup_fills now src keys f d : (forall fs, f d = Ok fs -> fs.*1 = keys) -> fills (run_rollup src f) now d [(src, keys, f d)].
Proof.
  intros Hk F b w Ed En HF. unfold run_rollup. apply wp_bind, wp_query_ok; intros s Hs; apply wp_ret.
  - split_and!; [done|done|simpl; naive_solver|]. rewrite Ed. destruct (f d) as [fs|e] eqn:Ef; simpl.
    + apply FilledRead; [by apply Hk|]. destruct b. apply FilledNil.
    + apply FilledNamed; [right; by eexists|]. apply FilledNil.
  - split_and!; [done|done|simpl; naive_solver|]. apply FilledNamed; [left; auto|]. apply FilledNil.
Qed.

Lemma fleet_rollup_fills now d : fills (fleet_rollup now) now d
  [("fleet", ["vehicles_total"; "vehicles_active"; "fleet_active_ratio_pct"], fleet_figure d); ("fleet-telemetry", ["fleet_uptime_pct"], uptime_figure now d)].
Proof.
  intros F b w Ed En HF. unfold fleet_rollup. apply wp_bind, wp_query_ok; intros s Hs.
  - unfold vehicle_counts at 1. apply wp_bind, wp_query_ok; intros s2 Hs2; apply wp_ret; simpl in *.
    + split_and!; [done|done|naive_solver|]. rewrite Ed. apply FilledRead; [done|]. simpl. apply FilledRead; [done|]. simpl. apply FilledNil.
    + split_and!; [done|done|naive_solver|]. rewrite Ed. apply FilledRead; [done|]. simpl. apply FilledNamed; [left; naive_solver|]. apply FilledNil.
  - apply wp_ret. split_and!; [done|done|simpl; naive_solver|]. apply FilledNamed; [left; auto|]. apply FilledSkip; [auto|simpl; set_solver|]. apply FilledNil.
Qed.

Lemma fills_bind m k now d l1 l2 : fills m now d l1 -> fills k now d l2 -> fills (fun b => gbind (m b) k) now d (l1 ++ l2).
Proof.
  intros Hm Hk F b w Ed En HF. apply wp_bind. eapply wp_mono; [|by apply (Hm F)]. intros b1 w1 (Ed1 & En1 & HF1 & H1).
  eapply wp_mono; [|by apply (Hk F)]. intros b2 w2 (Ed2 & En2 & HF2 & H2). split_and!; [done|done|done|]. by eapply filled_app.
Qed.

Lemma rollups_fill now d F w : w_db w = d -> w_now w = now -> (w_sched w <> [] -> F) ->
  wp (rollups now) (fun b w' => w_db w' = d /\ filled F (gov_table now d) (gov_null, []) b) w.
Proof.
  intros Ed En HF. unfold rollups.
  set (chain := fun b => gbind (run_rollup "fare-payments" (revenue_figure now) b) (fun b => gbind (run_rollup "carbon" carbon_figure b)
    (fun b => gbind (fleet_rollup now b) (fun b => gbind (run_rollup "stations" stations_figure b) (run_rollup "incidents" incidents_figure))))).
  assert (fills chain now d (gov_table now d)) as Hc.
  { unfold chain, gov_table.
    apply (fills_bind _ _ _ _ [_] [_; _; _; _; _]); [apply run_rollup_fills|].
    { intros fs. unfold revenue_figure. destruct (int8_sum _); intros; by simplify_eq/=. }
    apply (fills_bind _ _ _ _ [_] [_; _; _; _]); [apply run_rollup_fills|].
    { intros fs. unfold carbon_figure. intros. repeat case_match; by simplify_eq/=. }
    apply (fills_bind _ _ _ _ [_; _] [_; _]); [apply fleet_rollup_fills|].
    apply (fills_bind _ _ _ _ [_] [_]); apply run_rollup_fills.
    - intros fs. unfold stations_figure. destruct (float_of_numeric _); intros; by simplify_eq/=.
    - intros fs. unfold incidents_figure. intros; by simplify_eq/=. }
  change (wp (chain (gov_null, [])) (fun b w' => w_db w' = d /\ filled F (gov_table now d) (gov_null, []) b) w).
  eapply wp_mono; [|by apply (Hc F)]. intros b w' (? & _ & _ & ?). done.
Qed.

(** The city's KPIs are exact or null, whatever calls fail: for each of the
    six rollups either all its fields hold exactly what the tables give, or
    they are null and the rollup (or, for the uptime, the fleet's) is named in
    degraded; without faults that happens only to a rollup whose numbers do
    not fit.  The answer is 200 and nothing changes. *)
Theorem gov_kpis_exact_or_null w :
  let '(r, w') := GetGovKPIs w in
  w_db w' = w_db w /\ exists b, r = mkResponse 200 (gov_json b) /\
    forall e, e ∈ gov_table (w_now w) (w_db w) -> exact_or_null (w_sched w <> []) b e.
Proof.
  enough (wp GetGovKPIs (fun r w' => w_db w' = w_db w /\ exists b, r = mkResponse 200 (gov_json b) /\
    forall e, e ∈ gov_table (w_now w) (w_db w) -> exact_or_null (w_sched w <> []) b e) w) as Hw.
  { unfold wp in Hw. by destruct (GetGovKPIs w). }
  unfold GetGovKPIs. apply wp_bind, wp_gets, wp_bind. eapply wp_mono; [|by apply (rollups_fill (w_now w) (w_db w) (w_sched w <> []))].
  intros b w' [Ed Hf]. apply wp_ret. split; [done|]. exists b. split; [done|].
  apply (filled_exact _ _ _ _ Hf).
  - apply (bool_decide_unpack _). vm_compute. exact I.
  - apply (bool_decide_unpack _). vm_compute. exact I.
  - intros e He. split; [simpl; by intros ?%elem_of_nil|].
    assert (forall k, k ∈ keys_of (gov_table (w_now w) (w_db w)) -> jget k gov_null = Some JNull) as Hnull.
    { intros k Hk. cbn in Hk. rewrite !elem_of_cons, elem_of_nil in Hk. repeat destruct Hk as [-> |Hk]; done. }
    intros k Hk. apply Hnull. unfold keys_of. apply list_elem_of_join. exists e.1.2. split; [done|]. apply list_elem_of_fmap. by exists e.
Qed.
End Gov.

(** ** The toggle counts are exact *)

Definition domain_total (dom : string) (l : list (string * bool)) : Z :=
  Z.of_nat (length (filter (fun t => DomainOf t.1 = dom) l)).
Definition domain_enabled (dom : string) (l : list (string * bool)) : Z :=
  Z.of_nat (length (filter (fun t => DomainOf t.1 = dom /\ t.2 = true) l)).

Lemma no_toggles_lookup dom : tk_domains no_toggles !! dom = (if decide (dom ∈ Domains) then Some (0, 0) else None).
Proof.
  unfold no_toggles, tk_domains. destruct (decide _) as [Hd|Hd].
  - apply elem_of_list_to_map_1; [apply (bool_decide_unpack _); vm_compute; exact I|].
    rewrite !list_elem_of_fmap. exists dom. done.
  - apply not_elem_of_list_to_map_1. rewrite <- list_fmap_compose, list_elem_of_fmap. naive_solver.
Qed.

Lemma no_module_counts_nothing dom l : dom ∉ map (fun t => DomainOf t.1) l ->
  filter (fun t : string * bool => DomainOf t.1 = dom) l = [] /\ filter (fun t : string * bool => DomainOf t.1 = dom /\ t.2 = true) l = [].
Proof.
  induction l as [|t l IH]; intros Hn; [done|]. simpl in Hn. rewrite !list.filter_cons.
  rewrite (decide_False (P := DomainOf t.1 = dom)), (decide_False (P := DomainOf t.1 = dom /\ _)) by set_solver. apply IH. set_solver.
Qed.

(** Whatever order the map yields its modules in, the totals count all of
    them, and a domain is listed with its share: the four known ones always,
    "unknown" when a module is not registered. *)
Theorem toggle_counts_exact l dom :
  let k := count_toggles l in
  tk_total k = Z.of_nat (length l) /\ tk_enabled k = Z.of_nat (length (filter (fun t => t.2 = true) l)) /\
  tk_domains k !! dom =
    if decide (dom ∈ Domains \/ dom ∈ map (fun t => DomainOf t.1) l) then Some (domain_enabled dom l, domain_total dom l) else None.
Proof.
  cbv zeta. unfold count_toggles, domain_enabled, domain_total.
  induction l as [|[m b] l (IHt & IHe & IHd)] using rev_ind; [simpl; split_and!; [done|done|]|].
  - rewrite no_toggles_lookup. repeat case_decide; set_solver.
  - rewrite foldl_snoc, !list.filter_app, !length_app, map_app. set (k := foldl count_toggle no_toggles l) in *.
    unfold count_toggle. simpl fst. simpl snd.
    destruct (default (0, 0) (tk_domains k !! DomainOf m)) as [en tot] eqn:Ek. simpl tk_total. simpl tk_enabled. simpl tk_domains.
    split_and!; [simpl; lia|rewrite IHe; destruct b; simpl; lia|].
    destruct (decide (DomainOf m = dom)) as [<-|Hne].
    + rewrite lookup_insert_eq, decide_True by set_solver. revert Ek. rewrite IHd. case_decide as Hin; simpl; intros [= <- <-].
      * rewrite !list.filter_cons, !list.filter_nil. simpl. destruct b; repeat case_decide; simpl; try (exfalso; naive_solver); do 2 f_equal; lia.
      * rewrite !list.filter_cons, !list.filter_nil. simpl.
        destruct (no_module_counts_nothing (DomainOf m) l) as [-> ->]; [set_solver|].
        destruct b; repeat case_decide; simpl; try (exfalso; naive_solver); reflexivity.
    + rewrite lookup_insert_ne, IHd by done. rewrite !list.filter_cons, !list.filter_nil. simpl.
      rewrite (decide_False (P := DomainOf m = dom)), (decide_False (P := DomainOf m = dom /\ b = true)) by naive_solver.
      simpl. rewrite !Nat.add_0_r. repeat case_decide; set_solver.
Qed.

(** Telemetry references the vehicles, so no more buses report than there
    are, and the uptime is at most the whole fleet. *)
Lemma uptime_within_fleet now (d : KpiDB) : (forall t, t ∈ kd_telemetry d -> is_Some (kd_vehicles d !! t.1)) ->
  0 <= reporting_buses now d <= Z.of_nat (size (kd_vehicles d)).
Proof.
  intros Hfk. unfold reporting_buses. split; [lia|]. apply Nat2Z.inj_le.
  set (l := remove_dups _). rewrite <- (size_list_to_set (C := gset string) l) by apply NoDup_remove_dups.
  rewrite <- (size_dom (D := gset string)). apply subseteq_size. intros b Hb. apply elem_of_list_to_set in Hb. unfold l in Hb. rewrite elem_of_remove_dups in Hb.
  apply list_elem_of_fmap in Hb as (x & -> & Hx). apply list_elem_of_filter in Hx as [_ Hx]. apply elem_of_dom. by apply Hfk.
Qed.

(** ** Runs *)

#[local] Existing Instance test_runtime.
#[local] Existing Instance test_station_env.
#[local] Existing Instance test_numeric.

(** A capped fare of 300 of which 100 was charged, and a later one in rand. *)
Definition run_kpi_db : KpiDB := mkKpiDB
  {["b1" := "active"; "b2" := "maintenance"]} [("b1", 5000000000); ("b1", 5000001000)] {["i1" := "open"; "i2" := "in_progress"]}
  [5000000000] [mkCarbonRow (Q2Qc 2) (Q2Qc 1)]
  [mkFare 300 (Some 100) "EUR" "settled" 5000000000; mkFare 50 (Some 50) "ZAR" "settled" 5000000500]
  {["s1" := Some (Q2Qc 3)]}.

Definition run_kpi_world (s : list outcome) (h : list http_outcome) : World KpiDB unit :=
  mkWorld run_kpi_db () [] 5000001000 0 s h [].

Definition toggles_reply : http_outcome :=
  HttpReply 0 200 "" (Some (JObj [("toggles", JObj [("telematics", JBool true); ("odd", JBool true); ("fare-payments", JBool false)])])).

Lemma kpis_exact_or_degraded_witness :
  "commerce" ∈ rs_degraded (Collect (reverse (kpi_sources "http://toggles")) (run_kpi_world [Lost] [toggles_reply])).1.
Proof.
  pose proof (kpis_exact_or_degraded "http://toggles" _ (run_kpi_world [Lost] [toggles_reply]) (reverse_Permutation _)) as Hw.
  assert (section_of "commerce" (Collect (reverse (kpi_sources "http://toggles")) (run_kpi_world [Lost] [toggles_reply])).1 = None) as Hn
    by (vm_compute; reflexivity).
  destruct (Collect _ _) as [r w']. simpl in *. destruct Hw as (_ & _ & Hw).
  destruct (Hw "commerce") as [(Hd & _)|(_ & v & Hv & _)]; [apply (bool_decide_unpack _); vm_compute; exact I|exact Hd|congruence].
Defined.

(** Revenue is the fare asked, not what was charged: of the capped fare 100
    was charged, both dashboards count 300.  The admin page adds the two
    currencies and calls the sum by the later one. *)
Theorem revenue_counts_what_was_not_charged :
  (CommerceSource (run_kpi_world [] [])).1 = Ok (JObj [("payments_30d", JInt 2); ("revenue_30d_minor", JInt 350); ("currency", JStr "ZAR")]) /\
  foldr Z.add 0 (omap fa_charged (kd_payments run_kpi_db)) = 150 /\
  revenue_figure 5000001000 run_kpi_db =
    Ok [("revenue_30d_minor", JInt 350); ("settled_payments_30d", JInt 2); ("ridership_estimate_30d", JInt 2)].
Proof. vm_compute. auto. Qed.

(** An incident being worked is an open one on the city's page and none on
    the administrators'. *)
Theorem open_incidents_disagree :
  (InfraSource (run_kpi_world [] [])).1 = Ok (JObj [("open_incidents", JInt 1)]) /\
  incidents_figure run_kpi_db = Ok [("open_incidents", JInt 2)].
Proof. vm_compute. auto. Qed.
