(* ===== verification/Fleet.v ===== *)
(** * Fleet and charging reads

    Models services/go/fleet-api/internal/handlers (vehicles.go,
    operations.go), handlers/chargers.go of infra-api and handlers/carbon.go
    of citizen-api: the vehicle list, the latest telemetry and energy level
    of each bus, the maintenance predictions, the charge points with their
    sessions, and the carbon credits.  They only read; what has to be right is
    which rows they show, in which order, and the range estimate.

    The tables are those of migrations 0001, 0004, 0007 and 0008 with the
    columns the handlers read; a numeric column is exact and is scanned into
    a [float64] by the driver ([PgNumeric]). *)

From Stdlib Require Import Sorted.
From S2P Require Import Prelude Codec World Float64 InfraDb.
From S2P Require Import Stations Drt.
From S2P Require Compliance.

Open Scope Z_scope.
Open Scope go_scope.

(** ** The tables *)

Record Vehicle : Type := mkVehicle {
  vh_id : string; vh_fleet_no : string; vh_vin : option string; vh_model : option string; vh_h2_capacity : option Qc;
  vh_status : string; vh_energy : string; vh_geom : option (float64 * float64)
}.

Record TelemetryRow : Type := mkSample {
  tr_bus : string; tr_ts : Z; tr_speed : option Qc; tr_h2 : option Qc; tr_fc : option Qc; tr_soc : option Qc;
  tr_odometer : option Qc; tr_energy_level : option Qc; tr_powertrain : option Qc; tr_energy : option string;
  tr_geom : option (float64 * float64)
}.

Record PredictionRow : Type := mkPrediction {
  pn_id : string; pn_bus : string; pn_component : string; pn_risk : Qc; pn_failure : option Z;
  pn_model : option string; pn_created : Z
}.

Record ChargePointRow : Type := mkChargePoint {
  cp_id : string; cp_station : string; cp_ocpp : string; cp_vendor : option string; cp_model : option string;
  cp_status : string; cp_heartbeat : option Z; cp_created : Z
}.

Record SessionRow : Type := mkSession {
  cs_id : string; cs_point : string; cs_bus : option string; cs_connector : Z; cs_tag : option string;
  cs_start : Qc; cs_stop : option Qc; cs_kwh : option Qc; cs_started : Z; cs_stopped : option Z; cs_status : string
}.

Record CreditRow : Type := mkCredit {
  cc_id : string; cc_period : string; cc_kg : Qc; cc_credits : Qc; cc_issued : Z
}.

Record FleetDB : Type := mkFleetDB {
  fd_vehicles : gmap string Vehicle;
  fd_telemetry : list TelemetryRow;
  fd_predictions : gmap string PredictionRow;
  fd_consumption : gmap string float64;        (* bus_id, kg_per_100km *)
  fd_points : gmap string ChargePointRow;
  fd_sessions : gmap string SessionRow;
  fd_credits : gmap string CreditRow
}.

(** ** DISTINCT ON (bus), newest first *)

Section Latest.
Context {V : Type} (bus : V -> string) (ts : V -> Z).

Definition newest (l : list V) : option V := head (order_asc (fun t => - ts t) l).

Definition latest_per (l : list V) : list V :=
  omap (fun b => newest (filter (fun t => bus t = b) l)) (order_text (fun b => b) (remove_dups (map bus l))).

Lemma newest_spec l t : newest l = Some t -> t ∈ l /\ forall t', t' ∈ l -> ts t' <= ts t.
Proof.
  unfold newest. intros Ht. pose proof (order_asc_perm (fun t => - ts t) l) as Hp. pose proof (order_asc_sorted (fun t => - ts t) l) as Hs.
  destruct (order_asc _ l) as [|x o]; simplify_eq/=. apply StronglySorted_inv in Hs as [_ Hs]. rewrite list.Forall_forall in Hs.
  setoid_rewrite <- Hp. split; [by left|]. intros t' [-> |Hin]%elem_of_cons; [done|]. specialize (Hs _ Hin). lia.
Qed.

Lemma newest_some l : l <> [] -> is_Some (newest l).
Proof.
  intros Hl. unfold newest. pose proof (order_asc_perm (fun t => - ts t) l) as Hp. destruct (order_asc _ l); [|by eexists].
  by apply Permutation_nil in Hp.
Qed.

(** One row of each bus, the newest. *)
Lemma latest_per_spec l t : t ∈ latest_per l <->
  newest (filter (fun t' => bus t' = bus t) l) = Some t.
Proof.
  unfold latest_per. rewrite list_elem_of_omap. split.
  - intros (b & _ & Hn). destruct (newest_spec _ _ Hn) as [Hin _]. apply list_elem_of_filter in Hin as [<- _]. done.
  - intros Hn. exists (bus t). split; [|done]. rewrite order_text_perm, elem_of_remove_dups. apply list_elem_of_fmap.
    exists t. split; [done|]. apply newest_spec in Hn as [Hin _]. by apply list_elem_of_filter in Hin as [_ ?].
Qed.

(** The latest rows: rows of the table, at most one of each bus, one of
    every bus that has any, and none older than another of its bus. *)
Lemma latest_per_exact l :
  NoDup (map bus (latest_per l)) /\
  (forall t, t ∈ latest_per l -> t ∈ l /\ forall t', t' ∈ l -> bus t' = bus t -> ts t' <= ts t) /\
  (forall t, t ∈ l -> exists t', t' ∈ latest_per l /\ bus t' = bus t).
Proof.
  split_and!.
  - assert (map bus (latest_per l) = order_text (fun b => b) (remove_dups (map bus l))) as ->.
    { unfold latest_per.
      assert (forall b, b ∈ order_text (fun b => b) (remove_dups (map bus l)) -> b ∈ map bus l) as Hall
        by (intros b; by rewrite order_text_perm, elem_of_remove_dups).
      induction (order_text _ _) as [|b bs IH]; simpl; [done|].
      destruct (newest_some (filter (fun t => bus t = b) l)) as [t Ht].
      - pose proof (Hall b ltac:(by left)) as Hb. apply list_elem_of_fmap in Hb as (t & -> & Ht). intros E.
        assert (t ∈ filter (fun t0 => bus t0 = bus t) l) as Hx by by apply list_elem_of_filter. rewrite E in Hx. by apply elem_of_nil in Hx.
      - rewrite Ht. simpl. f_equal; [apply newest_spec in Ht as [Hin _]; by apply list_elem_of_filter in Hin as [? _]|].
        apply IH. intros b' Hb'. apply Hall. by right. }
    rewrite order_text_perm. apply NoDup_remove_dups.
  - intros t Hn%latest_per_spec. apply newest_spec in Hn as [Hin Hmax]. apply list_elem_of_filter in Hin as [_ Hin].
    split; [done|]. intros t' Ht' Hb. apply Hmax. by apply list_elem_of_filter.
  - intros t Ht. destruct (newest_some (filter (fun t' => bus t' = bus t) l)) as [t' Hn].
    { intros E. assert (t ∈ filter (fun t0 => bus t0 = bus t) l) as Hx by by apply list_elem_of_filter. rewrite E in Hx. by apply elem_of_nil in Hx. }
    assert (bus t' = bus t) as Hb by (apply newest_spec in Hn as [Hin _]; by apply list_elem_of_filter in Hin as [? _]).
    exists t'. split; [|done]. apply latest_per_spec. by rewrite Hb.
Qed.
End Latest.

(** ** Scanning rows *)

Definition result_bind {A B} (r : result A) (k : A -> result B) : result B :=
  match r with Ok a => k a | Err e => Err e end.

Notation "'ok!' x := r 'in' k" := (result_bind r (fun x => k))
  (at level 10, x name, r at level 100, k at level 200) : go_scope.

(** The loop over the rows: the first that cannot be scanned ends it. *)
Fixpoint scan_rows {R A} (scan : R -> result A) (l : list R) : result (list A) :=
  match l with
  | [] => Ok []
  | r :: l => ok! a := scan r in result_map (cons a) (scan_rows scan l)
  end.

Lemma scan_rows_ok {R A} (scan : R -> result A) l js : scan_rows scan l = Ok js <-> Forall2 (fun r j => scan r = Ok j) l js.
Proof.
  revert js. induction l as [|r l IH]; intros js; simpl.
  - split; [intros [= <-]; constructor|by intros ->%Forall2_nil_inv_l].
  - destruct (scan r) as [a|e] eqn:Er; simpl.
    + destruct (scan_rows scan l) as [js'|e] eqn:El; simpl.
      * split; [intros [= <-]; constructor; [done|by apply IH]|]. intros (j & js2 & Hj & Hl & ->)%Forall2_cons_inv_l. apply IH in Hl. congruence.
      * split; [done|]. intros (j & js2 & Hj & Hl & ->)%Forall2_cons_inv_l. apply IH in Hl. congruence.
    + split; [done|]. intros (j & js2 & Hj & Hl & ->)%Forall2_cons_inv_l. congruence.
Qed.

Lemma scan_rows_length {R A} (scan : R -> result A) l js : scan_rows scan l = Ok js -> length js = length l.
Proof. intros Hl%scan_rows_ok. symmetry. by eapply Forall2_length. Qed.

Section Handlers.
Context `{Runtime} `{PgServer} `{PgNumeric} {S : Type}.

Abbreviation FM := (M FleetDB S).

(** [COALESCE(column, 0)] of a numeric column, scanned into a [float64]. *)
Definition num (o : option Qc) : result float64 := float_of_numeric (default 0%Qc o).

(** [COALESCE(a, b, 0)]. *)
Definition num2 (a b : option Qc) : result float64 := num (match a with Some q => Some q | None => b end).

Definition position_json (g : option (float64 * float64)) : list (string * json) :=
  jopt_float_field "lat" (fst <$> g) ++ jopt_float_field "lon" (snd <$> g).

(** *** fleet-api: vehicles.go *)

Definition scanVehicle (v : Vehicle) : result json :=
  ok! cap := num (vh_h2_capacity v) in
  Ok (JObj ([("id", JStr (vh_id v)); ("fleet_no", JStr (vh_fleet_no v)); ("vin", JStr (default "" (vh_vin v)));
             ("model", JStr (default "" (vh_model v))); ("h2_capacity_kg", JFloat cap); ("status", JStr (vh_status v));
             ("energy_type", JStr (vh_energy v))] ++ position_json (vh_geom v))).

Definition vehicles_page (d : FleetDB) : list Vehicle := take 500 (order_text vh_fleet_no (rows (fd_vehicles d))).

Definition ListVehicles : FM response :=
  try! js := db_query (fun d => scan_rows scanVehicle (vehicles_page d)) catch e => internal "list vehicles" e in
  reply 200 (JObj [("vehicles", JList js)]).

Definition latest_samples (d : FleetDB) : list TelemetryRow := latest_per tr_bus tr_ts (fd_telemetry d).

Definition scanSample (t : TelemetryRow) : result json :=
  ok! speed := num (tr_speed t) in
  ok! h2 := num (tr_h2 t) in
  ok! fc := num (tr_fc t) in
  ok! soc := num (tr_soc t) in
  ok! odo := num (tr_odometer t) in
  ok! level := num2 (tr_energy_level t) (tr_h2 t) in
  ok! kw := num2 (tr_powertrain t) (tr_fc t) in
  Ok (JObj ([("bus_id", JStr (tr_bus t)); ("ts", JTime (tr_ts t)); ("speed_kph", JFloat speed); ("h2_level_pct", JFloat h2);
             ("fuel_cell_kw", JFloat fc); ("battery_soc_pct", JFloat soc); ("odometer_km", JFloat odo);
             ("energy_level_pct", JFloat level); ("powertrain_kw", JFloat kw);
             ("energy_type", JStr (default "h2" (tr_energy t)))] ++ position_json (tr_geom t))).

Definition LatestTelemetry : FM response :=
  try! js := db_query (fun d => scan_rows scanSample (latest_samples d)) catch e => internal "query latest telemetry" e in
  reply 200 (JList js).

(** *** fleet-api: operations.go *)

Definition scanPrediction (p : PredictionRow) : result json :=
  ok! risk := float_of_numeric (pn_risk p) in
  Ok (JObj ([("id", JStr (pn_id p)); ("bus_id", JStr (pn_bus p)); ("component", JStr (pn_component p)); ("risk_score", JFloat risk)]
            ++ jopt_time "predicted_failure_at" (pn_failure p)
            ++ [("model_version", JStr (default "" (pn_model p))); ("created_at", JTime (pn_created p))])).

(** [min_risk], when given: [strconv.ParseFloat] and the range, which a NaN
    passes because every comparison with it is false. *)
Definition parse_min_risk (raw : string) : option (option float64) :=
  if decide (raw = "") then Some None
  else match ParseFloat raw with
       | None => None
       | Some f => if flt f fzero || flt (float_of_Z 1) f then None else Some (Some f)
       end.

(** [risk_score >= $n]: in the server's order NaN is above every number. *)
Definition at_least (f : float64) (q : Qc) : bool :=
  match f with S754_nan => false | _ => bool_decide (numeric_of_float f <= q)%Qc end.

Definition risk_matches (bus : option string) (minRisk : option float64) (p : PredictionRow) : Prop :=
  match bus with Some b => pn_bus p = b | None => True end /\
  match minRisk with Some f => at_least f (pn_risk p) = true | None => True end.

#[global] Instance risk_matches_dec bus minRisk p : Decision (risk_matches bus minRisk p).
Proof. unfold risk_matches. destruct bus, minRisk; apply _. Defined.

(** [ORDER BY risk_score DESC, created_at DESC]. *)
Definition riskier (a b : PredictionRow) : bool :=
  bool_decide (pn_risk b < pn_risk a)%Qc || (bool_decide (pn_risk a = pn_risk b) && (pn_created b <? pn_created a)).

Definition predictions_page (bus : option string) (minRisk : option float64) (d : FleetDB) : list PredictionRow :=
  take 200 (order_by riskier (filter (risk_matches bus minRisk) (rows (fd_predictions d)))).

(** The predicates of the query: the id of the bus is a uuid parameter. *)
Definition predictions_query (bus : string) (minRisk : option float64) (d : FleetDB) : result (list json) :=
  ok! bus := (if decide (bus = "") then Ok None else result_map Some (uuid_in bus)) in
  scan_rows scanPrediction (predictions_page bus minRisk d).

Definition ListPredictions (bus raw : string) : FM response :=
  match parse_min_risk raw with
  | None => reply_error 400 "min_risk must be a number between 0 and 1"
  | Some minRisk =>
      try! js := db_query (predictions_query bus minRisk) catch e => internal "list predictions" e in
      reply 200 (JObj [("predictions", JList js)])
  end.

Definition defaultH2KgPer100Km : float64 := float_of_Z 8.

(** The learned rate when it is positive. *)
Definition consumption (learned : option float64) : float64 * string :=
  match learned with
  | Some r => if flt fzero r then (r, "learned") else (defaultH2KgPer100Km, "default")
  | None => (defaultH2KgPer100Km, "default")
  end.

(** The remaining energy and the range it gives. *)
Definition remaining (pct capacity : float64) : float64 := fmul (Compliance.fdiv pct (float_of_Z 100)) capacity.
Definition range_km (energy rate : float64) : float64 := Compliance.fdiv (fmul energy (float_of_Z 100)) rate.

Definition fuel_level (d : FleetDB) (tv : TelemetryRow * Vehicle) : result json :=
  let '(t, v) := tv in
  ok! pct := num (tr_h2 t) in
  ok! energyPct := num2 (tr_energy_level t) (tr_h2 t) in
  ok! capacity := num (vh_h2_capacity v) in
  let '(rate, source) := consumption (fd_consumption d !! tr_bus t) in
  let energyRemaining := remaining energyPct capacity in
  Ok (JObj [("bus_id", JStr (tr_bus t)); ("fleet_no", JStr (vh_fleet_no v)); ("energy_type", JStr (vh_energy v));
            ("h2_level_pct", JFloat pct); ("h2_remaining_kg", JFloat (remaining pct capacity));
            ("energy_level_pct", JFloat energyPct); ("energy_remaining", JFloat energyRemaining);
            ("estimated_range_km", JFloat (range_km energyRemaining rate));
            ("consumption_kg_per_100km", JFloat rate); ("consumption_source", JStr source); ("measured_at", JTime (tr_ts t))]).

(** [JOIN fleet.vehicles v ON v.id = t.bus_id]. *)
Definition joined (d : FleetDB) : list (TelemetryRow * Vehicle) :=
  omap (fun t => v ← fd_vehicles d !! tr_bus t; Some (t, v)) (fd_telemetry d).

Definition fuel_rows (d : FleetDB) : list (TelemetryRow * Vehicle) :=
  latest_per (fun tv => tr_bus tv.1) (fun tv => tr_ts tv.1) (joined d).

Definition ListFuelLevels : FM response :=
  try! js := db_query (fun d => scan_rows (fuel_level d) (fuel_rows d)) catch e => internal "list fuel levels" e in
  reply 200 (JObj [("fuel_levels", JList js)]).

(** *** infra-api: chargers.go *)

Definition charge_point_json (c : ChargePointRow) : json :=
  JObj ([("id", JStr (cp_id c)); ("station_id", JStr (cp_station c)); ("ocpp_id", JStr (cp_ocpp c));
         ("vendor", JStr (default "" (cp_vendor c))); ("model", JStr (default "" (cp_model c))); ("status", JStr (cp_status c))]
        ++ jopt_time "last_heartbeat" (cp_heartbeat c) ++ [("created_at", JTime (cp_created c))]).

Definition points_page (station : option string) (d : FleetDB) : list ChargePointRow :=
  take 500 (order_text cp_ocpp (filter (fun c => station = None \/ station = Some (cp_station c)) (rows (fd_points d)))).

(** [listChargePoints], with [station_id = $1] or without a condition. *)
Definition listChargePoints (station : option string) : FM response :=
  try! cs := db_query (fun d => ok! station := uuid_arg station in Ok (points_page station d))
    catch e => infra_internal "list charge points" e in
  reply 200 (JObj [("charge_points", JList (map charge_point_json cs))]).

Definition ListStationChargers (id : string) : FM response := listChargePoints (Some id).

Definition ListChargers (station_id : string) : FM response :=
  listChargePoints (if decide (station_id = "") then None else Some station_id).

Definition scanChargingSession (s : SessionRow) : result json :=
  ok! start := float_of_numeric (cs_start s) in
  ok! stop := opt_scan (cs_stop s) in
  ok! kwh := opt_scan (cs_kwh s) in
  Ok (JObj ([("id", JStr (cs_id s)); ("charge_point_id", JStr (cs_point s))] ++ jopt "bus_id" (JStr <$> cs_bus s)
            ++ [("connector_id", JInt (cs_connector s))] ++ jopt "id_tag" (JStr <$> cs_tag s)
            ++ [("meter_start", JFloat start)] ++ jopt_float_field "meter_stop" stop ++ jopt_float_field "kwh" kwh
            ++ [("started_at", JTime (cs_started s))] ++ jopt_time "stopped_at" (cs_stopped s) ++ [("status", JStr (cs_status s))])).

Definition session_matches (d : FleetDB) (ocpp : string) (st : string) (s : SessionRow) : Prop :=
  (cp_ocpp <$> fd_points d !! cs_point s) = Some ocpp /\ (st = "" \/ cs_status s = st).

#[global] Instance session_matches_dec d ocpp st s : Decision (session_matches d ocpp st s).
Proof. unfold session_matches. apply _. Defined.

Definition sessions_page (ocpp st : string) (d : FleetDB) : list SessionRow :=
  take 200 (order_asc (fun s => - cs_started s) (filter (session_matches d ocpp st) (rows (fd_sessions d)))).

Definition ListChargerSessions (ocpp_id st : string) : FM response :=
  try! js := db_query (fun d => scan_rows scanChargingSession (sessions_page ocpp_id st d))
    catch e => infra_internal "list charging sessions" e in
  reply 200 (JObj [("sessions", JList js)]).

(** *** citizen-api: carbon.go *)

Definition scanCredit (c : CreditRow) : result json :=
  ok! kg := float_of_numeric (cc_kg c) in
  ok! credits := float_of_numeric (cc_credits c) in
  Ok (JObj [("id", JStr (cc_id c)); ("period", JStr (cc_period c)); ("kg_co2_avoided", JFloat kg); ("credits", JFloat credits);
            ("issued_at", JTime (cc_issued c))]).

Definition credits_page (period : string) (d : FleetDB) : list CreditRow :=
  take 200 (order_asc (fun c => - cc_issued c) (filter (fun c => period = "" \/ cc_period c = period) (rows (fd_credits d)))).

Definition ListCarbonCredits (connected : bool) (period : string) : FM response :=
  requireDB connected (
    try! js := db_query (fun d => scan_rows scanCredit (credits_page period d)) catch e => infra_internal "list carbon credits" e in
    reply 200 (JObj [("credits", JList js)])).

Definition credit_sum (f : CreditRow -> Qc) (d : FleetDB) : Qc := foldr (fun c s => f c + s)%Qc 0%Qc (rows (fd_credits d)).

Definition carbon_summary (d : FleetDB) : result json :=
  ok! kg := float_of_numeric (credit_sum cc_kg d) in
  ok! credits := float_of_numeric (credit_sum cc_credits d) in
  Ok (JObj [("kg_co2_avoided_total", JFloat kg); ("credits_total", JFloat credits);
            ("periods", JInt (Z.of_nat (length (remove_dups (map cc_period (rows (fd_credits d)))))))]).

Definition CarbonSummary (connected : bool) : FM response :=
  requireDB connected (
    try! j := db_query carbon_summary catch e => infra_internal "carbon summary" e in
    reply 200 j).
End Handlers.

(** ** Which predictions are shown *)

Lemma riskier_spec a b : riskier a b = false <-> (pn_risk a < pn_risk b)%Qc \/ (pn_risk a = pn_risk b /\ pn_created a <= pn_created b).
Proof.
  unfold riskier. rewrite orb_false_iff, andb_false_iff, !bool_decide_eq_false, Z.ltb_ge. split.
  - intros [Hr Hc]. apply Qcnot_lt_le, Qcle_lt_or_eq in Hr as [Hr|Hr]; [by left|]. right. destruct Hc; [congruence|done].
  - intros [Hr|[Hr Hc]].
    + split; [|left; intros E; rewrite E in Hr; by apply Qclt_not_eq in Hr]. apply Qcle_not_lt. by apply Qclt_le_weak.
    + split; [|by right]. rewrite Hr. apply Qcle_not_lt, Qcle_refl.
Qed.

Lemma riskier_asym a b : riskier a b = true -> riskier b a = false.
Proof.
  intros Hab. rewrite riskier_spec. unfold riskier in Hab. rewrite orb_true_iff, andb_true_iff, !bool_decide_eq_true, Z.ltb_lt in Hab.
  destruct Hab as [?|[? ?]]; [by left|right]. split; [done|lia].
Qed.

Lemma riskier_trans a b c : not_after riskier a b -> not_after riskier b c -> not_after riskier a c.
Proof.
  unfold not_after. rewrite !riskier_spec. intros [H1|[H1 T1]] [H2|[H2 T2]].
  - left. by eapply Qclt_trans.
  - left. by rewrite <- H2 in H1 || rewrite H2.
  - left. by rewrite <- H1.
  - right. split; [congruence|lia].
Qed.

Section Shown.
Context `{Runtime} `{PgServer} `{PgNumeric} {S : Type}.
Implicit Types w : World FleetDB S.

(** A listing: what the query gives on the tables, or 500 when the call
    failed or the query has no result.  It changes nothing. *)
Lemma listing_exact {A} (f : FleetDB -> result A) (mk : A -> json) (m : string) w :
  wp (try! x := db_query f catch _e => reply_error 500 m in reply 200 (mk x))
    (fun r w' => w_db w' = w_db w /\
      ((exists x, f (w_db w) = Ok x /\ r = mkResponse 200 (mk x)) \/
       (status r = 500 /\ (w_sched w <> [] \/ exists e, f (w_db w) = Err e)))) w.
Proof.
  apply wp_bind. unfold wp, db_query, pop. destruct (w_sched w) as [|o s] eqn:Es; simpl.
  - destruct (f (w_db w)) as [x|e] eqn:Ef; split; [done| |done|]; [left|right]; eauto.
  - destruct o; simpl; [destruct (f (w_db w)) as [x|e] eqn:Ef|..]; (split; [done|]); [left; eauto|right..]; (split; [done|by left]).
Qed.

(** The latest telemetry: one sample per bus, the newest, for every bus that
    ever reported.  Otherwise 500, and only because a call failed or a number
    does not fit. *)
Theorem latest_telemetry_exact w :
  let '(r, w') := LatestTelemetry w in
  w_db w' = w_db w /\
  ((exists ts js, r = mkResponse 200 (JList js) /\ Forall2 (fun t j => scanSample t = Ok j) ts js /\ NoDup (map tr_bus ts) /\
      (forall t, t ∈ ts -> t ∈ fd_telemetry (w_db w) /\ forall t', t' ∈ fd_telemetry (w_db w) -> tr_bus t' = tr_bus t -> tr_ts t' <= tr_ts t) /\
      (forall t, t ∈ fd_telemetry (w_db w) -> exists t', t' ∈ ts /\ tr_bus t' = tr_bus t)) \/
   (status r = 500 /\ (w_sched w <> [] \/ exists e, scan_rows scanSample (latest_samples (w_db w)) = Err e))).
Proof.
  pose proof (listing_exact (fun d => scan_rows scanSample (latest_samples d)) JList "internal error" w) as Hl.
  unfold wp in Hl. unfold LatestTelemetry, internal. destruct (gbind _ _ w) as [r w']. cbn [fst snd] in Hl. destruct Hl as [Ed [(js & Hjs & ->)|Hf]]; (split; [done|]).
  - left. exists (latest_samples (w_db w)), js. apply scan_rows_ok in Hjs. destruct (latest_per_exact tr_bus tr_ts (fd_telemetry (w_db w))) as (? & ? & ?).
    split_and!; done.
  - by right.
Qed.

(** The predictions: an answer lists predictions of the bus asked for with at
    least the risk asked for, the riskiest first; a matching one that is not
    listed is no riskier than any of the 200 that are.  Only a bound that is
    no number or lies outside 0 to 1 is refused, before any query. *)
Theorem predictions_riskiest_first bus raw w :
  let '(r, w') := ListPredictions bus raw w in
  w_db w' = w_db w /\
  match parse_min_risk raw with
  | None => status r = 400 /\ w' = w
  | Some minRisk =>
      (exists b ps js, (if decide (bus = "") then b = None else exists u, uuid_in bus = Ok u /\ b = Some u) /\
        r = mkResponse 200 (JObj [("predictions", JList js)]) /\ Forall2 (fun p j => scanPrediction p = Ok j) ps js /\
        StronglySorted (not_after riskier) ps /\
        (forall p, p ∈ ps -> p ∈ rows (fd_predictions (w_db w)) /\ risk_matches b minRisk p) /\
        (forall p, p ∈ rows (fd_predictions (w_db w)) -> risk_matches b minRisk p -> p ∉ ps ->
           length ps = 200%nat /\ forall q, q ∈ ps -> not_after riskier q p)) \/
      (status r = 500 /\ (w_sched w <> [] \/ exists e, predictions_query bus minRisk (w_db w) = Err e))
  end.
Proof.
  unfold ListPredictions. destruct (parse_min_risk raw) as [minRisk|]; [|done].
  pose proof (listing_exact (predictions_query bus minRisk) (fun js => JObj [("predictions", JList js)]) "internal error" w) as Hl.
  unfold wp in Hl. unfold internal. destruct (gbind _ _ w) as [r w']. cbn [fst snd] in Hl. destruct Hl as [Ed [(js & Hjs & ->)|Hf]]; (split; [done|]); [left|by right].
  unfold predictions_query in Hjs.
  destruct (if decide (bus = "") then Ok None else result_map Some (uuid_in bus)) as [b|e] eqn:Eb; [|done]. simpl in Hjs.
  exists b, (predictions_page b minRisk (w_db w)), js. apply scan_rows_ok in Hjs. split_and!; [|done|done| | |].
  - destruct (decide _); [by injection Eb|]. destruct (uuid_in bus) as [u|]; [|done]. injection Eb as <-. eauto.
  - apply take_sorted, order_by_sorted; [exact riskier_asym|exact riskier_trans].
  - intros p Hp%elem_of_take. destruct Hp as (i & Hp & _). apply list_elem_of_lookup_2 in Hp. rewrite order_by_perm in Hp.
    apply list_elem_of_filter in Hp as [? ?]. done.
  - intros p Hp Hm Hn. apply (limit_is_top riskier riskier_asym riskier_trans) in Hn; [done|]. by apply list_elem_of_filter.
Qed.

(** *** Energy levels *)

Lemma joined_spec d t v : (t, v) ∈ joined d <-> t ∈ fd_telemetry d /\ fd_vehicles d !! tr_bus t = Some v.
Proof.
  unfold joined. rewrite list_elem_of_omap. split.
  - intros (t' & Hin & Ht). destruct (fd_vehicles d !! tr_bus t') as [v'|] eqn:Ev; [|done].
    injection Ht as -> ->. done.
  - intros [Hin Hv]. exists t. by rewrite Hv.
Qed.

(** The rate behind an estimate is positive, and is the learned one whenever
    that is. *)
Lemma consumption_positive learned :
  flt fzero (consumption learned).1 = true /\
  (forall r, learned = Some r -> flt fzero r = true -> consumption learned = (r, "learned")).
Proof.
  unfold consumption. destruct learned as [r|]; [|split; [reflexivity|done]].
  destruct (flt fzero r) eqn:Er; (split; [done || reflexivity|]); intros r' [= <-] Hr'; congruence.
Qed.

(** The energy levels: one per bus, from its newest reading and its vehicle,
    for every vehicle that ever reported. *)
Theorem fuel_levels_exact w :
  let '(r, w') := ListFuelLevels w in
  w_db w' = w_db w /\
  ((exists tvs js, r = mkResponse 200 (JObj [("fuel_levels", JList js)]) /\ Forall2 (fun tv j => fuel_level (w_db w) tv = Ok j) tvs js /\
      NoDup (map (fun tv => tr_bus tv.1) tvs) /\
      (forall t v, (t, v) ∈ tvs -> fd_vehicles (w_db w) !! tr_bus t = Some v /\ t ∈ fd_telemetry (w_db w) /\
         forall t', t' ∈ fd_telemetry (w_db w) -> tr_bus t' = tr_bus t -> tr_ts t' <= tr_ts t) /\
      (forall t v, t ∈ fd_telemetry (w_db w) -> fd_vehicles (w_db w) !! tr_bus t = Some v -> exists t', (t', v) ∈ tvs /\ tr_bus t' = tr_bus t)) \/
   (status r = 500 /\ (w_sched w <> [] \/ exists e, scan_rows (fuel_level (w_db w)) (fuel_rows (w_db w)) = Err e))).
Proof.
  pose proof (listing_exact (fun d => scan_rows (fuel_level d) (fuel_rows d)) (fun js => JObj [("fuel_levels", JList js)]) "internal error" w) as Hl.
  unfold wp in Hl. unfold ListFuelLevels, internal. destruct (gbind _ _ w) as [r w']. cbn [fst snd] in Hl. destruct Hl as [Ed [(js & Hjs & ->)|Hf]]; (split; [done|]); [left|by right].
  exists (fuel_rows (w_db w)), js. apply scan_rows_ok in Hjs.
  destruct (latest_per_exact (fun tv => tr_bus tv.1) (fun tv => tr_ts tv.1) (joined (w_db w))) as (Hnd & Hin & Hall).
  split_and!; [done|done|done| |].
  - intros t v Htv. apply Hin in Htv as [[Ht Hv]%joined_spec Hmax]. split_and!; [done|done|]. intros t' Ht' Hb.
    apply (Hmax (t', v)); [|done]. apply joined_spec. by rewrite Hb.
  - intros t v Ht Hv. destruct (Hall (t, v)) as ([t' v'] & Hin' & Hb); [by apply joined_spec|]. simpl in Hb. exists t'. split; [|done].
    pose proof (proj1 (Hin _ Hin')) as [_ Hv']%joined_spec. rewrite Hb, Hv in Hv'. by simplify_eq.
Qed.

(** *** Charging sessions *)

(** The sessions shown for a charge point are its own, of the status asked
    for, the latest started first. *)
Theorem charger_sessions_exact ocpp st w :
  let '(r, w') := ListChargerSessions ocpp st w in
  w_db w' = w_db w /\
  ((exists ss js, r = mkResponse 200 (JObj [("sessions", JList js)]) /\ Forall2 (fun s j => scanChargingSession s = Ok j) ss js /\
      StronglySorted (fun a b => cs_started b <= cs_started a) ss /\
      forall s, s ∈ ss -> s ∈ rows (fd_sessions (w_db w)) /\ session_matches (w_db w) ocpp st s) \/
   (status r = 500 /\ (w_sched w <> [] \/ exists e, scan_rows scanChargingSession (sessions_page ocpp st (w_db w)) = Err e))).
Proof.
  pose proof (listing_exact (fun d => scan_rows scanChargingSession (sessions_page ocpp st d)) (fun js => JObj [("sessions", JList js)]) "internal_error" w) as Hl.
  unfold wp in Hl. unfold ListChargerSessions, infra_internal. destruct (gbind _ _ w) as [r w']. cbn [fst snd] in Hl. destruct Hl as [Ed [(js & Hjs & ->)|Hf]]; (split; [done|]); [left|by right].
  exists (sessions_page ocpp st (w_db w)), js. apply scan_rows_ok in Hjs. split_and!; [done|done| |].
  - apply take_sorted. pose proof (order_asc_sorted (fun s => - cs_started s) (filter (session_matches (w_db w) ocpp st) (rows (fd_sessions (w_db w))))) as Hs.
    induction Hs as [|x l Hl IH Hx]; constructor; [done|]. eapply Forall_impl; [|exact Hx]. simpl. lia.
  - intros s Hs%elem_of_take. destruct Hs as (i & Hp & _). apply list_elem_of_lookup_2 in Hp. rewrite order_asc_perm in Hp.
    by apply list_elem_of_filter in Hp as [? ?].
Qed.
End Shown.

(** ** Runs *)

#[local] Existing Instance test_server.
#[local] Existing Instance test_numeric.
#[local] Existing Instance test_runtime.

Definition run_fleet : FleetDB := mkFleetDB
  {["b1" := mkVehicle "b1" "EV-010" None None (Some (Q2Qc 300)) "active" "battery" None]}
  [mkSample "b1" 1000 None None None None None (Some (Q2Qc 50)) None (Some "battery") None;
   mkSample "b1" 2000 None None None None None (Some (Q2Qc 80)) None (Some "battery") None]
  {["p1" := mkPrediction "p1" "b1" "battery" (Q2Qc (9 # 10)) None None 5;
    "p2" := mkPrediction "p2" "b1" "powertrain" (Q2Qc (3 # 10)) None None 6]} ∅ ∅ ∅ ∅.

Definition run_fleet_world : World FleetDB unit := mkWorld run_fleet () [] 3000 0 [] [] [].

Definition listed_count (k : string) (r : response) : option nat :=
  match body r with JObj fs => match jget k fs with Some (JList l) => Some (length l) | _ => None end | _ => None end.

(** A bound of NaN passes the check for 0 to 1, and then nothing is risky
    enough for it. *)
Theorem nan_bound_hides_every_prediction :
  (ListPredictions "" "0.5" run_fleet_world).1 .(body) <> (ListPredictions "" "" run_fleet_world).1 .(body) /\
  listed_count "predictions" (ListPredictions "" "0.5" run_fleet_world).1 = Some 1%nat /\
  status (ListPredictions "" "1.5" run_fleet_world).1 = 400 /\
  status (ListPredictions "" "NaN" run_fleet_world).1 = 200 /\
  listed_count "predictions" (ListPredictions "" "NaN" run_fleet_world).1 = Some 0%nat.
Proof. vm_compute. split_and!; done. Qed.

Definition first_level (k : string) (r : response) : option json :=
  match body r with JObj fs => match jget "fuel_levels" fs with Some (JList (JObj l :: _)) => jget k l | _ => None end | _ => None end.

(** A battery bus with no learned rate is given the hydrogen one: 240 kWh
    left at 8 per 100 km is reported as a range of 3000 km. *)
Theorem battery_range_at_hydrogen_rate :
  let r := (ListFuelLevels run_fleet_world).1 in
  first_level "energy_type" r = Some (JStr "battery") /\ first_level "energy_remaining" r = Some (JFloat (float_of_Z 240)) /\
  first_level "consumption_source" r = Some (JStr "default") /\ first_level "estimated_range_km" r = Some (JFloat (float_of_Z 3000)).
Proof. vm_compute. split_and!; done. Qed.
