(* ===== verification/Ops.v ===== *)
(** * The operations pages of admin-api, and the open-data search

    Models admin-api's internal/ops (health.go, handlers.go): the health
    sweep, the alert feed, the toggle list and the toggle update it passes on
    to toggle-service, which is the one of [Toggles] behind its route in
    [Routes]; and citizen-api's handlers/opendata.go, whose search is passed
    on to OpenSearch.

    The probes of the sweep run concurrently and each writes its own slot, so
    what they found is an argument, in the order of the targets. *)

From Stdlib Require Import Ascii Sorted.
From stdpp Require Import sorting.
From Stdlib Require OrderedTypeEx.
From S2P Require Import Prelude Codec Json World Float64 Auth AuthGuard InfraDb Toggles AuditLog Permify Routes Dashboards.
From S2P Require AuditClient.

Open Scope Z_scope.
Open Scope go_scope.

(** ** Texts in order *)

Lemma ltb_lt (a b : string) : String.ltb a b = true <-> OrderedTypeEx.String_as_OT.lt a b.
Proof.
  unfold String.ltb. rewrite <- OrderedTypeEx.String_as_OT.cmp_lt. unfold OrderedTypeEx.String_as_OT.cmp. by destruct (String.compare a b).
Qed.

Lemma ltb_trans a b c : String.ltb a b = true -> String.ltb b c = true -> String.ltb a c = true.
Proof. rewrite !ltb_lt. apply OrderedTypeEx.String_as_OT.lt_trans. Qed.

Lemma ltb_asym a b : String.ltb a b = true -> String.ltb b a = false.
Proof. unfold String.ltb. rewrite (String.compare_antisym b a). by destruct (String.compare a b). Qed.

Lemma ltb_total a b : String.ltb a b = false -> String.ltb b a = false -> a = b.
Proof.
  unfold String.ltb. rewrite (String.compare_antisym b a). destruct (String.compare a b) eqn:E; [|done|done].
  intros _ _. by apply String.compare_eq_iff.
Qed.

(** Not after, in the order of texts. *)
Lemma ltb_chain a b c : String.ltb b a = false -> String.ltb c b = false -> String.ltb c a = false.
Proof.
  intros H1 H2. destruct (String.ltb c a) eqn:E; [|done]. destruct (String.ltb a b) eqn:E2.
  - by rewrite (ltb_trans c a b E E2) in H2.
  - rewrite (ltb_total a b E2 H1) in E. congruence.
Qed.

(** ** health.go *)

Record Target : Type := mkTarget { ta_name : string; ta_kind : string; ta_addr : string }.

(** What a probe found within its two seconds, and how long it took. *)
Inductive probe : Type :=
| Connected                  (* the dial succeeded *)
| Answered (code : Z)        (* GET <addr>/healthz *)
| Failed.

Record Check : Type := mkCheck {
  ch_name : string; ch_kind : string; ch_target : string; ch_status : string; ch_latency : Z
}.

Definition check (t : Target) (found : probe * Z) : Check :=
  let up :=
    if decide (ta_kind t = "tcp") then match found.1 with Connected => true | _ => false end
    else match found.1 with Answered code => (200 <=? code) && (code <? 300) | _ => false end in
  mkCheck (ta_name t) (ta_kind t) (ta_addr t) (if up : bool then "up" else "down") found.2.

Record HealthResponse : Type := mkHealth { hl_generated : Z; hl_checks : list Check; hl_up : Z; hl_down : Z }.

Definition is_up (c : Check) : bool := bool_decide (ch_status c = "up").

(** The loop over the checks. *)
Definition count_check (s : Z * Z) (c : Check) : Z * Z := if is_up c then (s.1 + 1, s.2) else (s.1, s.2 + 1).

Definition SweepHealth (now : Z) (targets : list Target) (found : list (probe * Z)) : HealthResponse :=
  let checks := zip_with check targets found in
  let '(up, down) := foldl count_check (0, 0) checks in
  mkHealth now (order_by (fun a b => String.ltb (ch_name a) (ch_name b)) checks) up down.

Definition check_json (c : Check) : json :=
  JObj [("name", JStr (ch_name c)); ("kind", JStr (ch_kind c)); ("target", JStr (ch_target c)); ("status", JStr (ch_status c));
        ("latency_ms", JInt (ch_latency c))].

Definition health_json (h : HealthResponse) : json :=
  JObj [("generated_at", JTime (hl_generated h)); ("checks", JList (map check_json (hl_checks h)));
        ("summary", JObj [("up", JInt (hl_up h)); ("down", JInt (hl_down h))])].

(** ** The alert feed *)

(** A body that is written as it came, or one that is encoded. *)
Inductive written : Type := Bytes (l : list Z) | Encoded (j : json).

Record answer : Type := mkAnswer { an_status : Z; an_body : written }.

(** [io.LimitReader]. *)
Definition limit_read (n : Z) (l : list Z) : list Z := if Z.of_nat (length l) <=? n then l else take (Z.to_nat n) l.

(** A peer's reply to one call: none, or a status and the bytes of the body,
    of which reading may fail. *)
Inductive upstream : Type := NoReply | Replied (code : Z) (bytes : list Z) (cut : bool).

Definition degradedAlerts : answer :=
  mkAnswer 200 (Encoded (JObj [("alerts", JList []); ("degraded", JBool true); ("source", JStr "alertmanager")])).

Definition Alerts (u : upstream) : answer :=
  match u with
  | NoReply => degradedAlerts
  | Replied code bytes cut =>
      let b := limit_read 4194304 bytes in
      if cut || negb (code =? 200) || negb (Valid b) then degradedAlerts else mkAnswer 200 (Bytes b)
  end.

(** ** The toggle list *)

Record ToggleView : Type := mkView { tv_module : string; tv_domain : string; tv_enabled : bool; tv_owners : list string }.

Definition toggle_view (t : string * bool) : ToggleView :=
  match registered t.1 with
  | Some info => mkView t.1 (in_domain info) t.2 (in_owners info)
  | None => mkView t.1 "unknown" t.2 []
  end.

Definition view_before (a b : ToggleView) : bool :=
  if decide (tv_domain a = tv_domain b) then String.ltb (tv_module a) (tv_module b)
  else String.ltb (tv_domain a) (tv_domain b).

(** Over the modules in whatever order the map yields them. *)
Definition toggle_views (l : list (string * bool)) : list ToggleView := order_by view_before (map toggle_view l).

Definition view_json (v : ToggleView) : json :=
  JObj [("module", JStr (tv_module v)); ("domain", JStr (tv_domain v)); ("enabled", JBool (tv_enabled v));
        ("owning_services", JList (map JStr (tv_owners v)))].

(** The answer to toggle-service's reply: its status and, if it parses, its document. *)
Definition ListToggles (h : http_outcome) : response :=
  match h with
  | HttpFail _ _ _ => json_error 502 "toggle-service unreachable"
  | HttpReply _ code _ doc =>
      if negb (code =? 200) then json_error 502 "toggle-service returned non-OK status"
      else match doc with
           | None => json_error 502 "toggle-service returned malformed payload"
           | Some doc => match dec_toggles doc with
                         | None => json_error 502 "toggle-service returned malformed payload"
                         | Some m => mkResponse 200 (JObj [("toggles", JList (map view_json (toggle_views (map_to_list m))))])
                         end
           end
  end.

(** ** The toggle update *)

Section Update.
Context {S : Type} `{TokenLib} `{GrpcServer S} `{AuditClient.AuditPeer S} `{Redis S} (rdb : bool).
Context (decode : list Z -> option (option bool)).       (* the body of a PUT, as encoding/json reads it *)
Context (remote agent : string).                         (* admin-api, as toggle-service sees it *)

Abbreviation TM := (M (process * ToggleDB) S).

(** toggle-service's PUT, behind its route. *)
Definition put_route : route :=
  Put_ [Role "platform-admin"; Permit "module" "manage" (Param "module"); Audit "toggle.update" "feature_toggle" "module" true]
    "/v1/toggles/{module}" "Put".

Definition put_handler (q : AuditClient.request) (_ : claims) : M ToggleDB S response :=
  Put rdb (AuditClient.URLParam q "module") (decode (AuditClient.rq_body q)).

Definition toggle_service (cf : config) (a : arrival) (q : AuditClient.request) : TM response :=
  serve cf a (rt_chain put_route) put_handler q None.

(** One call over the network: it may not arrive, or its answer may not. *)
Definition call {A} (m : TM A) : TM (option A) :=
  let! o := pop in
  match o with
  | Done => let! x := m in gret (Some x)
  | Lost => gret None
  | LostReply => do! m in gret None
  end.

(** [UpdateToggle]: the body goes on as it is, with the caller's
    Authorization, and the answer comes back as it is. *)
Definition UpdateToggle (cf : config) (a : arrival) (module : string) (raw : list Z) : TM response :=
  match registered module with
  | None => reply_error 404 ("unknown module: " +:+ module)
  | Some _ =>
      if 1048576 <? Z.of_nat (length raw) then reply_error 400 "failed to read body"
      else
        let! r := call (toggle_service cf a (AuditClient.mkRequest raw remote agent [("module", module)])) in
        match r with
        | None => reply_error 502 "toggle-service unreachable"
        | Some resp => gret resp
        end
  end.
End Update.

(** ** The open-data search *)

Record Dataset : Type := mkDataset { ds_id : string; ds_title : string; ds_description : string; ds_format : string; ds_url : string }.

Definition datasetCatalog : list Dataset :=
  [mkDataset "gtfs-static" "GTFS static feed" "Stops, routes and timetable of the H2 bus network." "GTFS" "/api/citizen/v1/opendata/gtfs";
   mkDataset "arrivals" "Stop arrivals" "Next departures per stop (derived from the static timetable)." "JSON" "/api/citizen/v1/passenger/arrivals?stop_id=S001";
   mkDataset "carbon-credits" "CO2 avoidance ledger" "Issued carbon credits per reporting period." "JSON" "/api/citizen/v1/carbon/credits";
   mkDataset "service-alerts" "Service alerts" "Active service disruptions and notices." "JSON" "/api/citizen/v1/passenger/alerts"].

Definition dataset_json (d : Dataset) : json :=
  JObj [("id", JStr (ds_id d)); ("title", JStr (ds_title d)); ("description", JStr (ds_description d)); ("format", JStr (ds_format d));
        ("url", JStr (ds_url d))].

Definition ListDatasets : response := mkResponse 200 (JObj [("datasets", JList (map dataset_json datasetCatalog))]).

Record OpenData : Type := mkOpenData { od_search : string; od_index : string }.

Definition NewOpenData (searchURL index : string) : OpenData :=
  mkOpenData (TrimSuffix1 searchURL "/") (if decide (index = "") then "h2fleet-open" else index).

(** The query document: what the reader typed is one string in it. *)
Definition osQuery (q : string) : json :=
  JObj [("query", JObj [("multi_match", JObj [("fields", JList [JStr "title^2"; JStr "description"; JStr "content"]); ("query", JStr q)])]);
        ("size", JInt 20)].

Definition search_request (o : OpenData) (q : string) : http_request :=
  mkHttpRequest "POST" (od_search o +:+ "/" +:+ od_index o +:+ "/_search") (osQuery q).

(** [Search]: what is sent to OpenSearch, if anything, and the answer. *)
Definition Search (o : OpenData) (q : string) (u : upstream) : option http_request * answer :=
  let error code msg := mkAnswer code (Encoded (JObj [("error", JStr msg)])) in
  if decide (od_search o = "") then (None, error 503 "search backend not configured (OPENSEARCH_URL unset)")
  else if decide (q = "") then (None, error 400 "q is required")
  else (Some (search_request o q),
        match u with
        | NoReply => error 502 "search backend unavailable"
        | Replied code bytes _ => mkAnswer code (Bytes (limit_read 4194304 bytes))
        end).

(** ** What the sweep says *)

(** Every target is checked once, the list is by name, up means that the dial
    succeeded or the service answered 2xx, and the summary counts the list. *)
Theorem sweep_exact now targets found : length targets = length found ->
  let h := SweepHealth now targets found in
  hl_checks h ≡ₚ zip_with check targets found /\
  StronglySorted (fun a b => String.ltb (ch_name b) (ch_name a) = false) (hl_checks h) /\
  hl_up h = Z.of_nat (length (filter (fun c => is_up c = true) (hl_checks h))) /\
  hl_up h + hl_down h = Z.of_nat (length targets).
Proof.
  intros Hl. cbv zeta. unfold SweepHealth. set (cs := zip_with check targets found).
  assert (forall l s, foldl count_check s l
    = (s.1 + Z.of_nat (length (filter (fun c => is_up c = true) l)), s.2 + Z.of_nat (length (filter (fun c => is_up c = false) l)))) as Hf.
  { induction l as [|c l IH]; intros [u d]; simpl; [f_equal; lia|]. rewrite IH, !list.filter_cons. unfold count_check.
    destruct (is_up c) eqn:Ec; rewrite ?Ec; repeat case_decide; simpl; try done; f_equal; lia. }
  rewrite Hf. simpl. split_and!.
  - apply order_by_perm.
  - apply (order_by_sorted (fun a b => String.ltb (ch_name a) (ch_name b))); [intros a b; apply ltb_asym|].
    intros a b c. unfold not_after. apply ltb_chain.
  - do 2 f_equal. by rewrite order_by_perm.
  - assert (length (filter (fun c => is_up c = true) cs) + length (filter (fun c => is_up c = false) cs) = length cs)%nat as Hn.
    { clear. induction cs as [|c cs IH]; [done|]. rewrite !list.filter_cons. destruct (is_up c); repeat case_decide; simpl in *; try done; lia. }
    assert (length cs = length targets) as Hc by (unfold cs; rewrite length_zip_with; lia). lia.
Qed.

Lemma check_up t p ms : is_up (check t (p, ms)) = true <->
  (ta_kind t = "tcp" /\ p = Connected) \/ (ta_kind t <> "tcp" /\ exists code, p = Answered code /\ 200 <= code < 300).
Proof.
  unfold is_up, check. simpl. rewrite bool_decide_eq_true. case_decide as Ht.
  - destruct p; naive_solver.
  - destruct p as [|code|]; simpl; [naive_solver| |naive_solver]. destruct ((200 <=? code) && (code <? 300)) eqn:E.
    + apply andb_true_iff in E as [?%Z.leb_le ?%Z.ltb_lt]. split; [right; eauto 10|done].
    + split; [done|]. intros [[? ?]|(_ & c & [= <-] & Hc)]; [done|]. apply andb_false_iff in E as [?%Z.leb_gt|?%Z.ltb_ge]; lia.
Qed.

(** ** What the alert feed says *)

(** The feed never fails, and never passes for calm: it is Alertmanager's
    own answer, a 200 whose whole body is JSON, or it says degraded. *)
Theorem alerts_honest u :
  an_status (Alerts u) = 200 /\
  (Alerts u = degradedAlerts \/
   exists bytes, u = Replied 200 bytes false /\ Valid (limit_read 4194304 bytes) = true /\ an_body (Alerts u) = Bytes (limit_read 4194304 bytes)).
Proof.
  destruct u as [|code bytes cut]; simpl; [split; [done|by left]|]. destruct cut; simpl; [split; [done|by left]|].
  destruct (Z.eqb_spec code 200) as [->|]; simpl; [|split; [done|by left]]. destruct (Valid _) eqn:Ev; simpl; (split; [done|]); [right|by left].
  by exists bytes.
Qed.

(** ** What the toggle list says *)

Lemma view_before_spec a b : view_before b a = false <->
  String.ltb (tv_domain a) (tv_domain b) = true \/ (tv_domain a = tv_domain b /\ String.ltb (tv_module b) (tv_module a) = false).
Proof.
  unfold view_before. destruct (decide (tv_domain b = tv_domain a)) as [E|E].
  - rewrite E. split; [by right|]. intros [Hl|[_ ?]]; [|done]. by rewrite (ltb_asym _ _ Hl) in Hl.
  - split; [|intros [?|[? _]]; [by apply ltb_asym|congruence]]. intros Hl. left.
    destruct (String.ltb (tv_domain a) (tv_domain b)) eqn:E2; [done|]. by destruct (E (ltb_total _ _ Hl E2)).
Qed.

Lemma view_before_asym a b : view_before a b = true -> view_before b a = false.
Proof. unfold view_before. repeat case_decide; try congruence; apply ltb_asym. Qed.

Lemma view_before_trans a b c : not_after view_before a b -> not_after view_before b c -> not_after view_before a c.
Proof.
  unfold not_after. rewrite !view_before_spec. intros [H1|[H1 M1]] [H2|[H2 M2]].
  - left. by eapply ltb_trans.
  - left. by rewrite <- H2.
  - left. by rewrite H1.
  - right. split; [congruence|]. by eapply ltb_chain.
Qed.

Lemma view_module t : tv_module (toggle_view t) = t.1.
Proof. unfold toggle_view. by destruct (registered t.1). Qed.

(** The list is of all modules, by domain and then by name, and does not
    depend on the order in which Go walks the map. *)
Theorem toggle_views_ordered l l' : NoDup l.*1 -> l ≡ₚ l' ->
  toggle_views l = toggle_views l' /\ toggle_views l ≡ₚ map toggle_view l /\ StronglySorted (not_after view_before) (toggle_views l).
Proof.
  intros Hnd Hp. unfold toggle_views.
  assert (forall l, StronglySorted (not_after view_before) (order_by view_before (map toggle_view l))) as Hs
    by (intros; apply order_by_sorted; [exact view_before_asym|exact view_before_trans]).
  split_and!; [|apply order_by_perm|apply Hs]. eapply StronglySorted_unique_strong; [|apply Hs|apply Hs|by rewrite !order_by_perm, Hp].
  intros x y Hx Hy. rewrite order_by_perm in Hx, Hy. apply list_elem_of_fmap in Hx as (t & -> & Ht), Hy as (t' & -> & Ht').
  rewrite <- Hp in Ht'. unfold not_after. rewrite !view_before_spec, !view_module. intros [H1|[H1 M1]] [H2|[H2 M2]].
  - by rewrite (ltb_asym _ _ H1) in H2.
  - rewrite H2 in H1. by rewrite (ltb_asym _ _ H1) in H1.
  - rewrite H1 in H2. by rewrite (ltb_asym _ _ H2) in H2.
  - assert (t.1 = t'.1) as E by by apply ltb_total. f_equal. destruct t as [m b], t' as [m' b']. simpl in E. subst m'. f_equal.
    apply (elem_of_list_to_map_1 (M := gmap string)) in Ht; [|done]. apply (elem_of_list_to_map_1 (M := gmap string)) in Ht'; [|done]. congruence.
Qed.

(** The two services keep the same registry: admin-api's domain of a module
    is the one toggle-service seeds, and both know the same modules. *)
Theorem registries_agree module : Modules !! module = in_domain <$> registered module.
Proof.
  destruct (decide (module ∈ map fst Registry)) as [Hin|Hn].
  - revert module Hin. apply list.Forall_forall. apply (bool_decide_unpack _). vm_compute. exact I.
  - transitivity (@None string).
    + destruct (Modules !! module) as [d|] eqn:E; [|done]. exfalso. apply Hn.
      assert (forall m, is_Some (Modules !! m) -> m ∈ map fst Registry) as Hall; [|by apply Hall; rewrite E; eexists].
      intros m Hm%elem_of_dom. revert m Hm. change (set_Forall (fun m => m ∈ map fst Registry) (dom Modules)).
      apply (bool_decide_unpack _). vm_compute. exact I.
    + unfold registered. destruct (List.find _ Registry) as [[m info]|] eqn:E; [|done]. exfalso.
      apply List.find_some in E as [Hin Hm%bool_decide_eq_true]. simpl in Hm. subst m. apply Hn, list_elem_of_fmap. exists (module, info).
      split; [done|]. by apply list_elem_of_In.
Qed.

(** ** What an update through admin-api can do *)

Section Proxied.
Context {S : Type} `{TokenLib} `{GrpcServer S} `{AuditClient.AuditPeer S} `{Redis S} (rdb : bool).
Context (decode : list Z -> option (option bool)) (remote agent : string).

(** A switched row. *)
Definition switched (module : string) (b : bool) (now : Z) (d d' : ToggleDB) : Prop :=
  exists t, d !! module = Some t /\ d' = <[module := mkToggle (tg_domain t) b now]> d.

Lemma put_switches module req (w : World ToggleDB S) :
  wp (Put rdb module req) (fun _ w' => w_db w' = w_db w \/ exists b, req = Some (Some b) /\ switched module b (w_now w) (w_db w) (w_db w')) w.
Proof.
  unfold Put, put_write. destruct (Modules !! module) as [dom|]; [|repeat wp_step; by left].
  destruct req as [[b|]|]; [|repeat wp_step; by left..].
  assert (forall d w1, (w_db w1 = w_db w \/ switched module b (w_now w) (w_db w) (w_db w1)) ->
    wp (put_refresh rdb module b d) (fun _ w' => w_db w' = w_db w \/ exists b', Some (Some b) = Some (Some b') /\ switched module b' (w_now w) (w_db w) (w_db w')) w1) as Hfin.
  { intros d w1 Hw1. unfold put_refresh. apply wp_bind. eapply wp_mono; [|apply (wp_cache_write rdb 0)].
    intros _ w2 ((Ed & _) & _). repeat wp_step; simpl; rewrite Ed; destruct Hw1; eauto. }
  repeat wp_step; try by left.
  - unfold set_enabled in *. destruct (w_db w !! module) as [t|] eqn:Et; simplify_eq/=; repeat wp_step; [|by left].
    apply Hfin. right. exists t. done.
  - unfold set_enabled in *. destruct (w_db w !! module) as [t|] eqn:Et; simplify_eq/=; [|by left]. right. exists b. split; [done|]. by exists t.
Qed.

(** What the toggle tables may be after one request of toggle-service's PUT. *)
Definition update_allowed (cf : config) (a : arrival) (module : string) (raw : list Z) (w : World (process * ToggleDB) S) (d : ToggleDB) : Prop :=
  d = (w_db w).2 \/
  exists c b body, verified a (w_now w) (w_db w).1 c /\ hasRole c "platform-admin" = true /\
    (exists q p, demand cf a (w_now w) (w_led w) q (Permit "module" "manage" (Param "module")) p c /\ AuditClient.URLParam q "module" = module) /\
    (body = raw \/ body = take AuditClient.captureLimit raw) /\ decode body = Some (Some b) /\ switched module b (w_now w) (w_db w).2 d.

Lemma toggle_service_allowed cf a module raw w w0 : w_db w0 = w_db w -> w_now w0 = w_now w -> w_led w0 = w_led w ->
  wp (toggle_service rdb decode cf a (AuditClient.mkRequest raw remote agent [("module", module)]))
    (fun _ w' => update_allowed cf a module raw w (w_db w').2) w0.
Proof.
  intros Ed En El. unfold toggle_service. set (q := AuditClient.mkRequest _ _ _ _).
  pose proof (serve_spec cf a (rt_chain put_route) (put_handler rdb decode) q None w0 I) as Hserve.
  eapply wp_mono; [|exact Hserve]. clear Hserve.
  intros r w' [[_ (p & s & ->)]|(c & _ & _ & (Hrole & Hpermit & _) & (q' & s & Hq & Hs))]; [left; simpl; by rewrite Ed|].
  assert (AuditClient.rq_params q' = [("module", module)] /\ (AuditClient.rq_body q' = raw \/ AuditClient.rq_body q' = take AuditClient.captureLimit raw)) as [Hp Hb]
    by (destruct Hq as [-> | ->]; (split; [reflexivity|]); [left|right]; reflexivity).
  pose proof (put_switches (AuditClient.URLParam q' "module") (decode (AuditClient.rq_body q')) (with_sched s (inner w0))) as Hput.
  unfold wp in Hput. unfold put_handler in Hs. destruct (Put _ _ _ _) as [r1 w1]. destruct Hs as [-> (E1 & _)]. cbn [fst snd] in Hput.
  assert (AuditClient.URLParam q' "module" = module) as Hm by (unfold AuditClient.URLParam; by rewrite Hp).
  rewrite Hm in Hput. simpl in Hput, E1. rewrite <- E1 in Hput. destruct Hput as [Hsame|(b & Hd & Hsw)]; [left; by rewrite Hsame, Ed|right].
  rewrite Ed, En in Hsw. destruct Hrole as [Hv Hr]. rewrite En, Ed in Hv. rewrite En, El in Hpermit.
  exists c, b, (AuditClient.rq_body q'). split_and!; [done|done| |done|done|done].
  exists q. eexists. split; [exact Hpermit|]. reflexivity.
Qed.

(** C22: an update through admin-api changes nothing that toggle-service would not
    let its caller change: the tables stay, or the one module named is set to
    what the body says, for the caller's own token, verified by toggle-service,
    with platform-admin and, where Permify is on, its permission on that
    module.  A module nobody registered is refused without a call, and a lost
    call or answer is 502. *)
Theorem proxied_update_allowed cf a module raw w :
  let '(r, w') := UpdateToggle rdb decode remote agent cf a module raw w in
  update_allowed cf a module raw w (w_db w').2 /\
  (registered module = None -> status r = 404 /\ w' = w) /\
  (forall s, registered module <> None -> Z.of_nat (length raw) <= 1048576 -> w_sched w = Lost :: s -> status r = 502 /\ (w_db w').2 = (w_db w).2).
Proof.
  enough (wp (UpdateToggle rdb decode remote agent cf a module raw) (fun r w' => update_allowed cf a module raw w (w_db w').2 /\
    (registered module = None -> status r = 404 /\ w' = w) /\
    (forall s, registered module <> None -> Z.of_nat (length raw) <= 1048576 -> w_sched w = Lost :: s -> status r = 502 /\ (w_db w').2 = (w_db w).2)) w) as Hw.
  { unfold wp in Hw. by destruct (UpdateToggle _ _ _ _ _ _ _ _ w). }
  unfold UpdateToggle. destruct (registered module) as [info|]; [|apply wp_ret; split_and!; [by left|done|done]].
  destruct (Z.ltb_spec 1048576 (Z.of_nat (length raw))) as [Hlong|Hshort]; [apply wp_ret; split_and!; [by left|done|lia]|].
  apply wp_bind. unfold call. apply wp_bind. unfold wp at 1, pop. destruct (w_sched w) as [|o s] eqn:Es; [|destruct o]; cbn [fst snd].
  - apply wp_bind. eapply wp_mono; [|by apply (toggle_service_allowed cf a module raw w)]. intros r w' Hal. apply wp_ret, wp_ret.
    split_and!; [exact Hal|done|done].
  - apply wp_bind. eapply wp_mono; [|by apply (toggle_service_allowed cf a module raw w)]. intros r w' Hal. apply wp_ret, wp_ret.
    split_and!; [exact Hal|done|done].
  - apply wp_ret, wp_ret. split_and!; [by left|done|by intros].
  - apply wp_bind. eapply wp_mono; [|by apply (toggle_service_allowed cf a module raw w)]. intros r w' Hal. apply wp_ret, wp_ret.
    split_and!; [exact Hal|done|done].
Qed.
End Proxied.

(** It is the route of toggle-service's table. *)
Lemma put_route_of_table : put_route ∈ toggle_routes.
Proof. apply (bool_decide_unpack _). vm_compute. exact I. Qed.

(** ** The configuration of the mobile apps

    citizen-api's MobileConfig (handlers/passenger.go): the states of its own
    modules, asked of the toggle client one after the other.  A visit is when
    a module is asked for and, if toggle-service has to be, when and with what
    it answers. *)

Definition mobile_modules : list string := ["passenger-pwa"; "mobile-app"; "demand-responsive"; "carbon-credits"; "open-data-portal"].

Definition visit : Type := Z * Z * http_outcome.

Fixpoint ask_modules (c : Client) (l : list (string * visit)) : list (string * bool) * Client :=
  match l with
  | [] => ([], c)
  | (module, (now, later, o)) :: l =>
      let '(enabled, c) := IsEnabled c module now later o in
      let '(rest, c) := ask_modules c l in
      ((module, enabled) :: rest, c)
  end.

Definition MobileConfig (c : Client) (visits : list visit) : response * Client :=
  let '(modules, c) := ask_modules c (zip mobile_modules visits) in
  (mkResponse 200 (JObj [("api_version", JStr "v1"); ("modules", JObj (map (fun m => (m.1, JBool m.2)) modules))]), c).

Lemma IsEnabled_remembers c module now later o :
  let '(b, c') := IsEnabled c module now later o in
  (exists e, c' !! module = Some e /\ ce_enabled e = b) /\ forall m, m <> module -> c' !! m = c !! m.
Proof.
  unfold IsEnabled, cached. destruct (c !! module) as [e|] eqn:Ee.
  - destruct (now <? ce_expires e); [split; [eauto|done]|]. unfold store.
    split; [rewrite lookup_insert_eq; by eexists|]. intros m Hm. by rewrite lookup_insert_ne.
  - unfold store. split; [rewrite lookup_insert_eq; by eexists|]. intros m Hm. by rewrite lookup_insert_ne.
Qed.

Lemma ask_modules_remembers l c : NoDup l.*1 ->
  let '(ans, c') := ask_modules c l in
  ans.*1 = l.*1 /\ (forall m b, (m, b) ∈ ans -> exists e, c' !! m = Some e /\ ce_enabled e = b) /\ forall m, m ∉ l.*1 -> c' !! m = c !! m.
Proof.
  revert c. induction l as [|[module [[now later] o]] l IH]; intros c; simpl; [split; [done|split; [intros m b Hx; by apply elem_of_nil in Hx|done]]|].
  intros [Hm Hnd]%list.NoDup_cons. pose proof (IsEnabled_remembers c module now later o) as Hr.
  destruct (IsEnabled c module now later o) as [b c1]. destruct Hr as [(e & He & Heb) Hother].
  specialize (IH c1 Hnd). destruct (ask_modules c1 l) as [rest c2]. destruct IH as (En & IH & IHo). simpl. split_and!.
  - by f_equal.
  - intros m b' [E|Hin]%elem_of_cons; [|by apply IH]. injection E as -> ->. exists e. split; [|done]. by rewrite IHo.
  - intros m Hm'. rewrite not_elem_of_cons in Hm'. destruct Hm' as [Hm1 Hm2]. rewrite IHo by done. by apply Hother.
Qed.

(** The apps are told what the routes do: for each module in the
    configuration, every gate that still finds the entry fresh lets requests
    through if and only if the configuration says enabled. *)
Theorem mobile_config_agrees_with_gates c visits :
  let '(ans, c') := ask_modules c (zip mobile_modules visits) in
  (MobileConfig c visits).2 = c' /\
  forall (m : string) (b : bool), (m, b) ∈ ans -> exists e, c' !! m = Some e /\
    forall now later (o : http_outcome), now < ce_expires e ->
      (Module_gate c' m now later o).1 = if b then None else Some (json_error 404 ("module disabled or unknown: " +:+ m)).
Proof.
  assert (NoDup (zip mobile_modules visits).*1) as Hnd.
  { assert (forall (l : list string) (v : list visit), (zip l v).*1 `prefix_of` l) as Hp.
    { induction l as [|x l IH]; intros [|y v]; simpl; try apply prefix_nil. apply prefix_cons, IH. }
    destruct (Hp mobile_modules visits) as [k Hk].
    assert (NoDup mobile_modules) as Hm by (apply (bool_decide_unpack _); vm_compute; exact I). rewrite Hk in Hm.
    by apply list.NoDup_app in Hm as [? _]. }
  pose proof (ask_modules_remembers (zip mobile_modules visits) c Hnd) as Ha. unfold MobileConfig. destruct (ask_modules c _) as [ans c']. destruct Ha as (_ & Ha & _).
  split; [done|]. intros m b Hin. destruct (Ha m b Hin) as (e & He & Heb). exists e. split; [done|]. intros now later o Hnow.
  unfold Module_gate, IsEnabled, cached. rewrite He. assert ((now <? ce_expires e) = true) as -> by by apply Z.ltb_lt. simpl. rewrite Heb. by destruct b.
Qed.
