(* ===== verification/Events.v ===== *)
(** * The event publishers

    Models internal/events/publisher.go, which commerce-api, infra-api and
    toggle-service each carry, and citizen-api's internal/pubsub/pubsub.go:
    which transport the environment selects, the envelope, and publishing it.
    The backbone (Kafka, or Dapr in front of it) is the list of the records it
    accepted, in order; it stands where the ledger stands in commerce-api.

    The handlers' theorems are about [publish] of [World].  Here that effect is
    shown to be what the publishers do. *)

From S2P Require Import Prelude Codec World.

Open Scope Z_scope.
Open Scope go_scope.

(** ** Envelopes *)

Record Envelope : Type := mkEnvelope { ev_id : string; ev_type : string; ev_source : string; ev_time : Z; ev_payload : json }.

Record kafka_record : Type := mkKafkaRecord { kr_topic : string; kr_value : Envelope }.

(** [json.Marshal] refuses a [float64] that is infinite or not a number. *)
Fixpoint marshals (j : json) : bool :=
  match j with
  | JFloat (SpecFloat.S754_infinity _) | JFloat SpecFloat.S754_nan => false
  | JList l => forallb marshals l
  | JObj fs => forallb (fun kv => match kv with (_, v) => marshals v end) fs
  | _ => true
  end.

(** ** Publishers *)

Inductive Publisher : Type :=
| daprPublisher (component : string)
| kafkaPublisher
| noopPublisher.

(** [events.NewPublisher]: [client_ok] tells whether kgo.NewClient succeeds. *)
Definition NewPublisher (brokers : string) (client_ok : bool) : Publisher :=
  if decide (TrimSpace brokers = "") then noopPublisher
  else if client_ok then kafkaPublisher
  else noopPublisher.

Section Publish.
Context `{Runtime} {D : Type}.

(** [pubsub.New]. *)
Definition New (dapr_ok kafka_ok : bool) : Publisher :=
  if decide (getenv "DAPR_GRPC_PORT" <> "" /\ dapr_ok = true) then
    daprPublisher (if decide (getenv "DAPR_PUBSUB_NAME" = "") then "h2pubsub" else getenv "DAPR_PUBSUB_NAME")
  else if decide (TrimSpace (getenv "KAFKA_BROKERS") <> "" /\ kafka_ok = true) then kafkaPublisher
  else noopPublisher.

Abbreviation EM := (M D (list kafka_record)).

(** One record handed to the backbone: accepted, not accepted, or accepted
    and the acknowledgement lost. *)
Definition produce (r : kafka_record) : EM (result unit) := fun w =>
  let '(o, w) := pop w in
  let sent := with_led (w_led w ++ [r]) w in
  match o with
  | Done => (Ok tt, sent)
  | Lost => (Err (ErrIO "kafka"), w)
  | LostReply => (Err (ErrIO "kafka"), sent)
  end.

(** The time is written to the second. *)
Definition envelope (source topic : string) (data : json) : EM Envelope :=
  let! id := new_uuid in
  let! now := gets w_now in
  gret (mkEnvelope id topic source (now - now mod 1000) data).

Definition Publish (p : Publisher) (source topic : string) (data : json) : EM (result unit) :=
  let! e := envelope source topic data in
  match p with
  | noopPublisher => gret (Ok tt)
  | kafkaPublisher | daprPublisher _ =>
      if negb (marshals data) then gret (Err (ErrMsg "json: unsupported value"))
      else produce (mkKafkaRecord topic e)
  end.

(** ** What the handlers rely on *)

(** The events behind the records. *)
Definition announced (l : list kafka_record) : list event :=
  omap (fun r => match ev_payload (kr_value r) with JObj fs => Some (mkEvent (kr_topic r) fs) | _ => None end) l.

Lemma announced_app l l' : announced (l ++ l') = announced l ++ announced l'.
Proof. apply omap_app. Qed.

(** A world of the handlers, whose events are those of the records. *)
Definition abstracts {S} (w : World D (list kafka_record)) (v : World D S) : Prop :=
  w_bus v = announced (w_led w) /\ w_sched v = w_sched w /\ w_db v = w_db w /\ w_now v = w_now w.

(** Publishing refines [World.publish]: with a transport and data that has a
    JSON text, the answer and the events are those of the abstract effect
    under the same faults, and the record carries the event under its topic
    with the service's name. *)
Theorem publishing_refines {S} p source topic fields (w : World D (list kafka_record)) (v : World D S) :
  p <> noopPublisher -> marshals (JObj fields) = true -> abstracts w v ->
  let '(r, w') := Publish p source topic (JObj fields) w in
  let '(r', v') := publish topic fields v in
  r = r' /\ abstracts w' v' /\
  (w_led w' = w_led w \/ exists id t, w_led w' = w_led w ++ [mkKafkaRecord topic (mkEnvelope id topic source t (JObj fields))]) /\
  (r = Ok tt -> w_led w' <> w_led w).
Proof.
  intros Hp Hm (Eb & Es & Ed & En).
  assert (Publish p source topic (JObj fields) w
    = produce (mkKafkaRecord topic (mkEnvelope (uuid_of (w_uuids w)) topic source (w_now w - w_now w mod 1000) (JObj fields)))
        (with_uuids (w_uuids w + 1)%nat w)) as ->.
  { unfold Publish, envelope, gbind, new_uuid, gets, gret. rewrite Hm. by destruct p. }
  unfold produce, publish, pop. simpl. rewrite Es. unfold abstracts.
  assert (forall r : kafka_record, w_led w ++ [r] <> w_led w) as Hne
    by (intros r E; apply (f_equal length) in E; rewrite length_app in E; simpl in E; lia).
  destruct (w_sched w) as [|[] s] eqn:Ew; simpl; rewrite ?announced_app; simpl; rewrite ?Eb, ?Es, ?Ed, ?En, ?Ew;
    split_and!; try done; eauto.
Qed.

(** Data without a JSON text is an error and no event, whatever happens. *)
Lemma unmarshalable_not_published p source topic data (w : World D (list kafka_record)) :
  p <> noopPublisher -> marshals data = false ->
  exists e, (Publish p source topic data w).1 = Err e /\ w_led (Publish p source topic data w).2 = w_led w.
Proof.
  intros Hp Hm. unfold Publish, envelope, gbind, new_uuid, gets, gret. rewrite Hm. destruct p; [by eexists..|done].
Qed.

(** Without a transport every event is reported as published and none is. *)
Lemma noop_drops_events source topic data (w : World D (list kafka_record)) :
  (Publish noopPublisher source topic data w).1 = Ok tt /\ w_led (Publish noopPublisher source topic data w).2 = w_led w.
Proof. done. Qed.

End Publish.

(** The broker list decides: a service without one, or whose client cannot be
    built, drops its events. *)
Lemma transport_selected brokers client_ok :
  NewPublisher brokers client_ok = kafkaPublisher <-> TrimSpace brokers <> "" /\ client_ok = true.
Proof. unfold NewPublisher. case_decide; [naive_solver|]. destruct client_ok; naive_solver. Qed.

#[local] Existing Instance test_runtime.

Lemma publishing_refines_witness :
  let w : World unit (list kafka_record) := mkWorld () [] [] 1500 0 [LostReply] [] [] in
  abstracts w (mkWorld () () [] 1500 0 [LostReply] [] []) /\
  w_bus (publish "toggle.changed" [("module", JStr "telematics")] (mkWorld () () [] 1500 0 [LostReply] [] [])).2
    = announced (w_led (Publish kafkaPublisher "toggle-service" "toggle.changed" (JObj [("module", JStr "telematics")]) w).2).
Proof.
  cbv zeta.
  assert (abstracts (mkWorld () [] [] 1500 0 [LostReply] [] []) (mkWorld (D := unit) () () [] 1500 0 [LostReply] [] [])) as Ha by by split_and!.
  split; [exact Ha|].
  pose proof (publishing_refines kafkaPublisher "toggle-service" "toggle.changed" [("module", JStr "telematics")] _ _ ltac:(done) eq_refl Ha) as Hr.
  destruct (Publish _ _ _ _ _) as [r w'], (publish _ _ _) as [r' v']. destruct Hr as (_ & (Hb & _) & _). exact Hb.
Defined.
