(* ===== verification/Deployment.v ===== *)
(** * Configuration, and the search mirror of the audit log

    Models what the services read from their environment and decide by it:
    admin-api's internal/config and the targets cmd/server/main.go hands to
    the health sweep, audit-log's internal/config (its anomaly window, parsed
    by time.ParseDuration, apart), the pool sizes of packages/go-db, and
    audit-log's internal/mirror, which copies entries to OpenSearch.

    The environment is [getenv] of the class [Runtime]. *)

From Stdlib Require Import Ascii.
From S2P Require Import Prelude Codec World AuditLog Ops.

Open Scope Z_scope.
Open Scope go_scope.

(** ** Environment *)

Section Config.
Context `{Runtime}.

Definition envOr (key dflt : string) : string := if decide (getenv key = "") then dflt else getenv key.

(** packages/go-db: a positive integer, or the default. *)
Definition envInt (key : string) (dflt : Z) : Z :=
  if decide (getenv key = "") then dflt
  else match ParseInt (getenv key) with Some n => if 0 <? n then n else dflt | None => dflt end.

(** The conversion to [int32]. *)
Definition wrap_i32 (z : Z) : Z := (z + 2147483648) mod 4294967296 - 2147483648.

Definition MaxConns : Z := wrap_i32 (envInt "DB_MAX_CONNS" 32).
Definition MinConns : Z := wrap_i32 (envInt "DB_MIN_CONNS" 4).

(** *** admin-api *)

Record AdminConfig : Type := mkAdminConfig {
  ac_port : string; ac_database : string; ac_issuer : string; ac_toggle : string;
  ac_keycloak : string; ac_realm : string; ac_clientID : string; ac_secret : string; ac_alertmanager : string;
  ac_services : list (string * string);        (* name and base URL *)
  ac_middleware : list (string * string)       (* name and host:port *)
}.

Definition Load_admin : AdminConfig :=
  mkAdminConfig (envOr "PORT" "8085") (getenv "DATABASE_URL") (getenv "KEYCLOAK_ISSUER") (envOr "TOGGLE_URL" "http://toggle-service:8080")
    (envOr "KEYCLOAK_ADMIN_URL" "http://keycloak:8080") (envOr "KEYCLOAK_REALM" "h2fleet")
    (getenv "KEYCLOAK_ADMIN_CLIENT_ID") (getenv "KEYCLOAK_ADMIN_CLIENT_SECRET") (envOr "ALERTMANAGER_URL" "http://alertmanager:9093")
    [("toggle-service", envOr "TOGGLE_SERVICE_URL" "http://toggle-service:8080");
     ("fleet-api", envOr "FLEET_API_URL" "http://fleet-api:8081");
     ("infra-api", envOr "INFRA_API_URL" "http://infra-api:8082");
     ("citizen-api", envOr "CITIZEN_API_URL" "http://citizen-api:8083");
     ("commerce-api", envOr "COMMERCE_API_URL" "http://commerce-api:8084");
     ("admin-api", envOr "ADMIN_API_URL" "http://admin-api:8085");
     ("predictive-maintenance", envOr "PREDICTIVE_MAINTENANCE_URL" "http://predictive-maintenance:8090");
     ("route-optimizer", envOr "ROUTE_OPTIMIZER_URL" "http://route-optimizer:8091");
     ("digital-twin", envOr "DIGITAL_TWIN_URL" "http://digital-twin:8092");
     ("carbon-analytics", envOr "CARBON_ANALYTICS_URL" "http://carbon-analytics:8094")]
    [("kafka", envOr "KAFKA_TCP_ADDR" "kafka:9092"); ("postgres", envOr "POSTGRES_TCP_ADDR" "postgres:5432");
     ("redis", envOr "REDIS_TCP_ADDR" "redis:6379"); ("opensearch", envOr "OPENSEARCH_TCP_ADDR" "opensearch:9200");
     ("temporal", envOr "TEMPORAL_TCP_ADDR" "temporal:7233"); ("tigerbeetle", envOr "TIGERBEETLE_TCP_ADDR" "tigerbeetle:3000")].

Definition healthTargets (cfg : AdminConfig) : list Target :=
  map (fun s => mkTarget s.1 "http" s.2) (ac_services cfg) ++ map (fun s => mkTarget s.1 "tcp" s.2) (ac_middleware cfg).

(** *** audit-log *)

Record AuditConfig : Type := mkAuditConfig {
  au_port : string; au_database : string; au_issuer : string; au_ingestToken : string;
  au_openSearch : string; au_index : string; au_alertmanager : string; au_threshold : Z
}.

Definition Load_audit : AuditConfig :=
  mkAuditConfig (envOr "PORT" "8086") (getenv "DATABASE_URL") (getenv "KEYCLOAK_ISSUER") (getenv "AUDIT_INGEST_TOKEN")
    (envOr "OPENSEARCH_URL" "http://opensearch:9200") (envOr "OPENSEARCH_INDEX" "h2fleet-audit")
    (envOr "ALERTMANAGER_URL" "http://alertmanager:9093") (envInt "AUDIT_ANOMALY_THRESHOLD" 20).
End Config.

(** ** The mirror *)

Record Mirror : Type := mkMirror { mi_base : string; mi_index : string }.

Definition NewMirror (baseURL index : string) : Mirror := mkMirror (TrimSuffix1 baseURL "/") index.

Definition MirrorEnabled (m : Mirror) : bool := bool_decide (mi_base m <> "" /\ mi_index m <> "").

(** What the mirror remembers: whether it has seen its index, and the counter
    audit_mirror_failures_total. *)
Record mirrored : Type := mkMirrored { mr_ensured : bool; mr_failures : Z }.

Section Mirroring.
Context {S : Type}.

Abbreviation MM := (M mirrored S).

Definition set_mirrored (f : mirrored -> mirrored) : MM unit := fun w => (tt, with_db (f (w_db w)) w).
Definition count_failure : MM unit := set_mirrored (fun s => mkMirrored (mr_ensured s) (mr_failures s + 1)).

Definition keyword : json := JObj [("type", JStr "keyword")].
Definition opaque : json := JObj [("type", JStr "object"); ("enabled", JBool false)].

Definition mapping : json :=
  JObj [("mappings", JObj [("properties", JObj [
    ("actor_sub", keyword); ("actor_roles", keyword); ("action", keyword); ("entity", keyword); ("entity_id", keyword);
    ("ip", JObj [("type", JStr "ip")]); ("ua", JObj [("type", JStr "text")]); ("ts", JObj [("type", JStr "date")]);
    ("before", opaque); ("after", opaque); ("prev_hash", keyword); ("hash", keyword)])])].

Definition index_request (m : Mirror) : http_request := mkHttpRequest "PUT" (mi_base m +:+ "/" +:+ mi_index m) mapping.

Definition doc_path (m : Mirror) (id : Z) : string := mi_base m +:+ "/" +:+ mi_index m +:+ "/_doc/" +:+ pretty id.

Definition doc_request (m : Mirror) (e : Entry) : http_request := mkHttpRequest "PUT" (doc_path m (en_num e)) (entry_json e).

(** The status of the answer; a transport error has none. *)
Definition put (rq : http_request) : MM (option Z) :=
  let! h := http_do rq in
  gret (match h with HttpReply _ code _ _ => Some code | HttpFail _ _ _ => None end).

(** [EnsureIndex]: 400 counts as the index being there. *)
Definition EnsureIndex (m : Mirror) : MM bool :=
  let! s := gets w_db in
  if negb (MirrorEnabled m) || mr_ensured s then gret true
  else
    let! r := put (index_request m) in
    match r with
    | None => do! count_failure in gret false
    | Some code =>
        if (300 <=? code) && negb (code =? 400) then do! count_failure in gret false
        else do! set_mirrored (fun s => mkMirrored true (mr_failures s)) in gret true
    end.

Definition PublishEntry (m : Mirror) (e : Entry) : MM unit :=
  if negb (MirrorEnabled m) then gret tt
  else
    let! there := EnsureIndex m in
    if negb there then gret tt
    else
      let! r := put (doc_request m e) in
      match r with
      | Some code => if 300 <=? code then count_failure else gret tt
      | None => count_failure
      end.

Fixpoint PublishEntries (m : Mirror) (es : list Entry) : MM unit :=
  match es with [] => gret tt | e :: es => do! PublishEntry m e in PublishEntries m es end.

(** ** What the mirror holds *)

(** A document the index may hold after the requests sent. *)
Definition sent_document (sent : list http_request) (path : string) (j : json) : Prop :=
  mkHttpRequest "PUT" path j ∈ sent.

Lemma wp_put (rq : http_request) (Q : option Z -> World mirrored S -> Prop) w :
  (forall r h, Q r (with_sent (w_sent w ++ [rq]) (with_http h w))) -> wp (put rq) Q w.
Proof. intros HQ. unfold put. apply wp_bind, wp_http_do. intros o h. apply wp_ret. apply HQ. Qed.

(** What one publication sends, whatever is answered: perhaps the index,
    perhaps the document, and nothing else. *)
Lemma publish_entry_sends m e (w : World mirrored S) :
  wp (PublishEntry m e) (fun _ w' => exists l, w_sent w' = w_sent w ++ l /\ forall rq, rq ∈ l -> rq = index_request m \/ rq = doc_request m e) w.
Proof.
  assert (exists l, w_sent w = w_sent w ++ l /\ forall rq, rq ∈ l -> rq = index_request m \/ rq = doc_request m e) as Hnone
    by (exists []; rewrite app_nil_r; split; [done|set_solver]).
  unfold PublishEntry. destruct (negb _); [by apply wp_ret|].
  assert (forall l w1, w_sent w1 = w_sent w ++ l -> (forall rq, rq ∈ l -> rq = index_request m \/ rq = doc_request m e) ->
    wp (let! r := put (doc_request m e) in match r with Some code => if 300 <=? code then count_failure else gret tt | None => count_failure end)
      (fun _ w' => exists l, w_sent w' = w_sent w ++ l /\ forall rq, rq ∈ l -> rq = index_request m \/ rq = doc_request m e) w1) as Hdoc.
  { intros l w1 El Hl. apply wp_bind, wp_put. intros r h.
    assert (exists l', w_sent w1 ++ [doc_request m e] = w_sent w ++ l' /\ forall rq, rq ∈ l' -> rq = index_request m \/ rq = doc_request m e) as Hend.
    { exists (l ++ [doc_request m e]). rewrite El, app_assoc. split; [done|]. intros rq [?|?%list_elem_of_singleton]%elem_of_app; auto. }
    destruct r as [code|]; [destruct (300 <=? code)|]; [exact Hend|apply wp_ret; exact Hend|exact Hend]. }
  apply wp_bind. unfold EnsureIndex. apply wp_bind, wp_gets. destruct (_ || _).
  { apply wp_ret. apply (Hdoc []); [by rewrite app_nil_r|set_solver]. }
  apply wp_bind, wp_put. intros r h.
  assert (forall rq, rq ∈ [index_request m] -> rq = index_request m \/ rq = doc_request m e) as Hone by (intros rq ?%list_elem_of_singleton; auto).
  destruct r as [code|]; [destruct (_ && _)|].
  - apply wp_bind. exists [index_request m]. by split.
  - apply wp_bind. apply wp_ret. apply (Hdoc [index_request m]); [done|exact Hone].
  - apply wp_bind. exists [index_request m]. by split.
Qed.

Lemma publish_entries_send m es (w : World mirrored S) :
  wp (PublishEntries m es) (fun _ w' => exists l, w_sent w' = w_sent w ++ l /\
    forall rq, rq ∈ l -> rq = index_request m \/ exists e, e ∈ es /\ rq = doc_request m e) w.
Proof.
  revert w. induction es as [|e es IH]; intros w; simpl; [apply wp_ret; exists []; rewrite app_nil_r; split; [done|set_solver]|].
  apply wp_bind. eapply wp_mono; [|apply publish_entry_sends]. intros _ w1 (l1 & E1 & H1).
  eapply wp_mono; [|apply IH]. intros _ w2 (l2 & E2 & H2). exists (l1 ++ l2). rewrite E2, E1, app_assoc. split; [done|].
  intros rq [Hr|Hr]%elem_of_app; [destruct (H1 _ Hr) as [?|?]; [by left|right; exists e; split; [by left|done]]|].
  destruct (H2 _ Hr) as [?|(e' & He' & ?)]; [by left|right]. exists e'. split; [by right|done].
Qed.

Lemma doc_path_inj m a b : doc_path m a = doc_path m b -> a = b.
Proof. unfold doc_path. intros E. by do 4 apply (inj (String.append _)) in E; apply (inj pretty) in E. Qed.

Lemma append_longer (a b : string) : a +:+ b = a -> b = "".
Proof. induction a as [|c a IH]; [done|]. intros [= E]. by apply IH. Qed.

Lemma index_is_no_document m id : mi_base m +:+ "/" +:+ mi_index m <> doc_path m id.
Proof.
  unfold doc_path. intros E. do 2 apply (inj (String.append _)) in E. symmetry in E. apply append_longer in E. discriminate.
Qed.

(** The mirror copies the trail: whatever is answered and in whatever order
    entries are published, a document at the path of an entry is that entry,
    and every document is one of the entries published; publishing changes
    nothing but the mirror. *)
Theorem mirror_copies_the_trail m es (w : World mirrored S) : NoDup (map en_num es) -> w_sent w = [] ->
  let w' := (PublishEntries m es w).2 in
  (forall e j, e ∈ es -> sent_document (w_sent w') (doc_path m (en_num e)) j -> j = entry_json e) /\
  (forall path j, sent_document (w_sent w') path j -> path <> mi_base m +:+ "/" +:+ mi_index m ->
     exists e, e ∈ es /\ path = doc_path m (en_num e) /\ j = entry_json e).
Proof.
  intros Hnd Hs. cbv zeta. pose proof (publish_entries_send m es w) as Hw. unfold wp in Hw.
  destruct (PublishEntries m es w) as [[] w']. destruct Hw as (l & El & Hl). rewrite Hs in El. cbn [snd] in *. simpl in El. rewrite El.
  unfold sent_document. assert (forall path j, mkHttpRequest "PUT" path j ∈ l -> path <> mi_base m +:+ "/" +:+ mi_index m ->
    exists e, e ∈ es /\ path = doc_path m (en_num e) /\ j = entry_json e) as Hall.
  { intros path j Hin Hne. destruct (Hl _ Hin) as [E|(e & He & E)].
    - unfold index_request in E. injection E as -> _. done.
    - unfold doc_request in E. injection E as -> ->. eauto. }
  split; [|exact Hall]. intros e j He Hin. destruct (Hall _ _ Hin) as (e' & He' & Hp & ->); [intros E; symmetry in E; by apply index_is_no_document in E|].
  apply doc_path_inj in Hp. f_equal. clear -Hnd He He' Hp. induction es as [|x es IH]; [by apply elem_of_nil in He|].
  simpl in Hnd. apply list.NoDup_cons in Hnd as [Hx Hnd].
  assert (forall y, y ∈ es -> en_num y = en_num x -> False) as Hno by (intros y Hy Ey; apply Hx; rewrite <- Ey; by apply list_elem_of_fmap_2).
  apply elem_of_cons in He as [-> |He], He' as [-> |He']; [done|exfalso; by eapply Hno|exfalso; by eapply Hno|by apply IH].
Qed.

(** No failure is silent: an entry that did not raise the counter was
    acknowledged with a status below 300, when the mirror is on. *)
Theorem unmirrored_entry_counted m e (w : World mirrored S) : MirrorEnabled m = true ->
  let w' := (PublishEntry m e w).2 in
  mr_failures (w_db w') = mr_failures (w_db w) + 1 \/
  (mr_failures (w_db w') = mr_failures (w_db w) /\ exists elapsed code raw doc,
     HttpReply elapsed code raw doc ∈ w_http w /\ code < 300 /\ list.last (w_sent w') = Some (doc_request m e)).
Proof.
  intros Hm. cbv zeta.
  assert (forall w1 : World mirrored S, mr_failures (w_db w1) = mr_failures (w_db w) -> (forall h, h ∈ w_http w1 -> h ∈ w_http w) ->
    wp (let! r := put (doc_request m e) in match r with Some code => if 300 <=? code then count_failure else gret tt | None => count_failure end)
      (fun _ w' => mr_failures (w_db w') = mr_failures (w_db w) + 1 \/
        (mr_failures (w_db w') = mr_failures (w_db w) /\ exists elapsed code raw doc,
           HttpReply elapsed code raw doc ∈ w_http w /\ code < 300 /\ list.last (w_sent w') = Some (doc_request m e))) w1) as Hdoc.
  { intros w1 Ef Hh. apply wp_bind. unfold wp, put, gbind, http_do. destruct w1 as [d l b n u s h snt]; simpl in *.
    destruct h as [|[el t msg|el code raw doc] h]; simpl; [left; congruence|left; congruence|].
    destruct (Z.leb_spec 300 code); simpl; [left; congruence|right]. split; [done|]. exists el, code, raw, doc. split_and!; [apply Hh; by left|done|].
    by rewrite list.last_snoc. }
  change (wp (PublishEntry m e) (fun _ w' => mr_failures (w_db w') = mr_failures (w_db w) + 1 \/
        (mr_failures (w_db w') = mr_failures (w_db w) /\ exists elapsed code raw doc,
           HttpReply elapsed code raw doc ∈ w_http w /\ code < 300 /\ list.last (w_sent w') = Some (doc_request m e))) w).
  unfold PublishEntry. rewrite Hm. simpl negb. cbv iota. apply wp_bind. unfold EnsureIndex. apply wp_bind, wp_gets. rewrite Hm. simpl.
  destruct (mr_ensured (w_db w)); [apply wp_ret; by apply Hdoc|].
  apply wp_bind. unfold wp at 1, put, gbind, http_do. destruct (w_http w) as [|[el t msg|el code raw doc] h] eqn:Eh; simpl; [by left|by left|].
  destruct ((300 <=? code) && negb (code =? 400)) eqn:Ec; simpl; [by left|]. apply Hdoc; [done|]. simpl. intros x Hx. by right.
Qed.
End Mirroring.

(** ** What the configuration says *)

Section Configured.
Context `{Runtime}.

(** The comment says that an empty OPENSEARCH_URL disables the mirror; the
    default takes its place, and the mirror is on. *)
Theorem empty_url_mirrors :
  getenv "OPENSEARCH_URL" = "" -> MirrorEnabled (NewMirror (au_openSearch Load_audit) (au_index Load_audit)) = true.
Proof.
  unfold MirrorEnabled, NewMirror, Load_audit, envOr. simpl. intros ->. apply bool_decide_eq_true. split; [done|]. by case_decide.
Qed.

(** The sweep checks ten services and six pieces of middleware; the audit log
    is in neither list, so nobody sees it down. *)
Theorem audit_log_not_swept :
  length (healthTargets Load_admin) = 16%nat /\ NoDup (map ta_name (healthTargets Load_admin)) /\
  "audit-log" ∉ map ta_name (healthTargets Load_admin).
Proof.
  split_and!; [reflexivity| |]; apply (bool_decide_unpack _); vm_compute; exact I.
Qed.

(** The threshold of the anomaly detector and the pool sizes are positive,
    the latter as long as they fit an [int32]. *)
Lemma envInt_positive key dflt : 0 < dflt -> 0 < envInt key dflt.
Proof. intros Hd. unfold envInt. case_decide; [done|]. destruct (ParseInt _) as [n|]; [|done]. by destruct (Z.ltb_spec 0 n). Qed.

Lemma pool_sizes_positive : envInt "DB_MAX_CONNS" 32 <= 2147483647 -> 0 < MaxConns.
Proof.
  intros Hm. unfold MaxConns, wrap_i32. pose proof (envInt_positive "DB_MAX_CONNS" 32 ltac:(lia)).
  rewrite Z.mod_small by lia. lia.
Qed.
End Configured.

(** ** Runs *)

#[local] Existing Instance test_runtime.

(** A refusal of the index with 400, whatever the reason, counts as the index
    being there: the entry then goes to an index without the mapping, and no
    failure is counted. *)
Theorem refused_index_taken_for_present :
  let m := NewMirror "http://opensearch:9200/" "h2fleet-audit" in
  let e := mkEntry 7 "kc|a" [] "user.disable" "user" "u1" None None "" "" 0 "" "" in
  let w : World mirrored unit := mkWorld (mkMirrored false 0) () [] 0 0 [] [HttpReply 0 400 "invalid_index_name_exception" None; HttpReply 0 201 "" None] [] in
  let w' := (PublishEntry m e w).2 in
  w_db w' = mkMirrored true 0 /\ w_sent w' = [index_request m; doc_request m e] /\
  hr_path (doc_request m e) = "http://opensearch:9200/h2fleet-audit/_doc/7".
Proof. vm_compute. auto. Qed.

Lemma mirror_copies_the_trail_witness :
  let m := NewMirror "http://opensearch:9200/" "h2fleet-audit" in
  let e1 := mkEntry 7 "kc|a" [] "user.disable" "user" "u1" None None "" "" 0 "" "" in
  let e2 := mkEntry 8 "kc|a" [] "user.enable" "user" "u1" None None "" "" 1 "" "" in
  let w : World mirrored unit := mkWorld (mkMirrored true 0) () [] 0 0 [] [HttpFail 0 true ""; HttpReply 0 201 "" None] [] in
  NoDup (map en_num [e1; e2]) /\
  forall j, sent_document (w_sent (PublishEntries m [e1; e2] w).2) (doc_path m 8) j -> j = entry_json e2.
Proof.
  cbv zeta. assert (NoDup [7; 8]) as Hnd by (apply (bool_decide_unpack _); vm_compute; exact I). split; [exact Hnd|]. intros j Hj.
  set (e1 := mkEntry 7 _ _ _ _ _ _ _ _ _ _ _ _) in *. set (e2 := mkEntry 8 _ _ _ _ _ _ _ _ _ _ _ _) in *.
  match type of Hj with sent_document (w_sent (PublishEntries ?m _ ?w).2) _ _ =>
    exact (proj1 (mirror_copies_the_trail m [e1; e2] w Hnd eq_refl) e2 j ltac:(right; by left) Hj) end.
Defined.
